(* ===== verification/_CoqProject ===== *)
-Q . S2P
Prelude.v
Params.v
Mem.v
State.v
Evict.v
Kalloc.v
Vm.v
VmInv.v
VmFault.v
VmFaultSpec.v
UserMem.v
VmCopy.v
VmSpace.v
VmFree.v
Demo.v
VmTheorems.v
Grep.v
Umalloc.v
Shell.v
ShellProps.v
Spinlock.v
SpinProps.v
Sched.v
SchedSpec.v
SchedProps.v
MemFrame.v
Sleeplock.v
Printf.v
Ulib.v
Utils.v
ShellRun.v
Bio.v
BioSpec.v
BioLaws.v
Log.v
Fs.v
Pipe.v
PipeProps.v
Console.v
File.v
ProcLife.v
ConsoleProps.v
Virtio.v
Fork.v
Reap.v
Exec.v
Syscall.v
Trap.v
Asm.v
AsmProps.v
Boot.v
FsInv.v
LogSpec.v
LogTheorems.v
FsDemo.v
LogProps.v
FsAlloc.v
FsFile.v
FsBmap.v
FsSource.v
FsRw.v
FsInode.v
FsProps.v
FsDirProps.v
FsTrunc.v
Mkfs.v
MkfsSpec.v
MkfsInv.v
MkfsProps.v
Path.v
VirtioProps.v
TrapProps.v
Uprog.v
Programs.v
UtBasic.v
UtFiles.v
UtMem.v
Grind.v
