(* ===== verification/Prelude.v ===== *)
(** * xv6-riscv with swap and MLFQ: a verification library

    The program is xv6 for RISC-V (src/kernel), extended by a multi-level
    feedback queue scheduler and by page replacement with a swap area in RAM,
    the program that builds its disk image (src/mkfs) and its user programs
    (src/user).  Each definition is a translation of the C or assembly code
    it is named after; the theorems are about those definitions.

    ** How the code is modelled

    The kernel is one record, [State.kernel]: physical memory as bytes, the
    process table, queues, frame table, swap slots, buffers, log, inodes,
    files, pipes, console, disk, driver rings, control registers, the set of
    spin locks held.  A routine is a function of the monad [K] below; it
    returns, panics, or sleeps for ever.  An address is a [Z]; arithmetic that
    can wrap is written with [u64], [u32] or [i32].  Page tables, the free list
    and trap frames are bytes of memory; other structures are records, and
    pointers to them are indices.  [wp m Q k] says that [m] returns from [k], in
    a state with [Q]: it excludes panics and sleeping for ever.

    A routine runs as one thread.  Where it gives up the processor, in [sched],
    the function [interf] of the class [Sched.Interference] stands for
    everything the rest of the machine does.  Interleavings are modelled as
    step relations of their own where a property is about them: every access
    of the lock code ([Spinlock.hart_step]), the operations of threads on the
    log ([LogProps.log_step]) and on a pipe ([PipeProps.pipe_step]).

    Other parameters stand for what is not in the sources: [Kalloc.Layout] (the
    linker script), [ProcLife.Text] (addresses of code), [VirtioProps.Device]
    (the disk device), address translation in [Asm], and what system calls
    answer to the programs of Utils, Grep and Shell.  [LayoutOk], [DiskOk] and
    [DeviceOk] name what is relied on; VirtioProps proves [DiskOk] of the
    kernel's own driver.

    ** The parts, their files and what is shown

    - Prelude, Params, Mem, State: monad, constants and the macros of riscv.h,
      kernel/string.c, state.
    - Memory (vm.c, kalloc.c).  Evict, Kalloc and Vm are the code; VmInv has the
      invariant [vm_wf] and the memory a process sees, [view].  VmFault,
      VmFaultSpec, UserMem and MemFrame carry the proofs, Demo is a concrete
      machine, VmTheorems has the results: allocation with eviction is
      invisible to processes, faults restore or zero pages, [copyout] and
      [copyin] are inverse across resident and swapped pages.  VmSpace, VmCopy
      and VmFree: address spaces are created, copied and given back.
    - Scheduler and processes (proc.c).  Sched and ProcLife are the code.
      SchedSpec and SchedProps: the search, the tick, [wakeup] and the boost
      compute what their specifications say, and no process starves after a
      boost.  Fork and Reap: fork copies the address space of the parent,
      pages in swap included, and wait gives back all that the child had.
    - Locks.  Spinlock and SpinProps: mutual exclusion and interrupt state on
      several harts.  Sleeplock: waiting and sleep locks.  TrapProps: each
      routine releases what it takes, up to the trap handler.
    - Buffer cache, log, disk (bio.c, log.c, virtio_disk.c).  Bio, Log and Virtio
      are the code.  BioSpec, BioLaws, FsInv, LogSpec, LogTheorems and
      LogProps: the cache is a block store, commits are atomic under crashes,
      recovery can be repeated, the log does not overflow while operations keep
      to what they reserve, and what happens when it is full.  VirtioProps: the
      driver, its notifications and interrupts, for one request at a time.
    - File system (fs.c).  Fs is the code.  FsAlloc, FsFile, FsBmap, FsSource
      (where a write takes its bytes from, as an interface), FsRw, FsInode,
      FsDemo, FsProps, FsTrunc: files as byte arrays, frames, log blocks per
      write, truncation.  FsDirProps: directories as maps.  Path:
      path names.
    - Files, pipes, console, output (file.c, pipe.c, console.c, uart.c, printf.c):
      File, Pipe, Console, Printf.  PipeProps: pipes as queues.  ConsoleProps:
      line editing, and reads of whole lines.  Writes to device registers are
      a sequence of addresses and values in the state.
    - Programs, system calls, traps (exec.c, syscall.c, sysproc.c, sysfile.c,
      trap.c, plic.c, main.c): Exec, Syscall, Trap; TrapProps has the fault
      that panics.
    - Assembly and start-up (trampoline.S, swtch.S, kernelvec.S, entry.S,
      start.c): Asm, AsmProps, Boot: registers survive traps and switches.
    - mkfs: Mkfs is the code; MkfsSpec, MkfsInv and MkfsProps show that the
      image is a file system in the sense of the Fs files.
    - User programs as functions: Ulib (ulib.c, printf.c), Umalloc, Grep, Utils
      (cat, wc, echo), and Shell, ShellProps, ShellRun (sh.c): the allocator
      never overlaps blocks, the matcher decides the language of the pattern,
      the parser inverts printing, [runcmd] wires descriptors.
    - User programs as interaction trees, whose events are the system calls and
      the loads and stores at computed addresses: Uprog has the language,
      Programs the small programs of src/user, UtBasic, UtFiles and UtMem all
      of usertests.c, Grind grind.c with the arithmetic of its generator.

    ** Bounds and fuel

    Counting loops use [for_range] with the bound of the source.  Loops that
    are not counted take fuel.  [readi], [writei] and the copies to and from
    user memory make progress in each round, so the bytes asked for are
    enough; [namex] removes an element in each round, so the length of the
    path is enough ([Path.namex_loop_fuel]); list scans of the cache are
    bounded by the buffers.  Umalloc and Ulib return [None] without fuel, and
    their theorems say that some fuel, or which fuel, is enough.  A loop
    that waits goes around once more than the thread is still resumed
    ([k_wakeups]), or [Sleeplock.SPIN] times for a thread that is always
    resumed; then the result is [Asleep], which no [wp] accepts.  The endless
    loop of SC_MLFQ is any number of rounds.  Endless loops of user programs
    are [ITree.iter].

    ** Limits of the theorems

    The memory theorems assume that a page is free or can be evicted
    ([can_alloc], [free_pages]), since [evict_page] panics otherwise.  They
    have one thread in the kernel: races of eviction with other harts are not
    covered.  The theorems on files assume that only scheduling data change
    while the thread waits for the disk ([BioLaws.resched]).  Crash safety is
    for transactions of fewer than NBUF blocks: [LogProps.full_commit_panics]
    shows why.  The lock discipline of traps is about traps that return.
    exec and the handlers of system calls are modelled and covered by the lock
    discipline, without a functional specification of their own.  The theorems
    on writes to files from user memory are about memory the process can read:
    a copy that fails in the middle of a block leaves bytes in the buffer that
    are not logged.  wait is specified for a null status pointer and for one
    into a writable page in RAM.  Of the user programs as interaction trees only the
    generator of grind has a theorem.  The reference counts of files and inodes
    are integers without a width: each reference is an entry of a
    table of the kernel, and there are far fewer than 2^31 of those.

    ** Not modelled

    - The output of panic: it is the outcome [Panic].
    - Weak memory: harts are sequentially consistent; TLB and caches.
    - main of grep: it opens the files of its arguments one after the other.
    - user/usys.pl, the linker scripts and the Makefile: build inputs. *)

From Stdlib Require Import ZArith Lia.
From stdpp Require Import base list strings sets.

Declare Scope kernel_scope.
Delimit Scope kernel_scope with kernel.
Open Scope Z_scope.

(** ** The kernel monad

    A kernel routine runs from a state to an outcome.  [Ret] is a normal
    return, [Panic] is a call of [panic] (printf.c), and [Asleep] is a thread
    that called [sleep] (proc.c) and that nobody wakes up again. *)
Inductive outcome (W A : Type) : Type :=
  | Ret (a : A) (w : W)
  | Panic (msg : string)
  | Asleep (w : W).
Arguments Ret {W A} _ _.
Arguments Panic {W A} _.
Arguments Asleep {W A} _.

Definition K (W A : Type) : Type := W -> outcome W A.

Section Monad.
Context {W : Type}.

Definition ret {A} (a : A) : K W A := fun w => Ret a w.

Definition bind {A B} (m : K W A) (f : A -> K W B) : K W B := fun w =>
  match m w with
  | Ret a w' => f a w'
  | Panic msg => Panic msg
  | Asleep w' => Asleep w'
  end.

Definition panic {A} (msg : string) : K W A := fun _ => Panic msg.
Definition gets {A} (f : W -> A) : K W A := fun w => Ret (f w) w.
Definition modify (f : W -> W) : K W unit := fun w => Ret tt (f w).
Definition when (b : bool) (m : K W unit) : K W unit := if b then m else ret tt.

(** [for (i = lo; i < lo + n; i++) body(i);] *)
Fixpoint for_range (n : nat) (lo : Z) (body : Z -> K W unit) : K W unit :=
  match n with
  | O => ret tt
  | S n' => bind (body lo) (fun _ => for_range n' (lo + 1) body)
  end.

(** The same loop with local variables carried in an accumulator. *)
Fixpoint for_fold {A} (n : nat) (lo : Z) (a : A) (body : Z -> A -> K W A) : K W A :=
  match n with
  | O => ret a
  | S n' => bind (body lo a) (fun a' => for_fold n' (lo + 1) a' body)
  end.

(** The loop whose body may leave it with [break] or [return]: the loop
    stops at the first iteration that produces a value. *)
Fixpoint for_until {A} (n : nat) (lo : Z) (body : Z -> K W (option A)) : K W (option A) :=
  match n with
  | O => ret None
  | S n' => bind (body lo) (fun r =>
      match r with
      | Some a => ret (Some a)
      | None => for_until n' (lo + 1) body
      end)
  end.
End Monad.

Lemma for_range_S {W} n lo (body : Z -> K W unit) :
  for_range (S n) lo body = bind (body lo) (fun _ => for_range n (lo + 1) body).
Proof. done. Qed.
Lemma for_fold_S {W A} n lo (a : A) (body : Z -> A -> K W A) :
  for_fold (S n) lo a body = bind (body lo a) (fun a' => for_fold n (lo + 1) a' body).
Proof. done. Qed.
Lemma for_until_S {W A} n lo (body : Z -> K W (option A)) :
  for_until (S n) lo body =
  bind (body lo) (fun r => match r with Some a => ret (Some a) | None => for_until n (lo + 1) body end).
Proof. done. Qed.

#[global] Arguments for_range : simpl never.
#[global] Arguments for_fold : simpl never.
#[global] Arguments for_until : simpl never.

Notation "'let!' x ':=' m 'in' k" := (bind m (fun x => k))
  (at level 10, x pattern, m at level 100, k at level 200,
   format "'[v' 'let!'  x  ':='  m  'in' '/' k ']'") : kernel_scope.
Notation "'do!' m ; k" := (bind m (fun _ => k))
  (at level 10, m at level 100, k at level 200,
   format "'[v' 'do!'  m ; '/' k ']'") : kernel_scope.
Open Scope kernel_scope.

(** [wp m Q w]: from [w], [m] returns (no panic, no lost sleep) with [Q]. *)
Definition wp {W A} (m : K W A) (Q : A -> W -> Prop) (w : W) : Prop :=
  match m w with
  | Ret a w' => Q a w'
  | _ => False
  end.

Section Wp.
Context {W : Type}.

Lemma wp_ret {A} (a : A) (Q : A -> W -> Prop) w : Q a w -> wp (ret a) Q w.
Proof. done. Qed.

Lemma wp_bind {A B} (m : K W A) (f : A -> K W B) Q w :
  wp m (fun a w' => wp (f a) Q w') w -> wp (bind m f) Q w.
Proof. unfold wp, bind. by destruct (m w). Qed.

Lemma wp_gets {A} (f : W -> A) Q w : Q (f w) w -> wp (gets f) Q w.
Proof. done. Qed.

Lemma wp_modify (f : W -> W) Q w : Q tt (f w) -> wp (modify f) Q w.
Proof. done. Qed.

Lemma wp_mono {A} (m : K W A) (P Q : A -> W -> Prop) w :
  wp m P w -> (forall a w', P a w' -> Q a w') -> wp m Q w.
Proof. unfold wp. destruct (m w); intros; firstorder congruence. Qed.

Lemma wp_Ret {A} (m : K W A) Q w a w' : m w = Ret a w' -> Q a w' -> wp m Q w.
Proof. unfold wp. by intros ->. Qed.

Lemma wp_inv {A} (m : K W A) Q w :
  wp m Q w <-> exists a w', m w = Ret a w' /\ Q a w'.
Proof. unfold wp. destruct (m w); naive_solver. Qed.

Lemma wp_ext {A} (m m' : K W A) Q w : m w = m' w -> wp m' Q w -> wp m Q w.
Proof. unfold wp. by intros ->. Qed.

Lemma wp_eq {A} (m : K W A) w a w' : wp m (fun b w1 => b = a /\ w1 = w') w -> m w = Ret a w'.
Proof. unfold wp. destruct (m w); [|done..]. by intros [-> ->]. Qed.

Lemma bind_Ret {A B} (m : K W A) (f : A -> K W B) w a w' :
  m w = Ret a w' -> bind m f w = f a w'.
Proof. unfold bind. by intros ->. Qed.

Lemma bind_Panic {A B} (m : K W A) (f : A -> K W B) w msg :
  m w = Panic msg -> bind m f w = Panic msg.
Proof. unfold bind. by intros ->. Qed.

Lemma bind_inv {A B} (m : K W A) (f : A -> K W B) w b w'' :
  bind m f w = Ret b w'' -> exists a w', m w = Ret a w' /\ f a w' = Ret b w''.
Proof. unfold bind. destruct (m w); naive_solver. Qed.

(** Loop rule: an invariant indexed by the loop counter. *)
Lemma wp_for_range n lo body (I : Z -> W -> Prop) w :
  I lo w ->
  (forall i w, lo <= i < lo + Z.of_nat n -> I i w ->
     wp (body i) (fun _ => I (i + 1)) w) ->
  wp (for_range n lo body) (fun _ => I (lo + Z.of_nat n)) w.
Proof.
  revert lo w. induction n as [|n IH]; intros lo w HI Hb; cbn [for_range for_until].
  - apply wp_ret. by rewrite Z.add_0_r.
  - apply wp_bind. eapply wp_mono; [apply Hb; [lia|done]|].
    intros u w' HI'. eapply wp_mono; [apply IH; [done|]|].
    + intros i w1 Hi. apply Hb. lia.
    + intros u' w1. by replace (lo + 1 + Z.of_nat n) with (lo + Z.of_nat (S n)) by lia.
Qed.

Lemma wp_for_fold {A} n lo (a : A) body (I : Z -> A -> W -> Prop) w :
  I lo a w ->
  (forall i a w, lo <= i < lo + Z.of_nat n -> I i a w ->
     wp (body i a) (fun a' => I (i + 1) a') w) ->
  wp (for_fold n lo a body) (fun a' => I (lo + Z.of_nat n) a') w.
Proof.
  revert lo a w. induction n as [|n IH]; intros lo a w HI Hb; cbn [for_fold].
  - apply wp_ret. by rewrite Z.add_0_r.
  - apply wp_bind. eapply wp_mono; [apply Hb; [lia|done]|].
    intros a' w' HI'. eapply wp_mono; [apply IH; [done|]|].
    + intros i a1 w1 Hi. apply Hb. lia.
    + intros a1 w1. by replace (lo + 1 + Z.of_nat n) with (lo + Z.of_nat (S n)) by lia.
Qed.

(** A loop with an exit: [I] holds while it runs, [Q] at an exit. *)
Lemma wp_for_until {A} n lo body (I : Z -> W -> Prop) (Q : A -> W -> Prop) w :
  I lo w ->
  (forall i w, lo <= i < lo + Z.of_nat n -> I i w ->
     wp (body i) (fun r w' => match r with Some a => Q a w' | None => I (i + 1) w' end) w) ->
  wp (for_until n lo body)
    (fun r w' => match r with Some a => Q a w' | None => I (lo + Z.of_nat n) w' end) w.
Proof.
  revert lo w. induction n as [|n IH]; intros lo w HI Hb; cbn [for_range for_until].
  - apply wp_ret. by rewrite Z.add_0_r.
  - apply wp_bind. eapply wp_mono; [apply Hb; [lia|done]|].
    intros [a|] w' HI'; [done|]. eapply wp_mono; [apply IH; [done|]|].
    + intros i w1 Hi. apply Hb. lia.
    + intros [a|] w1; [done|].
      by replace (lo + 1 + Z.of_nat n) with (lo + Z.of_nat (S n)) by lia.
Qed.
End Wp.

(** [wps m Q S w]: from [w], [m] returns with [Q], or it is switched out for
    good in a state that satisfies [S]; it does not panic. *)
Definition wps {W A} (m : K W A) (Q : A -> W -> Prop) (S : W -> Prop) (w : W) : Prop :=
  match m w with
  | Ret a w' => Q a w'
  | Panic _ => False
  | Asleep w' => S w'
  end.

Lemma wps_bind {W A B} (m : K W A) (f : A -> K W B) Q S w :
  wps m (fun a w' => wps (f a) Q S w') S w -> wps (bind m f) Q S w.
Proof. unfold wps, bind. by destruct (m w). Qed.

Lemma wp_wps {W A} (m : K W A) Q S (w : W) : wp m Q w -> wps m Q S w.
Proof. unfold wp, wps. by destruct (m w). Qed.

Lemma wps_mono {W A} (m : K W A) (Q Q' : A -> W -> Prop) (S S' : W -> Prop) w :
  wps m Q S w -> (forall a w', Q a w' -> Q' a w') -> (forall w', S w' -> S' w') -> wps m Q' S' w.
Proof. unfold wps. destruct (m w); auto. Qed.

(** Linear arithmetic with division and remainder by constants. *)
Ltac dlia := Z.div_mod_to_equations; lia.

(** ** Machine integers *)

Definition u8 (x : Z) : Z := x mod 256.
Definition u16 (x : Z) : Z := x mod 65536.
Definition u32 (x : Z) : Z := x mod 4294967296.
Definition u64 (x : Z) : Z := x mod 18446744073709551616.
Definition i16 (x : Z) : Z := (x + 32768) mod 65536 - 32768.
Definition i32 (x : Z) : Z := (x + 2147483648) mod 4294967296 - 2147483648.
Definition inc32 (x : Z) : Z := i32 (x + 1).
Definition dec32 (x : Z) : Z := i32 (x - 1).

Lemma u8_range x : 0 <= u8 x < 256. Proof. unfold u8; dlia. Qed.
Lemma u32_range x : 0 <= u32 x < 4294967296. Proof. unfold u32; dlia. Qed.
Lemma u64_range x : 0 <= u64 x < 18446744073709551616. Proof. unfold u64; dlia. Qed.
Lemma u8_id x : 0 <= x < 256 -> u8 x = x. Proof. unfold u8; dlia. Qed.
Lemma u32_id x : 0 <= x < 4294967296 -> u32 x = x. Proof. unfold u32; dlia. Qed.
Lemma u64_id x : 0 <= x < 18446744073709551616 -> u64 x = x. Proof. unfold u64; dlia. Qed.
Lemma i32_id x : -2147483648 <= x < 2147483648 -> i32 x = x. Proof. unfold i32; dlia. Qed.

(** ** Little-endian encodings *)

Fixpoint le_bytes (n : nat) (v : Z) : list Z :=
  match n with
  | O => []
  | S n' => v mod 256 :: le_bytes n' (v / 256)
  end.

Fixpoint le_val (bs : list Z) : Z :=
  match bs with
  | [] => 0
  | b :: bs' => b + 256 * le_val bs'
  end.

Definition byte_ok (b : Z) : Prop := 0 <= b < 256.

Lemma length_le_bytes n v : length (le_bytes n v) = n.
Proof. revert v. induction n; simpl; auto. Qed.

Lemma le_bytes_ok n v : Forall byte_ok (le_bytes n v).
Proof.
  revert v. induction n; simpl; constructor; auto.
  unfold byte_ok. dlia.
Qed.

Lemma le_val_bytes n v : le_val (le_bytes n v) = v mod 256 ^ Z.of_nat n.
Proof.
  revert v. induction n as [|n IH]; intros v; cbn [le_bytes le_val].
  - by rewrite Z.mod_1_r.
  - rewrite IH. replace (Z.of_nat (S n)) with (Z.succ (Z.of_nat n)) by lia.
    rewrite Z.pow_succ_r by lia.
    rewrite Z.rem_mul_r; [lia|lia|apply Z.pow_pos_nonneg; lia].
Qed.

Lemma le_val_zeros n : le_val (replicate n 0) = 0.
Proof. induction n as [|n IH]; [done|]. cbn [replicate le_val]. by rewrite IH. Qed.

Lemma le_val_range bs : Forall byte_ok bs -> 0 <= le_val bs < 256 ^ Z.of_nat (length bs).
Proof.
  induction 1 as [|b bs Hb Hbs IH]; cbn [le_val length]; [lia|].
  unfold byte_ok in Hb. rewrite Nat2Z.inj_succ, Z.pow_succ_r by lia. lia.
Qed.

Lemma le_bytes_val bs : Forall byte_ok bs -> le_bytes (length bs) (le_val bs) = bs.
Proof.
  induction 1 as [|b bs Hb Hbs IH]; cbn [le_val length le_bytes]; [done|].
  unfold byte_ok in Hb. f_equal; [dlia|].
  replace ((b + 256 * le_val bs) / 256) with (le_val bs) by dlia. done.
Qed.

(** The bytes of a C string before its NUL. *)
Fixpoint until_nul (s : list Z) : list Z :=
  match s with
  | c :: s' => if c =? 0 then [] else c :: until_nul s'
  | [] => []
  end.

(** ** Functions updated at a point *)

Definition fupd {A} (a : Z) (v : A) (f : Z -> A) : Z -> A := fun b => if decide (b = a) then v else f b.

Lemma fupd_eq {A} a (v : A) f : fupd a v f a = v.
Proof. unfold fupd. by rewrite decide_True. Qed.
Lemma fupd_ne {A} a b (v : A) f : b <> a -> fupd a v f b = f b.
Proof. intros. unfold fupd. by rewrite decide_False. Qed.

Lemma fupd_fupd {A} a (v w : A) f : pointwise_relation Z eq (fupd a v (fupd a w f)) (fupd a v f).
Proof. intros b. unfold fupd. by case_decide. Qed.
Lemma fupd_id {A} a (f : Z -> A) : pointwise_relation Z eq (fupd a (f a) f) f.
Proof. intros b. unfold fupd. by case_decide as E; [rewrite E|]. Qed.

(** ** Field update

    [r <| f := v |>] replaces field [f] of record [r]; [r <| f ::= g |>]
    applies [g] to it.  An instance of [Setter] exists for each field. *)
Class Setter {R T : Type} (proj : R -> T) := set : (T -> T) -> R -> R.
Arguments set {R T} proj {_} _ _.

Ltac make_setter eta proj :=
  let body := eval unfold eta in eta in
  match eval pattern proj in body with
  | ?s _ => let t := eval cbv beta in (fun f => s (fun r => f (proj r))) in exact t
  end.

Notation "r <| f ::= g |>" := (set f g r) (at level 1, left associativity) : kernel_scope.
Notation "r <| f := v |>" := (set f (fun _ => v) r) (at level 1, left associativity) : kernel_scope.

(** ** Arrays indexed by C integers *)
Definition aget {A} `{Inhabited A} (l : list A) (i : Z) : A := l !!! Z.to_nat i.
Definition aset {A} (i : Z) (v : A) (l : list A) : list A := <[Z.to_nat i := v]> l.

Definition aupd {A} (i : Z) (f : A -> A) (l : list A) : list A := alter f (Z.to_nat i) l.

Lemma aget_aset {A} `{Inhabited A} (l : list A) i j v :
  0 <= i < Z.of_nat (length l) -> 0 <= j ->
  aget (aset i v l) j = if decide (i = j) then v else aget l j.
Proof.
  intros Hi Hj. unfold aget, aset. case_decide as He.
  - subst. apply list_lookup_total_insert_eq. lia.
  - apply list_lookup_total_insert_ne. lia.
Qed.

Lemma aget_aupd {A} `{Inhabited A} (l : list A) i j f :
  0 <= i < Z.of_nat (length l) -> 0 <= j ->
  aget (aupd i f l) j = if decide (i = j) then f (aget l i) else aget l j.
Proof.
  intros Hi Hj. unfold aget, aupd. case_decide as He.
  - subst. destruct (lookup_lt_is_Some_2 l (Z.to_nat j)) as [x Hx]; [lia|].
    rewrite !list_lookup_total_alt, list_lookup_alter_eq, Hx. done.
  - rewrite !list_lookup_total_alt, list_lookup_alter_ne by lia. done.
Qed.

(** An update that keeps a field keeps it in every entry. *)
Lemma proj_alter {A B} `{Inhabited A} (g : A -> B) f i (l : list A) j :
  (forall x, g (f x) = g x) -> g (alter f i l !!! j) = g (l !!! j).
Proof.
  intros Hf. rewrite !list_lookup_total_alt. destruct (decide (i = j)) as [->|Hne].
  - rewrite list_lookup_alter_eq. destruct (l !! j); cbn; [apply Hf|done].
  - by rewrite list_lookup_alter_ne.
Qed.

Lemma lookup_total_alter {A} `{Inhabited A} (f : A -> A) i (l : list A) j : (i < length l)%nat ->
  alter f i l !!! j = if decide (i = j) then f (l !!! i) else l !!! j.
Proof.
  intros Hi. rewrite !list_lookup_total_alt. case_decide as E; [subst j|by rewrite list_lookup_alter_ne].
  rewrite list_lookup_alter_eq. by destruct (lookup_lt_is_Some_2 _ _ Hi) as [x ->].
Qed.
Lemma lookup_total_alter_ne {A} `{Inhabited A} (f : A -> A) i (l : list A) j : i <> j -> alter f i l !!! j = l !!! j.
Proof. intros Hi. by rewrite !list_lookup_total_alt, list_lookup_alter_ne. Qed.
Lemma length_aset {A} i (v : A) l : length (aset i v l) = length l.
Proof. apply length_insert. Qed.
Lemma length_aupd {A} i f (l : list A) : length (aupd i f l) = length l.
Proof. apply length_alter. Qed.

(** ** Hint databases *)

Create HintDb kernel.
Create Rewrite HintDb kernel.
#[export] Hint Resolve u8_range u32_range u64_range le_bytes_ok : kernel.
#[export] Hint Rewrite length_le_bytes : kernel.
