(* ===== verification/Params.v ===== *)
(** * Machine parameters and address arithmetic

    The constants of kernel/param.h, kernel/memlayout.h, kernel/riscv.h and
    kernel/fs.h, and the page-table macros of riscv.h, with the bit-level facts
    every user of a page-table entry relies on: an entry gives back the frame
    and the flags it was built from, a swap entry gives back its slot, and
    the three 9-bit indices of an address determine its page. *)

From Stdlib Require Import ZArith Lia.
From stdpp Require Import base list strings sets.
From S2P Require Import Prelude.

(** ** kernel/param.h *)
Definition NPROC : Z := 64.
Definition NCPU : Z := 8.
Definition NOFILE : Z := 16.
Definition NFILE : Z := 100.
Definition NINODE : Z := 50.
Definition NDEV : Z := 10.
Definition ROOTDEV : Z := 1.
Definition MAXARG : Z := 32.
Definition MAXOPBLOCKS : Z := 10.
Definition LOGBLOCKS : Z := MAXOPBLOCKS * 3.
Definition NBUF : Z := MAXOPBLOCKS * 3.
Definition FSSIZE : Z := 2000.
Definition MAXPATH : Z := 128.
Definition USERSTACK : Z := 1.
Definition LEVELS : Z := 4.

(** ** kernel/riscv.h, from line 352 *)
Definition PGSIZE : Z := 4096.
Definition PGSHIFT : Z := 12.

Definition PGROUNDUP (sz : Z) : Z := Z.land (u64 (sz + PGSIZE - 1)) (Z.lnot (PGSIZE - 1)).
Definition PGROUNDDOWN (a : Z) : Z := Z.land a (Z.lnot (PGSIZE - 1)).

Definition PTE_V : Z := Z.shiftl 1 0.
Definition PTE_R : Z := Z.shiftl 1 1.
Definition PTE_W : Z := Z.shiftl 1 2.
Definition PTE_X : Z := Z.shiftl 1 3.
Definition PTE_U : Z := Z.shiftl 1 4.
Definition PTE_S : Z := Z.shiftl 1 8.

Definition PA2PTE (pa : Z) : Z := Z.shiftl (Z.shiftr pa 12) 10.
Definition PTE2PA (pte : Z) : Z := u64 (Z.shiftl (Z.shiftr pte 10) 12).
Definition PTE_FLAGS (pte : Z) : Z := Z.land pte 1023.

Definition PXMASK : Z := 511.
Definition PXSHIFT (level : Z) : Z := PGSHIFT + 9 * level.
Definition PX (level va : Z) : Z := Z.land (Z.shiftr va (PXSHIFT level)) PXMASK.
Definition MAXVA : Z := Z.shiftl 1 (9 + 9 + 9 + 12 - 1).

(** [pte & bit] as a condition. *)
Definition has (pte bit : Z) : bool := negb (Z.land pte bit =? 0).

(** ** kernel/memlayout.h *)
Definition UART0 : Z := 0x10000000.
Definition VIRTIO0 : Z := 0x10001000.
Definition PLIC : Z := 0x0c000000.
Definition KERNBASE : Z := 0x80000000.
Definition PHYSTOP : Z := KERNBASE + 2 * 1024 * 1024.
Definition TRAMPOLINE : Z := MAXVA - PGSIZE.
Definition KSTACK (p : Z) : Z := TRAMPOLINE - (p + 1) * 2 * PGSIZE.
Definition TRAPFRAME : Z := TRAMPOLINE - PGSIZE.

(** ** kernel/fs.h *)
Definition ROOTINO : Z := 1.
Definition BSIZE : Z := 1024.
Definition FSMAGIC : Z := 0x10203040.
Definition NDIRECT : Z := 12.
Definition NINDIRECT : Z := BSIZE / 4.
Definition MAXFILE : Z := NDIRECT + NINDIRECT.
Definition IPB : Z := BSIZE / 64.
Definition BPB : Z := BSIZE * 8.
Definition DIRSIZ : Z := 14.

(** ** kernel/stat.h, kernel/fcntl.h, kernel/file.h, kernel/pipe.c *)
Definition T_DIR : Z := 1.
Definition T_FILE : Z := 2.
Definition T_DEVICE : Z := 3.
Definition O_RDONLY : Z := 0x000.
Definition O_WRONLY : Z := 0x001.
Definition O_RDWR : Z := 0x002.
Definition O_CREATE : Z := 0x200.
Definition O_TRUNC : Z := 0x400.
Definition CONSOLE : Z := 1.
Definition PIPESIZE : Z := 512.

(** ** The top of kernel/vm.c *)
Definition NFRAMES : Z := (PHYSTOP - KERNBASE) / PGSIZE.
Definition MAX_SP : Z := 4096.
Definition SWAP_BASE : Z := PHYSTOP.

(** ** Bit fields as division and remainder *)

Lemma land_lnot_mask a n : 0 <= n -> Z.land a (Z.lnot (Z.ones n)) = 2 ^ n * (a / 2 ^ n).
Proof.
  intros Hn. rewrite <- Z.ldiff_land, Z.ldiff_ones_r by lia.
  rewrite Z.shiftl_mul_pow2, Z.shiftr_div_pow2 by lia. lia.
Qed.

Lemma PGROUNDDOWN_spec a : PGROUNDDOWN a = 4096 * (a / 4096).
Proof. apply (land_lnot_mask a 12). lia. Qed.

Lemma PGROUNDUP_spec sz :
  0 <= sz <= 18446744073709551616 - 4096 -> PGROUNDUP sz = 4096 * ((sz + 4095) / 4096).
Proof.
  intros H. unfold PGROUNDUP, PGSIZE. rewrite u64_id by lia.
  rewrite (land_lnot_mask _ 12) by lia. change (2 ^ 12) with 4096.
  f_equal. f_equal. lia.
Qed.

Lemma PX_spec level va : 0 <= level -> PX level va = (va / 2 ^ (12 + 9 * level)) mod 512.
Proof.
  intros H. unfold PX, PXSHIFT, PXMASK, PGSHIFT.
  rewrite Z.shiftr_div_pow2 by lia. apply (Z.land_ones _ 9). lia.
Qed.

Lemma PX_range level va : 0 <= level -> 0 <= PX level va < 512.
Proof. intros H. rewrite PX_spec by lia. apply Z.mod_pos_bound. lia. Qed.

(** The indices of the three levels and the page offset make up an address
    below [MAXVA]. *)
Lemma PX_decompose va :
  0 <= va < MAXVA ->
  va = 2 ^ 30 * PX 2 va + 2 ^ 21 * PX 1 va + 2 ^ 12 * PX 0 va + va mod 4096.
Proof.
  intros H. change MAXVA with 274877906944 in H. rewrite !PX_spec by lia.
  change (2 ^ (12 + 9 * 2)) with 1073741824. change (2 ^ (12 + 9 * 1)) with 2097152.
  change (2 ^ (12 + 9 * 0)) with 4096. dlia.
Qed.

Lemma PTE_FLAGS_spec pte : PTE_FLAGS pte = pte mod 1024.
Proof. apply (Z.land_ones _ 10). lia. Qed.

Lemma PA2PTE_spec pa : PA2PTE pa = 1024 * (pa / 4096).
Proof.
  unfold PA2PTE. rewrite Z.shiftl_mul_pow2, Z.shiftr_div_pow2 by lia.
  change (2 ^ 12) with 4096. change (2 ^ 10) with 1024. lia.
Qed.

Lemma PTE2PA_spec pte : PTE2PA pte = u64 (4096 * (pte / 1024)).
Proof.
  unfold PTE2PA. rewrite Z.shiftl_mul_pow2, Z.shiftr_div_pow2 by lia.
  change (2 ^ 12) with 4096. change (2 ^ 10) with 1024. f_equal. lia.
Qed.

(** [or]-ing fields that do not overlap is adding them. *)
Lemma lor_fields hi lo n : 0 <= n -> 0 <= lo < 2 ^ n -> Z.lor (2 ^ n * hi) lo = 2 ^ n * hi + lo.
Proof.
  intros Hn Hlo. rewrite <- Z.add_lor_land.
  enough (Z.land (2 ^ n * hi) lo = 0) as -> by lia.
  apply Z.bits_inj'. intros i Hi. rewrite Z.land_spec, Z.bits_0.
  destruct (Z.lt_ge_cases i n).
  - rewrite Z.mul_comm, Z.mul_pow2_bits_low by lia. done.
  - rewrite <- (Z.mod_small lo (2 ^ n)) by lia.
    rewrite Z.mod_pow2_bits_high by lia. apply andb_false_r.
Qed.

Lemma PTE_build pa flags :
  0 <= flags < 1024 -> Z.lor (PA2PTE pa) flags = 1024 * (pa / 4096) + flags.
Proof. intros H. rewrite PA2PTE_spec. apply (lor_fields _ _ 10); lia. Qed.

Lemma PTE2PA_build pa flags :
  0 <= pa < 18446744073709551616 -> pa mod 4096 = 0 -> 0 <= flags < 1024 ->
  PTE2PA (Z.lor (PA2PTE pa) flags) = pa.
Proof.
  intros Hpa Hal Hf. rewrite PTE_build, PTE2PA_spec by lia.
  replace ((1024 * (pa / 4096) + flags) / 1024) with (pa / 4096) by dlia.
  rewrite u64_id; dlia.
Qed.

Lemma PTE_FLAGS_build pa flags :
  0 <= flags < 1024 -> PTE_FLAGS (Z.lor (PA2PTE pa) flags) = flags.
Proof. intros Hf. rewrite PTE_build, PTE_FLAGS_spec by lia. dlia. Qed.

Lemma lor_below a b n : 0 <= n -> 0 <= a < 2 ^ n -> 0 <= b < 2 ^ n -> 0 <= Z.lor a b < 2 ^ n.
Proof.
  intros Hn Ha Hb. split; [apply Z.lor_nonneg; lia|].
  destruct (Z.eq_dec (Z.lor a b) 0) as [->|Hz]; [lia|].
  apply Z.log2_lt_pow2; [pose proof (proj2 (Z.lor_nonneg a b)); lia|].
  rewrite Z.log2_lor by lia. apply Z.max_lub_lt.
  - destruct (Z.eq_dec a 0) as [->|]; [|apply Z.log2_lt_pow2; lia].
    destruct (Z.eq_dec n 0) as [->|]; [simpl in *; assert (b = 0) by lia; subst; done|simpl; lia].
  - destruct (Z.eq_dec b 0) as [->|]; [|apply Z.log2_lt_pow2; lia].
    destruct (Z.eq_dec n 0) as [->|]; [simpl in *; assert (a = 0) by lia; subst; done|simpl; lia].
Qed.

Lemma has_bit x n : 0 <= n -> has x (Z.shiftl 1 n) = Z.testbit x n.
Proof.
  intros Hn. unfold has. rewrite Z.shiftl_1_l.
  destruct (Z.testbit x n) eqn:E.
  - apply negb_true_iff, Z.eqb_neq. intros H0.
    assert (Z.testbit (Z.land x (2 ^ n)) n = true) as Hb.
    { by rewrite Z.land_spec, E, Z.pow2_bits_true by lia. }
    by rewrite H0, Z.bits_0 in Hb.
  - apply negb_false_iff, Z.eqb_eq. apply Z.bits_inj'. intros i Hi.
    rewrite Z.land_spec, Z.bits_0. destruct (Z.eq_dec i n) as [->|Hne].
    + by rewrite E.
    + rewrite Z.pow2_bits_false by lia. apply andb_false_r.
Qed.

Lemma has_low x y n k : 0 <= n < k -> has (2 ^ k * y + x) (Z.shiftl 1 n) = has x (Z.shiftl 1 n).
Proof.
  intros H. rewrite !has_bit by lia.
  rewrite <- (Z.mod_pow2_bits_low (2 ^ k * y + x) k n) by lia.
  rewrite <- (Z.mod_pow2_bits_low x k n) by lia.
  f_equal. rewrite Z.add_comm, Z.mul_comm. apply Z.mod_add. lia.
Qed.

(** A flag of a built entry is a flag of the permission word. *)
Lemma has_build pa flags n :
  0 <= n < 10 -> 0 <= flags < 1024 ->
  has (Z.lor (PA2PTE pa) flags) (Z.shiftl 1 n) = has flags (Z.shiftl 1 n).
Proof.
  intros Hn Hf. rewrite PTE_build by lia. apply (has_low flags (pa / 4096) n 10). lia.
Qed.

(** The entry [evict_page] writes for a page in swap slot [i], vm.c:121. *)
Definition swap_pte (i flags : Z) : Z :=
  Z.lor (Z.lor (Z.shiftl i 10) (Z.land flags (Z.lnot PTE_V))) PTE_S.

(** The flags of a swap entry. *)
Definition swap_flags (flags : Z) : Z := Z.lor (Z.land flags (Z.lnot PTE_V)) PTE_S.

Lemma land_le_r a b : 0 <= a -> 0 <= Z.land a (Z.lnot b) <= a.
Proof.
  intros Ha. rewrite <- Z.ldiff_land. split.
  - apply Z.ldiff_nonneg. auto.
  - apply Z.ldiff_le; [lia|]. apply Z.bits_inj'. intros i Hi.
    rewrite !Z.ldiff_spec, Z.bits_0. destruct (Z.testbit a i), (Z.testbit b i); done.
Qed.

Lemma swap_flags_range flags : 0 <= flags < 1024 -> 0 <= swap_flags flags < 1024.
Proof.
  intros Hf. unfold swap_flags. apply (lor_below _ _ 10); [lia| |done].
  pose proof (land_le_r flags PTE_V). lia.
Qed.

Lemma swap_pte_spec i flags :
  0 <= flags < 1024 -> swap_pte i flags = 1024 * i + swap_flags flags.
Proof.
  intros Hf. unfold swap_pte. rewrite <- Z.lor_assoc, Z.shiftl_mul_pow2 by lia.
  rewrite Z.mul_comm. apply (lor_fields _ _ 10); [lia|]. by apply swap_flags_range.
Qed.

Lemma swap_pte_index i flags : 0 <= flags < 1024 -> Z.shiftr (swap_pte i flags) 10 = i.
Proof.
  intros Hf. rewrite swap_pte_spec, Z.shiftr_div_pow2 by lia. change (2 ^ 10) with 1024.
  pose proof (swap_flags_range flags Hf). dlia.
Qed.

Lemma swap_pte_flags i flags : 0 <= flags < 1024 -> PTE_FLAGS (swap_pte i flags) = swap_flags flags.
Proof.
  intros Hf. rewrite swap_pte_spec, PTE_FLAGS_spec by lia.
  pose proof (swap_flags_range flags Hf). dlia.
Qed.

Lemma swap_flags_bit flags n :
  0 <= n ->
  Z.testbit (swap_flags flags) n = (Z.testbit flags n && negb (n =? 0)) || (n =? 8).
Proof.
  intros Hn. unfold swap_flags, PTE_V, PTE_S. rewrite Z.lor_spec, Z.land_spec, Z.lnot_spec by lia.
  rewrite !Z.shiftl_1_l, !Z.pow2_bits_eqb by lia. rewrite (Z.eqb_sym 0), (Z.eqb_sym 8). done.
Qed.

Lemma swap_pte_V i flags : 0 <= flags < 1024 -> has (swap_pte i flags) PTE_V = false.
Proof.
  intros Hf. rewrite swap_pte_spec by lia. unfold PTE_V.
  rewrite (has_low _ i 0 10), has_bit, swap_flags_bit by lia. cbn. by rewrite andb_false_r.
Qed.

Lemma swap_pte_S i flags : 0 <= flags < 1024 -> has (swap_pte i flags) PTE_S = true.
Proof.
  intros Hf. rewrite swap_pte_spec by lia. unfold PTE_S.
  rewrite (has_low _ i 8 10), has_bit, swap_flags_bit by lia. cbn. by rewrite orb_true_r.
Qed.

(** Clearing [PTE_S] and setting [PTE_V] again undoes the flag changes of an
    eviction, for the flags of a valid page that is not in swap. *)
Lemma swap_flags_undo flags :
  0 <= flags -> has flags PTE_V = true -> has flags PTE_S = false ->
  Z.lor (Z.land (swap_flags flags) (Z.lnot PTE_S)) PTE_V = flags.
Proof.
  unfold PTE_V, PTE_S. rewrite !has_bit by lia. intros Hf HV HS.
  apply Z.bits_inj'. intros n Hn.
  rewrite Z.lor_spec, Z.land_spec, Z.lnot_spec, swap_flags_bit by lia.
  rewrite !Z.shiftl_1_l, !Z.pow2_bits_eqb by lia.
  destruct (Z.eqb_spec n 0), (Z.eqb_spec 0 n), (Z.eqb_spec n 8), (Z.eqb_spec 8 n);
    try lia; subst; rewrite ?HV, ?HS; cbn; try done; destruct (Z.testbit flags n); done.
Qed.

(** Linear arithmetic on addresses. *)
Ltac unfold_addr := unfold SWAP_BASE, PHYSTOP, KERNBASE, PGSIZE in *; change MAXVA with 274877906944 in *.
Ltac addr := unfold_addr; lia.
Ltac daddr := unfold_addr; dlia.
