(* ===== verification/Mem.v ===== *)
(** * Physical memory and kernel/string.c

    Memory is a total map from byte addresses to bytes.  Each routine of
    kernel/string.c is the loop of the source on that memory; the theorems
    give the effect of each loop in closed form, which is what the other
    components rewrite with. *)

From Stdlib Require Import ZArith Lia.
From stdpp Require Import base list strings sets.
From S2P Require Import Prelude.

Definition memory : Type := Z -> Z.

Definition ld8 (m : memory) (a : Z) : Z := m a.
Definition st8 (m : memory) (a v : Z) : memory := fun b => if b =? a then u8 v else m b.

(** The bytes of [m] from [a] on, and a list of bytes stored at [a]. *)
Fixpoint ld_bytes (m : memory) (a : Z) (n : nat) : list Z :=
  match n with
  | O => []
  | S n' => m a :: ld_bytes m (a + 1) n'
  end.

Fixpoint st_bytes (m : memory) (a : Z) (bs : list Z) : memory :=
  match bs with
  | [] => m
  | b :: bs' => st_bytes (st8 m a b) (a + 1) bs'
  end.

(** 64-bit loads and stores, little-endian. *)
Definition ld64 (m : memory) (a : Z) : Z := le_val (ld_bytes m a 8).
Definition st64 (m : memory) (a v : Z) : memory := st_bytes m a (le_bytes 8 v).

(** ** kernel/string.c *)

(** [memset]: [for(i = 0; i < n; i++) cdst[i] = c;] *)
Fixpoint memset_loop (m : memory) (dst c : Z) (i : Z) (n : nat) : memory :=
  match n with
  | O => m
  | S n' => memset_loop (st8 m (dst + i) c) dst c (i + 1) n'
  end.
Definition memset (m : memory) (dst c : Z) (n : Z) : memory :=
  memset_loop m dst c 0 (Z.to_nat n).

(** [memcmp]: the difference of the first bytes that differ. *)
Fixpoint memcmp_loop (m : memory) (s1 s2 : Z) (n : nat) : Z :=
  match n with
  | O => 0
  | S n' => if negb (ld8 m s1 =? ld8 m s2) then ld8 m s1 - ld8 m s2
            else memcmp_loop m (s1 + 1) (s2 + 1) n'
  end.
Definition memcmp (m : memory) (v1 v2 : Z) (n : Z) : Z := memcmp_loop m v1 v2 (Z.to_nat n).

(** The two loops of [memmove]. *)
Fixpoint copy_up (m : memory) (d s : Z) (n : nat) : memory :=
  match n with
  | O => m
  | S n' => copy_up (st8 m d (ld8 m s)) (d + 1) (s + 1) n'
  end.
Fixpoint copy_down (m : memory) (d s : Z) (n : nat) : memory :=
  match n with
  | O => m
  | S n' => copy_down (st8 m (d - 1) (ld8 m (s - 1))) (d - 1) (s - 1) n'
  end.
Definition memmove (m : memory) (dst src : Z) (n : Z) : memory :=
  if n =? 0 then m
  else if (src <? dst) && (dst <? src + n)
       then copy_down m (dst + n) (src + n) (Z.to_nat n)
       else copy_up m dst src (Z.to_nat n).

Definition memcpy (m : memory) (dst src : Z) (n : Z) : memory := memmove m dst src n.

Fixpoint strncmp_loop (m : memory) (p q : Z) (n : nat) : Z :=
  match n with
  | O => 0
  | S n' => if negb (ld8 m p =? 0) && (ld8 m p =? ld8 m q)
            then strncmp_loop m (p + 1) (q + 1) n'
            else ld8 m p - ld8 m q
  end.
Definition strncmp (m : memory) (p q : Z) (n : Z) : Z := strncmp_loop m p q (Z.to_nat n).

(** The second loop of [strncpy]: [while(n-- > 0) *s++ = 0;] *)
Fixpoint strncpy_pad (m : memory) (s : Z) (n : nat) : memory :=
  match n with
  | O => m
  | S n' => strncpy_pad (st8 m s 0) (s + 1) n'
  end.
Fixpoint strncpy_loop (m : memory) (s t : Z) (n : nat) : memory :=
  match n with
  | O => m
  | S n' => let m' := st8 m s (ld8 m t) in
            if negb (ld8 m t =? 0) then strncpy_loop m' (s + 1) (t + 1) n'
            else strncpy_pad m' (s + 1) n'
  end.
Definition strncpy (m : memory) (s t : Z) (n : Z) : memory := strncpy_loop m s t (Z.to_nat n).

(** [safestrcpy]: [n] counts the bytes left before the final NUL. *)
Fixpoint safestrcpy_loop (m : memory) (s t : Z) (n : nat) : memory :=
  match n with
  | O => st8 m s 0
  | S n' => let m' := st8 m s (ld8 m t) in
            if negb (ld8 m t =? 0) then safestrcpy_loop m' (s + 1) (t + 1) n'
            else st8 m' (s + 1) 0
  end.
Definition safestrcpy (m : memory) (s t : Z) (n : Z) : memory :=
  if n <=? 0 then m else safestrcpy_loop m s t (Z.to_nat (n - 1)).

(** [strlen], with a bound on the number of iterations; [None] when no NUL is
    found within the bound. *)
Fixpoint strlen_loop (m : memory) (s n : Z) (fuel : nat) : option Z :=
  match fuel with
  | O => None
  | S fuel' => if ld8 m (s + n) =? 0 then Some n else strlen_loop m s (n + 1) fuel'
  end.
Definition strlen (m : memory) (s : Z) (fuel : nat) : option Z := strlen_loop m s 0 fuel.

(** ** The effect of each loop *)

Definition mem_ok (m : memory) : Prop := forall a, byte_ok (m a).

Lemma st8_eq m a v b : st8 m a v b = if b =? a then u8 v else m b.
Proof. done. Qed.

Lemma st8_ok m a v : mem_ok m -> mem_ok (st8 m a v).
Proof.
  intros Hm b. unfold st8. destruct (b =? a); [|apply Hm].
  unfold byte_ok. apply u8_range.
Qed.

Lemma ld_bytes_length m a n : length (ld_bytes m a n) = n.
Proof. revert a. induction n; simpl; auto. Qed.

Lemma ld_bytes_ok m a n : mem_ok m -> Forall byte_ok (ld_bytes m a n).
Proof. intros Hm. revert a. induction n; constructor; auto. Qed.

Lemma ld_bytes_ext m m' a a' n :
  (forall i, 0 <= i < Z.of_nat n -> m (a + i) = m' (a' + i)) ->
  ld_bytes m a n = ld_bytes m' a' n.
Proof.
  revert a a'. induction n as [|n IH]; intros a a' H; simpl; [done|].
  f_equal.
  - specialize (H 0). rewrite !Z.add_0_r in H. apply H. lia.
  - apply IH. intros i Hi. specialize (H (1 + i)).
    rewrite !Z.add_assoc in H. apply H. lia.
Qed.

Lemma ld_bytes_lookup m a n i :
  (i < n)%nat -> ld_bytes m a n !! i = Some (m (a + Z.of_nat i)).
Proof.
  revert a i. induction n as [|n IH]; intros a [|i] Hi; simpl; try lia.
  - by rewrite Z.add_0_r.
  - rewrite IH by lia. do 2 f_equal. lia.
Qed.

Lemma st_bytes_out m a bs b :
  b < a \/ a + Z.of_nat (length bs) <= b -> st_bytes m a bs b = m b.
Proof.
  revert m a. induction bs as [|x bs IH]; intros m a H; simpl in *; [done|].
  rewrite IH by lia. unfold st8. destruct (Z.eqb_spec b a); [lia|done].
Qed.

Lemma st_bytes_ok m a bs : mem_ok m -> mem_ok (st_bytes m a bs).
Proof. revert m a. induction bs; simpl; auto using st8_ok. Qed.

Lemma st_bytes_lookup m a bs i b :
  bs !! i = Some b -> byte_ok b -> st_bytes m a bs (a + Z.of_nat i) = b.
Proof.
  revert m a i. induction bs as [|x bs IH]; intros m a [|i] Hl Hb; simpl in *; try done.
  - simplify_eq. rewrite st_bytes_out by lia. unfold st8.
    rewrite Z.add_0_r, Z.eqb_refl. by apply u8_id.
  - rewrite <- (IH (st8 m a x) (a + 1) i) by done. f_equal. lia.
Qed.

Lemma ld_st_bytes m a bs :
  Forall byte_ok bs -> ld_bytes (st_bytes m a bs) a (length bs) = bs.
Proof.
  intros H. apply list_eq_same_length with (length bs); [done|by rewrite ld_bytes_length|].
  intros i x y Hi Hx Hy. rewrite ld_bytes_lookup in Hx by lia. simplify_eq.
  eapply st_bytes_lookup; [done|]. by eapply Forall_lookup_1 in H.
Qed.

Lemma ld64_st64 m a v : ld64 (st64 m a v) a = u64 v.
Proof.
  unfold ld64, st64. pose proof (ld_st_bytes m a (le_bytes 8 v) (le_bytes_ok 8 v)) as H.
  rewrite length_le_bytes in H. rewrite H, le_val_bytes. done.
Qed.

Lemma st64_out m a v b : b < a \/ a + 8 <= b -> st64 m a v b = m b.
Proof. intros H. unfold st64. rewrite st_bytes_out; [done|]. rewrite length_le_bytes. lia. Qed.

Lemma ld64_ext m m' a : (forall i, 0 <= i < 8 -> m (a + i) = m' (a + i)) -> ld64 m a = ld64 m' a.
Proof. intros H. unfold ld64. f_equal. by apply ld_bytes_ext. Qed.

Lemma ld64_st64_out m a v b : b + 8 <= a \/ a + 8 <= b -> ld64 (st64 m a v) b = ld64 m b.
Proof. intros H. apply ld64_ext. intros i Hi. apply st64_out. lia. Qed.

Lemma ld64_range m a : mem_ok m -> 0 <= ld64 m a < 18446744073709551616.
Proof.
  intros Hm. unfold ld64. pose proof (le_val_range _ (ld_bytes_ok m a 8 Hm)) as H.
  by rewrite ld_bytes_length in H.
Qed.

Lemma st64_ok m a v : mem_ok m -> mem_ok (st64 m a v).
Proof. apply st_bytes_ok. Qed.

Lemma st64_zero m a j : 0 <= j < 8 -> st64 m a 0 (a + j) = 0.
Proof.
  intros Hj. unfold st64. replace j with (Z.of_nat (Z.to_nat j)) by lia. apply st_bytes_lookup; [|done].
  change (le_bytes 8 0) with (replicate 8 0). apply lookup_replicate. split; [done|lia].
Qed.

Lemma st64_zero_same m m' a x : m x = m' x -> st64 m a 0 x = st64 m' a 0 x.
Proof.
  intros E. destruct (decide (a <= x < a + 8)) as [Hx|Hx]; [|by rewrite !st64_out by lia].
  replace x with (a + (x - a)) by lia. by rewrite !st64_zero by lia.
Qed.

Lemma memset_loop_spec m dst c i n a :
  memset_loop m dst c i n a =
  if (dst + i <=? a) && (a <? dst + i + Z.of_nat n) then u8 c else m a.
Proof.
  revert m i. induction n as [|n IH]; intros m i; cbn [memset_loop].
  - destruct (Z.leb_spec (dst + i) a), (Z.ltb_spec a (dst + i + Z.of_nat 0)); simpl; (done || lia).
  - rewrite IH. unfold st8.
    destruct (Z.leb_spec (dst + (i + 1)) a), (Z.ltb_spec a (dst + (i + 1) + Z.of_nat n)),
      (Z.leb_spec (dst + i) a), (Z.ltb_spec a (dst + i + Z.of_nat (S n))), (Z.eqb_spec a (dst + i));
      simpl; (done || lia).
Qed.

(** [memset] fills exactly [dst, dst+n) with the low byte of [c]. *)
Lemma memset_spec m dst c n a :
  0 <= n ->
  memset m dst c n a = if (dst <=? a) && (a <? dst + n) then u8 c else m a.
Proof. intros Hn. unfold memset. rewrite memset_loop_spec, Z.add_0_r, Z2Nat.id by lia. done. Qed.

Lemma memset_in m dst c n a : dst <= a < dst + n -> memset m dst c n a = u8 c.
Proof.
  intros H. rewrite memset_spec by lia.
  destruct (Z.leb_spec dst a), (Z.ltb_spec a (dst + n)); simpl; (done || lia).
Qed.

Lemma memset_out m dst c n a : 0 <= n -> a < dst \/ dst + n <= a -> memset m dst c n a = m a.
Proof.
  intros Hn H. rewrite memset_spec by lia.
  destruct (Z.leb_spec dst a), (Z.ltb_spec a (dst + n)); simpl; (done || lia).
Qed.

Lemma memset_ok m dst c n : 0 <= n -> mem_ok m -> mem_ok (memset m dst c n).
Proof.
  intros Hn Hm a. rewrite memset_spec by lia. destruct (_ && _); [|apply Hm].
  unfold byte_ok. apply u8_range.
Qed.

Lemma copy_up_spec m d s n a :
  mem_ok m -> (d <= s \/ s + Z.of_nat n <= d) ->
  copy_up m d s n a = if (d <=? a) && (a <? d + Z.of_nat n) then m (s + (a - d)) else m a.
Proof.
  revert m d s. induction n as [|n IH]; intros m d s Hm H; cbn [copy_up].
  - destruct (Z.leb_spec d a), (Z.ltb_spec a (d + Z.of_nat 0)); simpl; (done || lia).
  - rewrite IH; [|by apply st8_ok|lia]. unfold st8, ld8.
    rewrite (u8_id (m s)) by apply Hm.
    destruct (Z.leb_spec (d + 1) a), (Z.ltb_spec a (d + 1 + Z.of_nat n)), (Z.leb_spec d a),
      (Z.ltb_spec a (d + Z.of_nat (S n))), (Z.eqb_spec a d),
      (Z.eqb_spec (s + 1 + (a - (d + 1))) d); simpl; try lia; try done; subst; f_equal; lia.
Qed.

Lemma copy_down_spec m d s n a :
  mem_ok m -> s <= d ->
  copy_down m d s n a =
  if (d - Z.of_nat n <=? a) && (a <? d) then m (s + (a - d)) else m a.
Proof.
  revert m d s. induction n as [|n IH]; intros m d s Hm H; cbn [copy_down].
  - destruct (Z.leb_spec (d - Z.of_nat 0) a), (Z.ltb_spec a d); simpl; (done || lia).
  - rewrite IH; [|by apply st8_ok|lia]. unfold st8, ld8.
    rewrite (u8_id (m (s - 1))) by apply Hm.
    destruct (Z.leb_spec (d - 1 - Z.of_nat n) a), (Z.ltb_spec a (d - 1)),
      (Z.leb_spec (d - Z.of_nat (S n)) a), (Z.ltb_spec a d), (Z.eqb_spec a (d - 1)),
      (Z.eqb_spec (s - 1 + (a - (d - 1))) (d - 1)); simpl; try lia; try done; subst; f_equal; lia.
Qed.

(** The destination gets the bytes the source held before the call, also when
    the two ranges overlap. *)
Lemma memmove_spec m dst src n a :
  mem_ok m -> 0 <= n ->
  memmove m dst src n a =
  if (dst <=? a) && (a <? dst + n) then m (src + (a - dst)) else m a.
Proof.
  intros Hm Hn. unfold memmove. destruct (Z.eqb_spec n 0) as [->|Hnz].
  { destruct (Z.leb_spec dst a), (Z.ltb_spec a (dst + 0)); simpl; (done || lia). }
  destruct (Z.ltb_spec src dst), (Z.ltb_spec dst (src + n)); cbn [andb].
  2-4: rewrite copy_up_spec, Z2Nat.id by (done || lia); done.
  rewrite copy_down_spec, Z2Nat.id by (done || lia).
  replace (dst + n - n) with dst by lia.
  by replace (src + n + (a - (dst + n))) with (src + (a - dst)) by lia.
Qed.

Lemma memmove_in m dst src n a :
  mem_ok m -> dst <= a < dst + n -> memmove m dst src n a = m (src + (a - dst)).
Proof.
  intros Hm H. rewrite memmove_spec by (done || lia).
  destruct (Z.leb_spec dst a), (Z.ltb_spec a (dst + n)); simpl; (done || lia).
Qed.

Lemma memmove_out m dst src n a :
  mem_ok m -> 0 <= n -> a < dst \/ dst + n <= a -> memmove m dst src n a = m a.
Proof.
  intros Hm Hn H. rewrite memmove_spec by (done || lia).
  destruct (Z.leb_spec dst a), (Z.ltb_spec a (dst + n)); simpl; (done || lia).
Qed.

Lemma memmove_ok m dst src n : 0 <= n -> mem_ok m -> mem_ok (memmove m dst src n).
Proof. intros Hn Hm a. rewrite memmove_spec by done. destruct (_ && _); apply Hm. Qed.

(** From here on these are used through the lemmas above. *)
#[global] Opaque memset memmove ld64 st64.
