(* ===== verification/State.v ===== *)
(** * Kernel state

    The data of the C headers (proc.h, file.h, vm.c, ...) and the global
    variables of the kernel as one record, with field update by projection. *)

From Stdlib Require Import ZArith Lia.
From stdpp Require Import base list strings sets.
From S2P Require Import Prelude Params Mem.

(** ** kernel/proc.h *)

Inductive procstate := UNUSED | USED | SLEEPING | RUNNABLE | RUNNING | ZOMBIE.
#[export] Instance procstate_eq_dec : EqDecision procstate.
Proof. solve_decision. Defined.
Definition state_eqb (a b : procstate) : bool := bool_decide (a = b).

(** Sleep channels.  The code sleeps on addresses of distinct objects, one
    constructor for each kind; [CH_none] is the null channel. *)
Inductive chan :=
  | CH_none
  | CH_log                     (* &log *)
  | CH_buflock (b : nat)       (* &bcache.buf[b].lock *)
  | CH_inodelock (i : nat)     (* &itable.inode[i].lock *)
  | CH_ticks                   (* &ticks *)
  | CH_proc (i : nat)          (* &proc[i] *)
  | CH_nread (pi : Z)          (* &pi->nread *)
  | CH_nwrite (pi : Z)         (* &pi->nwrite *)
  | CH_cons                    (* &cons.r *)
  | CH_tx                      (* &tx_chan *)
  | CH_buf (b : nat)           (* &bcache.buf[b] *)
  | CH_desc.                   (* &disk.free[0] *)
#[export] Instance chan_eq_dec : EqDecision chan.
Proof. solve_decision. Defined.

(** [struct proc].  Pointers to other processes are indices into the process
    table, pointers to open files and inodes are indices into [ftable] and
    [itable]; [pagetable] and [trapframe] are physical addresses, 0 for null.
    [struct context] is the list of its 14 registers, [ra] and [sp] first. *)
Record proc := mkproc {
  p_state : procstate; p_chan : chan; p_killed : Z; p_xstate : Z; p_pid : Z;
  p_sysCount : Z; p_pticks : Z; p_qticks : list Z; p_tsched : Z; p_dSysCount : Z;
  p_qlevel : Z;
  p_parent : option nat;
  p_kstack : Z; p_sz : Z; p_pagetable : Z; p_trapframe : Z; p_context : list Z;
  p_ofile : list (option nat); p_cwd : option nat; p_name : list Z;
  p_page_faults : Z; p_page_evicted : Z; p_pages_swapped_in : Z;
  p_pages_swapped_out : Z; p_resident_pages : Z
}.

Definition eta_proc (p : proc) : proc :=
  mkproc (p_state p) (p_chan p) (p_killed p) (p_xstate p) (p_pid p) (p_sysCount p)
    (p_pticks p) (p_qticks p) (p_tsched p) (p_dSysCount p) (p_qlevel p) (p_parent p)
    (p_kstack p) (p_sz p) (p_pagetable p) (p_trapframe p) (p_context p) (p_ofile p)
    (p_cwd p) (p_name p) (p_page_faults p) (p_page_evicted p) (p_pages_swapped_in p)
    (p_pages_swapped_out p) (p_resident_pages p).
#[export] Instance set_p_state : Setter p_state := ltac:(make_setter eta_proc p_state).
#[export] Instance set_p_chan : Setter p_chan := ltac:(make_setter eta_proc p_chan).
#[export] Instance set_p_killed : Setter p_killed := ltac:(make_setter eta_proc p_killed).
#[export] Instance set_p_xstate : Setter p_xstate := ltac:(make_setter eta_proc p_xstate).
#[export] Instance set_p_pid : Setter p_pid := ltac:(make_setter eta_proc p_pid).
#[export] Instance set_p_sysCount : Setter p_sysCount := ltac:(make_setter eta_proc p_sysCount).
#[export] Instance set_p_pticks : Setter p_pticks := ltac:(make_setter eta_proc p_pticks).
#[export] Instance set_p_qticks : Setter p_qticks := ltac:(make_setter eta_proc p_qticks).
#[export] Instance set_p_tsched : Setter p_tsched := ltac:(make_setter eta_proc p_tsched).
#[export] Instance set_p_dSysCount : Setter p_dSysCount := ltac:(make_setter eta_proc p_dSysCount).
#[export] Instance set_p_qlevel : Setter p_qlevel := ltac:(make_setter eta_proc p_qlevel).
#[export] Instance set_p_parent : Setter p_parent := ltac:(make_setter eta_proc p_parent).
#[export] Instance set_p_kstack : Setter p_kstack := ltac:(make_setter eta_proc p_kstack).
#[export] Instance set_p_sz : Setter p_sz := ltac:(make_setter eta_proc p_sz).
#[export] Instance set_p_pagetable : Setter p_pagetable := ltac:(make_setter eta_proc p_pagetable).
#[export] Instance set_p_trapframe : Setter p_trapframe := ltac:(make_setter eta_proc p_trapframe).
#[export] Instance set_p_context : Setter p_context := ltac:(make_setter eta_proc p_context).
#[export] Instance set_p_ofile : Setter p_ofile := ltac:(make_setter eta_proc p_ofile).
#[export] Instance set_p_cwd : Setter p_cwd := ltac:(make_setter eta_proc p_cwd).
#[export] Instance set_p_name : Setter p_name := ltac:(make_setter eta_proc p_name).
#[export] Instance set_p_page_faults : Setter p_page_faults := ltac:(make_setter eta_proc p_page_faults).
#[export] Instance set_p_page_evicted : Setter p_page_evicted := ltac:(make_setter eta_proc p_page_evicted).
#[export] Instance set_p_pages_swapped_in : Setter p_pages_swapped_in :=
  ltac:(make_setter eta_proc p_pages_swapped_in).
#[export] Instance set_p_pages_swapped_out : Setter p_pages_swapped_out :=
  ltac:(make_setter eta_proc p_pages_swapped_out).
#[export] Instance set_p_resident_pages : Setter p_resident_pages :=
  ltac:(make_setter eta_proc p_resident_pages).

(** A process slot as the zeroed static array holds it. *)
Definition proc0 : proc :=
  mkproc UNUSED CH_none 0 0 0 0 0 [0;0;0;0] 0 0 0 None 0 0 0 0 (replicate 14 0)
    (replicate (Z.to_nat NOFILE) None) None (replicate 16 0) 0 0 0 0 0.
#[export] Instance proc_inhabited : Inhabited proc := populate proc0.

(** [struct queue]: an array of process pointers and its fill level. *)
Record queue := mkqueue { q_proc : list nat; q_tail : Z }.
Definition eta_queue (q : queue) : queue := mkqueue (q_proc q) (q_tail q).
#[export] Instance set_q_proc : Setter q_proc := ltac:(make_setter eta_queue q_proc).
#[export] Instance set_q_tail : Setter q_tail := ltac:(make_setter eta_queue q_tail).
Definition queue0 : queue := mkqueue (replicate (Z.to_nat NPROC) 0%nat) 0.
#[export] Instance queue_inhabited : Inhabited queue := populate queue0.

(** ** kernel/vm.c: [struct frame] *)
Record frame := mkframe { f_used : Z; f_p : option nat; f_va : Z; f_rb : Z }.
Definition eta_frame (f : frame) : frame := mkframe (f_used f) (f_p f) (f_va f) (f_rb f).
#[export] Instance set_f_used : Setter f_used := ltac:(make_setter eta_frame f_used).
#[export] Instance set_f_p : Setter f_p := ltac:(make_setter eta_frame f_p).
#[export] Instance set_f_va : Setter f_va := ltac:(make_setter eta_frame f_va).
#[export] Instance set_f_rb : Setter f_rb := ltac:(make_setter eta_frame f_rb).
Definition frame0 : frame := mkframe 0 None 0 0.
#[export] Instance frame_inhabited : Inhabited frame := populate frame0.

(** ** Spin locks held by the running CPU *)
Inductive lock :=
  | L_kmem | L_frametable | L_swap | L_proc (i : nat) | L_queue (level : Z)
  | L_wait | L_pid | L_ticks | L_pr | L_cons | L_tx | L_log | L_bcache | L_itable
  | L_ftable | L_pipe (pi : Z) | L_buf (b : nat) | L_inode (i : nat) | L_vdisk.
#[export] Instance lock_eq_dec : EqDecision lock.
Proof. solve_decision. Defined.

(** ** File-system objects (sleeplock.h, buf.h, file.h, fs.h, log.c, pipe.c) *)

(** [struct sleeplock]; its inner spin lock is [L_buf] or [L_inode]. *)
Record sleeplock := mksleeplock {
  sl_locked : Z;
  sl_pid : Z
}.
Definition eta_sleeplock (x : sleeplock) : sleeplock :=
  mksleeplock (sl_locked x) (sl_pid x).
#[export] Instance set_sl_locked : Setter sl_locked := ltac:(make_setter eta_sleeplock sl_locked).
#[export] Instance set_sl_pid : Setter sl_pid := ltac:(make_setter eta_sleeplock sl_pid).
Definition sleeplock0 : sleeplock := mksleeplock 0 0.
#[export] Instance sleeplock_inhabited : Inhabited sleeplock := populate sleeplock0.

(** [struct buf].  A pointer to a buffer is its index in [bcache.buf]; index
    [NBUF] is [bcache.head]. *)
Record buf := mkbuf {
  b_valid : Z;
  b_disk : Z;
  b_dev : Z;
  b_blockno : Z;
  b_lock : sleeplock;
  b_refcnt : Z;
  b_prev : nat;
  b_next : nat;
  b_data : list Z
}.
Definition eta_buf (x : buf) : buf :=
  mkbuf (b_valid x) (b_disk x) (b_dev x) (b_blockno x) (b_lock x) (b_refcnt x) (b_prev x)
    (b_next x) (b_data x).
#[export] Instance set_b_valid : Setter b_valid := ltac:(make_setter eta_buf b_valid).
#[export] Instance set_b_disk : Setter b_disk := ltac:(make_setter eta_buf b_disk).
#[export] Instance set_b_dev : Setter b_dev := ltac:(make_setter eta_buf b_dev).
#[export] Instance set_b_blockno : Setter b_blockno := ltac:(make_setter eta_buf b_blockno).
#[export] Instance set_b_lock : Setter b_lock := ltac:(make_setter eta_buf b_lock).
#[export] Instance set_b_refcnt : Setter b_refcnt := ltac:(make_setter eta_buf b_refcnt).
#[export] Instance set_b_prev : Setter b_prev := ltac:(make_setter eta_buf b_prev).
#[export] Instance set_b_next : Setter b_next := ltac:(make_setter eta_buf b_next).
#[export] Instance set_b_data : Setter b_data := ltac:(make_setter eta_buf b_data).
Definition buf0 : buf := mkbuf 0 0 0 0 sleeplock0 0 0 0 (replicate (Z.to_nat BSIZE) 0).
#[export] Instance buf_inhabited : Inhabited buf := populate buf0.

(** [struct log], with [lh.n] and [lh.block]. *)
Record loginfo := mkloginfo {
  l_start : Z;
  l_outstanding : Z;
  l_committing : Z;
  l_dev : Z;
  l_n : Z;
  l_block : list Z
}.
Definition eta_loginfo (x : loginfo) : loginfo :=
  mkloginfo (l_start x) (l_outstanding x) (l_committing x) (l_dev x) (l_n x) (l_block x).
#[export] Instance set_l_start : Setter l_start := ltac:(make_setter eta_loginfo l_start).
#[export] Instance set_l_outstanding : Setter l_outstanding :=
  ltac:(make_setter eta_loginfo l_outstanding).
#[export] Instance set_l_committing : Setter l_committing :=
  ltac:(make_setter eta_loginfo l_committing).
#[export] Instance set_l_dev : Setter l_dev := ltac:(make_setter eta_loginfo l_dev).
#[export] Instance set_l_n : Setter l_n := ltac:(make_setter eta_loginfo l_n).
#[export] Instance set_l_block : Setter l_block := ltac:(make_setter eta_loginfo l_block).

(** [struct superblock]. *)
Record superblock := mksuperblock {
  sb_magic : Z;
  sb_size : Z;
  sb_nblocks : Z;
  sb_ninodes : Z;
  sb_nlog : Z;
  sb_logstart : Z;
  sb_inodestart : Z;
  sb_bmapstart : Z
}.
Definition eta_superblock (x : superblock) : superblock :=
  mksuperblock (sb_magic x) (sb_size x) (sb_nblocks x) (sb_ninodes x) (sb_nlog x) (sb_logstart
    x) (sb_inodestart x) (sb_bmapstart x).
#[export] Instance set_sb_magic : Setter sb_magic := ltac:(make_setter eta_superblock sb_magic).
#[export] Instance set_sb_size : Setter sb_size := ltac:(make_setter eta_superblock sb_size).
#[export] Instance set_sb_nblocks : Setter sb_nblocks :=
  ltac:(make_setter eta_superblock sb_nblocks).
#[export] Instance set_sb_ninodes : Setter sb_ninodes :=
  ltac:(make_setter eta_superblock sb_ninodes).
#[export] Instance set_sb_nlog : Setter sb_nlog := ltac:(make_setter eta_superblock sb_nlog).
#[export] Instance set_sb_logstart : Setter sb_logstart :=
  ltac:(make_setter eta_superblock sb_logstart).
#[export] Instance set_sb_inodestart : Setter sb_inodestart :=
  ltac:(make_setter eta_superblock sb_inodestart).
#[export] Instance set_sb_bmapstart : Setter sb_bmapstart :=
  ltac:(make_setter eta_superblock sb_bmapstart).

(** [struct inode]: the in-memory copy of an inode. *)
Record inode := mkinode {
  i_dev : Z;
  i_inum : Z;
  i_ref : Z;
  i_lock : sleeplock;
  i_valid : Z;
  i_type : Z;
  i_major : Z;
  i_minor : Z;
  i_nlink : Z;
  i_size : Z;
  i_addrs : list Z
}.
Definition eta_inode (x : inode) : inode :=
  mkinode (i_dev x) (i_inum x) (i_ref x) (i_lock x) (i_valid x) (i_type x) (i_major x)
    (i_minor x) (i_nlink x) (i_size x) (i_addrs x).
#[export] Instance set_i_dev : Setter i_dev := ltac:(make_setter eta_inode i_dev).
#[export] Instance set_i_inum : Setter i_inum := ltac:(make_setter eta_inode i_inum).
#[export] Instance set_i_ref : Setter i_ref := ltac:(make_setter eta_inode i_ref).
#[export] Instance set_i_lock : Setter i_lock := ltac:(make_setter eta_inode i_lock).
#[export] Instance set_i_valid : Setter i_valid := ltac:(make_setter eta_inode i_valid).
#[export] Instance set_i_type : Setter i_type := ltac:(make_setter eta_inode i_type).
#[export] Instance set_i_major : Setter i_major := ltac:(make_setter eta_inode i_major).
#[export] Instance set_i_minor : Setter i_minor := ltac:(make_setter eta_inode i_minor).
#[export] Instance set_i_nlink : Setter i_nlink := ltac:(make_setter eta_inode i_nlink).
#[export] Instance set_i_size : Setter i_size := ltac:(make_setter eta_inode i_size).
#[export] Instance set_i_addrs : Setter i_addrs := ltac:(make_setter eta_inode i_addrs).
Definition inode0 : inode := mkinode 0 0 0 sleeplock0 0 0 0 0 0 0 (replicate 13 0).
#[export] Instance inode_inhabited : Inhabited inode := populate inode0.

Inductive filetype := FD_NONE | FD_PIPE | FD_INODE | FD_DEVICE.
#[export] Instance filetype_eq_dec : EqDecision filetype.
Proof. solve_decision. Defined.

(** [struct file]; [fl_pipe] is the address of the pipe. *)
Record file := mkfile {
  fl_type : filetype;
  fl_ref : Z;
  fl_readable : bool;
  fl_writable : bool;
  fl_pipe : Z;
  fl_ip : option nat;
  fl_off : Z;
  fl_major : Z
}.
Definition eta_file (x : file) : file :=
  mkfile (fl_type x) (fl_ref x) (fl_readable x) (fl_writable x) (fl_pipe x) (fl_ip x) (fl_off
    x) (fl_major x).
#[export] Instance set_fl_type : Setter fl_type := ltac:(make_setter eta_file fl_type).
#[export] Instance set_fl_ref : Setter fl_ref := ltac:(make_setter eta_file fl_ref).
#[export] Instance set_fl_readable : Setter fl_readable := ltac:(make_setter eta_file fl_readable).
#[export] Instance set_fl_writable : Setter fl_writable := ltac:(make_setter eta_file fl_writable).
#[export] Instance set_fl_pipe : Setter fl_pipe := ltac:(make_setter eta_file fl_pipe).
#[export] Instance set_fl_ip : Setter fl_ip := ltac:(make_setter eta_file fl_ip).
#[export] Instance set_fl_off : Setter fl_off := ltac:(make_setter eta_file fl_off).
#[export] Instance set_fl_major : Setter fl_major := ltac:(make_setter eta_file fl_major).
Definition file0 : file := mkfile FD_NONE 0 false false 0 None 0 0.
#[export] Instance file_inhabited : Inhabited file := populate file0.

(** [struct pipe]. *)
Record pipe := mkpipe {
  pi_data : list Z;
  pi_nread : Z;
  pi_nwrite : Z;
  pi_readopen : Z;
  pi_writeopen : Z
}.
Definition eta_pipe (x : pipe) : pipe :=
  mkpipe (pi_data x) (pi_nread x) (pi_nwrite x) (pi_readopen x) (pi_writeopen x).
#[export] Instance set_pi_data : Setter pi_data := ltac:(make_setter eta_pipe pi_data).
#[export] Instance set_pi_nread : Setter pi_nread := ltac:(make_setter eta_pipe pi_nread).
#[export] Instance set_pi_nwrite : Setter pi_nwrite := ltac:(make_setter eta_pipe pi_nwrite).
#[export] Instance set_pi_readopen : Setter pi_readopen := ltac:(make_setter eta_pipe pi_readopen).
#[export] Instance set_pi_writeopen : Setter pi_writeopen :=
  ltac:(make_setter eta_pipe pi_writeopen).
Definition pipe0 : pipe := mkpipe (replicate (Z.to_nat PIPESIZE) 0) 0 0 0 0.
#[export] Instance pipe_inhabited : Inhabited pipe := populate pipe0.

(** [cons] of console.c: the input ring and its three indices. *)
Record console := mkconsole {
  c_buf : list Z;
  c_r : Z;
  c_w : Z;
  c_e : Z
}.
Definition eta_console (x : console) : console :=
  mkconsole (c_buf x) (c_r x) (c_w x) (c_e x).
#[export] Instance set_c_buf : Setter c_buf := ltac:(make_setter eta_console c_buf).
#[export] Instance set_c_r : Setter c_r := ltac:(make_setter eta_console c_r).
#[export] Instance set_c_w : Setter c_w := ltac:(make_setter eta_console c_w).
#[export] Instance set_c_e : Setter c_e := ltac:(make_setter eta_console c_e).

(** ** kernel/virtio_disk.c *)

(** What the address of a descriptor points to: a request header, the data of
    a buffer, or a status byte. *)
Inductive dma := DMA_none | DMA_op (i : Z) | DMA_data (b : nat) | DMA_status (i : Z).
#[export] Instance dma_eq_dec : EqDecision dma.
Proof. solve_decision. Defined.

(** [struct virtq_desc]. *)
Record vdesc := mkvdesc {
  d_addr : dma;
  d_len : Z;
  d_flags : Z;
  d_next : Z
}.
Definition eta_vdesc (x : vdesc) : vdesc :=
  mkvdesc (d_addr x) (d_len x) (d_flags x) (d_next x).
#[export] Instance set_d_addr : Setter d_addr := ltac:(make_setter eta_vdesc d_addr).
#[export] Instance set_d_len : Setter d_len := ltac:(make_setter eta_vdesc d_len).
#[export] Instance set_d_flags : Setter d_flags := ltac:(make_setter eta_vdesc d_flags).
#[export] Instance set_d_next : Setter d_next := ltac:(make_setter eta_vdesc d_next).
Definition vdesc0 : vdesc := mkvdesc DMA_none 0 0 0.
#[export] Instance vdesc_inhabited : Inhabited vdesc := populate vdesc0.

(** [struct disk]: the descriptors, the two rings shared with the device
    ([v_used_didx] is the device's [used->idx]), and the driver's bookkeeping.
    A request header is its type and sector.  The last two are registers of the
    device: the queue number written to QUEUE_NOTIFY that it has not acted on
    yet, and INTERRUPT_STATUS. *)
Record vdisk := mkvdisk {
  v_desc : list vdesc;
  v_avail : list Z;
  v_avail_idx : Z;
  v_used : list Z;
  v_used_didx : Z;
  v_free : list Z;
  v_used_idx : Z;
  v_info_b : list (option nat);
  v_info_status : list Z;
  v_ops : list (Z * Z);
  v_notify : option Z;
  v_isr : Z
}.
Definition eta_vdisk (x : vdisk) : vdisk :=
  mkvdisk (v_desc x) (v_avail x) (v_avail_idx x) (v_used x) (v_used_didx x) (v_free x) (v_used_idx x) (v_info_b x) (v_info_status x) (v_ops x)
    (v_notify x) (v_isr x).
#[export] Instance set_v_desc : Setter v_desc := ltac:(make_setter eta_vdisk v_desc).
#[export] Instance set_v_avail : Setter v_avail := ltac:(make_setter eta_vdisk v_avail).
#[export] Instance set_v_avail_idx : Setter v_avail_idx := ltac:(make_setter eta_vdisk v_avail_idx).
#[export] Instance set_v_used : Setter v_used := ltac:(make_setter eta_vdisk v_used).
#[export] Instance set_v_used_didx : Setter v_used_didx := ltac:(make_setter eta_vdisk v_used_didx).
#[export] Instance set_v_free : Setter v_free := ltac:(make_setter eta_vdisk v_free).
#[export] Instance set_v_used_idx : Setter v_used_idx := ltac:(make_setter eta_vdisk v_used_idx).
#[export] Instance set_v_info_b : Setter v_info_b := ltac:(make_setter eta_vdisk v_info_b).
#[export] Instance set_v_info_status : Setter v_info_status := ltac:(make_setter eta_vdisk v_info_status).
#[export] Instance set_v_ops : Setter v_ops := ltac:(make_setter eta_vdisk v_ops).
#[export] Instance set_v_notify : Setter v_notify := ltac:(make_setter eta_vdisk v_notify).
#[export] Instance set_v_isr : Setter v_isr := ltac:(make_setter eta_vdisk v_isr).
Definition vdisk0 : vdisk :=
  mkvdisk (replicate 8 vdesc0) (replicate 8 0) 0 (replicate 8 0) 0 (replicate 8 1) 0 (replicate 8 None)
    (replicate 8 0) (replicate 8 (0, 0)) None 0.

(** ** The supervisor registers of the running CPU (riscv.h) *)
Record csrs := mkcsrs {
  r_scause : Z;
  r_sepc : Z;
  r_sstatus : Z;
  r_stval : Z;
  r_stvec : Z;
  r_satp : Z;
  r_stimecmp : Z
}.
Definition eta_csrs (x : csrs) : csrs :=
  mkcsrs (r_scause x) (r_sepc x) (r_sstatus x) (r_stval x) (r_stvec x) (r_satp x) (r_stimecmp x).
#[export] Instance set_r_scause : Setter r_scause := ltac:(make_setter eta_csrs r_scause).
#[export] Instance set_r_sepc : Setter r_sepc := ltac:(make_setter eta_csrs r_sepc).
#[export] Instance set_r_sstatus : Setter r_sstatus := ltac:(make_setter eta_csrs r_sstatus).
#[export] Instance set_r_stval : Setter r_stval := ltac:(make_setter eta_csrs r_stval).
#[export] Instance set_r_stvec : Setter r_stvec := ltac:(make_setter eta_csrs r_stvec).
#[export] Instance set_r_satp : Setter r_satp := ltac:(make_setter eta_csrs r_satp).
#[export] Instance set_r_stimecmp : Setter r_stimecmp := ltac:(make_setter eta_csrs r_stimecmp).
Definition csrs0 : csrs := mkcsrs 0 0 0 0 0 0 0.

(** ** The global variables *)
Record kernel := mkkernel {
  k_mem : memory;                (* physical memory *)
  k_freelist : Z;                (* kalloc.c: kmem.freelist *)
  k_frames : list frame;         (* vm.c: frametable.f *)
  k_clock_p : Z;                 (* vm.c: frametable.clock_p *)
  k_swap_mask : list Z;          (* vm.c: swap_mask *)
  k_kernel_pagetable : Z;        (* vm.c: kernel_pagetable *)
  k_procs : list proc;           (* proc.c: proc *)
  k_pqueue : list queue;         (* proc.c: pqueue *)
  k_ticks_max : list Z;          (* proc.c: ticks_max *)
  k_nextpid : Z;                 (* proc.c: nextpid *)
  k_initproc : option nat;       (* proc.c: initproc *)
  k_cur : option nat;            (* mycpu()->proc of the running CPU *)
  k_cpuid : Z;                   (* the running CPU's number *)
  k_ticks : Z;                   (* trap.c: ticks *)
  k_last_mod128 : Z;             (* proc.c: static last_mod128 of SC_MLFQ *)
  k_bufs : list buf;             (* bio.c: bcache.buf and bcache.head *)
  k_disk : Z -> list Z;          (* the blocks of the disk *)
  k_dwrites : list (Z * list Z); (* the block writes made so far, oldest first *)
  k_log : loginfo;               (* log.c: log *)
  k_sb : superblock;             (* fs.c: sb *)
  k_inodes : list inode;         (* fs.c: itable.inode *)
  k_files : list file;           (* file.c: ftable.file *)
  k_pipes : Z -> pipe;           (* the pipes, by address *)
  k_cons : console;              (* console.c: cons *)
  k_tx_busy : Z;                 (* uart.c: tx_busy *)
  k_out : list Z;                (* the bytes written to the UART, oldest first *)
  k_in : list Z;                 (* the bytes the UART has received and not delivered *)
  k_vdisk : vdisk;               (* virtio_disk.c: disk *)
  k_csr : csrs;                  (* the CPU's control registers *)
  k_mmio : list (Z * Z);         (* the writes to the registers of the PLIC and of the UART's set-up, oldest first *)
  k_started : Z;                 (* main.c: started *)
  k_held : list lock;            (* the spin locks this CPU holds *)
  k_wakeups : option nat         (* how often the thread is still resumed; None: always *)
}.
Definition eta_kernel (x : kernel) : kernel :=
  mkkernel (k_mem x) (k_freelist x) (k_frames x) (k_clock_p x) (k_swap_mask x)
    (k_kernel_pagetable x) (k_procs x) (k_pqueue x) (k_ticks_max x) (k_nextpid x) (k_initproc x)
    (k_cur x) (k_cpuid x) (k_ticks x) (k_last_mod128 x) (k_bufs x) (k_disk x) (k_dwrites x)
    (k_log x) (k_sb x) (k_inodes x) (k_files x) (k_pipes x) (k_cons x) (k_tx_busy x) (k_out x)
    (k_in x) (k_vdisk x) (k_csr x) (k_mmio x) (k_started x) (k_held x) (k_wakeups x).
#[export] Instance set_k_mem : Setter k_mem := ltac:(make_setter eta_kernel k_mem).
#[export] Instance set_k_freelist : Setter k_freelist := ltac:(make_setter eta_kernel k_freelist).
#[export] Instance set_k_frames : Setter k_frames := ltac:(make_setter eta_kernel k_frames).
#[export] Instance set_k_clock_p : Setter k_clock_p := ltac:(make_setter eta_kernel k_clock_p).
#[export] Instance set_k_swap_mask : Setter k_swap_mask :=
  ltac:(make_setter eta_kernel k_swap_mask).
#[export] Instance set_k_kernel_pagetable : Setter k_kernel_pagetable :=
  ltac:(make_setter eta_kernel k_kernel_pagetable).
#[export] Instance set_k_procs : Setter k_procs := ltac:(make_setter eta_kernel k_procs).
#[export] Instance set_k_pqueue : Setter k_pqueue := ltac:(make_setter eta_kernel k_pqueue).
#[export] Instance set_k_ticks_max : Setter k_ticks_max :=
  ltac:(make_setter eta_kernel k_ticks_max).
#[export] Instance set_k_nextpid : Setter k_nextpid := ltac:(make_setter eta_kernel k_nextpid).
#[export] Instance set_k_initproc : Setter k_initproc := ltac:(make_setter eta_kernel k_initproc).
#[export] Instance set_k_cur : Setter k_cur := ltac:(make_setter eta_kernel k_cur).
#[export] Instance set_k_cpuid : Setter k_cpuid := ltac:(make_setter eta_kernel k_cpuid).
#[export] Instance set_k_ticks : Setter k_ticks := ltac:(make_setter eta_kernel k_ticks).
#[export] Instance set_k_last_mod128 : Setter k_last_mod128 :=
  ltac:(make_setter eta_kernel k_last_mod128).
#[export] Instance set_k_bufs : Setter k_bufs := ltac:(make_setter eta_kernel k_bufs).
#[export] Instance set_k_disk : Setter k_disk := ltac:(make_setter eta_kernel k_disk).
#[export] Instance set_k_dwrites : Setter k_dwrites := ltac:(make_setter eta_kernel k_dwrites).
#[export] Instance set_k_log : Setter k_log := ltac:(make_setter eta_kernel k_log).
#[export] Instance set_k_sb : Setter k_sb := ltac:(make_setter eta_kernel k_sb).
#[export] Instance set_k_inodes : Setter k_inodes := ltac:(make_setter eta_kernel k_inodes).
#[export] Instance set_k_files : Setter k_files := ltac:(make_setter eta_kernel k_files).
#[export] Instance set_k_pipes : Setter k_pipes := ltac:(make_setter eta_kernel k_pipes).
#[export] Instance set_k_cons : Setter k_cons := ltac:(make_setter eta_kernel k_cons).
#[export] Instance set_k_tx_busy : Setter k_tx_busy := ltac:(make_setter eta_kernel k_tx_busy).
#[export] Instance set_k_out : Setter k_out := ltac:(make_setter eta_kernel k_out).
#[export] Instance set_k_in : Setter k_in := ltac:(make_setter eta_kernel k_in).
#[export] Instance set_k_vdisk : Setter k_vdisk := ltac:(make_setter eta_kernel k_vdisk).
#[export] Instance set_k_csr : Setter k_csr := ltac:(make_setter eta_kernel k_csr).
#[export] Instance set_k_mmio : Setter k_mmio := ltac:(make_setter eta_kernel k_mmio).
#[export] Instance set_k_started : Setter k_started := ltac:(make_setter eta_kernel k_started).
#[export] Instance set_k_held : Setter k_held := ltac:(make_setter eta_kernel k_held).
#[export] Instance set_k_wakeups : Setter k_wakeups := ltac:(make_setter eta_kernel k_wakeups).

Definition KM (A : Type) : Type := K kernel A.

(** ** Access to the state *)
Definition getp (i : nat) : KM proc := gets (fun k => k_procs k !!! i).
Definition updp (i : nat) (f : proc -> proc) : KM unit :=
  modify (fun k => k <| k_procs ::= alter f i |>).
Definition load64 (a : Z) : KM Z := gets (fun k => ld64 (k_mem k) a).
Definition store64 (a v : Z) : KM unit := modify (fun k => k <| k_mem ::= fun m => st64 m a v |>).
Definition kmemset (dst c n : Z) : KM unit :=
  modify (fun k => k <| k_mem ::= fun m => memset m dst c n |>).
Definition kmemmove (dst src n : Z) : KM unit :=
  modify (fun k => k <| k_mem ::= fun m => memmove m dst src n |>).
Definition myproc : KM (option nat) := gets k_cur.

(** The locks left once [l] is dropped. *)
Definition unlocked (l : lock) (h : list lock) : list lock := filter (fun x => x <> l) h.
#[global] Arguments unlocked : simpl never.

(** [acquire] panics on a lock this CPU already holds, [release] on one it
    does not hold (spinlock.c). *)
Definition acquire (l : lock) : KM unit := fun k =>
  if bool_decide (l ∈ k_held k) then Panic "acquire" else Ret tt (k <| k_held ::= cons l |>).
Definition release (l : lock) : KM unit := fun k =>
  if bool_decide (l ∈ k_held k)
  then Ret tt (k <| k_held ::= unlocked l |>) else Panic "release".

(** [initlock] leaves the lock free. *)
Definition initlock (l : lock) : KM unit := modify (fun k => k <| k_held ::= unlocked l |>).

(** A write to a memory-mapped device register. *)
Definition mmio_write (a v : Z) : KM unit := modify (fun k => k <| k_mmio ::= fun l => l ++ [(a, v)] |>).

(** ** Symbolic execution *)

Lemma wp_acquire l Q k :
  l ∉ k_held k -> Q tt (k <| k_held ::= cons l |>) -> wp (acquire l) Q k.
Proof. intros H HQ. unfold wp, acquire. by rewrite bool_decide_eq_false_2. Qed.

Lemma wp_release l Q k :
  l ∈ k_held k -> Q tt (k <| k_held ::= unlocked l |>) -> wp (release l) Q k.
Proof. intros H HQ. unfold wp, release. by rewrite bool_decide_eq_true_2. Qed.

Lemma acquire_eq l k : l ∉ k_held k -> acquire l k = Ret tt (k <| k_held ::= cons l |>).
Proof. intros H. unfold acquire. by rewrite bool_decide_eq_false_2. Qed.

Lemma release_eq l k : l ∈ k_held k -> release l k = Ret tt (k <| k_held ::= unlocked l |>).
Proof. intros H. unfold release. by rewrite bool_decide_eq_true_2. Qed.

Lemma unlocked_absent (l : lock) (h : list lock) : l ∉ h -> unlocked l h = h.
Proof.
  unfold unlocked. induction h as [|x h IH]; intros H; [done|]. rewrite filter_cons_True by set_solver.
  f_equal. apply IH. set_solver.
Qed.

Lemma unlocked_top (l : lock) (h : list lock) : l ∉ h -> unlocked l (l :: h) = h.
Proof. intros H. unfold unlocked. rewrite filter_cons_False by naive_solver. by apply unlocked_absent. Qed.

Lemma initlock_eq l k : l ∉ k_held k -> initlock l k = Ret tt k.
Proof. intros H. unfold initlock, modify. f_equal. destruct k. cbv [set set_k_held]. cbn in *. by rewrite unlocked_absent. Qed.

Lemma elem_of_unlocked (l x : lock) (h : list lock) : x ∈ unlocked l h <-> x ∈ h /\ x <> l.
Proof. unfold unlocked. rewrite list_elem_of_filter. naive_solver. Qed.

#[export] Instance set_unfold_unlocked (x l : lock) (h : list lock) Q :
  SetUnfoldElemOf x h Q -> SetUnfoldElemOf x (unlocked l h) (Q /\ x <> l).
Proof. constructor. rewrite elem_of_unlocked. by rewrite (set_unfold_elem_of x h Q). Qed.

(** One step of a kernel routine under [wp]. *)
Ltac wp_step :=
  lazymatch goal with
  | |- wp (bind _ _) _ _ => apply wp_bind
  | |- wp (ret _) _ _ => apply wp_ret
  | |- wp (gets _) _ _ => apply wp_gets
  | |- wp (modify _) _ _ => apply wp_modify
  | |- wp (getp _) _ _ => unfold getp
  | |- wp (updp _ _) _ _ => unfold updp
  | |- wp (load64 _) _ _ => unfold load64
  | |- wp (store64 _ _) _ _ => unfold store64
  | |- wp (kmemset _ _ _) _ _ => unfold kmemset
  | |- wp (kmemmove _ _ _) _ _ => unfold kmemmove
  | |- wp myproc _ _ => unfold myproc
  end;
  cbv beta.

(** Membership of a lock in the held set. *)
Ltac held :=
  cbn; repeat match goal with H : k_held _ = _ |- _ => rewrite H end; set_solver.

Ltac wp_lock :=
  lazymatch goal with
  | |- wp (acquire _) _ _ => apply wp_acquire; [held|]
  | |- wp (release _) _ _ => apply wp_release; [held|]
  end;
  cbv beta.
Ltac wp_steps := repeat wp_step.
Ltac wp_run := repeat (wp_step || wp_lock).

(** The same steps under [wps]. *)
Ltac wps_run :=
  repeat lazymatch goal with
  | |- wps (bind _ _) _ _ _ => apply wps_bind
  | |- wps (acquire _) _ _ _ => apply wp_wps; wp_lock
  | |- wps (release _) _ _ _ => apply wp_wps; wp_lock
  | |- wps (ret _) _ _ _ => apply wp_wps; wp_step
  | |- wps (gets _) _ _ _ => apply wp_wps; wp_step
  | |- wps (modify _) _ _ _ => apply wp_wps; wp_step
  | |- wps (getp _) _ _ _ => apply wp_wps; unfold getp; wp_step
  | |- wps (updp _ _) _ _ _ => apply wp_wps; unfold updp; wp_step
  | |- wps myproc _ _ _ => apply wp_wps; unfold myproc; wp_step
  end; cbv beta.

(** Two states are equal when their fields are. *)
Lemma kernel_ext (k k' : kernel) :
  k_mem k = k_mem k' -> k_freelist k = k_freelist k' -> k_frames k = k_frames k' -> k_clock_p k =
  k_clock_p k' -> k_swap_mask k = k_swap_mask k' -> k_kernel_pagetable k = k_kernel_pagetable k'
  -> k_procs k = k_procs k' -> k_pqueue k = k_pqueue k' -> k_ticks_max k = k_ticks_max k' ->
  k_nextpid k = k_nextpid k' -> k_initproc k = k_initproc k' -> k_cur k = k_cur k' -> k_cpuid k =
  k_cpuid k' -> k_ticks k = k_ticks k' -> k_last_mod128 k = k_last_mod128 k' -> k_bufs k = k_bufs
  k' -> k_disk k = k_disk k' -> k_dwrites k = k_dwrites k' -> k_log k = k_log k' -> k_sb k = k_sb
  k' -> k_inodes k = k_inodes k' -> k_files k = k_files k' -> k_pipes k = k_pipes k' -> k_cons k
  = k_cons k' -> k_tx_busy k = k_tx_busy k' -> k_out k = k_out k' -> k_in k = k_in k' ->
  k_vdisk k = k_vdisk k' -> k_csr k = k_csr k' -> k_mmio k = k_mmio k' -> k_started k = k_started k' -> k_held k = k_held k' ->
  k_wakeups k = k_wakeups k' ->
  k = k'.
Proof. destruct k, k'. cbn. intros. by subst. Qed.

(** Read a field of an updated state. *)
Ltac is_kproj p :=
  lazymatch p with
  | k_mem => idtac
  | k_freelist => idtac
  | k_frames => idtac
  | k_clock_p => idtac
  | k_swap_mask => idtac
  | k_kernel_pagetable => idtac
  | k_procs => idtac
  | k_pqueue => idtac
  | k_ticks_max => idtac
  | k_nextpid => idtac
  | k_initproc => idtac
  | k_cur => idtac
  | k_cpuid => idtac
  | k_ticks => idtac
  | k_last_mod128 => idtac
  | k_bufs => idtac
  | k_disk => idtac
  | k_dwrites => idtac
  | k_log => idtac
  | k_sb => idtac
  | k_inodes => idtac
  | k_files => idtac
  | k_pipes => idtac
  | k_cons => idtac
  | k_tx_busy => idtac
  | k_out => idtac
  | k_in => idtac
  | k_vdisk => idtac
  | k_csr => idtac
  | k_mmio => idtac
  | k_started => idtac
  | k_held => idtac
  | k_wakeups => idtac
  end.
Ltac rewrite_syntactic t E := pattern t; refine (eq_ind_r _ _ E); cbv beta.
Ltac kproj :=
  repeat match goal with
  | |- context [?p (@set kernel ?T ?g ?i ?h ?x)] =>
      is_kproj p;
      first
        [ constr_eq p g;
          rewrite_syntactic (p (@set kernel T g i h x))
            ((fun f k => eq_refl : p (@set kernel T g i f k) = f (p k)) h x)
        | rewrite_syntactic (p (@set kernel T g i h x))
            ((fun f k => eq_refl : p (@set kernel T g i f k) = p k) h x) ]
  end; cbv beta.
Ltac kproj_in H := revert H; kproj; intros H.
Ltac kext := apply kernel_ext; kproj; try reflexivity.
