(* ===== verification/Evict.v ===== *)
(** * Swap slots, page-table walks and page eviction (kernel/vm.c) *)

From Stdlib Require Import ZArith Lia.
From stdpp Require Import base list strings sets.
From S2P Require Import Prelude Params Mem State.

(** ** Swap slots *)

Definition sinit : KM unit :=
  for_range (Z.to_nat MAX_SP) 0 (fun i => modify (fun k => k <| k_swap_mask ::= aset i 0 |>)).

Definition get_swap_addr (index : Z) : Z := SWAP_BASE + index * PGSIZE.

Definition alloc_swap_index : KM Z :=
  do! acquire L_swap;
  let! r := for_until (Z.to_nat MAX_SP) 0 (fun i =>
    let! b := gets (fun k => aget (k_swap_mask k) i) in
    if b =? 0 then
      do! modify (fun k => k <| k_swap_mask ::= aset i 1 |>);
      do! release L_swap;
      ret (Some i)
    else ret None) in
  match r with
  | Some i => ret i
  | None => do! release L_swap; ret (-1)
  end.

Definition free_swap_index (index : Z) : KM unit :=
  do! acquire L_swap;
  do! modify (fun k => k <| k_swap_mask ::= aset index 0 |>);
  release L_swap.

(** ** Page-table walks

    [kalloc] calls [evict_page], which walks with [alloc = 0], and [walk] with
    [alloc != 0] calls [kalloc]: the walk takes the allocator as an argument,
    and [Kalloc.walk] closes the loop. *)
Fixpoint walk_loop (kalloc : KM Z) (alloc : bool) (va : Z) (level : nat) (pagetable : Z) : KM Z :=
  match level with
  | O => ret (pagetable + 8 * PX 0 va)
  | S level' =>
      let pte := pagetable + 8 * PX (Z.of_nat level) va in
      let! v := load64 pte in
      if has v PTE_V then walk_loop kalloc alloc va level' (PTE2PA v)
      else if negb alloc then ret 0
      else
        let! pt := kalloc in
        if pt =? 0 then ret 0
        else
          do! kmemset pt 0 PGSIZE;
          do! store64 pte (Z.lor (PA2PTE pt) PTE_V);
          walk_loop kalloc alloc va level' pt
  end.

Definition walk_with (kalloc : KM Z) (pagetable va : Z) (alloc : bool) : KM Z :=
  if MAXVA <=? va then panic "walk" else walk_loop kalloc alloc va 2 pagetable.

(** [walk(pagetable, va, 0)]: no allocator is called. *)
Definition walk0 (pagetable va : Z) : KM Z := walk_with (ret 0) pagetable va false.

(** ** Page eviction *)

Definition sfence_vma : KM unit := ret tt.

Definition clock_advance : KM unit :=
  modify (fun k => k <| k_clock_p ::= fun c => (c + 1) mod NFRAMES |>).

(** One iteration of the inner loop of [evict_page]; the accumulator is
    [(pass, to_evict)]. *)
Definition evict_scan_step (_ : Z) (acc : Z * Z) : KM (Z * Z) :=
  let '(pass, to_evict) := acc in
  let! c := gets k_clock_p in
  let! v := gets (fun k => aget (k_frames k) c) in
  match f_p v with
  | Some vp =>
      if negb (f_used v =? 0) then
        let! p := getp vp in
        let! me := myproc in
        if state_eqb (p_state p) RUNNING && negb (bool_decide (Some vp = me)) then
          do! clock_advance; ret acc
        else if negb (f_rb v =? 0) then
          do! modify (fun k => k <| k_frames ::= aupd c (set f_rb (fun _ => 0)) |>);
          do! clock_advance; ret acc
        else
          let! te := gets (fun k => aget (k_frames k) to_evict) in
          let! tp := getp (default 0%nat (f_p te)) in
          let to_evict' :=
            if to_evict <? 0 then c
            else if p_qlevel tp <? p_qlevel p then c else to_evict in
          do! clock_advance; ret (2, to_evict')
      else do! clock_advance; ret acc
  | None => do! clock_advance; ret acc
  end.

(** The outer loop [for(pass = 0; pass < 2; pass++)].  [pass] grows on every
    iteration, so two rounds are all it can make. *)
Fixpoint evict_passes (rounds : nat) (pass to_evict : Z) : KM Z :=
  match rounds with
  | O => ret to_evict
  | S rounds' =>
      if pass <? 2 then
        let! r := for_fold (Z.to_nat NFRAMES) 0 (pass, to_evict) evict_scan_step in
        evict_passes rounds' (fst r + 1) (snd r)
      else ret to_evict
  end.

Definition evict_page : KM Z :=
  do! acquire L_frametable;
  let! to_evict := evict_passes 2 0 (-1) in
  if to_evict <? 0 then panic "cannot evict"
  else
    let! v := gets (fun k => aget (k_frames k) to_evict) in
    let va := f_va v in
    let pi := default 0%nat (f_p v) in
    let! p := getp pi in
    let! pte := walk0 (p_pagetable p) va in
    if pte =? 0 then panic "pte not valid 3"
    else
      let! e := load64 pte in
      if negb (has e PTE_V) then panic "pte not valid 3"
      else
        let pa := PTE2PA e in
        let! swap_index := alloc_swap_index in
        if swap_index =? -1 then panic "OOM"
        else
          do! acquire L_swap;
          do! kmemmove (get_swap_addr swap_index) pa PGSIZE;
          do! release L_swap;
          let! e' := load64 pte in
          let flags := PTE_FLAGS e' in
          do! store64 pte (swap_pte swap_index flags);
          do! sfence_vma;
          do! updp pi (fun p => p <| p_page_evicted ::= inc32 |>);
          do! updp pi (fun p => p <| p_pages_swapped_out ::= inc32 |>);
          do! updp pi (fun p => p <| p_resident_pages ::= dec32 |>);
          do! modify (fun k => k <| k_frames ::=
                 aupd to_evict (fun v => v <| f_used := 0 |> <| f_p := None |>) |>);
          do! release L_frametable;
          ret pa.

(** ** What the clock scan computes *)

(** A frame the scan may evict: in use, owned, and not owned by a process that
    runs on another CPU. *)
Definition evictable (k : kernel) (f : frame) : bool :=
  match f_p f with
  | Some vp => negb (f_used f =? 0)
      && negb (state_eqb (p_state (k_procs k !!! vp)) RUNNING && negb (bool_decide (Some vp = k_cur k)))
  | None => false
  end.

Definition frame_at (k : kernel) (j : Z) : frame := aget (k_frames k) j.
Definition owner_level (k : kernel) (f : frame) : Z :=
  p_qlevel (k_procs k !!! default 0%nat (f_p f)).

(** A candidate of a round: evictable, and not referenced since the last round. *)
Definition candidate (k : kernel) (j : Z) : Prop :=
  0 <= j < NFRAMES /\ evictable k (frame_at k j) = true /\ f_rb (frame_at k j) = 0.

Definition clear_rb (k : kernel) (f : frame) : frame :=
  if evictable k f then f <| f_rb := 0 |> else f.

(** The distance of frame [j] from the clock hand. *)
Definition hand_pos (c j : Z) : Z := (j - c) mod NFRAMES.

Definition frames_wf (k : kernel) : Prop :=
  Z.of_nat (length (k_frames k)) = NFRAMES /\ 0 <= k_clock_p k < NFRAMES.

(** [te] is the first candidate of highest queue level in clock order. *)
Definition best_candidate (k : kernel) (te : Z) (P : Z -> Prop) : Prop :=
  candidate k te /\ P te /\
  forall j, candidate k j -> P j ->
    owner_level k (frame_at k j) < owner_level k (frame_at k te) \/
    (owner_level k (frame_at k j) = owner_level k (frame_at k te) /\
     hand_pos (k_clock_p k) te <= hand_pos (k_clock_p k) j).

(** The state of a round that started in [k0], after [i] steps. *)
Definition round_inv (k0 : kernel) (pass0 i : Z) (acc : Z * Z) (k : kernel) : Prop :=
  let near j := hand_pos (k_clock_p k0) j < i in
  k = k0 <| k_frames := k_frames k |> <| k_clock_p := (k_clock_p k0 + i) mod NFRAMES |> /\
  length (k_frames k) = length (k_frames k0) /\
  (forall j, 0 <= j < NFRAMES ->
     frame_at k j = if decide (near j) then clear_rb k0 (frame_at k0 j) else frame_at k0 j) /\
  ((acc = (pass0, -1) /\ forall j, candidate k0 j -> ~ near j) \/
   (fst acc = 2 /\ best_candidate k0 (snd acc) near)).

Lemma NFRAMES_val : NFRAMES = 512. Proof. done. Qed.

Lemma hand_pos_range c j : 0 <= hand_pos c j < NFRAMES.
Proof. unfold hand_pos. rewrite NFRAMES_val. dlia. Qed.

Lemma hand_pos_hit c i : 0 <= i < NFRAMES -> hand_pos c ((c + i) mod NFRAMES) = i.
Proof. unfold hand_pos. rewrite NFRAMES_val. intros H. dlia. Qed.

Lemma hand_pos_eq c i j :
  0 <= j < NFRAMES -> 0 <= i < NFRAMES -> hand_pos c j = i -> j = (c + i) mod NFRAMES.
Proof. unfold hand_pos. rewrite NFRAMES_val. intros Hj Hi H. dlia. Qed.

Lemma clear_rb_same_owner k f : f_p (clear_rb k f) = f_p f.
Proof. unfold clear_rb. by destruct (evictable k f). Qed.

(** The step at the hand: position [i] of the round. *)
Section RoundStep.
Context (k0 : kernel) (Hwf : frames_wf k0).
Let c := k_clock_p k0.

Lemma round_skip pass0 i acc k :
  0 <= i < NFRAMES ->
  round_inv k0 pass0 i acc k ->
  evictable k0 (frame_at k0 ((c + i) mod NFRAMES)) = false ->
  round_inv k0 pass0 (i + 1) acc
    (k <| k_clock_p ::= fun c => (c + 1) mod NFRAMES |>).
Proof.
  intros Hi (Hk & Hlen & Hfr & Hacc) Hev. unfold round_inv. cbn.
  assert (Hhit : forall j, 0 <= j < NFRAMES -> hand_pos c j < i + 1 ->
            hand_pos c j < i \/ j = (c + i) mod NFRAMES).
  { intros j Hj Hp. destruct (Z.eq_dec (hand_pos c j) i) as [He|]; [right|left; lia].
    by apply hand_pos_eq. }
  repeat split.
  - rewrite Hk at 1. kext. cbn [k_clock_p]. cbn. rewrite NFRAMES_val. dlia.
  - done.
  - intros j Hj. change (frame_at (k <| k_clock_p ::= _ |>) j) with (frame_at k j).
    rewrite Hfr by done. fold c. destruct (decide (hand_pos c j < i)), (decide (hand_pos c j < i + 1));
      try lia; [done| |done].
    destruct (Hhit j Hj) as [|He]; [lia..|]. rewrite He in *. unfold clear_rb. by rewrite Hev.
  - assert (Hnc : ~ candidate k0 ((c + i) mod NFRAMES)).
    { intros (_ & He & _). congruence. }
    destruct Hacc as [[-> Hn]|[Hp (Hc & Hnear & Hb)]]; [left|right]; (split; [done|]).
    + intros j Hj Hnear. destruct (Hhit j) as [?|He]; [apply Hj|done|by apply (Hn j)|congruence].
    + split; [done|]. split; [fold c in Hnear |- *; lia|]. intros j Hj Hnearj.
      destruct (Hhit j) as [?|He]; [apply Hj|done| |congruence]. by apply Hb.
Qed.

Lemma round_hit j i : 0 <= i < NFRAMES -> 0 <= j < NFRAMES -> hand_pos c j < i + 1 ->
  hand_pos c j < i \/ j = (c + i) mod NFRAMES.
Proof.
  intros Hi Hj Hp. destruct (Z.eq_dec (hand_pos c j) i) as [He|]; [right|left; lia].
  by apply hand_pos_eq.
Qed.

Lemma round_clear pass0 i acc k :
  0 <= i < NFRAMES ->
  round_inv k0 pass0 i acc k ->
  evictable k0 (frame_at k0 ((c + i) mod NFRAMES)) = true ->
  f_rb (frame_at k0 ((c + i) mod NFRAMES)) <> 0 ->
  round_inv k0 pass0 (i + 1) acc
    (k <| k_frames ::= aupd ((c + i) mod NFRAMES) (set f_rb (fun _ => 0)) |>
       <| k_clock_p ::= fun c => (c + 1) mod NFRAMES |>).
Proof.
  intros Hi (Hk & Hlen & Hfr & Hacc) Hev Hrb. unfold round_inv. cbn.
  repeat split.
  - rewrite Hk at 1. kext. cbn [k_clock_p]. cbn. rewrite NFRAMES_val. dlia.
  - by rewrite length_aupd.
  - intros j Hj. unfold frame_at at 1. cbn. destruct Hwf as [Hl Hc].
    rewrite aget_aupd by (rewrite ?Hlen, ?Hl; unfold c; rewrite NFRAMES_val in *; dlia).
    change (aget (k_frames k)) with (frame_at k). rewrite !Hfr by (done || (rewrite NFRAMES_val; dlia)).
    fold c. rewrite hand_pos_hit by done. rewrite (decide_False (P := i < i)) by lia.
    destruct (decide ((c + i) mod NFRAMES = j)) as [<-|Hne].
    + rewrite hand_pos_hit by done. rewrite decide_True by lia. unfold clear_rb. by rewrite Hev.
    + destruct (decide (hand_pos c j < i)), (decide (hand_pos c j < i + 1)); try lia; [done| |done].
      destruct (round_hit j i) as [|He]; [done|done|lia..|congruence].
  - assert (Hnc : ~ candidate k0 ((c + i) mod NFRAMES)) by (intros (_ & _ & He); congruence).
    destruct Hacc as [[-> Hn]|[Hp (Hc & Hnear & Hb)]]; [left|right]; (split; [done|]).
    + intros j Hj Hnear. destruct (round_hit j i) as [?|He]; [done|apply Hj|done|by apply (Hn j)|congruence].
    + split; [done|]. split; [fold c in Hnear |- *; lia|]. intros j Hj Hnearj.
      destruct (round_hit j i) as [?|He]; [done|apply Hj|done| |congruence]. by apply Hb.
Qed.

(** The comparison of the scan: [to_evict] after it meets the candidate at [j]. *)
Definition pick (k : kernel) (to_evict j : Z) : Z :=
  if to_evict <? 0 then j
  else if owner_level k (frame_at k to_evict) <? owner_level k (frame_at k j) then j else to_evict.

Lemma round_pick pass0 i acc k :
  0 <= i < NFRAMES ->
  round_inv k0 pass0 i acc k ->
  candidate k0 ((c + i) mod NFRAMES) ->
  round_inv k0 pass0 (i + 1) (2, pick k0 (snd acc) ((c + i) mod NFRAMES))
    (k <| k_clock_p ::= fun c => (c + 1) mod NFRAMES |>).
Proof.
  intros Hi (Hk & Hlen & Hfr & Hacc) Hcand. unfold round_inv. cbn.
  repeat split.
  - rewrite Hk at 1. kext. cbn [k_clock_p]. cbn. rewrite NFRAMES_val. dlia.
  - done.
  - intros j Hj. change (frame_at (k <| k_clock_p ::= _ |>) j) with (frame_at k j).
    rewrite Hfr by done. fold c. destruct (decide (hand_pos c j < i)), (decide (hand_pos c j < i + 1));
      try lia; [done| |done].
    destruct (round_hit j i) as [|He]; [done|done|lia..|]. rewrite He in *.
    destruct Hcand as (_ & Hev & Hrb). unfold clear_rb. rewrite Hev.
    destruct (frame_at k0 _) as [u q v r]. cbn in Hrb. by rewrite Hrb.
  - right. split; [done|]. fold c. unfold pick, best_candidate.
    destruct Hacc as [[-> Hn]|[Hp (Hc & Hnear & Hb)]]; cbn [fst snd].
    + cbn. split_and!; [done|rewrite hand_pos_hit by done; lia|].
      intros j Hj Hnear. destruct (round_hit j i) as [?|He]; [done|apply Hj|done| |].
      * by destruct (Hn j).
      * rewrite He. right. done.
    + destruct (Z.ltb_spec (snd acc) 0); [destruct Hc; lia|]. fold c in Hnear, Hb.
      destruct (Z.ltb_spec (owner_level k0 (frame_at k0 (snd acc)))
                  (owner_level k0 (frame_at k0 ((c + i) mod NFRAMES)))) as [Hlt|Hge].
      * split_and!; [done|rewrite hand_pos_hit by done; lia|].
        intros j Hj Hnearj. destruct (round_hit j i) as [?|He]; [done|apply Hj|done| |].
        -- destruct (Hb j) as [|[]]; [done|done|left; lia..].
        -- rewrite He. right. done.
      * split_and!; [done|lia|].
        intros j Hj Hnearj. destruct (round_hit j i) as [?|He]; [done|apply Hj|done| |].
        -- apply Hb; done.
        -- rewrite He. rewrite hand_pos_hit by done.
           destruct (Z.eq_dec (owner_level k0 (frame_at k0 ((c + i) mod NFRAMES)))
                       (owner_level k0 (frame_at k0 (snd acc)))); [right; split; [done|unfold c in *; lia]|left; lia].
Qed.

(** Each iteration of the inner loop is one of these steps. *)
Lemma evict_scan_step_wp pass0 i acc k :
  0 <= i < NFRAMES ->
  round_inv k0 pass0 i acc k ->
  wp (evict_scan_step i acc) (fun acc' => round_inv k0 pass0 (i + 1) acc') k.
Proof.
  intros Hi Hinv. pose proof Hinv as (Hk & Hlen & Hfr & Hacc). destruct acc as [pass te].
  assert (Hcl : k_clock_p k = (c + i) mod NFRAMES) by (rewrite Hk; done).
  assert (Hcr : 0 <= (c + i) mod NFRAMES < NFRAMES) by (rewrite NFRAMES_val; dlia).
  assert (Hf : frame_at k (k_clock_p k) = frame_at k0 ((c + i) mod NFRAMES)).
  { rewrite Hcl, Hfr by done. fold c. rewrite hand_pos_hit by done. by rewrite decide_False by lia. }
  assert (Hpr : k_procs k = k_procs k0) by (rewrite Hk; done).
  assert (Hcu : k_cur k = k_cur k0) by (rewrite Hk; done).
  unfold evict_scan_step, clock_advance. wp_steps. fold (frame_at k (k_clock_p k)). rewrite Hf.
  destruct (f_p (frame_at k0 ((c + i) mod NFRAMES))) as [vp|] eqn:Hp.
  2: { wp_steps. apply round_skip; [done|done|]. unfold evictable. by rewrite Hp. }
  destruct (negb (f_used _ =? 0)) eqn:Hu.
  2: { wp_steps. apply round_skip; [done|done|]. unfold evictable. by rewrite Hp, Hu. }
  wp_steps. rewrite Hpr, Hcu.
  destruct (_ && _) eqn:Hrun.
  { wp_steps. apply round_skip; [done|done|]. unfold evictable. by rewrite Hp, Hu, Hrun. }
  assert (Hev : evictable k0 (frame_at k0 ((c + i) mod NFRAMES)) = true).
  { unfold evictable. by rewrite Hp, Hu, Hrun. }
  destruct (Z.eqb_spec (f_rb (frame_at k0 ((c + i) mod NFRAMES))) 0) as [Hrb|Hrb]; cbn [negb].
  2: { wp_steps. rewrite Hcl. by apply round_clear. }
  wp_steps. fold (frame_at k te). rewrite Hpr, Hcl.
  enough (Hpk : (if te <? 0 then (c + i) mod NFRAMES
           else if p_qlevel (k_procs k0 !!! default 0%nat (f_p (frame_at k te))) <?
                   p_qlevel (k_procs k0 !!! vp) then (c + i) mod NFRAMES else te)
          = pick k0 te ((c + i) mod NFRAMES)).
  { rewrite Hpk. by apply (round_pick pass0 i (pass, te)). }
  unfold pick, owner_level. rewrite Hp. cbn [default].
  destruct (Z.ltb_spec te 0); [done|].
  destruct Hacc as [[[=] _]|[_ (Hc & Hnear & _)]]; [lia|]. cbn [snd] in *.
  rewrite Hfr by apply Hc. fold c in Hnear |- *. rewrite decide_True by done.
  by rewrite clear_rb_same_owner.
Qed.

Lemma evict_round_wp pass0 :
  wp (for_fold (Z.to_nat NFRAMES) 0 (pass0, -1) evict_scan_step)
     (fun acc => round_inv k0 pass0 NFRAMES acc) k0.
Proof.
  change NFRAMES with (0 + Z.of_nat (Z.to_nat NFRAMES)) at 2.
  apply (wp_for_fold _ _ _ _ (round_inv k0 pass0)).
  - unfold round_inv. destruct Hwf as [Hl Hc]. split_and!.
    + kext. cbn. rewrite NFRAMES_val in *. dlia.
    + done.
    + intros j Hj. rewrite decide_False; [done|]. pose proof (hand_pos_range (k_clock_p k0) j). lia.
    + left. split; [done|]. intros j _. pose proof (hand_pos_range (k_clock_p k0) j). lia.
  - intros i a w Hi. apply evict_scan_step_wp. rewrite NFRAMES_val in *. lia.
Qed.
End RoundStep.

(** The frames [evict_page] chooses among: the unreferenced evictable frames,
    or all evictable frames when every one of them is referenced. *)
Definition in_pool (k : kernel) (j : Z) : Prop :=
  0 <= j < NFRAMES /\ evictable k (frame_at k j) = true /\
  ((exists i, candidate k i) -> f_rb (frame_at k j) = 0).

(** The victim: the first frame, in clock order, of those of the pool whose
    owner has the highest (least favoured) queue level. *)
Definition victim (k : kernel) (te : Z) : Prop :=
  in_pool k te /\
  forall j, in_pool k j ->
    owner_level k (frame_at k j) < owner_level k (frame_at k te) \/
    (owner_level k (frame_at k j) = owner_level k (frame_at k te) /\
     hand_pos (k_clock_p k) te <= hand_pos (k_clock_p k) j).

(** The scan only touches reference bits: the clock hand is where it was. *)
Definition scanned (k k' : kernel) : Prop :=
  k' = k <| k_frames := k_frames k' |> /\ length (k_frames k') = length (k_frames k) /\
  forall j, 0 <= j < NFRAMES -> frame_at k' j = clear_rb k (frame_at k j).

Lemma evictable_frames k fr f : evictable (k <| k_frames := fr |>) f = evictable k f.
Proof. done. Qed.

Lemma evictable_clear k f : evictable k (clear_rb k f) = evictable k f.
Proof. unfold clear_rb. by destruct (evictable k f) eqn:E. Qed.

Lemma clear_rb_idem k f : clear_rb k (clear_rb k f) = clear_rb k f.
Proof.
  unfold clear_rb at 1. rewrite evictable_clear.
  unfold clear_rb. by destruct (evictable k f).
Qed.

Lemma clear_rb_level k f : owner_level k (clear_rb k f) = owner_level k f.
Proof. unfold owner_level. by rewrite clear_rb_same_owner. Qed.

Lemma round_done k pass acc k' :
  frames_wf k -> round_inv k pass NFRAMES acc k' ->
  scanned k k' /\
  ((acc = (pass, -1) /\ forall j, ~ candidate k j) \/
   (fst acc = 2 /\ best_candidate k (snd acc) (fun _ => True))).
Proof.
  intros [Hl Hc] (Hk & Hlen & Hfr & Hacc).
  assert (Hnear : forall j, hand_pos (k_clock_p k) j < NFRAMES) by (intros; apply hand_pos_range).
  split.
  - split_and!; [|done|].
    + rewrite Hk at 1. kext. cbn. rewrite NFRAMES_val in *. dlia.
    + intros j Hj. rewrite Hfr by done. by rewrite decide_True.
  - destruct Hacc as [[-> Hn]|[Hp (Hcd & _ & Hb)]]; [left|right]; (split; [done|]).
    + intros j Hj. by apply (Hn j).
    + split_and!; [done|done|]. intros j Hj _. by apply Hb.
Qed.

Lemma scanned_wf k k' : frames_wf k -> scanned k k' -> frames_wf k'.
Proof.
  intros [Hl Hc] (Hk & Hlen & _). split; [rewrite Hlen; exact Hl|].
  replace (k_clock_p k') with (k_clock_p k); [exact Hc|]. by rewrite Hk.
Qed.

Lemma scanned_level k k' f : scanned k k' -> owner_level k' f = owner_level k f.
Proof. intros (Hk & _). rewrite Hk. done. Qed.

Lemma scanned_candidate k k' j :
  frames_wf k -> scanned k k' ->
  candidate k' j <-> 0 <= j < NFRAMES /\ evictable k (frame_at k j) = true.
Proof.
  intros Hwf (Hk & Hlen & Hfr). unfold candidate.
  assert (He : forall f, evictable k' f = evictable k f) by (intros f; rewrite Hk; apply evictable_frames).
  split.
  - intros (Hj & Hev & _). rewrite He, Hfr, evictable_clear in Hev by done. done.
  - intros (Hj & Hev). rewrite He, Hfr, evictable_clear by done. split; [done|]. split; [done|].
    unfold clear_rb. by rewrite Hev.
Qed.

Lemma evict_passes_more rounds pass te :
  pass < 2 ->
  evict_passes (S rounds) pass te =
  (let! r := for_fold (Z.to_nat NFRAMES) 0 (pass, te) evict_scan_step in
   evict_passes rounds (fst r + 1) (snd r)).
Proof. intros H. cbn [evict_passes]. by rewrite (proj2 (Z.ltb_lt _ _)). Qed.

Lemma evict_passes_stop rounds pass te : 2 <= pass -> evict_passes rounds pass te = ret te.
Proof. intros H. destruct rounds; [done|]. cbn [evict_passes]. by rewrite (proj2 (Z.ltb_ge _ _)). Qed.

(** The scan returns a victim whenever some frame is evictable. *)
Lemma evict_passes_wp k :
  frames_wf k ->
  wp (evict_passes 2 0 (-1))
     (fun te k' => scanned k k' /\
        ((te = -1 /\ forall j, 0 <= j < NFRAMES -> evictable k (frame_at k j) = false) \/
         victim k te)) k.
Proof.
  intros Hwf. rewrite evict_passes_more by lia. wp_steps.
  eapply wp_mono; [apply evict_round_wp; done|]. intros acc k1 Hr.
  apply round_done in Hr as (Hsc & Hacc); [|done].
  destruct Hacc as [[-> Hnone]|[Hp (Hcd & _ & Hb)]].
  - cbn [fst snd]. rewrite evict_passes_more by lia. wp_steps.
    assert (Hwf1 : frames_wf k1).
    { by apply (scanned_wf k). }
    eapply wp_mono; [apply evict_round_wp; done|]. intros acc k2 Hr2. cbn [evict_passes]. wp_steps.
    apply round_done in Hr2 as (Hsc2 & Hacc); [|done]. split.
    { destruct Hsc as (Hk & Hlen & Hfr), Hsc2 as (Hk2 & Hlen2 & Hfr2). split_and!.
      - rewrite Hk2 at 1. rewrite Hk at 1. done.
      - congruence.
      - intros j Hj. rewrite Hfr2, Hfr by done. unfold clear_rb at 1.
        rewrite Hk at 1. rewrite evictable_frames. apply clear_rb_idem. }
    assert (Hcur : k_clock_p k1 = k_clock_p k) by (destruct Hsc as (Hk & _); by rewrite Hk).
    assert (Hpool : forall j, in_pool k j <-> candidate k1 j).
    { intros j. rewrite (scanned_candidate k k1) by done. unfold in_pool. split; [naive_solver|].
      intros [? ?]. split; [done|]. split; [done|]. intros [i Hi]. by destruct (Hnone i). }
    assert (Hlev : forall j, 0 <= j < NFRAMES ->
              owner_level k1 (frame_at k1 j) = owner_level k (frame_at k j)).
    { intros j Hj. rewrite (scanned_level k k1) by done. destruct Hsc as (_ & _ & Hfr).
      rewrite Hfr by done. apply clear_rb_level. }
    destruct Hacc as [[-> Hn]|[_ (Hcd & _ & Hb)]]; [left|right].
    + split; [done|]. intros j Hj. destruct (evictable k (frame_at k j)) eqn:E; [|done].
      destruct (Hn j). by apply (scanned_candidate k k1).
    + split; [by apply Hpool|]. intros j Hj. pose proof Hj as [Hjr _]. apply Hpool in Hj.
      specialize (Hb j Hj I). rewrite Hcur, !Hlev in Hb by (apply Hcd || done). done.
  - rewrite Hp, evict_passes_stop by lia. wp_steps. split; [done|]. right.
    assert (Hpool : forall j, in_pool k j <-> candidate k j).
    { intros j. unfold in_pool, candidate. split; [|naive_solver].
      intros (? & ? & Hx). split; [done|]. split; [done|]. apply Hx. by exists (snd acc). }
    split; [by apply Hpool|]. intros j Hj. apply Hb; [by apply Hpool|done].
Qed.

(** ** Swap slots are handed out lowest first *)

Lemma held_restore l (k : kernel) f :
  l ∉ k_held k -> (forall k, k_held (f k) = k_held k) ->
  (forall k h, f (k <| k_held := h |>) = (f k) <| k_held := h |>) ->
  (f (k <| k_held ::= cons l |>)) <| k_held ::= unlocked l |> = f k.
Proof.
  intros Hl Hh Hc.
  change (k <| k_held ::= cons l |>) with (k <| k_held := l :: k_held k |>). rewrite Hc.
  change ((f k) <| k_held := l :: k_held k |> <| k_held ::= unlocked l |>)
    with ((f k) <| k_held := unlocked l (l :: k_held k) |>).
  rewrite unlocked_top by done. rewrite <- (Hh k). by destruct (f k).
Qed.

Definition swap_wf (k : kernel) : Prop := Z.of_nat (length (k_swap_mask k)) = MAX_SP.
Definition slot_free (k : kernel) (i : Z) : Prop := aget (k_swap_mask k) i = 0.

(** [i] is the first free slot. *)
Definition first_slot (k : kernel) (i : Z) : Prop :=
  0 <= i < MAX_SP /\ slot_free k i /\ forall j, 0 <= j < i -> ~ slot_free k j.

Lemma alloc_swap_index_wp k :
  L_swap ∉ k_held k ->
  wp alloc_swap_index
    (fun r k' =>
       (r = -1 /\ k' = k /\ forall j, 0 <= j < MAX_SP -> ~ slot_free k j) \/
       (first_slot k r /\ k' = k <| k_swap_mask ::= aset r 1 |>)) k.
Proof.
  intros Hl. unfold alloc_swap_index. wp_steps. apply wp_acquire; [done|]. cbv beta. wp_steps.
  eapply wp_mono.
  - apply (wp_for_until _ _ _
      (fun i k1 => k1 = k <| k_held ::= cons L_swap |> /\ forall j, 0 <= j < i -> ~ slot_free k j)
      (fun r k' => first_slot k r /\ k' = k <| k_swap_mask ::= aset r 1 |>)).
    + split; [done|]. lia.
    + intros i k1 Hi (-> & Hj). wp_steps. cbn [k_swap_mask].
      change (aget (k_swap_mask (k <| k_held ::= cons L_swap |>)) i) with (aget (k_swap_mask k) i).
      destruct (Z.eqb_spec (aget (k_swap_mask k) i) 0) as [Hf|Hf].
      * wp_steps. apply wp_release; [cbn; set_solver|]. wp_steps.
        split; [split_and!; [lia|unfold MAX_SP in *; lia|done|done]|].
        by apply (held_restore L_swap k (set k_swap_mask (aset i 1))).
      * wp_steps. split; [done|]. intros j Hji.
        destruct (Z.eq_dec j i) as [->|]; [done|]. apply Hj. lia.
  - intros [i|] k1; [intros [Hf ->]; wp_steps; by right|].
    intros (-> & Hj). wp_steps. apply wp_release; [cbn; set_solver|]. wp_steps. left.
    split; [done|]. split; [by apply (held_restore L_swap k id)|].
    intros j Hj'. apply Hj. unfold MAX_SP in *. lia.
Qed.

Lemma free_swap_index_eq k i :
  L_swap ∉ k_held k -> free_swap_index i k = Ret tt (k <| k_swap_mask ::= aset i 0 |>).
Proof.
  intros Hl. unfold free_swap_index, bind, acquire, modify, release.
  rewrite bool_decide_eq_false_2 by done. cbn [k_held].
  rewrite bool_decide_eq_true_2 by (cbn; set_solver). f_equal.
  by apply (held_restore L_swap k (set k_swap_mask (aset i 0))).
Qed.

(** ** Walking without allocating reads memory and changes nothing *)

Fixpoint pt_walk (m : memory) (va : Z) (level : nat) (pagetable : Z) : Z :=
  match level with
  | O => pagetable + 8 * PX 0 va
  | S level' =>
      let v := ld64 m (pagetable + 8 * PX (Z.of_nat level) va) in
      if has v PTE_V then pt_walk m va level' (PTE2PA v) else 0
  end.

(** The address of the level-0 entry for [va], 0 when a directory is missing. *)
Definition pte_addr (m : memory) (pagetable va : Z) : Z := pt_walk m va 2 pagetable.

Lemma walk_loop_noalloc kalloc va level pagetable k :
  walk_loop kalloc false va level pagetable k = Ret (pt_walk (k_mem k) va level pagetable) k.
Proof.
  revert pagetable. induction level as [|level IH]; intros pagetable; [done|].
  cbn [walk_loop pt_walk]. unfold bind at 1. unfold load64, gets.
  destruct (has _ _); [apply IH|done].
Qed.

Lemma walk0_eq pagetable va k :
  va < MAXVA -> walk0 pagetable va k = Ret (pte_addr (k_mem k) pagetable va) k.
Proof.
  intros H. unfold walk0, walk_with. rewrite (proj2 (Z.leb_gt _ _)) by done.
  apply walk_loop_noalloc.
Qed.

Lemma walk0_panic pagetable va k : MAXVA <= va -> walk0 pagetable va k = Panic "walk".
Proof. intros H. unfold walk0, walk_with. by rewrite (proj2 (Z.leb_le _ _)). Qed.

(** ** The effect of an eviction *)

Definition count_eviction (p : proc) : proc :=
  p <| p_page_evicted ::= inc32 |> <| p_pages_swapped_out ::= inc32 |>
    <| p_resident_pages ::= dec32 |>.

(** The entry of frame [te]'s page in its owner's page table. *)
Definition owner_pte (k : kernel) (te : Z) : Z :=
  let f := frame_at k te in
  pte_addr (k_mem k) (p_pagetable (k_procs k !!! default 0%nat (f_p f))) (f_va f).

#[global] Arguments owner_pte _ _ : simpl never.

(** The frame table is right about frame [te]: its owner maps the recorded
    address, with a valid entry that lies in RAM. *)
Definition frame_live (k : kernel) (te : Z) : Prop :=
  f_va (frame_at k te) < MAXVA /\
  0 < owner_pte k te /\ owner_pte k te + 8 <= SWAP_BASE /\
  has (ld64 (k_mem k) (owner_pte k te)) PTE_V = true.

(** [k'] is [k] with the page of frame [te] moved to slot [i]. *)
Definition evicted (k : kernel) (te i pa : Z) (k' : kernel) : Prop :=
  let a := owner_pte k te in
  let e := ld64 (k_mem k) a in
  pa = PTE2PA e /\
  k' = k <| k_mem := st64 (memmove (k_mem k) (get_swap_addr i) pa PGSIZE) a (swap_pte i (PTE_FLAGS e)) |>
         <| k_swap_mask ::= aset i 1 |>
         <| k_procs ::= alter count_eviction (default 0%nat (f_p (frame_at k te))) |>
         <| k_frames := k_frames k' |> /\
  length (k_frames k') = length (k_frames k) /\
  forall j, 0 <= j < NFRAMES ->
    frame_at k' j = if decide (j = te) then (clear_rb k (frame_at k te)) <| f_used := 0 |> <| f_p := None |>
                    else clear_rb k (frame_at k j).

Lemma scanned_frame_live k k' te :
  0 <= te < NFRAMES -> scanned k k' -> frame_live k te -> 
  frame_live k' te /\ owner_pte k' te = owner_pte k te /\ f_p (frame_at k' te) = f_p (frame_at k te).
Proof.
  intros Hte (Hk & _ & Hfr) Hl.
  assert (Ho : owner_pte k' te = owner_pte k te).
  { unfold owner_pte. rewrite Hfr by done. rewrite clear_rb_same_owner.
    assert (f_va (clear_rb k (frame_at k te)) = f_va (frame_at k te)) as ->
      by (unfold clear_rb; by destruct (evictable k _)).
    by rewrite Hk. }
  split; [|split; [done|by rewrite Hfr, clear_rb_same_owner by done]].
  unfold frame_live in *. rewrite Ho, Hfr by done.
  assert (f_va (clear_rb k (frame_at k te)) = f_va (frame_at k te)) as ->
    by (unfold clear_rb; by destruct (evictable k _)).
  by replace (k_mem k') with (k_mem k) by (by rewrite Hk).
Qed.

Section EvictPage.
Context (k : kernel) (Hwf : frames_wf k) (Hsw : swap_wf k) (Hmem : mem_ok (k_mem k))
  (Hlf : L_frametable ∉ k_held k) (Hls : L_swap ∉ k_held k).

(** No candidate at all: the kernel panics. *)
Lemma evict_page_none :
  (forall j, 0 <= j < NFRAMES -> evictable k (frame_at k j) = false) ->
  evict_page k = Panic "cannot evict".
Proof.
  intros Hnone. unfold evict_page, bind at 1, acquire.
  rewrite bool_decide_eq_false_2 by done.
  set (k1 := k <| k_held ::= cons L_frametable |>).
  destruct (proj1 (wp_inv _ _ _) (evict_passes_wp k1 Hwf)) as (te & k2 & Hr & _ & [[-> _]|[[Hte [Hev _]] _]]).
  - by rewrite (bind_Ret _ _ _ _ _ Hr).
  - change (evictable k1 (frame_at k1 te)) with (evictable k (frame_at k te)) in Hev.
    rewrite Hnone in Hev by done. done.
Qed.

Lemma evict_page_wp :
  (exists j, 0 <= j < NFRAMES /\ evictable k (frame_at k j) = true) ->
  (forall te, victim k te -> frame_live k te) ->
  (exists i, 0 <= i < MAX_SP /\ slot_free k i) ->
  wp evict_page
    (fun pa k' => exists te i, victim k te /\ first_slot k i /\ evicted k te i pa k') k.
Proof.
  intros (j0 & Hj0 & Hev0) Hlive (i0 & Hi0 & Hs0). unfold evict_page. wp_steps.
  apply wp_acquire; [done|]. cbv beta. wp_steps.
  set (k1 := k <| k_held ::= cons L_frametable |>).
  eapply wp_mono; [apply (evict_passes_wp k1 Hwf)|]. intros te k2 (Hsc & [[-> Hnone]|Hv]).
  { specialize (Hnone j0 Hj0). change (evictable k1 (frame_at k1 j0)) with (evictable k (frame_at k j0)) in Hnone.
    congruence. }
  change (victim k1 te) with (victim k te) in Hv. pose proof Hv as [[Hte [Hev _]] _].
  specialize (Hlive te Hv). change (frame_live k te) with (frame_live k1 te) in Hlive.
  destruct (scanned_frame_live k1 k2 te Hte Hsc Hlive) as (Hl2 & Ho2 & Hp2).
  destruct Hsc as (Hk2 & Hlen2 & Hfr2). destruct Hl2 as (Hva & Hpos & Hram & HV).
  rewrite (proj2 (Z.ltb_ge te 0)) by lia. wp_steps. fold (frame_at k2 te).
  eapply wp_Ret; [by apply walk0_eq|]. cbv beta. fold (owner_pte k2 te).
  rewrite (proj2 (Z.eqb_neq _ _)) by lia. wp_steps. rewrite HV. cbn [negb]. wp_steps.
  eapply wp_mono; [apply alloc_swap_index_wp; rewrite Hk2; cbn; set_solver|].
  intros i k3 [(-> & -> & Hfull)|[Hslot ->]].
  { exfalso. apply (Hfull i0 Hi0). unfold slot_free. rewrite Hk2. exact Hs0. }
  assert (Hslot' : first_slot k i) by (revert Hslot; rewrite Hk2; exact id).
  pose proof Hslot' as [Hir _]. rewrite (proj2 (Z.eqb_neq _ _)) by lia. wp_steps.
  apply wp_acquire; [rewrite Hk2; cbn; set_solver|]. wp_steps.
  apply wp_release; [cbn; set_solver|]. unfold sfence_vma. wp_steps.
  apply wp_release; [rewrite Hk2; cbn; set_solver|]. wp_steps.
  exists te, i. split; [done|]. split; [done|].
  assert (Hm2 : k_mem k2 = k_mem k) by (by rewrite Hk2).
  change (owner_pte k1 te) with (owner_pte k te) in Ho2.
  rewrite Hp2. change (f_p (frame_at k1 te)) with (f_p (frame_at k te)).
  cbn [k_mem k_held]. rewrite !Ho2 in *. rewrite Hm2 in *.
  assert (He : ld64 (memmove (k_mem k) (get_swap_addr i) (PTE2PA (ld64 (k_mem k) (owner_pte k te))) PGSIZE)
             (owner_pte k te) = ld64 (k_mem k) (owner_pte k te)).
  { apply ld64_ext. intros o Ho. apply memmove_out; [done|done|]. left.
    unfold get_swap_addr, PGSIZE, SWAP_BASE in *. lia. }
  remember (k_frames k2) as fr2 eqn:Hx. clear Hx. subst k2 k1.
  split; [done|]. split; [|split; [cbn; by rewrite length_aupd|]].
  - kext; cbn.
    + by rewrite He.
    + by rewrite !list_alter_alter_eq.
    + by rewrite !unlocked_top by set_solver.
  - intros j Hj. unfold frame_at at 1. cbn.
    assert (Hlen : Z.of_nat (length fr2) = NFRAMES) by (destruct Hwf as [<- _]; f_equal; apply Hlen2).
    rewrite aget_aupd by lia. change (aget fr2) with (frame_at (k <| k_frames := fr2 |>)).
    change (frame_at (k <| k_held ::= cons L_frametable |> <| k_frames := fr2 |>)) with
      (frame_at (k <| k_frames := fr2 |>)) in Hfr2. rewrite !Hfr2 by done.
    destruct (decide (te = j)), (decide (j = te)); try congruence; by subst.
Qed.
End EvictPage.
