(* ===== verification/Kalloc.v ===== *)
(** * Physical page allocator (kernel/kalloc.c)

    [kfree] pushes a page on the free list threaded through the pages
    themselves, [kalloc] pops one and falls back on [evict_page]. *)

From Stdlib Require Import ZArith Lia.
From stdpp Require Import base list strings sets.
From S2P Require Import Prelude Params Mem State Evict.

(** ** Addresses set by the linker script

    kernel.ld places the kernel at [KERNBASE], aligns [etext] to a page and
    puts [end] after the data; the trampoline is a page of the text. *)
Class Layout := { kend : Z; etext : Z; trampoline : Z }.

Class LayoutOk (L : Layout) : Prop := {
  etext_range : KERNBASE < etext /\ etext <= kend;
  etext_aligned : etext mod PGSIZE = 0;
  kend_range : kend <= PHYSTOP;
  trampoline_range : KERNBASE <= trampoline /\ trampoline + PGSIZE <= etext;
  trampoline_aligned : trampoline mod PGSIZE = 0
}.

Section Kalloc.
Context {L : Layout}.

(** The frame-table index of a physical address. *)
Definition frame_index (pa : Z) : Z := u64 (pa - KERNBASE) / PGSIZE.

Definition kfree (pa : Z) : KM unit :=
  if negb (pa mod PGSIZE =? 0) || (pa <? kend) || (PHYSTOP <=? pa) then panic "kfree"
  else
    do! acquire L_frametable;
    let i := i32 (frame_index pa) in
    do! when ((0 <=? i) && (i <? NFRAMES))
          (modify (fun k => k <| k_frames ::= aset i frame0 |>));
    do! release L_frametable;
    do! kmemset pa 1 PGSIZE;
    do! acquire L_kmem;
    let! fl := gets k_freelist in
    do! store64 pa fl;
    do! modify (fun k => k <| k_freelist := pa |>);
    release L_kmem.

Definition freerange (pa_start pa_end : Z) : KM unit :=
  let p := PGROUNDUP pa_start in
  for_range (Z.to_nat ((pa_end - p) / PGSIZE)) 0 (fun i => kfree (p + i * PGSIZE)).

Definition kinit : KM unit :=
  do! initlock L_kmem;
  freerange kend PHYSTOP.

Definition kalloc : KM Z :=
  do! acquire L_kmem;
  let! r := gets k_freelist in
  do! when (negb (r =? 0))
        (let! next := load64 r in modify (fun k => k <| k_freelist := next |>));
  do! release L_kmem;
  if negb (r =? 0) then
    do! kmemset r 5 PGSIZE;
    ret r
  else
    let! pa := evict_page in
    if negb (pa =? 0) then ret pa else ret r.

Definition walk (pagetable va : Z) (alloc : bool) : KM Z := walk_with kalloc pagetable va alloc.

(** ** The free list *)

(** [freelist_rep m head l]: following [next] from [head] visits the pages
    [l] and then the null pointer. *)
Fixpoint freelist_rep (m : memory) (head : Z) (l : list Z) : Prop :=
  match l with
  | [] => head = 0
  | a :: l' => head = a /\ a <> 0 /\ freelist_rep m (ld64 m a) l'
  end.

(** A page the allocator may hand out. *)
Definition page_ok (a : Z) : Prop := a mod PGSIZE = 0 /\ kend <= a /\ a + PGSIZE <= PHYSTOP.

Definition freelist_ok (k : kernel) (l : list Z) : Prop :=
  freelist_rep (k_mem k) (k_freelist k) l /\ NoDup l /\ Forall page_ok l.

Lemma freelist_rep_ext m m' head l :
  freelist_rep m head l -> (forall a, a ∈ l -> ld64 m' a = ld64 m a) -> freelist_rep m' head l.
Proof.
  revert head. induction l as [|a l IH]; intros head; cbn; [done|].
  intros (-> & Ha & Hr) He. split; [done|]. split; [done|].
  rewrite He by set_solver. apply IH; [done|]. set_solver.
Qed.

(** Two distinct pages do not overlap. *)
Lemma pages_disjoint a b : a mod PGSIZE = 0 -> b mod PGSIZE = 0 -> a <> b ->
  a + PGSIZE <= b \/ b + PGSIZE <= a.
Proof. unfold PGSIZE. intros. dlia. Qed.

Lemma ld64_memset_other m a b c :
  a mod PGSIZE = 0 -> b mod PGSIZE = 0 -> a <> b -> ld64 (memset m a c PGSIZE) b = ld64 m b.
Proof.
  intros Ha Hb Hne. destruct (pages_disjoint a b Ha Hb Hne); apply ld64_ext; intros i Hi;
    apply memset_out; unfold PGSIZE in *; lia.
Qed.

(** ** What the two operations do *)

Definition freed (pa : Z) (k : kernel) : kernel :=
  k <| k_frames ::= aset (frame_index pa) frame0 |>
    <| k_mem := st64 (memset (k_mem k) pa 1 PGSIZE) pa (k_freelist k) |>
    <| k_freelist := pa |>.

Definition popped (k : kernel) : kernel :=
  k <| k_freelist := ld64 (k_mem k) (k_freelist k) |>
    <| k_mem ::= fun m => memset m (k_freelist k) 5 PGSIZE |>.

Lemma frame_index_ok `{!LayoutOk L} pa : page_ok pa ->
  frame_index pa = (pa - KERNBASE) / PGSIZE /\ 0 <= frame_index pa < NFRAMES.
Proof.
  intros (Ha & Hl & Hh). destruct etext_range. unfold frame_index, NFRAMES, PHYSTOP, KERNBASE, PGSIZE in *.
  rewrite u64_id by lia. split; [done|]. dlia.
Qed.

Lemma kfree_eq `{!LayoutOk L} pa k :
  page_ok pa -> L_frametable ∉ k_held k -> L_kmem ∉ k_held k -> kfree pa k = Ret tt (freed pa k).
Proof.
  intros Hp Hlf Hlk. destruct (frame_index_ok pa Hp) as [Hi Hr]. destruct Hp as (Ha & Hl & Hh).
  unfold kfree. rewrite Ha, (proj2 (Z.ltb_ge pa kend)), (proj2 (Z.leb_gt PHYSTOP pa)) by (unfold PGSIZE in *; lia).
  cbn [Z.eqb negb orb]. rewrite i32_id by (change NFRAMES with 512 in Hr; lia).
  rewrite (proj2 (Z.leb_le _ _)), (proj2 (Z.ltb_lt _ _)) by lia. cbn [andb when].
  apply wp_eq. wp_run. split; [done|]. kext. cbn. by rewrite !unlocked_top by held.
Qed.

Lemma kalloc_pop k :
  k_freelist k <> 0 -> L_kmem ∉ k_held k -> kalloc k = Ret (k_freelist k) (popped k).
Proof.
  intros Hf Hlk. apply wp_eq. unfold kalloc. wp_run. cbn [k_freelist].
  change (k_freelist (k <| k_held ::= cons L_kmem |>)) with (k_freelist k).
  rewrite (proj2 (Z.eqb_neq _ _)) by done. cbn [negb when]. wp_run.
  split; [done|]. kext. cbn. by rewrite unlocked_top.
Qed.

Lemma kalloc_evict k :
  k_freelist k = 0 -> L_kmem ∉ k_held k ->
  kalloc k = (let! pa := evict_page in if negb (pa =? 0) then ret pa else ret 0) k.
Proof.
  intros Hf Hlk. unfold kalloc. erewrite bind_Ret by (by apply acquire_eq).
  unfold bind at 1 2, gets. cbn [k_freelist].
  change (k_freelist (k <| k_held ::= cons L_kmem |>)) with (k_freelist k). rewrite Hf. cbn [Z.eqb negb when ret].
  erewrite bind_Ret by (apply release_eq; held).
  replace (k <| k_held ::= cons L_kmem |> <| k_held ::= unlocked L_kmem |>) with k; [done|].
  kext. cbn. by rewrite unlocked_top.
Qed.

Lemma freed_ok `{!LayoutOk L} pa k l :
  mem_ok (k_mem k) -> freelist_ok k l -> page_ok pa -> pa ∉ l -> freelist_ok (freed pa k) (pa :: l).
Proof.
  intros Hm (Hr & Hnd & Hok) Hp Hni. destruct etext_range.
  split; [|split; [by constructor|by constructor]]. cbn. split; [done|].
  split; [destruct Hp; unfold KERNBASE in *; lia|].
  assert (He : ld64 (st64 (memset (k_mem k) pa 1 PGSIZE) pa (k_freelist k)) pa = k_freelist k).
  { rewrite ld64_st64. apply u64_id. destruct l as [|a l]; cbn in Hr; [lia|].
    apply Forall_cons_1 in Hok as [(_ & ? & ?) _]. destruct Hr as (-> & _).
    addr. }
  rewrite He. eapply freelist_rep_ext; [done|]. intros a Ha.
  rewrite Forall_forall in Hok. destruct (Hok a Ha) as [Hal _], Hp as [Hpl _].
  assert (pa <> a) by (by intros ->).
  rewrite ld64_st64_out; [by apply ld64_memset_other|].
  destruct (pages_disjoint pa a) as [?|?]; try done; unfold PGSIZE in *; lia.
Qed.

Lemma popped_ok k a l :
  freelist_ok k (a :: l) -> k_freelist k = a /\ a <> 0 /\ freelist_ok (popped k) l.
Proof.
  intros ((Ha & Hne & Hr) & Hnd & Hok). split; [done|]. split; [done|].
  apply NoDup_cons in Hnd as [Hni Hnd]. apply Forall_cons_1 in Hok as [[Hal _] Hok].
  split; [|done]. cbn. rewrite Ha. eapply freelist_rep_ext; [done|].
  intros b Hb. rewrite Forall_forall in Hok. destruct (Hok b Hb) as [Hbl _].
  apply ld64_memset_other; try done. by intros ->.
Qed.

End Kalloc.
