(* ===== verification/Vm.v ===== *)
(** * Page tables and user address spaces (kernel/vm.c) *)

From Stdlib Require Import ZArith Lia.
From stdpp Require Import base list strings sets.
From S2P Require Import Prelude Params Mem State Evict Kalloc.

(** [myproc()] dereferenced: without a running process the kernel faults,
    and [kerneltrap] panics. *)
Definition curproc : KM nat :=
  let! p := myproc in
  match p with
  | Some i => ret i
  | None => panic "kerneltrap"
  end.

(** [*pte] for a pointer that may be null. *)
Definition load_pte (pte : Z) : KM Z := if pte =? 0 then panic "kerneltrap" else load64 pte.

Definition kstore (a : Z) (bs : list Z) : KM unit :=
  modify (fun k => k <| k_mem ::= fun m => st_bytes m a bs |>).
Definition kload (a n : Z) : KM (list Z) := gets (fun k => ld_bytes (k_mem k) a (Z.to_nat n)).

(** The number of iterations of [for(a = lo; a < hi; a += PGSIZE)]. *)
Definition pages_between (lo hi : Z) : nat := Z.to_nat ((hi - lo + PGSIZE - 1) / PGSIZE).

Section Vm.
Context {L : Layout}.

Definition walkaddr (pagetable va : Z) : KM Z :=
  if MAXVA <=? va then ret 0
  else
    let! pte := walk pagetable va false in
    if pte =? 0 then ret 0
    else
      let! e := load64 pte in
      if negb (has e PTE_V) then ret 0
      else if negb (has e PTE_U) then ret 0
      else ret (PTE2PA e).

(** The loop of [mappages] runs [size / PGSIZE] times: [a] reaches [last]
    on the last of them. *)
Fixpoint mappages_loop (n : nat) (pagetable a pa last perm : Z) : KM Z :=
  match n with
  | O => ret 0
  | S n' =>
      let! pte := walk pagetable a true in
      if pte =? 0 then ret (-1)
      else
        let! e := load64 pte in
        if has e PTE_V then panic "mappages: remap"
        else
          do! store64 pte (Z.lor (Z.lor (PA2PTE pa) perm) PTE_V);
          if a =? last then ret 0
          else mappages_loop n' pagetable (u64 (a + PGSIZE)) (u64 (pa + PGSIZE)) last perm
  end.

Definition mappages (pagetable va size pa perm : Z) : KM Z :=
  if negb (va mod PGSIZE =? 0) then panic "mappages: va not aligned"
  else if negb (size mod PGSIZE =? 0) then panic "mappages: size not aligned"
  else if size =? 0 then panic "mappages: size"
  else mappages_loop (Z.to_nat (size / PGSIZE)) pagetable va pa (u64 (va + size - PGSIZE)) perm.

Definition kvmmap (kpgtbl va pa sz perm : Z) : KM unit :=
  let! r := mappages kpgtbl va sz pa perm in
  if negb (r =? 0) then panic "kvmmap" else ret tt.

(** proc.c: a kernel stack page for each process, below the trampoline. *)
Definition proc_mapstacks (kpgtbl : Z) : KM unit :=
  for_range (Z.to_nat NPROC) 0 (fun i =>
    let! pa := kalloc in
    if pa =? 0 then panic "kalloc"
    else kvmmap kpgtbl (KSTACK i) pa PGSIZE (Z.lor PTE_R PTE_W)).

Definition kvmmake : KM Z :=
  let! kpgtbl := kalloc in
  do! kmemset kpgtbl 0 PGSIZE;
  do! kvmmap kpgtbl UART0 UART0 PGSIZE (Z.lor PTE_R PTE_W);
  do! kvmmap kpgtbl VIRTIO0 VIRTIO0 PGSIZE (Z.lor PTE_R PTE_W);
  do! kvmmap kpgtbl PLIC PLIC 0x4000000 (Z.lor PTE_R PTE_W);
  do! kvmmap kpgtbl KERNBASE KERNBASE (etext - KERNBASE) (Z.lor PTE_R PTE_X);
  do! kvmmap kpgtbl etext etext (PHYSTOP - etext) (Z.lor PTE_R PTE_W);
  do! kvmmap kpgtbl SWAP_BASE SWAP_BASE (MAX_SP * PGSIZE) (Z.lor PTE_R PTE_W);
  do! kvmmap kpgtbl TRAMPOLINE trampoline PGSIZE (Z.lor PTE_R PTE_X);
  do! proc_mapstacks kpgtbl;
  ret kpgtbl.

Definition kvminit : KM unit :=
  let! t := kvmmake in
  modify (fun k => k <| k_kernel_pagetable := t |>).

Definition uvmcreate : KM Z :=
  let! pagetable := kalloc in
  if pagetable =? 0 then ret 0
  else do! kmemset pagetable 0 PGSIZE; ret pagetable.

Definition uvmunmap_page (pagetable a : Z) (do_free : bool) : KM unit :=
  let! pte := walk pagetable a false in
  if pte =? 0 then ret tt
  else
    let! e := load64 pte in
    if negb (has e PTE_V) then
      if has e PTE_S then
        do! free_swap_index (i32 (Z.shiftr e 10));
        store64 pte 0
      else ret tt
    else
      do! when do_free (kfree (PTE2PA e));
      store64 pte 0.

Definition uvmunmap (pagetable va npages : Z) (do_free : bool) : KM unit :=
  if negb (va mod PGSIZE =? 0) then panic "uvmunmap: not aligned"
  else for_range (Z.to_nat npages) 0 (fun i => uvmunmap_page pagetable (va + i * PGSIZE) do_free).

Definition uvmdealloc (pagetable oldsz newsz : Z) : KM Z :=
  if oldsz <=? newsz then ret oldsz
  else
    do! when (PGROUNDUP newsz <? PGROUNDUP oldsz)
          (let npages := i32 ((PGROUNDUP oldsz - PGROUNDUP newsz) / PGSIZE) in
           uvmunmap pagetable (PGROUNDUP newsz) npages true);
    ret newsz.

(** The frame-table update that follows every mapping of a user page. *)
Definition register_frame (mem : Z) (p : option nat) (va : Z) : KM unit :=
  do! acquire L_frametable;
  do! modify (fun k => k <| k_frames ::= aset (frame_index mem) (mkframe 1 p va 1) |>);
  release L_frametable.

Definition kalloc_or_evict : KM Z :=
  let! mem := kalloc in
  if mem =? 0 then evict_page else ret mem.

Definition uvmalloc (pagetable oldsz newsz xperm : Z) : KM Z :=
  if newsz <? oldsz then ret oldsz
  else
    let oldsz := PGROUNDUP oldsz in
    let! r := for_until (pages_between oldsz newsz) 0 (fun i =>
      let a := oldsz + i * PGSIZE in
      let! mem := kalloc_or_evict in
      if mem =? 0 then
        do! uvmdealloc pagetable a oldsz; ret (Some 0)
      else
        do! kmemset mem 0 PGSIZE;
        let! r := mappages pagetable a PGSIZE mem (Z.lor (Z.lor PTE_R PTE_U) xperm) in
        if negb (r =? 0) then
          do! kfree mem; do! uvmdealloc pagetable a oldsz; ret (Some 0)
        else
          let! p := myproc in
          do! register_frame mem p a;
          let! pi := curproc in
          do! updp pi (set p_resident_pages inc32);
          ret None) in
    match r with
    | Some v => ret v
    | None => ret newsz
    end.

(** The recursion descends the three levels of a page table. *)
Fixpoint freewalk (level : nat) (pagetable : Z) : KM unit :=
  do! for_range 512 0 (fun i =>
    let! pte := load64 (pagetable + 8 * i) in
    if has pte PTE_V && (Z.land pte (Z.lor (Z.lor PTE_R PTE_W) PTE_X) =? 0) then
      do! match level with
          | O => panic "freewalk: depth"
          | S level' => freewalk level' (PTE2PA pte)
          end;
      store64 (pagetable + 8 * i) 0
    else if has pte PTE_V then panic "freewalk: leaf"
    else ret tt);
  kfree pagetable.

Definition uvmfree (pagetable sz : Z) : KM unit :=
  do! when (0 <? sz) (uvmunmap pagetable 0 (PGROUNDUP sz / PGSIZE) true);
  freewalk 2 pagetable.

(** The part of [uvmcopy] both branches share: map [mem] in the child and
    register the frame. *)
Definition uvmcopy_map (new i mem flags : Z) (np : nat) : KM (option Z) :=
  let! r := mappages new i PGSIZE mem flags in
  if negb (r =? 0) then do! kfree mem; ret (Some i)
  else
    do! register_frame mem (Some np) i;
    do! updp np (set p_resident_pages inc32);
    ret None.

(** One iteration; [Some i] is a jump to [err]. *)
Definition uvmcopy_page (old new i : Z) (np : nat) : KM (option Z) :=
  let! pte := walk old i false in
  if pte =? 0 then ret None
  else
    let! e := load64 pte in
    if has e PTE_V then
      let pa := PTE2PA e in
      let flags := PTE_FLAGS e in
      let! mem := kalloc_or_evict in
      if mem =? 0 then ret (Some i)
      else
        do! kmemmove mem pa PGSIZE;
        uvmcopy_map new i mem flags np
    else if has e PTE_S then
      let swap_index := i32 (Z.shiftr e 10) in
      let flags := Z.lor (Z.land (PTE_FLAGS e) (Z.lnot PTE_S)) PTE_V in
      let! mem := kalloc_or_evict in
      if mem =? 0 then ret (Some i)
      else
        do! kmemmove mem (get_swap_addr swap_index) PGSIZE;
        uvmcopy_map new i mem flags np
    else ret None.

Definition uvmcopy (old new sz : Z) (np : nat) : KM Z :=
  let! r := for_until (pages_between 0 sz) 0 (fun j => uvmcopy_page old new (j * PGSIZE) np) in
  match r with
  | None => ret 0
  | Some i => do! uvmunmap new 0 (i / PGSIZE) true; ret (-1)
  end.

Definition uvmclear (pagetable va : Z) : KM unit :=
  let! pte := walk pagetable va false in
  if pte =? 0 then panic "uvmclear"
  else
    let! e := load64 pte in
    store64 pte (Z.land e (Z.lnot PTE_U)).

Definition ismapped (pagetable va : Z) : KM Z :=
  let! pte := walk pagetable va false in
  if pte =? 0 then ret 0
  else
    let! e := load64 pte in
    if has e PTE_V then ret 1 else ret 0.

(** The branch of [vmfault] that brings a page back from its swap slot. *)
Definition vmfault_swapin (p : nat) (pte va : Z) : KM Z :=
  let! e := load64 pte in
  let swap_index := i32 (Z.shiftr e 10) in
  let! mem := kalloc_or_evict in
  do! kmemmove mem (get_swap_addr swap_index) PGSIZE;
  if mem =? 0 then panic "error in vmfault(swap) : mem == 0"
  else
    do! free_swap_index swap_index;
    let! e' := load64 pte in
    let flags := PTE_FLAGS e' in
    do! store64 pte (Z.lor (Z.lor (PA2PTE mem) (Z.land flags (Z.lnot PTE_S))) PTE_V);
    do! updp p (set p_pages_swapped_in inc32);
    do! updp p (set p_resident_pages inc32);
    let! e'' := load64 pte in
    if e'' =? 0 then panic "Invalid pte"
    else
      do! sfence_vma;
      do! register_frame mem (Some p) va;
      ret mem.

(** The branch that allocates a page [sys_sbrk] left unallocated. *)
Definition vmfault_lazy (p : nat) (pagetable pte va : Z) : KM Z :=
  let! im := ismapped pagetable va in
  if negb (im =? 0) then ret 0
  else
    let! mem := kalloc_or_evict in
    if mem =? 0 then panic "error in vmfault : mem == 0"
    else
      do! kmemset mem 0 PGSIZE;
      do! updp p (set p_resident_pages inc32);
      let! pr := getp p in
      let! r := mappages (p_pagetable pr) va PGSIZE mem (Z.lor (Z.lor PTE_W PTE_U) PTE_R) in
      if negb (r =? 0) then do! kfree mem; ret 0
      else
        let! e := load64 pte in
        if e =? 0 then panic "Invalid pte 2"
        else
          do! sfence_vma;
          do! register_frame mem (Some p) va;
          ret mem.

Definition vmfault (pagetable va : Z) : KM Z :=
  let! p := curproc in
  do! updp p (set p_page_faults inc32);
  let! pr := getp p in
  if p_sz pr <=? va then ret 0
  else
    let va := PGROUNDDOWN va in
    let! pte := walk pagetable va true in
    if pte =? 0 then panic "error in vmfault : pte not valid 1"
    else
      let! e := load64 pte in
      if has e PTE_S then vmfault_swapin p pte va
      else vmfault_lazy p pagetable pte va.

(** ** Copying between the kernel and user space

    A kernel buffer is the list of its bytes: [copyout] reads one, [copyin]
    and [copyinstr] return what they wrote with their result.  Each
    iteration moves at least one byte, so [len] iterations are enough. *)

(** [walkaddr], and [vmfault] when it finds nothing. *)
Definition fault_in (pagetable va0 : Z) : KM Z :=
  let! pa0 := walkaddr pagetable va0 in
  if pa0 =? 0 then vmfault pagetable va0 else ret pa0.

Fixpoint copyout_loop (fuel : nat) (pagetable dstva : Z) (src : list Z) (len : Z) : KM Z :=
  if len <=? 0 then ret 0
  else
    match fuel with
    | O => ret (-1)
    | S fuel' =>
        let va0 := PGROUNDDOWN dstva in
        if MAXVA <=? va0 then ret (-1)
        else
          let! pa0 := fault_in pagetable va0 in
          if pa0 =? 0 then ret (-1)
          else
            let! pte := walk pagetable va0 false in
            let! e := load_pte pte in
            if negb (has e PTE_W) then ret (-1)
            else
              let n := Z.min (PGSIZE - (dstva - va0)) len in
              do! kstore (pa0 + (dstva - va0)) (take (Z.to_nat n) src);
              copyout_loop fuel' pagetable (u64 (va0 + PGSIZE)) (drop (Z.to_nat n) src) (len - n)
    end.
Definition copyout (pagetable dstva : Z) (src : list Z) (len : Z) : KM Z :=
  copyout_loop (Z.to_nat len) pagetable dstva src len.

Fixpoint copyin_loop (fuel : nat) (pagetable srcva len : Z) : KM (Z * list Z) :=
  if len <=? 0 then ret (0, [])
  else
    match fuel with
    | O => ret (-1, [])
    | S fuel' =>
        let va0 := PGROUNDDOWN srcva in
        let! pa0 := fault_in pagetable va0 in
        if pa0 =? 0 then ret (-1, [])
        else
          let n := Z.min (PGSIZE - (srcva - va0)) len in
          let! bs := kload (pa0 + (srcva - va0)) n in
          let! r := copyin_loop fuel' pagetable (u64 (va0 + PGSIZE)) (len - n) in
          ret (fst r, bs ++ snd r)
    end.
Definition copyin (pagetable srcva len : Z) : KM (Z * list Z) :=
  copyin_loop (Z.to_nat len) pagetable srcva len.

(** The bytes copied from one page, and whether the terminator was met. *)
Fixpoint copyinstr_page (m : memory) (p : Z) (n : nat) : list Z * bool :=
  match n with
  | O => ([], false)
  | S n' =>
      if m p =? 0 then ([0], true)
      else let r := copyinstr_page m (p + 1) n' in (m p :: fst r, snd r)
  end.

Fixpoint copyinstr_loop (fuel : nat) (pagetable srcva max : Z) : KM (Z * list Z) :=
  if max <=? 0 then ret (-1, [])
  else
    match fuel with
    | O => ret (-1, [])
    | S fuel' =>
        let va0 := PGROUNDDOWN srcva in
        let! pa0 := walkaddr pagetable va0 in
        if pa0 =? 0 then ret (-1, [])
        else
          let n := Z.min (PGSIZE - (srcva - va0)) max in
          let! b := gets (fun k => copyinstr_page (k_mem k) (pa0 + (srcva - va0)) (Z.to_nat n)) in
          if snd b then ret (0, fst b)
          else
            let! r := copyinstr_loop fuel' pagetable (u64 (va0 + PGSIZE)) (max - n) in
            ret (fst r, fst b ++ snd r)
    end.
Definition copyinstr (pagetable srcva max : Z) : KM (Z * list Z) :=
  copyinstr_loop (Z.to_nat max) pagetable srcva max.

End Vm.
