(* ===== verification/VmInv.v ===== *)
(** * The invariant of physical memory, and what user processes see

    Every page of RAM has one use: on the free list, a page-table page at one
    place of one page table, a user page at one place of one page table, owned
    by the kernel routine that just allocated it, or a page of the kernel
    (its text and data, trap frames), which page tables may share.  [vm_wf] ties the free list, the page
    tables, the frame table and the swap slots to that assignment; [view] is
    the memory a page table gives to user code, whether a page is in RAM or in
    a swap slot. *)

From Stdlib Require Import ZArith Lia.
From stdpp Require Import base list strings sets.
From S2P Require Import Prelude Params Mem State Evict Kalloc Vm.

(** The use of a page.  A page-table page is known by its root, its level and
    the part of the virtual address that leads to it; a user page by its root
    and virtual page number. *)
Inductive usage :=
  | Free
  | PTab (root : Z) (level : nat) (prefix : Z)
  | Data (root vpn : Z)
  | Owned
  | Other.
#[export] Instance usage_eq_dec : EqDecision usage.
Proof. solve_decision. Defined.

(** The entry for [va], 0 when a directory is missing. *)
Definition pte_of (m : memory) (r va : Z) : Z :=
  let a := pte_addr m r va in if a =? 0 then 0 else ld64 m a.

(** The flags and the byte user code sees at [va]: the page may be in RAM or
    in a swap slot, whose flags are those a fault restores. *)
Definition view (m : memory) (r va : Z) : option (Z * Z) :=
  let e := pte_of m r va in
  if has e PTE_V then Some (PTE_FLAGS e, m (PTE2PA e + va mod PGSIZE))
  else if has e PTE_S then
    Some (Z.lor (Z.land (PTE_FLAGS e) (Z.lnot PTE_S)) PTE_V,
          m (get_swap_addr (i32 (Z.shiftr e 10)) + va mod PGSIZE))
  else None.

(** A walk only depends on the page of the address. *)
Lemma PX_vpn level va va' : 0 <= level -> va / PGSIZE = va' / PGSIZE -> PX level va = PX level va'.
Proof.
  intros Hl Hv. rewrite !PX_spec by done. rewrite !Z.pow_add_r by lia. change (2 ^ 12) with PGSIZE.
  by rewrite <- !Z.div_div, Hv by (unfold PGSIZE; lia).
Qed.

Lemma pte_addr_vpn m r va va' : va / PGSIZE = va' / PGSIZE -> pte_addr m r va = pte_addr m r va'.
Proof.
  intros Hv. unfold pte_addr. cbn [pt_walk].
  by rewrite (PX_vpn (Z.of_nat 2) va va'), (PX_vpn (Z.of_nat 1) va va'), (PX_vpn 0 va va') by (done || lia).
Qed.

Section VmInv.
Context {L : Layout} {LO : LayoutOk L}.

(** ** Page tables *)

Record pt_ok (use : Z -> usage) (m : memory) : Prop := {
  pt_page a : use a <> Other -> page_ok a;
  pt_root a r l pre : use a = PTab r l pre -> use r = PTab r 2 0;
  pt_inj a b r l pre : use a = PTab r l pre -> use b = PTab r l pre -> a = b;
  pt_node a r l pre i : use a = PTab r (S l) pre -> 0 <= i < 512 ->
    has (ld64 m (a + 8 * i)) PTE_V = true ->
    use (PTE2PA (ld64 m (a + 8 * i))) = PTab r l (512 * pre + i);
  pt_level a r l pre : use a = PTab r l pre -> (l <= 2)%nat /\ (l = 2%nat -> a = r /\ pre = 0);
  pt_link b r l pre : use b = PTab r l pre -> (l < 2)%nat ->
    exists a, use a = PTab r (S l) (pre / 512) /\
      has (ld64 m (a + 8 * (pre mod 512))) PTE_V = true /\ PTE2PA (ld64 m (a + 8 * (pre mod 512))) = b;
  pt_plain a r l pre i : use a = PTab r (S l) pre -> 0 <= i < 512 ->
    has (ld64 m (a + 8 * i)) PTE_V = true -> PTE_FLAGS (ld64 m (a + 8 * i)) = PTE_V;
  pt_low a r pre : use a = PTab r 1 pre -> pre < 256
}.

Lemma page_ok_pos a : page_ok a -> KERNBASE < a.
Proof. destruct LO as [[? ?] _ _ _ _]. intros (_ & ? & _). lia. Qed.

Section Tables.
Context {use : Z -> usage} {m : memory} (Hpt : pt_ok use m).

Lemma ptab_page a r l pre : use a = PTab r l pre -> page_ok a.
Proof. intros H. apply (pt_page _ _ Hpt). by rewrite H. Qed.

Lemma prefix_step va l : 0 <= va ->
  512 * (va / 2 ^ (12 + 9 * (Z.of_nat (S l) + 1))) + PX (Z.of_nat (S l)) va
  = va / 2 ^ (12 + 9 * (Z.of_nat l + 1)).
Proof.
  intros H. rewrite PX_spec by lia.
  replace (12 + 9 * (Z.of_nat (S l) + 1)) with (12 + 9 * Z.of_nat (S l) + 9) by lia.
  replace (12 + 9 * (Z.of_nat l + 1)) with (12 + 9 * Z.of_nat (S l)) by lia.
  rewrite Z.pow_add_r by lia. rewrite <- Z.div_div by first [done | apply Z.pow_nonzero; lia]. change (2 ^ 9) with 512.
  generalize (va / 2 ^ (12 + 9 * Z.of_nat (S l))). intros x. dlia.
Qed.

Lemma pt_walk_leaf va l a r :
  0 <= va -> use a = PTab r l (va / 2 ^ (12 + 9 * (Z.of_nat l + 1))) ->
  pt_walk m va l a = 0 \/
  exists a0, pt_walk m va l a = a0 + 8 * PX 0 va /\ use a0 = PTab r 0 (va / 2 ^ 21).
Proof.
  intros Hva. revert a. induction l as [|l IH]; intros a Ha; cbn [pt_walk].
  - right. by exists a.
  - destruct (has _ _) eqn:HV; [|by left]. apply IH.
    erewrite (pt_node _ _ Hpt); [|done|apply PX_range; lia|done].
    by rewrite prefix_step.
Qed.

Lemma pte_addr_leaf r va :
  use r = PTab r 2 0 -> 0 <= va < MAXVA ->
  pte_addr m r va = 0 \/
  exists a0, pte_addr m r va = a0 + 8 * PX 0 va /\ use a0 = PTab r 0 (va / 2 ^ 21).
Proof.
  intros Hr Hva. apply pt_walk_leaf; [lia|]. rewrite Hr. f_equal.
  change (2 ^ (12 + 9 * (Z.of_nat 2 + 1))) with 549755813888. daddr.
Qed.

(** The entry lies in its page-table page. *)
Lemma leaf_inside a0 va : page_ok a0 ->
  a0 <= a0 + 8 * PX 0 va /\ a0 + 8 * PX 0 va + 8 <= a0 + PGSIZE /\ 0 < a0 + 8 * PX 0 va.
Proof.
  intros Ha. pose proof (PX_range 0 va). apply page_ok_pos in Ha. addr.
Qed.

Lemma vpn_split va : 0 <= va -> va / PGSIZE = 512 * (va / 2 ^ 21) + PX 0 va.
Proof.
  intros H. rewrite PX_spec by lia. change (2 ^ 21) with 2097152. change (2 ^ (12 + 9 * 0)) with 4096.
  unfold PGSIZE. dlia.
Qed.

(** Different pages of different page tables have different entries. *)
Lemma pte_addr_inj r va r' va' :
  use r = PTab r 2 0 -> use r' = PTab r' 2 0 -> 0 <= va < MAXVA -> 0 <= va' < MAXVA ->
  pte_addr m r va <> 0 ->
  pte_addr m r va = pte_addr m r' va' \/
    (pte_addr m r va < pte_addr m r' va' + 8 /\ pte_addr m r' va' < pte_addr m r va + 8) ->
  r = r' /\ va / PGSIZE = va' / PGSIZE.
Proof.
  intros Hr Hr' Hva Hva' Hne He.
  destruct (pte_addr_leaf r va Hr Hva) as [?|(a & Ea & Ha)]; [done|].
  destruct (pte_addr_leaf r' va' Hr' Hva') as [E0|(b & Eb & Hb)].
  { exfalso. pose proof (leaf_inside a va (ptab_page _ _ _ _ Ha)).
    apply ptab_page, page_ok_pos in Ha. pose proof (PX_range 0 va). addr. }
  rewrite Ea, Eb in He. rewrite !vpn_split by lia.
  pose proof (PX_range 0 va ltac:(lia)). pose proof (PX_range 0 va' ltac:(lia)).
  pose proof (ptab_page _ _ _ _ Ha) as (Hal & _). pose proof (ptab_page _ _ _ _ Hb) as (Hbl & _).
  assert (a = b) as <- by (unfold PGSIZE in *; dlia).
  rewrite Ha in Hb. injection Hb as -> Hp. split; [done|]. lia.
Qed.

(** The entries of the page tables in [m'] are those in [m], but for the one
    at address [a]. *)
Definition tables_upd (m' : memory) (a v : Z) : Prop :=
  forall b r l pre i, use b = PTab r l pre -> 0 <= i < 512 ->
    ld64 m' (b + 8 * i) = if decide (b + 8 * i = a) then v else ld64 m (b + 8 * i).

Lemma dir_entry_ne b r l pre i r' va :
  use b = PTab r (S l) pre -> 0 <= i < 512 -> use r' = PTab r' 2 0 -> 0 <= va < MAXVA ->
  pte_addr m r' va <> 0 -> b + 8 * i <> pte_addr m r' va.
Proof.
  intros Hb Hi Hr Hva Hne He. destruct (pte_addr_leaf r' va Hr Hva) as [?|(a & Ea & Ha)]; [done|].
  pose proof (PX_range 0 va ltac:(lia)).
  pose proof (ptab_page _ _ _ _ Ha) as (Hal & _). pose proof (ptab_page _ _ _ _ Hb) as (Hbl & _).
  assert (a = b) as <- by (unfold PGSIZE in *; dlia). congruence.
Qed.

Lemma pt_walk_upd m' x v va l a r :
  tables_upd m' x v ->
  (forall b r l pre i, use b = PTab r (S l) pre -> 0 <= i < 512 -> b + 8 * i <> x) ->
  0 <= va -> use a = PTab r l (va / 2 ^ (12 + 9 * (Z.of_nat l + 1))) ->
  pt_walk m' va l a = pt_walk m va l a.
Proof.
  intros Hu Hx Hva. revert a. induction l as [|l IH]; intros a Ha; cbn [pt_walk]; [done|].
  pose proof (PX_range (Z.of_nat (S l)) va ltac:(lia)) as HP.
  rewrite (Hu _ _ _ _ _ Ha HP), decide_False by (by eapply Hx).
  destruct (has _ _) eqn:HV; [|done]. apply IH.
  erewrite (pt_node _ _ Hpt); [|done|done|done]. by rewrite prefix_step.
Qed.

Section Upd.
Context {m' : memory} {r va v : Z} (Hr : use r = PTab r 2 0) (Hva : 0 <= va < MAXVA)
  (Hne : pte_addr m r va <> 0) (Hupd : tables_upd m' (pte_addr m r va) v).

Lemma pte_addr_upd r' va' : use r' = PTab r' 2 0 -> 0 <= va' < MAXVA ->
  pte_addr m' r' va' = pte_addr m r' va'.
Proof.
  intros Hr' Hva'. eapply pt_walk_upd; [done| |lia|].
  - intros. by eapply dir_entry_ne.
  - rewrite Hr'. f_equal. change (2 ^ (12 + 9 * (Z.of_nat 2 + 1))) with 549755813888. daddr.
Qed.

Lemma pte_of_upd r' va' : use r' = PTab r' 2 0 -> 0 <= va' < MAXVA ->
  pte_of m' r' va' =
    if decide (r' = r /\ va' / PGSIZE = va / PGSIZE) then v else pte_of m r' va'.
Proof.
  intros Hr' Hva'. unfold pte_of. rewrite pte_addr_upd by done.
  destruct (pte_addr_leaf r' va' Hr' Hva') as [E0|(a & Ea & Ha)].
  - rewrite E0. cbn. rewrite decide_False; [done|]. intros [-> Hv].
    apply Hne. rewrite <- E0. by apply pte_addr_vpn.
  - pose proof (leaf_inside a va' (ptab_page _ _ _ _ Ha)). rewrite Ea, (proj2 (Z.eqb_neq _ _)) by lia.
    rewrite (Hupd _ _ _ _ _ Ha (PX_range 0 va' ltac:(lia))).
    destruct (decide (a + 8 * PX 0 va' = _)) as [E|E], (decide (r' = r /\ _)) as [E'|E']; try done.
    + exfalso. apply E'. rewrite <- Ea in E. apply pte_addr_inj; try done; [congruence|by left].
    + exfalso. apply E. destruct E' as [-> E']. rewrite <- Ea. by apply pte_addr_vpn.
Qed.
End Upd.
End Tables.

(** ** The whole invariant

    [use] assigns a use to each page, [slot] the owner of each swap slot. *)
Definition is_root (use : Z -> usage) (r : Z) : Prop := use r = PTab r 2 0.

Definition leaf_ok (use : Z -> usage) (m : memory) (r va : Z) : Prop :=
  let e := pte_of m r va in
  has e PTE_V = true ->
  (use (PTE2PA e) = Data r (va / PGSIZE) /\ has e PTE_S = false) \/
  (use (PTE2PA e) = Other /\ has e PTE_U = false /\ 0 < PTE2PA e /\ PTE2PA e + PGSIZE <= PHYSTOP /\
   has e PTE_S = false).

Definition swap_entry_ok (slot : Z -> option (Z * Z)) (k : kernel) (r va : Z) : Prop :=
  let e := pte_of (k_mem k) r va in
  has e PTE_V = false -> has e PTE_S = true ->
  0 <= Z.shiftr e 10 < MAX_SP /\ aget (k_swap_mask k) (Z.shiftr e 10) <> 0 /\
  slot (Z.shiftr e 10) = Some (r, va / PGSIZE).

(** A frame in use is the page its owner has at the recorded address. *)
Definition frame_ok (use : Z -> usage) (k : kernel) (j : Z) : Prop :=
  let f := frame_at k j in
  forall p, f_used f <> 0 -> f_p f = Some p ->
  let r := p_pagetable (k_procs k !!! p) in
  let e := pte_of (k_mem k) r (f_va f) in
  is_root use r /\ 0 <= f_va f < MAXVA /\ f_va f mod PGSIZE = 0 /\ has e PTE_V = true /\
  PTE2PA e = KERNBASE + j * PGSIZE /\ use (PTE2PA e) = Data r (f_va f / PGSIZE).

Record vm_wf (use : Z -> usage) (slot : Z -> option (Z * Z)) (k : kernel) : Prop := {
  wf_mem : mem_ok (k_mem k);
  wf_pt : pt_ok use (k_mem k);
  wf_leaf r va : is_root use r -> 0 <= va < MAXVA -> leaf_ok use (k_mem k) r va;
  wf_free : exists l, freelist_rep (k_mem k) (k_freelist k) l /\ NoDup l /\
    forall a, a ∈ l <-> use a = Free;
  wf_mask : swap_wf k;
  wf_swap r va : is_root use r -> 0 <= va < MAXVA -> swap_entry_ok slot k r va;
  wf_frames : frames_wf k;
  wf_frame j : 0 <= j < NFRAMES -> frame_ok use k j
}.

Lemma PTE2PA_aligned e : PTE2PA e mod PGSIZE = 0 /\ 0 <= PTE2PA e.
Proof. rewrite PTE2PA_spec. unfold u64, PGSIZE. dlia. Qed.

(** A page that holds user or kernel data and a page-table page are disjoint. *)
Lemma data_not_table use m a b r l pre x :
  pt_ok use m -> use b = PTab r l pre -> use a <> PTab r l pre -> a mod PGSIZE = 0 ->
  b <= x -> x + 8 <= b + PGSIZE -> a + PGSIZE <= x \/ x + 8 <= a.
Proof.
  intros Hpt Hb Ha Hal Hx1 Hx2.
  pose proof (ptab_page Hpt _ _ _ _ Hb) as (Hbl & _).
  assert (a <> b) by (by intros ->).
  destruct (pages_disjoint a b Hal Hbl) as [?|?]; [done|left|right]; lia.
Qed.

(** ** Memory updates that keep user memory

    The routines below write one page-table entry at most, and one page: a
    free, freshly allocated or user page, a page of the kernel that is no page
    table (a trap frame), or a free swap slot. *)
Definition scratch (use : Z -> usage) (mask : list Z) (P : Z) : Prop :=
  P mod PGSIZE = 0 /\
  ((use P = Owned \/ use P = Free \/ (exists r n, use P = Data r n) \/ (use P = Other /\ P + PGSIZE <= PHYSTOP)) \/
   exists i, P = get_swap_addr i /\ 0 <= i /\ (i < MAX_SP -> aget mask i = 0)).

Definition in_table (use : Z -> usage) (a : Z) : Prop :=
  exists b r l pre i, use b = PTab r l pre /\ 0 <= i < 512 /\ a = b + 8 * i.

(** [m'] is [m] but for the entry at [a] and the page [P]. *)
Definition changes (m m' : memory) (a P : Z) : Prop :=
  forall x, ~ (a <= x < a + 8) -> ~ (P <= x < P + PGSIZE) -> m' x = m x.

Lemma PHYSTOP_aligned : PHYSTOP mod PGSIZE = 0. Proof. done. Qed.

Lemma swap_addr_page i : 0 <= i -> PHYSTOP <= get_swap_addr i /\ get_swap_addr i mod PGSIZE = 0.
Proof. intros H. unfold get_swap_addr. daddr. Qed.

(** A page that is not part of memory, for updates that write no page. *)
Definition nopage : Z := get_swap_addr MAX_SP.

Lemma nopage_scratch use mask : scratch use mask nopage.
Proof. split; [done|]. right. exists MAX_SP. split; [done|]. split; [done|]. lia. Qed.

Section Change.
Context {use : Z -> usage} {slot : Z -> option (Z * Z)} {k : kernel} (Hwf : vm_wf use slot k)
  {m' : memory} {a P : Z} (Ha : a = 0 \/ in_table use a)
  (HP : scratch use (k_swap_mask k) P) (Hch : changes (k_mem k) m' a P).
Local Abbreviation m := (k_mem k).

Lemma scratch_not_table b r l pre : use b = PTab r l pre -> b + PGSIZE <= P \/ P + PGSIZE <= b.
Proof.
  intros Hb. pose proof (ptab_page (wf_pt _ _ _ Hwf) _ _ _ _ Hb) as (Hbl & _ & Hbh).
  destruct HP as [HPl [Hu|(i & -> & Hi & _)]].
  - apply pages_disjoint; [done|done|]. intros ->. naive_solver congruence.
  - left. pose proof (swap_addr_page i). lia.
Qed.

Lemma tables_change : @tables_upd use m m' a (ld64 m' a).
Proof.
  intros b r l pre i Hb Hi. case_decide as E; [by subst|].
  apply ld64_ext. intros o Ho. pose proof (scratch_not_table _ _ _ _ Hb).
  apply Hch; [|unfold PGSIZE in *; lia].
  pose proof (ptab_page (wf_pt _ _ _ Hwf) _ _ _ _ Hb) as Hbp.
  pose proof (page_ok_pos _ Hbp). destruct Hbp as (Hbl & _).
  destruct Ha as [->|(c & r' & l' & pre' & i' & Hc & Hi' & ->)]; [addr|].
  destruct (ptab_page (wf_pt _ _ _ Hwf) _ _ _ _ Hc) as (Hcl & _). daddr.
Qed.

Lemma free_change b : use b = Free -> b <> P -> ld64 m' b = ld64 m b.
Proof.
  intros Hb Hne. pose proof (pt_page _ _ (wf_pt _ _ _ Hwf) b ltac:(by rewrite Hb)) as Hbp.
  pose proof (page_ok_pos _ Hbp). destruct Hbp as (Hbl & _ & Hbh). apply ld64_ext. intros o Ho. apply Hch.
  - destruct Ha as [->|(c & r' & l' & pre' & i' & Hc & Hi' & ->)]; [addr|].
    destruct (data_not_table _ _ b _ _ _ _ (c + 8 * i') (wf_pt _ _ _ Hwf) Hc) as [?|?]; [congruence|done|addr..].
  - destruct HP as [HPl [Hu|(i & -> & Hi & _)]].
    + destruct (pages_disjoint b P); addr.
    + pose proof (swap_addr_page i). addr.
Qed.

(** The pages and slots of other entries are not touched. *)
Lemma view_apart r va :
  is_root use r -> 0 <= va < MAXVA -> pte_of m' r va = pte_of m r va ->
  (has (pte_of m r va) PTE_V = true -> PTE2PA (pte_of m r va) <> P) -> view m' r va = view m r va.
Proof.
  intros Hr Hva He HnP. unfold view. rewrite He.
  pose proof (Z.mod_pos_bound va PGSIZE ltac:(done)) as Ho.
  destruct (has (pte_of m r va) PTE_V) eqn:HV; [|destruct (has (pte_of m r va) PTE_S) eqn:HS; [|done]].
  - destruct (PTE2PA_aligned (pte_of m r va)) as [Hal Hnn]. f_equal. f_equal. apply Hch.
    + destruct Ha as [->|(b & r' & l' & pre' & i' & Hb & Hi' & ->)].
      * destruct (wf_leaf _ _ _ Hwf r va Hr Hva HV) as [[Hd _]|(_ & _ & ? & _)]; [|daddr].
        assert (KERNBASE < PTE2PA (pte_of m r va)); [|addr].
        apply page_ok_pos, (pt_page _ _ (wf_pt _ _ _ Hwf)). by rewrite Hd.
      * assert (Hne : use (PTE2PA (pte_of m r va)) <> PTab r' l' pre').
        { destruct (wf_leaf _ _ _ Hwf r va Hr Hva HV) as [[Hd _]|(Hd & _)]; by rewrite Hd. }
        destruct (data_not_table _ _ _ _ _ _ _ (b + 8 * i') (wf_pt _ _ _ Hwf) Hb Hne Hal); addr.
    + destruct (pages_disjoint _ P Hal (proj1 HP) (HnP eq_refl)); addr.
  - destruct (wf_swap _ _ _ Hwf r va Hr Hva HV HS) as (Hs & Hmask & _).
    rewrite i32_id by (unfold MAX_SP in *; lia).
    f_equal. f_equal. pose proof (swap_addr_page (Z.shiftr (pte_of m r va) 10)). apply Hch.
    + destruct Ha as [->|(b & r' & l' & pre' & i' & Hb & Hi' & ->)]; [addr|].
      destruct (ptab_page (wf_pt _ _ _ Hwf) _ _ _ _ Hb) as (_ & _ & ?). addr.
    + destruct HP as [HPl [Hu|(i & -> & Hi & Hfree)]].
      * assert (P + PGSIZE <= PHYSTOP); [|addr].
        destruct (decide (use P = Other)) as [E|E]; [naive_solver congruence|]. by apply (pt_page _ _ (wf_pt _ _ _ Hwf)).
      * assert (i <> Z.shiftr (pte_of m r va) 10) by (intros ->; apply Hmask, Hfree; lia). unfold get_swap_addr in *. addr.
Qed.

Lemma view_other r va :
  is_root use r -> 0 <= va < MAXVA -> pte_of m' r va = pte_of m r va ->
  use P <> Data r (va / PGSIZE) -> use P <> Other \/ PHYSTOP <= P -> view m' r va = view m r va.
Proof.
  intros Hr Hva He HnD HnO. apply view_apart; [done..|]. intros HV E.
  destruct (wf_leaf _ _ _ Hwf r va Hr Hva HV) as [[Hd _]|(Hd & _ & _ & Hhi & _)]; rewrite E in *; [done|].
  destruct HnO; [done|addr].
Qed.

(** What user code may touch is in no page of the kernel. *)
Lemma view_user r va :
  is_root use r -> 0 <= va < MAXVA -> pte_of m' r va = pte_of m r va -> use P = Other -> P < PHYSTOP ->
  has (pte_of m r va) PTE_V = false \/ has (pte_of m r va) PTE_U = true -> view m' r va = view m r va.
Proof.
  intros Hr Hva He HO HP' HU. apply view_apart; [done..|]. intros HV E.
  destruct (wf_leaf _ _ _ Hwf r va Hr Hva HV) as [[Hd _]|(_ & HnU & _)]; [congruence|].
  destruct HU; congruence.
Qed.
End Change.

(** Writing a page that is no page table leaves every entry alone. *)
Section Scratch.
Context {use : Z -> usage} {slot : Z -> option (Z * Z)} {k : kernel} (Hwf : vm_wf use slot k)
  {m' : memory} {P : Z} (HP : scratch use (k_swap_mask k) P) (Hch : changes (k_mem k) m' 0 P).
Local Abbreviation m := (k_mem k).

Lemma scratch_entry_ne b r l pre i : use b = PTab r l pre -> 0 <= i < 512 -> b + 8 * i <> 0.
Proof.
  intros Hb Hi. pose proof (page_ok_pos _ (ptab_page (wf_pt _ _ _ Hwf) _ _ _ _ Hb)). addr.
Qed.

Lemma scratch_tables : @tables_upd use m m' 0 (ld64 m' 0).
Proof. eapply tables_change; [done|by left|done|done]. Qed.

Lemma scratch_addr r va : is_root use r -> 0 <= va < MAXVA -> pte_addr m' r va = pte_addr m r va.
Proof.
  intros Hr Hva. eapply (pt_walk_upd (wf_pt _ _ _ Hwf)); [apply scratch_tables| |lia|].
  - intros. by eapply scratch_entry_ne.
  - rewrite Hr. f_equal. change (2 ^ (12 + 9 * (Z.of_nat 2 + 1))) with 549755813888. daddr.
Qed.

Lemma scratch_pte r va : is_root use r -> 0 <= va < MAXVA -> pte_of m' r va = pte_of m r va.
Proof.
  intros Hr Hva. unfold pte_of. rewrite scratch_addr by done.
  destruct (Z.eqb_spec (pte_addr m r va) 0) as [|Hn]; [done|].
  destruct (pte_addr_leaf (wf_pt _ _ _ Hwf) r va Hr Hva) as [?|(a & Ea & Ha)]; [done|].
  pose proof (PX_range 0 va ltac:(lia)). rewrite Ea.
  rewrite (scratch_tables _ _ _ _ _ Ha), decide_False by (done || by eapply scratch_entry_ne). done.
Qed.
End Scratch.

Lemma pt_ok_keep use use' m m' a v :
  pt_ok use m -> @tables_upd use m m' a v ->
  (forall b r l pre i, use b = PTab r (S l) pre -> 0 <= i < 512 -> b + 8 * i <> a) ->
  (forall x r l pre, use' x = PTab r l pre <-> use x = PTab r l pre) ->
  (forall x, use' x <> Other -> page_ok x) -> pt_ok use' m'.
Proof.
  intros Hpt Hu Hdir Hsame Hpage. split; [done|..].
  - intros x r l pre. rewrite !Hsame. apply (pt_root _ _ Hpt).
  - intros x y r l pre. rewrite !Hsame. apply (pt_inj _ _ Hpt).
  - intros x r l pre i. rewrite !Hsame. intros Hx Hi.
    rewrite (Hu _ _ _ _ _ Hx Hi), decide_False by (by eapply Hdir). by apply (pt_node _ _ Hpt).
  - intros x r l pre. rewrite !Hsame. apply (pt_level _ _ Hpt).
  - intros b r l pre. rewrite !Hsame. intros Hb Hl.
    destruct (pt_link _ _ Hpt b r l pre Hb Hl) as (x & Hx & HV & Hpa). exists x. rewrite Hsame.
    pose proof (Z.mod_pos_bound pre 512 ltac:(lia)).
    rewrite (Hu _ _ _ _ _ Hx), decide_False by (done || by eapply Hdir). done.
  - intros x r l pre i. rewrite !Hsame. intros Hx Hi.
    rewrite (Hu _ _ _ _ _ Hx Hi), decide_False by (by eapply Hdir). by apply (pt_plain _ _ Hpt _ _ _ _ _ Hx).
  - intros x r pre. rewrite Hsame. apply (pt_low _ _ Hpt).
Qed.

(** The free list after a change, for the pages that stay free. *)
Lemma freelist_change use slot k m' a P l :
  vm_wf use slot k -> (a = 0 \/ in_table use a) -> scratch use (k_swap_mask k) P ->
  changes (k_mem k) m' a P -> (forall b, b ∈ l -> use b = Free /\ b <> P) ->
  forall h, freelist_rep (k_mem k) h l -> freelist_rep m' h l.
Proof.
  intros Hwf Ha HP Hch Hl h Hrep. eapply freelist_rep_ext; [done|].
  intros b Hb. destruct (Hl b Hb). by eapply free_change.
Qed.

Lemma pte_of_present m r va bit : 0 <= bit ->
  has (pte_of m r va) (Z.shiftl 1 bit) = true -> pte_addr m r va <> 0 /\ pte_of m r va = ld64 m (pte_addr m r va).
Proof.
  intros Hb H. unfold pte_of in *. destruct (Z.eqb_spec (pte_addr m r va) 0); [|done].
  unfold has in H. by rewrite Z.land_0_l in H.
Qed.

(** The entry of a page lies in a page table. *)
Lemma pte_in_table use m r va :
  pt_ok use m -> is_root use r -> 0 <= va < MAXVA -> pte_addr m r va <> 0 ->
  in_table use (pte_addr m r va) /\ KERNBASE < pte_addr m r va /\ pte_addr m r va + 8 <= PHYSTOP.
Proof.
  intros Hpt Hr Hva Hne. destruct (pte_addr_leaf Hpt r va Hr Hva) as [?|(a & Ea & Ha)]; [done|].
  pose proof (PX_range 0 va ltac:(lia)). pose proof (ptab_page Hpt _ _ _ _ Ha) as Hp.
  pose proof (page_ok_pos _ Hp). destruct Hp as (_ & _ & ?). split; [|addr].
  by exists a, r, 0%nat, (va / 2 ^ 21), (PX 0 va).
Qed.
End VmInv.
