(* ===== verification/VmFault.v ===== *)
(** * Page faults: swapping in, allocating lazily

    Mapping an owned page at an address keeps the invariant of physical
    memory and changes no other page of any process; [vmfault] brings a
    swapped page back with the contents and the flags it had.  Eviction, which
    a fault may need, comes first: it moves a page to swap and changes what no
    process sees. *)

From Stdlib Require Import ZArith Lia.
From stdpp Require Import base list strings sets.
From S2P Require Import Prelude Params Mem State Evict Kalloc Vm VmInv.

(** [m'] shows every process the memory [m] shows it. *)
Definition same_views (use : Z -> usage) (m m' : memory) : Prop :=
  forall r va, is_root use r -> 0 <= va < MAXVA -> view m' r va = view m r va.

Section VmEvict.
Context {L : Layout} {LO : LayoutOk L}.

Lemma evictable_inv k f : evictable k f = true -> exists p, f_p f = Some p /\ f_used f <> 0.
Proof.
  unfold evictable. destruct (f_p f) as [p|]; [|done]. intros H.
  apply andb_true_iff in H as [H _]. exists p. split; [done|].
  by destruct (Z.eqb_spec (f_used f) 0).
Qed.

(** ** The entry an eviction writes *)
Lemma swap_pte_u64 i flags : 0 <= i < MAX_SP -> 0 <= flags < 1024 -> u64 (swap_pte i flags) = swap_pte i flags.
Proof.
  intros Hi Hf. rewrite swap_pte_spec by done. pose proof (swap_flags_range flags Hf).
  apply u64_id. unfold MAX_SP in *. lia.
Qed.

Lemma PTE_FLAGS_range e : 0 <= PTE_FLAGS e < 1024.
Proof. rewrite PTE_FLAGS_spec. apply Z.mod_pos_bound. lia. Qed.

Lemma has_flags e n : 0 <= n < 10 -> has (PTE_FLAGS e) (Z.shiftl 1 n) = has e (Z.shiftl 1 n).
Proof.
  intros Hn. rewrite PTE_FLAGS_spec. rewrite (Z.div_mod e 1024) at 2 by lia.
  symmetry. apply (has_low (e mod 1024) (e / 1024) n 10). lia.
Qed.

Section Evicted.
Context {use : Z -> usage} {slot : Z -> option (Z * Z)} {k k' : kernel} {te i pa : Z}
  (Hwf : vm_wf use slot k) (Hvic : victim k te) (Hslot : first_slot k i) (Hev : evicted k te i pa k').
Local Abbreviation m := (k_mem k).
Local Abbreviation f := (frame_at k te).
Local Abbreviation r := (p_pagetable (k_procs k !!! default 0%nat (f_p f))).
Local Abbreviation va := (f_va f).
Local Abbreviation e := (pte_of m r va).
Local Abbreviation v := (swap_pte i (PTE_FLAGS e)).

Lemma victim_frame :
  is_root use r /\ 0 <= va < MAXVA /\ va mod PGSIZE = 0 /\ has e PTE_V = true /\
  PTE2PA e = KERNBASE + te * PGSIZE /\ use (PTE2PA e) = Data r (va / PGSIZE).
Proof.
  destruct Hvic as [(Hte & He & _) _]. destruct (evictable_inv _ _ He) as (p & Hp & Hu).
  pose proof (wf_frame _ _ _ Hwf te Hte p Hu Hp) as H. by rewrite Hp.
Qed.

Lemma evicted_addr : owner_pte k te <> 0 /\ pa = PTE2PA e /\
  k_mem k' = st64 (memmove m (get_swap_addr i) pa PGSIZE) (owner_pte k te) v.
Proof.
  destruct victim_frame as (_ & _ & _ & HV & _). apply (pte_of_present m r va 0) in HV as [Ha He]; [|lia].
  destruct Hev as (-> & Hk' & _). change (owner_pte k te) with (pte_addr m r va) in *.
  rewrite He. rewrite Hk'. done.
Qed.

Lemma evicted_changes : changes m (k_mem k') (owner_pte k te) (get_swap_addr i).
Proof.
  destruct evicted_addr as (_ & _ & ->). intros x Hx1 Hx2.
  rewrite st64_out by lia. apply memmove_out; [apply (wf_mem _ _ _ Hwf)|addr|lia].
Qed.

Lemma evicted_scratch : scratch use (k_swap_mask k) (get_swap_addr i).
Proof.
  destruct Hslot as (Hi & Hf & _). split; [apply swap_addr_page; lia|]. right. exists i. split; [done|]. split; [lia|done].
Qed.

Lemma evicted_entry : ld64 (k_mem k') (owner_pte k te) = v.
Proof.
  destruct evicted_addr as (_ & _ & ->). rewrite ld64_st64. destruct Hslot as (Hi & _).
  apply swap_pte_u64; [done|apply PTE_FLAGS_range].
Qed.

Lemma evicted_tables : @tables_upd use m (k_mem k') (pte_addr m r va) v.
Proof.
  destruct victim_frame as (Hr & Hva & _). destruct evicted_addr as (Ha & _).
  rewrite <- evicted_entry. eapply tables_change; [done| |apply evicted_scratch|apply evicted_changes].
  right. by apply pte_in_table; [apply (wf_pt _ _ _ Hwf)|..].
Qed.

Lemma evicted_pte r' va' : is_root use r' -> 0 <= va' < MAXVA ->
  pte_of (k_mem k') r' va' = if decide (r' = r /\ va' / PGSIZE = va / PGSIZE) then v else pte_of m r' va'.
Proof.
  destruct victim_frame as (Hr & Hva & _). destruct evicted_addr as (Ha & _).
  intros. by apply (pte_of_upd (wf_pt _ _ _ Hwf) Hr Hva Ha evicted_tables).
Qed.

Lemma evicted_view : same_views use m (k_mem k').
Proof.
  intros r' va' Hr' Hva'. destruct victim_frame as (Hr & Hva & Hal & HV & Hpa & Hu).
  destruct evicted_addr as (Ha & Epa & Hm'). destruct Hslot as (Hi & _).
  pose proof (evicted_pte r' va' Hr' Hva') as He. case_decide as Hsame.
  - destruct Hsame as [-> Hv]. assert (Hs : pte_of m r va' = e) by (unfold pte_of; by rewrite (pte_addr_vpn _ _ va' va)).
    unfold view. rewrite He, Hs, HV, swap_pte_V, swap_pte_S by apply PTE_FLAGS_range.
    rewrite swap_pte_index, swap_pte_flags by apply PTE_FLAGS_range. rewrite i32_id by (unfold MAX_SP in *; lia).
    destruct (wf_leaf _ _ _ Hwf r va Hr Hva HV) as [[_ HS]|[Hd _]]; [|congruence].
    rewrite swap_flags_undo; [|apply PTE_FLAGS_range|by rewrite (has_flags _ 0)|by rewrite (has_flags _ 8)].
    f_equal. f_equal. pose proof (Z.mod_pos_bound va' PGSIZE ltac:(done)).
    destruct (pte_in_table _ _ _ _ (wf_pt _ _ _ Hwf) Hr Hva Ha) as (_ & _ & ?).
    destruct (swap_addr_page i) as [? _]; [lia|].
    rewrite Hm', st64_out by (change (owner_pte k te) with (pte_addr m r va); addr).
    rewrite memmove_in; [|apply (wf_mem _ _ _ Hwf)|lia]. f_equal. lia.
  - eapply view_other; [done| |apply evicted_scratch|apply evicted_changes|done|done|done| |].
    + right. by apply pte_in_table; [apply (wf_pt _ _ _ Hwf)|..].
    + intros Hd. pose proof (pt_page _ _ (wf_pt _ _ _ Hwf) (get_swap_addr i) ltac:(by rewrite Hd)) as (_ & _ & ?).
      pose proof (swap_addr_page i). addr.
    + right. apply swap_addr_page. lia.
Qed.

Definition use_evict : Z -> usage := fupd pa Owned use.
Definition slot_evict : Z -> option (Z * Z) := fupd i (Some (r, va / PGSIZE)) slot.

Lemma use_pa : use pa = Data r (va / PGSIZE).
Proof. destruct victim_frame as (_ & _ & _ & _ & _ & Hu). by destruct evicted_addr as (_ & -> & _). Qed.

Lemma use_evict_ptab x r' l pre : use_evict x = PTab r' l pre <-> use x = PTab r' l pre.
Proof.
  unfold use_evict, fupd. case_decide as E; [|done]. subst x. rewrite use_pa. split; intros; congruence.
Qed.

Lemma evicted_leaf r' va' :
  is_root use r' -> 0 <= va' < MAXVA -> leaf_ok use_evict (k_mem k') r' va'.
Proof.
  intros Hr' Hva'. unfold leaf_ok. rewrite evicted_pte by done. case_decide as Hs.
  - rewrite swap_pte_V by apply PTE_FLAGS_range. done.
  - intros HV. unfold use_evict. destruct (wf_leaf _ _ _ Hwf r' va' Hr' Hva' HV) as [[Hd HS]|[Hd ?]].
    + left. rewrite fupd_ne; [done|]. intros E. rewrite E, use_pa in Hd. naive_solver.
    + right. rewrite fupd_ne; [done|]. intros E. rewrite E, use_pa in Hd. naive_solver.
Qed.

Lemma evicted_mask : k_swap_mask k' = aset i 1 (k_swap_mask k).
Proof. destruct Hev as (_ & Hk' & _). by rewrite Hk'. Qed.

Lemma evicted_swap r' va' :
  is_root use r' -> 0 <= va' < MAXVA -> swap_entry_ok slot_evict k' r' va'.
Proof.
  intros Hr' Hva'. unfold swap_entry_ok, slot_evict. rewrite evicted_pte, evicted_mask by done.
  destruct Hslot as (Hi & Hf & _). pose proof (wf_mask _ _ _ Hwf) as Hlen. unfold swap_wf in Hlen. case_decide as Hs.
  - intros _ _. rewrite swap_pte_index by apply PTE_FLAGS_range. split; [done|].
    rewrite aget_aset, decide_True, fupd_eq by (done || lia). destruct Hs as [-> ->]. done.
  - intros HV HS. destruct (wf_swap _ _ _ Hwf r' va' Hr' Hva' HV HS) as (Hs' & Hm & Ho). split; [done|].
    assert (Z.shiftr (pte_of m r' va') 10 <> i) by (unfold slot_free in Hf; congruence).
    rewrite aget_aset, decide_False, fupd_ne by (congruence || lia). done.
Qed.

Lemma evicted_frame j : 0 <= j < NFRAMES -> frame_ok use_evict k' j.
Proof.
  intros Hj. destruct Hev as (_ & Hk' & _ & Hfr). destruct victim_frame as (Hr & Hva & _ & _ & Hpa & _).
  destruct evicted_addr as (_ & Epa & _). unfold frame_ok. rewrite Hfr by done.
  case_decide as Hje; [done|]. intros p.
  assert (Hf : forall g, f_used (clear_rb k g) = f_used g /\ f_va (clear_rb k g) = f_va g)
    by (intros g; unfold clear_rb; by destruct (evictable k g)).
  rewrite clear_rb_same_owner, (proj1 (Hf _)), (proj2 (Hf _)). intros Hu Hp.
  assert (p_pagetable (k_procs k' !!! p) = p_pagetable (k_procs k !!! p)) as ->
    by (rewrite Hk'; cbn; by apply (proj_alter p_pagetable)).
  destruct (wf_frame _ _ _ Hwf j Hj p Hu Hp) as (Hr' & Hva' & Hal & HV & Hpa' & Hd).
  rewrite evicted_pte by done. case_decide as Hs.
  { exfalso. destruct Hs as [Hrr Hvv]. apply Hje. revert Hpa'. unfold pte_of.
    rewrite Hrr, (pte_addr_vpn _ _ _ va) by done. fold e. rewrite Hpa. unfold PGSIZE. lia. }
  split; [by apply use_evict_ptab|]. split; [done|]. split; [done|]. split; [done|]. split; [done|].
  unfold use_evict. rewrite fupd_ne; [done|]. rewrite Epa, Hpa, Hpa'. unfold PGSIZE. lia.
Qed.

Lemma evicted_wf : vm_wf use_evict slot_evict k'.
Proof.
  destruct victim_frame as (Hr & Hva & _). destruct evicted_addr as (Ha & Epa & Hm').
  pose proof (pte_in_table _ _ _ _ (wf_pt _ _ _ Hwf) Hr Hva Ha) as (Hin & _).
  assert (Hroot : forall r', is_root use_evict r' <-> is_root use r') by (intros; apply use_evict_ptab).
  split.
  - rewrite Hm'. apply st64_ok, memmove_ok; [done|apply (wf_mem _ _ _ Hwf)].
  - eapply pt_ok_keep; [apply (wf_pt _ _ _ Hwf)|apply evicted_tables| |apply use_evict_ptab|].
    + intros. by eapply (dir_entry_ne (wf_pt _ _ _ Hwf)).
    + intros x. unfold use_evict, fupd. case_decide as E; [|apply (pt_page _ _ (wf_pt _ _ _ Hwf))].
      intros _. subst x. apply (pt_page _ _ (wf_pt _ _ _ Hwf)). by rewrite use_pa.
  - intros r' va'. rewrite Hroot. apply evicted_leaf.
  - destruct (wf_free _ _ _ Hwf) as (l & Hrep & Hnd & Hl). exists l.
    assert (k_freelist k' = k_freelist k) as -> by (destruct Hev as (_ & -> & _); done).
    split; [|split; [done|]].
    + eapply freelist_change; [done|right; done|apply evicted_scratch|apply evicted_changes| |done].
      intros b Hb. apply Hl in Hb. split; [done|]. intros ->.
      pose proof (pt_page _ _ (wf_pt _ _ _ Hwf) (get_swap_addr i) ltac:(by rewrite Hb)) as (_ & _ & ?).
      destruct Hslot as (Hi & _). pose proof (swap_addr_page i). addr.
    + intros b. rewrite Hl. unfold use_evict, fupd. case_decide as E; [|done].
      subst b. rewrite use_pa. done.
  - unfold swap_wf. rewrite evicted_mask, length_aset. apply (wf_mask _ _ _ Hwf).
  - intros r' va'. rewrite Hroot. apply evicted_swap.
  - destruct (wf_frames _ _ _ Hwf) as [Hlen Hc]. destruct Hev as (_ & Hk' & Hl & _).
    split; [by rewrite Hl|]. by rewrite Hk'.
  - apply evicted_frame.
Qed.
End Evicted.

(** ** Taking a page off the free list *)
Section Popped.
Context {use : Z -> usage} {slot : Z -> option (Z * Z)} {k : kernel}
  (Hwf : vm_wf use slot k) (Hne : k_freelist k <> 0).
Local Abbreviation m := (k_mem k).
Local Abbreviation h := (k_freelist k).
Local Abbreviation use' := (fupd h Owned use).

Lemma popped_head : use h = Free.
Proof.
  destruct (wf_free _ _ _ Hwf) as ([|a l] & Hrep & _ & Hl); cbn in Hrep; [done|].
  apply Hl. destruct Hrep as [-> _]. set_solver.
Qed.

Lemma popped_out x : ~ (h <= x < h + PGSIZE) -> k_mem (popped k) x = m x.
Proof. intros Hx. cbn. apply memset_out; [done|lia]. Qed.

Lemma popped_changes : changes m (k_mem (popped k)) 0 h.
Proof. intros x _. apply popped_out. Qed.

Lemma popped_scratch : scratch use (k_swap_mask k) h.
Proof.
  split; [|left; right; left; apply popped_head].
  by apply (pt_page _ _ (wf_pt _ _ _ Hwf)); rewrite popped_head.
Qed.

Lemma popped_ptab x r l pre : use' x = PTab r l pre <-> use x = PTab r l pre.
Proof. unfold fupd. case_decide; [subst; by rewrite popped_head|done]. Qed.

Lemma popped_tables : @tables_upd use m (k_mem (popped k)) 0 (ld64 (k_mem (popped k)) 0).
Proof. eapply scratch_tables; [done|apply popped_scratch|apply popped_changes]. Qed.

Lemma popped_addr r va : is_root use r -> 0 <= va < MAXVA -> pte_addr (k_mem (popped k)) r va = pte_addr m r va.
Proof. eapply scratch_addr; [done|apply popped_scratch|apply popped_changes]. Qed.

Lemma popped_pte r va : is_root use r -> 0 <= va < MAXVA -> pte_of (k_mem (popped k)) r va = pte_of m r va.
Proof. eapply scratch_pte; [done|apply popped_scratch|apply popped_changes]. Qed.

Lemma popped_view : same_views use m (k_mem (popped k)).
Proof.
  intros r va Hr Hva. eapply view_other; [done|by left|apply popped_scratch|apply popped_changes|done|done| | |].
  - by apply popped_pte.
  - by rewrite popped_head.
  - left. by rewrite popped_head.
Qed.

Lemma popped_use x : use x <> Free -> use' x = use x.
Proof. intros H. apply fupd_ne. intros ->. by rewrite popped_head in H. Qed.

Lemma popped_wf : vm_wf use' slot (popped k).
Proof.
  assert (Hroot : forall r, is_root use' r <-> is_root use r) by (intros; apply popped_ptab).
  split.
  - apply memset_ok; [done|apply (wf_mem _ _ _ Hwf)].
  - eapply pt_ok_keep; [apply (wf_pt _ _ _ Hwf)|apply popped_tables| |apply popped_ptab|].
    + intros. by eapply scratch_entry_ne.
    + intros x Hx. apply (pt_page _ _ (wf_pt _ _ _ Hwf)). revert Hx. unfold fupd.
      case_decide; [subst; by rewrite popped_head|done].
  - intros r va Hr Hva. apply Hroot in Hr. unfold leaf_ok. rewrite popped_pte by done. intros HV.
    destruct (wf_leaf _ _ _ Hwf r va Hr Hva HV) as [[Hd HS]|[Hd ?]]; [left|right];
      by rewrite popped_use by (by rewrite Hd).
  - destruct (wf_free _ _ _ Hwf) as ([|a l] & Hrep & Hnd & Hl); [done|].
    destruct Hrep as (Hh & _ & Hrep). apply NoDup_cons in Hnd as [Hni Hnd]. rewrite <- Hh in *.
    exists l. split; [|split; [done|]].
    + eapply freelist_change; [done|by left|apply popped_scratch|apply popped_changes| |done].
      intros b Hb. split; [apply Hl; set_solver|by intros ->].
    + intros b. unfold fupd. case_decide as E; [by subst|]. rewrite <- Hl. set_solver.
  - apply (wf_mask _ _ _ Hwf).
  - intros r va Hr Hva. apply Hroot in Hr. unfold swap_entry_ok. rewrite popped_pte by done.
    apply (wf_swap _ _ _ Hwf r va Hr Hva).
  - apply (wf_frames _ _ _ Hwf).
  - intros j Hj p Hu Hp. change (frame_at (popped k) j) with (frame_at k j) in *.
    destruct (wf_frame _ _ _ Hwf j Hj p Hu Hp) as (Hr & Hva & Hal & HV & Hpa & Hd).
    cbv zeta. change (k_procs (popped k)) with (k_procs k). rewrite popped_pte by done.
    rewrite popped_use by (by rewrite Hd). by rewrite Hroot.
Qed.
End Popped.

(** ** [kalloc] *)

(** The running process, the locks held and the address spaces stay. *)
Record calm (k k' : kernel) : Prop := {
  cm_cur : k_cur k' = k_cur k;
  cm_held : k_held k' = k_held k;
  cm_table p : p_pagetable (k_procs k' !!! p) = p_pagetable (k_procs k !!! p);
  cm_sz p : p_sz (k_procs k' !!! p) = p_sz (k_procs k !!! p);
  cm_state p : p_state (k_procs k' !!! p) = p_state (k_procs k !!! p);
  cm_nprocs : length (k_procs k') = length (k_procs k)
}.

Lemma calm_trans k1 k2 k3 : calm k1 k2 -> calm k2 k3 -> calm k1 k3.
Proof.
  intros H1 H2. split; intros; [rewrite (cm_cur _ _ H2)|rewrite (cm_held _ _ H2)|rewrite (cm_table _ _ H2)
    |rewrite (cm_sz _ _ H2)|rewrite (cm_state _ _ H2)|rewrite (cm_nprocs _ _ H2)]; apply H1.
Qed.

(** What a routine that allocates leaves alone: the rest of the invariant's
    state, entries that are not valid, and the processes but for their
    eviction counters. *)
Record quiet (use : Z -> usage) (k k' : kernel) : Prop := {
  q_views : same_views use (k_mem k) (k_mem k');
  q_addr r va : is_root use r -> 0 <= va < MAXVA -> pte_addr (k_mem k') r va = pte_addr (k_mem k) r va;
  q_pte r va : is_root use r -> 0 <= va < MAXVA -> has (pte_of (k_mem k) r va) PTE_V = false ->
    pte_of (k_mem k') r va = pte_of (k_mem k) r va;
  q_calm : calm k k'
}.

(** A page can be had: one is free, or one can be moved to a free slot. *)
Definition can_swap (k : kernel) : Prop :=
  (exists j, 0 <= j < NFRAMES /\ evictable k (frame_at k j) = true) /\
  (exists i, 0 <= i < MAX_SP /\ slot_free k i).
Definition can_alloc (k : kernel) : Prop := k_freelist k <> 0 \/ can_swap k.

(** The page can be one of process [p]: this does not depend on which other
    processes run. *)
Definition own_swap (p : nat) (k : kernel) : Prop :=
  (exists j, 0 <= j < NFRAMES /\ f_p (frame_at k j) = Some p /\ f_used (frame_at k j) <> 0) /\
  (exists i, 0 <= i < MAX_SP /\ slot_free k i).

Lemma own_can_swap p k : k_cur k = Some p -> own_swap p k -> can_swap k.
Proof.
  intros Hc [(j & Hj & Hp & Hu) Hs]. split; [|done]. exists j. split; [done|]. unfold evictable.
  rewrite Hp, Hc, (proj2 (Z.eqb_neq _ 0) Hu), (bool_decide_eq_true_2 (Some p = Some p)) by done. by rewrite andb_false_r.
Qed.

Definition vm_unlocked (k : kernel) : Prop :=
  (L_kmem ∉ k_held k) /\ (L_frametable ∉ k_held k) /\ (L_swap ∉ k_held k).

Lemma victim_live use slot k te : vm_wf use slot k -> victim k te -> frame_live k te.
Proof.
  intros Hwf Hv. destruct (victim_frame Hwf Hv) as (Hr & Hva & _ & HV & _).
  pose proof (pte_of_present _ _ _ 0 ltac:(lia) HV) as [Ha He].
  destruct (pte_in_table _ _ _ _ (wf_pt _ _ _ Hwf) Hr Hva Ha) as (_ & ? & ?).
  unfold frame_live. change (owner_pte k te) with
    (pte_addr (k_mem k) (p_pagetable (k_procs k !!! default 0%nat (f_p (frame_at k te)))) (f_va (frame_at k te))).
  rewrite <- He. split_and!; [lia|addr|addr|done].
Qed.

Lemma kalloc_wp use slot k :
  vm_wf use slot k -> vm_unlocked k -> can_alloc k ->
  wp kalloc (fun pa k' =>
    page_ok pa /\ (use pa = Free \/ exists r vpn, use pa = Data r vpn) /\
    (exists slot', vm_wf (fupd pa Owned use) slot' k') /\ quiet use k k') k.
Proof.
  intros Hwf (Hlk & Hlf & Hls) Hcan. destruct (Z.eq_dec (k_freelist k) 0) as [Hz|Hnz].
  - destruct Hcan as [?|[Hex Hsl]]; [done|].
    eapply wp_ext; [by apply kalloc_evict|].
    apply wp_bind. eapply wp_mono.
    { apply evict_page_wp; try done; [apply (wf_frames _ _ _ Hwf)|apply (wf_mask _ _ _ Hwf)|apply (wf_mem _ _ _ Hwf)|].
      intros te. by eapply victim_live. }
    intros pa k' (te & i & Hv & Hs & He).
    pose proof (use_pa Hwf Hv He) as Hu.
    pose proof (pt_page _ _ (wf_pt _ _ _ Hwf) pa ltac:(by rewrite Hu)) as Hp. pose proof (page_ok_pos _ Hp).
    rewrite (proj2 (Z.eqb_neq pa 0)) by addr. apply wp_ret. split; [done|]. split; [right; eauto|].
    split; [eexists; by apply (evicted_wf Hwf Hv Hs He)|].
    pose proof He as (_ & Hk' & _). destruct (victim_frame Hwf Hv) as (Hr & Hva & _ & HV & _).
    destruct (evicted_addr Hwf Hv He) as (Ha & _). pose proof (evicted_tables Hwf Hv Hs He) as Ht.
    split; [by apply (evicted_view Hwf Hv Hs He)| | |].
    + intros. by apply (pte_addr_upd (wf_pt _ _ _ Hwf) Hr Hva Ha Ht).
    + intros r va Hr' Hva' HV'. rewrite (evicted_pte Hwf Hv Hs He) by done. case_decide as E; [|done].
      destruct E as [-> E]. exfalso. revert HV'. unfold pte_of. rewrite (pte_addr_vpn _ _ va _ E).
      unfold pte_of in HV. congruence.
    + rewrite Hk'. split; [done|done|intros p; cbn; by apply (proj_alter p_pagetable)
        |intros p; cbn; by apply (proj_alter p_sz)|intros p; cbn; by apply (proj_alter p_state)
        |cbn; apply length_alter].
  - eapply wp_Ret; [by apply kalloc_pop|]. pose proof (popped_head Hwf Hnz) as Hu.
    split; [apply (pt_page _ _ (wf_pt _ _ _ Hwf)); by rewrite Hu|]. split; [by left|].
    split; [exists slot; by apply popped_wf|].
    split; [by apply (popped_view Hwf Hnz)| | |done].
    + intros. by apply (popped_addr Hwf Hnz).
    + intros. by apply (popped_pte Hwf Hnz).
Qed.
End VmEvict.

(** ** Page faults: swapping in, allocating lazily

    Mapping an owned page at an address keeps the invariant of physical
    memory and changes no other page of any process; [vmfault] brings a
    swapped page back with the contents and the flags it had. *)

Section VmFault.
Context {L : Layout} {LO : LayoutOk L}.

(** ** Mapping one page *)

(** The swap slots once the entry [e] is replaced. *)
Definition mask_after (e : Z) (mask : list Z) : list Z :=
  if has e PTE_S then aset (Z.shiftr e 10) 0 mask else mask.

(** [k'] is [k] with the owned page [mem] mapped at [va] of [r] by the
    entry [v], and registered as [p]'s. *)
Record mapped (k : kernel) (r va mem v : Z) (p : nat) (k' : kernel) : Prop := {
  mp_changes : changes (k_mem k) (k_mem k') (pte_addr (k_mem k) r va) mem;
  mp_entry : ld64 (k_mem k') (pte_addr (k_mem k) r va) = v;
  mp_memok : mem_ok (k_mem k');
  mp_freelist : k_freelist k' = k_freelist k;
  mp_mask : k_swap_mask k' = mask_after (pte_of (k_mem k) r va) (k_swap_mask k);
  mp_frames : k_frames k' = aset (frame_index mem) (mkframe 1 (Some p) va 1) (k_frames k);
  mp_clock : k_clock_p k' = k_clock_p k;
  mp_table q : p_pagetable (k_procs k' !!! q) = p_pagetable (k_procs k !!! q)
}.

Section Mapped.
Context {use : Z -> usage} {slot : Z -> option (Z * Z)} {k k' : kernel} {r va mem v : Z} {p : nat}
  (Hwf : vm_wf use slot k) (Hr : is_root use r) (Hva : 0 <= va < MAXVA) (Hal : va mod PGSIZE = 0)
  (Hp : p_pagetable (k_procs k !!! p) = r)
  (Hown : use mem = Owned) (Hne : pte_addr (k_mem k) r va <> 0)
  (HnV : has (pte_of (k_mem k) r va) PTE_V = false)
  (HvV : has v PTE_V = true) (HvS : has v PTE_S = false) (Hvpa : PTE2PA v = mem)
  (Hm : mapped k r va mem v p k').
Local Abbreviation m := (k_mem k).
Local Abbreviation e := (pte_of m r va).
Local Abbreviation use' := (fupd mem (Data r (va / PGSIZE)) use).

Lemma mapped_page : page_ok mem.
Proof. apply (pt_page _ _ (wf_pt _ _ _ Hwf)). by rewrite Hown. Qed.

Lemma mapped_scratch : scratch use (k_swap_mask k) mem.
Proof. split; [apply mapped_page|]. left. by left. Qed.

Lemma mapped_in : in_table use (pte_addr m r va).
Proof. by apply pte_in_table; [apply (wf_pt _ _ _ Hwf)|..]. Qed.

Lemma mapped_tables : @tables_upd use m (k_mem k') (pte_addr m r va) v.
Proof.
  rewrite <- (mp_entry _ _ _ _ _ _ _ Hm).
  eapply tables_change; [done|right; apply mapped_in|apply mapped_scratch|apply Hm].
Qed.

Lemma mapped_pte r' va' : is_root use r' -> 0 <= va' < MAXVA ->
  pte_of (k_mem k') r' va' = if decide (r' = r /\ va' / PGSIZE = va / PGSIZE) then v else pte_of m r' va'.
Proof. intros. by apply (pte_of_upd (wf_pt _ _ _ Hwf) Hr Hva Hne mapped_tables). Qed.

Lemma mapped_addr r' va' : is_root use r' -> 0 <= va' < MAXVA ->
  pte_addr (k_mem k') r' va' = pte_addr m r' va'.
Proof. intros. by apply (pte_addr_upd (wf_pt _ _ _ Hwf) Hr Hva Hne mapped_tables). Qed.

Lemma mapped_ptab x r' l pre : use' x = PTab r' l pre <-> use x = PTab r' l pre.
Proof. unfold fupd. case_decide as E; [by rewrite E, Hown|done]. Qed.

Lemma mapped_use x : use x <> Owned -> use' x = use x.
Proof. intros H. apply fupd_ne. by intros ->. Qed.

(** The view of every other page is as it was. *)
Lemma mapped_view_other r' va' :
  is_root use r' -> 0 <= va' < MAXVA -> ~ (r' = r /\ va' / PGSIZE = va / PGSIZE) ->
  view (k_mem k') r' va' = view m r' va'.
Proof.
  intros Hr' Hva' Hn. eapply view_other;
    [done|right; apply mapped_in|apply mapped_scratch|apply Hm|done|done| | |].
  - by rewrite mapped_pte, decide_False.
  - by rewrite Hown.
  - left. by rewrite Hown.
Qed.

(** The page itself shows the bytes of [mem]. *)
Lemma mapped_view va' : 0 <= va' < MAXVA -> va' / PGSIZE = va / PGSIZE ->
  view (k_mem k') r va' = Some (PTE_FLAGS v, k_mem k' (mem + va' mod PGSIZE)).
Proof. intros Hva' Hn. unfold view. by rewrite mapped_pte, decide_True, HvV, Hvpa. Qed.

Lemma mapped_swap r' va' : is_root use r' -> 0 <= va' < MAXVA -> swap_entry_ok slot k' r' va'.
Proof.
  intros Hr' Hva'. unfold swap_entry_ok. rewrite mapped_pte, (mp_mask _ _ _ _ _ _ _ Hm) by done.
  case_decide as E; [by rewrite HvV|]. intros HV HS.
  destruct (wf_swap _ _ _ Hwf r' va' Hr' Hva' HV HS) as (Hs & Hmask & Ho). split; [done|]. split; [|done].
  unfold mask_after. destruct (has e PTE_S) eqn:HeS; [|done].
  destruct (wf_swap _ _ _ Hwf r va Hr Hva HnV HeS) as (Hs' & _ & Ho').
  pose proof (wf_mask _ _ _ Hwf) as Hlen. unfold swap_wf in Hlen.
  rewrite aget_aset, decide_False by (lia || (intros E'; rewrite E' in Ho'; naive_solver)). done.
Qed.

Lemma mapped_frame j : 0 <= j < NFRAMES -> frame_ok use' k' j.
Proof.
  intros Hj. destruct (frame_index_ok mem mapped_page) as [Hi Hir].
  destruct (wf_frames _ _ _ Hwf) as [Hlen _]. unfold frame_ok, frame_at.
  rewrite (mp_frames _ _ _ _ _ _ _ Hm), aget_aset by lia. case_decide as E.
  - intros q _ [= <-]. cbn [f_va]. rewrite (mp_table _ _ _ _ _ _ _ Hm), Hp.
    rewrite mapped_pte, decide_True by done. rewrite Hvpa. split; [by apply mapped_ptab|].
    split; [done|]. split; [done|]. split; [done|]. rewrite fupd_eq. split; [|done].
    destruct mapped_page as (Hpl & Hlo & _). pose proof (page_ok_pos _ mapped_page). subst j. rewrite Hi. daddr.
  - intros q Hu Hq. rewrite (mp_table _ _ _ _ _ _ _ Hm).
    destruct (wf_frame _ _ _ Hwf j Hj q Hu Hq) as (Hr' & Hva' & Hal' & HV' & Hpa' & Hd').
    fold (frame_at k j). rewrite mapped_pte by done. case_decide as E'.
    { exfalso. destruct E' as [E1 E2]. revert HV'. unfold pte_of. rewrite E1, (pte_addr_vpn _ _ _ _ E2).
      fold e. congruence. }
    split; [by apply mapped_ptab|]. split; [done|]. split; [done|]. split; [done|]. split; [done|].
    by rewrite mapped_use by (by rewrite Hd').
Qed.

(** The slot the page came from is free again, and the frame is [p]'s. *)
Lemma mapped_slot : has e PTE_S = true -> slot_free k' (Z.shiftr e 10).
Proof.
  intros HS. unfold slot_free. rewrite (mp_mask _ _ _ _ _ _ _ Hm). unfold mask_after. rewrite HS.
  destruct (wf_swap _ _ _ Hwf r va Hr Hva HnV HS) as (Hs & _).
  pose proof (wf_mask _ _ _ Hwf) as Hlen. unfold swap_wf in Hlen.
  by rewrite aget_aset, decide_True by lia.
Qed.

Lemma mapped_registered : frame_at k' (frame_index mem) = mkframe 1 (Some p) va 1.
Proof.
  destruct (frame_index_ok mem mapped_page) as [_ Hir]. destruct (wf_frames _ _ _ Hwf) as [Hlen _].
  unfold frame_at. by rewrite (mp_frames _ _ _ _ _ _ _ Hm), aget_aset, decide_True by lia.
Qed.

Lemma mapped_wf : vm_wf use' slot k'.
Proof.
  assert (Hroot : forall r', is_root use' r' <-> is_root use r') by (intros; apply mapped_ptab).
  split.
  - apply Hm.
  - eapply pt_ok_keep; [apply (wf_pt _ _ _ Hwf)|apply mapped_tables| |apply mapped_ptab|].
    + intros. by eapply (dir_entry_ne (wf_pt _ _ _ Hwf)).
    + intros x. unfold fupd. case_decide as E; [intros _; rewrite E; apply mapped_page|apply (pt_page _ _ (wf_pt _ _ _ Hwf))].
  - intros r' va' Hr' Hva'. apply Hroot in Hr'. unfold leaf_ok. rewrite mapped_pte by done. case_decide as E.
    + intros _. rewrite Hvpa, fupd_eq. destruct E as [-> ->]. by left.
    + intros HV. destruct (wf_leaf _ _ _ Hwf r' va' Hr' Hva' HV) as [[Hd HS]|[Hd ?]]; [left|right];
        by rewrite mapped_use by (by rewrite Hd).
  - destruct (wf_free _ _ _ Hwf) as (l & Hrep & Hnd & Hl). exists l. rewrite (mp_freelist _ _ _ _ _ _ _ Hm).
    split; [|split; [done|]].
    + eapply freelist_change; [done|right; apply mapped_in|apply mapped_scratch|apply Hm| |done].
      intros b Hb. apply Hl in Hb. split; [done|]. intros ->. congruence.
    + intros b. rewrite Hl. unfold fupd. case_decide as E; [by rewrite E, Hown|done].
  - unfold swap_wf. rewrite (mp_mask _ _ _ _ _ _ _ Hm). unfold mask_after.
    destruct (has e PTE_S); rewrite ?length_aset; apply (wf_mask _ _ _ Hwf).
  - intros r' va' Hr'. apply Hroot in Hr'. by apply mapped_swap.
  - destruct (wf_frames _ _ _ Hwf) as [Hlen Hc]. split.
    + by rewrite (mp_frames _ _ _ _ _ _ _ Hm), length_aset.
    + by rewrite (mp_clock _ _ _ _ _ _ _ Hm).
  - apply mapped_frame.
Qed.
End Mapped.

(** ** Entries *)

Lemma entry_build mem fl : page_ok mem -> 0 <= fl < 1024 ->
  let v := Z.lor (PA2PTE mem) fl in
  PTE2PA v = mem /\ PTE_FLAGS v = fl /\ u64 v = v /\ v <> 0.
Proof.
  intros Hp Hf. pose proof (page_ok_pos _ Hp). destruct Hp as (Hal & _ & Hhi). cbv zeta.
  rewrite PTE2PA_build, PTE_FLAGS_build by daddr. rewrite PTE_build by done.
  rewrite u64_id by daddr. split; [done|]. split; [done|]. split; [done|]. daddr.
Qed.

(** The flags a swap entry's page gets back. *)
Definition restored (e : Z) : Z := Z.lor (Z.land (PTE_FLAGS e) (Z.lnot PTE_S)) PTE_V.

Lemma restored_spec e :
  0 <= restored e < 1024 /\ has (restored e) PTE_V = true /\ has (restored e) PTE_S = false.
Proof.
  pose proof (PTE_FLAGS_range e). pose proof (land_le_r (PTE_FLAGS e) PTE_S ltac:(lia)).
  split; [apply (lor_below _ _ 10); [lia|lia|done]|].
  unfold restored, PTE_V, PTE_S. rewrite !has_bit by lia.
  rewrite !Z.lor_spec, !Z.land_spec, !Z.lnot_spec by lia. rewrite !Z.shiftl_1_l, !Z.pow2_bits_eqb by lia.
  cbn. by rewrite orb_true_r, !andb_false_r.
Qed.

(** ** Steps shared by the fault paths *)

Lemma kalloc_or_evict_wp use slot k :
  vm_wf use slot k -> vm_unlocked k -> can_alloc k ->
  wp kalloc_or_evict (fun pa k' =>
    page_ok pa /\ (use pa = Free \/ exists r vpn, use pa = Data r vpn) /\
    (exists slot', vm_wf (fupd pa Owned use) slot' k') /\ quiet use k k') k.
Proof.
  intros Hwf Hl Hc. unfold kalloc_or_evict. wp_steps. eapply wp_mono; [by eapply kalloc_wp|].
  intros pa k' H. pose proof (page_ok_pos _ (proj1 H)).
  rewrite (proj2 (Z.eqb_neq pa 0)) by addr. by apply wp_ret.
Qed.

Lemma register_frame_wp mem p va Q k :
  L_frametable ∉ k_held k ->
  Q tt (k <| k_frames ::= aset (frame_index mem) (mkframe 1 p va 1) |>) ->
  wp (register_frame mem p va) Q k.
Proof.
  intros Hl HQ. unfold register_frame. wp_run.
  match goal with |- Q tt ?x => replace x with (k <| k_frames ::= aset (frame_index mem) (mkframe 1 p va 1) |>); [done|] end.
  kext. cbn. by rewrite unlocked_top.
Qed.

Lemma owned_mono (use : Z -> usage) pa : (use pa = Free \/ exists r vpn, use pa = Data r vpn) ->
  forall x r l pre, fupd pa Owned use x = PTab r l pre <-> use x = PTab r l pre.
Proof.
  intros Hu x r l pre. unfold fupd. case_decide as E; [|done]. subst. destruct Hu as [->|(r' & n & ->)]; done.
Qed.

(** The page [mem] is now at [va] of [r] with flags [fl]; no other page changed. *)
Record faulted (use : Z -> usage) (k : kernel) (r va mem fl : Z) (k' : kernel) : Prop := {
  ft_page : page_ok mem;
  ft_wf : exists use' slot', vm_wf use' slot' k' /\
    forall x r l pre, use' x = PTab r l pre <-> use x = PTab r l pre;
  ft_pte : pte_of (k_mem k') r va = Z.lor (PA2PTE mem) fl;
  ft_addr r' va' : is_root use r' -> 0 <= va' < MAXVA -> pte_addr (k_mem k') r' va' = pte_addr (k_mem k) r' va';
  ft_other r' va' : is_root use r' -> 0 <= va' < MAXVA -> ~ (r' = r /\ va' / PGSIZE = va / PGSIZE) ->
    view (k_mem k') r' va' = view (k_mem k) r' va';
  ft_calm : calm k k'
}.

(** A step that only changes counters of processes. *)
Lemma vm_wf_procs use slot k f :
  (forall p, p_pagetable (f (k_procs k) !!! p) = p_pagetable (k_procs k !!! p)) ->
  vm_wf use slot k -> vm_wf use slot (k <| k_procs ::= f |>).
Proof.
  intros Hf Hwf. split; try apply Hwf.
  intros j Hj p Hu Hp. cbv zeta. cbn [k_procs]. change (k_procs (k <| k_procs ::= f |>)) with (f (k_procs k)).
  rewrite Hf. by apply (wf_frame _ _ _ Hwf j Hj p).
Qed.

(** An owned page is apart from the page tables. *)
Lemma owned_disjoint use slot k mem a :
  vm_wf use slot k -> use mem = Owned -> in_table use a -> mem + PGSIZE <= a \/ a + 8 <= mem.
Proof.
  intros Hwf Ho (b & r & l & pre & i & Hb & Hi & ->).
  pose proof (pt_page _ _ (wf_pt _ _ _ Hwf) mem ltac:(by rewrite Ho)) as (Hal & _).
  eapply data_not_table; [apply (wf_pt _ _ _ Hwf)|done|by rewrite Ho|done|lia|addr].
Qed.

Lemma build_has mem fl : page_ok mem -> 0 <= fl < 1024 -> has fl PTE_V = true -> has fl PTE_S = false ->
  has (Z.lor (PA2PTE mem) fl) PTE_V = true /\ has (Z.lor (PA2PTE mem) fl) PTE_S = false.
Proof.
  intros _ Hf HV HS. unfold PTE_V, PTE_S in *. by rewrite !has_build by lia.
Qed.

(** Allocating a page and mapping it is a completed fault. *)
Lemma mapped_faulted use slot slot2 k k2 r va mem fl p k' :
  vm_wf use slot k -> quiet use k k2 -> (use mem = Free \/ exists r vpn, use mem = Data r vpn) ->
  vm_wf (fupd mem Owned use) slot2 k2 -> page_ok mem ->
  is_root use r -> 0 <= va < MAXVA -> va mod PGSIZE = 0 -> p_pagetable (k_procs k !!! p) = r ->
  pte_addr (k_mem k) r va <> 0 -> has (pte_of (k_mem k) r va) PTE_V = false ->
  0 <= fl < 1024 -> has fl PTE_V = true -> has fl PTE_S = false ->
  mapped k2 r va mem (Z.lor (PA2PTE mem) fl) p k' -> calm k k' ->
  faulted use k r va mem fl k'.
Proof.
  intros Hwf Hq Hu Hwf2 Hpg Hr Hva Hal Hp Hne HnV Hfl HV HS Hm Hcalm.
  destruct (entry_build mem fl Hpg Hfl) as (Epa & Efl & _).
  destruct (build_has mem fl Hpg Hfl HV HS) as [HvV HvS].
  pose proof (owned_mono use mem Hu) as Htab.
  assert (Hroot : forall r, is_root (fupd mem Owned use) r <-> is_root use r) by (intros; apply Htab).
  assert (Ho : fupd mem Owned use mem = Owned) by apply fupd_eq.
  pose proof (proj2 (Hroot r) Hr) as Hr2.
  assert (Hp2 : p_pagetable (k_procs k2 !!! p) = r) by (by rewrite (cm_table _ _ (q_calm _ _ _ Hq))).
  assert (Hne2 : pte_addr (k_mem k2) r va <> 0) by (by rewrite (q_addr _ _ _ Hq)).
  assert (HnV2 : has (pte_of (k_mem k2) r va) PTE_V = false) by (by rewrite (q_pte _ _ _ Hq)).
  split; [done| | | | |done].
  - eexists _, slot2. split; [by eapply (mapped_wf Hwf2 Hr2 Hva Hal Hp2 Ho Hne2 HnV2 HvV HvS Epa Hm)|].
    intros x r' l pre. rewrite (mapped_ptab Ho). apply Htab.
  - by rewrite (mapped_pte Hwf2 Hr2 Hva Ho Hne2 Hm), decide_True.
  - intros r' va' Hr' Hva'. rewrite (mapped_addr Hwf2 Hr2 Hva Ho Hne2 Hm) by (by apply Hroot || done).
    by apply (q_addr _ _ _ Hq).
  - intros r' va' Hr' Hva' Hn. rewrite (mapped_view_other Hwf2 Hr2 Hva Ho Hne2 Hm) by (by apply Hroot || done).
    by apply (q_views _ _ _ Hq).
Qed.

Section SwapIn.
Context {use : Z -> usage} {slot : Z -> option (Z * Z)} {k : kernel} {r va : Z} {p : nat}
  (Hwf : vm_wf use slot k) (Hul : vm_unlocked k) (Hcan : can_alloc k)
  (Hr : is_root use r) (Hva : 0 <= va < MAXVA) (Hal : va mod PGSIZE = 0)
  (Hp : p_pagetable (k_procs k !!! p) = r)
  (HnV : has (pte_of (k_mem k) r va) PTE_V = false) (HS : has (pte_of (k_mem k) r va) PTE_S = true).
Local Abbreviation m := (k_mem k).
Local Abbreviation e := (pte_of m r va).

Lemma vmfault_swapin_wp :
  wp (vmfault_swapin p (pte_addr m r va) va)
    (fun mem k' => faulted use k r va mem (restored e) k' /\ same_views use m (k_mem k') /\
       slot_free k' (Z.shiftr e 10) /\ frame_at k' (frame_index mem) = mkframe 1 (Some p) va 1) k.
Proof.
  pose proof (pte_of_present m r va 8 ltac:(lia) HS) as [Hne He].
  destruct (wf_swap _ _ _ Hwf r va Hr Hva HnV HS) as (Hs & _).
  destruct (restored_spec e) as (Hrng & HrV & HrS).
  unfold vmfault_swapin. wp_steps. rewrite <- He. rewrite i32_id by (unfold MAX_SP in *; lia).
  eapply wp_mono; [by eapply kalloc_or_evict_wp|].
  intros mem k2 (Hpg & Hu & (slot2 & Hwf2) & Hq). pose proof (page_ok_pos _ Hpg).
  destruct (entry_build mem (restored e) Hpg Hrng) as (Epa & Efl & Eu & Enz).
  wp_steps. rewrite (proj2 (Z.eqb_neq mem 0)) by addr.
  pose proof (cm_held _ _ (q_calm _ _ _ Hq)) as Hheld. destruct Hul as (_ & Hlf & Hls).
  wp_steps. eapply wp_Ret; [apply free_swap_index_eq; cbn; by rewrite Hheld|]. wp_steps.
  set (use2 := fupd mem Owned use) in *.
  assert (Ho : use2 mem = Owned) by apply fupd_eq.
  assert (Htab : forall x r l pre, use2 x = PTab r l pre <-> use x = PTab r l pre) by (by apply owned_mono).
  assert (Hr2 : is_root use2 r) by (by apply Htab).
  assert (Ea : pte_addr (k_mem k2) r va = pte_addr m r va) by (by apply (q_addr _ _ _ Hq)).
  assert (Ee : pte_of (k_mem k2) r va = e) by (by apply (q_pte _ _ _ Hq)).
  assert (Hin : in_table use2 (pte_addr (k_mem k2) r va))
    by (apply pte_in_table; [apply (wf_pt _ _ _ Hwf2)|done|done|by rewrite Ea]).
  pose proof (owned_disjoint _ _ _ _ _ Hwf2 Ho Hin) as Hdis. rewrite Ea in Hdis.
  pose proof (wf_mem _ _ _ Hwf2) as Hmok.
  assert (Hld : ld64 (memmove (k_mem k2) mem (get_swap_addr (Z.shiftr e 10)) PGSIZE) (pte_addr m r va) = e).
  { rewrite <- Ee. unfold pte_of. rewrite Ea, (proj2 (Z.eqb_neq _ _)) by done.
    apply ld64_ext. intros o Ho'. apply memmove_out; [done|done|lia]. }
  kproj. rewrite Hld. rewrite <- Z.lor_assoc. fold (restored e). rewrite ld64_st64, Eu.
  rewrite (proj2 (Z.eqb_neq _ _)) by done. unfold sfence_vma. wp_steps.
  apply register_frame_wp; [cbn; by rewrite Hheld|]. wp_steps.
  match goal with |- faulted _ _ _ _ _ _ ?x /\ _ => set (k' := x) end.
  assert (Hmap : mapped k2 r va mem (Z.lor (PA2PTE mem) (restored e)) p k').
  { split; try done; subst k'; kproj.
    - intros x Hx1 Hx2. rewrite Ea in Hx1. rewrite st64_out by lia. apply memmove_out; [done|done|lia].
    - by rewrite Ea, ld64_st64.
    - by apply st64_ok, memmove_ok.
    - rewrite Ee. unfold mask_after. by rewrite HS.
    - intros q. rewrite (proj_alter p_pagetable), (proj_alter p_pagetable); done. }
  assert (Hcalm : calm k k').
  { eapply calm_trans; [apply (q_calm _ _ _ Hq)|].
    split; try done; subst k'; kproj; [intros q|intros q|intros q|].
    - by rewrite (proj_alter p_pagetable), (proj_alter p_pagetable).
    - by rewrite (proj_alter p_sz), (proj_alter p_sz).
    - by rewrite (proj_alter p_state), (proj_alter p_state).
    - by rewrite !length_alter. }
  pose proof (mapped_faulted _ _ _ _ _ _ _ _ _ _ _ Hwf Hq Hu Hwf2 Hpg Hr Hva Hal Hp Hne HnV Hrng HrV HrS Hmap Hcalm)
    as Hft. split; [done|].
  assert (HnV2 : has (pte_of (k_mem k2) r va) PTE_V = false) by (by rewrite Ee).
  split; [|split; [|by apply (mapped_registered Hwf2 Ho Hmap)]].
  2: { rewrite <- Ee. apply (mapped_slot Hwf2 Hr2 Hva HnV2 Hmap). by rewrite Ee. }
  intros r' va' Hr' Hva'. destruct (decide (r' = r /\ va' / PGSIZE = va / PGSIZE)) as [[-> Hv]|Hn];
    [|by apply (ft_other _ _ _ _ _ _ _ Hft)].
  destruct (build_has mem _ Hpg Hrng HrV HrS) as [HvV _].
  rewrite (mapped_view Hwf2 Hr2 Hva Ho ltac:(by rewrite Ea) HvV Epa Hmap) by done. rewrite Efl.
  pose proof (q_views _ _ _ Hq r va' Hr Hva') as Hv2. revert Hv2. unfold view.
  assert (forall m, pte_of m r va' = pte_of m r va) as Hvp by (intros; unfold pte_of; by rewrite (pte_addr_vpn _ _ _ _ Hv)).
  rewrite !Hvp, Ee, HnV, HS, i32_id by (unfold MAX_SP in *; lia). intros [= <-]. f_equal. f_equal.
  subst k'. kproj. pose proof (Z.mod_pos_bound va' PGSIZE ltac:(done)).
  rewrite st64_out by lia. rewrite memmove_in by (done || lia). f_equal. lia.
Qed.
End SwapIn.
End VmFault.
