(* ===== verification/VmFaultSpec.v ===== *)
(** * [vmfault]: what a page fault does to a process

    First [walk] with allocation, which adds directories to a page table and
    keeps every mapping; then the specification of [vmfault]. *)

From Stdlib Require Import ZArith Lia.
From stdpp Require Import base list strings sets.
From S2P Require Import Prelude Params Mem State Evict Kalloc Vm VmInv VmFault.

Section VmWalk.
Context {L : Layout} {LO : LayoutOk L}.

(** ** Adding one directory *)
Section Dir.
Context {use : Z -> usage} {slot : Z -> option (Z * Z)} {k : kernel} {a i mem r pre : Z} {l : nat}
  (Hwf : vm_wf use slot k) (Ha : use a = PTab r (S l) pre) (Hi : 0 <= i < 512)
  (HnV : has (ld64 (k_mem k) (a + 8 * i)) PTE_V = false) (Hown : use mem = Owned).
Local Abbreviation m := (k_mem k).
Local Abbreviation v := (Z.lor (PA2PTE mem) PTE_V).

Definition dir_added : kernel :=
  k <| k_mem ::= fun m => memset m mem 0 PGSIZE |> <| k_mem ::= fun m => st64 m (a + 8 * i) v |>.
Definition use_dir : Z -> usage := fupd mem (PTab r l (512 * pre + i)) use.
Local Abbreviation m' := (k_mem dir_added).

Lemma dir_page : page_ok mem.
Proof. apply (pt_page _ _ (wf_pt _ _ _ Hwf)). by rewrite Hown. Qed.

Lemma dir_in : in_table use (a + 8 * i).
Proof. by exists a, r, (S l), pre, i. Qed.

Lemma dir_scratch : scratch use (k_swap_mask k) mem.
Proof. split; [apply dir_page|]. left. by left. Qed.

Lemma dir_changes : changes m m' (a + 8 * i) mem.
Proof. intros x H1 H2. unfold dir_added. kproj. rewrite st64_out by lia. apply memset_out; [done|lia]. Qed.

Lemma dir_entry : ld64 m' (a + 8 * i) = v /\ PTE2PA v = mem /\ has v PTE_V = true.
Proof.
  destruct (entry_build mem PTE_V dir_page ltac:(done)) as (E1 & _ & E2 & _).
  unfold dir_added. kproj. rewrite ld64_st64, E2. split; [done|]. split; [done|].
  unfold PTE_V at 2. by rewrite has_build.
Qed.

Lemma dir_tables : @tables_upd use m m' (a + 8 * i) v.
Proof.
  rewrite <- (proj1 dir_entry).
  eapply tables_change; [done|right; apply dir_in|apply dir_scratch|apply dir_changes].
Qed.

(** The new directory is empty. *)
Lemma dir_empty j : 0 <= j < 512 -> ld64 m' (mem + 8 * j) = 0.
Proof.
  intros Hj. pose proof (owned_disjoint _ _ _ _ _ Hwf Hown dir_in).
  unfold dir_added. kproj. rewrite ld64_st64_out by addr.
  transitivity (ld64 (fun _ => 0) (mem + 8 * j)).
  - apply ld64_ext. intros o Ho. rewrite memset_in by addr. done.
  - done.
Qed.

Lemma use_dir_old x r' l' pre' : use x = PTab r' l' pre' -> use_dir x = PTab r' l' pre'.
Proof. intros H. unfold use_dir. rewrite fupd_ne; [done|]. intros ->. congruence. Qed.

Lemma use_dir_inv x r' l' pre' : use_dir x = PTab r' l' pre' ->
  use x = PTab r' l' pre' \/ (x = mem /\ r' = r /\ l' = l /\ pre' = 512 * pre + i).
Proof. unfold use_dir, fupd. case_decide as E; [|by left]. intros [= <- <- <-]. by right. Qed.

Lemma use_dir_root r' : is_root use_dir r' <-> is_root use r'.
Proof.
  split; [|apply use_dir_old]. intros [?|(_ & _ & E & _)]%use_dir_inv; [done|].
  destruct (pt_level _ _ (wf_pt _ _ _ Hwf) _ _ _ _ Ha) as [? _]. lia.
Qed.

Lemma dir_fresh b : use b <> PTab r l (512 * pre + i).
Proof.
  intros Hb. destruct (pt_level _ _ (wf_pt _ _ _ Hwf) _ _ _ _ Ha) as [Hl _].
  destruct (pt_link _ _ (wf_pt _ _ _ Hwf) b r l _ Hb ltac:(lia)) as (x & Hx & HV & _).
  replace ((512 * pre + i) / 512) with pre in Hx by dlia.
  replace ((512 * pre + i) mod 512) with i in HV by dlia.
  rewrite (pt_inj _ _ (wf_pt _ _ _ Hwf) x a r (S l) pre Hx Ha) in HV. congruence.
Qed.

Lemma dir_old_entry x r' l' pre' j : use x = PTab r' l' pre' -> 0 <= j < 512 ->
  has (ld64 m (x + 8 * j)) PTE_V = true -> ld64 m' (x + 8 * j) = ld64 m (x + 8 * j).
Proof.
  intros Hx Hj HV. rewrite (dir_tables _ _ _ _ _ Hx Hj), decide_False; [done|].
  intros E. rewrite E in HV. congruence.
Qed.

Context (Hlow : l = 1%nat -> 512 * pre + i < 256).

Lemma dir_pt_ok : pt_ok use_dir m'.
Proof.
  pose proof (wf_pt _ _ _ Hwf) as Hpt. destruct dir_entry as (Ee & Epa & EV). split.
  - intros x. unfold use_dir, fupd. case_decide as E; [rewrite E; intros _; apply dir_page|apply (pt_page _ _ Hpt)].
  - intros x r' l' pre' [Hx|(_ & -> & _)]%use_dir_inv; apply use_dir_old; by eapply (pt_root _ _ Hpt).
  - intros x y r' l' pre' [Hx|(-> & -> & -> & ->)]%use_dir_inv [Hy|(-> & Er & El & Ep)]%use_dir_inv.
    + by eapply (pt_inj _ _ Hpt).
    + subst. by apply dir_fresh in Hx.
    + by apply dir_fresh in Hy.
    + done.
  - intros x r' l' pre' j [Hx|(-> & _)]%use_dir_inv Hj HV.
    + rewrite (dir_tables _ _ _ _ _ Hx Hj) in *. case_decide as E.
      * rewrite Epa. unfold use_dir. rewrite fupd_eq.
        assert (x = a) as ->.
        { destruct (ptab_page Hpt _ _ _ _ Hx) as (? & _), (ptab_page Hpt _ _ _ _ Ha) as (? & _). daddr. }
        rewrite Ha in Hx. injection Hx as -> -> ->. f_equal. lia.
      * apply use_dir_old. by apply (pt_node _ _ Hpt).
    + rewrite dir_empty in HV by done. done.
  - intros x r' l' pre' [Hx|(-> & -> & -> & ->)]%use_dir_inv; [by eapply (pt_level _ _ Hpt)|].
    destruct (pt_level _ _ Hpt _ _ _ _ Ha) as [Hl _]. split; [lia|]. intros ->. lia.
  - intros b r' l' pre' [Hb|(-> & -> & -> & ->)]%use_dir_inv Hl.
    + destruct (pt_link _ _ Hpt _ _ _ _ Hb Hl) as (x & Hx & HV & Hpa). exists x.
      pose proof (Z.mod_pos_bound pre' 512 ltac:(lia)).
      rewrite (dir_old_entry _ _ _ _ _ Hx) by done. split; [by apply use_dir_old|done].
    + exists a. replace ((512 * pre + i) / 512) with pre by dlia.
      replace ((512 * pre + i) mod 512) with i by dlia. rewrite Ee. split; [by apply use_dir_old|done].
  - intros x r' l' pre' j [Hx|(-> & _)]%use_dir_inv Hj HV; [|by rewrite dir_empty in HV].
    rewrite (dir_tables _ _ _ _ _ Hx Hj) in *. case_decide; [by apply PTE_FLAGS_build|by apply (pt_plain _ _ Hpt _ _ _ _ _ Hx)].
  - intros x r' pre' [Hx|(_ & _ & E & ->)]%use_dir_inv; [by eapply (pt_low _ _ Hpt)|by apply Hlow].
Qed.

(** A walk goes where it went, or now reaches the empty directory. *)
Lemma dir_walk va n x r' :
  0 <= va -> use x = PTab r' n (va / 2 ^ (12 + 9 * (Z.of_nat n + 1))) ->
  pt_walk m' va n x = pt_walk m va n x \/
  (pt_walk m va n x = 0 /\ pt_walk m' va n x = mem + 8 * PX 0 va).
Proof.
  intros Hva. revert x. induction n as [|n IH]; intros x Hx; cbn [pt_walk]; [by left|].
  pose proof (PX_range (Z.of_nat (S n)) va ltac:(lia)) as HP.
  rewrite (dir_tables _ _ _ _ _ Hx HP). destruct dir_entry as (_ & Epa & EV). case_decide as E.
  - rewrite EV, Epa. rewrite E, HnV. destruct n as [|n]; cbn [pt_walk]; [by right|]. left.
    pose proof (PX_range (Z.of_nat (S n)) va ltac:(lia)). by rewrite dir_empty.
  - destruct (has (ld64 m (x + 8 * PX (Z.of_nat (S n)) va)) PTE_V) eqn:HV; [|by left]. apply IH.
    erewrite (pt_node _ _ (wf_pt _ _ _ Hwf)); [|done|done|done]. by rewrite prefix_step.
Qed.

Lemma dir_addr r' va : is_root use r' -> 0 <= va < MAXVA ->
  pte_addr m' r' va = pte_addr m r' va \/
  (pte_addr m r' va = 0 /\ pte_addr m' r' va = mem + 8 * PX 0 va).
Proof.
  intros Hr Hva. eapply dir_walk; [lia|]. rewrite Hr. f_equal.
  change (2 ^ (12 + 9 * (Z.of_nat 2 + 1))) with 549755813888. daddr.
Qed.

Lemma dir_pte r' va : is_root use r' -> 0 <= va < MAXVA -> pte_of m' r' va = pte_of m r' va.
Proof.
  intros Hr Hva. unfold pte_of. pose proof (PX_range 0 va ltac:(lia)). destruct (dir_addr r' va Hr Hva) as [E|[E0 E]].
  - rewrite E. destruct (Z.eqb_spec (pte_addr m r' va) 0) as [|Hn]; [done|].
    destruct (pte_addr_leaf (wf_pt _ _ _ Hwf) r' va Hr Hva) as [?|(b & Eb & Hb)]; [done|]. rewrite Eb.
    rewrite (dir_tables _ _ _ _ _ Hb), decide_False; [done| |done].
    rewrite <- Eb. intros E'. symmetry in E'. revert E'. by eapply (dir_entry_ne (wf_pt _ _ _ Hwf)).
  - rewrite E0, E, dir_empty by done. by destruct (mem + 8 * PX 0 va =? 0).
Qed.

Lemma dir_view : same_views use m m'.
Proof.
  intros r' va Hr Hva.
  eapply view_other; [done|right; apply dir_in|apply dir_scratch|apply dir_changes|done|done| | |].
  - by apply dir_pte.
  - by rewrite Hown.
  - left. by rewrite Hown.
Qed.

Lemma dir_use x : use x <> Owned -> use_dir x = use x.
Proof. intros H. unfold use_dir. apply fupd_ne. by intros ->. Qed.

Lemma dir_wf : vm_wf use_dir slot dir_added.
Proof.
  split.
  - unfold dir_added. kproj. apply st64_ok, memset_ok; [done|apply (wf_mem _ _ _ Hwf)].
  - apply dir_pt_ok.
  - intros r' va Hr Hva. apply use_dir_root in Hr. unfold leaf_ok. rewrite dir_pte by done. intros HV.
    destruct (wf_leaf _ _ _ Hwf r' va Hr Hva HV) as [[Hd HS]|[Hd ?]]; [left|right];
      by rewrite dir_use by (by rewrite Hd).
  - destruct (wf_free _ _ _ Hwf) as (fl & Hrep & Hnd & Hl). exists fl. split; [|split; [done|]].
    + eapply freelist_change; [done|right; apply dir_in|apply dir_scratch|apply dir_changes| |done].
      intros b Hb. apply Hl in Hb. split; [done|]. intros ->. congruence.
    + intros b. rewrite Hl. unfold use_dir, fupd. case_decide as E; [by rewrite E, Hown|done].
  - apply (wf_mask _ _ _ Hwf).
  - intros r' va Hr Hva. apply use_dir_root in Hr. unfold swap_entry_ok. rewrite dir_pte by done.
    apply (wf_swap _ _ _ Hwf r' va Hr Hva).
  - apply (wf_frames _ _ _ Hwf).
  - intros j Hj p Hu Hp. change (frame_at dir_added j) with (frame_at k j) in *.
    destruct (wf_frame _ _ _ Hwf j Hj p Hu Hp) as (Hr & Hva & Hal & HV & Hpa & Hd).
    cbv zeta. change (k_procs dir_added) with (k_procs k). rewrite dir_pte by done.
    rewrite dir_use by (by rewrite Hd). by rewrite use_dir_root.
Qed.
End Dir.

(** ** The number of free pages *)
Definition free_pages (k : kernel) (n : nat) : Prop :=
  exists l, freelist_rep (k_mem k) (k_freelist k) l /\ (n <= length l)%nat.

Lemma freelist_rep_det m h l l' : freelist_rep m h l -> freelist_rep m h l' -> l = l'.
Proof.
  revert h l'. induction l as [|a l IH]; intros h [|b l']; cbn; try done.
  - intros -> (? & ? & _). congruence.
  - intros (? & ? & _) ->. congruence.
  - intros (-> & _ & H) (-> & _ & H'). f_equal. by eapply IH.
Qed.

(** With a free page, [kalloc] pops it. *)
Lemma kalloc_free use slot k n :
  vm_wf use slot k -> L_kmem ∉ k_held k -> free_pages k (S n) ->
  kalloc k = Ret (k_freelist k) (popped k) /\ use (k_freelist k) = Free /\
  vm_wf (fupd (k_freelist k) Owned use) slot (popped k) /\ quiet use k (popped k) /\
  free_pages (popped k) n.
Proof.
  intros Hwf Hlk (l & Hrep & Hn). destruct l as [|h l]; [cbn in Hn; lia|].
  pose proof Hrep as (Hh & Hnz & Hrest).
  assert (Hne : k_freelist k <> 0) by congruence.
  split; [by apply kalloc_pop|]. split; [by eapply popped_head|]. split; [by apply popped_wf|].
  split; [split; [by eapply popped_view|intros; by eapply popped_addr|intros; by eapply popped_pte|done]|].
  destruct (wf_free _ _ _ Hwf) as (l' & Hrep' & Hnd & Hl).
  pose proof (freelist_rep_det _ _ _ _ Hrep Hrep') as <-. apply NoDup_cons in Hnd as [Hni Hnd].
  exists l. split; [|cbn in Hn; lia].
  change (k_freelist (popped k)) with (ld64 (k_mem k) (k_freelist k)). rewrite <- Hh in Hrest.
  eapply (freelist_change use slot k _ 0 (k_freelist k));
    [done|by left|by apply (popped_scratch Hwf)|by apply popped_changes| |done].
  intros b Hb. split; [apply Hl; set_solver|]. rewrite Hh. by intros ->.
Qed.

(** ** [walk] *)

(** [pt_walk] from the root passes through the directories of the address. *)
Lemma walk_through use m r va l b :
  pt_ok use m -> 0 <= va -> use b = PTab r l (va / 2 ^ (12 + 9 * (Z.of_nat l + 1))) ->
  pte_addr m r va = pt_walk m va l b.
Proof.
  intros Hpt Hva Hb. destruct (pt_level _ _ Hpt _ _ _ _ Hb) as [Hl Hroot].
  remember (2 - l)%nat as d eqn:Hd. revert l b Hb Hl Hroot Hd. induction d as [|d IH]; intros l b Hb Hl Hroot Hd.
  - assert (l = 2%nat) as -> by lia. destruct Hroot as [-> _]; done.
  - destruct (pt_link _ _ Hpt _ _ _ _ Hb ltac:(lia)) as (a & Ha & HV & Hpa).
    rewrite <- prefix_step in Ha, HV, Hpa by done. pose proof (PX_range (Z.of_nat (S l)) va ltac:(lia)).
    set (q := va / 2 ^ (12 + 9 * (Z.of_nat (S l) + 1))) in *.
    replace ((512 * q + PX (Z.of_nat (S l)) va) / 512) with q in Ha by dlia.
    replace ((512 * q + PX (Z.of_nat (S l)) va) mod 512) with (PX (Z.of_nat (S l)) va) in HV, Hpa by dlia.
    rewrite (IH (S l) a Ha ltac:(lia) (proj2 (pt_level _ _ Hpt _ _ _ _ Ha)) ltac:(lia)). cbn [pt_walk].
    by rewrite HV, Hpa.
Qed.

(** A page that holds data of the kernel. *)
Definition solid (use : Z -> usage) (P : Z) : Prop :=
  (use P = Owned \/ use P = Other) /\ P mod PGSIZE = 0 /\ 0 < P /\ P + PGSIZE <= PHYSTOP.

Definition same_solid (use : Z -> usage) (m m' : memory) : Prop :=
  forall P x, solid use P -> P <= x < P + PGSIZE -> m' x = m x.

(** What [walk] with [alloc] set leaves alone. *)
Record grown (use : Z -> usage) (k : kernel) (use' : Z -> usage) (k' : kernel) : Prop := {
  gr_state : k' = k <| k_mem := k_mem k' |> <| k_freelist := k_freelist k' |>;
  gr_use x : use x <> Free -> use' x = use x;
  gr_root r : is_root use' r <-> is_root use r;
  gr_pte r va : is_root use r -> 0 <= va < MAXVA -> pte_of (k_mem k') r va = pte_of (k_mem k) r va;
  gr_views : same_views use (k_mem k) (k_mem k');
  gr_solid : same_solid use (k_mem k) (k_mem k')
}.

Lemma solid_mono use use' P : (forall x, use x <> Free -> use' x = use x) -> solid use P -> solid use' P.
Proof. intros Hu [HP ?]. split; [|done]. rewrite Hu; [done|]. by destruct HP as [-> | ->]. Qed.

Lemma same_solid_trans use use' m1 m2 m3 : (forall x, use x <> Free -> use' x = use x) ->
  same_solid use m1 m2 -> same_solid use' m2 m3 -> same_solid use m1 m3.
Proof. intros Hu H1 H2 P x HP Hx. rewrite (H2 P x), (H1 P x); [done..|by apply (solid_mono use)|done]. Qed.

Lemma owned_solid use m P : pt_ok use m -> use P = Owned -> solid use P.
Proof.
  intros Hpt HP. pose proof (pt_page _ _ Hpt P ltac:(by rewrite HP)) as Hpg. pose proof (page_ok_pos _ Hpg).
  destruct Hpg as (? & _ & ?). split; [by left|]. split; [done|]. addr.
Qed.

(** Writing an entry of a page table, or a page of another use, keeps them. *)
Lemma changes_solid use slot k m' a P : vm_wf use slot k -> (a = 0 \/ in_table use a) -> P mod PGSIZE = 0 ->
  changes (k_mem k) m' a P -> ~ solid use P -> same_solid use (k_mem k) m'.
Proof.
  intros Hwf Ha HPl Hch HnP Q x (HQ & HQl & HQ0 & HQ1) Hx.
  assert (HPQ : Q <> P) by (intros ->; by apply HnP). pose proof (pages_disjoint Q P HQl HPl HPQ).
  apply Hch; [|lia]. destruct Ha as [->|(b & r & l & pre & i & Hb & Hi & ->)]; [daddr|].
  assert (use Q <> PTab r l pre) by (destruct HQ; congruence).
  destruct (data_not_table _ _ Q _ _ _ _ (b + 8 * i) (wf_pt _ _ _ Hwf) Hb); addr || done.
Qed.

Lemma grown_refl use k : grown use k use k.
Proof. split; try done. by destruct k. Qed.

Lemma grown_trans use1 k1 use2 k2 use3 k3 :
  grown use1 k1 use2 k2 -> grown use2 k2 use3 k3 -> grown use1 k1 use3 k3.
Proof.
  intros [S1 U1 R1 P1 V1 O1] [S2 U2 R2 P2 V2 O2]. split.
  - rewrite S2. rewrite S1 at 1. done.
  - intros x Hx. rewrite U2; [by apply U1|]. by rewrite U1.
  - intros r. by rewrite R2, R1.
  - intros r va Hr Hva. rewrite P2 by (by apply R1 || done). by apply P1.
  - intros r va Hr Hva. rewrite V2 by (by apply R1 || done). by apply V1.
  - intros P x HP Hx. assert (solid use2 P) by (by apply (solid_mono use1)). by rewrite (O2 P), (O1 P).
Qed.

(** Taking a page and making it a directory. *)
Lemma grow_dir use slot k a i r pre l n :
  vm_wf use slot k -> L_kmem ∉ k_held k -> free_pages k (S n) ->
  use a = PTab r (S l) pre -> 0 <= i < 512 -> has (ld64 (k_mem k) (a + 8 * i)) PTE_V = false ->
  (l = 1%nat -> 512 * pre + i < 256) ->
  let mem := k_freelist k in
  let k' := dir_added (k := popped k) (a := a) (i := i) (mem := mem) in
  exists use', vm_wf use' slot k' /\ grown use k use' k' /\ free_pages k' n /\
    page_ok mem /\ use' mem = PTab r l (512 * pre + i).
Proof.
  intros Hwf Hlk Hfree Ha Hi HnV Hlow mem k'.
  assert (Hne : k_freelist k <> 0) by (destruct Hfree as ([|h l0] & Hrep & ?); cbn in *; [lia|naive_solver]).
  destruct (kalloc_free _ _ _ _ Hwf Hlk Hfree) as (_ & Hu & Hwf1 & Hq & Hfree1). fold mem in Hu, Hwf1.
  set (use1 := fupd mem Owned use) in *.
  assert (Ho : use1 mem = Owned) by apply fupd_eq.
  assert (Hsame : forall x, use x <> Free -> use1 x = use x) by (intros x Hx; apply fupd_ne; by intros ->).
  assert (Ha1 : use1 a = PTab r (S l) pre) by (by rewrite Hsame, Ha by (by rewrite Ha)).
  assert (Hm1 : ld64 (k_mem (popped k)) (a + 8 * i) = ld64 (k_mem k) (a + 8 * i)).
  { rewrite (popped_tables Hwf Hne _ _ _ _ _ Ha Hi), decide_False; [done|]. by eapply scratch_entry_ne. }
  rewrite <- Hm1 in HnV.
  assert (Hroot1 : forall r, is_root use1 r <-> is_root use r) by (intros; apply owned_mono; by left).
  exists (use_dir (use := use1) (i := i) (mem := mem) (r := r) (pre := pre) (l := l)).
  split; [by apply (dir_wf Hwf1 Ha1 Hi HnV Ho Hlow)|]. split; [|split; [|split]].
  - split; [subst k'; unfold dir_added, popped; by kext| | | | |].
    + intros x Hx. unfold use_dir. rewrite fupd_ne by (intros ->; congruence). by apply Hsame.
    + intros r'. rewrite (use_dir_root Hwf1 Ha1 Ho). apply Hroot1.
    + intros r' va Hr' Hva. rewrite (dir_pte Hwf1 Ha1 Hi HnV Ho Hlow) by (by apply Hroot1 || done).
      by apply (popped_pte Hwf Hne).
    + intros r' va Hr' Hva. rewrite (dir_view Hwf1 Ha1 Hi HnV Ho Hlow) by (by apply Hroot1 || done).
      by apply (q_views _ _ _ Hq).
    + apply (changes_solid use slot k (k_mem k') (a + 8 * i) mem Hwf (or_intror (dir_in Ha Hi))).
      * by apply (pt_page _ _ (wf_pt _ _ _ Hwf)); rewrite Hu.
      * intros x H1 H2. subst k'. rewrite (dir_changes (k := popped k) x) by done.
        by apply popped_out.
      * intros [[E|E] _]; congruence.
  - destruct Hfree1 as (fl & Hrep & Hlen). exists fl. split; [|done].
    change (k_freelist k') with (k_freelist (popped k)).
    destruct (wf_free _ _ _ Hwf1) as (fl' & Hrep' & _ & Hl).
    pose proof (freelist_rep_det _ _ _ _ Hrep Hrep') as <-.
    eapply (freelist_change use1 slot (popped k) _ (a + 8 * i) mem);
      [done|right; by apply (dir_in Ha1)|by apply (dir_scratch Hwf1 Ho)|apply dir_changes| |done].
    intros b Hb. apply Hl in Hb. split; [done|]. intros ->. congruence.
  - apply (pt_page _ _ (wf_pt _ _ _ Hwf)). by rewrite Hu.
  - unfold use_dir. apply fupd_eq.
Qed.

Lemma free_pages_mono k n n' : (n' <= n)%nat -> free_pages k n -> free_pages k n'.
Proof. intros Hn (l & Hrep & Hl). exists l. split; [done|lia]. Qed.

(** The loop, from a directory of the address; [l] pages are enough. *)
Lemma walk_loop_wp slot va n l : forall use k r x,
  vm_wf use slot k -> L_kmem ∉ k_held k -> free_pages k (l + n) -> 0 <= va < MAXVA ->
  use x = PTab r l (va / 2 ^ (12 + 9 * (Z.of_nat l + 1))) ->
  wp (walk_loop kalloc true va l x)
    (fun a k' => exists use' b, vm_wf use' slot k' /\ grown use k use' k' /\ free_pages k' n /\
       a = b + 8 * PX 0 va /\ use' b = PTab r 0 (va / 2 ^ 21)) k.
Proof.
  induction l as [|l IH]; intros use k r x Hwf Hlk Hfree Hva Hx; cbn [walk_loop].
  - apply wp_ret. exists use, x. split; [done|]. split; [apply grown_refl|]. by split.
  - wp_steps. pose proof (PX_range (Z.of_nat (S l)) va ltac:(lia)) as HP.
    destruct (has (ld64 (k_mem k) (x + 8 * PX (Z.of_nat (S l)) va)) PTE_V) eqn:HV.
    + eapply IH; [done|done| |done|].
      { eapply free_pages_mono; [|done]. lia. }
      erewrite (pt_node _ _ (wf_pt _ _ _ Hwf)); [|done|done|done]. by rewrite prefix_step by lia.
    + cbn [negb]. wp_steps. change (S l + n)%nat with (S (l + n)) in Hfree.
      destruct (kalloc_free _ _ _ _ Hwf Hlk Hfree) as (Hk & _).
      assert (Hlow : l = 1%nat -> 512 * (va / 2 ^ (12 + 9 * (Z.of_nat (S l) + 1))) + PX (Z.of_nat (S l)) va < 256).
      { rewrite prefix_step by lia. intros ->. change (2 ^ (12 + 9 * (Z.of_nat 1 + 1))) with 1073741824. daddr. }
      destruct (grow_dir _ _ _ _ _ _ _ _ _ Hwf Hlk Hfree Hx HP HV Hlow) as (use' & Hwf' & Hg & Hfree' & Hpg & Hu).
      rewrite prefix_step in Hu by lia.
      eapply wp_Ret; [done|]. cbv beta. pose proof (page_ok_pos _ Hpg).
      rewrite (proj2 (Z.eqb_neq _ 0)) by addr. wp_steps.
      match type of Hwf' with vm_wf _ _ ?d => set (kd := d) in * end.
      match goal with |- wp _ _ ?d => change d with kd end.
      assert (Hlk' : L_kmem ∉ k_held kd) by (rewrite (gr_state _ _ _ _ Hg); kproj; done).
      eapply wp_mono; [eapply IH; [exact Hwf'|done|exact Hfree'|done|exact Hu]|].
      intros a k' (use2 & b & Hwf2 & Hg2 & Hf2 & Hb). exists use2, b. split; [done|]. split; [|done].
      by eapply grown_trans.
Qed.

(** [walk(pagetable, va, 1)] returns the entry of [va]: the invariant holds
    afterwards, and no entry and no user memory has changed. *)
Lemma walk_wp use slot k r va n :
  vm_wf use slot k -> L_kmem ∉ k_held k -> free_pages k (2 + n) -> 0 <= va < MAXVA -> is_root use r ->
  wp (walk r va true)
    (fun a k' => exists use', vm_wf use' slot k' /\ grown use k use' k' /\ free_pages k' n /\
       a = pte_addr (k_mem k') r va /\ a <> 0) k.
Proof.
  intros Hwf Hlk Hfree Hva Hr. unfold walk, walk_with. rewrite (proj2 (Z.leb_gt _ _)) by lia.
  eapply wp_mono; [eapply walk_loop_wp; [done|done|done|lia|]|].
  - rewrite Hr. f_equal. change (2 ^ (12 + 9 * (Z.of_nat 2 + 1))) with 549755813888. daddr.
  - intros a k' (use' & b & Hwf' & Hg & Hf & -> & Hb). exists use'.
    split; [done|]. split; [done|]. split; [done|].
    split; [symmetry; apply (walk_through _ _ _ _ _ _ (wf_pt _ _ _ Hwf') (proj1 Hva) Hb)|].
    pose proof (leaf_inside b va (ptab_page (wf_pt _ _ _ Hwf') _ _ _ _ Hb)). lia.
Qed.
End VmWalk.

(** ** [vmfault]: what a page fault does to a process *)

Section VmFaultSpec.
Context {L : Layout} {LO : LayoutOk L}.

Lemma walk_noalloc r va k :
  va < MAXVA -> walk r va false k = Ret (pte_addr (k_mem k) r va) k.
Proof.
  intros Hva. unfold walk, walk_with. rewrite (proj2 (Z.leb_gt _ _)) by done. apply walk_loop_noalloc.
Qed.

Lemma walk_loop_present alloc va l a k :
  pt_walk (k_mem k) va l a <> 0 -> walk_loop kalloc alloc va l a k = Ret (pt_walk (k_mem k) va l a) k.
Proof.
  revert a. induction l as [|l IH]; intros a; cbn [walk_loop pt_walk]; [done|].
  unfold bind at 1, load64, gets.
  destruct (has (ld64 (k_mem k) (a + 8 * PX (Z.of_nat (S l)) va)) PTE_V); [apply IH|done].
Qed.

(** An entry that exists is found whether or not [alloc] is set. *)
Lemma walk_present r va alloc k :
  va < MAXVA -> pte_addr (k_mem k) r va <> 0 -> walk r va alloc k = Ret (pte_addr (k_mem k) r va) k.
Proof.
  intros Hva Hne. unfold walk, walk_with. rewrite (proj2 (Z.leb_gt _ _)) by done.
  by apply walk_loop_present.
Qed.

(** [mappages] of one page whose entry exists and is not valid. *)
Lemma mappages_present r va pa perm k :
  0 <= va < MAXVA -> va mod PGSIZE = 0 -> pte_addr (k_mem k) r va <> 0 ->
  has (pte_of (k_mem k) r va) PTE_V = false ->
  mappages r va PGSIZE pa perm k =
  Ret 0 (k <| k_mem ::= fun m => st64 m (pte_addr (k_mem k) r va) (Z.lor (Z.lor (PA2PTE pa) perm) PTE_V) |>).
Proof.
  intros Hva Hal Hne HnV. unfold mappages. rewrite Hal.
  change (PGSIZE mod PGSIZE =? 0) with true. change (PGSIZE =? 0) with false. cbn [Z.eqb negb].
  change (Z.to_nat (PGSIZE / PGSIZE)) with 1%nat. cbn [mappages_loop].
  erewrite bind_Ret by (apply walk_present; [lia|done]). rewrite (proj2 (Z.eqb_neq _ _)) by done.
  unfold bind, load64, gets. unfold pte_of in HnV. rewrite (proj2 (Z.eqb_neq _ _)) in HnV by done. rewrite HnV.
  cbn [store64 modify]. unfold store64, modify. rewrite u64_id by addr.
  by rewrite Z.add_simpl_r, Z.eqb_refl.
Qed.

Lemma can_alloc_procs k f :
  (forall p, p_state (f (k_procs k) !!! p) = p_state (k_procs k !!! p)) ->
  can_alloc k -> can_alloc (k <| k_procs ::= f |>).
Proof.
  intros Hf [?|[(j & Hj & He) Hs]]; [by left|]. right. split; [|done]. exists j. split; [done|].
  revert He. unfold evictable, frame_at. kproj. destruct (f_p (aget (k_frames k) j)) as [p|]; [|done].
  by rewrite Hf.
Qed.

Lemma PGROUNDDOWN_page va : 0 <= va ->
  PGROUNDDOWN va / PGSIZE = va / PGSIZE /\ PGROUNDDOWN va mod PGSIZE = 0 /\ 0 <= PGROUNDDOWN va <= va.
Proof. intros H. rewrite PGROUNDDOWN_spec. unfold PGSIZE. dlia. Qed.

(** The part of [vmfault] before it looks at the entry. *)
Lemma vmfault_start k p r va Q :
  k_cur k = Some p -> 0 <= va < p_sz (k_procs k !!! p) -> va < MAXVA ->
  let k1 := k <| k_procs ::= alter (set p_page_faults inc32) p |> in
  let va0 := PGROUNDDOWN va in
  wp (let! pte := walk r va0 true in
      if pte =? 0 then panic "error in vmfault : pte not valid 1"
      else
        let! e := load64 pte in
        if has e PTE_S then vmfault_swapin p pte va0 else vmfault_lazy p r pte va0) Q k1 ->
  wp (vmfault r va) Q k.
Proof.
  intros Hcur Hsz Hva k1 va0 H. unfold vmfault, curproc. wp_steps. rewrite Hcur. wp_steps.
  kproj. rewrite (proj_alter p_sz) by done. rewrite (proj2 (Z.leb_gt _ _)) by lia. exact H.
Qed.

Section Fault.
Context {use : Z -> usage} {slot : Z -> option (Z * Z)} {k : kernel} {r va : Z} {p : nat}
  (Hwf : vm_wf use slot k) (Hul : vm_unlocked k) (Hcur : k_cur k = Some p)
  (Hr : is_root use r) (Hp : p_pagetable (k_procs k !!! p) = r)
  (Hva : 0 <= va < MAXVA) (Hsz : va < p_sz (k_procs k !!! p)).
Local Abbreviation m := (k_mem k).
Local Abbreviation va0 := (PGROUNDDOWN va).
Local Abbreviation k1 := (k <| k_procs ::= alter (set p_page_faults inc32) p |>).

Lemma fault_pte m' : pte_of m' r va0 = pte_of m' r va.
Proof. unfold pte_of. by rewrite (pte_addr_vpn _ _ va0 va) by (apply PGROUNDDOWN_page; lia). Qed.

Lemma fault_wf1 : vm_wf use slot k1.
Proof. apply vm_wf_procs; [|done]. intros q. by apply (proj_alter p_pagetable). Qed.

Lemma fault_table1 : p_pagetable (k_procs k1 !!! p) = r.
Proof. kproj. by rewrite (proj_alter p_pagetable). Qed.

Lemma fault_calm : calm k k1.
Proof.
  split; try done; kproj; intros; [by rewrite (proj_alter p_pagetable)|by rewrite (proj_alter p_sz)
    |by rewrite (proj_alter p_state)|by rewrite length_alter].
Qed.

(** A swapped page comes back: [mem] holds it, the entry is valid with the
    flags the page had, and no process sees its memory change. *)
Lemma vmfault_swap :
  has (pte_of m r va) PTE_V = false -> has (pte_of m r va) PTE_S = true -> can_alloc k ->
  wp (vmfault r va)
    (fun mem k' => faulted use k r va0 mem (restored (pte_of m r va)) k' /\ same_views use m (k_mem k') /\
       own_swap p k') k.
Proof.
  intros HnV HS Hcan. apply (vmfault_start k p); [done|lia|lia|]. cbv zeta. wp_steps.
  destruct (PGROUNDDOWN_page va) as (Hpg & Hal & Hle); [lia|].
  rewrite <- fault_pte in HnV, HS |- *. pose proof (pte_of_present _ _ _ 8 ltac:(lia) HS) as [Hne He].
  eapply wp_Ret; [apply walk_present; [lia|done]|]. cbv beta. kproj.
  rewrite (proj2 (Z.eqb_neq _ _)) by done. wp_steps. kproj. rewrite <- He, HS.
  assert (Hcan1 : can_alloc k1) by (apply can_alloc_procs; [|done]; intros q; by apply (proj_alter p_state)).
  assert (Hva0 : 0 <= va0 < MAXVA) by lia.
  pose proof (@vmfault_swapin_wp L LO use slot k1 r va0 p fault_wf1 Hul Hcan1 Hr Hva0 Hal fault_table1) as W.
  kproj_in W. eapply wp_mono; [by apply W|].
  destruct (wf_swap _ _ _ Hwf r va0 Hr Hva0 HnV HS) as (Hs & _).
  intros mem k' ([F1 F2 F3 F4 F5 F6] & Hv & Hslot & Hreg). pose proof (calm_trans _ _ _ fault_calm F6) as Hcalm.
  split; [by split|]. split; [exact Hv|]. split; [|by exists (Z.shiftr (pte_of m r va0) 10)].
  exists (frame_index mem). split; [by apply frame_index_ok|]. by rewrite Hreg.
Qed.

(** The flags of a lazily allocated page. *)
Definition lazy_flags : Z := Z.lor (Z.lor (Z.lor PTE_W PTE_U) PTE_R) PTE_V.

(** What the lazy allocation of the page of [va] leaves behind. *)
Record lazily (mem : Z) (k' : kernel) : Prop := {
  lz_page : page_ok mem;
  lz_wf : exists use' slot', vm_wf use' slot' k' /\ forall r, is_root use' r <-> is_root use r;
  lz_zero va' : 0 <= va' < MAXVA -> va' / PGSIZE = va / PGSIZE ->
    view (k_mem k') r va' = Some (lazy_flags, 0);
  lz_other r' va' : is_root use r' -> 0 <= va' < MAXVA -> ~ (r' = r /\ va' / PGSIZE = va / PGSIZE) ->
    view (k_mem k') r' va' = view m r' va';
  lz_pte : pte_of (k_mem k') r va = Z.lor (PA2PTE mem) lazy_flags;
  lz_calm : calm k k'
}.

(** Mapping the zeroed page, from the state in which it was allocated. *)
Lemma lazy_mapped use2 k2 n :
  vm_wf use2 slot k2 -> L_kmem ∉ k_held k2 -> free_pages k2 (S n) -> is_root use2 r ->
  p_pagetable (k_procs k2 !!! p) = r -> pte_addr (k_mem k2) r va0 <> 0 ->
  has (pte_of (k_mem k2) r va0) PTE_V = false -> has (pte_of (k_mem k2) r va0) PTE_S = false ->
  let mem := k_freelist k2 in
  let v := Z.lor (PA2PTE mem) lazy_flags in
  let k3 := popped k2 in
  let k' := k3 <| k_mem ::= fun m => memset m mem 0 PGSIZE |>
               <| k_procs ::= alter (set p_resident_pages inc32) p |>
               <| k_mem ::= fun m => st64 m (pte_addr (k_mem k2) r va0) v |>
               <| k_frames ::= aset (frame_index mem) (mkframe 1 (Some p) va0 1) |> in
  mapped k3 r va0 mem v p k' /\ calm k2 k' /\ vm_wf (fupd mem Owned use2) slot k3 /\ quiet use2 k2 k3 /\
  use2 mem = Free.
Proof.
  intros Hwf2 Hlk Hfree Hr2 Hp2 Hne HnV HnS mem v k3 k'.
  destruct (PGROUNDDOWN_page va) as (Hpg & Hal & Hle); [lia|].
  destruct (kalloc_free _ _ _ _ Hwf2 Hlk Hfree) as (_ & Hu & Hwf3 & Hq & _).
  fold mem k3 in Hu, Hwf3, Hq. pose proof (pt_page _ _ (wf_pt _ _ _ Hwf2) mem ltac:(by rewrite Hu)) as Hpage.
  destruct (entry_build mem lazy_flags Hpage ltac:(done)) as (_ & _ & Eu & _).
  assert (Hva0 : 0 <= va0 < MAXVA) by lia.
  assert (Ea : pte_addr (k_mem k3) r va0 = pte_addr (k_mem k2) r va0) by (by apply (q_addr _ _ _ Hq)).
  assert (Ee : pte_of (k_mem k3) r va0 = pte_of (k_mem k2) r va0) by (by apply (q_pte _ _ _ Hq)).
  split; [|split; [|split; [exact Hwf3|split; [exact Hq|exact Hu]]]].
  - split; subst k'; kproj.
    + intros x H1 H2. rewrite Ea in H1. rewrite st64_out by lia. apply memset_out; [done|lia].
    + by rewrite Ea, ld64_st64.
    + apply st64_ok, memset_ok; [done|apply (wf_mem _ _ _ Hwf3)].
    + done.
    + rewrite Ee. unfold mask_after. by rewrite HnS.
    + done.
    + done.
    + intros q. by rewrite (proj_alter p_pagetable).
  - eapply calm_trans; [apply (q_calm _ _ _ Hq)|]. split; subst k'; kproj; intros;
      [done|done|by rewrite (proj_alter p_pagetable)
      |by rewrite (proj_alter p_sz)|by rewrite (proj_alter p_state)|by rewrite length_alter].
Qed.

(** From the state [k2] in which the entry exists, the lazy branch maps a
    zeroed page. *)
Lemma vmfault_lazy_wp use2 k2 n Q :
  vm_wf use2 slot k2 -> vm_unlocked k2 -> free_pages k2 (S n) -> is_root use2 r ->
  p_pagetable (k_procs k2 !!! p) = r -> pte_addr (k_mem k2) r va0 <> 0 ->
  has (pte_of (k_mem k2) r va0) PTE_V = false -> has (pte_of (k_mem k2) r va0) PTE_S = false ->
  (forall mem slot3 k3 k', page_ok mem -> use2 mem = Free -> quiet use2 k2 k3 ->
     vm_wf (fupd mem Owned use2) slot3 k3 ->
     mapped k3 r va0 mem (Z.lor (PA2PTE mem) lazy_flags) p k' -> calm k2 k' ->
     (forall o, 0 <= o < PGSIZE -> k_mem k' (mem + o) = 0) -> Q mem k') ->
  wp (vmfault_lazy p r (pte_addr (k_mem k2) r va0) va0) Q k2.
Proof.
  intros Hwf2 (Hlk & Hlf & _) Hfree Hr2 Hp2 Hne HnV HnS HQ.
  destruct (PGROUNDDOWN_page va) as (Hpg & Hal & Hle); [lia|]. assert (Hva0 : 0 <= va0 < MAXVA) by lia.
  pose proof (lazy_mapped use2 k2 n Hwf2 Hlk Hfree Hr2 Hp2 Hne HnV HnS) as (Hmap & Hcalm & Hwf3 & Hq & Hu).
  destruct (kalloc_free _ _ _ _ Hwf2 Hlk Hfree) as (Hka & _).
  pose proof (pt_page _ _ (wf_pt _ _ _ Hwf2) (k_freelist k2) ltac:(by rewrite Hu)) as Hpage.
  destruct (entry_build _ lazy_flags Hpage ltac:(done)) as (_ & _ & Eu & Enz). pose proof (page_ok_pos _ Hpage).
  unfold vmfault_lazy, ismapped. wp_steps. eapply wp_Ret; [apply walk_noalloc; lia|]. cbv beta.
  rewrite (proj2 (Z.eqb_neq _ _)) by done. wp_steps.
  assert (El : ld64 (k_mem k2) (pte_addr (k_mem k2) r va0) = pte_of (k_mem k2) r va0)
    by (unfold pte_of; by rewrite (proj2 (Z.eqb_neq _ _)) by done).
  rewrite El, HnV. wp_steps. cbn [Z.eqb negb]. unfold kalloc_or_evict. wp_steps.
  eapply wp_Ret; [exact Hka|]. cbv beta. rewrite (proj2 (Z.eqb_neq (k_freelist k2) 0)) by addr. wp_steps.
  rewrite (proj2 (Z.eqb_neq (k_freelist k2) 0)) by addr. wp_steps. kproj.
  rewrite (proj_alter p_pagetable) by done. change (k_procs (popped k2)) with (k_procs k2). rewrite Hp2.
  match goal with |- wp _ _ ?x => set (k4 := x) end.
  assert (Hch : changes (k_mem (popped k2)) (k_mem k4) 0 (k_freelist k2))
    by (intros x _ Hx; subst k4; kproj; apply memset_out; [done|lia]).
  assert (Hsc : scratch (fupd (k_freelist k2) Owned use2) (k_swap_mask (popped k2)) (k_freelist k2))
    by (split; [apply Hpage|]; left; left; apply fupd_eq).
  assert (Hr3 : is_root (fupd (k_freelist k2) Owned use2) r) by (apply owned_mono; [by left|done]).
  assert (Ea : pte_addr (k_mem k4) r va0 = pte_addr (k_mem k2) r va0).
  { rewrite (scratch_addr Hwf3 Hsc Hch) by done. by apply (q_addr _ _ _ Hq). }
  assert (Ee : pte_of (k_mem k4) r va0 = pte_of (k_mem k2) r va0).
  { rewrite (scratch_pte Hwf3 Hsc Hch) by done. by apply (q_pte _ _ _ Hq). }
  eapply wp_Ret; [apply mappages_present; [done|done|by rewrite Ea|by rewrite Ee]|]. cbv beta.
  cbn [Z.eqb negb]. wp_steps. kproj. rewrite <- Z.lor_assoc. fold lazy_flags. rewrite Ea, ld64_st64, Eu.
  rewrite (proj2 (Z.eqb_neq _ _)) by done. unfold sfence_vma. wp_steps.
  apply register_frame_wp; [subst k4; unfold popped; kproj; done|]. wp_steps.
  subst k4. eapply HQ; [exact Hpage|exact Hu|exact Hq|exact Hwf3|exact Hmap|exact Hcalm|].
  intros o Ho. kproj.
  assert (Hin : in_table (fupd (k_freelist k2) Owned use2) (pte_addr (k_mem (popped k2)) r va0)).
  { apply pte_in_table; [apply (wf_pt _ _ _ Hwf3)|done|done|]. by rewrite (q_addr _ _ _ Hq). }
  pose proof (owned_disjoint _ _ _ _ _ Hwf3 (fupd_eq _ _ _) Hin) as Hd. rewrite (q_addr _ _ _ Hq) in Hd by done.
  rewrite st64_out by lia. rewrite memset_in by lia. done.
Qed.

Lemma lazily_intro use2 slot3 k2 k3 mem k' :
  vm_wf use slot k1 -> grown use k1 use2 k2 -> vm_wf use2 slot k2 ->
  has (pte_of (k_mem k2) r va0) PTE_V = false -> pte_addr (k_mem k2) r va0 <> 0 ->
  page_ok mem -> use2 mem = Free -> quiet use2 k2 k3 -> vm_wf (fupd mem Owned use2) slot3 k3 ->
  mapped k3 r va0 mem (Z.lor (PA2PTE mem) lazy_flags) p k' -> calm k2 k' ->
  (forall o, 0 <= o < PGSIZE -> k_mem k' (mem + o) = 0) -> lazily mem k'.
Proof.
  intros Hwf1 Hg Hwf2 HnV Hne Hpage Hu Hq Hwf3 Hmap Hcalm Hz.
  destruct (PGROUNDDOWN_page va) as (Hpg & Hal & Hle); [lia|]. assert (Hva0 : 0 <= va0 < MAXVA) by lia.
  pose proof (proj2 (gr_root _ _ _ _ Hg r) Hr) as Hr2.
  assert (Hk2 : calm k1 k2) by (clear -Hg; rewrite (gr_state _ _ _ _ Hg); split; kproj; intros; reflexivity).
  assert (Hp2 : p_pagetable (k_procs k2 !!! p) = r) by (rewrite (cm_table _ _ Hk2); apply fault_table1).
  assert (Hfl : 0 <= lazy_flags < 1024) by done.
  assert (Hft : faulted use2 k2 r va0 mem lazy_flags k')
    by (eapply mapped_faulted; [exact Hwf2|exact Hq|by left|exact Hwf3|done..]).
  destruct Hft as [_ (use' & slot' & Hwf' & Htab) Fpte _ Fother _].
  destruct (entry_build mem lazy_flags Hpage Hfl) as (Epa & Efl & _ & _).
  split; [done| | | | |].
  - exists use', slot'. split; [done|]. intros r'. unfold is_root at 1. rewrite Htab. apply (gr_root _ _ _ _ Hg).
  - intros va' Hva' Hv.
    assert (Epte : pte_of (k_mem k') r va' = Z.lor (PA2PTE mem) lazy_flags)
      by (rewrite <- Fpte; unfold pte_of; by rewrite (pte_addr_vpn _ _ va' va0) by (by rewrite Hv, Hpg)).
    unfold view. rewrite Epte. unfold PTE_V. rewrite has_build by done. change (has lazy_flags _) with true.
    cbv iota. rewrite Efl, Epa, Hz; [done|]. by apply Z.mod_pos_bound.
  - intros r' va' Hr' Hva' Hn. rewrite Fother; [|by apply (gr_root _ _ _ _ Hg)|done|by rewrite Hpg].
    by rewrite (gr_views _ _ _ _ Hg).
  - by rewrite <- fault_pte.
  - eapply calm_trans; [apply fault_calm|]. by eapply calm_trans.
Qed.

(** A page that was never allocated appears, filled with zeros. *)
Lemma vmfault_fresh n :
  has (pte_of m r va) PTE_V = false -> has (pte_of m r va) PTE_S = false -> free_pages k (3 + n) ->
  wp (vmfault r va) lazily k.
Proof.
  intros HnV HnS Hfree. apply (vmfault_start k p); [done|lia|lia|]. cbv zeta. wp_steps.
  destruct (PGROUNDDOWN_page va) as (Hpg & Hal & Hle); [lia|].
  rewrite <- fault_pte in HnV, HnS. destruct Hul as (Hlk & Hlf & Hls).
  eapply wp_mono; [apply (walk_wp use slot k1 r va0 (S n)); [apply fault_wf1|done|exact Hfree|lia|done]|].
  intros a k2 (use2 & Hwf2 & Hg & Hf2 & -> & Hne). rewrite (proj2 (Z.eqb_neq _ _)) by done. wp_steps.
  pose proof (gr_pte _ _ _ _ Hg r va0 Hr ltac:(lia)) as Epte. kproj_in Epte.
  assert (El : ld64 (k_mem k2) (pte_addr (k_mem k2) r va0) = pte_of m r va0)
    by (rewrite <- Epte; unfold pte_of; by rewrite (proj2 (Z.eqb_neq _ _)) by done).
  rewrite El, HnS. pose proof (gr_state _ _ _ _ Hg) as Hst.
  apply (vmfault_lazy_wp use2 k2 n); try done.
  - unfold vm_unlocked. rewrite Hst. kproj. done.
  - by apply (gr_root _ _ _ _ Hg).
  - rewrite Hst. kproj. by rewrite (proj_alter p_pagetable).
  - by rewrite Epte.
  - by rewrite Epte.
  - intros. eapply lazily_intro; try done; [apply fault_wf1|by rewrite Epte].
Qed.
End Fault.
End VmFaultSpec.
