(* ===== verification/UserMem.v ===== *)
(** * Copying between the kernel and user memory

    [copyin] returns the bytes a process has at an address range, wherever
    its pages are; [copyout] replaces exactly those bytes. *)

From Stdlib Require Import ZArith Lia.
From stdpp Require Import base list strings sets.
From S2P Require Import Prelude Params Mem State Evict Kalloc Vm VmInv VmFault VmFaultSpec.

(** ** User memory as bytes *)

Definition ubyte (m : memory) (r va : Z) : Z :=
  match view m r va with
  | Some (_, b) => b
  | None => 0
  end.

Fixpoint ubytes (m : memory) (r va : Z) (n : nat) : list Z :=
  match n with
  | O => []
  | S n' => ubyte m r va :: ubytes m r (va + 1) n'
  end.

(** User code may access [va] with the permission bit [perm]. *)
Definition accessible (m : memory) (r va perm : Z) : Prop :=
  exists fl b, view m r va = Some (fl, b) /\ has fl PTE_U = true /\ has fl perm = true.

Lemma length_ubytes m r va n : length (ubytes m r va n) = n.
Proof. revert va. induction n; intros; cbn; auto. Qed.

Lemma ubytes_app m r va n1 n2 :
  ubytes m r va (n1 + n2) = ubytes m r va n1 ++ ubytes m r (va + Z.of_nat n1) n2.
Proof.
  revert va. induction n1 as [|n1 IH]; intros va; cbn [Nat.add ubytes app].
  - by rewrite Z.add_0_r.
  - rewrite IH. by replace (va + Z.of_nat (S n1)) with (va + 1 + Z.of_nat n1) by lia.
Qed.

Lemma ubytes_ext m m' r va n :
  (forall i, 0 <= i < Z.of_nat n -> ubyte m r (va + i) = ubyte m' r (va + i)) ->
  ubytes m r va n = ubytes m' r va n.
Proof.
  revert va. induction n as [|n IH]; intros va H; cbn [ubytes]; [done|]. f_equal.
  - specialize (H 0). rewrite Z.add_0_r in H. apply H. lia.
  - apply IH. intros i Hi. replace (va + 1 + i) with (va + (1 + i)) by lia. apply H. lia.
Qed.

(** The bytes of a resident page are those of its frame. *)
Lemma ubytes_resident m r va pa n :
  (forall i, 0 <= i < Z.of_nat n -> ubyte m r (va + i) = m (pa + i)) ->
  ubytes m r va n = ld_bytes m pa n.
Proof.
  revert va pa. induction n as [|n IH]; intros va pa H; cbn [ubytes ld_bytes]; [done|]. f_equal.
  - specialize (H 0). rewrite !Z.add_0_r in H. apply H. lia.
  - apply IH. intros i Hi. replace (va + 1 + i) with (va + (1 + i)) by lia.
    replace (pa + 1 + i) with (pa + (1 + i)) by lia. apply H. lia.
Qed.

(** User memory [m'] is [m] with the bytes [bs] stored at [dst] of [r]. *)
Definition written (use : Z -> usage) (m m' : memory) (r dst : Z) (bs : list Z) : Prop :=
  forall r' va, is_root use r' -> 0 <= va < MAXVA ->
  view m' r' va =
    if decide (r' = r /\ dst <= va < dst + Z.of_nat (length bs))
    then (fun x => (fst x, bs !!! Z.to_nat (va - dst))) <$> view m r' va
    else view m r' va.

Section UserMem.
Context {L : Layout} {LO : LayoutOk L}.

(** The running process [p] with page table [r], in a state that satisfies
    the invariant of physical memory with the page tables of [use0], and in
    which pages can be swapped. *)
Record uctx (use0 : Z -> usage) (p : nat) (r : Z) (k : kernel) : Prop := {
  uc_wf : exists use slot, vm_wf use slot k /\
    forall x r l pre, use x = PTab r l pre <-> use0 x = PTab r l pre;
  uc_root : is_root use0 r;
  uc_unlocked : vm_unlocked k;
  uc_cur : k_cur k = Some p;
  uc_table : p_pagetable (k_procs k !!! p) = r;
  uc_swap : can_swap k
}.

(** [pa] is the frame of the page of [va]. *)
Record resident (m : memory) (r va pa : Z) : Prop := {
  rs_V : has (pte_of m r va) PTE_V = true;
  rs_U : has (pte_of m r va) PTE_U = true;
  rs_pa : PTE2PA (pte_of m r va) = pa
}.

Lemma resident_ubyte m r va0 pa va : resident m r va0 pa -> va / PGSIZE = va0 / PGSIZE ->
  view m r va = Some (PTE_FLAGS (pte_of m r va0), m (pa + va mod PGSIZE)).
Proof.
  intros [HV HU <-] Hv. unfold view.
  assert (pte_of m r va = pte_of m r va0) as -> by (unfold pte_of; by rewrite (pte_addr_vpn _ _ _ _ Hv)).
  by rewrite HV.
Qed.

Lemma has_restored e n : 0 <= n < 10 -> n <> 0 -> n <> 8 ->
  has (restored e) (Z.shiftl 1 n) = has e (Z.shiftl 1 n).
Proof.
  intros Hn H0 H8. rewrite <- (has_flags e n) by lia. unfold restored, PTE_V, PTE_S. rewrite !has_bit by lia.
  rewrite Z.lor_spec, Z.land_spec, Z.lnot_spec, !Z.shiftl_1_l, !Z.pow2_bits_eqb by lia.
  rewrite (proj2 (Z.eqb_neq 8 n)), (proj2 (Z.eqb_neq 0 n)) by lia. cbn. by rewrite andb_true_r, orb_false_r.
Qed.

Lemma walkaddr_eq r va k : va < MAXVA ->
  walkaddr r va k =
  Ret (if has (pte_of (k_mem k) r va) PTE_V && has (pte_of (k_mem k) r va) PTE_U
       then PTE2PA (pte_of (k_mem k) r va) else 0) k.
Proof.
  intros Hva. unfold walkaddr. rewrite (proj2 (Z.leb_gt _ _)) by done.
  erewrite bind_Ret by (by apply walk_noalloc). unfold pte_of.
  destruct (pte_addr (k_mem k) r va =? 0); [done|]. unfold bind, load64, gets.
  destruct (has (ld64 _ _) PTE_V); [|done]. by destruct (has (ld64 _ _) PTE_U).
Qed.

(** [walkaddr], then [vmfault]: the page is resident afterwards. *)
Lemma fault_in_own use0 p r k va0 :
  uctx use0 p r k -> 0 <= va0 < MAXVA -> va0 mod PGSIZE = 0 -> va0 < p_sz (k_procs k !!! p) ->
  accessible (k_mem k) r va0 PTE_U ->
  wp (fault_in r va0)
    (fun pa k' => uctx use0 p r k' /\ calm k k' /\ same_views use0 (k_mem k) (k_mem k') /\
       resident (k_mem k') r va0 pa /\ page_ok pa /\ (own_swap p k -> own_swap p k')) k.
Proof.
  intros [(use & slot & Hwf & Htab) Hr Hul Hcur Hp Hsw] Hva Hal Hsz (fl & b & Hv & HU & _).
  assert (Hr' : is_root use r) by (by apply Htab).
  unfold fault_in. wp_steps. eapply wp_Ret; [apply walkaddr_eq; lia|]. cbv beta. revert Hv. unfold view.
  destruct (has (pte_of (k_mem k) r va0) PTE_V) eqn:HV.
  - intros [= <- _]. rewrite (has_flags _ 4) in HU by done. change (Z.shiftl 1 4) with PTE_U in HU. rewrite HU. cbn [andb].
    destruct (wf_leaf _ _ _ Hwf r va0 Hr' Hva HV) as [[Hd _]|(_ & ? & _)]; [|congruence].
    assert (Hpg : page_ok (PTE2PA (pte_of (k_mem k) r va0)))
      by (apply (pt_page _ _ (wf_pt _ _ _ Hwf)); by rewrite Hd).
    pose proof (page_ok_pos _ Hpg). rewrite (proj2 (Z.eqb_neq _ 0)) by addr. wp_steps.
    split; [by split; [exists use, slot|..]|]. split; [done|]. split; [done|]. split; [by split|done].
  - destruct (has (pte_of (k_mem k) r va0) PTE_S) eqn:HS; [|done]. intros [= <- _]. cbn [andb Z.eqb].
    eapply wp_mono; [by eapply (vmfault_swap Hwf Hul Hcur Hr' Hp Hva Hsz HV HS); right|].
    assert (PGROUNDDOWN va0 = va0) as -> by (rewrite PGROUNDDOWN_spec; daddr).
    intros pa k' ([F1 (use' & slot' & Hwf' & Htab') F3 F4 F5 F6] & Hsame & Hsw').
    destruct (restored_spec (pte_of (k_mem k) r va0)) as (Hrng & HrV & _).
    destruct (entry_build pa _ F1 Hrng) as (Epa & _).
    split; [split; [|done|..]|].
    + exists use', slot'. split; [done|]. intros x r0 l pre. by rewrite Htab'.
    + unfold vm_unlocked. by rewrite (cm_held _ _ F6).
    + by rewrite (cm_cur _ _ F6).
    + by rewrite (cm_table _ _ F6).
    + apply (own_can_swap p); [by rewrite (cm_cur _ _ F6)|done].
    + split; [done|]. split; [intros r0 va1 Hr0; apply Hsame; by apply Htab|]. split; [|done].
      split; rewrite F3; [|unfold PTE_U|done].
      * unfold PTE_V in *. by rewrite has_build.
      * rewrite has_build by done. exact HU.
Qed.

Lemma fault_in_wp use0 p r k va0 :
  uctx use0 p r k -> 0 <= va0 < MAXVA -> va0 mod PGSIZE = 0 -> va0 < p_sz (k_procs k !!! p) ->
  accessible (k_mem k) r va0 PTE_U ->
  wp (fault_in r va0)
    (fun pa k' => uctx use0 p r k' /\ calm k k' /\ same_views use0 (k_mem k) (k_mem k') /\
       resident (k_mem k') r va0 pa /\ page_ok pa) k.
Proof. intros. eapply wp_mono; [by apply (fault_in_own use0 p r k va0)|]. by intros pa k' (? & ? & ? & ? & ? & _). Qed.

Lemma accessible_page m r va va' perm :
  va / PGSIZE = va' / PGSIZE -> accessible m r va perm -> accessible m r va' perm.
Proof.
  intros Hv (fl & b & Hw & HU & HP). unfold accessible, view in *.
  assert (pte_of m r va' = pte_of m r va) as -> by (unfold pte_of; by rewrite (pte_addr_vpn _ _ _ _ Hv)).
  destruct (has (pte_of m r va) PTE_V); [|destruct (has (pte_of m r va) PTE_S); [|done]];
    injection Hw as <- _; eauto.
Qed.

Lemma ubytes_same use0 m m' r va n :
  same_views use0 m m' -> is_root use0 r -> 0 <= va -> va + Z.of_nat n <= MAXVA ->
  ubytes m' r va n = ubytes m r va n.
Proof.
  intros Hs Hr Hva Hn. apply ubytes_ext. intros i Hi. unfold ubyte. by rewrite Hs by (done || lia).
Qed.

Lemma accessible_same use0 m m' r va perm :
  same_views use0 m m' -> is_root use0 r -> 0 <= va < MAXVA -> accessible m r va perm -> accessible m' r va perm.
Proof. intros Hs Hr Hva. unfold accessible. by rewrite Hs. Qed.

Lemma same_views_trans use0 m1 m2 m3 : same_views use0 m1 m2 -> same_views use0 m2 m3 -> same_views use0 m1 m3.
Proof. intros H1 H2 r va Hr Hva. by rewrite H2, H1. Qed.

(** The part of a range that lies in the page of its first byte. *)
Lemma chunk_spec va len : 0 <= va -> 0 < len ->
  let va0 := PGROUNDDOWN va in
  let n := Z.min (PGSIZE - (va - va0)) len in
  0 <= va0 <= va /\ va0 mod PGSIZE = 0 /\ va0 / PGSIZE = va / PGSIZE /\ 0 < n <= len /\
  va - va0 = va mod PGSIZE /\ va + n <= va0 + PGSIZE /\ (n = len \/ va + n = va0 + PGSIZE).
Proof. intros Hva Hlen. cbv zeta. rewrite PGROUNDDOWN_spec. unfold PGSIZE. dlia. Qed.

Lemma in_chunk va n va0 i : va0 mod PGSIZE = 0 -> va0 <= va -> va + n <= va0 + PGSIZE -> 0 <= i < n ->
  (va + i) / PGSIZE = va0 / PGSIZE /\ (va + i) mod PGSIZE = va - va0 + i.
Proof. unfold PGSIZE. intros. dlia. Qed.

Lemma resident_bytes m r va0 pa va n :
  resident m r va0 pa -> va0 mod PGSIZE = 0 -> va0 <= va -> va + n <= va0 + PGSIZE -> 0 <= n ->
  ld_bytes m (pa + (va - va0)) (Z.to_nat n) = ubytes m r va (Z.to_nat n).
Proof.
  intros Hres Hal Hle Hn H0. symmetry. apply ubytes_resident. intros i Hi.
  destruct (in_chunk va n va0 i) as [Hd Hm]; [done|done|done|lia|].
  unfold ubyte. rewrite (resident_ubyte _ _ _ _ _ Hres Hd), Hm. f_equal. lia.
Qed.

Lemma copyin_loop_own use0 p r fuel : forall k src len,
  uctx use0 p r k -> (Z.to_nat len <= fuel)%nat -> 0 <= src -> 0 <= len ->
  src + len <= p_sz (k_procs k !!! p) -> src + len <= MAXVA ->
  (forall i, 0 <= i < len -> accessible (k_mem k) r (src + i) PTE_U) ->
  wp (copyin_loop fuel r src len)
    (fun res k' => uctx use0 p r k' /\ calm k k' /\ same_views use0 (k_mem k) (k_mem k') /\
       (own_swap p k -> own_swap p k') /\ res = (0, ubytes (k_mem k) r src (Z.to_nat len))) k.
Proof.
  induction fuel as [|fuel IH]; intros k src len Hu Hf Hsrc Hlen Hsz Hmax Hacc; cbn [copyin_loop].
  { assert (len = 0) as -> by lia. cbn [Z.leb]. by apply wp_ret. }
  destruct (Z.leb_spec len 0) as [Hle|Hpos].
  { assert (len = 0) as -> by lia. by apply wp_ret. }
  destruct (chunk_spec src len Hsrc Hpos) as (Hv0 & Hal & Hpg & Hn & Hoff & Hend & Hlast). cbv zeta in *.
  set (va0 := PGROUNDDOWN src) in *. set (n := Z.min (PGSIZE - (src - va0)) len) in *.
  wp_steps. eapply wp_mono; [apply (fault_in_own use0 p r k va0); [done|lia|done|lia|]|].
  { eapply (accessible_page _ _ src); [by rewrite Hpg|]. rewrite <- (Z.add_0_r src). apply Hacc. lia. }
  intros pa k1 (Hu1 & Hc1 & Hs1 & Hres & Hpa & Hw1). pose proof (page_ok_pos _ Hpa).
  rewrite (proj2 (Z.eqb_neq pa 0)) by addr. unfold kload. wp_steps.
  rewrite (resident_bytes _ _ _ _ _ _ Hres) by lia.
  pose proof (uc_root _ _ _ _ Hu) as Hr.
  rewrite (ubytes_same _ _ _ _ _ _ Hs1 Hr) by lia.
  destruct Hlast as [Hlast|Hlast].
  - rewrite Hlast, Z.sub_diag. assert (forall f v, copyin_loop f r v 0 = ret (0, [])) as -> by (by intros []).
    wp_steps. cbn [fst snd]. by rewrite app_nil_r.
  - rewrite u64_id by addr. rewrite <- Hlast. eapply wp_mono; [apply IH; try done|].
    + lia.
    + lia.
    + lia.
    + rewrite (cm_sz _ _ Hc1). lia.
    + lia.
    + intros i Hi. eapply accessible_same; [done|done|lia|]. rewrite <- Z.add_assoc. apply Hacc. lia.
    + intros res k2 (Hu2 & Hc2 & Hs2 & Hw2 & ->). wp_steps. cbn [fst snd].
      split; [done|]. split; [by eapply calm_trans|]. split; [by eapply same_views_trans|]. split; [by auto|].
      rewrite (ubytes_same _ _ _ _ _ _ Hs1 Hr) by lia.
      replace (Z.to_nat len) with (Z.to_nat n + Z.to_nat (len - n))%nat by lia.
      rewrite ubytes_app. by rewrite Z2Nat.id by lia.
Qed.

Lemma copyin_loop_wp use0 p r fuel k src len :
  uctx use0 p r k -> (Z.to_nat len <= fuel)%nat -> 0 <= src -> 0 <= len ->
  src + len <= p_sz (k_procs k !!! p) -> src + len <= MAXVA ->
  (forall i, 0 <= i < len -> accessible (k_mem k) r (src + i) PTE_U) ->
  wp (copyin_loop fuel r src len)
    (fun res k' => uctx use0 p r k' /\ calm k k' /\ same_views use0 (k_mem k) (k_mem k') /\
       res = (0, ubytes (k_mem k) r src (Z.to_nat len))) k.
Proof. intros. eapply wp_mono; [by apply (copyin_loop_own use0 p r)|]. by intros res k' (? & ? & ? & _ & ?). Qed.

(** Writing a page other than a page table keeps the invariant. *)
Lemma scratch_wf use slot k P m' :
  vm_wf use slot k -> scratch use (k_swap_mask k) P -> use P <> Free -> changes (k_mem k) m' 0 P -> mem_ok m' ->
  vm_wf use slot (k <| k_mem := m' |>).
Proof.
  intros Hwf HP HnF Hch Hok. split; kproj; try apply Hwf.
  - done.
  - eapply pt_ok_keep; [apply (wf_pt _ _ _ Hwf)|by eapply scratch_tables| |done|apply (pt_page _ _ (wf_pt _ _ _ Hwf))].
    intros. by eapply scratch_entry_ne.
  - intros r va Hr Hva. unfold leaf_ok. rewrite (scratch_pte Hwf HP Hch) by done. by apply (wf_leaf _ _ _ Hwf).
  - destruct (wf_free _ _ _ Hwf) as (l & Hrep & Hnd & Hl). exists l. split; [|done].
    eapply freelist_change; [done|by left|done|done| |done].
    intros b Hb. apply Hl in Hb. split; [done|]. by intros ->.
  - intros r va Hr Hva. unfold swap_entry_ok. kproj. rewrite (scratch_pte Hwf HP Hch) by done.
    by apply (wf_swap _ _ _ Hwf).
  - intros j Hj q Hu Hq. cbv zeta. kproj. unfold frame_at in *. revert Hu Hq. kproj. intros Hu Hq.
    destruct (wf_frame _ _ _ Hwf j Hj q Hu Hq) as (Hr & Hva & Hrest).
    unfold frame_at in *. by rewrite (scratch_pte Hwf HP Hch).
Qed.

Section Store.
Context {use : Z -> usage} {slot : Z -> option (Z * Z)} {k : kernel} {r va0 pa va : Z} {bs : list Z}
  (Hwf : vm_wf use slot k) (Hr : is_root use r) (Hva0 : 0 <= va0 < MAXVA) (Hal : va0 mod PGSIZE = 0)
  (Hres : resident (k_mem k) r va0 pa) (Hle : va0 <= va)
  (Hend : va + Z.of_nat (length bs) <= va0 + PGSIZE) (Hbs : Forall byte_ok bs).
Local Abbreviation m' := (st_bytes (k_mem k) (pa + (va - va0)) bs).

Lemma store_use : use pa = Data r (va0 / PGSIZE).
Proof.
  destruct Hres as [HV HU Hpa]. destruct (wf_leaf _ _ _ Hwf r va0 Hr Hva0 HV) as [[Hd _]|(_ & ? & _)];
    [by rewrite <- Hpa|congruence].
Qed.

Lemma store_page : page_ok pa.
Proof. apply (pt_page _ _ (wf_pt _ _ _ Hwf)). by rewrite store_use. Qed.

Lemma store_scratch : scratch use (k_swap_mask k) pa.
Proof. split; [apply store_page|]. left. right. right. left. rewrite store_use. eauto. Qed.

Lemma store_changes : changes (k_mem k) m' 0 pa.
Proof. intros x _ Hx. apply st_bytes_out. lia. Qed.

Lemma store_wf : vm_wf use slot (k <| k_mem := m' |>).
Proof.
  eapply scratch_wf; [done|apply store_scratch|by rewrite store_use|apply store_changes|].
  apply st_bytes_ok, (wf_mem _ _ _ Hwf).
Qed.

Lemma store_written : written use (k_mem k) m' r va bs.
Proof.
  intros r' va' Hr' Hva'. destruct (decide (r' = r /\ va' / PGSIZE = va0 / PGSIZE)) as [[-> Hpg]|Hn].
  - pose proof (scratch_pte Hwf store_scratch store_changes r va0 Hr Hva0) as Epte.
    assert (Hres' : resident m' r va0 pa) by (destruct Hres; split; by rewrite Epte).
    rewrite (resident_ubyte _ _ _ _ _ Hres' Hpg), (resident_ubyte _ _ _ _ _ Hres Hpg), Epte.
    assert (Hoff : va' mod PGSIZE = va' - va0) by daddr. rewrite Hoff.
    case_decide as Hin; cbn [fmap option_fmap option_map fst].
    + f_equal. f_equal. destruct (lookup_lt_is_Some_2 bs (Z.to_nat (va' - va))) as [b Hb]; [lia|].
      rewrite (list_lookup_total_correct _ _ _ Hb).
      rewrite <- (st_bytes_lookup (k_mem k) (pa + (va - va0)) bs _ b Hb) by (by eapply Forall_lookup_1 in Hbs).
      f_equal. lia.
    + f_equal. f_equal. apply st_bytes_out. lia.
  - rewrite decide_False.
    + apply (view_other Hwf (or_introl eq_refl) store_scratch store_changes); [done|done| | |].
      * by apply (scratch_pte Hwf store_scratch store_changes).
      * rewrite store_use. intros [= <- E]. by apply Hn.
      * left. by rewrite store_use.
    + intros [-> Hin]. apply Hn. split; [done|]. daddr.
Qed.
End Store.

Lemma written_app use m m1 m2 r dst bs1 bs2 :
  written use m m1 r dst bs1 -> written use m1 m2 r (dst + Z.of_nat (length bs1)) bs2 ->
  written use m m2 r dst (bs1 ++ bs2).
Proof.
  intros H1 H2 r' va Hr Hva. rewrite H2, H1, length_app by done. clear H1 H2.
  destruct (decide (r' = r /\ dst <= va < dst + Z.of_nat (length bs1 + length bs2))) as [[-> Hin]|Hn].
  - destruct (Z.lt_ge_cases va (dst + Z.of_nat (length bs1))).
    + rewrite decide_False, decide_True by lia. rewrite lookup_total_app_l by lia. done.
    + rewrite decide_True, decide_False by lia. rewrite lookup_total_app_r by lia.
      by replace (Z.to_nat (va - dst) - length bs1)%nat with (Z.to_nat (va - (dst + Z.of_nat (length bs1)))) by lia.
  - rewrite !decide_False by (intros [-> ?]; apply Hn; split; [done|lia]). done.
Qed.

Lemma written_same_l use m m1 m2 r dst bs :
  same_views use m m1 -> written use m1 m2 r dst bs -> written use m m2 r dst bs.
Proof. intros H1 H2 r' va Hr Hva. by rewrite H2, H1. Qed.

Lemma accessible_written use m m' r dst bs va perm :
  written use m m' r dst bs -> is_root use r -> 0 <= va < MAXVA ->
  accessible m r va perm -> accessible m' r va perm.
Proof.
  intros Hw Hr Hva (fl & b & Hv & HU & HP). unfold accessible. rewrite Hw, Hv by done.
  case_decide; cbn; eauto.
Qed.

Lemma calm_mem k m' : calm k (k <| k_mem := m' |>).
Proof. split; kproj; done. Qed.

Lemma can_swap_mem k m' : can_swap k -> can_swap (k <| k_mem := m' |>).
Proof.
  intros [(j & Hj & He) (i & Hi & Hs)]. split; [exists j|exists i; done]. split; [done|].
  revert He. unfold evictable, frame_at. by kproj.
Qed.

(** The chunk in the page of [va0], once that page is resident. *)
Lemma store_chunk use0 p r k va0 pa va bs :
  uctx use0 p r k -> 0 <= va0 < MAXVA -> va0 mod PGSIZE = 0 -> resident (k_mem k) r va0 pa -> va0 <= va ->
  va + Z.of_nat (length bs) <= va0 + PGSIZE -> Forall byte_ok bs ->
  wp (kstore (pa + (va - va0)) bs)
    (fun _ k' => uctx use0 p r k' /\ calm k k' /\ written use0 (k_mem k) (k_mem k') r va bs) k.
Proof.
  intros [(use & slot & Hwf & Htab) Hr Hul Hcur Hp Hsw] Hva0 Hal Hres Hle Hend Hbs.
  assert (Hr' : is_root use r) by (by apply Htab).
  unfold kstore. apply wp_modify. set (m' := st_bytes (k_mem k) (pa + (va - va0)) bs).
  change (k <| k_mem ::= fun m => st_bytes m (pa + (va - va0)) bs |>) with (k <| k_mem := m' |>).
  split; [|split; [apply calm_mem|]].
  - split; [|done|done|done|done|by apply can_swap_mem]. exists use, slot. split; [|done].
    by apply (store_wf Hwf Hr' Hva0 Hres Hle Hend).
  - pose proof (store_written Hwf Hr' Hva0 Hal Hres Hle Hend Hbs) as Hw. kproj.
    intros r' va' Hr0 Hva'. apply Hw; [by apply Htab|done].
Qed.

(** A resident page keeps the permissions user code saw. *)
Lemma resident_perm use0 m m' r va0 pa n :
  same_views use0 m m' -> is_root use0 r -> 0 <= va0 < MAXVA -> 0 <= n < 10 ->
  resident m' r va0 pa -> accessible m r va0 (Z.shiftl 1 n) ->
  pte_addr m' r va0 <> 0 /\ has (ld64 m' (pte_addr m' r va0)) (Z.shiftl 1 n) = true.
Proof.
  intros Hs Hr Hva Hn Hres (fl & b & Hv & _ & HP).
  destruct (pte_of_present m' r va0 0 ltac:(lia) (rs_V _ _ _ _ Hres)) as [Hne He]. split; [done|].
  rewrite <- Hs in Hv by done. rewrite (resident_ubyte _ _ _ _ _ Hres eq_refl) in Hv. injection Hv as <- _.
  rewrite has_flags in HP by done. by rewrite <- He.
Qed.

Lemma copyout_loop_wp use0 p r fuel : forall k dst src len,
  uctx use0 p r k -> (Z.to_nat len <= fuel)%nat -> 0 <= dst -> Z.of_nat (length src) = len ->
  Forall byte_ok src -> dst + len <= p_sz (k_procs k !!! p) -> dst + len <= MAXVA ->
  (forall i, 0 <= i < len -> accessible (k_mem k) r (dst + i) PTE_W) ->
  wp (copyout_loop fuel r dst src len)
    (fun res k' => uctx use0 p r k' /\ calm k k' /\ written use0 (k_mem k) (k_mem k') r dst src /\ res = 0) k.
Proof.
  induction fuel as [|fuel IH]; intros k dst src len Hu Hf Hdst Hlen Hbs Hsz Hmax Hacc; cbn [copyout_loop];
    (destruct (Z.leb_spec len 0) as [Hle|Hpos];
     [destruct src; [|cbn in *; lia]; wp_steps; split; [done|]; split; [done|]; split; [|done];
      intros r' va _ _; rewrite decide_False by (cbn; lia); done|]); [lia|].
  destruct (chunk_spec dst len Hdst Hpos) as (Hv0 & Hal & Hpg & Hn & Hoff & Hend & Hlast). cbv zeta in *.
  set (va0 := PGROUNDDOWN dst) in *. set (n := Z.min (PGSIZE - (dst - va0)) len) in *.
  assert (Hva0 : 0 <= va0 < MAXVA) by lia. rewrite (proj2 (Z.leb_gt MAXVA va0)) by lia.
  assert (Hac0 : accessible (k_mem k) r va0 PTE_W).
  { eapply (accessible_page _ _ dst); [by rewrite Hpg|]. rewrite <- (Z.add_0_r dst). apply Hacc. lia. }
  wp_steps. eapply wp_mono; [apply (fault_in_wp use0 p r k va0); [done|done|done|lia|]|].
  { destruct Hac0 as (fl & b & ? & ? & _). by exists fl, b. }
  intros pa k1 (Hu1 & Hc1 & Hs1 & Hres & Hpa). pose proof (page_ok_pos _ Hpa).
  pose proof (uc_root _ _ _ _ Hu) as Hr.
  destruct (resident_perm _ _ _ _ _ _ 2 Hs1 Hr Hva0 ltac:(lia) Hres Hac0) as [Hne HW].
  rewrite (proj2 (Z.eqb_neq pa 0)) by addr. wp_steps. eapply wp_Ret; [apply walk_noalloc; lia|]. cbv beta.
  unfold load_pte. rewrite (proj2 (Z.eqb_neq _ _)) by done. wp_steps. fold PTE_W in HW. rewrite HW. cbn [negb].
  wp_steps. assert (Hl1 : length (take (Z.to_nat n) src) = Z.to_nat n) by (rewrite length_take; lia).
  eapply wp_mono; [apply (store_chunk use0 p r); try done; [lia|rewrite Hl1; lia|by apply Forall_take]|].
  intros _ k2 (Hu2 & Hc2 & Hw2).
  assert (Hacc2 : forall i, 0 <= i < len -> accessible (k_mem k2) r (dst + i) PTE_W).
  { intros i Hi. eapply accessible_written; [done|done|lia|].
    eapply accessible_same; [done|done|lia|by apply Hacc]. }
  pose proof (written_same_l _ _ _ _ _ _ _ Hs1 Hw2) as Hw. pose proof (calm_trans _ _ _ Hc1 Hc2) as Hc.
  destruct Hlast as [Hlast|Hlast].
  - rewrite Hlast, Z.sub_diag. rewrite Hlast in Hw. rewrite take_ge in Hw by lia.
    assert (forall f v l, copyout_loop f r v l 0 = ret 0) as -> by (by intros []). by wp_steps.
  - rewrite u64_id by addr. rewrite <- Hlast. eapply wp_mono; [apply IH; try done|].
    + lia.
    + lia.
    + rewrite length_drop. lia.
    + by apply Forall_drop.
    + rewrite (cm_sz _ _ Hc). lia.
    + lia.
    + intros i Hi. rewrite <- Z.add_assoc. apply Hacc2. lia.
    + intros res k3 (Hu3 & Hc3 & Hw3 & ->). split; [done|]. split; [by eapply calm_trans|]. split; [|done].
      rewrite <- (take_drop (Z.to_nat n) src). eapply written_app; [exact Hw|].
      rewrite Hl1, Z2Nat.id by lia. exact Hw3.
Qed.

(** Bytes just stored are read back. *)
Lemma ubytes_written use m m' r dst bs len :
  written use m m' r dst bs -> is_root use r -> Z.of_nat (length bs) = len -> 0 <= dst -> dst + len <= MAXVA ->
  (forall i, 0 <= i < len -> accessible m r (dst + i) PTE_W) ->
  ubytes m' r dst (Z.to_nat len) = bs.
Proof.
  intros Hw Hr Hlen Hdst Hmax Hacc. apply list_eq_same_length with (length bs);
    [done|rewrite length_ubytes; lia|].
  intros i x y Hi Hx Hy.
  assert (Hl : forall n v j, (j < n)%nat -> ubytes m' r v n !! j = Some (ubyte m' r (v + Z.of_nat j))).
  { clear. induction n as [|n IH]; intros v [|j] Hj; cbn; [lia|lia|by rewrite Z.add_0_r|].
    rewrite IH by lia. do 2 f_equal. lia. }
  rewrite Hl in Hx by lia. injection Hx as <-. unfold ubyte.
  destruct (Hacc (Z.of_nat i) ltac:(lia)) as (fl & b & Hv & _). rewrite Hw, Hv, decide_True by (done || lia).
  cbn. replace (Z.to_nat (dst + Z.of_nat i - dst)) with i by lia. by apply list_lookup_total_correct.
Qed.
End UserMem.
