(* ===== verification/VmCopy.v ===== *)
(** * Copying and growing address spaces (uvmcopy and uvmalloc of kernel/vm.c)

    [fork] gives the child a copy of every page of the parent, whether it is
    in RAM or in a swap slot; [uvmalloc] adds zeroed pages. *)

From Stdlib Require Import ZArith Lia.
From stdpp Require Import base list strings sets.
From S2P Require Import Prelude Params Mem State Evict Kalloc Vm VmInv VmFault VmFaultSpec UserMem.

Section VmCopy.
Context {L : Layout} {LO : LayoutOk L}.

(** ** Mapping an owned page *)

(** [mappages] of one page, from a state in which the directories may be
    missing: [k3] has them, and the entry is stored. *)
Lemma mappages_wp use slot k r va mem perm n :
  vm_wf use slot k -> L_kmem ∉ k_held k -> free_pages k (2 + n) -> is_root use r ->
  0 <= va < MAXVA -> va mod PGSIZE = 0 -> has (pte_of (k_mem k) r va) PTE_V = false ->
  wp (mappages r va PGSIZE mem perm) (fun res k' => res = 0 /\ exists use3 k3,
    vm_wf use3 slot k3 /\ grown use k use3 k3 /\ free_pages k3 n /\ pte_addr (k_mem k3) r va <> 0 /\
    k' = k3 <| k_mem ::= fun m => st64 m (pte_addr (k_mem k3) r va) (Z.lor (Z.lor (PA2PTE mem) perm) PTE_V) |>) k.
Proof.
  intros Hwf Hlk Hfree Hr Hva Hal HnV. unfold mappages. rewrite Hal.
  change (PGSIZE mod PGSIZE =? 0) with true. change (PGSIZE =? 0) with false. cbn [Z.eqb negb].
  change (Z.to_nat (PGSIZE / PGSIZE)) with 1%nat. cbn [mappages_loop]. wp_steps.
  eapply wp_mono; [by eapply walk_wp|]. intros a k3 (use3 & Hwf3 & Hg & Hf3 & -> & Hne).
  rewrite (proj2 (Z.eqb_neq _ _)) by done. wp_steps.
  pose proof (gr_pte _ _ _ _ Hg r va Hr Hva) as Epte.
  assert (El : ld64 (k_mem k3) (pte_addr (k_mem k3) r va) = pte_of (k_mem k) r va)
    by (rewrite <- Epte; unfold pte_of; by rewrite (proj2 (Z.eqb_neq _ _)) by done).
  rewrite El, HnV. wp_steps. rewrite u64_id by addr. rewrite Z.add_simpl_r, Z.eqb_refl. wp_steps.
  split; [done|]. by exists use3, k3.
Qed.

(** [k'] is [k] with the page [mem] at [va] of [r]: only that page changed. *)
Record placed (use : Z -> usage) (k : kernel) (r va mem fl : Z) (use' : Z -> usage) (k' : kernel) : Prop := {
  pl_root r' : is_root use' r' <-> is_root use r';
  pl_here va' : 0 <= va' < MAXVA -> va' / PGSIZE = va / PGSIZE ->
    view (k_mem k') r va' = Some (fl, k_mem k (mem + va' mod PGSIZE));
  pl_other r' va' : is_root use r' -> 0 <= va' < MAXVA -> ~ (r' = r /\ va' / PGSIZE = va / PGSIZE) ->
    view (k_mem k') r' va' = view (k_mem k) r' va';
  pl_calm : calm k k';
  pl_use x : use x <> Free -> x <> mem -> use' x = use x;
  pl_solid : same_solid use (k_mem k) (k_mem k')
}.

Section Place.
Context {use use3 : Z -> usage} {slot : Z -> option (Z * Z)} {k k3 k' : kernel} {r va mem fl : Z} {p : nat} {n : nat}
  (Hwf : vm_wf use slot k) (Hr : is_root use r) (Hva : 0 <= va < MAXVA) (Hal : va mod PGSIZE = 0)
  (Hown : use mem = Owned) (Hp : p_pagetable (k_procs k !!! p) = r)
  (HnV : has (pte_of (k_mem k) r va) PTE_V = false)
  (Hfl : 0 <= fl < 1024) (HflV : has fl PTE_V = true) (HflS : has fl PTE_S = false)
  (Hwf3 : vm_wf use3 slot k3) (Hg : grown use k use3 k3) (Hf3 : free_pages k3 n)
  (Hne : pte_addr (k_mem k3) r va <> 0)
  (Hm : mapped k3 r va mem (Z.lor (PA2PTE mem) fl) p k') (Hc : calm k3 k')
  (Hkeep : forall x, ~ (pte_addr (k_mem k3) r va <= x < pte_addr (k_mem k3) r va + 8) -> k_mem k' x = k_mem k3 x).
Local Abbreviation use' := (fupd mem (Data r (va / PGSIZE)) use3).

Lemma place_own : use3 mem = Owned.
Proof. by rewrite (gr_use _ _ _ _ Hg), Hown by (by rewrite Hown). Qed.

Lemma place_root : is_root use3 r.
Proof. by apply (gr_root _ _ _ _ Hg). Qed.

Lemma place_table : p_pagetable (k_procs k3 !!! p) = r.
Proof. by rewrite (gr_state _ _ _ _ Hg). Qed.

Lemma place_invalid : has (pte_of (k_mem k3) r va) PTE_V = false.
Proof. by rewrite (gr_pte _ _ _ _ Hg). Qed.

Lemma place_page : page_ok mem.
Proof. apply (pt_page _ _ (wf_pt _ _ _ Hwf)). by rewrite Hown. Qed.

Lemma place_wf : vm_wf use' slot k'.
Proof.
  destruct (entry_build mem fl place_page Hfl) as (Epa & _).
  destruct (build_has mem fl place_page Hfl HflV HflS) as [HvV HvS].
  by apply (mapped_wf Hwf3 place_root Hva Hal place_table place_own Hne place_invalid HvV HvS Epa Hm).
Qed.

Lemma place_free : free_pages k' n.
Proof.
  destruct Hf3 as (l & Hrep & Hl). exists l. split; [|done]. rewrite (mp_freelist _ _ _ _ _ _ _ Hm).
  destruct (wf_free _ _ _ Hwf3) as (l' & Hrep' & _ & Hin). pose proof (freelist_rep_det _ _ _ _ Hrep Hrep') as <-.
  eapply freelist_change; [exact Hwf3|right; by apply (mapped_in Hwf3 place_root Hva Hne)
    |by apply (mapped_scratch Hwf3 place_own)|apply Hm| |done].
  intros b Hb. apply Hin in Hb. split; [done|]. intros ->. pose proof place_own. congruence.
Qed.

Lemma place_calm : calm k k'.
Proof.
  eapply calm_trans; [|exact Hc]. clear -Hg. rewrite (gr_state _ _ _ _ Hg). split; kproj; intros; reflexivity.
Qed.

Lemma place_placed : placed use k r va mem fl use' k'.
Proof.
  destruct (entry_build mem fl place_page Hfl) as (Epa & Efl & _).
  destruct (build_has mem fl place_page Hfl HflV HflS) as [HvV HvS]. split.
  - intros r'. unfold is_root at 1. rewrite (mapped_ptab place_own). apply (gr_root _ _ _ _ Hg).
  - intros va' Hva' Hv. rewrite (mapped_view Hwf3 place_root Hva place_own Hne HvV Epa Hm) by done.
    rewrite Efl. do 2 f_equal. pose proof (Z.mod_pos_bound va' PGSIZE ltac:(done)).
    pose proof (owned_disjoint _ _ _ _ _ Hwf3 place_own (mapped_in Hwf3 place_root Hva Hne)).
    rewrite Hkeep by lia. apply (gr_solid _ _ _ _ Hg mem); [|lia]. by eapply owned_solid; [apply (wf_pt _ _ _ Hwf)|].
  - intros r' va' Hr' Hva' Hn. rewrite (mapped_view_other Hwf3 place_root Hva place_own Hne Hm);
      [by apply (gr_views _ _ _ _ Hg)|by apply (gr_root _ _ _ _ Hg)|done|done].
  - apply place_calm.
  - intros x Hx Hne'. rewrite fupd_ne by done. by apply (gr_use _ _ _ _ Hg).
  - apply (same_solid_trans use use3 _ (k_mem k3)); [apply (gr_use _ _ _ _ Hg)|apply (gr_solid _ _ _ _ Hg)|].
    eapply (changes_solid use3 slot k3 _ _ nopage);
      [exact Hwf3|right; apply (mapped_in Hwf3 place_root Hva Hne)|done|intros x Hx _; by apply Hkeep|].
    intros (_ & _ & _ & H). by apply H.
Qed.
End Place.

(** Mapping the owned page [mem], registering it, and counting it. *)
Definition placing (k3 : kernel) (r va mem fl : Z) (p : nat) : kernel :=
  k3 <| k_mem ::= fun m => st64 m (pte_addr (k_mem k3) r va) (Z.lor (PA2PTE mem) fl) |>
     <| k_frames ::= aset (frame_index mem) (mkframe 1 (Some p) va 1) |>
     <| k_procs ::= alter (set p_resident_pages inc32) p |>.

Lemma placing_mapped use3 slot k3 r va mem fl p :
  vm_wf use3 slot k3 -> page_ok mem -> 0 <= fl < 1024 -> has (pte_of (k_mem k3) r va) PTE_S = false ->
  let k' := placing k3 r va mem fl p in
  mapped k3 r va mem (Z.lor (PA2PTE mem) fl) p k' /\ calm k3 k' /\
  forall x, ~ (pte_addr (k_mem k3) r va <= x < pte_addr (k_mem k3) r va + 8) -> k_mem k' x = k_mem k3 x.
Proof.
  intros Hwf Hpg Hfl HnS k'. destruct (entry_build mem fl Hpg Hfl) as (_ & _ & Eu & _).
  subst k'. unfold placing. split; [|split].
  - split; kproj; try done.
    + intros x Hx _. by apply st64_out; lia.
    + by rewrite ld64_st64.
    + apply st64_ok, (wf_mem _ _ _ Hwf).
    + unfold mask_after. by rewrite HnS.
    + intros q. by rewrite (proj_alter p_pagetable).
  - split; kproj; intros; [done|done|by rewrite (proj_alter p_pagetable)|by rewrite (proj_alter p_sz)
      |by rewrite (proj_alter p_state)|by rewrite length_alter].
  - intros x Hx. kproj. apply st64_out. lia.
Qed.

(** ** A fresh page and its contents *)
Section Fill.
Context {use : Z -> usage} {slot : Z -> option (Z * Z)} {k : kernel} {n : nat} {m2 : memory}
  (Hwf : vm_wf use slot k) (Hul : vm_unlocked k) (Hfree : free_pages k (S n))
  (Hch : changes (k_mem (popped k)) m2 0 (k_freelist k)) (Hok : mem_ok m2).
Local Abbreviation mem := (k_freelist k).
Local Abbreviation use1 := (fupd mem Owned use).
Local Abbreviation k2 := ((popped k) <| k_mem := m2 |>).

Lemma fill_head : use mem = Free /\ page_ok mem.
Proof.
  destruct (kalloc_free _ _ _ _ Hwf (proj1 Hul) Hfree) as (_ & Hu & _). split; [done|].
  apply (pt_page _ _ (wf_pt _ _ _ Hwf)). by rewrite Hu.
Qed.

Lemma fill_alloc : kalloc_or_evict k = Ret mem (popped k).
Proof.
  destruct (kalloc_free _ _ _ _ Hwf (proj1 Hul) Hfree) as (Hk & _). destruct fill_head as [_ Hpg].
  pose proof (page_ok_pos _ Hpg). unfold kalloc_or_evict. rewrite (bind_Ret _ _ _ _ _ Hk).
  by rewrite (proj2 (Z.eqb_neq mem 0)) by addr.
Qed.

Lemma fill_scratch : scratch use1 (k_swap_mask (popped k)) mem.
Proof. split; [apply fill_head|]. left. left. apply fupd_eq. Qed.

Lemma fill_wf : vm_wf use1 slot k2.
Proof.
  destruct (kalloc_free _ _ _ _ Hwf (proj1 Hul) Hfree) as (_ & _ & Hwf1 & _).
  eapply scratch_wf; [exact Hwf1|apply fill_scratch|by rewrite fupd_eq|exact Hch|exact Hok].
Qed.

Lemma fill_root r : is_root use1 r <-> is_root use r.
Proof. apply owned_mono. left. apply fill_head. Qed.

Lemma fill_pte r va : is_root use r -> 0 <= va < MAXVA -> pte_of m2 r va = pte_of (k_mem k) r va.
Proof.
  intros Hr Hva. destruct (kalloc_free _ _ _ _ Hwf (proj1 Hul) Hfree) as (Hk & Hu & Hwf1 & _).
  assert (Hne : mem <> 0) by (pose proof (page_ok_pos _ (proj2 fill_head)); addr).
  rewrite (scratch_pte Hwf1 fill_scratch Hch) by (by apply fill_root || done). by apply (popped_pte Hwf Hne).
Qed.

Lemma fill_views : same_views use (k_mem k) m2.
Proof.
  intros r va Hr Hva. destruct (kalloc_free _ _ _ _ Hwf (proj1 Hul) Hfree) as (_ & _ & Hwf1 & Hq & _).
  rewrite (view_other Hwf1 (or_introl eq_refl) fill_scratch Hch r va);
    [by apply (q_views _ _ _ Hq)|by apply fill_root|done| |by rewrite fupd_eq|left; by rewrite fupd_eq].
  apply (scratch_pte Hwf1 fill_scratch Hch); [by apply fill_root|done].
Qed.

Lemma fill_free : free_pages k2 n.
Proof.
  destruct (kalloc_free _ _ _ _ Hwf (proj1 Hul) Hfree) as (_ & _ & Hwf1 & _ & (l & Hrep & Hl)).
  exists l. split; [|done]. destruct (wf_free _ _ _ Hwf1) as (l' & Hrep' & _ & Hin).
  pose proof (freelist_rep_det _ _ _ _ Hrep Hrep') as <-.
  eapply (freelist_change use1 slot (popped k) m2 0 mem); [exact Hwf1|by left|apply fill_scratch|exact Hch| |exact Hrep].
  intros b Hb. apply Hin in Hb. split; [done|]. intros ->. by rewrite fupd_eq in Hb.
Qed.

Lemma fill_solid : same_solid use (k_mem k) m2.
Proof.
  destruct fill_head as [Hu (Hpl & _)]. pose proof (page_ok_pos _ (proj2 fill_head)).
  eapply (changes_solid use slot k m2 0 mem); [exact Hwf|by left|done| |intros [[E|E] _]; congruence].
  intros x Hx Hx'. rewrite Hch by done. by apply popped_out.
Qed.

Lemma fill_calm : calm k k2.
Proof. split; done. Qed.
End Fill.

Lemma has_lor fl : has fl PTE_V = true -> Z.lor fl PTE_V = fl.
Proof.
  unfold PTE_V. rewrite has_bit by lia. intros H. apply Z.bits_inj'. intros i Hi.
  rewrite Z.lor_spec, Z.shiftl_1_l, Z.pow2_bits_eqb by lia.
  destruct (Z.eqb_spec 0 i) as [<-|]; [by rewrite H|by rewrite orb_false_r].
Qed.

(** The page table entry of the child is empty where it sees nothing. *)
Lemma view_None m r va : view m r va = None ->
  has (pte_of m r va) PTE_V = false /\ has (pte_of m r va) PTE_S = false.
Proof. unfold view. destruct (has _ PTE_V); [done|]. by destruct (has _ PTE_S). Qed.

(** Allocation, filling and mapping of one page, put together: the page is
    filled by [fill], which leaves the rest of memory alone. *)
Lemma uvmcopy_map_wp use slot k r va fl p n m2 (Q : option Z -> kernel -> Prop) :
  vm_wf use slot k -> vm_unlocked k -> free_pages k (3 + n) -> is_root use r ->
  0 <= va < MAXVA -> va mod PGSIZE = 0 -> p_pagetable (k_procs k !!! p) = r -> view (k_mem k) r va = None ->
  0 <= fl < 1024 -> has fl PTE_V = true -> has fl PTE_S = false ->
  let mem := k_freelist k in
  changes (k_mem (popped k)) m2 0 mem -> mem_ok m2 ->
  (forall use' k', vm_wf use' slot k' -> free_pages k' n ->
     placed use (k <| k_mem := m2 |>) r va mem fl use' k' -> same_views use (k_mem k) m2 ->
     same_solid use (k_mem k) m2 -> Q None k') ->
  wp (uvmcopy_map r va mem fl p) Q ((popped k) <| k_mem := m2 |>).
Proof.
  intros Hwf Hul Hfree Hr Hva Hal Hp Hv Hfl HflV HflS mem Hch Hok HQ.
  apply view_None in Hv as [HnV HnS]. set (k2 := (popped k) <| k_mem := m2 |>).
  pose proof (fill_wf Hwf Hul Hfree Hch Hok) as Hwf2. pose proof (fill_free Hwf Hul Hfree Hch) as Hf2.
  pose proof (fill_views Hwf Hul Hfree Hch) as Hvw. pose proof (fill_pte Hwf Hul Hfree Hch r va Hr Hva) as Epte.
  destruct (fill_head Hwf Hul Hfree) as [Hu Hpg]. fold mem in Hwf2, Hpg, Hu. fold k2 in Hwf2, Hf2.
  assert (Hr2 : is_root (fupd mem Owned use) r) by (by apply (fill_root Hwf Hul Hfree)).
  assert (HnV2 : has (pte_of (k_mem k2) r va) PTE_V = false) by (subst k2; kproj; by rewrite Epte).
  destruct Hul as (Hlk & Hlf & Hls). assert (Ho : fupd mem Owned use mem = Owned) by apply fupd_eq.
  unfold uvmcopy_map. wp_steps. eapply wp_mono; [apply (mappages_wp (fupd mem Owned use) slot k2 r va mem fl n); done|].
  intros res k2' (-> & use3 & k3 & Hwf3 & Hg & Hf3 & Hne & ->). cbn [Z.eqb negb]. wp_steps.
  assert (Hheld : k_held k3 = k_held k) by (rewrite (gr_state _ _ _ _ Hg); by kproj).
  apply register_frame_wp; [kproj; by rewrite Hheld|]. wp_steps.
  assert (Efl : Z.lor (Z.lor (PA2PTE mem) fl) PTE_V = Z.lor (PA2PTE mem) fl).
  { rewrite <- Z.lor_assoc. f_equal. by apply has_lor. }
  rewrite Efl. fold (placing k3 r va mem fl p).
  assert (HnS3 : has (pte_of (k_mem k3) r va) PTE_S = false)
    by (rewrite (gr_pte _ _ _ _ Hg) by done; subst k2; kproj; by rewrite Epte).
  destruct (placing_mapped _ _ _ r va mem fl p Hwf3 Hpg Hfl HnS3) as (Hm & Hc & Hkeep).
  assert (Hp2 : p_pagetable (k_procs k2 !!! p) = r) by done.
  eapply HQ; [by eapply (place_wf Hwf2 Hr2 Hva Hal Ho Hp2 HnV2 Hfl HflV HflS Hwf3 Hg Hne Hm)
    |by eapply (place_free Hr2 Hva Ho Hwf3 Hg Hf3 Hne Hm)| |done|by apply (fill_solid Hwf (conj Hlk (conj Hlf Hls)) Hfree Hch)].
  pose proof (place_placed Hwf2 Hr2 Hva Ho Hfl HflV HflS Hwf3 Hg Hne Hm Hc Hkeep) as [P1 P2 P3 P4 P5 P6].
  split; [|done| | | |].
  - intros r'. rewrite P1. apply (fill_root Hwf (conj Hlk (conj Hlf Hls)) Hfree).
  - intros r' va' Hr'. apply P3. by apply (fill_root Hwf (conj Hlk (conj Hlf Hls)) Hfree).
  - destruct P4. by split.
  - intros x Hx Hxm. rewrite P5 by (rewrite ?fupd_ne by done; done). by rewrite fupd_ne.
  - intros P x HP Hx. apply (P6 P); [|done]. apply (solid_mono use); [|done].
    intros y Hy. apply fupd_ne. intros ->. congruence.
Qed.

(** ** [uvmcopy] *)

(** [k'] is [k] with the pages [lo <= vpn < hi] of [new] seen as those of
    [old]; no other page of any process is seen to change. *)
Record copied (use : Z -> usage) (k : kernel) (old new lo hi : Z) (use' : Z -> usage) (k' : kernel) : Prop := {
  co_root r : is_root use' r <-> is_root use r;
  co_view r va : is_root use r -> 0 <= va < MAXVA ->
    view (k_mem k') r va =
      if decide (r = new /\ lo <= va / PGSIZE < hi) then view (k_mem k) old va else view (k_mem k) r va;
  co_calm : calm k k';
  co_use x : use x <> Free -> use' x = use x;
  co_solid : same_solid use (k_mem k) (k_mem k')
}.

Lemma calm_refl k : calm k k.
Proof. by split. Qed.

Lemma copied_refl use k old new lo : copied use k old new lo lo use k.
Proof. split; [done| |apply calm_refl|done|done]. intros. by rewrite decide_False by lia. Qed.

Lemma copied_trans use k old new lo mid hi use1 k1 use2 k2 :
  old <> new -> is_root use old -> lo <= mid <= hi ->
  copied use k old new lo mid use1 k1 -> copied use1 k1 old new mid hi use2 k2 -> copied use k old new lo hi use2 k2.
Proof.
  intros Hne Hold Hle [R1 V1 C1 U1 S1] [R2 V2 C2 U2 S2]. split.
  - intros r. by rewrite R2, R1.
  - intros r va Hr Hva. rewrite V2, !V1 by (done || by apply R1).
    rewrite (decide_False (P := old = new /\ _)) by naive_solver.
    destruct (decide (r = new /\ lo <= va / PGSIZE < hi)) as [[-> H]|H].
    + destruct (decide (mid <= va / PGSIZE)); [by rewrite decide_True by lia|].
      by rewrite decide_False, decide_True by lia.
    + by rewrite !decide_False by (intros [-> ?]; apply H; lia).
  - by eapply calm_trans.
  - intros x Hx. rewrite U2; [by apply U1|by rewrite U1].
  - by eapply same_solid_trans.
Qed.

Lemma pte_of_vpn m r va va' : va / PGSIZE = va' / PGSIZE -> pte_of m r va = pte_of m r va'.
Proof. intros H. unfold pte_of. by rewrite (pte_addr_vpn _ _ _ _ H). Qed.

(** A page that neither page table has. *)
Lemma copied_none use k old new v :
  (forall va, 0 <= va < MAXVA -> va / PGSIZE = v -> view (k_mem k) old va = None /\ view (k_mem k) new va = None) ->
  copied use k old new v (v + 1) use k.
Proof.
  intros H. split; [done| |apply calm_refl|done|done]. intros r va Hr Hva.
  case_decide as E; [|done]. destruct E as [-> E]. destruct (H va Hva ltac:(lia)) as [-> ->]. done.
Qed.

(** A page that has been copied. *)
Lemma placed_copied use slot k old new v mem fl m2 use' k' :
  vm_wf use slot k -> is_root use old -> is_root use new -> 0 <= v * PGSIZE < MAXVA ->
  use mem = Free -> same_views use (k_mem k) m2 -> same_solid use (k_mem k) m2 ->
  (forall o, 0 <= o < PGSIZE -> view (k_mem k) old (v * PGSIZE + o) = Some (fl, m2 (mem + o))) ->
  placed use (k <| k_mem := m2 |>) new (v * PGSIZE) mem fl use' k' ->
  copied use k old new v (v + 1) use' k'.
Proof.
  intros Hwf Hold Hnew Hv Hu Hvw Hso Hsrc [P1 P2 P3 P4 P5 P6].
  split; [done| |by destruct P4; split|intros x Hx; apply P5; [done|congruence]|by eapply same_solid_trans].
  assert (Ev : v * PGSIZE / PGSIZE = v) by (by apply Z.div_mul).
  intros r va Hr Hva. case_decide as E.
  - destruct E as [-> E]. rewrite P2 by (rewrite ?Ev; lia). kproj.
    rewrite <- Hsrc by (by apply Z.mod_pos_bound). f_equal. daddr.
  - rewrite P3 by (done || (rewrite Ev; intros [-> ?]; apply E; lia)). kproj. by apply Hvw.
Qed.

Lemma set_mem_const k f : k <| k_mem ::= f |> = k <| k_mem := f (k_mem k) |>.
Proof. reflexivity. Qed.

Section CopyPage.
Context {use : Z -> usage} {slot : Z -> option (Z * Z)} {k : kernel} {old new v : Z} {np n : nat}
  (Hwf : vm_wf use slot k) (Hul : vm_unlocked k) (Hfree : free_pages k (3 + n))
  (Hold : is_root use old) (Hnew : is_root use new) (Hv : 0 <= v * PGSIZE < MAXVA)
  (Hp : p_pagetable (k_procs k !!! np) = new)
  (Hempty : forall va, 0 <= va < MAXVA -> va / PGSIZE = v -> view (k_mem k) new va = None).
Local Abbreviation va := (v * PGSIZE).
Local Abbreviation e := (pte_of (k_mem k) old va).
Local Abbreviation mem := (k_freelist k).

Lemma copy_vpn o : 0 <= o < PGSIZE -> 0 <= va + o < MAXVA /\ (va + o) / PGSIZE = v /\ (va + o) mod PGSIZE = o.
Proof. intros Ho. daddr. Qed.

(** A page of [PGSIZE] bytes at [src], apart from the fresh page, is copied
    and mapped. *)
Lemma copy_source src fl (Q : option Z -> kernel -> Prop) :
  src + PGSIZE <= mem \/ mem + PGSIZE <= src ->
  0 <= fl < 1024 -> has fl PTE_V = true -> has fl PTE_S = false ->
  (forall o, 0 <= o < PGSIZE -> view (k_mem k) old (va + o) = Some (fl, k_mem k (src + o))) ->
  (forall use' k', vm_wf use' slot k' -> free_pages k' n -> copied use k old new v (v + 1) use' k' -> Q None k') ->
  wp (let! mem := kalloc_or_evict in
      if mem =? 0 then ret (Some va)
      else do! kmemmove mem src PGSIZE; uvmcopy_map new va mem fl np) Q k.
Proof.
  intros Hd Hfl HflV HflS Hsrc HQ. destruct (fill_head Hwf Hul Hfree) as [Hu Hpg]. pose proof (page_ok_pos _ Hpg).
  wp_steps. eapply wp_Ret; [by apply (fill_alloc Hwf Hul Hfree)|]. cbv beta.
  rewrite (proj2 (Z.eqb_neq mem 0)) by addr. wp_steps.
  destruct (kalloc_free _ _ _ _ Hwf (proj1 Hul) Hfree) as (_ & _ & Hwf1 & _).
  pose proof (wf_mem _ _ _ Hwf1) as Hok1. set (m2 := memmove (k_mem (popped k)) mem src PGSIZE).
  assert (Hch : changes (k_mem (popped k)) m2 0 mem) by (intros x _ Hx; apply memmove_out; [done|done|lia]).
  assert (Hcopy : forall o, 0 <= o < PGSIZE -> m2 (mem + o) = k_mem k (src + o)).
  { intros o Ho. subst m2. rewrite memmove_in by (exact Hok1 || lia). rewrite Z.add_simpl_l.
    unfold popped. kproj. apply memset_out; [exact (Z.lt_le_incl 0 PGSIZE eq_refl)|lia]. }
  assert (Hok2 : mem_ok m2) by (apply memmove_ok; [exact (Z.lt_le_incl 0 PGSIZE eq_refl)|exact Hok1]).
  rewrite (set_mem_const (popped k)). cbv beta. fold m2. clearbody m2.
  eapply (uvmcopy_map_wp use slot k new va fl np n m2); [exact Hwf|exact Hul|exact Hfree|exact Hnew|exact Hv
    |by apply Z.mod_mul|exact Hp| |exact Hfl|exact HflV|exact HflS|exact Hch|exact Hok2|].
  - apply Hempty; [exact Hv|by apply Z.div_mul].
  - intros use' k' Hwf' Hf' Hpl Hvw Hso. apply (HQ use'); [exact Hwf'|exact Hf'|].
    eapply (placed_copied use slot); [exact Hwf|exact Hold|exact Hnew|exact Hv|exact Hu|exact Hvw|exact Hso| |exact Hpl].
    intros o Ho. by rewrite Hsrc, Hcopy.
Qed.

Lemma uvmcopy_page_wp (Q : option Z -> kernel -> Prop) :
  (forall use' k', vm_wf use' slot k' -> free_pages k' n -> copied use k old new v (v + 1) use' k' -> Q None k') ->
  wp (uvmcopy_page old new va np) Q k.
Proof.
  intros HQ. assert (Ev : va / PGSIZE = v) by (by apply Z.div_mul).
  assert (Hf' : free_pages k n) by (by eapply free_pages_mono; [|exact Hfree]; lia).
  assert (Hsame : (has e PTE_V = false /\ has e PTE_S = false) -> copied use k old new v (v + 1) use k).
  { intros [HV HS]. apply copied_none. intros va' Hva' Ev'. split; [|by apply Hempty].
    unfold view. rewrite (pte_of_vpn _ _ va' va) by lia. by rewrite HV, HS. }
  assert (Hview : forall o, 0 <= o < PGSIZE -> pte_of (k_mem k) old (va + o) = e).
  { intros o Ho. apply pte_of_vpn. rewrite Ev. by apply copy_vpn. }
  destruct (fill_head Hwf Hul Hfree) as [Hu Hpg]. pose proof (PTE_FLAGS_range e).
  unfold uvmcopy_page. wp_steps. eapply wp_Ret; [apply walk_noalloc; lia|]. cbv beta.
  destruct (Z.eqb_spec (pte_addr (k_mem k) old va) 0) as [E|E].
  { apply wp_ret. apply (HQ use); [done|done|]. apply Hsame. unfold pte_of. by rewrite E. }
  wp_step. unfold load64. wp_step.
  assert (El : ld64 (k_mem k) (pte_addr (k_mem k) old va) = e)
    by (unfold pte_of; by rewrite (proj2 (Z.eqb_neq _ _)) by done).
  rewrite El. destruct (has e PTE_V) eqn:HV; [|destruct (has e PTE_S) eqn:HS].
  - destruct (wf_leaf _ _ _ Hwf old va Hold Hv HV) as [(Hd & HnS)|(Hd & _ & _ & _ & HnS)];
      (apply copy_source; [|done|unfold PTE_V; by rewrite has_flags|unfold PTE_S; by rewrite has_flags| |done];
      [apply pages_disjoint; [apply PTE2PA_aligned|apply Hpg|intros E'; congruence]|]);
      intros o Ho; unfold view; rewrite Hview by done; rewrite HV;
      destruct (copy_vpn o Ho) as (_ & _ & ->); done.
  - destruct (wf_swap _ _ _ Hwf old va Hold Hv HV HS) as (Hs & _). destruct (restored_spec e) as (Hrng & HrV & HrS).
    rewrite i32_id by (unfold MAX_SP in *; lia).
    apply copy_source; [|done|done|done| |done].
    + right. pose proof (swap_addr_page (Z.shiftr e 10)). destruct Hpg as (_ & _ & ?). lia.
    + intros o Ho. unfold view. rewrite Hview by done. rewrite HV, HS. rewrite i32_id by (unfold MAX_SP in *; lia).
      destruct (copy_vpn o Ho) as (_ & _ & ->). done.
  - apply wp_ret. apply (HQ use); [done|done|]. by apply Hsame.
Qed.
End CopyPage.

Lemma uvmcopy_wp use slot k old new sz np n (N := pages_between 0 sz) :
  vm_wf use slot k -> vm_unlocked k -> free_pages k (3 * N + n) -> is_root use old -> is_root use new -> old <> new ->
  0 <= sz <= MAXVA -> p_pagetable (k_procs k !!! np) = new ->
  (forall va, 0 <= va < MAXVA -> va / PGSIZE < Z.of_nat N -> view (k_mem k) new va = None) ->
  wp (uvmcopy old new sz np) (fun res k' => res = 0 /\ exists use',
    vm_wf use' slot k' /\ free_pages k' n /\ copied use k old new 0 (Z.of_nat N) use' k') k.
Proof.
  intros Hwf Hul Hfree Hold Hnew Hne Hsz Hp Hempty. unfold uvmcopy. wp_step. fold N.
  assert (HN : Z.of_nat N * PGSIZE <= MAXVA) by (subst N; unfold pages_between; daddr).
  eapply wp_mono; [apply (wp_for_until N 0 _
    (fun j k1 => exists use1, vm_wf use1 slot k1 /\ free_pages k1 (3 * (N - Z.to_nat j) + n) /\
       copied use k old new 0 j use1 k1) (fun _ _ => False))|].
  - exists use. split; [done|]. split; [by rewrite Nat.sub_0_r|apply copied_refl].
  - intros j k1 Hj (use1 & Hwf1 & Hf1 & Hc). pose proof Hc as [R1 V1 C1 _ _].
    replace (3 * (N - Z.to_nat j) + n)%nat with (3 + (3 * (N - Z.to_nat (j + 1)) + n))%nat in Hf1 by lia.
    assert (Hul1 : vm_unlocked k1) by (unfold vm_unlocked; by rewrite (cm_held _ _ C1)).
    apply (uvmcopy_page_wp Hwf1 Hul1 Hf1 (proj2 (R1 old) Hold) (proj2 (R1 new) Hnew)).
    + addr.
    + by rewrite (cm_table _ _ C1).
    + intros va Hva Ev. rewrite V1, decide_False by (done || lia). apply Hempty; [done|lia].
    + intros use2 k2 Hwf2 Hf2 Hc2. exists use2. split; [done|]. split; [done|].
      by apply (copied_trans use k old new 0 j (j + 1) use1 k1); [done|done|lia|..].
  - intros [a|] k1; [done|]. intros (use1 & Hwf1 & Hf1 & Hc). apply wp_ret. split; [done|].
    exists use1. rewrite Z.add_0_l in Hf1, Hc. split; [done|]. split; [|done].
    by rewrite Nat2Z.id, Nat.sub_diag in Hf1.
Qed.
End VmCopy.
