(* ===== verification/VmSpace.v ===== *)
(** * Creating and destroying address spaces (kernel/vm.c, kernel/proc.c)

    A new page table is empty but for the trampoline and the trap frame;
    unmapping gives pages back to the free list and swap slots back to the
    swap area, and freeing a page table gives back its pages. *)

From Stdlib Require Import ZArith Lia.
From stdpp Require Import base list strings sets.
From S2P Require Import Prelude Params Mem State Evict Kalloc Vm VmInv VmFault VmFaultSpec UserMem VmCopy.

Section VmSpace.
Context {L : Layout} {LO : LayoutOk L}.

(** An owned page becomes a page of the kernel. *)
Lemma own_other use slot k mem :
  vm_wf use slot k -> use mem = Owned -> vm_wf (fupd mem Other use) slot k.
Proof.
  intros Hwf Ho.
  assert (Htab : forall x r l pre, fupd mem Other use x = PTab r l pre <-> use x = PTab r l pre)
    by (intros; unfold fupd; case_decide as E; [by rewrite E, Ho|done]).
  assert (Hsame : forall x, use x <> Owned -> fupd mem Other use x = use x) by (intros x Hx; apply fupd_ne; by intros ->).
  split; try apply Hwf.
  - pose proof (wf_pt _ _ _ Hwf) as Hpt. split.
    + intros a. unfold fupd. case_decide; [done|apply (pt_page _ _ Hpt)].
    + intros a r l pre. rewrite !Htab. apply (pt_root _ _ Hpt).
    + intros a b r l pre. rewrite !Htab. apply (pt_inj _ _ Hpt).
    + intros a r l pre i. rewrite !Htab. apply (pt_node _ _ Hpt).
    + intros a r l pre. rewrite Htab. apply (pt_level _ _ Hpt).
    + intros b r l pre. rewrite Htab. intros Hb Hl. destruct (pt_link _ _ Hpt _ _ _ _ Hb Hl) as (a & Ha & ?).
      exists a. by rewrite Htab.
    + intros a r l pre i. rewrite Htab. apply (pt_plain _ _ Hpt).
    + intros a r pre. rewrite Htab. apply (pt_low _ _ Hpt).
  - intros r va Hr Hva HV. apply Htab in Hr.
    destruct (wf_leaf _ _ _ Hwf r va Hr Hva HV) as [[Hd HS]|[Hd ?]]; [left|right]; by rewrite Hsame by (by rewrite Hd).
  - destruct (wf_free _ _ _ Hwf) as (l & Hrep & Hnd & Hl). exists l. split; [done|]. split; [done|].
    intros a. rewrite Hl. unfold fupd. case_decide as E; [by rewrite E, Ho|done].
  - intros r va Hr. apply Htab in Hr. by apply (wf_swap _ _ _ Hwf).
  - intros j Hj p Hu Hp. destruct (wf_frame _ _ _ Hwf j Hj p Hu Hp) as (Hr & Hva & Hal & HV & Hpa & Hd).
    cbv zeta. unfold is_root. rewrite Htab, (Hsame (PTE2PA _)) by (by rewrite Hd). done.
Qed.

(** ** A new page table *)
Section NewRoot.
Context {use : Z -> usage} {slot : Z -> option (Z * Z)} {k : kernel} {mem : Z}
  (Hwf : vm_wf use slot k) (Hown : use mem = Owned)
  (Hzero : forall j, 0 <= j < 512 -> ld64 (k_mem k) (mem + 8 * j) = 0).
Definition use_root : Z -> usage := fupd mem (PTab mem 2 0) use.

Lemma use_root_old x r l pre : use x = PTab r l pre -> use_root x = PTab r l pre.
Proof. intros H. unfold use_root. rewrite fupd_ne; [done|]. intros ->. congruence. Qed.

Lemma use_root_inv x r l pre : use_root x = PTab r l pre ->
  use x = PTab r l pre \/ (x = mem /\ r = mem /\ l = 2%nat /\ pre = 0).
Proof. unfold use_root, fupd. case_decide as E; [|by left]. intros [= <- <- <-]. by right. Qed.

Lemma use_root_root r : is_root use_root r <-> is_root use r \/ r = mem.
Proof.
  split.
  - intros [?|(-> & _)]%use_root_inv; [by left|by right].
  - intros [?| ->]; [by apply use_root_old|]. apply fupd_eq.
Qed.

Lemma use_root_same x : use x <> Owned -> use_root x = use x.
Proof. intros H. apply fupd_ne. by intros ->. Qed.

(** No page belonged to the new table. *)
Lemma root_fresh x l pre : use x <> PTab mem l pre.
Proof. intros H. pose proof (pt_root _ _ (wf_pt _ _ _ Hwf) _ _ _ _ H). congruence. Qed.

Lemma root_pte va : 0 <= va < MAXVA -> pte_of (k_mem k) mem va = 0.
Proof.
  intros Hva. unfold pte_of, pte_addr. cbn [pt_walk]. pose proof (PX_range (Z.of_nat 2) va ltac:(lia)).
  by rewrite Hzero.
Qed.

Lemma root_pt_ok : pt_ok use_root (k_mem k).
Proof.
  pose proof (wf_pt _ _ _ Hwf) as Hpt. split.
  - intros x. unfold use_root, fupd. case_decide as E; [|apply (pt_page _ _ Hpt)].
    intros _. apply (pt_page _ _ Hpt). by rewrite E, Hown.
  - intros x r l pre [Hx|(_ & -> & _)]%use_root_inv; [|apply fupd_eq].
    apply use_root_old. by eapply (pt_root _ _ Hpt).
  - intros x y r l pre [Hx|(-> & -> & -> & ->)]%use_root_inv [Hy|(-> & Er & El & Ep)]%use_root_inv.
    + by eapply (pt_inj _ _ Hpt).
    + subst. by apply root_fresh in Hx.
    + by apply root_fresh in Hy.
    + done.
  - intros x r l pre j [Hx|(-> & _)]%use_root_inv Hj HV.
    + apply use_root_old. by apply (pt_node _ _ Hpt).
    + by rewrite Hzero in HV.
  - intros x r l pre [Hx|(-> & -> & -> & ->)]%use_root_inv; [by eapply (pt_level _ _ Hpt)|]. split; [lia|done].
  - intros b r l pre [Hb|(_ & _ & -> & _)]%use_root_inv Hl; [|lia].
    destruct (pt_link _ _ Hpt _ _ _ _ Hb Hl) as (x & Hx & ?). exists x. split; [by apply use_root_old|done].
  - intros x r l pre j [Hx|(-> & _)]%use_root_inv Hj HV; [by apply (pt_plain _ _ Hpt _ _ _ _ _ Hx)|by rewrite Hzero in HV].
  - intros x r pre [Hx|(_ & _ & ? & _)]%use_root_inv; [by eapply (pt_low _ _ Hpt)|done].
Qed.

Lemma root_wf : vm_wf use_root slot k.
Proof.
  split; try apply Hwf.
  - apply root_pt_ok.
  - intros r va [Hr| ->]%use_root_root Hva; unfold leaf_ok; [|by rewrite root_pte]. intros HV.
    destruct (wf_leaf _ _ _ Hwf r va Hr Hva HV) as [[Hd HS]|[Hd ?]]; [left|right];
      by rewrite use_root_same by (by rewrite Hd).
  - destruct (wf_free _ _ _ Hwf) as (l & Hrep & Hnd & Hl). exists l. split; [done|]. split; [done|].
    intros a. rewrite Hl. unfold use_root, fupd. case_decide as E; [by rewrite E, Hown|done].
  - intros r va [Hr| ->]%use_root_root Hva; [by apply (wf_swap _ _ _ Hwf)|].
    unfold swap_entry_ok. by rewrite root_pte.
  - intros j Hj p Hu Hp. destruct (wf_frame _ _ _ Hwf j Hj p Hu Hp) as (Hr & Hva & Hal & HV & Hpa & Hd).
    cbv zeta. rewrite use_root_root, use_root_same by (by rewrite Hd). naive_solver.
Qed.
End NewRoot.

(** ** Replacing one entry *)

Section Entry.
Context {use : Z -> usage} {slot : Z -> option (Z * Z)} {k : kernel} {m' : memory} {r va v P : Z}
  (Hwf : vm_wf use slot k) (Hr : is_root use r) (Hva : 0 <= va < MAXVA) (Hne : pte_addr (k_mem k) r va <> 0)
  (HP : scratch use (k_swap_mask k) P) (Hch : changes (k_mem k) m' (pte_addr (k_mem k) r va) P)
  (Hld : ld64 m' (pte_addr (k_mem k) r va) = v).
Local Abbreviation m := (k_mem k).

Lemma entry_in : in_table use (pte_addr m r va).
Proof. by apply pte_in_table; [apply (wf_pt _ _ _ Hwf)|..]. Qed.

Lemma entry_tables : @tables_upd use m m' (pte_addr m r va) v.
Proof. rewrite <- Hld. eapply tables_change; [done|right; apply entry_in|done|done]. Qed.

Lemma entry_pte r' va' : is_root use r' -> 0 <= va' < MAXVA ->
  pte_of m' r' va' = if decide (r' = r /\ va' / PGSIZE = va / PGSIZE) then v else pte_of m r' va'.
Proof. intros. by apply (pte_of_upd (wf_pt _ _ _ Hwf) Hr Hva Hne entry_tables). Qed.

Lemma entry_addr r' va' : is_root use r' -> 0 <= va' < MAXVA -> pte_addr m' r' va' = pte_addr m r' va'.
Proof. intros. by apply (pte_addr_upd (wf_pt _ _ _ Hwf) Hr Hva Hne entry_tables). Qed.

Lemma entry_view r' va' : is_root use r' -> 0 <= va' < MAXVA -> ~ (r' = r /\ va' / PGSIZE = va / PGSIZE) ->
  (has (pte_of m r' va') PTE_V = true -> PTE2PA (pte_of m r' va') <> P) -> view m' r' va' = view m r' va'.
Proof.
  intros Hr' Hva' Hn HnP. eapply view_apart; [done|right; apply entry_in|done|done|done|done| |done].
  by rewrite entry_pte, decide_False.
Qed.

(** Page tables keep their shape when the other pages change their use. *)
Lemma entry_pt_ok use' :
  (forall x r l pre, use' x = PTab r l pre <-> use x = PTab r l pre) ->
  (forall x, use' x <> Other -> page_ok x) -> pt_ok use' m'.
Proof.
  intros Htab Hpg. eapply pt_ok_keep; [apply (wf_pt _ _ _ Hwf)|apply entry_tables| |done|done].
  intros. by eapply (dir_entry_ne (wf_pt _ _ _ Hwf)).
Qed.
End Entry.

(** No physical page is the page outside of memory. *)
Lemma leaf_not_nopage use slot k r va : vm_wf use slot k -> is_root use r -> 0 <= va < MAXVA ->
  has (pte_of (k_mem k) r va) PTE_V = true -> PTE2PA (pte_of (k_mem k) r va) <> nopage.
Proof.
  intros Hwf Hr Hva HV E. assert (PHYSTOP <= nopage) by done.
  destruct (wf_leaf _ _ _ Hwf r va Hr Hva HV) as [[Hd _]|(_ & _ & _ & ? & _)]; [|addr].
  destruct (pt_page _ _ (wf_pt _ _ _ Hwf) (PTE2PA (pte_of (k_mem k) r va)) ltac:(by rewrite Hd)) as (_ & _ & ?). addr.
Qed.

(** ** Mapping a page of the kernel *)
Section KMap.
Context {use : Z -> usage} {slot : Z -> option (Z * Z)} {k : kernel} {r va pa fl : Z}
  (Hwf : vm_wf use slot k) (Hr : is_root use r) (Hva : 0 <= va < MAXVA) (Hne : pte_addr (k_mem k) r va <> 0)
  (HnV : has (pte_of (k_mem k) r va) PTE_V = false)
  (Hpa : use pa = Other) (Hal : pa mod PGSIZE = 0) (Hrng : 0 < pa /\ pa + PGSIZE <= PHYSTOP)
  (Hfl : 0 <= fl < 1024) (HflV : has fl PTE_V = true) (HflS : has fl PTE_S = false) (HflU : has fl PTE_U = false).
Local Abbreviation m := (k_mem k).
Local Abbreviation v := (Z.lor (PA2PTE pa) fl).
Local Abbreviation m' := (st64 (k_mem k) (pte_addr (k_mem k) r va) v).
Local Abbreviation k' := (k <| k_mem ::= fun m => st64 m (pte_addr (k_mem k) r va) v |>).

Lemma kmap_entry : PTE2PA v = pa /\ u64 v = v /\ has v PTE_V = true /\ has v PTE_S = false /\ has v PTE_U = false.
Proof.
  rewrite PTE2PA_build by daddr. unfold PTE_V, PTE_S, PTE_U in *. rewrite !has_build by lia.
  rewrite PTE_build by done. rewrite u64_id by daddr. done.
Qed.

Lemma kmap_changes : changes m m' (pte_addr m r va) nopage.
Proof. intros x Hx _. apply st64_out. lia. Qed.

Lemma kmap_ld : ld64 m' (pte_addr m r va) = v.
Proof. rewrite ld64_st64. apply kmap_entry. Qed.

Lemma kmap_pte r' va' : is_root use r' -> 0 <= va' < MAXVA ->
  pte_of m' r' va' = if decide (r' = r /\ va' / PGSIZE = va / PGSIZE) then v else pte_of m r' va'.
Proof. apply (entry_pte Hwf Hr Hva Hne (nopage_scratch _ _) kmap_changes kmap_ld). Qed.

Lemma kmap_view r' va' : is_root use r' -> 0 <= va' < MAXVA -> ~ (r' = r /\ va' / PGSIZE = va / PGSIZE) ->
  view m' r' va' = view m r' va'.
Proof.
  intros Hr' Hva' Hn. apply (entry_view Hwf Hr Hva Hne (nopage_scratch _ _) kmap_changes kmap_ld); try done.
  by eapply leaf_not_nopage.
Qed.

Lemma kmap_wf : vm_wf use slot k'.
Proof.
  destruct kmap_entry as (Epa & _ & EV & ES & EU). split; kproj; try apply Hwf.
  - apply st64_ok, (wf_mem _ _ _ Hwf).
  - apply (entry_pt_ok Hwf Hr Hva Hne (nopage_scratch _ _) kmap_changes kmap_ld); [done|].
    apply (pt_page _ _ (wf_pt _ _ _ Hwf)).
  - intros r' va' Hr' Hva'. unfold leaf_ok. rewrite kmap_pte by done. case_decide; [|by apply (wf_leaf _ _ _ Hwf)].
    intros _. right. rewrite Epa. by destruct Hrng.
  - destruct (wf_free _ _ _ Hwf) as (l & Hrep & Hnd & Hl). exists l. split; [|done].
    eapply freelist_change; [done|right; by apply (entry_in Hwf Hr Hva Hne)|apply nopage_scratch|apply kmap_changes| |done].
    intros b Hb. apply Hl in Hb. split; [done|]. intros ->.
    destruct (pt_page _ _ (wf_pt _ _ _ Hwf) nopage ltac:(by rewrite Hb)) as (_ & _ & ?). done.
  - intros r' va' Hr' Hva'. unfold swap_entry_ok. kproj. rewrite kmap_pte by done.
    case_decide; [by rewrite EV|by apply (wf_swap _ _ _ Hwf)].
  - intros j Hj q Hu Hq. cbv zeta. kproj. unfold frame_at in *. revert Hu Hq. kproj. intros Hu Hq.
    destruct (wf_frame _ _ _ Hwf j Hj q Hu Hq) as (Hr' & Hva' & Hal' & HV' & Hrest).
    unfold frame_at in *. rewrite kmap_pte by done. rewrite decide_False; [done|].
    intros [E1 E2]. rewrite E1, (pte_of_vpn _ _ _ _ E2) in HV'. congruence.
Qed.
End KMap.

(** ** The steps of [proc_pagetable] *)

(** What the creation of page tables keeps: uses, the kernel's pages, and the
    processes. *)
Record extends (use : Z -> usage) (k : kernel) (use' : Z -> usage) (k' : kernel) : Prop := {
  ex_use x : use x <> Free -> use' x = use x;
  ex_solid : same_solid use (k_mem k) (k_mem k');
  ex_calm : calm k k'
}.

Lemma extends_trans use1 k1 use2 k2 use3 k3 :
  extends use1 k1 use2 k2 -> extends use2 k2 use3 k3 -> extends use1 k1 use3 k3.
Proof.
  intros [U1 S1 C1] [U2 S2 C2]. split.
  - intros x Hx. rewrite U2; [by apply U1|by rewrite U1].
  - by eapply same_solid_trans.
  - by eapply calm_trans.
Qed.

Lemma extends_root use k use' k' r : extends use k use' k' -> is_root use r -> is_root use' r.
Proof. intros H Hr. unfold is_root. by rewrite (ex_use _ _ _ _ H), Hr by (by rewrite Hr). Qed.

Lemma uvmcreate_wp use slot k n :
  vm_wf use slot k -> vm_unlocked k -> free_pages k (S n) ->
  wp uvmcreate (fun r k' => exists use', vm_wf use' slot k' /\ extends use k use' k' /\ free_pages k' n /\
    use r = Free /\ page_ok r /\ (forall r', is_root use' r' <-> is_root use r' \/ r' = r) /\
    same_views use (k_mem k) (k_mem k') /\ forall va, 0 <= va < MAXVA -> pte_of (k_mem k') r va = 0) k.
Proof.
  intros Hwf Hul Hfree. destruct (fill_head Hwf Hul Hfree) as [Hu Hpg].
  destruct (kalloc_free _ _ _ _ Hwf (proj1 Hul) Hfree) as (Hk & _ & Hwf1 & _). unfold uvmcreate. wp_steps.
  eapply wp_Ret; [exact Hk|]. cbv beta. pose proof (page_ok_pos _ Hpg).
  rewrite (proj2 (Z.eqb_neq _ 0)) by addr. wp_steps.
  set (mem := k_freelist k) in *. set (m2 := memset (k_mem (popped k)) mem 0 PGSIZE).
  assert (Hch : changes (k_mem (popped k)) m2 0 mem) by (intros x _ Hx; apply memset_out; [done|lia]).
  assert (Hok : mem_ok m2) by (apply memset_ok; [done|apply (wf_mem _ _ _ Hwf1)]).
  assert (Hz : forall j, 0 <= j < 512 -> ld64 m2 (mem + 8 * j) = 0).
  { intros j Hj. transitivity (ld64 (fun _ => 0) (mem + 8 * j)); [|done].
    apply ld64_ext. intros o Ho. subst m2. rewrite memset_in by addr. done. }
  rewrite (set_mem_const (popped k)). cbv beta. fold m2. clearbody m2.
  pose proof (fill_wf Hwf Hul Hfree Hch Hok) as Hwf2. fold mem in Hwf2.
  assert (Ho : fupd mem Owned use mem = Owned) by apply fupd_eq.
  exists (use_root (use := fupd mem Owned use) (mem := mem)).
  split; [exact (root_wf Hwf2 Ho Hz)|]. split; [|split; [|split; [done|split; [done|split; [|split]]]]].
  - split.
    + intros x Hx. assert (x <> mem) by congruence. unfold use_root. by rewrite !fupd_ne.
    + apply (fill_solid Hwf Hul Hfree Hch).
    + apply fill_calm.
  - apply (fill_free Hwf Hul Hfree Hch).
  - intros r'. rewrite (use_root_root Ho). pose proof (fill_root Hwf Hul Hfree r') as E. fold mem in E. by rewrite E.
  - apply (fill_views Hwf Hul Hfree Hch).
  - intros va Hva. exact (root_pte (k := (popped k) <| k_mem := m2 |>) (mem := mem) Hz va Hva).
Qed.

Lemma kmap_wp use slot k r va pa perm n (fl := Z.lor perm PTE_V) :
  vm_wf use slot k -> L_kmem ∉ k_held k -> free_pages k (2 + n) -> is_root use r ->
  0 <= va < MAXVA -> va mod PGSIZE = 0 -> has (pte_of (k_mem k) r va) PTE_V = false ->
  use pa = Other -> pa mod PGSIZE = 0 -> 0 < pa /\ pa + PGSIZE <= PHYSTOP ->
  0 <= fl < 1024 -> has fl PTE_V = true -> has fl PTE_S = false -> has fl PTE_U = false ->
  wp (mappages r va PGSIZE pa perm) (fun res k' => res = 0 /\ exists use', vm_wf use' slot k' /\
    extends use k use' k' /\ free_pages k' n /\ (forall r', is_root use' r' <-> is_root use r') /\
    (forall r' va', is_root use r' -> 0 <= va' < MAXVA -> ~ (r' = r /\ va' / PGSIZE = va / PGSIZE) ->
       view (k_mem k') r' va' = view (k_mem k) r' va') /\
    forall va', 0 <= va' < MAXVA ->
      pte_of (k_mem k') r va' = if decide (va' / PGSIZE = va / PGSIZE) then Z.lor (PA2PTE pa) fl else pte_of (k_mem k) r va') k.
Proof.
  intros Hwf Hlk Hfree Hr Hva Hal HnV Hpa Hpal Hrng Hfl HflV HflS HflU.
  eapply wp_mono; [by apply (mappages_wp use slot k r va pa perm n)|].
  intros res k' (-> & use3 & k3 & Hwf3 & Hg & Hf3 & Hne & ->). split; [done|]. exists use3.
  rewrite <- Z.lor_assoc. fold fl. pose proof (proj2 (gr_root _ _ _ _ Hg r) Hr) as Hr3.
  assert (Hpa3 : use3 pa = Other) by (by rewrite (gr_use _ _ _ _ Hg), Hpa by (by rewrite Hpa)).
  assert (HnV3 : has (pte_of (k_mem k3) r va) PTE_V = false) by (by rewrite (gr_pte _ _ _ _ Hg)).
  pose proof (kmap_changes (k := k3) (r := r) (va := va) (pa := pa) (fl := fl)) as Hch.
  split; [by apply (kmap_wf Hwf3 Hr3 Hva Hne HnV3 Hpa3 Hpal Hrng Hfl HflV HflS HflU)|].
  split; [|split; [|split; [apply (gr_root _ _ _ _ Hg)|split]]].
  - split; [apply (gr_use _ _ _ _ Hg)| |].
    + apply (same_solid_trans use use3 _ (k_mem k3)); [apply (gr_use _ _ _ _ Hg)|apply (gr_solid _ _ _ _ Hg)|].
      apply (changes_solid use3 slot k3 _ _ nopage Hwf3 (or_intror (entry_in Hwf3 Hr3 Hva Hne)) eq_refl Hch).
      intros (_ & _ & _ & H). by apply H.
    + clear -Hg. rewrite (gr_state _ _ _ _ Hg). split; kproj; intros; reflexivity.
  - destruct Hf3 as (l & Hrep & Hl). exists l. split; [|done]. kproj.
    destruct (wf_free _ _ _ Hwf3) as (l' & Hrep' & _ & Hin). pose proof (freelist_rep_det _ _ _ _ Hrep Hrep') as <-.
    eapply (freelist_change use3 slot k3); [exact Hwf3|right; by apply (entry_in Hwf3 Hr3 Hva Hne)
      |apply nopage_scratch|exact Hch| |exact Hrep].
    intros b Hb. apply Hin in Hb. split; [done|]. intros ->.
    destruct (pt_page _ _ (wf_pt _ _ _ Hwf3) nopage ltac:(by rewrite Hb)) as (_ & _ & ?). done.
  - intros r' va' Hr' Hva' Hn. kproj. rewrite (kmap_view Hwf3 Hr3 Hva Hne Hpal Hrng Hfl HflV HflS HflU) by (done || by apply (gr_root _ _ _ _ Hg)).
    by apply (gr_views _ _ _ _ Hg).
  - intros va' Hva'. kproj. rewrite (kmap_pte Hwf3 Hr3 Hva Hne Hpal Hrng Hfl HflV HflS HflU) by done.
    rewrite (gr_pte _ _ _ _ Hg) by done. by do 2 case_decide; naive_solver.
Qed.

(** The invariant does not depend on the rest of the kernel. *)
Lemma vm_wf_ext use slot k k' :
  vm_wf use slot k -> k_mem k' = k_mem k -> k_freelist k' = k_freelist k -> k_swap_mask k' = k_swap_mask k ->
  k_frames k' = k_frames k -> k_clock_p k' = k_clock_p k ->
  (forall p, is_root use (p_pagetable (k_procs k !!! p)) -> p_pagetable (k_procs k' !!! p) = p_pagetable (k_procs k !!! p)) ->
  vm_wf use slot k'.
Proof.
  intros Hwf Em Ef Es Efr Ec Hp. destruct Hwf as [W1 W2 W3 W4 W5 W6 W7 W8].
  split; unfold swap_wf, frames_wf in *; rewrite ?Em, ?Ef, ?Es, ?Efr, ?Ec; try done.
  - intros r va Hr Hva. unfold swap_entry_ok. rewrite Em, Es. by apply W6.
  - intros j Hj p. unfold frame_at. rewrite Efr. intros Hu Hfp. fold (frame_at k j) in *.
    pose proof (W8 j Hj p Hu Hfp) as H. cbv zeta in H |- *. rewrite Hp by apply H. by rewrite Em.
Qed.

Lemma not_root_0 use slot k : vm_wf use slot k -> ~ is_root use 0.
Proof.
  intros Hwf H. pose proof (page_ok_pos _ (pt_page _ _ (wf_pt _ _ _ Hwf) 0 ltac:(by rewrite H))). done.
Qed.

Lemma vm_wf_use use use' slot k : (forall x, use' x = use x) -> vm_wf use slot k -> vm_wf use' slot k.
Proof.
  intros E [W1 W2 W3 W4 W5 W6 W7 W8]. split; try done.
  - destruct W2. split; intros *; rewrite ?E; eauto. intros ? ?. setoid_rewrite E. eauto.
  - intros r va. unfold is_root, leaf_ok. rewrite !E. apply W3.
  - destruct W4 as (l & ? & ? & Hl). exists l. split; [done|]. split; [done|]. intros a. by rewrite E.
  - intros r va. unfold is_root. rewrite E. apply W6.
  - intros j Hj p. unfold frame_ok, is_root. cbv zeta. rewrite !E. apply (W8 j Hj p).
Qed.
End VmSpace.
