(* ===== verification/VmFree.v ===== *)
(** * Giving memory back

    uvmunmap and freewalk of kernel/vm.c, proc_freepagetable and freeproc of
    kernel/proc.c: every page and every swap slot of an address space returns
    to the allocator, and nothing else does. *)

From Stdlib Require Import ZArith Lia.
From stdpp Require Import base list strings sets.
From S2P Require Import Prelude Params Mem State Evict Kalloc Vm VmInv VmFault VmFaultSpec UserMem VmCopy VmSpace.

Section VmFree.
Context {L : Layout} {LO : LayoutOk L}.

(** ** Unmapped pages *)

Definition within (lo hi v : Z) : bool := (lo <=? v) && (v <? hi).

Lemma within_iff lo hi v : within lo hi v = true <-> lo <= v < hi.
Proof. unfold within. rewrite andb_true_iff, Z.leb_le, Z.ltb_lt. lia. Qed.

(** The pages [D] of the address space [r] have been unmapped. *)
Record unmapped (use : Z -> usage) (k : kernel) (r : Z) (D : Z -> bool) (use' : Z -> usage) (k' : kernel) : Prop := {
  um_ptab x r' l pre : use' x = PTab r' l pre <-> use x = PTab r' l pre;
  um_use x : use' x = use x \/ (use' x = Free /\ exists vpn, use x = Data r vpn);
  um_gone va : 0 <= va < MAXVA -> D (va / PGSIZE) = true ->
    has (pte_of (k_mem k') r va) PTE_V = false /\ has (pte_of (k_mem k') r va) PTE_S = false;
  um_pte r' va : is_root use r' -> 0 <= va < MAXVA -> ~ (r' = r /\ D (va / PGSIZE) = true) ->
    pte_of (k_mem k') r' va = pte_of (k_mem k) r' va /\ view (k_mem k') r' va = view (k_mem k) r' va;
  um_page va : 0 <= va < MAXVA -> D (va / PGSIZE) = true -> has (pte_of (k_mem k) r va) PTE_V = true ->
    use (PTE2PA (pte_of (k_mem k) r va)) <> Other -> use' (PTE2PA (pte_of (k_mem k) r va)) = Free;
  um_slot va : 0 <= va < MAXVA -> D (va / PGSIZE) = true ->
    has (pte_of (k_mem k) r va) PTE_V = false -> has (pte_of (k_mem k) r va) PTE_S = true ->
    aget (k_swap_mask k') (Z.shiftr (pte_of (k_mem k) r va) 10) = 0;
  um_mask i : 0 <= i < MAX_SP -> aget (k_swap_mask k') i = aget (k_swap_mask k) i \/
    (aget (k_swap_mask k') i = 0 /\ exists va, 0 <= va < MAXVA /\
       has (pte_of (k_mem k) r va) PTE_V = false /\ has (pte_of (k_mem k) r va) PTE_S = true /\
       i = Z.shiftr (pte_of (k_mem k) r va) 10);
  um_solid : same_solid use (k_mem k) (k_mem k');
  um_calm : calm k k'
}.

Lemma unmapped_root use k r D use' k' r' : unmapped use k r D use' k' -> is_root use' r' <-> is_root use r'.
Proof. intros H. apply (um_ptab _ _ _ _ _ _ H). Qed.

Lemma unmapped_refl use k r D : (forall v, D v = false) -> unmapped use k r D use k.
Proof. intros HD. split; intros; try done; try (by rewrite HD in *); by left. Qed.

Lemma unmapped_none use slot k r va (v := va / PGSIZE) : vm_wf use slot k ->
  has (pte_of (k_mem k) r va) PTE_V = false -> has (pte_of (k_mem k) r va) PTE_S = false ->
  unmapped use k r (within v (v + 1)) use k.
Proof.
  intros Hwf HV HS.
  assert (Hv : forall va', within v (v + 1) (va' / PGSIZE) = true -> pte_of (k_mem k) r va' = pte_of (k_mem k) r va)
    by (intros va' Hw%within_iff; apply pte_of_vpn; lia).
  split; try done; try (intros va' _ Hr; rewrite (Hv _ Hr); try congruence; done); intros; by left.
Qed.

(** An entry that stays was there, and one that is left is the old one. *)
Lemma unmapped_old use k r D use' k' va : is_root use r -> unmapped use k r D use' k' -> 0 <= va < MAXVA ->
  has (pte_of (k_mem k') r va) PTE_V = true \/ has (pte_of (k_mem k') r va) PTE_S = true ->
  pte_of (k_mem k') r va = pte_of (k_mem k) r va.
Proof.
  intros Hr H Hva HVS. destruct (D (va / PGSIZE)) eqn:E.
  - destruct (um_gone _ _ _ _ _ _ H va Hva E). destruct HVS; congruence.
  - apply (um_pte _ _ _ _ _ _ H); [done|done|]. intros [_ ?]. congruence.
Qed.

Lemma unmapped_trans use slot k r D1 D2 D use1 k1 use2 k2 : vm_wf use slot k -> is_root use r ->
  unmapped use k r D1 use1 k1 -> unmapped use1 k1 r D2 use2 k2 -> (forall v, D v = D1 v || D2 v) ->
  unmapped use k r D use2 k2.
Proof.
  intros Hwf Hr H1 H2 HD. pose proof (fun r' => unmapped_root _ _ _ _ _ _ r' H1) as Hr1.
  assert (Hlate : forall va, 0 <= va < MAXVA -> D1 (va / PGSIZE) = false -> pte_of (k_mem k1) r va = pte_of (k_mem k) r va)
    by (intros; apply (um_pte _ _ _ _ _ _ H1); [done|done|intros [_ ?]; congruence]).
  assert (Hfree : forall x, use1 x = Free -> use2 x = Free)
    by (intros x Hx; destruct (um_use _ _ _ _ _ _ H2 x) as [->|[-> _]]; done).
  assert (HD' : forall v, D v = true -> D1 v = true \/ (D1 v = false /\ D2 v = true)).
  { intros v. rewrite HD. destruct (D1 v); [by left|by right]. }
  split.
  - intros. by rewrite (um_ptab _ _ _ _ _ _ H2), (um_ptab _ _ _ _ _ _ H1).
  - intros x. destruct (um_use _ _ _ _ _ _ H2 x) as [->|(E2 & v' & Hd')]; [apply (um_use _ _ _ _ _ _ H1)|right].
    split; [done|]. destruct (um_use _ _ _ _ _ _ H1 x) as [<-|[_ ?]]; [by exists v'|done].
  - intros va Hva [E|[E E']]%HD'; [|by apply (um_gone _ _ _ _ _ _ H2)].
    destruct (um_gone _ _ _ _ _ _ H1 va Hva E) as [G1 G2].
    destruct (D2 (va / PGSIZE)) eqn:E2; [by apply (um_gone _ _ _ _ _ _ H2)|].
    destruct (um_pte _ _ _ _ _ _ H2 r va) as [-> _]; [by apply Hr1|done|intros [_ ?]; congruence|done].
  - intros r' va Hr' Hva Hin. rewrite HD, orb_true_iff in Hin.
    destruct (um_pte _ _ _ _ _ _ H1 r' va) as [E1 E2]; [done|done|tauto|].
    destruct (um_pte _ _ _ _ _ _ H2 r' va) as [E3 E4]; [by apply Hr1|done|tauto|]. split; congruence.
  - intros va Hva [E|[E E']]%HD' HV HO; [by apply Hfree, (um_page _ _ _ _ _ _ H1)|].
    rewrite <- Hlate in * by done. apply (um_page _ _ _ _ _ _ H2); [done|done|done|].
    destruct (um_use _ _ _ _ _ _ H1 (PTE2PA (pte_of (k_mem k1) r va))) as [->|[-> _]]; done.
  - intros va Hva [E|[E E']]%HD' HV HS; [|rewrite <- Hlate in * by done; by apply (um_slot _ _ _ _ _ _ H2)].
    pose proof (um_slot _ _ _ _ _ _ H1 va Hva E HV HS) as E0.
    destruct (wf_swap _ _ _ Hwf r va Hr Hva HV HS) as (Hi & _).
    destruct (um_mask _ _ _ _ _ _ H2 _ Hi) as [->|[-> _]]; done.
  - intros i Hi. destruct (um_mask _ _ _ _ _ _ H2 _ Hi) as [->|(E & va & Hva & HV & HS & Ei)];
      [by apply (um_mask _ _ _ _ _ _ H1)|right].
    split; [done|]. pose proof (unmapped_old _ _ _ _ _ _ va Hr H1 Hva (or_intror HS)) as E0. rewrite E0 in HV, HS, Ei. by exists va.
  - intros P x HP Hx. rewrite (um_solid _ _ _ _ _ _ H2 P x); [by apply (um_solid _ _ _ _ _ _ H1 P x)| |done].
    destruct HP as [HP Hb]. split; [|done].
    destruct (um_use _ _ _ _ _ _ H1 P) as [->|(_ & v & Hd)]; [done|]. destruct HP; congruence.
  - eapply calm_trans; [apply (um_calm _ _ _ _ _ _ H1)|apply (um_calm _ _ _ _ _ _ H2)].
Qed.
(** ** Clearing an entry *)
Section Clear.
Context {use : Z -> usage} {slot : Z -> option (Z * Z)} {k : kernel} {r va : Z}
  (Hwf : vm_wf use slot k) (Hr : is_root use r) (Hva : 0 <= va < MAXVA) (Hne : pte_addr (k_mem k) r va <> 0).
Local Abbreviation m := (k_mem k).
Local Abbreviation a := (pte_addr (k_mem k) r va).
Local Abbreviation e := (pte_of (k_mem k) r va).

(** The state after the entry is cleared, and perhaps its page [P] or its swap
    slot released. *)
Context {P : Z} {use' : Z -> usage} {k' : kernel}
  (HP : scratch use (k_swap_mask k) P) (Hch : changes m (k_mem k') a P) (Hld : ld64 (k_mem k') a = 0)
  (Hok : mem_ok (k_mem k'))
  (Huse : forall x, use' x = use x \/ (x = P /\ use P = Data r (va / PGSIZE) /\ use' x = Free))
  (Hfree : exists l, freelist_rep (k_mem k') (k_freelist k') l /\ NoDup l /\ forall x, x ∈ l <-> use' x = Free)
  (Hswap : swap_wf k')
  (Hmask : forall i, 0 <= i -> aget (k_swap_mask k') i = aget (k_swap_mask k) i \/
     (has e PTE_V = false /\ has e PTE_S = true /\ i = Z.shiftr e 10))
  (Hfrs : frames_wf k')
  (Hframe : forall j, 0 <= j < NFRAMES -> f_used (frame_at k' j) <> 0 -> frame_at k' j = frame_at k j /\
     (has e PTE_V = true -> use (PTE2PA e) = Other \/ PTE2PA e <> KERNBASE + j * PGSIZE))
  (Hpt : forall p, p_pagetable (k_procs k' !!! p) = p_pagetable (k_procs k !!! p)).

Lemma clear_ptab x r' l pre : use' x = PTab r' l pre <-> use x = PTab r' l pre.
Proof. destruct (Huse x) as [->|(-> & -> & ->)]; done. Qed.

Lemma clear_root r' : is_root use' r' <-> is_root use r'.
Proof. apply clear_ptab. Qed.

Lemma clear_pte r' va' : is_root use r' -> 0 <= va' < MAXVA ->
  pte_of (k_mem k') r' va' = if decide (r' = r /\ va' / PGSIZE = va / PGSIZE) then 0 else pte_of m r' va'.
Proof. apply (entry_pte Hwf Hr Hva Hne HP Hch Hld). Qed.

Lemma clear_keep x : use x <> Data r (va / PGSIZE) -> use' x = use x.
Proof. intros H. destruct (Huse x) as [?|(-> & ? & _)]; done. Qed.

Lemma clear_wf : vm_wf use' slot k'.
Proof.
  split; try done.
  - apply (entry_pt_ok Hwf Hr Hva Hne HP Hch Hld); [apply clear_ptab|].
    intros x Hx. apply (pt_page _ _ (wf_pt _ _ _ Hwf)). destruct (Huse x) as [<-|(-> & -> & _)]; done.
  - intros r' va' Hr'%clear_root Hva'. unfold leaf_ok. rewrite clear_pte by done. case_decide as E; [done|].
    intros HV. pose proof (wf_leaf _ _ _ Hwf r' va' Hr' Hva' HV) as Hleaf.
    rewrite clear_keep; [done|]. intros Hd. apply E.
    destruct Hleaf as [[Hd' _]|[Hd' _]]; rewrite Hd in Hd'; [by injection Hd'|done].
  - intros r' va' Hr'%clear_root Hva'. unfold swap_entry_ok. rewrite clear_pte by done. case_decide as E; [done|].
    intros HV HS. destruct (wf_swap _ _ _ Hwf r' va' Hr' Hva' HV HS) as (Hi & Hm & Hs).
    destruct (Hmask (Z.shiftr (pte_of m r' va') 10) ltac:(lia)) as [->|(HV' & HS' & Ei)]; [done|].
    destruct (wf_swap _ _ _ Hwf r va Hr Hva HV' HS') as (_ & _ & Hs'). rewrite <- Ei, Hs in Hs'.
    exfalso. apply E. by injection Hs'.
  - intros j Hj p Hu Hp. destruct (Hframe j Hj Hu) as [Ef He]. rewrite Ef in *.
    destruct (wf_frame _ _ _ Hwf j Hj p Hu Hp) as (Hr' & Hva' & Hal & HV & Hpa & Hd). cbv zeta. rewrite Hpt.
    assert (E : ~ (p_pagetable (k_procs k !!! p) = r /\ f_va (frame_at k j) / PGSIZE = va / PGSIZE)).
    { intros [E1 E2]. rewrite E1, (pte_of_vpn _ _ _ _ E2) in *. destruct (He HV); congruence. }
    rewrite clear_root, clear_pte, decide_False, clear_keep by (done || intros E'; apply E; rewrite Hd in E'; by injection E').
    done.
Qed.

Lemma clear_view r' va' : is_root use r' -> 0 <= va' < MAXVA -> ~ (r' = r /\ va' / PGSIZE = va / PGSIZE) ->
  (has (pte_of m r' va') PTE_V = true -> PTE2PA (pte_of m r' va') <> P) ->
  view (k_mem k') r' va' = view m r' va'.
Proof. apply (entry_view Hwf Hr Hva Hne HP Hch Hld). Qed.

Lemma clear_step :
  ~ solid use P -> calm k k' -> (has e PTE_V = true -> use (PTE2PA e) <> Other -> use' (PTE2PA e) = Free) ->
  (has e PTE_V = false -> has e PTE_S = true -> aget (k_swap_mask k') (Z.shiftr e 10) = 0) ->
  (forall r' va', is_root use r' -> 0 <= va' < MAXVA -> ~ (r' = r /\ va' / PGSIZE = va / PGSIZE) ->
     has (pte_of m r' va') PTE_V = true -> PTE2PA (pte_of m r' va') <> P) ->
  vm_wf use' slot k' /\ unmapped use k r (within (va / PGSIZE) (va / PGSIZE + 1)) use' k'.
Proof.
  intros HnP Hcalm Hpg Hsl Hviews. split; [apply clear_wf|].
  assert (Hv : forall va', within (va / PGSIZE) (va / PGSIZE + 1) (va' / PGSIZE) = true -> va' / PGSIZE = va / PGSIZE)
    by (intros va' Hw%within_iff; lia).
  assert (Hv' : forall va', va' / PGSIZE = va / PGSIZE -> within (va / PGSIZE) (va / PGSIZE + 1) (va' / PGSIZE) = true)
    by (intros va' E; apply within_iff; lia).
  split; try done.
  - apply clear_ptab.
  - intros x. destruct (Huse x) as [?|(-> & ? & ?)]; [by left|right]. split; [done|]. by exists (va / PGSIZE).
  - intros va' Hva' Hin%Hv. rewrite clear_pte, decide_True by done. done.
  - intros r' va' Hr' Hva' Hin. rewrite clear_pte, decide_False by (done || naive_solver). split; [done|].
    apply clear_view; [done|done|naive_solver|apply Hviews; [done|done|naive_solver]].
  - intros va' Hva' Hin%Hv. rewrite (pte_of_vpn _ _ _ _ Hin). done.
  - intros va' Hva' Hin%Hv. rewrite (pte_of_vpn _ _ _ _ Hin). done.
  - intros i Hi. destruct (Hmask i ltac:(lia)) as [?|(HV & HS & ->)]; [by left|right].
    split; [by apply Hsl|]. by exists va.
  - eapply changes_solid; [done|right; by apply (entry_in Hwf Hr Hva Hne)|apply HP|done|done].
Qed.
End Clear.


(** ** uvmunmap *)
Lemma calm_state k k' : k_cur k' = k_cur k -> k_held k' = k_held k -> k_procs k' = k_procs k -> calm k k'.
Proof. intros E1 E2 E3. split; [done|done|..]; intros; by rewrite E3. Qed.

(** Clearing an entry leaves the free list alone. *)
Lemma entry_freelist use slot k r va : vm_wf use slot k -> is_root use r -> 0 <= va < MAXVA ->
  pte_addr (k_mem k) r va <> 0 -> exists l, freelist_rep (st64 (k_mem k) (pte_addr (k_mem k) r va) 0) (k_freelist k) l /\
    NoDup l /\ forall x, x ∈ l <-> use x = Free.
Proof.
  intros Hwf Hr Hva Hne. destruct (wf_free _ _ _ Hwf) as (l & Hrep & Hnd & Hl). exists l. split; [|done].
  eapply freelist_change; [done|right; by apply (entry_in Hwf Hr Hva Hne)|apply nopage_scratch| | |done].
  - intros x Hx _. apply st64_out. lia.
  - intros b Hb. apply Hl in Hb. split; [done|]. intros ->.
    destruct (pt_page _ _ (wf_pt _ _ _ Hwf) nopage ltac:(by rewrite Hb)) as (_ & _ & ?). done.
Qed.

(** An entry that maps a page of the kernel. *)
Lemma unmap_kernel use slot k r va (a := pte_addr (k_mem k) r va) (e := pte_of (k_mem k) r va)
    (k' := k <| k_mem ::= fun m => st64 m a 0 |>) :
  vm_wf use slot k -> is_root use r -> 0 <= va < MAXVA -> has e PTE_V = true -> use (PTE2PA e) = Other ->
  vm_wf use slot k' /\ unmapped use k r (within (va / PGSIZE) (va / PGSIZE + 1)) use k'.
Proof.
  intros Hwf Hr Hva HV HO. destruct (pte_of_present (k_mem k) r va 0 ltac:(lia) HV) as [Hne _].
  assert (Hch : changes (k_mem k) (k_mem k') a nopage) by (intros x Hx _; apply st64_out; lia).
  assert (Hld : ld64 (k_mem k') a = 0) by (subst k'; kproj; by rewrite ld64_st64).
  apply (clear_step Hwf Hr Hva Hne (nopage_scratch _ _) Hch Hld); subst k'; kproj; try done; try apply Hwf.
  - apply st64_ok, (wf_mem _ _ _ Hwf).
  - by left.
  - by eapply entry_freelist.
  - by left.
  - intros j _ _. split; [done|by left].
  - intros (_ & _ & _ & H). by apply H.
  - fold e. congruence.
  - intros. by eapply leaf_not_nopage.
Qed.

(** An entry that names a swap slot. *)
Lemma unmap_swapped use slot k r va (a := pte_addr (k_mem k) r va) (e := pte_of (k_mem k) r va)
    (k' := k <| k_swap_mask ::= aset (Z.shiftr e 10) 0 |> <| k_mem ::= fun m => st64 m a 0 |>) :
  vm_wf use slot k -> is_root use r -> 0 <= va < MAXVA -> has e PTE_V = false -> has e PTE_S = true ->
  vm_wf use slot k' /\ unmapped use k r (within (va / PGSIZE) (va / PGSIZE + 1)) use k'.
Proof.
  intros Hwf Hr Hva HV HS. destruct (pte_of_present (k_mem k) r va 8 ltac:(lia) HS) as [Hne _].
  assert (Hch : changes (k_mem k) (k_mem k') a nopage) by (intros x Hx _; apply st64_out; lia).
  assert (Hld : ld64 (k_mem k') a = 0) by (subst k'; kproj; by rewrite ld64_st64).
  destruct (wf_swap _ _ _ Hwf r va Hr Hva HV HS) as (Hi & _).
  pose proof (wf_mask _ _ _ Hwf) as Hm. unfold swap_wf in Hm. fold e in Hi.
  apply (clear_step Hwf Hr Hva Hne (nopage_scratch _ _) Hch Hld); subst k'; kproj; try done; try apply Hwf.
  - apply st64_ok, (wf_mem _ _ _ Hwf).
  - by left.
  - by eapply entry_freelist.
  - unfold swap_wf. kproj. by rewrite length_aset.
  - intros i Hi0. destruct (decide (i = Z.shiftr e 10)) as [->|Hn]; [by right|left].
    by rewrite aget_aset, decide_False by lia.
  - intros j _ _. split; [done|]. fold e. congruence.
  - intros (_ & _ & _ & H). by apply H.
  - fold e. congruence.
  - intros _ _. fold e. by rewrite aget_aset, decide_True by lia.
  - intros. by eapply leaf_not_nopage.
Qed.

(** The memory in which [pa] has been filled with junk and linked in front of
    the free list. *)
Lemma freed_changes m pa fl a : changes m (st64 (memset m pa 1 PGSIZE) pa fl) a pa.
Proof. intros x _ Hx. rewrite st64_out, memset_out by (done || addr). done. Qed.

Lemma freed_ld m pa fl : 0 <= fl < 2 ^ 64 -> ld64 (st64 (memset m pa 1 PGSIZE) pa fl) pa = fl.
Proof. intros H. rewrite ld64_st64. by apply u64_id. Qed.

Lemma junk_ok m pa fl : mem_ok m -> mem_ok (st64 (memset m pa 1 PGSIZE) pa fl).
Proof. intros H. by apply st64_ok, memset_ok. Qed.

Lemma freelist_range use slot k : vm_wf use slot k -> 0 <= k_freelist k < 2 ^ 64.
Proof.
  intros Hwf. destruct (wf_free _ _ _ Hwf) as (l & Hrep & _ & Hl). destruct l as [|b l]; cbn in Hrep; [lia|].
  destruct Hrep as (E & _). rewrite E. assert (Hu : use b = Free) by (apply Hl; left).
  pose proof (pt_page _ _ (wf_pt _ _ _ Hwf) b ltac:(by rewrite Hu)) as Hb.
  pose proof (page_ok_pos _ Hb). destruct Hb as (_ & _ & ?). addr.
Qed.

(** The free list with one more page in front. *)
Lemma freelist_push use slot k m' a P : vm_wf use slot k -> (a = 0 \/ in_table use a) ->
  scratch use (k_swap_mask k) P -> changes (k_mem k) m' a P -> use P <> Free -> P <> 0 -> ld64 m' P = k_freelist k ->
  exists l, freelist_rep m' P l /\ NoDup l /\ forall x, x ∈ l <-> fupd P Free use x = Free.
Proof.
  intros Hwf Ha HP Hch HnF HP0 Hld. destruct (wf_free _ _ _ Hwf) as (l & Hrep & Hnd & Hl). exists (P :: l).
  split; [|split].
  - cbn. split; [done|]. split; [done|]. rewrite Hld. eapply freelist_change; [done|done|done|done| |done].
    intros b Hb%Hl. split; [done|]. by intros ->.
  - constructor; [|done]. by rewrite Hl.
  - intros x. rewrite elem_of_cons, Hl. unfold fupd. case_decide as E; naive_solver.
Qed.

(** The frame table without the entry of [pa]. *)
Lemma freed_frame pa k j : page_ok pa -> frames_wf k -> 0 <= j < NFRAMES -> f_used (frame_at (freed pa k) j) <> 0 ->
  frame_at (freed pa k) j = frame_at k j /\ pa <> KERNBASE + j * PGSIZE.
Proof.
  intros Hpg [Hlen _] Hj. destruct (frame_index_ok pa Hpg) as [Ei Hi]. unfold frame_at, freed. kproj.
  rewrite aget_aset by lia. case_decide as E; [done|]. intros _. split; [done|]. intros ->. apply E. rewrite Ei. daddr.
Qed.

(** An entry that maps a user page. *)
Lemma unmap_data use slot k r va (a := pte_addr (k_mem k) r va) (e := pte_of (k_mem k) r va) (pa := PTE2PA e)
    (k' := (freed pa k) <| k_mem ::= fun m => st64 m a 0 |>) :
  vm_wf use slot k -> is_root use r -> 0 <= va < MAXVA -> has e PTE_V = true -> use pa <> Other ->
  vm_wf (fupd pa Free use) slot k' /\ unmapped use k r (within (va / PGSIZE) (va / PGSIZE + 1)) (fupd pa Free use) k'.
Proof.
  intros Hwf Hr Hva HV HO. destruct (pte_of_present (k_mem k) r va 0 ltac:(lia) HV) as [Hne _].
  destruct (wf_leaf _ _ _ Hwf r va Hr Hva HV) as [[Hd _]|[Hd _]]; [|by destruct HO]. fold e in Hd. fold pa in Hd.
  assert (Hpg : page_ok pa) by (apply (pt_page _ _ (wf_pt _ _ _ Hwf)); by rewrite Hd).
  assert (HP : scratch use (k_swap_mask k) pa) by (split; [apply Hpg|]; left; right; right; left; eauto).
  destruct (entry_in Hwf Hr Hva Hne) as (b & rb & lb & pb & ib & Hb & Hib & Ea). fold a in Ea.
  assert (Hsep : pa + PGSIZE <= a \/ a + 8 <= pa).
  { pose proof (page_ok_pos _ (ptab_page (wf_pt _ _ _ Hwf) _ _ _ _ Hb)).
    rewrite Ea. eapply (data_not_table use); [apply (wf_pt _ _ _ Hwf)|exact Hb|congruence|apply Hpg|addr|addr]. }
  assert (Hch : changes (k_mem k) (k_mem k') a pa).
  { intros x Hx Hx'. subst k'. unfold freed. kproj. rewrite st64_out by lia. by apply (freed_changes _ _ _ a). }
  assert (Hld : ld64 (k_mem k') a = 0) by (subst k'; kproj; by rewrite ld64_st64).
  assert (Hused : forall x, fupd pa Free use x = use x \/ (x = pa /\ use pa = Data r (va / PGSIZE) /\ fupd pa Free use x = Free)).
  { intros x. unfold fupd. case_decide; naive_solver. }
  apply (clear_step Hwf Hr Hva Hne HP Hch Hld); subst k'; kproj; try done; try apply Hwf.
  - apply st64_ok, junk_ok, (wf_mem _ _ _ Hwf).
  - apply (freelist_push use slot k _ a pa); try done.
    + right. by exists b, rb, lb, pb, ib.
    + congruence.
    + pose proof (page_ok_pos _ Hpg). addr.
    + unfold freed. kproj. rewrite ld64_st64_out by addr. eapply freed_ld, freelist_range. done.
  - by left.
  - destruct (wf_frames _ _ _ Hwf). split; unfold freed; kproj; [by rewrite length_aset|done].
  - intros j Hj Hu. destruct (freed_frame pa k j Hpg (wf_frames _ _ _ Hwf) Hj Hu). split; [done|by right].
  - intros (HS & _). destruct HS; congruence.
  - intros _ _. apply fupd_eq.
  - fold e. congruence.
  - intros r' va' Hr' Hva' Hn HV' E.
    destruct (wf_leaf _ _ _ Hwf r' va' Hr' Hva' HV') as [[Hd' _]|[Hd' _]]; rewrite E, Hd in Hd'; [|done].
    apply Hn. by injection Hd'.
Qed.

(** Pages of the kernel are mapped where the caller says so: [do_free] is off
    exactly for them. *)
Definition frees_ok (use : Z -> usage) (m : memory) (r va : Z) (do_free : bool) : Prop :=
  has (pte_of m r va) PTE_V = true -> use (PTE2PA (pte_of m r va)) = Other <-> do_free = false.

Lemma uvmunmap_page_wp use slot k r va do_free :
  vm_wf use slot k -> vm_unlocked k -> is_root use r -> 0 <= va < MAXVA -> frees_ok use (k_mem k) r va do_free ->
  wp (uvmunmap_page r va do_free) (fun _ k' => exists use', vm_wf use' slot k' /\
    unmapped use k r (within (va / PGSIZE) (va / PGSIZE + 1)) use' k') k.
Proof.
  intros Hwf (Hl1 & Hl2 & Hl3) Hr Hva Hf. unfold uvmunmap_page. wp_step.
  eapply wp_Ret; [apply walk_noalloc; lia|].
  destruct (Z.eqb_spec (pte_addr (k_mem k) r va) 0) as [E0|Hne].
  { assert (pte_of (k_mem k) r va = 0) as Ep by (unfold pte_of; by rewrite E0).
    wp_step. exists use. split; [done|]. eapply unmapped_none; [done|by rewrite Ep..]. }
  wp_step. unfold load64. wp_step.
  assert (Ep : ld64 (k_mem k) (pte_addr (k_mem k) r va) = pte_of (k_mem k) r va)
    by (unfold pte_of; by rewrite (proj2 (Z.eqb_neq _ _))).
  rewrite Ep. destruct (has (pte_of (k_mem k) r va) PTE_V) eqn:HV; cbn [negb].
  - destruct do_free; cbn [when]; wp_step.
    + assert (HO : use (PTE2PA (pte_of (k_mem k) r va)) <> Other) by (intros H; by apply Hf in H).
      eapply wp_Ret; [apply kfree_eq; [apply (pt_page _ _ (wf_pt _ _ _ Hwf))|..]; done|].
      unfold store64. wp_step. eexists. by apply unmap_data.
    + wp_step. unfold store64. wp_step. exists use. apply unmap_kernel; try done. by apply Hf.
  - destruct (has (pte_of (k_mem k) r va) PTE_S) eqn:HS; [|wp_step; exists use; split; [done|by eapply unmapped_none]].
    destruct (wf_swap _ _ _ Hwf r va Hr Hva HV HS) as (Hi & _). rewrite i32_id by (unfold MAX_SP in Hi; lia).
    wp_step. eapply wp_Ret; [by apply free_swap_index_eq|]. unfold store64. wp_step. exists use. by apply unmap_swapped.
Qed.

Lemma uvmunmap_wp use slot k r va n do_free (lo := va / PGSIZE) :
  vm_wf use slot k -> vm_unlocked k -> is_root use r -> va mod PGSIZE = 0 -> 0 <= va -> 0 <= n -> va + n * PGSIZE <= MAXVA ->
  (forall va', 0 <= va' < MAXVA -> lo <= va' / PGSIZE < lo + n -> frees_ok use (k_mem k) r va' do_free) ->
  wp (uvmunmap r va n do_free) (fun _ k' => exists use', vm_wf use' slot k' /\ unmapped use k r (within lo (lo + n)) use' k') k.
Proof.
  intros Hwf Hul Hr Hal Hva Hn Hmax Hf. unfold uvmunmap. rewrite Hal. cbn [Z.eqb negb].
  eapply wp_mono; [apply (wp_for_range (Z.to_nat n) 0 _
    (fun i k1 => exists use1, vm_wf use1 slot k1 /\ unmapped use k r (within lo (lo + i)) use1 k1))|].
  - exists use. split; [done|]. apply unmapped_refl. intros v. unfold within. lia.
  - intros i k1 Hi (use1 & Hwf1 & Hum). pose proof (um_calm _ _ _ _ _ _ Hum) as Hc.
    assert (Hpos : 0 <= va + i * PGSIZE < MAXVA) by addr.
    assert (Hvpn : (va + i * PGSIZE) / PGSIZE = lo + i) by (subst lo; unfold PGSIZE; dlia).
    pose proof (proj2 (unmapped_root _ _ _ _ _ _ r Hum) Hr) as Hr1.
    eapply wp_mono; [apply (uvmunmap_page_wp use1 slot k1 r (va + i * PGSIZE) do_free Hwf1); try done|].
    + unfold vm_unlocked. by rewrite (cm_held _ _ Hc).
    + destruct (um_pte _ _ _ _ _ _ Hum r (va + i * PGSIZE) Hr Hpos) as [Ep _].
      { rewrite Hvpn, within_iff. lia. }
      unfold frees_ok. rewrite Ep. intros HV. rewrite <- (Hf _ Hpos ltac:(lia) HV).
      destruct (um_use _ _ _ _ _ _ Hum (PTE2PA (pte_of (k_mem k) r (va + i * PGSIZE)))) as [->|(-> & v & Hd)]; [done|].
      by rewrite Hd.
    + intros [] k2 (use2 & Hwf2 & Hum2). exists use2. split; [done|]. rewrite Hvpn in Hum2.
      eapply (unmapped_trans use slot k r _ _ _ _ _ _ _ Hwf Hr Hum Hum2). intros v. unfold within. lia.
  - intros [] k' (use' & Hwf' & Hum). exists use'. split; [done|]. by rewrite Z2Nat.id in Hum by done.
Qed.

(** ** Freeing a page the kernel owns *)
Lemma kfree_wf use slot k P m' :
  vm_wf use slot k -> use P = Owned -> changes (k_mem k) m' 0 P -> mem_ok m' -> ld64 m' P = k_freelist k ->
  vm_wf (fupd P Free use) slot ((freed P k) <| k_mem := m' |>).
Proof.
  intros Hwf Ho Hch Hok Hld. assert (Hpg : page_ok P) by (apply (pt_page _ _ (wf_pt _ _ _ Hwf)); by rewrite Ho).
  assert (HP : scratch use (k_swap_mask k) P) by (split; [apply Hpg|]; by left; left).
  assert (Htab : forall x r l pre, fupd P Free use x = PTab r l pre <-> use x = PTab r l pre)
    by (intros; unfold fupd; case_decide as E; [by rewrite E, Ho|done]).
  assert (Hsame : forall x, use x <> Owned -> fupd P Free use x = use x) by (intros x Hx; apply fupd_ne; by intros ->).
  split; kproj; try apply Hwf; try done.
  - eapply pt_ok_keep; [apply (wf_pt _ _ _ Hwf)|by eapply scratch_tables| |done|].
    + intros. by eapply scratch_entry_ne.
    + intros x. unfold fupd. case_decide as E; [by rewrite E|apply (pt_page _ _ (wf_pt _ _ _ Hwf))].
  - intros r va Hr%Htab Hva. unfold leaf_ok. rewrite (scratch_pte Hwf HP Hch) by done. intros HV.
    destruct (wf_leaf _ _ _ Hwf r va Hr Hva HV) as [[Hd HS]|[Hd ?]]; [left|right]; by rewrite Hsame by (by rewrite Hd).
  - apply (freelist_push use slot k m' 0 P); try done; [by left|by rewrite Ho|].
    pose proof (page_ok_pos _ Hpg). addr.
  - intros r va Hr%Htab Hva. unfold swap_entry_ok. kproj. rewrite (scratch_pte Hwf HP Hch) by done.
    by apply (wf_swap _ _ _ Hwf).
  - destruct (wf_frames _ _ _ Hwf). split; unfold freed; kproj; [by rewrite length_aset|done].
  - intros j Hj p Hu Hp. destruct (freed_frame P k j Hpg (wf_frames _ _ _ Hwf) Hj Hu) as [Ef _].
    change (frame_at ((freed P k) <| k_mem := m' |>) j) with (frame_at (freed P k) j) in *. rewrite Ef in *.
    destruct (wf_frame _ _ _ Hwf j Hj p Hu Hp) as (Hr & Hva & Hal & HV & Hpa & Hd). cbv zeta. unfold freed. kproj.
    rewrite (scratch_pte Hwf HP Hch) by done. unfold is_root. rewrite Htab, Hsame by (by rewrite Hd). done.
Qed.

(** ** Page tables without mappings *)

(** The page-table pages of [r] belong to the routine that frees them. *)
Definition use_drop (r : Z) (use : Z -> usage) (x : Z) : usage :=
  match use x with PTab r' l pre => if decide (r' = r) then Owned else PTab r' l pre | u => u end.

Lemma use_drop_ptab r use x r' l pre : use_drop r use x = PTab r' l pre <-> use x = PTab r' l pre /\ r' <> r.
Proof. unfold use_drop. destruct (use x); try (split; [done|by intros [? _]]). case_decide; naive_solver. Qed.

Lemma use_drop_other r use x : (forall r' l pre, use x <> PTab r' l pre) -> use_drop r use x = use x.
Proof. intros H. unfold use_drop. destruct (use x) as [|r0 l0 p0| | |]; try done. by destruct (H r0 l0 p0). Qed.

Lemma drop_wf use slot k r : vm_wf use slot k ->
  (forall va, 0 <= va < MAXVA -> has (pte_of (k_mem k) r va) PTE_V = false) -> vm_wf (use_drop r use) slot k.
Proof.
  intros Hwf Hnone. pose proof (wf_pt _ _ _ Hwf) as Hpt. split; try apply Hwf.
  - split.
    + intros a Ha. apply (pt_page _ _ Hpt). intros E. apply Ha. rewrite use_drop_other; [done|by rewrite E].
    + intros a r' l pre [Ha Hn]%use_drop_ptab. apply use_drop_ptab. split; [by eapply (pt_root _ _ Hpt)|done].
    + intros a b r' l pre [Ha _]%use_drop_ptab [Hb _]%use_drop_ptab. by eapply (pt_inj _ _ Hpt).
    + intros a r' l pre i [Ha Hn]%use_drop_ptab Hi HV. apply use_drop_ptab. split; [by apply (pt_node _ _ Hpt)|done].
    + intros a r' l pre [Ha _]%use_drop_ptab. by apply (pt_level _ _ Hpt) in Ha.
    + intros b r' l pre [Hb Hn]%use_drop_ptab Hl. destruct (pt_link _ _ Hpt _ _ _ _ Hb Hl) as (a & Ha & ?).
      exists a. by rewrite use_drop_ptab.
    + intros a r' l pre i [Ha Hn]%use_drop_ptab Hi HV. by apply (pt_plain _ _ Hpt _ _ _ _ _ Ha).
    + intros a r' pre [Ha _]%use_drop_ptab. by eapply (pt_low _ _ Hpt).
  - intros r' va [Hr Hn]%use_drop_ptab Hva HV.
    destruct (wf_leaf _ _ _ Hwf r' va Hr Hva HV) as [[Hd HS]|[Hd ?]]; [left|right]; by rewrite use_drop_other by (by rewrite Hd).
  - destruct (wf_free _ _ _ Hwf) as (l & Hrep & Hnd & Hl). exists l. split; [done|]. split; [done|].
    intros a. rewrite Hl. unfold use_drop. destruct (use a); try done. by case_decide.
  - intros r' va [Hr Hn]%use_drop_ptab. by apply (wf_swap _ _ _ Hwf).
  - intros j Hj p Hu Hp. destruct (wf_frame _ _ _ Hwf j Hj p Hu Hp) as (Hr & Hva & Hal & HV & Hpa & Hd).
    cbv zeta. unfold is_root. rewrite use_drop_ptab, use_drop_other by (by rewrite Hd).
    split; [|done]. split; [done|]. intros E. rewrite E, Hnone in HV; done.
Qed.

(** ** freewalk *)

(** The pages [S] have been freed; [ex] is a page still being worked on. *)
Record released (S : Z -> bool) (ex : Z) (use : Z -> usage) (k : kernel) (use' : Z -> usage) (k' : kernel) : Prop := {
  rl_in x : S x = true -> use' x = Free;
  rl_out x : S x = false -> use' x = use x;
  rl_views r va : is_root use' r -> 0 <= va < MAXVA -> view (k_mem k') r va = view (k_mem k) r va;
  rl_calm : calm k k';
  rl_mask : k_swap_mask k' = k_swap_mask k;
  rl_solid P x : solid use' P -> P <> ex -> P <= x < P + PGSIZE -> k_mem k' x = k_mem k x
}.

Lemma released_refl S ex use k : (forall x, S x = false) -> released S ex use k use k.
Proof. intros HS. split; try done. intros x. by rewrite HS. Qed.

Lemma released_trans S1 S2 S ex use1 k1 use2 k2 use3 k3 :
  released S1 ex use1 k1 use2 k2 -> released S2 ex use2 k2 use3 k3 -> (forall x, S x = S1 x || S2 x) ->
  released S ex use1 k1 use3 k3.
Proof.
  intros H1 H2 HS.
  assert (Hback : forall x, use3 x <> Free -> use3 x = use2 x).
  { intros x Hx. destruct (S2 x) eqn:E; [by destruct Hx; apply (rl_in _ _ _ _ _ _ H2)|by apply (rl_out _ _ _ _ _ _ H2)]. }
  split.
  - intros x. rewrite HS, orb_true_iff. intros [E|E]; [|by apply (rl_in _ _ _ _ _ _ H2)].
    destruct (decide (use3 x = Free)) as [|Hn]; [done|]. rewrite Hback by done. by apply (rl_in _ _ _ _ _ _ H1).
  - intros x. rewrite HS, orb_false_iff. intros [E1 E2].
    by rewrite (rl_out _ _ _ _ _ _ H2), (rl_out _ _ _ _ _ _ H1).
  - intros r va Hr Hva. rewrite (rl_views _ _ _ _ _ _ H2) by done. apply (rl_views _ _ _ _ _ _ H1); [|done].
    unfold is_root in *. by rewrite <- Hback by (by rewrite Hr).
  - eapply calm_trans; [apply (rl_calm _ _ _ _ _ _ H1)|apply (rl_calm _ _ _ _ _ _ H2)].
  - by rewrite (rl_mask _ _ _ _ _ _ H2), (rl_mask _ _ _ _ _ _ H1).
  - intros P x HP Hex Hx. rewrite (rl_solid _ _ _ _ _ _ H2 P x) by done. apply (rl_solid _ _ _ _ _ _ H1 P x); try done.
    destruct HP as [HP ?]. split; [|done]. rewrite <- Hback; [done|]. intros E. destruct HP; congruence.
Qed.

(** The page that was being worked on is no longer in use. *)
Lemma released_weaken S ex ex' use k use' k' : released S ex use k use' k' -> use' ex = Free -> released S ex' use k use' k'.
Proof.
  intros H Hf. split; try apply H. intros P x HP _. apply (rl_solid _ _ _ _ _ _ H P x); [done|]. intros ->.
  destruct HP as [[HP|HP] _]; congruence.
Qed.

Lemma released_more S ex use k use' k' : released S 0 use k use' k' -> released S ex use k use' k'.
Proof.
  intros H. split; try apply H. intros P x HP _. apply (rl_solid _ _ _ _ _ _ H P x); [done|].
  intros ->. destruct HP as (_ & _ & ? & _). lia.
Qed.

(** Writing in a page the kernel owns. *)
Lemma released_store use slot k P m' : vm_wf use slot k -> use P = Owned -> changes (k_mem k) m' 0 P -> mem_ok m' ->
  vm_wf use slot (k <| k_mem := m' |>) /\ released (fun _ => false) P use k use (k <| k_mem := m' |>).
Proof.
  intros Hwf Ho Hch Hok. assert (Hpg : page_ok P) by (apply (pt_page _ _ (wf_pt _ _ _ Hwf)); by rewrite Ho).
  assert (HP : scratch use (k_swap_mask k) P) by (split; [apply Hpg|]; by left; left).
  split; [apply (scratch_wf use slot k P m'); try done; by rewrite Ho|]. split; try done.
  - intros r va Hr Hva. kproj. eapply view_other; [exact Hwf|by left|exact HP|exact Hch|done|done| | |].
    + by apply (scratch_pte Hwf HP Hch).
    + by rewrite Ho.
    + left. by rewrite Ho.
  - intros Q x (HQ & HQl & HQ0 & HQ1) Hne Hx. kproj.
    pose proof (pages_disjoint Q P HQl (proj1 Hpg) Hne). apply Hch; [daddr|lia].
Qed.

(** kfree of a page the kernel owns. *)
Lemma released_kfree use slot k P : vm_wf use slot k -> use P = Owned ->
  vm_wf (fupd P Free use) slot (freed P k) /\
  released (fun x => bool_decide (x = P)) 0 use k (fupd P Free use) (freed P k).
Proof.
  intros Hwf Ho. assert (Hpg : page_ok P) by (apply (pt_page _ _ (wf_pt _ _ _ Hwf)); by rewrite Ho).
  pose proof (freed_changes (k_mem k) P (k_freelist k) 0) as Hch.
  pose proof (junk_ok _ P (k_freelist k) (wf_mem _ _ _ Hwf)) as Hok.
  destruct (released_store use slot k P _ Hwf Ho Hch Hok) as [_ Hst]. split.
  - apply (kfree_wf use slot k P _ Hwf Ho Hch Hok). eapply freed_ld, freelist_range. done.
  - apply (released_weaken _ P); [|apply fupd_eq]. split.
    + intros x ->%bool_decide_eq_true. apply fupd_eq.
    + intros x Hx%bool_decide_eq_false. by apply fupd_ne.
    + intros r va Hr. apply (rl_views _ _ _ _ _ _ Hst). revert Hr. unfold is_root, fupd. by case_decide.
    + by apply calm_state.
    + done.
    + intros Q x [HQ ?] Hne. apply (rl_solid _ _ _ _ _ _ Hst Q x); [|done]. split; [|done].
      revert HQ. by rewrite fupd_ne.
Qed.
Section Freewalk.
Context {use0 : Z -> usage} {m0 : memory} {slot : Z -> option (Z * Z)} {r : Z} (Hpt : pt_ok use0 m0).

(** The page-table pages of [r] at level [l] or lower that lie under the nodes
    [lo] to [hi] of level [l]. *)
Definition in_range (l : nat) (lo hi x : Z) : bool :=
  match use0 x with
  | PTab r' l' pre => bool_decide (r' = r) && (l' <=? l)%nat &&
      (lo <=? pre / 512 ^ Z.of_nat (l - l')) && (pre / 512 ^ Z.of_nat (l - l') <? hi)
  | _ => false
  end.

Lemma in_range_iff l lo hi x : in_range l lo hi x = true <->
  exists l' pre, use0 x = PTab r l' pre /\ (l' <= l)%nat /\ lo <= pre / 512 ^ Z.of_nat (l - l') < hi.
Proof.
  unfold in_range. destruct (use0 x) as [|r' l' pre| | |]; try (split; [done|by intros (? & ? & ? & _)]).
  rewrite !andb_true_iff, bool_decide_eq_true, Nat.leb_le, Z.leb_le, Z.ltb_lt. split.
  - intros (((-> & ?) & ?) & ?). by exists l', pre.
  - intros (? & ? & [= -> <- <-] & ? & ? & ?). done.
Qed.

Lemma in_range_split l lo mid hi x : lo <= mid <= hi -> in_range l lo hi x = in_range l lo mid x || in_range l mid hi x.
Proof.
  intros H. apply eq_true_iff_eq. rewrite orb_true_iff, !in_range_iff. split.
  - intros (l' & pre & E & Hl & Hr). destruct (decide (pre / 512 ^ Z.of_nat (l - l') < mid)); [left|right];
      exists l', pre; (split; [done|]); split; (done || lia).
  - intros [(l' & pre & E & Hl & Hr)|(l' & pre & E & Hl & Hr)]; exists l', pre; (split; [done|]); split; (done || lia).
Qed.

Lemma in_range_empty l lo x : in_range l lo lo x = false.
Proof. apply not_true_iff_false. rewrite in_range_iff. intros (? & ? & _ & _ & ?). lia. Qed.

Lemma in_range_disjoint l lo mid hi x : in_range l mid hi x = true -> in_range l lo mid x = false.
Proof.
  intros (l' & pre & E & Hl & Hr)%in_range_iff. apply not_true_iff_false. rewrite in_range_iff.
  intros (? & ? & E' & _ & ?). rewrite E in E'. injection E' as <- <-. lia.
Qed.

Lemma in_range_lower a l lo hi pre : use0 a = PTab r (S l) pre -> in_range l lo hi a = false.
Proof.
  intros Ha. apply not_true_iff_false. rewrite in_range_iff, Ha. intros (l' & ? & [= <- _] & ? & _). lia.
Qed.

(** Every page-table page hangs under one of each higher level. *)
Lemma ancestor d : forall x l pre, use0 x = PTab r l pre -> (l + d <= 2)%nat ->
  exists y, use0 y = PTab r (l + d) (pre / 512 ^ Z.of_nat d).
Proof.
  induction d as [|d IH]; intros x l pre Hx Hd.
  - exists x. by rewrite Nat.add_0_r, Z.div_1_r.
  - destruct (pt_link _ _ Hpt x r l pre Hx ltac:(lia)) as (y & Hy & _).
    destruct (IH y (S l) _ Hy ltac:(lia)) as (z & Hz). exists z. rewrite Hz.
    replace (S l + d)%nat with (l + S d)%nat by lia. f_equal.
    rewrite Nat2Z.inj_succ, Z.pow_succ_r by lia. by rewrite Z.div_div by lia.
Qed.

(** The pages under an entry that is not valid: none. *)
Lemma entry_none a l pre i x : use0 a = PTab r (S l) pre -> 0 <= i < 512 ->
  has (ld64 m0 (a + 8 * i)) PTE_V = false -> in_range l (512 * pre + i) (512 * pre + i + 1) x = false.
Proof.
  intros Ha Hi HV. apply not_true_iff_false. rewrite in_range_iff. intros (l' & pre' & Hx & Hl & Hr).
  destruct (pt_level _ _ Hpt _ _ _ _ Ha) as [Hl2 _].
  destruct (ancestor (l - l') x l' pre' Hx ltac:(lia)) as (y & Hy).
  replace (l' + (l - l'))%nat with l in Hy by lia.
  replace (pre' / 512 ^ Z.of_nat (l - l')) with (512 * pre + i) in Hy by lia.
  destruct (pt_link _ _ Hpt y r l _ Hy ltac:(lia)) as (b & Hb & HV' & _).
  replace ((512 * pre + i) / 512) with pre in Hb by dlia. replace ((512 * pre + i) mod 512) with i in HV' by dlia.
  rewrite (pt_inj _ _ Hpt b a _ _ _ Hb Ha) in HV'. congruence.
Qed.

(** A node and what lies under it. *)
Lemma in_range_node a l pre x : use0 a = PTab r (S l) pre ->
  in_range (S l) pre (pre + 1) x = bool_decide (x = a) || in_range l (512 * pre) (512 * pre + 512) x.
Proof.
  intros Ha. apply eq_true_iff_eq. rewrite orb_true_iff, bool_decide_eq_true, !in_range_iff. split.
  - intros (l' & pre' & Hx & Hl & Hr). destruct (decide (l' = S l)) as [->|Hne].
    + left. rewrite Nat.sub_diag, Z.div_1_r in Hr. assert (pre' = pre) as -> by lia. by eapply (pt_inj _ _ Hpt).
    + right. exists l', pre'. split; [done|]. split; [lia|].
      replace (S l - l')%nat with (S (l - l')) in Hr by lia. rewrite Nat2Z.inj_succ, Z.pow_succ_r in Hr by lia.
      rewrite (Z.mul_comm 512), <- Z.div_div in Hr by lia. dlia.
  - intros [->|(l' & pre' & Hx & Hl & Hr)].
    + exists (S l), pre. rewrite Nat.sub_diag, Z.div_1_r. split; [done|]. lia.
    + exists l', pre'. split; [done|]. split; [lia|].
      replace (S l - l')%nat with (S (l - l')) by lia. rewrite Nat2Z.inj_succ, Z.pow_succ_r by lia.
      rewrite (Z.mul_comm 512), <- Z.div_div by lia. dlia.
Qed.

Lemma in_range_leaf a pre x : use0 a = PTab r 0 pre -> in_range 0 pre (pre + 1) x = bool_decide (x = a).
Proof.
  intros Ha. apply eq_true_iff_eq. rewrite bool_decide_eq_true, in_range_iff. split.
  - intros (l' & pre' & Hx & Hl & Hr). assert (l' = 0%nat) as -> by lia. rewrite Z.div_1_r in Hr.
    assert (pre' = pre) as -> by lia. by eapply (pt_inj _ _ Hpt).
  - intros ->. exists 0%nat, pre. rewrite Z.div_1_r. split; [done|]. lia.
Qed.

(** The pages still to be freed are as they were. *)
Definition intact (S : Z -> bool) (use : Z -> usage) (k : kernel) : Prop :=
  forall x, S x = true -> use x = Owned /\ forall i, x <= i < x + PGSIZE -> k_mem k i = m0 i.

Lemma intact_after (S T : Z -> bool) ex use k use' k' : pt_ok use' (k_mem k') ->
  intact S use k -> released T ex use k use' k' ->
  forall U, (forall x, U x = true -> S x = true /\ T x = false /\ x <> ex) -> intact U use' k'.
Proof.
  intros Hpt' Hin Hrel U HU x Hx. destruct (HU x Hx) as (HS & HT & Hex). destruct (Hin x HS) as [Ho Hm].
  assert (Ho' : use' x = Owned) by (by rewrite (rl_out _ _ _ _ _ _ Hrel)).
  split; [done|]. intros i Hi. rewrite (rl_solid _ _ _ _ _ _ Hrel x i); [by apply Hm| |done|done].
  by eapply owned_solid.
Qed.

Definition done_below (l : nat) (pre i x : Z) : bool :=
  match l with O => false | S l' => in_range l' (512 * pre) (512 * pre + i) x end.

Lemma done_below_node a l pre x : use0 a = PTab r l pre ->
  in_range l pre (pre + 1) x = done_below l pre 512 x || bool_decide (x = a).
Proof.
  intros Ha. destruct l as [|l]; cbn [done_below orb]; [by apply in_range_leaf|].
  by rewrite (in_range_node a), orb_comm.
Qed.

Lemma done_below_self a l pre i : use0 a = PTab r l pre -> done_below l pre i a = false.
Proof.
  intros Ha. destruct l as [|l]; [done|]. by eapply in_range_lower.
Qed.

Context (Hleaf : forall a pre i, use0 a = PTab r 0 pre -> 0 <= i < 512 -> has (ld64 m0 (a + 8 * i)) PTE_V = false).

Lemma plain_entry a l pre i : use0 a = PTab r (S l) pre -> 0 <= i < 512 -> has (ld64 m0 (a + 8 * i)) PTE_V = true ->
  Z.land (ld64 m0 (a + 8 * i)) (Z.lor (Z.lor PTE_R PTE_W) PTE_X) = 0.
Proof.
  intros Ha Hi HV. pose proof (pt_plain _ _ Hpt _ _ _ _ _ Ha Hi HV) as E. unfold PTE_FLAGS in E.
  change (Z.lor (Z.lor PTE_R PTE_W) PTE_X) with (Z.land 0x3FF (Z.lor (Z.lor PTE_R PTE_W) PTE_X)).
  by rewrite Z.land_assoc, E.
Qed.

(** The loop over the entries of the page [a] has come to entry [i]. *)
Definition progress (l : nat) (a pre : Z) (use : Z -> usage) (k : kernel) (i : Z) (k1 : kernel) : Prop :=
  exists use1, vm_wf use1 slot k1 /\ released (done_below l pre i) a use k use1 k1 /\ use1 a = Owned /\
    forall x, a + 8 * i <= x < a + PGSIZE -> k_mem k1 x = m0 x.

Section Node.
Context {l : nat} {a pre : Z} {use : Z -> usage} {k : kernel} (Ha : use0 a = PTab r l pre)
  (Hwf : vm_wf use slot k) (Hul : vm_unlocked k) (Hin : intact (in_range l pre (pre + 1)) use k).

Lemma node_self : use a = Owned /\ forall i, a <= i < a + PGSIZE -> k_mem k i = m0 i.
Proof. apply Hin. rewrite (done_below_node a) by done. by rewrite bool_decide_true, orb_true_r. Qed.

Lemma progress_start : progress l a pre use k 0 k.
Proof.
  destruct node_self as [Ho Hm]. exists use. split; [done|]. split; [|split; [done|]].
  - apply released_refl. intros x. destruct l as [|l']; [done|]. cbn. rewrite Z.add_0_r. apply in_range_empty.
  - intros x Hx. apply Hm. lia.
Qed.

Lemma progress_unlocked i k1 : progress l a pre use k i k1 -> vm_unlocked k1.
Proof.
  intros (use1 & _ & Hrel & _). unfold vm_unlocked. by rewrite (cm_held _ _ (rl_calm _ _ _ _ _ _ Hrel)).
Qed.

Lemma progress_ld i k1 : progress l a pre use k i k1 -> 0 <= i < 512 -> ld64 (k_mem k1) (a + 8 * i) = ld64 m0 (a + 8 * i).
Proof. intros (use1 & _ & _ & _ & Hm) Hi. apply ld64_ext. intros o Ho. apply Hm. addr. Qed.

Lemma progress_finish k1 : progress l a pre use k 512 k1 ->
  wp (kfree a) (fun _ k' => exists use', vm_wf use' slot k' /\ released (in_range l pre (pre + 1)) 0 use k use' k') k1.
Proof.
  intros Hp. pose proof (progress_unlocked _ _ Hp) as (Hl1 & Hl2 & _). destruct Hp as (use1 & Hwf1 & Hrel & Ho & _).
  destruct (released_kfree use1 slot k1 a Hwf1 Ho) as [Hwf2 Hrel2].
  eapply wp_Ret; [apply kfree_eq; [apply (pt_page _ _ (wf_pt _ _ _ Hwf1)); by rewrite Ho|done|done]|].
  exists (fupd a Free use1). split; [done|]. apply (released_weaken _ a); [|apply fupd_eq].
  eapply released_trans; [exact Hrel|apply released_more, Hrel2|]. intros x. by apply done_below_node.
Qed.

(** An entry that is not valid. *)
Lemma progress_skip i k1 : progress l a pre use k i k1 -> 0 <= i < 512 ->
  has (ld64 m0 (a + 8 * i)) PTE_V = false -> progress l a pre use k (i + 1) k1.
Proof.
  intros (use1 & Hwf1 & Hrel & Ho & Hm) Hi HV. exists use1. split; [done|]. split; [|split; [done|]].
  - eapply (released_trans _ (fun _ => false)); [exact Hrel|by apply released_refl|]. intros x. rewrite orb_false_r.
    destruct l as [|l']; [done|]. cbn. rewrite (in_range_split _ _ (512 * pre + i)) by lia.
    rewrite (Z.add_assoc _ i 1), (entry_none a) by done. by rewrite orb_false_r.
  - intros x Hx. apply Hm. lia.
Qed.
End Node.

(** An entry whose page has been freed and which is cleared now. *)
Lemma progress_child l a pre use k i use1 k1 use2 k2 : use0 a = PTab r (S l) pre -> 0 <= i < 512 ->
  released (done_below (S l) pre i) a use k use1 k1 -> use1 a = Owned ->
  (forall x, a + 8 * i <= x < a + PGSIZE -> k_mem k1 x = m0 x) -> vm_wf use2 slot k2 ->
  released (in_range l (512 * pre + i) (512 * pre + i + 1)) 0 use1 k1 use2 k2 ->
  progress (S l) a pre use k (i + 1) (k2 <| k_mem ::= fun m => st64 m (a + 8 * i) 0 |>).
Proof.
  intros Ha Hi Hrel Ho Hm Hwf2 Hrel2.
  assert (Hna : in_range l (512 * pre + i) (512 * pre + i + 1) a = false).
  { by eapply in_range_lower. }
  assert (Ho2 : use2 a = Owned) by (by rewrite (rl_out _ _ _ _ _ _ Hrel2)).
  assert (Hch : changes (k_mem k2) (st64 (k_mem k2) (a + 8 * i) 0) 0 a) by (intros x _ Hx; apply st64_out; addr).
  destruct (released_store use2 slot k2 a _ Hwf2 Ho2 Hch) as [Hwf3 Hrel3]; [apply st64_ok, (wf_mem _ _ _ Hwf2)|].
  exists use2. split; [exact Hwf3|]. split; [|split; [done|]].
  - eapply (released_trans _ (fun _ => false)); [|exact Hrel3|by intros x; rewrite orb_false_r].
    eapply released_trans; [exact Hrel|apply released_more, Hrel2|]. intros x. cbn.
    rewrite (in_range_split _ _ (512 * pre + i)) by lia. by rewrite Z.add_assoc.
  - intros x Hx. kproj. rewrite st64_out by lia.
    rewrite (rl_solid _ _ _ _ _ _ Hrel2 a x); [apply Hm; lia| | |lia].
    + eapply owned_solid; [apply (wf_pt _ _ _ Hwf2)|done].
    + pose proof (page_ok_pos _ (ptab_page Hpt _ _ _ _ Ha)). addr.
Qed.

Lemma freewalk_wp l : forall a pre use k, use0 a = PTab r l pre -> vm_wf use slot k -> vm_unlocked k ->
  intact (in_range l pre (pre + 1)) use k ->
  wp (freewalk l a) (fun _ k' => exists use', vm_wf use' slot k' /\
    released (in_range l pre (pre + 1)) 0 use k use' k') k.
Proof.
  induction l as [|l IH]; intros a pre use k Ha Hwf Hul Hin; cbn [freewalk]; wp_step;
    (eapply wp_mono; [eapply (wp_for_range 512 0 _ (fun i => progress _ a pre use k i)); [by eapply progress_start|]
                     |intros [] k1 Hp; by eapply progress_finish]).
  - intros i k1 Hi Hp. unfold load64. wp_step. wp_step. rewrite (progress_ld _ _ Hp), (Hleaf a pre) by (done || lia).
    cbn [andb]. wp_step. apply progress_skip; [done..|lia|by apply Hleaf with pre; [|lia]].
  - intros i k1 Hi Hp. unfold load64. wp_step. wp_step. rewrite (progress_ld _ _ Hp) by lia.
    destruct (has (ld64 m0 (a + 8 * i)) PTE_V) eqn:HV; [|cbn [andb]; wp_step; by apply progress_skip; [..|lia|]].
    rewrite (plain_entry a l pre) by (done || lia). cbn [andb Z.eqb].
    pose proof (progress_unlocked Hul _ _ Hp) as Hul1. destruct Hp as (use1 & Hwf1 & Hrel & Ho & Hm). wp_step.
    eapply wp_mono; [apply (IH _ (512 * pre + i) use1 k1); [by apply (pt_node _ _ Hpt); [|lia|]|done|done|]|].
    + eapply (intact_after _ _ _ _ _ _ _ (wf_pt _ _ _ Hwf1) Hin Hrel). intros x Hx.
      rewrite (in_range_node a), (in_range_split _ _ (512 * pre + i)) by (done || lia).
      rewrite (in_range_split _ (512 * pre + i) (512 * pre + i + 1)) by lia. rewrite Hx, orb_true_r, orb_true_r.
      split; [done|]. split; [by eapply in_range_disjoint|]. intros ->. rewrite (in_range_lower a l _ _ pre) in Hx; done.
    + intros [] k2 (use2 & Hwf2 & Hrel2). unfold store64. wp_step. by eapply progress_child.
Qed.
End Freewalk.

(** Without mappings the entries of the lowest level are not valid. *)
Lemma no_leaf use m r : pt_ok use m -> (forall va, 0 <= va < MAXVA -> has (pte_of m r va) PTE_V = false) ->
  forall a pre i, use a = PTab r 0 pre -> 0 <= i < 512 -> has (ld64 m (a + 8 * i)) PTE_V = false.
Proof.
  intros Hpt Hnone a pre i Ha Hi.
  destruct (pt_link _ _ Hpt _ _ _ _ Ha ltac:(lia)) as (b & Hb & _). pose proof (pt_low _ _ Hpt _ _ _ Hb).
  destruct (pt_link _ _ Hpt _ _ _ _ Hb ltac:(lia)) as (c & Hc & _).
  destruct (pt_level _ _ Hpt _ _ _ _ Hc) as [_ Hc']. destruct (Hc' eq_refl) as [_ Hz].
  set (va := (512 * pre + i) * PGSIZE).
  assert (Hva : 0 <= va < MAXVA) by (subst va; daddr).
  assert (Hpx : PX 0 va = i) by (rewrite PX_spec by done; change (2 ^ (12 + 9 * 0)) with PGSIZE; subst va; daddr).
  assert (Haddr : pte_addr m r va = a + 8 * i).
  { rewrite (walk_through use m r va 0 a Hpt (proj1 Hva)); [cbn; by rewrite Hpx|].
    rewrite Ha. f_equal. change (2 ^ (12 + 9 * (Z.of_nat 0 + 1))) with 2097152. subst va. daddr. }
  specialize (Hnone va Hva). unfold pte_of in Hnone. rewrite Haddr in Hnone.
  pose proof (page_ok_pos _ (ptab_page Hpt _ _ _ _ Ha)). by rewrite (proj2 (Z.eqb_neq _ _)) in Hnone by addr.
Qed.

(** The address space [r] is gone. *)
Record dropped (use : Z -> usage) (k : kernel) (r : Z) (use' : Z -> usage) (k' : kernel) : Prop := {
  dr_tables x l pre : use x = PTab r l pre -> use' x = Free;
  dr_pages va : 0 <= va < MAXVA -> has (pte_of (k_mem k) r va) PTE_V = true ->
    use (PTE2PA (pte_of (k_mem k) r va)) <> Other -> use' (PTE2PA (pte_of (k_mem k) r va)) = Free;
  dr_slots va : 0 <= va < MAXVA -> has (pte_of (k_mem k) r va) PTE_V = false -> has (pte_of (k_mem k) r va) PTE_S = true ->
    aget (k_swap_mask k') (Z.shiftr (pte_of (k_mem k) r va) 10) = 0;
  dr_use x : use' x = use x \/
    (use' x = Free /\ ((exists l pre, use x = PTab r l pre) \/ exists vpn, use x = Data r vpn));
  dr_mask i : 0 <= i < MAX_SP -> aget (k_swap_mask k') i = aget (k_swap_mask k) i \/
    (aget (k_swap_mask k') i = 0 /\ exists va, 0 <= va < MAXVA /\
       has (pte_of (k_mem k) r va) PTE_V = false /\ has (pte_of (k_mem k) r va) PTE_S = true /\
       i = Z.shiftr (pte_of (k_mem k) r va) 10);
  dr_root r' : is_root use' r' <-> is_root use r' /\ r' <> r;
  dr_views r' va : is_root use r' -> r' <> r -> 0 <= va < MAXVA -> view (k_mem k') r' va = view (k_mem k) r' va;
  dr_solid : same_solid use (k_mem k) (k_mem k');
  dr_calm : calm k k'
}.

(** [freewalk] of a page table without mappings. *)
Lemma freewalk_root_wp use slot k r : vm_wf use slot k -> vm_unlocked k -> is_root use r ->
  (forall va, 0 <= va < MAXVA -> has (pte_of (k_mem k) r va) PTE_V = false) ->
  wp (freewalk 2 r) (fun _ k' => exists use', vm_wf use' slot k' /\
    (forall x l pre, use x = PTab r l pre -> use' x = Free) /\
    (forall x, (forall l pre, use x <> PTab r l pre) -> use' x = use x) /\
    (forall r' va, is_root use r' -> r' <> r -> 0 <= va < MAXVA -> view (k_mem k') r' va = view (k_mem k) r' va) /\
    k_swap_mask k' = k_swap_mask k /\ same_solid use (k_mem k) (k_mem k') /\ calm k k') k.
Proof.
  intros Hwf Hul Hr Hnone. pose proof (wf_pt _ _ _ Hwf) as Hpt. pose proof (drop_wf _ _ _ r Hwf Hnone) as Hwf1.
  assert (Hall : forall x, in_range (use0 := use) (r := r) 2 0 1 x = true <-> exists l pre, use x = PTab r l pre).
  { intros x. rewrite in_range_iff. split; [intros (l & pre & ? & _); by exists l, pre|].
    intros (l & pre & Hx). exists l, pre. split; [done|]. destruct (pt_level _ _ Hpt _ _ _ _ Hx) as [Hl _]. split; [done|].
    destruct (ancestor Hpt (2 - l) x l pre Hx ltac:(lia)) as (y & Hy).
    replace (l + (2 - l))%nat with 2%nat in Hy by lia. destruct (pt_level _ _ Hpt _ _ _ _ Hy) as [_ Hy'].
    destruct (Hy' eq_refl). lia. }
  assert (Hnot : forall x, (forall l pre, use x <> PTab r l pre) -> in_range (use0 := use) (r := r) 2 0 1 x = false).
  { intros x Hx. apply not_true_iff_false. rewrite Hall. intros (l & pre & E). by eapply Hx. }
  assert (Hdrop : forall x, (forall l pre, use x <> PTab r l pre) -> use_drop r use x = use x).
  { intros x Hx. unfold use_drop. destruct (use x) as [|r' l pre| | |]; try done.
    case_decide as E; [|done]. subst r'. by destruct (Hx l pre). }
  eapply wp_mono; [apply (freewalk_wp Hpt (no_leaf _ _ _ Hpt Hnone) 2 r 0 (use_drop r use) k Hr Hwf1 Hul)|].
  - intros x (l & pre & Hx)%Hall. split; [unfold use_drop; rewrite Hx; by rewrite decide_True|done].
  - intros [] k' (use' & Hwf' & Hrel). exists use'. split; [done|].
    assert (Hout : forall x, (forall l pre, use x <> PTab r l pre) -> use' x = use x)
      by (intros x Hx; rewrite (rl_out _ _ _ _ _ _ Hrel) by (by apply Hnot); by apply Hdrop).
    split; [intros x l pre Hx; apply (rl_in _ _ _ _ _ _ Hrel), Hall; by exists l, pre|]. split; [done|].
    split; [|split; [apply (rl_mask _ _ _ _ _ _ Hrel)|split; [|apply (rl_calm _ _ _ _ _ _ Hrel)]]].
    + intros r' va Hr' Hne. apply (rl_views _ _ _ _ _ _ Hrel). unfold is_root in *. rewrite Hout; [done|].
      rewrite Hr'. congruence.
    + intros P x [HP Hb] Hx. apply (rl_solid _ _ _ _ _ _ Hrel P x); [|destruct Hb as (_ & ? & _); lia|done].
      split; [|done]. rewrite Hout; [done|]. intros l pre E. destruct HP; congruence.
Qed.

Lemma unmapped_dropped use slot k r D use1 k1 use2 k2 : vm_wf use slot k -> is_root use r ->
  unmapped use k r D use1 k1 -> dropped use1 k1 r use2 k2 -> dropped use k r use2 k2.
Proof.
  intros Hwf Hr H1 H2. pose proof (fun r' => unmapped_root _ _ _ _ _ _ r' H1) as Hr1.
  assert (Hlate : forall va, 0 <= va < MAXVA -> D (va / PGSIZE) = false -> pte_of (k_mem k1) r va = pte_of (k_mem k) r va)
    by (intros; apply (um_pte _ _ _ _ _ _ H1); [done|done|intros [_ ?]; congruence]).
  split.
  - intros x l pre Hx. apply (dr_tables _ _ _ _ _ H2 x l pre). by apply (um_ptab _ _ _ _ _ _ H1).
  - intros va Hva HV HO. destruct (D (va / PGSIZE)) eqn:E.
    + pose proof (um_page _ _ _ _ _ _ H1 va Hva E HV HO) as E1.
      destruct (dr_use _ _ _ _ _ H2 (PTE2PA (pte_of (k_mem k) r va))) as [->|[-> _]]; done.
    + rewrite <- Hlate in * by done. apply (dr_pages _ _ _ _ _ H2); [done|done|].
      destruct (um_use _ _ _ _ _ _ H1 (PTE2PA (pte_of (k_mem k1) r va))) as [->|[-> _]]; done.
  - intros va Hva HV HS. destruct (D (va / PGSIZE)) eqn:E.
    + pose proof (um_slot _ _ _ _ _ _ H1 va Hva E HV HS) as E1.
      destruct (wf_swap _ _ _ Hwf r va Hr Hva HV HS) as (Hi & _).
      destruct (dr_mask _ _ _ _ _ H2 _ Hi) as [->|[-> _]]; done.
    + rewrite <- Hlate in * by done. by apply (dr_slots _ _ _ _ _ H2).
  - intros x. destruct (dr_use _ _ _ _ _ H2 x) as [->|[E Hx]].
    + destruct (um_use _ _ _ _ _ _ H1 x) as [?|[? ?]]; [by left|right; split; [done|by right]].
    + right. split; [done|]. destruct (um_use _ _ _ _ _ _ H1 x) as [<-|[? ?]]; [done|by right].
  - intros i Hi. destruct (dr_mask _ _ _ _ _ H2 i Hi) as [->|(E & va & Hva & HV & HS & Ei)];
      [by apply (um_mask _ _ _ _ _ _ H1)|right].
    split; [done|]. pose proof (unmapped_old _ _ _ _ _ _ va Hr H1 Hva (or_intror HS)) as E0.
    rewrite E0 in HV, HS, Ei. by exists va.
  - intros r'. by rewrite (dr_root _ _ _ _ _ H2), Hr1.
  - intros r' va Hr' Hne Hva. rewrite (dr_views _ _ _ _ _ H2) by (done || by apply Hr1).
    apply (um_pte _ _ _ _ _ _ H1); [done|done|]. by intros [? _].
  - intros P x HP Hx. rewrite (dr_solid _ _ _ _ _ H2 P x); [by apply (um_solid _ _ _ _ _ _ H1 P x)| |done].
    destruct HP as [HP Hb]. split; [|done].
    destruct (um_use _ _ _ _ _ _ H1 P) as [->|(_ & v & Hd)]; [done|]. destruct HP; congruence.
  - eapply calm_trans; [apply (um_calm _ _ _ _ _ _ H1)|apply (dr_calm _ _ _ _ _ H2)].
Qed.

Lemma freewalk_dropped use slot k r : vm_wf use slot k -> vm_unlocked k -> is_root use r ->
  (forall va, 0 <= va < MAXVA -> has (pte_of (k_mem k) r va) PTE_V = false /\ has (pte_of (k_mem k) r va) PTE_S = false) ->
  wp (freewalk 2 r) (fun _ k' => exists use', vm_wf use' slot k' /\ dropped use k r use' k') k.
Proof.
  intros Hwf Hul Hr Hnone. pose proof (wf_pt _ _ _ Hwf) as Hpt.
  eapply wp_mono; [apply (freewalk_root_wp use slot k r Hwf Hul Hr); intros; by apply Hnone|].
  intros [] k' (use' & Hwf' & Htab & Hout & Hviews & Hmask & Hsolid & Hcalm). exists use'. split; [done|].
  assert (Hdec : forall x, (exists l pre, use x = PTab r l pre) \/ forall l pre, use x <> PTab r l pre).
  { intros x. destruct (use x) as [|r' l pre| | |]; try (by right). destruct (decide (r' = r)) as [->|Hn]; [left|right].
    - by exists l, pre.
    - intros l' pre' [= ? _ _]. done. }
  split; try done.
  - intros va Hva HV. destruct (Hnone va Hva). congruence.
  - intros va Hva HV HS. destruct (Hnone va Hva). congruence.
  - intros x. destruct (Hdec x) as [(l & pre & Hx)|Hx]; [right|left; by apply Hout].
    split; [by eapply Htab|]. left. by exists l, pre.
  - intros i _. left. by rewrite Hmask.
  - intros r'. unfold is_root. destruct (Hdec r') as [(l & pre & Hx)|Hx].
    + rewrite (Htab _ _ _ Hx), Hx. split; [done|]. intros [[= <- _ _] ?]. done.
    + rewrite Hout by done. split; [|by intros [? _]]. intros E. split; [done|]. intros ->. by destruct (Hx 2%nat 0).
Qed.

(** [uvmfree]: the process uses the pages below [sz], and nothing above is
    mapped any more. *)
Lemma uvmfree_wp use slot k r sz (N := PGROUNDUP sz / PGSIZE) :
  vm_wf use slot k -> vm_unlocked k -> is_root use r -> 0 <= sz <= MAXVA ->
  (forall va, 0 <= va < MAXVA -> va / PGSIZE < N -> frees_ok use (k_mem k) r va true) ->
  (forall va, 0 <= va < MAXVA -> N <= va / PGSIZE ->
     has (pte_of (k_mem k) r va) PTE_V = false /\ has (pte_of (k_mem k) r va) PTE_S = false) ->
  wp (uvmfree r sz) (fun _ k' => exists use', vm_wf use' slot k' /\ dropped use k r use' k') k.
Proof.
  intros Hwf Hul Hr Hsz Hlow Hhigh. unfold uvmfree. wp_step. fold N.
  assert (HN : 0 <= N /\ N * PGSIZE <= MAXVA /\ (sz = 0 -> N = 0)) by (subst N; rewrite PGROUNDUP_spec by addr; daddr).
  destruct (Z.ltb_spec 0 sz) as [Hp|Hp]; cbn [when].
  - eapply wp_mono; [apply (uvmunmap_wp use slot k r 0 N true Hwf Hul Hr); [done|lia|lia|lia|]|].
    + intros va Hva Hv. change (0 / PGSIZE) with 0 in Hv. apply Hlow; [done|lia].
    + change (0 / PGSIZE) with 0. rewrite Z.add_0_l. intros [] k1 (use1 & Hwf1 & Hum).
      eapply wp_mono; [apply (freewalk_dropped use1 slot k1 r Hwf1)|].
      * unfold vm_unlocked. by rewrite (cm_held _ _ (um_calm _ _ _ _ _ _ Hum)).
      * by apply (unmapped_root _ _ _ _ _ _ r Hum).
      * intros va Hva. destruct (within 0 N (va / PGSIZE)) eqn:E; [by apply (um_gone _ _ _ _ _ _ Hum)|].
        destruct (um_pte _ _ _ _ _ _ Hum r va Hr Hva) as [-> _]; [intros [_ ?]; congruence|].
        apply Hhigh; [done|]. unfold within in E. daddr.
      * intros [] k2 (use2 & Hwf2 & Hdr). exists use2. split; [done|]. by eapply unmapped_dropped.
  - wp_step. apply (freewalk_dropped use slot k r Hwf Hul Hr). intros va Hva. apply Hhigh; [done|]. daddr.
Qed.

(** The layout of a user address space: user pages up to [sz], and the
    trampoline and the trap frame at the top. *)
Record user_space (use : Z -> usage) (m : memory) (r sz : Z) : Prop := {
  us_sz : 0 <= sz <= TRAPFRAME;
  us_low va : 0 <= va < PGROUNDUP sz -> frees_ok use m r va true;
  us_gap va : PGROUNDUP sz <= va < TRAPFRAME -> has (pte_of m r va) PTE_V = false /\ has (pte_of m r va) PTE_S = false;
  us_kernel va : TRAPFRAME <= va < MAXVA -> has (pte_of m r va) PTE_V = true /\ use (PTE2PA (pte_of m r va)) = Other
}.
End VmFree.
