(* ===== verification/Demo.v ===== *)
(** * A machine state that satisfies the invariant of physical memory

    One process with five page-table pages, a resident page, a swapped page, a
    trap frame and twenty free pages: the instance the theorems about virtual memory are
    applied to. *)

From Stdlib Require Import ZArith Lia.
From stdpp Require Import base list strings sets.
From S2P Require Import Prelude Params Mem State Evict Kalloc Vm VmInv VmFault VmFaultSpec UserMem.

#[export] Instance demo_layout : Layout :=
  {| kend := KERNBASE + 0x20000; etext := KERNBASE + 0x10000; trampoline := KERNBASE + 0xf000 |}.

#[export] Instance demo_layout_ok : LayoutOk demo_layout.
Proof. split; done. Qed.

(** Page [n] after the kernel. *)
Definition pg (n : Z) : Z := KERNBASE + 0x20000 + n * PGSIZE.

Definition demo_flags : Z := Z.lor (Z.lor (Z.lor PTE_V PTE_R) PTE_W) PTE_U.

(** The 64-bit words of memory that are not zero: the page table at [pg 0]
    to [pg 2], [pg 24] and [pg 25], the user page [pg 3], the free list from
    [pg 4] to [pg 23] and swap slot 0.  The trap frame is [pg 30]. *)
Definition demo_word (a : Z) : Z :=
  if a =? pg 0 then Z.lor (PA2PTE (pg 1)) PTE_V
  else if a =? pg 0 + 8 * 255 then Z.lor (PA2PTE (pg 24)) PTE_V
  else if a =? pg 24 + 8 * 511 then Z.lor (PA2PTE (pg 25)) PTE_V
  else if a =? pg 25 + 8 * 511 then Z.lor (PA2PTE trampoline) (Z.lor (Z.lor PTE_R PTE_X) PTE_V)
  else if a =? pg 25 + 8 * 510 then Z.lor (PA2PTE (pg 30)) (Z.lor (Z.lor PTE_R PTE_W) PTE_V)
  else if a =? pg 1 then Z.lor (PA2PTE (pg 2)) PTE_V
  else if a =? pg 2 then Z.lor (PA2PTE (pg 3)) demo_flags
  else if a =? pg 2 + 8 then swap_pte 0 demo_flags
  else if a =? pg 3 then 42
  else if (pg 4 <=? a) && (a <? pg 23) && (a mod PGSIZE =? 0) then a + PGSIZE
  else if a =? get_swap_addr 0 then 7
  else 0.

Definition demo_mem : memory := fun a => (demo_word (8 * (a / 8)) / 256 ^ (a mod 8)) mod 256.

Definition demo_use : Z -> usage :=
  fupd (pg 0) (PTab (pg 0) 2 0) (fupd (pg 1) (PTab (pg 0) 1 0) (fupd (pg 2) (PTab (pg 0) 0 0)
    (fupd (pg 3) (Data (pg 0) 0) (fupd (pg 24) (PTab (pg 0) 1 255) (fupd (pg 25) (PTab (pg 0) 0 131071)
      (fun x => if (pg 4 <=? x) && (x <=? pg 23) && (x mod PGSIZE =? 0) then Free else Other)))))).

Definition demo_free : list Z := map (fun n => pg (Z.of_nat n)) (seq 4 20).

Definition demo_slot : Z -> option (Z * Z) := fupd 0 (Some (pg 0, 1)) (fun _ => None).

Definition demo_procs : list proc :=
  proc0 <| p_pagetable := pg 0 |> <| p_sz := 4 * PGSIZE |> <| p_state := RUNNING |> <| p_pid := 1 |>
    <| p_trapframe := pg 30 |> <| p_ofile ::= aset 0 (Some 0%nat) |> <| p_cwd := Some 0%nat |>
  :: replicate 63 proc0.

(** The machine with the process table [ps], whose slot [o] has the address
    space. *)
Definition demo_state (o : nat) (ps : list proc) : kernel :=
  mkkernel demo_mem (pg 4) (aset (frame_index (pg 3)) (mkframe 1 (Some o) 0 1) (replicate 512 frame0)) 0
    (1 :: replicate 4095 0) 0 ps (replicate 4 queue0) [2; 4; 8; 16] 2 (Some 0%nat) (Some 0%nat) 0 0 0
    (replicate 31 buf0) (fun _ => []) [] (mkloginfo 0 0 0 0 0 []) (mksuperblock 0 0 0 0 0 0 0 0)
    (inode0 <| i_ref := 1 |> :: replicate 49 inode0) (file0 <| fl_ref := 1 |> :: replicate 99 file0) (fun _ => pipe0) (mkconsole [] 0 0 0) 0 [] [] vdisk0 csrs0 [] 0 [] (Some 0%nat).

Definition demo : kernel := demo_state 0 demo_procs.

Lemma demo_word_range a : 0 <= demo_word a < 18446744073709551616.
Proof.
  unfold demo_word. repeat case_match; try done. unfold pg, PGSIZE, KERNBASE in *. lia.
Qed.

(** A memory given by words reads back as those words. *)
Lemma le_val_digits v n : 0 <= v ->
  forall f, (forall i, (i < n)%nat -> f (Z.of_nat i) = (v / 256 ^ Z.of_nat i) mod 256) ->
  forall a, le_val (ld_bytes (fun x => f (x - a)) a n) = v mod 256 ^ Z.of_nat n.
Proof.
  intros Hv f Hf a. rewrite <- le_val_bytes. f_equal. revert v Hv f a Hf.
  induction n as [|n IH]; intros v Hv f a Hf; cbn [ld_bytes le_bytes]; [done|]. f_equal.
  - rewrite Z.sub_diag. specialize (Hf 0%nat ltac:(lia)). by rewrite Z.div_1_r in Hf.
  - rewrite <- (IH (v / 256) ltac:(dlia) (fun x => f (x + 1)) (a + 1)).
    + apply ld_bytes_ext. intros i Hi. f_equal. lia.
    + intros i Hi. replace (Z.of_nat i + 1) with (Z.of_nat (S i)) by lia. rewrite Hf by lia. f_equal.
      rewrite Nat2Z.inj_succ, Z.pow_succ_r, Z.div_div by lia. done.
Qed.

Lemma words_ld64 (w : Z -> Z) a : a mod 8 = 0 -> 0 <= w a < 18446744073709551616 ->
  ld64 (fun x => (w (8 * (x / 8)) / 256 ^ (x mod 8)) mod 256) a = w a.
Proof.
  intros Ha Hr. transitivity (w a mod 256 ^ Z.of_nat 8); [|apply Z.mod_small; exact Hr].
  rewrite <- (le_val_digits (w a) 8 (proj1 Hr) (fun o => (w a / 256 ^ o) mod 256) ltac:(done) a).
  apply (ld64_ext _ (fun x => (w a / 256 ^ (x - a)) mod 256)). intros i Hi. cbv beta.
  replace (8 * ((a + i) / 8)) with a by dlia. replace ((a + i) mod 8) with i by dlia.
  by replace (a + i - a) with i by lia.
Qed.

Lemma demo_ld64 a : a mod 8 = 0 -> ld64 demo_mem a = demo_word a.
Proof. intros Ha. apply (words_ld64 demo_word a Ha), demo_word_range. Qed.

Lemma demo_mem_ok : mem_ok demo_mem.
Proof. intros a. unfold demo_mem, byte_ok. apply Z.mod_pos_bound. lia. Qed.

Ltac demo_pages := unfold pg, get_swap_addr in *; unfold_addr.

(** No word of the table lies at this address. *)
Ltac demo_none :=
  first [rewrite (proj2 (Z.leb_gt (pg 4) _)) by (demo_pages; lia)
        |rewrite (proj2 (Z.ltb_ge _ (pg 23))), andb_false_r by (demo_pages; lia)]; cbn [andb];
  repeat (rewrite (proj2 (Z.eqb_neq _ _)) by (demo_pages; lia)); done.

Lemma demo_use_inv x : demo_use x <> Other ->
  exists n, x = pg n /\ 0 <= n <= 25 /\
  demo_use x = (if n =? 0 then PTab (pg 0) 2 0 else if n =? 1 then PTab (pg 0) 1 0
                else if n =? 2 then PTab (pg 0) 0 0 else if n =? 3 then Data (pg 0) 0
                else if n =? 24 then PTab (pg 0) 1 255 else if n =? 25 then PTab (pg 0) 0 131071 else Free).
Proof.
  unfold demo_use, fupd. repeat case_decide; intros Hx; [exists 0|exists 1|exists 2|exists 3|exists 24|exists 25|];
    [(split; [done|]); (split; [lia|]); done..|].
  destruct ((pg 4 <=? x) && (x <=? pg 23) && (x mod PGSIZE =? 0)) eqn:E; [|done].
  exists ((x - pg 0) / PGSIZE). demo_pages. split; [dlia|]. split; [dlia|].
  by rewrite !(proj2 (Z.eqb_neq _ _)) by dlia.
Qed.

Lemma demo_ptab x r l pre : demo_use x = PTab r l pre ->
  r = pg 0 /\ ((x = pg 0 /\ l = 2%nat /\ pre = 0) \/ (x = pg 1 /\ l = 1%nat /\ pre = 0) \/ (x = pg 2 /\ l = 0%nat /\ pre = 0) \/
    (x = pg 24 /\ l = 1%nat /\ pre = 255) \/ (x = pg 25 /\ l = 0%nat /\ pre = 131071)).
Proof.
  intros H. destruct (demo_use_inv x) as (n & -> & Hn & E); [by rewrite H|]. rewrite E in H. clear E.
  destruct (Z.eqb_spec n 0) as [E0|_]; [rewrite E0; injection H as <- <- <-; tauto|].
  destruct (Z.eqb_spec n 1) as [E1|_]; [rewrite E1; injection H as <- <- <-; tauto|].
  destruct (Z.eqb_spec n 2) as [E2|_]; [rewrite E2; injection H as <- <- <-; tauto|].
  destruct (n =? 3); [done|].
  destruct (Z.eqb_spec n 24) as [E24|_]; [rewrite E24; injection H as <- <- <-; tauto|].
  destruct (Z.eqb_spec n 25) as [E25|_]; [rewrite E25; injection H as <- <- <-; tauto|done].
Qed.

(** The entries of the page-table pages. *)
Lemma demo_entry0 i : 0 <= i < 512 ->
  ld64 demo_mem (pg 0 + 8 * i) = if i =? 0 then Z.lor (PA2PTE (pg 1)) PTE_V
    else if i =? 255 then Z.lor (PA2PTE (pg 24)) PTE_V else 0.
Proof.
  intros Hi. rewrite demo_ld64 by (demo_pages; dlia). unfold demo_word.
  destruct (Z.eqb_spec i 0) as [->|Hne]; [done|]. destruct (Z.eqb_spec i 255) as [->|Hne1]; [done|].
  demo_none.
Qed.
Lemma demo_entry1 i : 0 <= i < 512 ->
  ld64 demo_mem (pg 1 + 8 * i) = if i =? 0 then Z.lor (PA2PTE (pg 2)) PTE_V else 0.
Proof.
  intros Hi. rewrite demo_ld64 by (demo_pages; dlia). unfold demo_word.
  destruct (Z.eqb_spec i 0) as [->|Hne]; [done|].
  demo_none.
Qed.
Lemma demo_entry2 i : 0 <= i < 512 ->
  ld64 demo_mem (pg 2 + 8 * i) =
    if i =? 0 then Z.lor (PA2PTE (pg 3)) demo_flags else if i =? 1 then swap_pte 0 demo_flags else 0.
Proof.
  intros Hi. rewrite demo_ld64 by (demo_pages; dlia). unfold demo_word.
  destruct (Z.eqb_spec i 0) as [->|Hne]; [done|]. destruct (Z.eqb_spec i 1) as [->|Hne1]; [done|].
  demo_none.
Qed.
Lemma demo_entry24 i : 0 <= i < 512 ->
  ld64 demo_mem (pg 24 + 8 * i) = if i =? 511 then Z.lor (PA2PTE (pg 25)) PTE_V else 0.
Proof.
  intros Hi. rewrite demo_ld64 by (demo_pages; dlia). unfold demo_word.
  destruct (Z.eqb_spec i 511) as [->|Hne]; [done|].
  demo_none.
Qed.
Lemma demo_entry25 i : 0 <= i < 512 ->
  ld64 demo_mem (pg 25 + 8 * i) =
    if i =? 511 then Z.lor (PA2PTE trampoline) (Z.lor (Z.lor PTE_R PTE_X) PTE_V)
    else if i =? 510 then Z.lor (PA2PTE (pg 30)) (Z.lor (Z.lor PTE_R PTE_W) PTE_V) else 0.
Proof.
  intros Hi. rewrite demo_ld64 by (demo_pages; dlia). unfold demo_word.
  destruct (Z.eqb_spec i 511) as [->|Hne]; [done|]. destruct (Z.eqb_spec i 510) as [->|Hne1]; [done|].
  demo_none.
Qed.

(** The page table maps page 0 to [pg 3], page 1 to swap slot 0, and the last
    two pages to the trap frame and the trampoline. *)
Definition demo_pte_of (vpn : Z) : Z :=
  if vpn =? 0 then Z.lor (PA2PTE (pg 3)) demo_flags
  else if vpn =? 1 then swap_pte 0 demo_flags
  else if vpn =? 67108862 then Z.lor (PA2PTE (pg 30)) (Z.lor (Z.lor PTE_R PTE_W) PTE_V)
  else if vpn =? 67108863 then Z.lor (PA2PTE trampoline) (Z.lor (Z.lor PTE_R PTE_X) PTE_V)
  else 0.

Lemma demo_pte va : 0 <= va < MAXVA -> pte_of demo_mem (pg 0) va = demo_pte_of (va / PGSIZE).
Proof.
  intros Hva. pose proof (PX_decompose va Hva) as Hd.
  pose proof (PX_range 2 va ltac:(lia)). pose proof (PX_range 1 va ltac:(lia)). pose proof (PX_range 0 va ltac:(lia)).
  assert (Hq : va / PGSIZE = 2 ^ 18 * PX 2 va + 2 ^ 9 * PX 1 va + PX 0 va) by (unfold PGSIZE; dlia).
  rewrite Hq. unfold pte_of, pte_addr, demo_pte_of. cbn [pt_walk]. change (Z.of_nat 2) with 2. change (Z.of_nat 1) with 1.
  rewrite demo_entry0 by done. destruct (Z.eqb_spec (PX 2 va) 0) as [->|Hn2]; [|destruct (Z.eqb_spec (PX 2 va) 255) as [->|Hn3]].
  - change (has (Z.lor (PA2PTE (pg 1)) PTE_V) PTE_V) with true. cbv iota.
    change (PTE2PA (Z.lor (PA2PTE (pg 1)) PTE_V)) with (pg 1). rewrite demo_entry1 by done.
    destruct (Z.eqb_spec (PX 1 va) 0) as [->|Hn1].
    + change (has (Z.lor (PA2PTE (pg 2)) PTE_V) PTE_V) with true. cbv iota.
      change (PTE2PA (Z.lor (PA2PTE (pg 2)) PTE_V)) with (pg 2).
      rewrite (proj2 (Z.eqb_neq (pg 2 + 8 * PX 0 va) 0)) by (demo_pages; lia).
      rewrite demo_entry2 by done. rewrite !(proj2 (Z.eqb_neq _ 67108862)), !(proj2 (Z.eqb_neq _ 67108863)) by lia. f_equal.
    + change (has 0 PTE_V) with false. cbn [Z.eqb]. by rewrite !(proj2 (Z.eqb_neq _ _)) by lia.
  - change (has (Z.lor (PA2PTE (pg 24)) PTE_V) PTE_V) with true. cbv iota.
    change (PTE2PA (Z.lor (PA2PTE (pg 24)) PTE_V)) with (pg 24). rewrite demo_entry24 by done.
    rewrite (proj2 (Z.eqb_neq (_ + PX 0 va) 0)), (proj2 (Z.eqb_neq (_ + PX 0 va) 1)) by lia.
    destruct (Z.eqb_spec (PX 1 va) 511) as [->|Hn1].
    + change (has (Z.lor (PA2PTE (pg 25)) PTE_V) PTE_V) with true. cbv iota.
      change (PTE2PA (Z.lor (PA2PTE (pg 25)) PTE_V)) with (pg 25).
      rewrite (proj2 (Z.eqb_neq (pg 25 + 8 * PX 0 va) 0)) by (demo_pages; lia). rewrite demo_entry25 by done.
      destruct (Z.eqb_spec (PX 0 va) 511) as [->|?]; [done|]. destruct (Z.eqb_spec (PX 0 va) 510) as [->|?]; [done|].
      by rewrite !(proj2 (Z.eqb_neq _ _)) by lia.
    + change (has 0 PTE_V) with false. cbn [Z.eqb]. by rewrite !(proj2 (Z.eqb_neq _ _)) by lia.
  - change (has 0 PTE_V) with false. cbn [Z.eqb]. by rewrite !(proj2 (Z.eqb_neq _ _)) by lia.
Qed.

Lemma demo_root r : is_root demo_use r <-> r = pg 0.
Proof.
  split; [|by intros ->]. intros H. by destruct (demo_ptab _ _ _ _ H) as (-> & _).
Qed.

Lemma demo_pt_ok : pt_ok demo_use demo_mem.
Proof.
  split.
  - intros x Hx. destruct (demo_use_inv x Hx) as (n & -> & Hn & _). unfold page_ok. cbn [kend demo_layout].
    demo_pages. dlia.
  - intros x r l pre (-> & _)%demo_ptab. done.
  - intros x y r l pre (_ & Hx)%demo_ptab (_ & Hy)%demo_ptab. naive_solver.
  - intros x r l pre i (-> & Hx)%demo_ptab Hi.
    destruct Hx as [(-> & [= ->] & ->)|[(-> & [= ->] & ->)|[(_ & ? & _)|[(-> & [= ->] & ->)|(_ & ? & _)]]]]; [| |lia| |lia].
    + rewrite demo_entry0 by done. destruct (Z.eqb_spec i 0) as [->|]; [done|]. destruct (Z.eqb_spec i 255) as [->|]; done.
    + rewrite demo_entry1 by done. destruct (Z.eqb_spec i 0) as [->|]; done.
    + rewrite demo_entry24 by done. destruct (Z.eqb_spec i 511) as [->|]; done.
  - intros x r l pre (-> & Hx)%demo_ptab. naive_solver lia.
  - intros x r l pre (-> & Hx)%demo_ptab Hl.
    destruct Hx as [(_ & -> & _)|[(-> & -> & ->)|[(-> & -> & ->)|[(-> & -> & ->)|(-> & -> & ->)]]]]; [lia|..].
    + exists (pg 0). done.
    + exists (pg 1). done.
    + exists (pg 0). done.
    + exists (pg 24). done.
  - intros x r l pre i (-> & Hx)%demo_ptab Hi.
    destruct Hx as [(-> & [= ->] & ->)|[(-> & [= ->] & ->)|[(_ & ? & _)|[(-> & [= ->] & ->)|(_ & ? & _)]]]]; [| |lia| |lia].
    + rewrite demo_entry0 by done. destruct (Z.eqb_spec i 0) as [->|]; [done|]. destruct (Z.eqb_spec i 255) as [->|]; done.
    + rewrite demo_entry1 by done. destruct (Z.eqb_spec i 0) as [->|]; done.
    + rewrite demo_entry24 by done. destruct (Z.eqb_spec i 511) as [->|]; done.
  - intros x r pre (-> & Hx)%demo_ptab. naive_solver lia.
Qed.

Lemma demo_freelist : freelist_rep demo_mem (pg 4) demo_free.
Proof. unfold demo_free. cbn. rewrite !demo_ld64 by done. repeat (split; [done|]). done. Qed.

Lemma demo_free_nodup : NoDup demo_free.
Proof. apply (bool_decide_unpack _). vm_compute. done. Qed.

Lemma demo_free_use a : a ∈ demo_free <-> demo_use a = Free.
Proof.
  unfold demo_free. rewrite list_elem_of_In, in_map_iff. split.
  - intros (n & <- & Hn%in_seq). unfold demo_use. rewrite !fupd_ne by (demo_pages; lia).
    demo_pages. by rewrite !(proj2 (Z.leb_le _ _)), (proj2 (Z.eqb_eq _ _)) by dlia.
  - intros Ha. destruct (demo_use_inv a) as (n & -> & Hn & E); [by rewrite Ha|]. rewrite Ha in E.
    exists (Z.to_nat n). split; [f_equal; lia|]. apply in_seq.
    destruct (Z.eqb_spec n 0), (Z.eqb_spec n 1), (Z.eqb_spec n 2), (Z.eqb_spec n 3), (Z.eqb_spec n 24), (Z.eqb_spec n 25);
      try done; lia.
Qed.

Lemma demo_pte_cases v :
  (v = 0 /\ demo_pte_of v = Z.lor (PA2PTE (pg 3)) demo_flags) \/ (v = 1 /\ demo_pte_of v = swap_pte 0 demo_flags) \/
  (v = 67108862 /\ demo_pte_of v = Z.lor (PA2PTE (pg 30)) (Z.lor (Z.lor PTE_R PTE_W) PTE_V)) \/
  (v = 67108863 /\ demo_pte_of v = Z.lor (PA2PTE trampoline) (Z.lor (Z.lor PTE_R PTE_X) PTE_V)) \/ demo_pte_of v = 0.
Proof.
  unfold demo_pte_of. destruct (Z.eqb_spec v 0), (Z.eqb_spec v 1), (Z.eqb_spec v 67108862), (Z.eqb_spec v 67108863); tauto.
Qed.

Lemma demo_state_wf o ps : p_pagetable (ps !!! o) = pg 0 -> vm_wf demo_use demo_slot (demo_state o ps).
Proof.
  intros Ho. split.
  - apply demo_mem_ok.
  - apply demo_pt_ok.
  - intros r va Hr Hva. apply demo_root in Hr as ->. unfold leaf_ok. cbn [k_mem demo_state].
    rewrite demo_pte by done. destruct (demo_pte_cases (va / PGSIZE)) as [[-> ->]|[[-> ->]|[[-> ->]|[[-> ->]| ->]]]];
      intros HV; [by left|done|by right..|done].
  - exists demo_free. split; [apply demo_freelist|split; [apply demo_free_nodup|apply demo_free_use]].
  - done.
  - intros r va Hr Hva. apply demo_root in Hr as ->. unfold swap_entry_ok. cbn [k_mem demo_state].
    rewrite demo_pte by done. destruct (demo_pte_cases (va / PGSIZE)) as [[-> ->]|[[-> ->]|[[-> ->]|[[-> ->]| ->]]]]; done.
  - done.
  - intros j Hj p. destruct (decide (j = frame_index (pg 3))) as [->|Hne].
    + intros _ Hp. assert (p = o) as -> by (revert Hp; by intros [= <-]).
      change (k_procs (demo_state o ps)) with ps. cbv zeta. rewrite Ho. done.
    + unfold frame_at, demo_state. cbn [k_frames]. rewrite aget_aset, decide_False by (done || lia).
      unfold aget. rewrite lookup_total_replicate_2 by (change NFRAMES with 512 in Hj; lia). done.
Qed.

Lemma demo_wf : vm_wf demo_use demo_slot demo.
Proof. by apply demo_state_wf. Qed.

Lemma demo_unlocked : vm_unlocked demo.
Proof. unfold vm_unlocked. cbn. set_solver. Qed.

Lemma demo_can_swap : can_swap demo.
Proof.
  split.
  - exists (frame_index (pg 3)). done.
  - exists 1. done.
Qed.

Lemma demo_free_pages n : (n <= 20)%nat -> free_pages demo n.
Proof. intros Hn. exists demo_free. split; [apply demo_freelist|done]. Qed.

Lemma demo_uctx : uctx demo_use 0 (pg 0) demo.
Proof.
  split; [|done|apply demo_unlocked|done|done|apply demo_can_swap].
  exists demo_use, demo_slot. split; [apply demo_wf|done].
Qed.

(** The first two pages are accessible, the second one from its swap slot. *)
Lemma demo_accessible va : 0 <= va < 2 * PGSIZE -> accessible demo_mem (pg 0) va PTE_W.
Proof.
  intros Hva. unfold accessible, view. rewrite demo_pte by addr.
  assert (va / PGSIZE = 0 \/ va / PGSIZE = 1) as [-> | ->] by daddr; cbn; eauto.
Qed.
