(* ===== verification/VmTheorems.v ===== *)
(** * What the memory system promises

    The theorems on allocation, eviction, page faults and copying, each with
    an instance on the machine state of [Demo]. *)

From Stdlib Require Import ZArith Lia.
From stdpp Require Import base list strings sets.
From S2P Require Import Prelude Params Mem State Evict Kalloc Vm VmInv VmFault VmFaultSpec.
From S2P Require Import UserMem Demo.

Section VmTheorems.
Context {L : Layout} {LO : LayoutOk L}.

(** C1. Allocation is transparent: when a page is free, or one can be moved to
    a swap slot, [kalloc] returns a page of RAM that was on the free list or
    held a user page; afterwards the page belongs to the caller alone, the
    invariant of physical memory still holds, and every address of every
    process reads the same byte with the same permissions as before, whether
    the page is now in RAM or in a swap slot. *)
Theorem kalloc_transparent use slot k :
  vm_wf use slot k -> vm_unlocked k -> can_alloc k ->
  wp kalloc (fun pa k' =>
    page_ok pa /\ (use pa = Free \/ exists r vpn, use pa = Data r vpn) /\
    (exists slot', vm_wf (fupd pa Owned use) slot' k') /\
    (forall r va, is_root use r -> 0 <= va < MAXVA -> view (k_mem k') r va = view (k_mem k) r va)) k.
Proof.
  intros Hwf Hul Hcan. eapply wp_mono; [by eapply kalloc_wp|].
  intros pa k' (Hpg & Hu & Hw & Hq). split; [done|]. split; [done|]. split; [done|]. apply Hq.
Qed.

(** C2. A fault on a swapped page of the running process brings it back: the
    entry becomes valid for the returned frame with the flags the page had
    before its eviction, the swap slot is free again, and no address of any
    process reads differently. *)
Theorem vmfault_swap_in use slot k p r va :
  vm_wf use slot k -> vm_unlocked k -> can_alloc k -> k_cur k = Some p -> is_root use r ->
  p_pagetable (k_procs k !!! p) = r -> 0 <= va < MAXVA -> va < p_sz (k_procs k !!! p) ->
  has (pte_of (k_mem k) r va) PTE_V = false -> has (pte_of (k_mem k) r va) PTE_S = true ->
  wp (vmfault r va) (fun mem k' =>
    page_ok mem /\ pte_of (k_mem k') r va = Z.lor (PA2PTE mem) (restored (pte_of (k_mem k) r va)) /\
    (exists use' slot', vm_wf use' slot' k' /\ forall r, is_root use' r <-> is_root use r) /\
    (forall r va, is_root use r -> 0 <= va < MAXVA -> view (k_mem k') r va = view (k_mem k) r va)) k.
Proof.
  intros Hwf Hul Hcan Hcur Hr Hp Hva Hsz HV HS.
  eapply wp_mono; [by eapply (vmfault_swap Hwf Hul Hcur Hr Hp Hva Hsz HV HS Hcan)|].
  intros mem k' ([F1 (use' & slot' & Hwf' & Htab) F3 _ _ _] & Hs & _). split; [done|].
  split; [by rewrite <- F3, (fault_pte Hva)|]. split; [|done]. exists use', slot'. split; [done|].
  intros r'. apply Htab.
Qed.

(** C3. A fault below the process size on a page that was never allocated
    makes that page appear filled with zeros, readable and writable by the
    process, and changes no other page of any process. *)
Theorem vmfault_zero_fill use slot k p r va :
  vm_wf use slot k -> vm_unlocked k -> free_pages k 3 -> k_cur k = Some p -> is_root use r ->
  p_pagetable (k_procs k !!! p) = r -> 0 <= va < MAXVA -> va < p_sz (k_procs k !!! p) ->
  has (pte_of (k_mem k) r va) PTE_V = false -> has (pte_of (k_mem k) r va) PTE_S = false ->
  wp (vmfault r va) (fun mem k' =>
    (exists use' slot', vm_wf use' slot' k' /\ forall r, is_root use' r <-> is_root use r) /\
    forall r' va', is_root use r' -> 0 <= va' < MAXVA ->
      view (k_mem k') r' va' =
        if decide (r' = r /\ va' / PGSIZE = va / PGSIZE) then Some (lazy_flags, 0)
        else view (k_mem k) r' va') k.
Proof.
  intros Hwf Hul Hfree Hcur Hr Hp Hva Hsz HV HS.
  eapply wp_mono; [by apply (vmfault_fresh Hwf Hul Hcur Hr Hp Hva Hsz 0 HV HS)|].
  intros mem k' [_ Hw Hz Ho _ _]. split; [done|]. intros r' va' Hr' Hva'.
  case_decide as E; [destruct E as [-> E]; by apply Hz|by apply Ho].
Qed.

(** C4. [copyout] followed by [copyin] of the same range gives back the bytes
    that were stored, for every range of pages the process may write, of any
    length and alignment, with pages in RAM or in swap slots; and the two
    calls change nothing else that any process can see. *)
Theorem copyout_copyin use0 p r k dst src len :
  uctx use0 p r k -> 0 <= dst -> Z.of_nat (length src) = len -> Forall byte_ok src ->
  dst + len <= p_sz (k_procs k !!! p) -> dst + len <= MAXVA ->
  (forall i, 0 <= i < len -> accessible (k_mem k) r (dst + i) PTE_W) ->
  wp (let! a := copyout r dst src len in
      let! b := copyin r dst len in ret (a, b))
    (fun res k' => res = (0, (0, src)) /\ uctx use0 p r k' /\ written use0 (k_mem k) (k_mem k') r dst src) k.
Proof.
  intros Hu Hdst Hlen Hbs Hsz Hmax Hacc. wp_steps. unfold copyout, copyin.
  eapply wp_mono; [by apply (copyout_loop_wp use0 p r)|]. intros a k1 (Hu1 & Hc1 & Hw1 & ->). wp_steps.
  pose proof (uc_root _ _ _ _ Hu) as Hr.
  eapply wp_mono; [apply (copyin_loop_wp use0 p r); [done|done|done|lia|by rewrite (cm_sz _ _ Hc1)|done|]|].
  - intros i Hi. assert (Hi' : 0 <= dst + i < MAXVA) by lia.
    destruct (accessible_written _ _ _ _ _ _ _ _ Hw1 Hr Hi' (Hacc i Hi)) as (fl & b & ? & ? & _). by exists fl, b.
  - intros res k2 (Hu2 & Hc2 & Hs2 & ->). wp_steps. split; [|split; [done|]].
    + do 2 f_equal. by eapply (ubytes_written use0 (k_mem k)).
    + intros r' va Hr' Hva. by rewrite Hs2, Hw1.
Qed.
End VmTheorems.

Lemma kalloc_transparent_witness :
  wp kalloc (fun pa k' =>
    page_ok pa /\ (demo_use pa = Free \/ exists r vpn, demo_use pa = Data r vpn) /\
    (exists slot', vm_wf (fupd pa Owned demo_use) slot' k') /\
    (forall r va, is_root demo_use r -> 0 <= va < MAXVA -> view (k_mem k') r va = view (k_mem demo) r va)) demo.
Proof.
  apply (kalloc_transparent demo_use demo_slot); [apply demo_wf|apply demo_unlocked|right; apply demo_can_swap].
Defined.

Lemma vmfault_swap_in_witness :
  wp (vmfault (pg 0) (PGSIZE + 5)) (fun mem k' =>
    page_ok mem /\ pte_of (k_mem k') (pg 0) (PGSIZE + 5)
      = Z.lor (PA2PTE mem) (restored (pte_of (k_mem demo) (pg 0) (PGSIZE + 5))) /\
    (exists use' slot', vm_wf use' slot' k' /\ forall r, is_root use' r <-> is_root demo_use r) /\
    (forall r va, is_root demo_use r -> 0 <= va < MAXVA -> view (k_mem k') r va = view (k_mem demo) r va)) demo.
Proof.
  apply (vmfault_swap_in demo_use demo_slot demo 0);
    [apply demo_wf|apply demo_unlocked|right; apply demo_can_swap|done|done|done|done|done| |];
    cbn [k_mem demo]; by rewrite demo_pte.
Defined.

Lemma vmfault_zero_fill_witness :
  wp (vmfault (pg 0) (3 * PGSIZE)) (fun mem k' =>
    (exists use' slot', vm_wf use' slot' k' /\ forall r, is_root use' r <-> is_root demo_use r) /\
    forall r' va', is_root demo_use r' -> 0 <= va' < MAXVA ->
      view (k_mem k') r' va' =
        if decide (r' = pg 0 /\ va' / PGSIZE = 3 * PGSIZE / PGSIZE) then Some (lazy_flags, 0)
        else view (k_mem demo) r' va') demo.
Proof.
  apply (vmfault_zero_fill demo_use demo_slot demo 0);
    [apply demo_wf|apply demo_unlocked|by apply demo_free_pages; lia|done|done|done|done|done| |];
    cbn [k_mem demo]; by rewrite demo_pte.
Defined.

Lemma copyout_copyin_witness :
  wp (let! a := copyout (pg 0) 4094 [1; 2; 3; 4] 4 in
      let! b := copyin (pg 0) 4094 4 in ret (a, b))
    (fun res k' => res = (0, (0, [1; 2; 3; 4])) /\ uctx demo_use 0 (pg 0) k' /\
       written demo_use (k_mem demo) (k_mem k') (pg 0) 4094 [1; 2; 3; 4]) demo.
Proof.
  apply (copyout_copyin demo_use 0 (pg 0) demo 4094 [1; 2; 3; 4] 4); [apply demo_uctx|done|done| |done|done|].
  - repeat constructor; done.
  - intros i Hi. apply demo_accessible. addr.
Defined.
