(* ===== verification/Grep.v ===== *)
(** * grep

    user/grep.c: the matcher of Kernighan and Pike against the language of
    the pattern, and the loop that cuts what it reads into lines.  Strings are
    lists of the bytes before the NUL. *)

From Stdlib Require Import ZArith Lia.
From stdpp Require Import base list sets.
From S2P Require Import Prelude.

(** ** The matcher *)
Definition CARET : Z := 94.
Definition DOLLAR : Z := 36.
Definition STAR : Z := 42.
Definition DOT : Z := 46.
Definition NL : Z := 10.

(** matchstar, with matchhere of the rest of the pattern as [here]. *)
Fixpoint matchstar (c : Z) (here : list Z -> bool) (text : list Z) : bool :=
  here text ||
  match text with
  | [] => false
  | t :: text' => ((t =? c) || (c =? DOT)) && matchstar c here text'
  end.

Fixpoint matchhere (re : list Z) (text : list Z) {struct re} : bool :=
  match re with
  | [] => true
  | c :: re1 =>
      let one :=
        if (c =? DOLLAR) && (match re1 with [] => true | _ => false end)
        then (match text with [] => true | _ => false end)
        else match text with
             | [] => false
             | t :: text' => if (c =? DOT) || (c =? t) then matchhere re1 text' else false
             end in
      match re1 with
      | s :: re2 => if s =? STAR then matchstar c (matchhere re2) text else one
      | [] => one
      end
  end.

(** The loop of match: matchhere at every place, the end included. *)
Fixpoint match_any (re text : list Z) : bool :=
  matchhere re text ||
  match text with
  | [] => false
  | _ :: text' => match_any re text'
  end.

Definition match_ (re text : list Z) : bool :=
  match re with
  | c :: re' => if c =? CARET then matchhere re' text else match_any re text
  | [] => match_any re text
  end.

(** ** The language of a pattern *)
Inductive item : Type :=
| One (c : Z)
| Many (c : Z).

Definition fits (c t : Z) : Prop := c = DOT \/ c = t.

(** The items of a pattern, and whether it ends in a [$] that stands for the
    end of the text. *)
Fixpoint items (re : list Z) : list item * bool :=
  match re with
  | [] => ([], false)
  | c :: re1 =>
      match re1 with
      | [] => if c =? DOLLAR then ([], true) else ([One c], false)
      | s :: re2 =>
          if s =? STAR then let '(l, e) := items re2 in (Many c :: l, e)
          else let '(l, e) := items re1 in (One c :: l, e)
      end
  end.

Inductive lang : list item -> list Z -> Prop :=
| lang_nil : lang [] []
| lang_one c l t s : fits c t -> lang l s -> lang (One c :: l) (t :: s)
| lang_many c l s1 s2 : Forall (fits c) s1 -> lang l s2 -> lang (Many c :: l) (s1 ++ s2).

(** A beginning of [text] is in the language, and is all of it after [$]. *)
Definition begins (re text : list Z) : Prop :=
  exists s b, text = s ++ b /\ lang (items re).1 s /\ ((items re).2 = true -> b = []).

Lemma matchstar_spec c here text : matchstar c here text = true <->
  exists s b, text = s ++ b /\ Forall (fits c) s /\ here b = true.
Proof.
  induction text as [|t text IH]; cbn; rewrite orb_true_iff.
  - split.
    + intros [H|H]; [|done]. by exists [], [].
    + intros (s & b & E & _ & H). symmetry in E. apply app_nil in E as [-> ->]. by left.
  - rewrite andb_true_iff, IH, orb_true_iff, !Z.eqb_eq. split.
    + intros [H|[Hc (s & b & -> & Hs & Hb)]]; [by exists [], (t :: text)|].
      exists (t :: s), b. split; [done|]. split; [constructor; [unfold fits; naive_solver|done]|done].
    + intros ([|t' s] & b & E & Hs & Hb); cbn in E; [subst b; by left|]. injection E as <- ->.
      apply Forall_cons in Hs as [Hc Hs]. right. split; [unfold fits in Hc; naive_solver|]. by exists s, b.
Qed.

Lemma fits_b c t : ((c =? DOT) || (c =? t)) = true <-> fits c t.
Proof. by rewrite orb_true_iff, !Z.eqb_eq. Qed.

Lemma begins_one c re text : items (c :: re) = (One c :: (items re).1, (items re).2) ->
  begins (c :: re) text <-> exists t text', text = t :: text' /\ fits c t /\ begins re text'.
Proof.
  intros E. unfold begins. rewrite E. cbn [fst snd]. split.
  - intros (s & b & -> & Hl & He). inversion Hl as [|c' l t s' Hf Hl' E1 E2|]; subst. exists t, (s' ++ b). naive_solver.
  - intros (t & text' & -> & Hf & s & b & -> & Hl & He). exists (t :: s), b. split; [done|]. split; [by constructor|done].
Qed.

Lemma begins_many c re text : begins (c :: STAR :: re) text <-> exists s b, text = s ++ b /\ Forall (fits c) s /\ begins re b.
Proof.
  assert (items (c :: STAR :: re) = (Many c :: (items re).1, (items re).2)) as E by (cbn; by destruct (items re)).
  unfold begins. rewrite E. cbn [fst snd]. split.
  - intros (s & b & -> & Hl & He). inversion Hl as [| |c' l s1 s2 Hf Hl' E1 E2]; subst. exists s1, (s2 ++ b).
    split; [by rewrite app_assoc|]. naive_solver.
  - intros (s & b & -> & Hf & s' & b' & -> & Hl & He). exists (s ++ s'), b'. split; [by rewrite app_assoc|]. split; [by constructor|done].
Qed.

Lemma matchhere_spec re text : matchhere re text = true <-> begins re text.
Proof.
  remember (length re) as n eqn:Hn. revert re Hn text. induction (lt_wf n) as [n _ IH]. intros re -> text.
  assert (forall c re', items (c :: re') = (One c :: (items re').1, (items re').2) -> (length re' < length re)%nat ->
    (match text with [] => false | t :: text' => if (c =? DOT) || (c =? t) then matchhere re' text' else false end) = true <->
    begins (c :: re') text) as Hone.
  { intros c re' E Hlt. rewrite (begins_one c re' text E). destruct text as [|t text]; [naive_solver|].
    split.
    - destruct ((c =? DOT) || (c =? t)) eqn:Ef; [|done]. intros Hm. exists t, text. split; [done|]. split; [by apply fits_b|].
      by apply (IH (length re') Hlt re' eq_refl).
    - intros (t' & text' & [= <- <-] & Hf & Hb). apply fits_b in Hf. rewrite Hf. by apply (IH (length re') Hlt re' eq_refl). }
  destruct re as [|c [|s re]].
  - split; [intros _; exists [], text; by repeat constructor|done].
  - cbn. destruct (Z.eqb_spec c DOLLAR) as [->|Hd]; cbn.
    + split; [destruct text; [exists [], []; by repeat constructor|done]|]. intros (s & b & -> & Hl & He). cbn in Hl, He. rewrite He by done. by inversion Hl.
    + apply (Hone c []); [cbn; by destruct (Z.eqb_spec c DOLLAR)|cbn; lia].
  - cbn [matchhere]. destruct (Z.eqb_spec s STAR) as [->|Hs].
    + rewrite matchstar_spec, begins_many. pose proof (IH (length re) ltac:(cbn; lia) re eq_refl) as IHr.
      split; intros (x & b & E & Hf & Hb); exists x, b; naive_solver.
    + rewrite andb_false_r. apply (Hone c (s :: re)); [|cbn; lia]. change (items (c :: s :: re)) with (if s =? STAR then let '(l, e) := items re in (Many c :: l, e) else let '(l, e) := items (s :: re) in (One c :: l, e)).
      destruct (Z.eqb_spec s STAR); [done|]. by destruct (items (s :: re)).
Qed.

Lemma match_any_spec re text : match_any re text = true <-> exists a b, text = a ++ b /\ begins re b.
Proof.
  induction text as [|t text IH]; cbn; rewrite orb_true_iff, matchhere_spec.
  - split; [intros [H|H]; [by exists [], []|done]|]. intros (a & b & E & H). symmetry in E. apply app_nil in E as [-> ->]. by left.
  - rewrite IH. split.
    + intros [H|(a & b & -> & H)]; [by exists [], (t :: text)|by exists (t :: a), b].
    + intros ([|t' a] & b & E & H); cbn in E; [subst b; by left|]. injection E as <- ->. right. by exists a, b.
Qed.

(** C30. The matcher accepts exactly the lines that contain a string of the
    pattern's language: characters, [.] for any character, [c*] for any
    number of [c], at the beginning of the line after [^], and up to its end
    before [$]. *)
Theorem match_spec re text : match_ re text = true <->
  let anchored := match re with c :: _ => c =? CARET | [] => false end in
  let '(l, e) := items (if anchored then tail re else re) in
  exists a s b, text = a ++ s ++ b /\ lang l s /\ (anchored = true -> a = []) /\ (e = true -> b = []).
Proof.
  assert (forall r, match_any r text = true <-> exists a s b, text = a ++ s ++ b /\ lang (items r).1 s /\
    (false = true -> a = []) /\ ((items r).2 = true -> b = [])) as Hany.
  { intros r. rewrite match_any_spec. unfold begins. naive_solver. }
  destruct re as [|c re]; cbn -[items].
  - rewrite Hany. by destruct (items []).
  - destruct (Z.eqb_spec c CARET) as [->|Hc]; cbn [tail].
    + rewrite matchhere_spec. unfold begins. destruct (items re) as [l e]. split.
      * intros (s & b & -> & Hl & He). by exists [], s, b.
      * intros (a & s & b & -> & Hl & Ha & He). rewrite Ha by done. by exists s, b.
    + rewrite Hany. by destruct (items (c :: re)).
Qed.

(** ** Cutting the input into lines *)
Definition BUFSZ : Z := 1024.

(** The index of the first [c] before the NUL. *)
Fixpoint strchr (c : Z) (s : list Z) : option nat :=
  match s with
  | [] => None
  | x :: s' => if x =? 0 then None else if x =? c then Some 0%nat else S <$> strchr c s'
  end.

(** The inner loop of grep on the bytes [p] of the buffer: what it writes,
    and the bytes it leaves for the next round. *)
Fixpoint grep_lines (fuel : nat) (pattern p : list Z) : list Z * list Z :=
  match fuel with
  | O => ([], p)
  | S fuel' =>
      match strchr NL p with
      | None => ([], p)
      | Some q =>
          let line := take q p in
          let '(out, rest) := grep_lines fuel' pattern (drop (S q) p) in
          ((if match_ pattern line then line ++ [NL] else []) ++ out, rest)
      end
  end.

Section Grep.
(** read(fd, ., n) on a file or pipe with the bytes [s] still to come returns
    [pick n s] of them. *)
Context (pick : Z -> list Z -> nat).

Fixpoint grep_loop (fuel : nat) (pattern m s : list Z) : list Z :=
  match fuel with
  | O => []
  | S fuel' =>
      let n := pick (BUFSZ - Z.of_nat (length m) - 1) s in
      if (n =? 0)%nat then []
      else let buf := m ++ take n s in
           let '(out, rest) := grep_lines (length buf) pattern buf in
           out ++ grep_loop fuel' pattern rest (drop n s)
  end.

(** Every round but the last reads something. *)
Definition grep (pattern s : list Z) : list Z := grep_loop (S (length s)) pattern [] s.
End Grep.

(** It returns some bytes, if there are any and there is room, and never more
    than there is room for. *)
Definition reads_ok (pick : Z -> list Z -> nat) : Prop := forall n s,
  Z.of_nat (pick n s) <= Z.max 0 n /\ (pick n s <= length s)%nat /\ (0 < n -> s <> [] -> pick n s <> 0%nat).

(** The lines of [s] that end in a newline, the first continuing [cur]. *)
Fixpoint lines (cur s : list Z) : list (list Z) :=
  match s with
  | [] => []
  | x :: s' => if x =? NL then cur :: lines [] s' else lines (cur ++ [x]) s'
  end.

Definition selected (pattern : list Z) (ls : list (list Z)) : list Z :=
  concat (map (fun l => l ++ [NL]) (filter (fun l => match_ pattern l = true) ls)).

Lemma selected_cons pattern l ls : selected pattern (l :: ls) = (if match_ pattern l then l ++ [NL] else []) ++ selected pattern ls.
Proof. unfold selected. rewrite filter_cons. case_decide as E; destruct (match_ pattern l); done. Qed.

Lemma selected_app pattern l1 l2 : selected pattern (l1 ++ l2) = selected pattern l1 ++ selected pattern l2.
Proof. unfold selected. by rewrite filter_app, map_app, concat_app. Qed.

Lemma lines_app cur l s : NL ∉ l -> lines cur (l ++ s) = lines (cur ++ l) s.
Proof.
  revert cur. induction l as [|x l IH]; intros cur Hn; cbn; [by rewrite app_nil_r|].
  apply not_elem_of_cons in Hn as [Hx Hn]. destruct (Z.eqb_spec x NL); [congruence|]. rewrite IH by done. by rewrite <- app_assoc.
Qed.

Lemma strchr_spec s : 0 ∉ s ->
  match strchr NL s with
  | Some q => exists b, s = take q s ++ NL :: b /\ drop (S q) s = b /\ (NL ∉ take q s) /\ (q < length s)%nat
  | None => NL ∉ s
  end.
Proof.
  induction s as [|x s IH]; intros H0; cbn; [apply not_elem_of_nil|]. apply not_elem_of_cons in H0 as [Hx H0].
  destruct (Z.eqb_spec x 0) as [->|_]; [done|]. destruct (Z.eqb_spec x NL) as [->|Hn].
  - exists s. split; [done|]. split; [done|]. split; [apply not_elem_of_nil|cbn; lia].
  - specialize (IH H0). destruct (strchr NL s) as [q|]; cbn.
    + destruct IH as (b & E & Ed & Hnl & Hl). exists b. split; [by rewrite <- E|]. split; [done|].
      split; [rewrite not_elem_of_cons; done|lia].
    + by rewrite not_elem_of_cons.
Qed.

Lemma grep_lines_spec fuel pattern p out rest : (length p <= fuel)%nat -> 0 ∉ p -> grep_lines fuel pattern p = (out, rest) ->
  (NL ∉ rest) /\ (exists a, p = a ++ rest) /\
  forall s, selected pattern (lines [] (p ++ s)) = out ++ selected pattern (lines [] (rest ++ s)).
Proof.
  revert p out rest. induction fuel as [|fuel IH]; intros p out rest Hf H0.
  - destruct p; [|cbn in Hf; lia]. intros [= <- <-]. split; [apply not_elem_of_nil|]. split; [by exists []|done].
  - cbn [grep_lines]. pose proof (strchr_spec p H0) as Hs. destruct (strchr NL p) as [q|].
    + destruct Hs as (b & E & Ed & Hn & Hq). rewrite Ed. destruct (grep_lines fuel pattern b) as [o r] eqn:Eg. intros [= <- <-].
      assert (length p = q + S (length b))%nat as Hl by (rewrite E, length_app, length_take; cbn; lia).
      destruct (IH b o r) as (Hr & (a & Ha) & Hsel); [lia|rewrite E in H0; set_solver|done|].
      split; [done|]. split; [exists (take q p ++ NL :: a); rewrite <- app_assoc; cbn; by rewrite <- Ha|].
      intros s. rewrite E at 1. rewrite <- app_assoc, lines_app by done. cbn [app lines].
      change (NL =? NL) with true. cbv iota. by rewrite selected_cons, Hsel, app_assoc.
    + intros [= <- <-]. split; [done|]. split; [by exists []|done].
Qed.

(** No line is longer than the buffer has room for. *)
Definition short_lines (s : list Z) : Prop := forall a l b, s = a ++ l ++ b -> NL ∉ l -> Z.of_nat (length l) < BUFSZ - 1.

Lemma grep_loop_spec pick fuel pattern m s : reads_ok pick -> (length s < fuel)%nat -> 0 ∉ m ++ s -> NL ∉ m -> short_lines (m ++ s) ->
  grep_loop pick fuel pattern m s = selected pattern (lines [] (m ++ s)).
Proof.
  intros Hp. revert m s. induction fuel as [|fuel IH]; intros m s Hf H0 Hm Hl; [lia|]. cbn [grep_loop].
  assert (Z.of_nat (length m) < BUFSZ - 1) as Hmax by (by apply (Hl [] m s)).
  destruct (Hp (BUFSZ - Z.of_nat (length m) - 1) s) as (_ & Hle & Hpos). set (n := pick _ s) in *.
  destruct (Nat.eqb_spec n 0) as [En|En].
  - destruct s as [|x s]; [|destruct (Hpos ltac:(lia) ltac:(done) En)]. by rewrite lines_app, app_nil_l by done.
  - assert (s = take n s ++ drop n s) as Es by (by rewrite take_drop).
    destruct (grep_lines (length (m ++ take n s)) pattern (m ++ take n s)) as [out rest] eqn:Eg.
    apply grep_lines_spec in Eg as (Hr & (a & Ea) & Hsel); [|lia|rewrite Es in H0; set_solver].
    assert (m ++ s = a ++ rest ++ drop n s) as E by (rewrite app_assoc, <- Ea, <- app_assoc; by rewrite <- Es).
    rewrite IH; [|rewrite length_drop; lia|rewrite E in H0; set_solver|done|].
    + rewrite <- Hsel, <- app_assoc, <- Es. done.
    + intros a' l b El. apply (Hl (a ++ a') l b). by rewrite E, El, <- app_assoc.
Qed.

(** However read splits a text, grep writes the lines of it that match
    the pattern, in order and each with its newline, as long as the text has
    no NUL and every line fits in the buffer. *)
Theorem grep_spec pick pattern s : reads_ok pick -> 0 ∉ s -> short_lines s ->
  grep pick pattern s = selected pattern (lines [] s).
Proof. intros Hp H0 Hl. apply grep_loop_spec; [done|lia|done|apply not_elem_of_nil|done]. Qed.

(** Three bytes at a time, the pattern [b*c], the text [abc nl bd nl xc nl]. *)
Lemma grep_spec_witness :
  let pick := fun n s => Nat.min (Nat.min 3 (Z.to_nat n)) (length s) in
  grep pick [98; 42; 99] [97; 98; 99; 10; 98; 100; 10; 120; 99; 10] = [97; 98; 99; 10; 120; 99; 10].
Proof.
  intros pick. rewrite (grep_spec pick); [vm_compute; reflexivity| | |].
  - intros n s. unfold pick. split; [lia|]. split; [lia|]. intros Hn Hs. destruct s; [done|cbn [length]; lia].
  - intros H. repeat (apply elem_of_cons in H as [H|H]; [discriminate H|]). by apply not_elem_of_nil in H.
  - intros a l b E _. apply (f_equal length) in E. rewrite !length_app in E. cbn [length] in E. unfold BUFSZ. lia.
Defined.
