(* ===== verification/Umalloc.v ===== *)
(** * The user-level allocator

    user/umalloc.c, the allocator of Kernighan and Ritchie.  A header is the
    two words at the start of a block; sizes count units of 16 bytes.  sbrk
    is the system call: the process grows by what was asked for, and gets the
    old break, or is refused. *)

From Stdlib Require Import ZArith Lia.
From stdpp Require Import base list sets sorting relations.
From S2P Require Import Prelude.

(** ** The code *)
Definition HDR : Z := 16.

Record heap := mkheap {
  hp_ptr : Z -> Z;          (* p->s.ptr *)
  hp_size : Z -> Z;         (* p->s.size *)
  hp_freep : Z;             (* freep, 0 before the first call *)
  hp_brk : Z                (* the end of the process's memory *)
}.

Definition set_ptr (p v : Z) (h : heap) : heap := mkheap (fupd p v (hp_ptr h)) (hp_size h) (hp_freep h) (hp_brk h).
Definition set_size (p v : Z) (h : heap) : heap := mkheap (hp_ptr h) (fupd p v (hp_size h)) (hp_freep h) (hp_brk h).
Definition set_freep (p : Z) (h : heap) : heap := mkheap (hp_ptr h) (hp_size h) p (hp_brk h).
Definition set_brk (b : Z) (h : heap) : heap := mkheap (hp_ptr h) (hp_size h) (hp_freep h) b.

(** The search of free for the place of [bp], at most [fuel] steps. *)
Fixpoint free_find (fuel : nat) (h : heap) (bp p : Z) : option Z :=
  let next := hp_ptr h p in
  if (p <? bp) && (bp <? next) then Some p
  else if (next <=? p) && ((p <? bp) || (bp <? next)) then Some p
  else match fuel with
       | O => None
       | S fuel' => free_find fuel' h bp next
       end.

(** What free does once it has found [p]. *)
Definition free_at (bp p : Z) (h : heap) : heap :=
  let next := hp_ptr h p in
  let h1 := if bp + HDR * hp_size h bp =? next
            then set_ptr bp (hp_ptr h next) (set_size bp (u32 (hp_size h bp + hp_size h next)) h)
            else set_ptr bp next h in
  let h2 := if p + HDR * hp_size h1 p =? bp
            then set_ptr p (hp_ptr h1 bp) (set_size p (u32 (hp_size h1 p + hp_size h1 bp)) h1)
            else set_ptr p bp h1 in
  set_freep p h2.

Definition free (fuel : nat) (ap : Z) (h : heap) : option heap :=
  let bp := ap - HDR in
  match free_find fuel h bp (hp_freep h) with
  | Some p => Some (free_at bp p h)
  | None => None
  end.

Section Malloc.
(** The address of [base], and whether the kernel lets the process grow. *)
Context (base : Z) (grow : Z -> heap -> bool).

(** The break that growproc and uvmdealloc leave: a decrement that wraps around
    changes nothing. *)
Definition new_brk (brk n : Z) : Z :=
  let b := u64 (brk + n) in if (n <? 0) && (brk <=? b) then brk else b.

Definition sbrk (n : Z) (h : heap) : option Z * heap :=
  if grow n h then (Some (hp_brk h), set_brk (new_brk (hp_brk h) n) h) else (None, h).

(** [Some None] is a null pointer, [None] is a search that did not end. *)
Definition morecore (fuel : nat) (nu : Z) (h : heap) : option (option Z * heap) :=
  let nu := if nu <? 4096 then 4096 else nu in
  match sbrk (i32 (HDR * nu)) h with
  | (None, h1) => Some (None, h1)
  | (Some p, h1) =>
      match free fuel (p + HDR) (set_size p nu h1) with
      | Some h2 => Some (Some (hp_freep h2), h2)
      | None => None
      end
  end.

(** The block at [p], after [prevp] on the list, is big enough. *)
Definition take_block (nunits prevp p : Z) (h : heap) : Z * heap :=
  if hp_size h p =? nunits then (p + HDR, set_freep prevp (set_ptr prevp (hp_ptr h p) h))
  else let s := hp_size h p - nunits in
       let q := p + HDR * s in
       (q + HDR, set_freep prevp (set_size q nunits (set_size p s h))).

Fixpoint malloc_loop (fuel : nat) (nunits prevp p : Z) (h : heap) : option (option Z * heap) :=
  if nunits <=? hp_size h p then let '(a, h') := take_block nunits prevp p h in Some (Some a, h')
  else match fuel with
       | O => None
       | S fuel' =>
           if p =? hp_freep h then
             match morecore fuel' nunits h with
             | Some (Some p', h') => malloc_loop fuel' nunits p' (hp_ptr h' p') h'
             | Some (None, h') => Some (None, h')
             | None => None
             end
           else malloc_loop fuel' nunits p (hp_ptr h p) h
       end.

Definition units (nbytes : Z) : Z := u32 ((nbytes + HDR - 1) / HDR + 1).

Definition malloc_init (h : heap) : heap :=
  if hp_freep h =? 0 then set_size base 0 (set_freep base (set_ptr base base h)) else h.

Definition malloc (fuel : nat) (nbytes : Z) (h : heap) : option (option Z * heap) :=
  let h := malloc_init h in
  malloc_loop fuel (units nbytes) (hp_freep h) (hp_ptr h (hp_freep h)) h.
End Malloc.

(** ** The free list

    The blocks in order of address, [base] first. *)
Abbreviation block := (Z * Z)%type (only parsing).
Definition bend (b : block) : Z := b.1 + HDR * b.2.
Definition before (b c : block) : Prop := bend b < c.1.

(** From each block of the list to the next, and from the last to [z]. *)
Fixpoint seg (h : heap) (B : list block) (z : Z) : Prop :=
  match B with
  | [] => True
  | b :: B' => hp_ptr h b.1 = (match B' with [] => z | c :: _ => c.1 end) /\ hp_size h b.1 = b.2 /\ seg h B' z
  end.

Record heap_ok (base : Z) (B : list block) (h : heap) : Prop := {
  hk_base : exists C, B = (base, 0) :: C /\ Forall (fun b => 1 <= b.2) C;
  hk_sorted : StronglySorted before B;
  hk_seg : seg h B base;
  hk_freep : exists s, (hp_freep h, s) ∈ B;
  hk_brk : Forall (fun b => bend b <= hp_brk h) B;
  hk_pos : 0 < base;
  hk_low : base + HDR <= hp_brk h
}.

(** The bytes on the free list. *)
Definition in_block (b : block) (x : Z) : Prop := b.1 <= x < bend b.
Definition in_free (B : list block) (x : Z) : Prop := exists b, b ∈ B /\ in_block b x.

Definition next_of (B : list block) (z : Z) : Z := match B with [] => z | c :: _ => c.1 end.

Lemma seg_app h B1 B2 z : seg h (B1 ++ B2) z <-> seg h B1 (next_of B2 z) /\ seg h B2 z.
Proof.
  induction B1 as [|b B1 IH]; cbn; [naive_solver|]. rewrite IH.
  destruct B1; cbn; unfold next_of; destruct B2; naive_solver.
Qed.

(** A write elsewhere. *)
Lemma seg_frame h h' B z : Forall (fun b => hp_ptr h' b.1 = hp_ptr h b.1 /\ hp_size h' b.1 = hp_size h b.1) B -> seg h B z -> seg h' B z.
Proof.
  induction B as [|b B IH]; [done|]. cbn. intros [[E1 E2] HB]%Forall_cons (H1 & H2 & H3).
  rewrite E1, E2. auto.
Qed.

(** *** The search of free *)
Definition stops (h : heap) (bp p : Z) : Prop :=
  p < bp /\ bp < hp_ptr h p \/ hp_ptr h p <= p /\ (p < bp \/ bp < hp_ptr h p).

Lemma find_stop fuel h bp p : stops h bp p -> free_find fuel h bp p = Some p.
Proof.
  intros H. destruct fuel; cbn [free_find]; set (n := hp_ptr h p) in *; unfold stops in H; fold n in H;
    destruct (Z.ltb_spec p bp), (Z.ltb_spec bp n), (Z.leb_spec n p); cbn; done || lia.
Qed.

Lemma find_go fuel h bp p : ~ stops h bp p -> free_find (S fuel) h bp p = free_find fuel h bp (hp_ptr h p).
Proof.
  intros H. cbn [free_find]. set (n := hp_ptr h p) in *. unfold stops in H. fold n in H.
  destruct (Z.ltb_spec p bp), (Z.ltb_spec bp n), (Z.leb_spec n p); cbn; done || lia.
Qed.

Section Find.
Context (h : heap) (base bp : Z) (C1 C2 : list block) (q : block).
Context (Hseg : seg h (C1 ++ q :: C2) base) (Hbase : exists D, C1 ++ [q] = (base, 0) :: D).
Context (Hlo : Forall (fun b => b.1 < bp) (C1 ++ [q])) (Hhi : Forall (fun b => bp < b.1) C2).
Context (Hinc : StronglySorted (fun b c : block => b.1 < c.1) (C1 ++ q :: C2)).

Lemma base_low : base < bp.
Proof. destruct Hbase as [D E]. pose proof Hlo as H. rewrite E in H. by apply Forall_cons in H as [H _]. Qed.

Lemma find_low fuel D1 x D2 : C1 ++ [q] = D1 ++ x :: D2 -> (length D2 <= fuel)%nat -> free_find fuel h bp x.1 = Some q.1.
Proof.
  assert (C1 ++ q :: C2 = (C1 ++ [q]) ++ C2) as EB by (by rewrite <- app_assoc). pose proof base_low as Hb0.
  revert fuel D1 x. induction D2 as [|y D2 IH]; intros fuel D1 x E Hf.
  - pose proof E as E0. apply app_inj_tail in E0 as [-> ->]. apply find_stop. unfold stops.
    pose proof Hseg as Hs. apply seg_app in Hs as [_ (Hp & _ & _)]. rewrite Hp.
    pose proof Hlo as Hl. apply Forall_app in Hl as [_ Hq]. apply Forall_cons in Hq as [Hq _].
    destruct C2 as [|c C2']; [|left; split; [done|]; by apply Forall_cons in Hhi as [Hc _]].
    right. split; [|by left]. destruct Hbase as [D Ed]. destruct D1 as [|d D1]; cbn in Ed; [injection Ed as ->; done|].
    injection Ed as -> Ed. apply StronglySorted_cons in Hinc as [Hb _].
    apply Forall_app in Hb as [_ Hb]. apply Forall_cons in Hb as [Hb _]. cbn in Hb. lia.
  - destruct fuel as [|fuel]; [cbn in Hf; lia|]. rewrite EB, E, <- app_assoc in Hseg, Hinc.
    apply seg_app in Hseg as [_ (Hp & _)]. cbn in Hp. rewrite E in Hlo. apply Forall_app in Hlo as [_ Hl].
    apply Forall_cons in Hl as [Hx Hl]. apply Forall_cons in Hl as [Hy _].
    apply StronglySorted_app in Hinc as (_ & _ & Hi). apply StronglySorted_cons in Hi as [Hi _]. apply Forall_cons in Hi as [Hi _].
    rewrite find_go by (unfold stops; rewrite Hp; lia). rewrite Hp. apply (IH fuel (D1 ++ [x]) y); [by rewrite <- app_assoc|cbn in Hf; lia].
Qed.

Lemma find_high fuel D1 x D2 : C2 = D1 ++ x :: D2 -> (length D2 + length (C1 ++ [q]) <= fuel)%nat -> free_find fuel h bp x.1 = Some q.1.
Proof.
  pose proof base_low as Hb. revert fuel D1 x. induction D2 as [|y D2 IH]; intros fuel D1 x E Hf.
  all: assert (C1 ++ q :: C2 = (C1 ++ q :: D1) ++ x :: _) as EB by (rewrite E, <- app_assoc; done).
  all: pose proof Hhi as Hx; rewrite E in Hx; apply Forall_app in Hx as [_ Hx]; apply Forall_cons in Hx as [Hx _].
  all: pose proof Hseg as Hs; rewrite EB in Hs; apply seg_app in Hs as [_ (Hp & _)]; cbn in Hp.
  - destruct Hbase as [D Ed]. rewrite Ed in Hf. destruct fuel as [|fuel]; [cbn in Hf; lia|].
    rewrite find_go by (unfold stops; rewrite Hp; lia). rewrite Hp. apply (find_low fuel [] (base, 0) D); [done|cbn in Hf; lia].
  - destruct fuel as [|fuel]; [cbn in Hf; lia|]. pose proof Hinc as Hi. rewrite EB in Hi.
    apply StronglySorted_app in Hi as (_ & _ & Hi). apply StronglySorted_cons in Hi as [Hi _]. apply Forall_cons in Hi as [Hi _].
    rewrite find_go by (unfold stops; rewrite Hp; lia). rewrite Hp. apply (IH fuel (D1 ++ [x]) y); [by rewrite <- app_assoc|cbn in Hf; lia].
Qed.

(** From any block of the list, the search ends at the last block below. *)
Lemma find_spec fuel x : x ∈ C1 ++ q :: C2 -> (length (C1 ++ q :: C2) <= fuel)%nat -> free_find fuel h bp x.1 = Some q.1.
Proof.
  intros Hin Hf. assert (C1 ++ q :: C2 = (C1 ++ [q]) ++ C2) as EB by (by rewrite <- app_assoc). rewrite EB in Hin, Hf.
  rewrite length_app in Hf. apply elem_of_app in Hin as [Hin|Hin]; apply list_elem_of_split in Hin as (D1 & D2 & E).
  - apply (find_low fuel D1 x D2 E). apply (f_equal length) in E. rewrite !length_app in *. cbn in *. lia.
  - apply (find_high fuel D1 x D2 E). apply (f_equal length) in E. rewrite !length_app in *. cbn in *. lia.
Qed.
End Find.

(** *** Putting a block on the list *)
Definition absorb (b : block) (C : list block) : block * list block :=
  match C with
  | c :: C' => if bend b =? c.1 then ((b.1, b.2 + c.2), C') else (b, C)
  | [] => (b, [])
  end.
Definition join (C1 : list block) (q m : block) (C : list block) : list block :=
  if bend q =? m.1 then C1 ++ (q.1, q.2 + m.2) :: C else C1 ++ q :: m :: C.

Lemma in_free_app B1 B2 x : in_free (B1 ++ B2) x <-> in_free B1 x \/ in_free B2 x.
Proof. unfold in_free. setoid_rewrite elem_of_app. naive_solver. Qed.
Lemma in_free_cons b B x : in_free (b :: B) x <-> in_block b x \/ in_free B x.
Proof. unfold in_free. setoid_rewrite elem_of_cons. naive_solver. Qed.
Lemma in_free_nil x : in_free [] x <-> False.
Proof. unfold in_free. setoid_rewrite elem_of_nil. naive_solver. Qed.
Lemma in_block_app a s t x : 0 <= s -> 0 <= t -> in_block (a, s + t) x <-> in_block (a, s) x \/ in_block (a + HDR * s, t) x.
Proof. unfold in_block, bend, HDR. cbn. lia. Qed.

(** The block after [b] on the list [C], with it if they touch. *)
Record absorbed (b : block) (C : list block) (m : block) (C' : list block) : Prop := {
  ab_addr : m.1 = b.1;
  ab_size : 1 <= m.2;
  ab_sorted : StronglySorted before (m :: C');
  ab_sub c : c ∈ C' -> c ∈ C;
  ab_end e : bend b <= e -> Forall (fun c => bend c <= e) C -> bend m <= e;
  ab_free x : in_free (m :: C') x <-> in_block b x \/ in_free C x
}.

Lemma absorb_ok b C : 1 <= b.2 -> Forall (fun c => 1 <= c.2) C -> Forall (fun c => bend b <= c.1) C -> StronglySorted before C ->
  absorbed b C (absorb b C).1 (absorb b C).2.
Proof.
  intros Hn H1 Hle Hs. destruct C as [|c C]; cbn.
  - split; cbn; try done; [by repeat constructor|]. intros x. by rewrite in_free_cons.
  - apply Forall_cons in H1 as [Hc H1]. apply Forall_cons in Hle as [Hlc Hle]. pose proof Hs as Hs0. apply StronglySorted_cons in Hs0 as [Hb Hs'].
    destruct (Z.eqb_spec (bend b) c.1) as [E|E]; cbn.
    + assert (bend (b.1, b.2 + c.2) = bend c) as Eb by (unfold bend, HDR in *; cbn; lia). split; cbn.
      * done.
      * lia.
      * apply StronglySorted_cons. split; [|done]. eapply Forall_impl; [exact Hb|]. unfold before. by rewrite Eb.
      * intros d Hd. by right.
      * intros e _ He. apply Forall_cons in He as [He _]. by rewrite Eb.
      * intros x. rewrite !in_free_cons, in_block_app by lia. unfold bend in E. rewrite E. destruct b, c. cbn. naive_solver.
    + split; cbn; try done; [|intros x; by rewrite (in_free_cons b)].
      apply StronglySorted_cons. split; [|done]. constructor; [unfold before; lia|]. eapply Forall_impl; [exact Hb|].
      unfold before, bend, HDR in *. cbn. intros d Hd. lia.
Qed.

(** The same on the other side. *)
Lemma join_ok C1 q m C : 0 <= q.2 -> 1 <= m.2 -> StronglySorted before (C1 ++ [q]) -> StronglySorted before (m :: C) ->
  (forall b c, b ∈ C1 ++ [q] -> c ∈ C -> before b c) -> Forall (fun b => bend b <= m.1) (C1 ++ [q]) -> Forall (fun b => before b q) C1 ->
  StronglySorted before (join C1 q m C) /\ forall x, in_free (join C1 q m C) x <-> in_free (C1 ++ [q]) x \/ in_free (m :: C) x.
Proof.
  intros Hq Hm Hs1 Hs2 H12 Hle Hlt. apply Forall_app in Hle as [Hle1 Hleq]. apply Forall_cons in Hleq as [Hleq _].
  apply StronglySorted_app in Hs1 as (_ & Hs1 & _). pose proof Hs2 as Hs2'. apply StronglySorted_cons in Hs2' as [Hm2 HC].
  unfold join. destruct (Z.eqb_spec (bend q) m.1) as [E|E].
  - split.
    + apply StronglySorted_app. split; [|split; [done|]].
      * intros b c Hb [->|Hc]%elem_of_cons; [|apply H12; [apply elem_of_app; by left|done]].
        rewrite Forall_forall in Hlt. exact (Hlt b Hb).
      * apply StronglySorted_cons. split; [|done]. eapply Forall_impl; [exact Hm2|]. unfold before, bend, HDR in *. cbn. intros c Hc. lia.
    + intros x. rewrite !in_free_app, !in_free_cons, in_block_app by lia. unfold bend in E. rewrite E. rewrite in_free_nil.
      destruct q, m. cbn. naive_solver.
  - split.
    + apply StronglySorted_app. split; [|split; [done|]].
      * rewrite Forall_forall in Hlt, Hle1. intros b c Hb [->|[->|Hc]%elem_of_cons]%elem_of_cons; [exact (Hlt b Hb)| |apply H12; [apply elem_of_app; by left|done]].
        specialize (Hlt b Hb). unfold before, bend, HDR in *. lia.
      * apply StronglySorted_cons. split; [|done]. constructor; [unfold before; lia|]. rewrite Forall_forall. intros c Hc.
        apply H12; [apply elem_of_app; right; by left|done].
    + intros x. rewrite !in_free_app, !in_free_cons, in_free_nil. naive_solver.
Qed.

Section FreeAt.
Context (h : heap) (base bp : Z) (C1 C2 : list block) (q : block).
Abbreviation n := (hp_size h bp).
Abbreviation m := (absorb (bp, n) C2).1.
Abbreviation C := (absorb (bp, n) C2).2.
Context (H : heap_ok base (C1 ++ q :: C2) h) (Hn : 1 <= n) (Hbrk : hp_brk h <= 2 ^ 36).
Context (Hlo : Forall (fun b => bend b <= bp) (C1 ++ [q])) (Hhi : Forall (fun c => bp + HDR * n <= c.1) C2).
Context (Hbp : base < bp) (Hend : bp + HDR * n <= hp_brk h).

Lemma sizes_ok : Forall (fun b => 0 <= b.2) (C1 ++ q :: C2) /\ Forall (fun b => 1 <= b.2) C2 /\ (1 <= q.2 \/ C1 = [] /\ q = (base, 0)).
Proof.
  destruct (hk_base _ _ _ H) as (D & E & HD). destruct C1 as [|c C1']; cbn in E; injection E as -> <-.
  - split; [constructor; [done|]|split; [done|by right]]. eapply Forall_impl; [exact HD|]. cbn. lia.
  - apply Forall_app in HD as [HD1 HD2]. apply Forall_cons in HD2 as [Hq HD2]. split; [|split; [done|by left]].
    constructor; [done|]. apply Forall_app. split; [|constructor; [lia|]]; (eapply Forall_impl; [eassumption|]; cbn; lia).
Qed.

Lemma base_first : base <= q.1 /\ Forall (fun b => base <= b.1) (C1 ++ q :: C2).
Proof.
  destruct (hk_base _ _ _ H) as (D & E & HD). pose proof (hk_sorted _ _ _ H) as Hs. rewrite E in Hs. apply StronglySorted_cons in Hs as [Hs _].
  assert (Forall (fun b => base <= b.1) (C1 ++ q :: C2)) as HF.
  { rewrite E. constructor; [cbn; lia|]. eapply Forall_impl; [exact Hs|]. unfold before, bend. cbn. lia. }
  split; [|done]. apply Forall_app in HF as [_ HF]. by apply Forall_cons in HF as [HF _].
Qed.

Definition right_merged : heap :=
  if bp + HDR * n =? hp_ptr h q.1
  then set_ptr bp (hp_ptr h (hp_ptr h q.1)) (set_size bp (u32 (n + hp_size h (hp_ptr h q.1))) h)
  else set_ptr bp (hp_ptr h q.1) h.

Lemma right_merged_spec : hp_ptr right_merged bp = next_of C base /\ hp_size right_merged bp = m.2 /\
  (forall x, x <> bp -> hp_ptr right_merged x = hp_ptr h x /\ hp_size right_merged x = hp_size h x) /\ hp_brk right_merged = hp_brk h.
Proof.
  pose proof sizes_ok as (_ & Hz & _).
  pose proof (hk_seg _ _ _ H) as Hs. apply seg_app in Hs as [_ (Hp & _ & Hs)]. fold (next_of C2 base) in Hp.
  unfold right_merged. rewrite Hp. destruct C2 as [|c C2']; cbn [next_of absorb].
  - rewrite (proj2 (Z.eqb_neq _ _)) by (unfold HDR; lia). cbn. rewrite fupd_eq. split; [done|]. split; [done|]. split; [|done].
    intros x Hx. by rewrite fupd_ne.
  - destruct Hs as (Hc1 & Hc2 & _). unfold bend. cbn [fst snd]. destruct (Z.eqb_spec (bp + HDR * n) c.1) as [E|E]; cbn.
    + rewrite !fupd_eq, Hc1, Hc2. split; [by destruct C2'|]. split; [|split; [|done]; intros x Hx; by rewrite !fupd_ne].
      apply u32_id. apply Forall_cons in Hz as [Hz _].
      pose proof (hk_brk _ _ _ H) as Hb. apply Forall_app in Hb as [_ Hb]. apply Forall_cons in Hb as [_ Hb]. apply Forall_cons in Hb as [Hb _].
      unfold bend, HDR in *. pose proof (hk_pos _ _ _ H). lia.
    + rewrite fupd_eq. split; [done|]. split; [done|]. split; [|done]. intros x Hx. by rewrite fupd_ne.
Qed.

Lemma free_at_eq : free_at bp q.1 h = set_freep q.1
  (if bend q =? bp then set_ptr q.1 (hp_ptr right_merged bp) (set_size q.1 (u32 (q.2 + hp_size right_merged bp)) right_merged)
   else set_ptr q.1 bp right_merged).
Proof.
  pose proof (hk_seg _ _ _ H) as Hs. apply seg_app in Hs as [_ (_ & Hq & _)].
  destruct right_merged_spec as (_ & _ & Hx & _). pose proof Hlo as Hl. apply Forall_app in Hl as [_ Hl]. apply Forall_cons in Hl as [Hl _].
  assert (q.1 <> bp) as Hne.
  { pose proof sizes_ok as (_ & _ & [Hz|[_ ->]]); unfold bend, HDR in *; cbn in *; lia. }
  unfold free_at. fold right_merged. destruct (Hx _ Hne) as [_ ->]. by rewrite Hq.
Qed.

Lemma absorb_here : absorbed (bp, n) C2 m C.
Proof.
  pose proof sizes_ok as (_ & Hz & _). pose proof (hk_sorted _ _ _ H) as Hs. apply absorb_ok; [done|done|done|].
  apply StronglySorted_app in Hs as (_ & _ & Hs). by apply StronglySorted_cons in Hs as [_ Hs].
Qed.

Lemma seg_rest : seg h C base.
Proof.
  pose proof (hk_seg _ _ _ H) as Hs. apply seg_app in Hs as [_ (_ & _ & Hs)]. destruct C2 as [|c C2']; [done|].
  cbn [absorb]. destruct (bend (bp, n) =? c.1); [by destruct Hs as (_ & _ & Hs)|done].
Qed.

Lemma q_below : q.1 < bp /\ 0 <= q.2 /\ bend q <= bp.
Proof.
  pose proof sizes_ok as (_ & _ & Hz). pose proof Hlo as Hl. apply Forall_app in Hl as [_ Hl]. apply Forall_cons in Hl as [Hl _].
  destruct Hz as [Hz|[_ ->]]; unfold bend, HDR in *; cbn in *; lia.
Qed.

(** The other blocks are at other addresses. *)
Lemma others : Forall (fun b => b.1 <> bp /\ b.1 <> q.1) C1 /\ Forall (fun b => b.1 <> bp /\ b.1 <> q.1) C.
Proof.
  pose proof sizes_ok as (Hz & _ & _). pose proof q_below as (Hq & Hq2 & Hq3). pose proof (ab_sub _ _ _ _ absorb_here) as Hsub.
  pose proof (hk_sorted _ _ _ H) as Hs. apply StronglySorted_app in Hs as (Hs12 & _ & _).
  rewrite !Forall_forall in *. split; intros b Hb.
  - assert (b.1 < q.1); [|lia]. specialize (Hs12 b q Hb ltac:(left)). specialize (Hz b ltac:(apply elem_of_app; by left)).
    unfold before, bend, HDR in *. lia.
  - specialize (Hhi b (Hsub b Hb)). unfold HDR in *. lia.
Qed.

Lemma join_seg : seg (free_at bp q.1 h) (join C1 q m C) base.
Proof.
  destruct right_merged_spec as (R1 & R2 & R3 & R4). destruct others as [O1 O2]. destruct q_below as (Hq & Hq2 & Hq3).
  pose proof (ab_addr _ _ _ _ absorb_here) as A1. pose proof (ab_size _ _ _ _ absorb_here) as A2. cbn in A1.
  pose proof (hk_seg _ _ _ H) as Hs. apply seg_app in Hs as (S1 & Sq & Sq2 & _). cbn [next_of] in S1. pose proof seg_rest as S2.
  rewrite free_at_eq. set (h2 := set_freep _ _).
  assert (forall z B, Forall (fun b => b.1 <> bp /\ b.1 <> q.1) B -> seg h B z -> seg h2 B z) as Hf.
  { intros z B HB. apply seg_frame. eapply Forall_impl; [exact HB|]. intros b [Hb1 Hb2]. destruct (R3 _ Hb1) as [<- <-].
    unfold h2. destruct (bend q =? bp); cbn; by rewrite !fupd_ne. }
  unfold join. rewrite A1. subst h2. destruct (Z.eqb_spec (bend q) bp) as [E|E]; apply seg_app; cbn [next_of fst].
  - split; [by apply Hf|]. cbn [seg fst snd]. split; [cbn; by rewrite fupd_eq|]. split; [|by apply Hf].
    cbn. rewrite fupd_eq, R2. apply u32_id.
    assert (bend m <= hp_brk h).
    { apply (ab_end _ _ _ _ absorb_here); [done|]. pose proof (hk_brk _ _ _ H) as Hb. apply Forall_app in Hb as [_ Hb].
      by apply Forall_cons in Hb as [_ Hb]. }
    pose proof (hk_pos _ _ _ H). pose proof base_first as (Hbq & _). unfold bend, HDR in *. lia.
  - split; [by apply Hf|]. cbn [seg fst snd]. rewrite A1.
    destruct (R3 q.1 ltac:(lia)) as [_ Rq]. cbn. rewrite fupd_eq, !fupd_ne by lia. rewrite Rq, R1, R2. repeat (split; [done|]). by apply Hf.
Qed.

Lemma join_sizes : exists D, join C1 q m C = (base, 0) :: D /\ Forall (fun b => 1 <= b.2) D.
Proof.
  pose proof absorb_here as [A1 A2 _ A4 _ _]. destruct q_below as (_ & Hq2 & _). cbn in A1.
  assert (Forall (fun b => 1 <= b.2) C) as HC.
  { pose proof sizes_ok as (_ & Hz & _). rewrite Forall_forall in *. eauto. }
  destruct (hk_base _ _ _ H) as (D & E & HD). unfold join. rewrite A1. destruct C1 as [|c C1']; cbn in E; injection E as Ec ED.
  - rewrite Ec. unfold bend at 1. cbn [fst snd app]. rewrite (proj2 (Z.eqb_neq _ _)) by (unfold HDR; lia). eauto.
  - rewrite Ec, <- ED in *. apply Forall_app in HD as [HD1 HD2]. apply Forall_cons in HD2 as [Hq _].
    destruct (bend q =? bp); cbn; (eexists; split; [done|]); apply Forall_app; split; try done; repeat (constructor; [cbn; lia|]); done.
Qed.

Lemma join_brk : Forall (fun b => bend b <= hp_brk h) (join C1 q m C).
Proof.
  pose proof absorb_here as [A1 A2 _ A4 A5 _]. pose proof (hk_brk _ _ _ H) as Hb. apply Forall_app in Hb as [Hb1 Hb]. apply Forall_cons in Hb as [Hbq Hb].
  specialize (A5 (hp_brk h) Hend Hb). assert (Forall (fun b => bend b <= hp_brk h) C) by (rewrite Forall_forall in *; eauto).
  unfold join. destruct (Z.eqb_spec (bend q) m.1) as [E|E]; apply Forall_app; (split; [done|]); repeat (constructor; try done).
  unfold bend, HDR in *. cbn. lia.
Qed.

(** free puts exactly the block on the list. *)
Lemma free_at_ok : heap_ok base (join C1 q m C) (free_at bp q.1 h) /\
  (forall x, in_free (join C1 q m C) x <-> in_free (C1 ++ q :: C2) x \/ in_block (bp, n) x) /\ hp_brk (free_at bp q.1 h) = hp_brk h.
Proof.
  pose proof sizes_ok as (Hz0 & Hz & Hqz). pose proof base_first as (Hbq & Hbf). pose proof absorb_here as Ha. destruct Ha as [A1 A2 A3 A4 A5 A6].
  pose proof (hk_sorted _ _ _ H) as Hs. apply StronglySorted_app in Hs as (Hs12 & Hs1 & Hs2). apply StronglySorted_cons in Hs2 as [Hs2 Hs3].
  destruct right_merged_spec as (R1 & R2 & R3 & R4).
  assert (0 <= q.2) as Hq0 by (destruct Hqz as [Hqz|[_ ->]]; [lia|done]).
  destruct (join_ok C1 q m C) as [J1 J2].
  - done.
  - done.
  - apply StronglySorted_app. split; [|by repeat constructor]. intros b c Hb Hc. apply Hs12; [done|]. set_solver.
  - done.
  - rewrite Forall_forall in Hs2. intros b c [Hb|Hb]%elem_of_app Hc%A4; [apply Hs12; [done|by right]|].
    apply list_elem_of_singleton in Hb as ->. by apply Hs2.
  - by rewrite A1.
  - rewrite Forall_forall. intros b Hb. apply Hs12; [done|left].
  - split; [|split].
    + split; [|done|apply join_seg| | |apply H|].
      * apply join_sizes.
      * rewrite free_at_eq. cbn. unfold join. destruct (bend q =? m.1); [exists (q.2 + m.2)|exists q.2; rewrite <- surjective_pairing]; apply elem_of_app; right; left.
      * rewrite free_at_eq. cbn. replace (hp_brk _) with (hp_brk h) by (by destruct (bend q =? bp)). apply join_brk.
      * rewrite free_at_eq. cbn. replace (hp_brk _) with (hp_brk h) by (by destruct (bend q =? bp)). apply H.
    + intros x. rewrite J2, A6, (in_free_app C1), in_free_cons, in_free_app, in_free_cons, in_free_nil. naive_solver.
    + rewrite free_at_eq. cbn. destruct (bend q =? bp); exact R4.
Qed.
End FreeAt.

(** ** What free and malloc do *)

(** Two blocks that do not overlap. *)
Definition apart (b c : block) : Prop := bend b <= c.1 \/ bend c <= b.1.

Lemma place (B : list block) b : StronglySorted before B -> (forall c, c ∈ B -> 0 <= c.2) -> 1 <= b.2 -> Forall (apart b) B ->
  (exists c B', B = c :: B' /\ bend c <= b.1) ->
  exists C1 q C2, B = C1 ++ q :: C2 /\ Forall (fun c => bend c <= b.1) (C1 ++ [q]) /\ Forall (fun c => bend b <= c.1) C2.
Proof.
  intros Hs Hz Hb Ha (c & B' & -> & Hc). revert c Hs Hz Ha Hc. induction B' as [|d B' IH]; intros c Hs Hz Ha Hc.
  - exists [], c, []. split; [done|]. split; [by repeat constructor|done].
  - apply StronglySorted_cons in Hs as [Hcs Hs]. apply Forall_cons in Ha as [Hca Ha]. pose proof Ha as Ha0. apply Forall_cons in Ha as [Hda _].
    destruct Hda as [Hd|Hd].
    + exists [], c, (d :: B'). split; [done|]. split; [by repeat constructor|]. constructor; [done|].
      apply StronglySorted_cons in Hs as [Hs _]. eapply Forall_impl; [exact Hs|]. intros e He.
      assert (0 <= d.2) by (apply Hz; right; left). unfold before, bend, HDR in *. lia.
    + destruct (IH d Hs) as (C1 & q & C2 & E & H1 & H2); [intros e He; apply Hz; by right|done|done|].
      exists (c :: C1), q, C2. rewrite E. split; [done|]. split; [by constructor|done].
Qed.

Record freed (base : Z) (B : list block) (h : heap) (b : block) (B' : list block) (h' : heap) : Prop := {
  fr_ok : heap_ok base B' h';
  fr_free x : in_free B' x <-> in_free B x \/ in_block b x;
  fr_brk : hp_brk h' = hp_brk h;
  fr_len : (length B' <= S (length B))%nat;
  fr_big : exists c, c ∈ B' /\ b.2 <= c.2;
  fr_size x : x <> b.1 -> (forall c, c ∈ B -> c.1 <> x) -> hp_size h' x = hp_size h x
}.

Lemma heap_sizes base B h : heap_ok base B h -> forall c, c ∈ B -> 0 <= c.2.
Proof.
  intros H c Hc. destruct (hk_base _ _ _ H) as (D & -> & HD). apply elem_of_cons in Hc as [->|Hc]; [done|].
  rewrite Forall_forall in HD. specialize (HD c Hc). lia.
Qed.

Lemma heap_inc base B h : heap_ok base B h -> StronglySorted (fun b c : block => b.1 < c.1) B.
Proof.
  intros H. pose proof (heap_sizes base B h H) as Hz. pose proof (hk_sorted _ _ _ H) as Hs. clear H.
  induction Hs as [|b B Hs IH Hb]; constructor; [apply IH; intros c Hc; apply Hz; by right|].
  eapply Forall_impl; [exact Hb|]. intros c Hc. specialize (Hz b ltac:(left)). unfold before, bend, HDR in *. lia.
Qed.

Lemma absorb_size b C : (forall c, c ∈ C -> 0 <= c.2) -> (length (absorb b C).2 <= length C)%nat /\ b.2 <= (absorb b C).1.2.
Proof.
  intros Hz. destruct C as [|c C]; cbn; [lia|]. specialize (Hz c ltac:(left)). destruct (bend b =? c.1); cbn; lia.
Qed.

(** The search ends, and the bytes of the block are free after it, besides
    those that were. *)
Lemma free_spec_at base B h bp fuel : heap_ok base B h -> 1 <= hp_size h bp -> Forall (apart (bp, hp_size h bp)) B -> base < bp ->
  bp + HDR * hp_size h bp <= hp_brk h -> hp_brk h <= 2 ^ 36 -> (length B <= fuel)%nat ->
  exists B' h', free fuel (bp + HDR) h = Some h' /\ freed base B h (bp, hp_size h bp) B' h'.
Proof.
  intros H Hn Ha Hbp Hend Hbrk Hf. pose proof (heap_sizes _ _ _ H) as Hz. pose proof (heap_inc _ _ _ H) as Hinc.
  destruct (place B (bp, hp_size h bp)) as (C1 & q & C2 & -> & Hlo & Hhi); [apply H|done|done|done| |].
  { destruct (hk_base _ _ _ H) as (D & -> & _). exists (base, 0), D. split; [done|]. unfold bend. cbn. lia. }
  assert (q.1 < bp) as Hq by (by destruct (q_below h base bp C1 C2 q H Hlo Hbp)).
  assert (free fuel (bp + HDR) h = Some (free_at bp q.1 h)) as Ef.
  { unfold free. replace (bp + HDR - HDR) with bp by lia. destruct (hk_freep _ _ _ H) as [s Hs].
    assert (free_find fuel h bp (hp_freep h, s).1 = Some q.1) as Hfind; [|cbn in Hfind; by rewrite Hfind].
    apply (find_spec h base bp C1 C2 q); try done; [apply H| | |].
    - destruct (hk_base _ _ _ H) as (D & E & _). destruct C1; cbn in E; injection E as -> _; eexists; done.
    - apply Forall_app. split; [|by repeat constructor]. apply StronglySorted_app in Hinc as (H12 & _ & _). rewrite Forall_forall.
      intros b Hb. specialize (H12 b q Hb ltac:(left)). cbn in H12. lia.
    - eapply Forall_impl; [exact Hhi|]. unfold bend, HDR. cbn. lia. }
  destruct (free_at_ok h base bp C1 C2 q H Hn Hbrk Hlo Hhi Hbp Hend) as (K1 & K2 & K3).
  destruct (absorb_size (bp, hp_size h bp) C2) as [L1 L2]; [intros c Hc; apply Hz, elem_of_app; right; by right|].
  eexists _, _. split; [exact Ef|]. split; [exact K1|exact K2|exact K3| | |].
  - unfold join. rewrite length_app. cbn [length]. destruct (bend q =? _); rewrite length_app; cbn [length]; lia.
  - assert (0 <= q.2) by (apply Hz, elem_of_app; right; left). unfold join. cbn [snd] in *.
    destruct (bend q =? _); eexists; (split; [apply elem_of_app; right|]); [left|cbn; lia|right; left|lia].
  - intros x Hx Hc. assert (x <> q.1) by (intros ->; apply (Hc q); [apply elem_of_app; right; left|done]). cbn [fst] in Hx.
    rewrite (free_at_eq h base bp C1 C2 q H Hn Hbrk Hlo Hhi Hbp).
    destruct (right_merged_spec h base bp C1 C2 q H Hn Hbrk Hlo Hhi Hbp) as (_ & _ & R & _). destruct (R x Hx) as [_ <-].
    destruct (bend q =? bp); cbn; [by rewrite fupd_ne|done].
Qed.

Lemma sorted_inj (B : list block) b c : StronglySorted (fun b c : block => b.1 < c.1) B -> b ∈ B -> c ∈ B -> b.1 = c.1 -> b = c.
Proof.
  intros Hs. induction Hs as [|d B Hs IH Hd]; [by intros ?%not_elem_of_nil|]. rewrite Forall_forall in Hd.
  intros [->|Hb]%elem_of_cons [->|Hc]%elem_of_cons E; [done| | |auto].
  - specialize (Hd c Hc). cbn in Hd. lia.
  - specialize (Hd b Hb). cbn in Hd. lia.
Qed.

Record taken_from (base : Z) (B : list block) (h : heap) (b : block) (B' : list block) (h' : heap) : Prop := {
  tk_ok : heap_ok base B' h';
  tk_size : hp_size h' b.1 = b.2;
  tk_sub x : in_block b x -> in_free B x;
  tk_free x : in_free B' x <-> in_free B x /\ ~ in_block b x;
  tk_brk : hp_brk h' = hp_brk h;
  tk_len : (length B' <= length B)%nat;
  tk_above : base < b.1 /\ bend b <= hp_brk h;
  tk_sizes x : ~ in_free B x -> x <> base -> hp_size h' x = hp_size h x
}.

Section Take.
Context (base : Z) (B : list block) (h : heap) (H : heap_ok base B h) (w v : block) (n : Z).
Context (Hw : w ∈ B) (Hv : v ∈ B) (Hp : hp_ptr h w.1 = v.1) (Hn : 1 <= n <= v.2).

Lemma adjacent : exists E1 E2, B = E1 ++ w :: v :: E2.
Proof.
  pose proof (heap_inc _ _ _ H) as Hinc. pose proof Hw as Hw'. apply list_elem_of_split in Hw' as (E1 & E2 & E). exists E1.
  pose proof (hk_seg _ _ _ H) as Hs. rewrite E in Hs. apply seg_app in Hs as [_ (Hs & _)]. rewrite Hp in Hs.
  destruct E2 as [|c E2].
  - destruct (hk_base _ _ _ H) as (D & ED & _). assert (v = (base, 0)) as Ev by (apply (sorted_inj B); [done|done|rewrite ED; left|done]).
    rewrite Ev in Hn. cbn in Hn. lia.
  - exists E2. rewrite E. do 3 f_equal. symmetry. apply (sorted_inj B); [done|done| |done]. rewrite E. apply elem_of_app. right. right. left.
Qed.

Lemma v_bounds : base < v.1 /\ bend v <= hp_brk h.
Proof.
  destruct (hk_base _ _ _ H) as (D & E & _). pose proof (heap_inc _ _ _ H) as Hinc. pose proof (hk_brk _ _ _ H) as Hb.
  rewrite Forall_forall in Hb. split; [|by apply Hb]. pose proof Hv as Hv'. rewrite E in Hv', Hinc. apply StronglySorted_cons in Hinc as [Hf _].
  apply elem_of_cons in Hv' as [Ev|Hv']; [rewrite Ev in Hn; cbn in Hn; lia|]. rewrite Forall_forall in Hf. exact (Hf v Hv').
Qed.

(** Bytes of one block are not in another. *)
Lemma only_in b x : b ∈ B -> in_block b x -> in_block v x -> b = v.
Proof.
  intros Hb Hx Hx'. pose proof (hk_sorted _ _ _ H) as Hs. pose proof Hb as Hb'. apply list_elem_of_split in Hb' as (D1 & D2 & E).
  rewrite E in Hs. pose proof Hv as Hv'. rewrite E in Hv'. apply StronglySorted_app in Hs as (H12 & _ & Hs). apply StronglySorted_cons in Hs as [Hs _].
  rewrite Forall_forall in Hs. unfold in_block in *. apply elem_of_app in Hv' as [Hv'|[->|Hv']%elem_of_cons]; [|done|].
  - specialize (H12 v b Hv' ltac:(left)). unfold before in H12. lia.
  - specialize (Hs v Hv'). unfold before in Hs. lia.
Qed.

(** Another list in place of [v], up to which the list is as before. *)
Lemma replace_ok E1 E2 R h' : B = E1 ++ w :: v :: E2 -> Forall (fun b => 1 <= b.2) R ->
  StronglySorted before (R ++ E2) -> Forall (fun b => v.1 <= b.1 /\ bend b <= bend v) R ->
  seg h' (E1 ++ w :: R ++ E2) base -> hp_freep h' = w.1 -> hp_brk h' = hp_brk h ->
  heap_ok base (E1 ++ w :: R ++ E2) h'.
Proof.
  intros E HR Hs HRv Hseg Hf Hb. pose proof (hk_sorted _ _ _ H) as HsB. rewrite E in HsB.
  apply StronglySorted_app in HsB as (S1 & S2 & S3). apply StronglySorted_cons in S3 as [S3 S4].
  assert (forall b c, b ∈ E1 ++ [w] -> c ∈ R ++ E2 -> before b c) as Hlt.
  { intros b c Hb' Hc. assert (forall d, d ∈ v :: E2 -> before b d) as Hd.
    { apply elem_of_app in Hb' as [Hb'| ->%list_elem_of_singleton]; [intros d Hd; apply S1; [done|by right]|by rewrite Forall_forall in S3]. }
    apply elem_of_app in Hc as [Hc|Hc]; [|apply Hd; by right]. rewrite Forall_forall in HRv. destruct (HRv c Hc) as [Hc' _].
    specialize (Hd v ltac:(left)). unfold before in *. lia. }
  split.
  - destruct (hk_base _ _ _ H) as (D & ED & HD). rewrite E in ED. destruct E1 as [|e E1]; cbn in ED; injection ED as -> <-; cbn.
    + apply Forall_cons in HD as [_ HD]. eexists. split; [done|]. by apply Forall_app.
    + apply Forall_app in HD as [HD1 HD2]. apply Forall_cons in HD2 as [Hw2 HD2]. apply Forall_cons in HD2 as [_ HD2].
      eexists. split; [done|]. apply Forall_app. split; [done|]. constructor; [done|]. by apply Forall_app.
  - apply StronglySorted_app. split; [|split; [done|]].
    + intros b c Hb' [->|Hc]%elem_of_cons; [apply S1; [done|left]|]. apply Hlt; [apply elem_of_app; by left|done].
    + apply StronglySorted_cons. split; [|done]. rewrite Forall_forall. intros c Hc. apply Hlt; [apply elem_of_app; right; left|done].
  - done.
  - rewrite Hf. exists w.2. rewrite <- surjective_pairing. apply elem_of_app. right. left.
  - rewrite Hb. pose proof (hk_brk _ _ _ H) as HB. rewrite E in HB. apply Forall_app in HB as [B1 B2].
    apply Forall_cons in B2 as [B2 B3]. apply Forall_cons in B3 as [B3 B4]. apply Forall_app. split; [done|]. constructor; [done|].
    apply Forall_app. split; [|done]. eapply Forall_impl; [exact HRv|]. intros b [_ Hb']. lia.
  - apply H.
  - rewrite Hb. apply H.
Qed.

Lemma replace_free E1 E2 R b x : B = E1 ++ w :: v :: E2 -> (forall y, in_free R y <-> in_block v y /\ ~ in_block b y) ->
  (forall y, in_block b y -> in_block v y) -> in_free (E1 ++ w :: R ++ E2) x <-> in_free B x /\ ~ in_block b x.
Proof.
  intros E HR Hbv. rewrite E at 1. rewrite !in_free_app, !in_free_cons, in_free_app, HR.
  assert (forall d, d ∈ E1 ++ w :: E2 -> in_block d x -> ~ in_block b x) as Hout.
  { intros d Hd Hx Hx'. assert (d ∈ B) as HdB by (rewrite E; set_solver). assert (d = v) as -> by (by apply (only_in d x); [|done|apply Hbv]).
    pose proof (heap_inc _ _ _ H) as Hi. rewrite E in Hi. apply StronglySorted_app in Hi as (I1 & _ & I2).
    apply StronglySorted_cons in I2 as [I2 I3]. apply StronglySorted_cons in I3 as [I3 _]. rewrite !Forall_forall in *.
    apply elem_of_app in Hd as [Hd|[Hd|Hd]%elem_of_cons].
    - specialize (I1 v v Hd ltac:(right; left)). cbn in I1. lia.
    - specialize (I2 v ltac:(left)). rewrite <- Hd in I2. cbn in I2. lia.
    - specialize (I3 v Hd). cbn in I3. lia. }
  assert (in_free E1 x -> ~ in_block b x) as H1 by (intros (d & Hd & Hx); apply (Hout d); [set_solver|done]).
  assert (in_block w x -> ~ in_block b x) as H2 by (apply Hout; set_solver).
  assert (in_free E2 x -> ~ in_block b x) as H3 by (intros (d & Hd & Hx); apply (Hout d); [set_solver|done]).
  naive_solver.
Qed.

(** The list around [v]. *)
Record around (E1 E2 : list block) : Prop := {
  ar_eq : B = E1 ++ w :: v :: E2;
  ar_seg1 : seg h E1 w.1;
  ar_w : hp_size h w.1 = w.2;
  ar_v : hp_ptr h v.1 = next_of E2 base;
  ar_v2 : hp_size h v.1 = v.2;
  ar_seg2 : seg h E2 base;
  ar_lo b : b ∈ E1 -> b.1 < w.1;
  ar_wv : w.1 < v.1;
  ar_hi b : b ∈ E2 -> before v b;
  ar_sorted : StronglySorted before E2
}.

Lemma around_v : exists E1 E2, around E1 E2.
Proof.
  destruct adjacent as (E1 & E2 & E). exists E1, E2. pose proof (heap_inc _ _ _ H) as Hi.
  pose proof (hk_seg _ _ _ H) as Hs. rewrite E in Hs, Hi. apply seg_app in Hs as (S1 & S2 & S3 & S4 & S5 & S6).
  apply StronglySorted_app in Hi as (I1 & _ & I2). apply StronglySorted_cons in I2 as [I2 _]. rewrite Forall_forall in I2.
  pose proof (hk_sorted _ _ _ H) as HsB. rewrite E in HsB. apply StronglySorted_app in HsB as (_ & _ & HsB).
  apply StronglySorted_cons in HsB as [_ HsB]. apply StronglySorted_cons in HsB as [HsV HsE]. rewrite Forall_forall in HsV.
  split; try done; [intros b Hb; apply (I1 b w Hb); left|apply I2; left].
Qed.

(** malloc takes a block of the right size off the list. *)
Lemma take_whole : v.2 = n -> exists B', taken_from base B h v B' (set_freep w.1 (set_ptr w.1 (hp_ptr h v.1) h)).
Proof.
  intros En. destruct around_v as (E1 & E2 & [E S1 S3 S4 S5 S6 I1 Iw I3 Hs]). destruct v_bounds as [Hb1 Hb2].
  exists (E1 ++ w :: [] ++ E2). split; try done.
  - apply replace_ok; [done|done|done|done| |done|done]. apply seg_app. split; [|split; [|split]].
    + eapply seg_frame; [|exact S1]. rewrite Forall_forall. intros b Hb. specialize (I1 b Hb). cbn. rewrite fupd_ne; [done|lia].
    + cbn. rewrite fupd_eq. exact S4.
    + exact S3.
    + eapply seg_frame; [|exact S6]. rewrite Forall_forall. intros b Hb. specialize (I3 b Hb). cbn.
      rewrite fupd_ne; [done|]. unfold before, bend, HDR in I3. lia.
  - intros x Hx. exists v. done.
  - intros x. apply replace_free; [done| |done]. intros y. rewrite in_free_nil. naive_solver.
  - rewrite E, !length_app. cbn. lia.
Qed.

Ltac upd := cbn [hp_ptr hp_size set_freep set_size set_ptr fst snd].

(** Of a bigger block it takes the end. *)
Lemma take_end : n < v.2 -> let b := (v.1 + HDR * (v.2 - n), n) in
  exists B', taken_from base B h b B' (set_freep w.1 (set_size b.1 n (set_size v.1 (v.2 - n) h))).
Proof.
  intros En b. destruct around_v as (E1 & E2 & [E S1 S3 S4 S5 S6 I1 Iw I3 Hs]). destruct v_bounds as [Hb1 Hb2].
  assert (v.1 < b.1 /\ bend b = bend v) as [Hb3 Hb4] by (unfold b, bend, HDR; cbn; lia).
  assert (forall y, in_free [(v.1, v.2 - n)] y <-> in_block v y /\ ~ in_block b y) as Hv'.
  { intros y. rewrite in_free_cons, in_free_nil. unfold in_block. rewrite Hb4. unfold b, bend, HDR in *. cbn in *. lia. }
  assert (forall x, in_block b x -> in_block v x) as Hsub by (intros x; unfold in_block; rewrite Hb4; unfold b, bend, HDR in *; cbn in *; lia).
  exists (E1 ++ w :: [(v.1, v.2 - n)] ++ E2). split.
  - apply replace_ok; [done|by repeat constructor; cbn; lia| | | |done|done].
    + constructor; [done|]. rewrite Forall_forall. intros c Hc. specialize (I3 c Hc). unfold before, bend, HDR in *. cbn. lia.
    + repeat constructor; unfold bend, HDR; cbn; lia.
    + apply seg_app. split; [|split; [|split; [|split; [|split]]]].
      * eapply seg_frame; [|exact S1]. rewrite Forall_forall. intros c Hc. specialize (I1 c Hc). upd. rewrite !fupd_ne by lia. done.
      * exact Hp.
      * upd. rewrite !fupd_ne by lia. exact S3.
      * exact S4.
      * upd. rewrite fupd_ne by lia. by rewrite fupd_eq.
      * eapply seg_frame; [|exact S6]. rewrite Forall_forall. intros c Hc. specialize (I3 c Hc). upd.
        unfold before in I3. assert (b.1 < bend v) by (unfold b, bend, HDR; cbn; lia). rewrite !fupd_ne by lia. done.
  - cbn. by rewrite fupd_eq.
  - intros x Hx. exists v. auto.
  - intros x. by apply replace_free.
  - done.
  - rewrite E, !length_app. cbn. lia.
  - rewrite Hb4. split; [lia|done].
  - intros x Hx _. assert (~ in_block v x) as Hn' by (intros Hx'; apply Hx; by exists v). upd.
    rewrite !fupd_ne; [done| |]; intros ->; apply Hn'; [|apply Hsub]; unfold in_block; unfold b, bend, HDR in *; cbn in *; lia.
Qed.

Lemma take_block_ok : let '(a, h') := take_block n w.1 v.1 h in exists B', taken_from base B h (a - HDR, n) B' h'.
Proof.
  destruct around_v as (_ & _ & [_ _ _ _ S5 _ _ _ _ _]). unfold take_block. rewrite S5. destruct (Z.eqb_spec v.2 n) as [En|En].
  - replace (v.1 + HDR - HDR) with v.1 by lia. rewrite <- En, <- surjective_pairing. by apply take_whole.
  - replace (v.1 + HDR * (v.2 - n) + HDR - HDR) with (v.1 + HDR * (v.2 - n)) by lia. apply take_end. lia.
Qed.
End Take.

(** *** The search of malloc *)
Section Search.
Context (base : Z) (grow : Z -> heap -> bool).

(** From [u] around the list to [freep]: the first block that is big enough,
    or none and a call of morecore. *)
Lemma search h n f V u z fuel : seg h (u :: V ++ [f]) z -> f.1 = hp_freep h -> Forall (fun b => b.1 <> hp_freep h) V ->
  (length V < fuel)%nat ->
  (exists w v, w ∈ u :: V /\ v ∈ V ++ [f] /\ hp_ptr h w.1 = v.1 /\ n <= v.2 /\
     malloc_loop grow fuel n u.1 (hp_ptr h u.1) h = let '(a, h') := take_block n w.1 v.1 h in Some (Some a, h')) \/
  (Forall (fun b => b.2 < n) (V ++ [f]) /\
     malloc_loop grow fuel n u.1 (hp_ptr h u.1) h =
       match morecore grow (fuel - S (length V)) n h with
       | Some (Some p', h') => malloc_loop grow (fuel - S (length V)) n p' (hp_ptr h' p') h'
       | Some (None, h') => Some (None, h')
       | None => None
       end).
Proof.
  revert u fuel. induction V as [|v V IH]; intros u fuel (Hu & _ & Hs) Hf HV Hl; (destruct fuel as [|fuel]; [cbn in Hl; lia|]).
  - cbn in Hu, Hs. destruct Hs as (_ & Hs & _). rewrite Hu. cbn [malloc_loop]. rewrite Hs. destruct (Z.leb_spec n f.2) as [Hn|Hn].
    + left. exists u, f. repeat split; [left|left|done|done].
    + right. split; [by constructor|]. rewrite Hf, Z.eqb_refl. cbn [length]. by rewrite Nat.sub_succ, Nat.sub_0_r.
  - cbn in Hu. rewrite Hu. pose proof Hs as (_ & Hv2 & _). apply Forall_cons in HV as [Hv HV]. cbn [malloc_loop]. rewrite Hv2.
    destruct (Z.leb_spec n v.2) as [Hn|Hn].
    + left. exists u, v. repeat split; [left|left|done|done].
    + rewrite (proj2 (Z.eqb_neq _ _)) by done. destruct (IH v fuel Hs Hf HV) as [(w & x & H1 & H2 & H3 & H4 & H5)|[H1 H2]]; [cbn in Hl; lia| |].
      * left. exists w, x. split; [by right|]. split; [by right|done].
      * right. split; [by constructor|]. exact H2.
Qed.

(** The list around from [freep]. *)
Lemma circle B h : heap_ok base B h -> exists f V, f.1 = hp_freep h /\ (forall b, b ∈ V ++ [f] <-> b ∈ B) /\
  seg h (f :: V ++ [f]) (hp_ptr h f.1) /\ Forall (fun b => b.1 <> hp_freep h) V /\ length B = S (length V).
Proof.
  intros H. destruct (hk_freep _ _ _ H) as [s Hs]. apply list_elem_of_split in Hs as (D1 & D2 & E). exists (hp_freep h, s), (D2 ++ D1).
  pose proof (heap_inc _ _ _ H) as Hi. pose proof (hk_seg _ _ _ H) as Hseg. pose proof (hk_base _ _ _ H) as (D & ED & _).
  rewrite E in Hi, Hseg, ED. set (f := (hp_freep h, s)) in *.
  apply StronglySorted_app in Hi as (I1 & _ & I2). apply StronglySorted_cons in I2 as [I2 _]. apply seg_app in Hseg as [S1 S2].
  split; [done|]. split; [rewrite E; set_solver|]. split; [|split].
  - rewrite <- app_assoc. change (f :: D2 ++ D1 ++ [f]) with ((f :: D2) ++ D1 ++ [f]). apply seg_app. split.
    + replace (next_of (D1 ++ [f]) (hp_ptr h f.1)) with base; [done|]. destruct D1; injection ED as ED; cbn; by rewrite ED.
    + apply seg_app. split; [exact S1|]. cbn. split; [done|]. split; [|done]. by destruct S2 as (_ & S2 & _).
  - apply Forall_app. split; rewrite Forall_forall in *; intros b Hb.
    + specialize (I2 b Hb). cbn in I2. lia.
    + specialize (I1 b f Hb ltac:(left)). cbn in I1. lia.
  - rewrite E, !length_app. cbn. lia.
Qed.

(** What malloc of [n] units leaves: a null pointer and everything as it was,
    or a block of bytes that were free or are new, which are no longer free. *)
Record malloced (B : list block) (h : heap) (n : Z) (r : option Z) (B' : list block) (h' : heap) : Prop := {
  ml_ok : heap_ok base B' h';
  ml_len : (length B' <= S (length B))%nat;
  ml_brk : hp_brk h <= hp_brk h' <= hp_brk h + HDR * Z.max 4096 n;
  ml_sizes x : ~ in_free B x -> x <> base -> x < hp_brk h -> hp_size h' x = hp_size h x;
  ml_res : match r with
    | None => hp_brk h' = hp_brk h /\ forall x, in_free B' x <-> in_free B x
    | Some a => let b := (a - HDR, n) in hp_size h' b.1 = n /\ base < b.1 /\ bend b <= hp_brk h' /\
        (forall x, in_block b x -> in_free B x \/ hp_brk h <= x < hp_brk h') /\
        forall x, in_free B' x <-> (in_free B x \/ hp_brk h <= x < hp_brk h') /\ ~ in_block b x
    end
}.

Lemma found_ok B h w v n a h' : heap_ok base B h -> w ∈ B -> v ∈ B -> hp_ptr h w.1 = v.1 -> 1 <= n <= v.2 ->
  take_block n w.1 v.1 h = (a, h') -> exists B', taken_from base B h (a - HDR, n) B' h'.
Proof. intros H Hw Hv Hp Hn E. pose proof (take_block_ok base B h H w v n Hw Hv Hp Hn) as Ht. by rewrite E in Ht. Qed.

(** morecore: the new memory is one block of the list, perhaps with its
    neighbour. *)
Lemma morecore_ok B h n fuel (nu := Z.max 4096 n) : heap_ok base B h -> HDR * nu < 2 ^ 31 -> hp_brk h + 2 ^ 31 <= 2 ^ 36 -> (length B <= fuel)%nat ->
  morecore grow fuel n h = Some (None, h) \/
  exists B' h' h1, morecore grow fuel n h = Some (Some (hp_freep h'), h') /\ freed base B h1 (hp_brk h, nu) B' h' /\
    hp_brk h1 = hp_brk h + HDR * nu /\ (forall x, x <> hp_brk h -> hp_size h1 x = hp_size h x).
Proof.
  intros H Hnu Hbrk Hf. unfold morecore. replace (if n <? 4096 then 4096 else n) with nu by (unfold nu; destruct (Z.ltb_spec n 4096); lia).
  assert (i32 (HDR * nu) = HDR * nu) as -> by (apply i32_id; unfold HDR in *; lia). unfold sbrk. destruct (grow (HDR * nu) h); [right|by left].
  replace (new_brk (hp_brk h) (HDR * nu)) with (hp_brk h + HDR * nu).
  2: { pose proof (hk_low _ _ _ H). pose proof (hk_pos _ _ _ H). unfold new_brk, HDR, nu in *. rewrite u64_id by lia.
       by destruct (Z.ltb_spec (16 * Z.max 4096 n) 0); [lia|]. }
  set (h1 := set_size (hp_brk h) nu (set_brk (hp_brk h + HDR * nu) h)). pose proof (hk_brk _ _ _ H) as Hb. pose proof (hk_pos _ _ _ H) as Hpos.
  pose proof (hk_base _ _ _ H) as (D & ED & HD). assert (base < hp_brk h) as Hbase by (pose proof (hk_low _ _ _ H); unfold HDR in *; lia).
  assert (hp_size h1 (hp_brk h) = nu) as Es by (cbn; by rewrite fupd_eq).
  assert (forall b, b ∈ B -> b.1 <> hp_brk h) as Hne.
  { rewrite ED in *. rewrite Forall_forall in Hb, HD. intros b [->|Hb']%elem_of_cons; [cbn; lia|].
    specialize (Hb b ltac:(by right)). specialize (HD b Hb'). cbn in Hb, HD. unfold bend, HDR in Hb. lia. }
  assert (heap_ok base B h1) as H1.
  { destruct H as [K1 K2 K3 K4 K5 K6 K7]. split; try done.
    - eapply seg_frame; [|exact K3]. rewrite Forall_forall. intros b Hb'. split; [done|]. cbn. rewrite fupd_ne; [done|auto].
    - eapply Forall_impl; [exact K5|]. cbn. unfold HDR, nu. lia.
    - cbn. unfold HDR, nu in *. lia. }
  destruct (free_spec_at base B h1 (hp_brk h) fuel H1) as (B' & h' & E & F); rewrite ?Es.
  - unfold nu. lia.
  - eapply Forall_impl; [exact Hb|]. intros b Hb'. by right.
  - done.
  - cbn. lia.
  - cbn. unfold HDR in *. lia.
  - done.
  - exists B', h', h1. rewrite E. rewrite Es in F. split; [done|]. split; [done|]. split; [done|]. intros x Hx. cbn. by rewrite fupd_ne.
Qed.

Lemma taken_malloced B h n a B' h' : taken_from base B h (a - HDR, n) B' h' -> malloced B h n (Some a) B' h'.
Proof.
  intros [K1 K2 K3 K4 K5 K6 K7 K8]. split; [done|lia|unfold HDR; lia|auto|]. cbn. split; [done|]. destruct K7 as [K7 K7']. split; [done|].
  split; [by rewrite K5|]. split; [auto|]. intros x. rewrite K4, K5. lia || naive_solver lia.
Qed.

(** Growing, then taking. *)
Lemma grown_malloced B h h0 n nu B1 h1 a B' h' : heap_ok base B h -> freed base B h0 (hp_brk h, nu) B1 h1 -> 1 <= nu <= Z.max 4096 n ->
  hp_brk h0 = hp_brk h + HDR * nu -> (forall x, x <> hp_brk h -> hp_size h0 x = hp_size h x) ->
  taken_from base B1 h1 (a - HDR, n) B' h' -> malloced B h n (Some a) B' h'.
Proof.
  intros H [F1 F2 F3 F4 F5 F6] Hnu Hb0 Hs0 [K1 K2 K3 K4 K5 K6 K7 K8]. 
  assert (forall x, in_free B1 x <-> in_free B x \/ hp_brk h <= x < hp_brk h') as Hfree.
  { intros x. rewrite F2, K5, F3, Hb0. done. }
  assert (hp_brk h <= hp_brk h') as Hle by (rewrite K5, F3, Hb0; unfold HDR; lia).
  split; [done|lia| | |].
  - split; [done|]. rewrite K5, F3, Hb0. unfold HDR. lia.
  - intros x Hx Hb Hlt. rewrite K8; [|rewrite Hfree; lia || naive_solver lia|done]. rewrite F6; [|cbn; lia|].
    + apply Hs0. lia.
    + intros c Hc <-. destruct (hk_base _ _ _ H) as (D & -> & HD). apply elem_of_cons in Hc as [->|Hc]; [done|].
      rewrite Forall_forall in HD. specialize (HD c Hc). apply Hx. exists c. split; [by right|]. unfold in_block, bend, HDR. cbn in HD. lia.
  - cbn. split; [done|]. destruct K7 as [K7 K7']. split; [done|]. split; [by rewrite K5|]. split; [intros x Hx; by apply Hfree, K3|].
    intros x. by rewrite K4, Hfree.
Qed.

Lemma malloc_loop_ok B h n fuel : heap_ok base B h -> 1 <= n -> HDR * Z.max 4096 n < 2 ^ 31 -> hp_brk h + 2 ^ 31 <= 2 ^ 36 ->
  (2 * length B + 3 <= fuel)%nat ->
  exists r B' h', malloc_loop grow fuel n (hp_freep h) (hp_ptr h (hp_freep h)) h = Some (r, h') /\ malloced B h n r B' h'.
Proof.
  intros H Hn Hmax Hbrk Hf. destruct (circle B h H) as (f & V & Ef & HV & Hs & Hnf & Hl). rewrite <- Ef.
  assert (forall (w : block) V f, w ∈ f :: V -> w ∈ V ++ [f]) as Hin by set_solver.
  destruct (search h n f V f _ fuel Hs Ef Hnf) as [(w & v & Hw & Hv & Hp & Hle & E)|[Hall E]]; [lia| |].
  - destruct (take_block n w.1 v.1 h) as [a h'] eqn:Et.
    destruct (found_ok B h w v n a h' H) as [B' Ht]; [by apply HV, Hin|by apply HV|done|done|done|].
    exists (Some a), B', h'. split; [done|]. by apply taken_malloced.
  - rewrite E. set (fuel' := (fuel - S (length V))%nat). destruct (morecore_ok B h n fuel' H Hmax Hbrk) as [Em|(B1 & h1 & h0 & Em & F & Hb0 & Hs0)]; [lia| |].
    + rewrite Em. exists None, B, h. split; [done|]. split; [done|lia|unfold HDR; lia|done|done].
    + rewrite Em. pose proof F as [F1 F2 F3 F4 F5 F6]. destruct (circle B1 h1 F1) as (g & U & Eg & HU & Hsg & Hng & HlU). rewrite <- Eg.
      destruct (search h1 n g U g _ fuel' Hsg Eg Hng) as [(w & v & Hw & Hv & Hp & Hle & E1)|[Hall1 _]]; [lia| |].
      * rewrite E1. destruct (take_block n w.1 v.1 h1) as [a h'] eqn:Et.
        destruct (found_ok B1 h1 w v n a h' F1) as [B' Ht]; [by apply HU, Hin|by apply HU|done|done|done|].
        exists (Some a), B', h'. split; [done|]. apply (grown_malloced B h h0 n (Z.max 4096 n) B1 h1); try done; lia.
      * destruct F5 as (c & Hc & Hc2). apply HU in Hc. rewrite Forall_forall in Hall1. specialize (Hall1 c Hc). cbn in Hc2, Hall1. lia.
Qed.
End Search.

(** *** More fuel changes nothing *)
Lemma free_find_mono fuel fuel' h bp p q : free_find fuel h bp p = Some q -> (fuel <= fuel')%nat -> free_find fuel' h bp p = Some q.
Proof.
  revert fuel' p. induction fuel as [|fuel IH]; intros fuel' p; destruct fuel' as [|fuel']; cbn [free_find]; intros H Hle; try lia;
    destruct ((p <? bp) && (bp <? hp_ptr h p)); try done; destruct ((hp_ptr h p <=? p) && ((p <? bp) || (bp <? hp_ptr h p))); try done.
  apply IH; [done|lia].
Qed.

Lemma free_mono fuel fuel' ap h h' : free fuel ap h = Some h' -> (fuel <= fuel')%nat -> free fuel' ap h = Some h'.
Proof.
  unfold free. destruct (free_find fuel h (ap - HDR) (hp_freep h)) as [p|] eqn:E; [|done]. intros H Hle.
  by rewrite (free_find_mono _ _ _ _ _ _ E Hle).
Qed.

Lemma morecore_mono grow fuel fuel' n h r : morecore grow fuel n h = Some r -> (fuel <= fuel')%nat -> morecore grow fuel' n h = Some r.
Proof.
  unfold morecore. destruct (sbrk _ _ _) as [[p|] h1]; [|done]. destruct (free fuel _ _) as [h2|] eqn:E; [|done]. intros H Hle.
  by rewrite (free_mono _ _ _ _ _ E Hle).
Qed.

Lemma malloc_loop_mono grow fuel fuel' n u p h r : malloc_loop grow fuel n u p h = Some r -> (fuel <= fuel')%nat ->
  malloc_loop grow fuel' n u p h = Some r.
Proof.
  revert fuel' u p h. induction fuel as [|fuel IH]; intros fuel' u p h; destruct fuel' as [|fuel']; cbn [malloc_loop]; intros H Hle; try lia;
    (destruct (n <=? hp_size h p); [done|]); try done. destruct (p =? hp_freep h); [|apply IH; [done|lia]].
  destruct (morecore grow fuel n h) as [[[p'|] h']|] eqn:E; [| |done]; rewrite (morecore_mono _ _ _ _ _ _ E) by lia; [|done].
  apply IH; [done|lia].
Qed.

(** Requests malloc can serve: the increment of sbrk is an int, and the size
    of a block, in units of 16 bytes, is 32 bits. *)
Definition request_ok (nbytes : Z) (h : heap) : Prop := 0 <= nbytes < 2 ^ 31 - 64 /\ hp_brk h + 2 ^ 31 <= 2 ^ 36.

Lemma units_ok nbytes h : request_ok nbytes h -> 1 <= units nbytes /\ HDR * Z.max 4096 (units nbytes) < 2 ^ 31 /\
  nbytes + HDR <= HDR * units nbytes.
Proof. intros [Hn _]. unfold units, HDR in *. rewrite u32_id by dlia. dlia. Qed.

(** ** A program that uses the allocator

    The live blocks, and the heap.  The program may write to a block it has,
    but not to its header. *)
Section Client.
Context (base : Z) (grow : Z -> heap -> bool).

Inductive client_step : heap * list block -> heap * list block -> Prop :=
| client_malloc h A fuel nbytes a h' : request_ok nbytes h -> malloc base grow fuel nbytes h = Some (Some a, h') ->
    client_step (h, A) (h', (a - HDR, units nbytes) :: A)
| client_malloc_null h A fuel nbytes h' : request_ok nbytes h -> malloc base grow fuel nbytes h = Some (None, h') ->
    client_step (h, A) (h', A)
| client_free h A fuel b h' : b ∈ A -> free fuel (b.1 + HDR) h = Some h' ->
    client_step (h, A) (h', filter (fun c => c <> b) A)
| client_write h A b f g : b ∈ A ->
    (forall x, ~ (b.1 + HDR <= x < bend b) -> f x = hp_ptr h x /\ g x = hp_size h x) ->
    client_step (h, A) (mkheap f g (hp_freep h) (hp_brk h), A).

(** Before the first call of malloc. *)
Definition fresh (h : heap) : Prop := hp_freep h = 0 /\ 0 < base /\ base + HDR <= hp_brk h.

Record client_ok (h : heap) (A B : list block) : Prop := {
  cl_heap : heap_ok base B h \/ fresh h /\ A = [] /\ B = [(base, 0)];
  cl_live b : b ∈ A -> hp_size h b.1 = b.2 /\ 1 <= b.2 /\ base < b.1 /\ bend b <= hp_brk h;
  cl_free b x : b ∈ A -> in_block b x -> ~ in_free B x;
  cl_apart b c x : b ∈ A -> c ∈ A -> in_block b x -> in_block c x -> b = c;
  cl_nodup : NoDup A;
  cl_brk : hp_brk h <= 2 ^ 36
}.

Lemma init_ok h A B : client_ok h A B -> heap_ok base B (malloc_init base h) /\ hp_brk (malloc_init base h) = hp_brk h /\
  (forall x, x <> base -> hp_size (malloc_init base h) x = hp_size h x).
Proof.
  intros [[H|((F1 & F2 & F3) & _ & ->)] _ _ _ _ _]; unfold malloc_init.
  - destruct (hk_freep _ _ _ H) as [s Hs]. pose proof (heap_inc _ _ _ H) as Hi. pose proof (hk_base _ _ _ H) as (D & E & _).
    pose proof (hk_pos _ _ _ H). assert (hp_freep h <> 0) as Hne.
    { rewrite E in Hs, Hi. apply StronglySorted_cons in Hi as [Hi _]. rewrite Forall_forall in Hi.
      apply elem_of_cons in Hs as [[= Hs _]|Hs]; [lia|]. specialize (Hi _ Hs). cbn in Hi. lia. }
    rewrite (proj2 (Z.eqb_neq _ _)) by done. done.
  - rewrite F1. cbn. split; [|split; [done|intros x Hx; by rewrite fupd_ne]]. split; cbn; try done.
    + by exists [].
    + by repeat constructor.
    + by rewrite !fupd_eq.
    + exists 0. left.
    + repeat constructor. unfold bend, HDR in *. cbn. lia.
Qed.

(** Enough fuel for malloc is twice the length of the list, and some. *)
Lemma malloc_total h A B nbytes fuel : client_ok h A B -> request_ok nbytes h -> (2 * length B + 3 <= fuel)%nat ->
  exists r B' h', malloc base grow fuel nbytes h = Some (r, h') /\
    (forall x, ~ in_free B x -> x <> base -> x < hp_brk h -> hp_size h' x = hp_size h x) /\
    malloced base B (malloc_init base h) (units nbytes) r B' h'.
Proof.
  intros HC Hr Hf. destruct (init_ok h A B HC) as (H & Eb & Es). destruct (units_ok nbytes h Hr) as (Hu & Hmax & _). destruct Hr as [_ Hbrk].
  destruct (malloc_loop_ok base grow B (malloc_init base h) (units nbytes) fuel H Hu Hmax) as (r & B' & h' & E & M); [by rewrite Eb|done|].
  exists r, B', h'. split; [exact E|]. pose proof M as [_ _ _ M4 _]. rewrite Eb in M4. split; [|done]. intros x H1 H2 H3. by rewrite M4, Es.
Qed.

Lemma live_size h A B h' : client_ok h A B ->
  (forall x, ~ in_free B x -> x <> base -> x < hp_brk h -> hp_size h' x = hp_size h x) -> forall b, b ∈ A -> hp_size h' b.1 = b.2.
Proof.
  intros HC Hs b Hb. destruct (cl_live _ _ _ HC b Hb) as (Es & Hn & Hlo & Hhi). rewrite <- Es. unfold bend, HDR in Hhi. apply Hs; [|lia|lia].
  apply (cl_free _ _ _ HC b); [done|]. unfold in_block, bend, HDR. lia.
Qed.

Lemma malloc_some_ok h A B nbytes a B' h' : client_ok h A B -> request_ok nbytes h ->
  (forall x, ~ in_free B x -> x <> base -> x < hp_brk h -> hp_size h' x = hp_size h x) ->
  malloced base B (malloc_init base h) (units nbytes) (Some a) B' h' -> client_ok h' ((a - HDR, units nbytes) :: A) B'.
Proof.
  intros HC Hr Hs M. pose proof (live_size h A B h' HC Hs) as Hlive. destruct (init_ok h A B HC) as (_ & Eb & _).
  destruct (units_ok nbytes h Hr) as (Hu & Hm & _). destruct M as [M1 _ M3 _ (R1 & R2 & R3 & R4 & R5)]. rewrite Eb in *.
  assert (hp_brk h' <= 2 ^ 36) by (destruct Hr; lia).
  set (nb := (a - HDR, units nbytes)) in *.
  assert (forall b x, b ∈ A -> in_block b x -> ~ in_block nb x) as Hap.
  { intros b x Hb' Hx Hx'. destruct (cl_live _ _ _ HC b Hb') as (_ & _ & _ & Hhi). destruct (R4 x Hx') as [Hf|Hf]; [by eapply (cl_free _ _ _ HC b)|].
    unfold in_block in Hx. lia. }
  split; [by left| | | | |done].
  - intros b [->|Hb']%elem_of_cons; [done|]. destruct (cl_live _ _ _ HC b Hb') as (_ & Hn & Hlo & Hhi). split; [auto|]. split; [done|]. split; [done|]. lia.
  - intros b x [->|Hb']%elem_of_cons Hx; rewrite R5; [naive_solver|]. intros [[Hf|Hf] _]; [by eapply (cl_free _ _ _ HC b)|].
    destruct (cl_live _ _ _ HC b Hb') as (_ & _ & _ & Hhi). unfold in_block in Hx. lia.
  - intros b c x [->|Hb']%elem_of_cons [->|Hc]%elem_of_cons Hx Hx'; [done| | |by eapply (cl_apart _ _ _ HC)].
    + destruct (Hap c x Hc Hx' Hx).
    + destruct (Hap b x Hb' Hx Hx').
  - constructor; [|apply HC]. intros Hin. apply (Hap nb nb.1 Hin); unfold in_block, bend, HDR; cbn; lia.
Qed.

Lemma malloc_none_ok h A B nbytes B' h' : client_ok h A B ->
  (forall x, ~ in_free B x -> x <> base -> x < hp_brk h -> hp_size h' x = hp_size h x) ->
  malloced base B (malloc_init base h) (units nbytes) None B' h' -> client_ok h' A B'.
Proof.
  intros HC Hs [M1 _ _ _ [R1 R2]]. pose proof (live_size h A B h' HC Hs) as Hlive. destruct (init_ok h A B HC) as (_ & Eb & _). rewrite Eb in R1.
  split; [by left| | |apply HC|apply HC|rewrite R1; apply HC].
  - intros b Hb. destruct (cl_live _ _ _ HC b Hb) as (_ & Hn & Hlo & Hhi). rewrite R1. auto.
  - intros b x Hb Hx. rewrite R2. by apply (cl_free _ _ _ HC b).
Qed.

Lemma free_total h A B b fuel : client_ok h A B -> b ∈ A -> (length B <= fuel)%nat ->
  exists B' h', free fuel (b.1 + HDR) h = Some h' /\ freed base B h b B' h'.
Proof.
  intros HC Hb Hf. destruct (cl_live _ _ _ HC b Hb) as (Es & Hn & Hlo & Hhi).
  destruct (cl_heap _ _ _ HC) as [H|(_ & -> & _)]; [|by apply not_elem_of_nil in Hb].
  destruct (free_spec_at base B h b.1 fuel H) as (B' & h' & E & F); rewrite ?Es, <- ?surjective_pairing; try done; [|apply HC|].
  - rewrite Forall_forall. intros c Hc. assert (~ (exists x, in_block b x /\ in_block c x)) as Hno.
    { intros (x & Hx & Hx'). apply (cl_free _ _ _ HC b x Hb Hx). by exists c. }
    destruct (decide (c = (base, 0))) as [->|Hnc]; [right; unfold bend; cbn; lia|].
    assert (1 <= c.2) as Hc2. { destruct (hk_base _ _ _ H) as (D & -> & HD). apply elem_of_cons in Hc as [Hc|Hc]; [done|]. rewrite Forall_forall in HD. auto. }
    unfold apart. destruct (decide (bend b <= c.1)); [by left|]. right. destruct (decide (bend c <= b.1)); [done|]. destruct Hno.
    exists (Z.max b.1 c.1). unfold in_block, bend, HDR in *. lia.
  - rewrite Es, <- surjective_pairing in F. eauto.
Qed.

Lemma free_ok h A B b B' h' : client_ok h A B -> b ∈ A -> freed base B h b B' h' -> client_ok h' (filter (fun c => c <> b) A) B'.
Proof.
  intros HC Hb [F1 F2 F3 _ _ F6].
  assert (forall c, c ∈ filter (fun c => c <> b) A -> c ∈ A /\ c <> b) as Hin by (intros c Hc; apply list_elem_of_filter in Hc; naive_solver).
  assert (forall c, c ∈ A -> in_block c c.1) as Hself.
  { intros c Hc. destruct (cl_live _ _ _ HC c Hc) as (_ & Hn & _ & _). unfold in_block, bend, HDR. lia. }
  split; [by left| | | |apply NoDup_filter, HC|rewrite F3; apply HC].
  - intros c [Hc Hne]%Hin. destruct (cl_live _ _ _ HC c Hc) as (Es & Hn & Hlo & Hhi). rewrite F3. split; [|done]. rewrite F6; [done| |].
    + intros E. apply Hne, (cl_apart _ _ _ HC c b c.1); [done|done|auto|rewrite E; auto].
    + intros d Hd E. destruct (cl_heap _ _ _ HC) as [H|(_ & -> & _)]; [|by apply not_elem_of_nil in Hb].
      destruct (hk_base _ _ _ H) as (D & ED & HD). pose proof Hd as Hd'. rewrite ED in Hd'. apply elem_of_cons in Hd' as [->|Hd']; [cbn in E; lia|].
      rewrite Forall_forall in HD. specialize (HD d Hd'). apply (cl_free _ _ _ HC c c.1 Hc); [auto|]. exists d. split; [done|].
      unfold in_block, bend, HDR. cbn in HD. lia.
  - intros c x [Hc Hne]%Hin Hx. rewrite F2. intros [Hf|Hf]; [by apply (cl_free _ _ _ HC c x Hc Hx)|].
    by apply Hne, (cl_apart _ _ _ HC c b x).
  - intros c d x [Hc _]%Hin [Hd _]%Hin. by apply (cl_apart _ _ _ HC).
Qed.

(** Writes to a live block do not touch the list. *)
Lemma write_ok h A B b f g : client_ok h A B -> b ∈ A ->
  (forall x, ~ (b.1 + HDR <= x < bend b) -> f x = hp_ptr h x /\ g x = hp_size h x) -> client_ok (mkheap f g (hp_freep h) (hp_brk h)) A B.
Proof.
  intros HC Hb Hw. destruct (cl_live _ _ _ HC b Hb) as (_ & _ & Hlo & _).
  destruct (cl_heap _ _ _ HC) as [H|(_ & -> & _)]; [|by apply not_elem_of_nil in Hb].
  assert (forall x, b.1 + HDR <= x < bend b -> in_block b x) as Hpay by (intros x Hx; unfold in_block, HDR in *; lia).
  split; [left| |apply HC|apply HC|apply HC|apply HC].
  - destruct H as [K1 K2 K3 K4 K5 K6 K7]. split; try done. eapply seg_frame; [|exact K3]. rewrite Forall_forall. intros c Hc. apply Hw. intros Hx.
    destruct K1 as (D & ED & HD). rewrite ED in Hc. apply elem_of_cons in Hc as [->|Hc]; [unfold HDR in *; cbn in Hx; lia|].
    apply (cl_free _ _ _ HC b c.1 Hb (Hpay _ Hx)). exists c. split; [rewrite ED; by right|]. rewrite Forall_forall in HD. specialize (HD c Hc).
    unfold in_block, bend, HDR. cbn in HD. lia.
  - intros c Hc. destruct (cl_live _ _ _ HC c Hc) as (Es & Hn & Hrest). split; [|done]. cbn. rewrite <- Es. apply Hw. intros Hx.
    assert (c = b) as -> by (apply (cl_apart _ _ _ HC c b c.1); [done|done|unfold in_block, bend, HDR; lia|auto]). unfold HDR in Hx. lia.
Qed.

Lemma client_step_ok h A h' A' B : client_ok h A B -> client_step (h, A) (h', A') -> exists B', client_ok h' A' B'.
Proof.
  intros HC Hs. inversion Hs as [h0 A0 fuel nb a h1 Hr E|h0 A0 fuel nb h1 Hr E|h0 A0 fuel b h1 Hb E|h0 A0 b f g Hb Hw]; subst.
  - destruct (malloc_total h A B nb (fuel + (2 * length B + 3)) HC Hr) as (r & B' & h2 & E2 & S & M); [lia|].
    unfold malloc in *. rewrite (malloc_loop_mono _ _ _ _ _ _ _ _ E) in E2 by lia. injection E2 as <- <-. exists B'. by apply (malloc_some_ok h A B).
  - destruct (malloc_total h A' B nb (fuel + (2 * length B + 3)) HC Hr) as (r & B' & h2 & E2 & S & M); [lia|].
    unfold malloc in *. rewrite (malloc_loop_mono _ _ _ _ _ _ _ _ E) in E2 by lia. injection E2 as <- <-. exists B'. by apply (malloc_none_ok h A' B nb).
  - destruct (free_total h A B b (fuel + length B) HC Hb) as (B' & h2 & E2 & F); [lia|].
    rewrite (free_mono _ _ _ _ _ E) in E2 by lia. injection E2 as <-. exists B'. by apply (free_ok h A B).
  - exists B. by apply (write_ok h A' B b).
Qed.
End Client.

(** C31. A program starts with a break of at most 2^36, frees only what it was
    given, keeps off the headers, and asks malloc only for fewer than
    2^31 - 64 bytes at a time and while the break is at most 2^36 - 2^31
    ([request_ok]: for larger requests the increment that morecore passes to
    sbrk, an int, is negative).  In every such run the blocks malloc has given
    out and free has not taken back never overlap; malloc of such a request
    always returns, and a block it returns has room for the bytes that were
    asked for, in memory the process has and outside of every live block; and
    free always returns. *)
Theorem allocator_safe base grow h0 h A : fresh base h0 -> hp_brk h0 <= 2 ^ 36 -> rtc (client_step base grow) (h0, []) (h, A) ->
  NoDup A /\ (forall b c x, b ∈ A -> c ∈ A -> in_block b x -> in_block c x -> b = c) /\
  (forall nbytes, request_ok nbytes h -> exists fuel r h', malloc base grow fuel nbytes h = Some (r, h') /\
     forall a x, r = Some a -> a <= x < a + nbytes -> base < x < hp_brk h' /\ forall b, b ∈ A -> ~ in_block b x) /\
  (forall b, b ∈ A -> exists fuel h', free fuel (b.1 + HDR) h = Some h').
Proof.
  intros Hf Hb Hr. assert (exists B, client_ok base h A B) as [B HC].
  { change h with (h, A).1. change A with (h, A).2 at 2. revert Hr. apply (rtc_ind_r (fun s => exists B, client_ok base s.1 s.2 B)).
    - exists [(base, 0)]. split; try done; [by right| | | |constructor]; intros *; by intros ?%not_elem_of_nil.
    - intros [h1 A1] [h2 A2] _ Hs [B HB]. by eapply client_step_ok. }
  split; [apply HC|]. split; [apply HC|]. split.
  - intros nb Hq. destruct (malloc_total base grow h A B nb (2 * length B + 3) HC Hq) as (r & B' & h' & E & S & M); [lia|].
    exists (2 * length B + 3)%nat, r, h'. split; [done|]. intros a x -> Hx. destruct (units_ok nb h Hq) as (_ & _ & Hu).
    pose proof (malloc_some_ok base h A B nb a B' h' HC Hq S M) as HC'.
    destruct (cl_live _ _ _ _ HC' (a - HDR, units nb) ltac:(left)) as (_ & _ & Hlo & Hhi).
    assert (in_block (a - HDR, units nb) x) as Hin by (unfold in_block, bend, HDR in *; cbn in *; lia).
    unfold bend, HDR in *. cbn in *. split; [lia|]. intros b Hb' Hxb.
    pose proof (cl_apart _ _ _ _ HC' b _ x ltac:(right; exact Hb') ltac:(left) Hxb Hin) as ->.
    pose proof (cl_nodup _ _ _ _ HC') as Hnd. by apply NoDup_cons in Hnd as [Hnd _].
  - intros b Hin. destruct (free_total base h A B b (length B) HC Hin) as (B' & h' & E & _); [lia|]. eauto.
Qed.

(** A page of data, [base] in it, and a heap that may grow. *)
Definition uheap0 : heap := mkheap (fun _ => 0) (fun _ => 0) 0 8192.
Definition uheap1 : heap := match malloc 4096 (fun _ _ => true) 9 100 uheap0 with Some (_, h) => h | None => uheap0 end.

Lemma allocator_safe_witness : exists fuel r h', malloc 4096 (fun _ _ => true) fuel 1000 uheap1 = Some (r, h') /\
  forall a x, r = Some a -> a <= x < a + 1000 -> 4096 < x < hp_brk h' /\ ~ in_block (73600, 8) x.
Proof.
  assert (rtc (client_step 4096 (fun _ _ => true)) (uheap0, []) (uheap1, [(73600, 8)])) as Hr.
  { apply rtc_once. apply (client_malloc 4096 (fun _ _ => true) uheap0 [] 9 100 73616 uheap1); [split; cbn; lia|reflexivity]. }
  destruct (allocator_safe 4096 (fun _ _ => true) uheap0 uheap1 [(73600, 8)]) as (_ & _ & H & _); [split; [reflexivity|cbn; unfold HDR; lia]|cbn; lia|exact Hr|].
  destruct (H 1000) as (fuel & r & h' & E & H'); [split; [lia|vm_compute; discriminate]|].
  exists fuel, r, h'. split; [exact E|]. intros a x Ha Hx. destruct (H' a x Ha Hx) as [H1 H2]. split; [exact H1|]. apply H2. left.
Defined.
