(* ===== verification/Shell.v ===== *)
(** * The shell's parser

    user/sh.c: the recursive descent parser of command lines.  The text is
    the list of its bytes; a pointer into it is modelled by the bytes from
    there to the end, and kept in the tree as the distance to the end.  A
    parser runs with fuel for its recursion. *)

From Stdlib Require Import ZArith Lia.
From stdpp Require Import base list strings sets.
From S2P Require Import Prelude.

(** ** The tree *)
Definition MAXARGS : nat := 10.
Definition O_RDONLY : Z := 0.
Definition O_WRONLY : Z := 1.
Definition O_CREATE : Z := 512.
Definition O_TRUNC : Z := 1024.

(** A redirection: the file, the mode it is opened with, the descriptor. *)
Record redir (W : Type) := mkredir { rd_file : W; rd_mode : Z; rd_fd : Z }.
Arguments mkredir {W} _ _ _.
Arguments rd_file {W} _.
Arguments rd_mode {W} _.
Arguments rd_fd {W} _.

Inductive cmd (W : Type) : Type :=
| EXEC (argv : list W)
| REDIR (c : cmd W) (r : redir W)
| PIPE (left right : cmd W)
| LIST (left right : cmd W)
| BACK (c : cmd W).
Arguments EXEC {W} _.
Arguments REDIR {W} _ _.
Arguments PIPE {W} _ _.
Arguments LIST {W} _ _.
Arguments BACK {W} _.

(** ** Tokens *)
Definition whitespace : list Z := [32; 9; 13; 10; 11].
Definition symbols : list Z := [60; 124; 62; 38; 59; 40; 41].
Definition LT : Z := 60.
Definition BAR : Z := 124.
Definition GT : Z := 62.
Definition AMP : Z := 38.
Definition SEMI : Z := 59.
Definition LPAR : Z := 40.
Definition RPAR : Z := 41.
Definition PLUS : Z := 43.
Definition WORD : Z := 97.

Definition mem (x : Z) (l : list Z) : bool := existsb (Z.eqb x) l.
Definition is_space (x : Z) : bool := mem x whitespace.
Definition is_symbol (x : Z) : bool := mem x symbols.
Definition is_word (x : Z) : bool := negb (is_space x) && negb (is_symbol x).

#[global] Arguments is_space : simpl never.
#[global] Arguments is_symbol : simpl never.
#[global] Arguments is_word : simpl never.

(** while(s < es && strchr(whitespace, [*s])) s++ *)
Fixpoint skip_space (s : list Z) : list Z :=
  match s with
  | x :: s' => if is_space x then skip_space s' else s
  | [] => []
  end.
Fixpoint skip_word (s : list Z) : list Z :=
  match s with
  | x :: s' => if is_word x then skip_word s' else s
  | [] => []
  end.

(** A word of the text: the distances of its two ends to the end of the text. *)
Definition wspan : Type := nat * nat.

(** The kind of the token, where it is, and what is left. *)
Definition gettoken (s : list Z) : Z * wspan * list Z :=
  let s := skip_space s in
  let '(ret, s') :=
    match s with
    | [] => (0, [])
    | x :: s1 =>
        if mem x [BAR; LPAR; RPAR; SEMI; AMP; LT] then (x, s1)
        else if x =? GT then
          match s1 with
          | y :: s2 => if y =? GT then (PLUS, s2) else (GT, s1)
          | [] => (GT, s1)
          end
        else (WORD, skip_word s)
    end in
  (ret, (length s, length s'), skip_space s').

Definition peek (toks s : list Z) : bool * list Z :=
  let s := skip_space s in
  (match s with x :: _ => mem x toks | [] => false end, s).

(** ** The parser *)
Inductive parsed (A : Type) : Type :=
| Parsed (a : A) (s : list Z)
| Syntax (msg : string)
| NoFuel.
Arguments Parsed {A} _ _.
Arguments Syntax {A} _.
Arguments NoFuel {A}.

Definition andthen {A B} (p : parsed A) (f : A -> list Z -> parsed B) : parsed B :=
  match p with
  | Parsed a s => f a s
  | Syntax msg => Syntax msg
  | NoFuel => NoFuel
  end.

(** The redirections at the front of the text. *)
Fixpoint redirs (fuel : nat) (s : list Z) : parsed (list (redir wspan)) :=
  let '(b, s) := peek [LT; GT] s in
  if b then
    let '(tok, _, s) := gettoken s in
    let '(w, f, s) := gettoken s in
    if negb (w =? WORD) then Syntax "missing file for redirection"
    else
      let r := if tok =? LT then mkredir f O_RDONLY 0
               else if tok =? GT then mkredir f (Z.lor (Z.lor O_WRONLY O_CREATE) O_TRUNC) 1
               else mkredir f (Z.lor O_WRONLY O_CREATE) 1 in
      match fuel with
      | O => NoFuel
      | S fuel' => andthen (redirs fuel' s) (fun rs s => Parsed (r :: rs) s)
      end
  else Parsed [] s.

Definition wrap {W} (c : cmd W) (rs : list (redir W)) : cmd W := fold_left REDIR rs c.

Definition parseredirs (fuel : nat) (c : cmd wspan) (s : list Z) : parsed (cmd wspan) :=
  andthen (redirs fuel s) (fun rs s => Parsed (wrap c rs) s).

(** The loop of parseexec, with the words and redirections so far.  The node
    of the words is shared by the redirections around it, which see the words
    that are added later. *)
Fixpoint exec_loop (fuel : nat) (argv : list wspan) (rs : list (redir wspan)) (s : list Z) : parsed (cmd wspan) :=
  let '(b, s) := peek [BAR; RPAR; AMP; SEMI] s in
  if b then Parsed (wrap (EXEC argv) rs) s
  else
    let '(tok, w, s) := gettoken s in
    if tok =? 0 then Parsed (wrap (EXEC argv) rs) s
    else if negb (tok =? WORD) then Syntax "syntax"
    else
      let argv := argv ++ [w] in
      if (MAXARGS <=? length argv)%nat then Syntax "too many args"
      else match fuel with
           | O => NoFuel
           | S fuel' => andthen (redirs fuel' s) (fun rs' s => exec_loop fuel' argv (rs ++ rs') s)
           end.

(** The loop of parseline over [&]. *)
Fixpoint back_loop (fuel : nat) (c : cmd wspan) (s : list Z) : parsed (cmd wspan) :=
  let '(b, s) := peek [AMP] s in
  if b then
    match fuel with
    | O => NoFuel
    | S fuel' => let '(_, _, s) := gettoken s in back_loop fuel' (BACK c) s
    end
  else Parsed c s.

Fixpoint parseline (fuel : nat) (s : list Z) : parsed (cmd wspan) :=
  match fuel with
  | O => NoFuel
  | S fuel =>
      andthen (parsepipe fuel s) (fun c s =>
      andthen (back_loop fuel c s) (fun c s =>
      let '(b, s) := peek [SEMI] s in
      if b then
        let '(_, _, s) := gettoken s in
        andthen (parseline fuel s) (fun c' s => Parsed (LIST c c') s)
      else Parsed c s))
  end
with parsepipe (fuel : nat) (s : list Z) : parsed (cmd wspan) :=
  match fuel with
  | O => NoFuel
  | S fuel =>
      andthen (parseexec fuel s) (fun c s =>
      let '(b, s) := peek [BAR] s in
      if b then
        let '(_, _, s) := gettoken s in
        andthen (parsepipe fuel s) (fun c' s => Parsed (PIPE c c') s)
      else Parsed c s)
  end
with parseexec (fuel : nat) (s : list Z) : parsed (cmd wspan) :=
  match fuel with
  | O => NoFuel
  | S fuel =>
      let '(b, s) := peek [LPAR] s in
      if b then parseblock fuel s
      else andthen (redirs fuel s) (fun rs s => exec_loop fuel [] rs s)
  end
with parseblock (fuel : nat) (s : list Z) : parsed (cmd wspan) :=
  match fuel with
  | O => NoFuel
  | S fuel =>
      let '(b, s) := peek [LPAR] s in
      if negb b then Syntax "parseblock"
      else
        let '(_, _, s) := gettoken s in
        andthen (parseline fuel s) (fun c s =>
        let '(b, s) := peek [RPAR] s in
        if negb b then Syntax "syntax - missing )"
        else
          let '(_, _, s) := gettoken s in
          parseredirs fuel c s)
  end.

(** Four calls for every byte, and four more. *)
Definition parse_fuel (s : list Z) : nat := 4 * length s + 4.

(** parsecmd, up to nulterminate. *)
Definition parsetree (s : list Z) : parsed (cmd wspan) :=
  andthen (parseline (parse_fuel s) s) (fun c s =>
  let '(_, s) := peek [] s in
  match s with [] => Parsed c [] | _ => Syntax "syntax" end).

(** ** The strings of the tree

    nulterminate writes a NUL at the end of every word. *)
Fixpoint spans {W} (c : cmd W) : list W :=
  match c with
  | EXEC argv => argv
  | REDIR c r => spans c ++ [rd_file r]
  | PIPE l r => spans l ++ spans r
  | LIST l r => spans l ++ spans r
  | BACK c => spans c
  end.

Definition nulterminate (es : nat) (c : cmd wspan) (buf : list Z) : list Z :=
  fold_left (fun buf w => <[(es - w.2)%nat := 0]> buf) (spans c) buf.

(** The C string at a pointer. *)
Fixpoint cstring (s : list Z) : list Z :=
  match s with
  | x :: s' => if x =? 0 then [] else x :: cstring s'
  | [] => []
  end.

Fixpoint map_words {V W} (f : V -> W) (c : cmd V) : cmd W :=
  match c with
  | EXEC argv => EXEC (map f argv)
  | REDIR c r => REDIR (map_words f c) (mkredir (f (rd_file r)) (rd_mode r) (rd_fd r))
  | PIPE l r => PIPE (map_words f l) (map_words f r)
  | LIST l r => LIST (map_words f l) (map_words f r)
  | BACK c => BACK (map_words f c)
  end.

(** parsecmd: the tree with the strings its pointers point to. *)
Definition parsecmd (text : list Z) : parsed (cmd (list Z)) :=
  andthen (parsetree text) (fun c s =>
    let buf := nulterminate (length text) c (text ++ [0]) in
    Parsed (map_words (fun w => cstring (drop (length text - w.1) buf)) c) s).
