(* ===== verification/ShellProps.v ===== *)
(** * Properties of the shell's parser *)

From Stdlib Require Import ZArith Lia.
From stdpp Require Import base list strings sets.
From S2P Require Import Prelude Shell.

(** ** Words *)

(** Some characters between two ends, at which the word cannot go on. *)
Definition word_at (text : list Z) (w : wspan) (x : list Z) : Prop :=
  exists a b, text = a ++ x ++ b /\ w = (length (x ++ b), length b) /\
    x <> [] /\ Forall (fun y => is_word y = true) x /\ match b with y :: _ => is_word y = false | [] => True end.

Definition good_word (text : list Z) (w : wspan) : Prop := exists x, word_at text w x.

Lemma good_word_suffix text s w : s `suffix_of` text -> good_word s w -> good_word text w.
Proof.
  intros [k ->] (x & a & b & -> & Hw). exists x, (k ++ a), b. split; [by rewrite <- app_assoc|done].
Qed.

Lemma skip_space_suffix s : skip_space s `suffix_of` s.
Proof. induction s as [|x s IH]; cbn; [done|]. destruct (is_space x); [apply (suffix_cons_r _ _ x), IH|done]. Qed.

Lemma skip_space_head s : match skip_space s with x :: _ => is_space x = false | [] => True end.
Proof. induction s as [|x s IH]; cbn; [done|]. destruct (is_space x) eqn:E; [done|by rewrite E]. Qed.

Lemma skip_word_split s : exists x, s = x ++ skip_word s /\ Forall (fun y => is_word y = true) x /\
  match skip_word s with y :: _ => is_word y = false | [] => True end.
Proof.
  induction s as [|y s (x & E & Hx & Hb)]; cbn; [by exists []|]. destruct (is_word y) eqn:Ey.
  - exists (y :: x). split; [cbn; by rewrite <- E|]. split; [by constructor|done].
  - exists []. split; [done|]. split; [done|by rewrite Ey].
Qed.

Lemma suffix_shorter (s t : list Z) : s `suffix_of` t -> (length s <= length t)%nat.
Proof. apply suffix_length. Qed.

(** A token is cut off the front, and a word is a whole word. *)
Lemma gettoken_spec s tok w s' : gettoken s = (tok, w, s') ->
  s' `suffix_of` s /\ (tok <> 0 -> (length s' < length s)%nat) /\ (tok = WORD -> good_word s w).
Proof.
  unfold gettoken. pose proof (skip_space_suffix s) as Hs. pose proof (skip_space_head s) as Hh. destruct (skip_space s) as [|x s1].
  - intros [= <- <- <-]. split; [done|]. done.
  - assert (forall t, t `suffix_of` s1 -> (skip_space t `suffix_of` s) /\ (length (skip_space t) < length s)%nat) as Ht.
    { intros t Ht. apply suffix_shorter in Hs as Hl. pose proof (skip_space_suffix t) as Hk. apply suffix_shorter in Hk as Hl2.
      apply suffix_shorter in Ht as Hl3. cbn in Hl. split; [|lia]. etrans; [exact Hk|]. etrans; [exact Ht|]. etrans; [|exact Hs]. by apply suffix_cons_r. }
    destruct (mem x [BAR; LPAR; RPAR; SEMI; AMP; LT]) eqn:Em; [|destruct (Z.eqb_spec x GT) as [->|Hg]].
    + intros [= <- <- <-]. destruct (Ht s1 ltac:(done)) as [H1 H2]. split; [done|]. split; [done|]. by intros ->.
    + destruct s1 as [|y s2]; [|destruct (Z.eqb_spec y GT)]; intros [= <- <- <-].
      * destruct (Ht [] ltac:(done)). done.
      * destruct (Ht s2 ltac:(by apply suffix_cons_r)). done.
      * destruct (Ht (y :: s2) ltac:(done)). done.
    + assert (is_word x = true) as Hx.
      { unfold is_word. rewrite Hh. unfold is_symbol, mem, symbols, BAR, LPAR, RPAR, SEMI, AMP, LT, GT in *. cbn in *.
        rewrite !orb_false_iff, !Z.eqb_neq in Em. rewrite negb_true_iff, !orb_false_iff, !Z.eqb_neq. tauto. }
      destruct (skip_word_split (x :: s1)) as (t & E & Hw & Hb). intros [= <- <- <-].
      assert (t <> []) as Hne.
      { intros ->. cbn in E. rewrite Hx in E. apply (f_equal length) in E. cbn in E.
        destruct (skip_word_split s1) as (t' & E' & _). apply (f_equal length) in E'. rewrite length_app in E'. lia. }
      assert (skip_word (x :: s1) `suffix_of` s1) as Hsuf.
      { destruct t as [|y t]; [done|]. cbn [app] in E. injection E as _ E. exists t. exact E. }
      destruct (Ht _ Hsuf) as [H1 H2]. split; [done|]. split; [done|]. intros _. exists t. destruct Hs as [k ->].
      exists k, (skip_word (x :: s1)). by rewrite <- E.
Qed.

Lemma peek_spec toks s b s' : peek toks s = (b, s') -> s' `suffix_of` s.
Proof. intros [= _ <-]. apply skip_space_suffix. Qed.

Lemma skip_space_idem s : skip_space (skip_space s) = skip_space s.
Proof. pose proof (skip_space_head s) as H. destruct (skip_space s) as [|x t]; [done|]. cbn. by rewrite H. Qed.

(** What peek has seen is a token. *)
Lemma peek_token toks s s1 tok w s2 : peek toks s = (true, s1) -> gettoken s1 = (tok, w, s2) -> tok <> 0.
Proof.
  intros [= Hp <-]. unfold gettoken. rewrite skip_space_idem. destruct (skip_space s) as [|x t]; [done|].
  destruct (mem x [BAR; LPAR; RPAR; SEMI; AMP; LT]) eqn:Em; [|destruct (x =? GT)].
  - intros [= <- _ _]. by intros ->.
  - destruct t as [|y t]; [|destruct (y =? GT)]; by intros [= <- _ _].
  - by intros [= <- _ _].
Qed.

(** ** Every text is parsed or refused

    [good ws s p]: the parse [p] of [s], which is the end of [text], ended,
    with words of [text] in its tree. *)
Section Good.
Context (text : list Z).

Definition good {A} (ws : A -> list wspan) (s : list Z) (p : parsed A) : Prop :=
  match p with
  | Parsed a s' => s' `suffix_of` s /\ Forall (good_word text) (ws a)
  | Syntax _ => True
  | NoFuel => False
  end.

Lemma good_suffix {A} (ws : A -> list wspan) s t p : good ws s p -> s `suffix_of` t -> good ws t p.
Proof. destruct p as [a s'| |]; [|done..]. cbn. intros [Hs Hw] Ht. split; [by etrans|done]. Qed.

Lemma good_andthen {A B} (ws : A -> list wspan) (ws' : B -> list wspan) s p f : good ws s p ->
  (forall a s', s' `suffix_of` s -> Forall (good_word text) (ws a) -> good ws' s (f a s')) -> good ws' s (andthen p f).
Proof. destruct p as [a s'| |]; cbn; [|done..]. intros [Hs Hw] H. by apply H. Qed.

Definition redir_words (rs : list (redir wspan)) : list wspan := map rd_file rs.

Lemma spans_wrap {W} (c : cmd W) rs : spans (wrap c rs) = spans c ++ map rd_file rs.
Proof.
  unfold wrap. revert c. induction rs as [|r rs IH]; intros c; cbn; [by rewrite app_nil_r|]. rewrite IH. cbn. by rewrite <- app_assoc.
Qed.

Lemma redirs_good fuel s : s `suffix_of` text -> (length s <= fuel)%nat -> good redir_words s (redirs fuel s).
Proof.
  revert s. induction fuel as [|fuel IH]; intros s Ht Hf; cbn [redirs];
    destruct (peek [LT; GT] s) as [b s1] eqn:Ep; pose proof (peek_spec _ _ _ _ Ep) as H1; (destruct b; [|by split]).
  all: destruct (gettoken s1) as [[tok w1] s2] eqn:E1; destruct (gettoken_spec _ _ _ _ E1) as (H2 & _ & _).
  all: destruct (gettoken s2) as [[tok2 w2] s3] eqn:E2; destruct (gettoken_spec _ _ _ _ E2) as (H3 & Hl & Hw).
  all: destruct (Z.eqb_spec tok2 WORD) as [->|]; cbn [negb]; [|done]; specialize (Hl ltac:(done)); specialize (Hw eq_refl).
  all: apply suffix_length in H1 as L1; apply suffix_length in H2 as L2.
  - lia.
  - assert (s2 `suffix_of` s) as H5 by by etrans. assert (s3 `suffix_of` s) as H4 by by etrans. apply (good_andthen redir_words).
    + apply (good_suffix _ s3); [|done]. apply IH; [by etrans|lia].
    + intros rs s' Hs' Hrs. split; [done|]. constructor; [|done].
      destruct (tok =? LT); [|destruct (tok =? GT)]; (apply (good_word_suffix text s2); [by etrans|done]).
Qed.

Lemma exec_loop_good fuel argv rs s : s `suffix_of` text -> (length s <= fuel)%nat ->
  Forall (good_word text) argv -> Forall (good_word text) (redir_words rs) -> good spans s (exec_loop fuel argv rs s).
Proof.
  assert (forall argv rs, Forall (good_word text) argv -> Forall (good_word text) (redir_words rs) ->
    Forall (good_word text) (spans (wrap (EXEC argv) rs))) as Hend.
  { intros av r Ha Hr. rewrite spans_wrap. cbn. by apply Forall_app. }
  revert argv rs s. induction fuel as [|fuel IH]; intros argv rs s Ht Hf Ha Hr; cbn [exec_loop];
    destruct (peek [BAR; RPAR; AMP; SEMI] s) as [b s1] eqn:Ep; pose proof (peek_spec _ _ _ _ Ep) as H1; (destruct b; [split; by auto|]).
  all: destruct (gettoken s1) as [[tok w] s2] eqn:E1; destruct (gettoken_spec _ _ _ _ E1) as (H2 & Hl & Hw).
  all: destruct (Z.eqb_spec tok 0); [split; [by etrans|auto]|]; destruct (Z.eqb_spec tok WORD) as [->|]; cbn [negb]; [|done].
  all: destruct (MAXARGS <=? length (argv ++ [w]))%nat; [done|]; specialize (Hl ltac:(done)); specialize (Hw eq_refl).
  all: apply suffix_length in H1 as L1.
  - lia.
  - assert (s2 `suffix_of` s) as H3 by by etrans. assert (s2 `suffix_of` text) by by etrans. apply (good_suffix _ s2); [|done].
    apply (good_andthen redir_words); [apply redirs_good; [done|lia]|]. intros rs' s3 H4 Hr'. apply suffix_length in H4 as L4.
    apply (good_suffix _ s3); [|done]. apply IH; [by etrans|lia|apply Forall_app; split; [done|]|unfold redir_words; rewrite map_app; by apply Forall_app].
    constructor; [|done]. apply (good_word_suffix text s1); [by etrans|done].
Qed.

Lemma back_loop_good fuel c s : s `suffix_of` text -> (length s <= fuel)%nat -> Forall (good_word text) (spans c) -> good spans s (back_loop fuel c s).
Proof.
  revert c s. induction fuel as [|fuel IH]; intros c s Ht Hf Hc; cbn [back_loop];
    destruct (peek [AMP] s) as [b s1] eqn:Ep; pose proof (peek_spec _ _ _ _ Ep) as H1; (destruct b; [|by split]).
  - destruct s; [done|cbn in Hf; lia].
  - destruct (gettoken s1) as [[tok w] s2] eqn:E1. destruct (gettoken_spec _ _ _ _ E1) as (H2 & Hl & _).
    assert (s2 `suffix_of` s) by by etrans. apply (good_suffix _ s2); [|done]. apply suffix_length in H1 as L1.
    apply IH; [by etrans| |done]. assert (tok <> 0) as Hn by (eapply peek_token; eauto). specialize (Hl Hn). lia.
Qed.

Lemma parse_good fuel : forall s, s `suffix_of` text ->
  ((4 * length s + 4 <= fuel)%nat -> good spans s (parseline fuel s)) /\
  ((4 * length s + 3 <= fuel)%nat -> good spans s (parsepipe fuel s)) /\
  ((4 * length s + 2 <= fuel)%nat -> good spans s (parseexec fuel s)) /\
  ((4 * length s + 1 <= fuel)%nat -> good spans s (parseblock fuel s)).
Proof.
  induction fuel as [|fuel IH]; intros s Ht; [repeat split; lia|].
  assert (forall toks s1 b s2, s1 `suffix_of` s -> peek toks s1 = (b, s2) -> s2 `suffix_of` s) as Hpeek.
  { intros toks s1 b s2 H1 Hp. pose proof (peek_spec _ _ _ _ Hp). by etrans. }
  assert (forall toks s1 s2 tok w s3, s1 `suffix_of` s -> peek toks s1 = (true, s2) -> gettoken s2 = (tok, w, s3) ->
    s3 `suffix_of` s /\ (length s3 < length s)%nat) as Htok.
  { intros toks s1 s2 tok w s3 H1 Hp Hg. pose proof (peek_token _ _ _ _ _ _ Hp Hg) as Hn. pose proof (peek_spec _ _ _ _ Hp) as H2.
    destruct (gettoken_spec _ _ _ _ Hg) as (H3 & Hl & _). specialize (Hl Hn). apply suffix_length in H1 as L1. apply suffix_length in H2 as L2.
    split; [|lia]. etrans; [exact H3|]. by etrans. }
  split; [|split; [|split]]; intros Hf; cbn [parseline parsepipe parseexec parseblock].
  - apply (good_andthen spans); [apply IH; [done|lia]|]. intros c s1 H1 Hc. apply suffix_length in H1 as L1. apply (good_andthen spans).
    { apply (good_suffix _ s1); [|done]. apply back_loop_good; [by etrans|lia|done]. }
    intros c1 s2 H2 Hc1. destruct (peek [SEMI] s2) as [b s3] eqn:Ep. destruct b; [|split; [by eapply Hpeek|done]].
    destruct (gettoken s3) as [[tok w] s4] eqn:Eg. destruct (Htok _ _ _ _ _ _ H2 Ep Eg) as [H4 L4].
    apply (good_andthen spans); [apply (good_suffix _ s4); [apply IH; [by etrans|lia]|done]|].
    intros c2 s5 H5 Hc2. split; [done|]. cbn. by apply Forall_app.
  - apply (good_andthen spans); [apply IH; [done|lia]|]. intros c s1 H1 Hc.
    destruct (peek [BAR] s1) as [b s3] eqn:Ep. destruct b; [|split; [by eapply Hpeek|done]].
    destruct (gettoken s3) as [[tok w] s4] eqn:Eg. destruct (Htok _ _ _ _ _ _ H1 Ep Eg) as [H4 L4].
    apply (good_andthen spans); [apply (good_suffix _ s4); [apply IH; [by etrans|lia]|done]|].
    intros c2 s5 H5 Hc2. split; [done|]. cbn. by apply Forall_app.
  - destruct (peek [LPAR] s) as [b s1] eqn:Ep. assert (s1 `suffix_of` s) as H1 by by eapply Hpeek. apply suffix_length in H1 as L1.
    apply (good_suffix _ s1); [|done]. assert (s1 `suffix_of` text) by by etrans. destruct b; [apply IH; [done|lia]|].
    apply (good_andthen redir_words); [apply redirs_good; [done|lia]|]. intros rs s2 H2 Hrs. apply suffix_length in H2 as L2.
    apply (good_suffix _ s2); [|done]. apply exec_loop_good; [by etrans|lia|done|done].
  - destruct (peek [LPAR] s) as [b s1] eqn:Ep. destruct b; cbn [negb]; [|done].
    destruct (gettoken s1) as [[tok w] s2] eqn:Eg. destruct (Htok _ _ _ _ _ _ (reflexivity s) Ep Eg) as [H2 L2].
    apply (good_andthen spans); [apply (good_suffix _ s2); [apply IH; [by etrans|lia]|done]|]. intros c s3 H3 Hc.
    destruct (peek [RPAR] s3) as [b s4] eqn:Ep2. destruct b; cbn [negb]; [|done].
    destruct (gettoken s4) as [[tok2 w2] s5] eqn:Eg2. destruct (Htok _ _ _ _ _ _ H3 Ep2 Eg2) as [H5 L5].
    unfold parseredirs. apply (good_andthen redir_words); [apply (good_suffix _ s5); [apply redirs_good; [by etrans|lia]|done]|].
    intros rs s6 H6 Hrs. split; [done|]. rewrite spans_wrap. by apply Forall_app.
Qed.
End Good.

(** ** The strings of the tree *)
Lemma cstring_lookup l x : (forall j y, x !! j = Some y -> l !! j = Some y) -> Forall (fun y => y <> 0) x -> l !! length x = Some 0 -> cstring l = x.
Proof.
  revert l. induction x as [|y x IH]; intros l Hl Hx H0; cbn in *.
  - by destruct l as [|z l]; [|injection H0 as ->].
  - pose proof (Hl 0%nat y eq_refl) as H1. destruct l as [|z l]; [done|]. injection H1 as ->. apply Forall_cons in Hx as [Hy Hx].
    cbn. destruct (Z.eqb_spec y 0); [done|]. f_equal. apply IH; [intros j z Hz; by apply (Hl (S j))|done|done].
Qed.

Definition nuls (es : nat) (ws : list wspan) (buf : list Z) : list Z := fold_left (fun buf w => <[(es - w.2)%nat := 0]> buf) ws buf.

Lemma nuls_cons es w ws buf : nuls es (w :: ws) buf = nuls es ws (<[(es - w.2)%nat := 0]> buf).
Proof. done. Qed.

Lemma nuls_other es ws buf i : (forall w, w ∈ ws -> (es - w.2)%nat <> i) -> nuls es ws buf !! i = buf !! i.
Proof.
  revert buf. induction ws as [|w ws IH]; intros buf H; [done|]. rewrite nuls_cons, IH by (intros w' Hw'; apply H; by right).
  apply list_lookup_insert_ne, H. left.
Qed.

Lemma nuls_zero es ws buf i : buf !! i = Some 0 -> nuls es ws buf !! i = Some 0.
Proof.
  revert buf. induction ws as [|w ws IH]; intros buf H; [done|]. rewrite nuls_cons. apply IH. destruct (decide ((es - w.2)%nat = i)) as [->|Hn].
  - apply list_lookup_insert_eq. by eapply lookup_lt_Some.
  - by rewrite list_lookup_insert_ne.
Qed.

Lemma nuls_at es ws buf w : w ∈ ws -> (es - w.2 < length buf)%nat -> nuls es ws buf !! (es - w.2)%nat = Some 0.
Proof.
  revert buf. induction ws as [|w' ws IH]; intros buf Hw Hl; [by apply not_elem_of_nil in Hw|]. rewrite nuls_cons. apply elem_of_cons in Hw as [->|Hw].
  - by apply nuls_zero, list_lookup_insert_eq.
  - apply IH; [done|]. by rewrite length_insert.
Qed.

(** Each word, NUL-terminated in place, is a string of its own: no end of a
    word is inside another. *)
Lemma nulterminate_word text ws w x : 0 ∉ text -> Forall (good_word text) ws -> w ∈ ws -> word_at text w x ->
  cstring (drop (length text - w.1) (nuls (length text) ws (text ++ [0]))) = x.
Proof.
  intros H0 Hws Hw (a & b & E & Ew & Hne & Hx & Hb). 
  assert (length text = length a + length x + length b)%nat as Hl by (rewrite E, !length_app; lia).
  assert (forall j y, x !! j = Some y -> text !! (length text - w.1 + j)%nat = Some y) as Hpos.
  { intros j y Hj. rewrite Ew. cbn [fst]. replace (length text - length (x ++ b) + j)%nat with (length a + j)%nat by (rewrite length_app; lia).
    rewrite E, lookup_app_r by lia. replace (length a + j - length a)%nat with j by lia.
    rewrite lookup_app_l by (apply lookup_lt_Some in Hj; lia). done. }
  assert (length text - w.2 = length text - w.1 + length x)%nat as He by (rewrite Ew; cbn; rewrite length_app; lia).
  apply cstring_lookup.
  - intros j y Hj. pose proof (Hpos j y Hj) as Hp. rewrite lookup_drop, nuls_other; [rewrite lookup_app_l; [done|by eapply lookup_lt_Some]|].
    intros w' Hw' Ej. rewrite Forall_forall in Hws. destruct (Hws w' Hw') as (x' & a' & b' & E' & Ew' & _ & _ & Hb').
    rewrite <- Ej in Hp. assert (length text - w'.2 = length a' + length x')%nat as El by (rewrite Ew', E', !length_app; cbn; lia).
    rewrite El, E', app_assoc, lookup_app_r, length_app, Nat.sub_diag in Hp by (rewrite length_app; lia).
    destruct b' as [|z b']; [done|]. injection Hp as ->. rewrite Forall_lookup in Hx. specialize (Hx j y Hj). cbn in Hx. congruence.
  - rewrite Forall_forall. intros y Hy ->. apply H0. rewrite E. set_solver.
  - rewrite lookup_drop, <- He. apply nuls_at; [done|]. rewrite length_app. cbn. lia.
Qed.

Definition text_of (text : list Z) (w : wspan) : list Z := take (w.1 - w.2) (drop (length text - w.1) text).

Lemma word_text text w x : word_at text w x -> text_of text w = x.
Proof.
  intros (a & b & -> & -> & _). unfold text_of. cbn [fst snd]. rewrite !length_app.
  replace (length a + (length x + length b) - (length x + length b))%nat with (length a) by lia.
  replace (length x + length b - length b)%nat with (length x) by lia. by rewrite drop_app_length, take_app_length.
Qed.

Lemma map_words_ext {V W} (f g : V -> W) c : (forall w, w ∈ spans c -> f w = g w) -> map_words f c = map_words g c.
Proof.
  induction c as [argv|c IH r|l IHl r IHr|l IHl r IHr|c IH]; cbn; intros H.
  - f_equal. apply map_ext_in. intros w Hw. apply H. by apply list_elem_of_In.
  - rewrite IH by (intros; apply H; set_solver). do 2 f_equal. apply H. set_solver.
  - by rewrite IHl, IHr by (intros; apply H; set_solver).
  - by rewrite IHl, IHr by (intros; apply H; set_solver).
  - by rewrite IH.
Qed.

Lemma parsetree_good text : good text spans text (parsetree text).
Proof.
  unfold parsetree. destruct (parse_good text (parse_fuel text) text ltac:(done)) as [H _]. specialize (H ltac:(unfold parse_fuel; lia)).
  eapply good_andthen; [exact H|]. intros c s Hs Hc. destruct (peek [] s) as [b s1] eqn:Ep. destruct s1; [|done].
  split; [apply suffix_nil|done].
Qed.

(** The strings of the tree are the words of the text. *)
Lemma parsecmd_text text : 0 ∉ text -> parsecmd text = andthen (parsetree text) (fun c s => Parsed (map_words (text_of text) c) s).
Proof.
  intros H0. unfold parsecmd. pose proof (parsetree_good text) as Hg. destruct (parsetree text) as [c s| |]; [|done..]. destruct Hg as [_ Hg].
  cbn [andthen]. f_equal. apply map_words_ext. intros w Hw. pose proof Hg as Hg'. rewrite Forall_forall in Hg'. destruct (Hg' w Hw) as [x Hx].
  rewrite (word_text _ _ _ Hx). by apply (nulterminate_word text (spans c) w x).
Qed.

(** ** Printing a command

    [lv] says what may follow: 0 is a line, 1 what is before [&] or [;],
    2 a pipeline, 3 a command of a pipeline. *)
Definition paren (b : bool) (s : list Z) : list Z := if b then [LPAR] ++ s ++ [RPAR] else s.
Definition print_word (x : list Z) : list Z := x ++ [32].
Definition print_redir (r : redir (list Z)) : list Z :=
  (if rd_fd r =? 0 then [LT] else if rd_mode r =? 1537 then [GT] else [GT; GT]) ++ print_word (rd_file r).

Fixpoint print (lv : nat) (c : cmd (list Z)) : list Z :=
  match c with
  | EXEC argv => concat (map print_word argv)
  | REDIR c r => print 3 c ++ print_redir r
  | PIPE l r => paren (3 <=? lv)%nat (print 3 l ++ [BAR] ++ print 2 r)
  | LIST l r => paren (1 <=? lv)%nat (print 1 l ++ [SEMI] ++ print 0 r)
  | BACK c => paren (2 <=? lv)%nat (print 1 c ++ [AMP])
  end.

(** Commands the shell can have: words without blanks and symbols, not too
    many of them, and the three kinds of redirection. *)
Definition word_ok (x : list Z) : Prop := x <> [] /\ Forall (fun y => is_word y = true) x /\ 0 ∉ x.
Definition redir_ok (r : redir (list Z)) : Prop :=
  word_ok (rd_file r) /\ (rd_mode r, rd_fd r) ∈ [(0, 0); (1537, 1); (513, 1)].

Fixpoint cmd_ok (c : cmd (list Z)) : Prop :=
  match c with
  | EXEC argv => Forall word_ok argv /\ (length argv < MAXARGS)%nat
  | REDIR c r => cmd_ok c /\ redir_ok r
  | PIPE l r => cmd_ok l /\ cmd_ok r
  | LIST l r => cmd_ok l /\ cmd_ok r
  | BACK c => cmd_ok c
  end.

(** ** Parsing what was printed *)
Definition tight (s : list Z) : Prop := match s with x :: _ => is_space x = false | [] => True end.
(** The text ends, or goes on with one of [toks]. *)
Definition follow (toks s : list Z) : Prop := match s with x :: _ => x ∈ toks | [] => True end.

Lemma skip_tight s : tight s -> skip_space s = s.
Proof. destruct s as [|x s]; [done|]. cbn. by intros ->. Qed.

Lemma follow_tight toks s : follow toks s -> toks ⊆ symbols -> tight s.
Proof.
  destruct s as [|x s]; [done|]. cbn. intros Hx Ht. specialize (Ht x Hx). unfold symbols in Ht.
  repeat (apply elem_of_cons in Ht as [-> | Ht]; [done|]). by apply not_elem_of_nil in Ht.
Qed.

Lemma mem_spec x l : mem x l = true <-> x ∈ l.
Proof.
  unfold mem. rewrite existsb_exists. setoid_rewrite Z.eqb_eq. rewrite list_elem_of_In. naive_solver.
Qed.

Lemma peek_tight toks s : tight s -> peek toks s = (match s with x :: _ => mem x toks | [] => false end, s).
Proof. intros H. unfold peek. by rewrite skip_tight. Qed.

Lemma peek_follow toks F s : follow F s -> F ⊆ symbols -> (forall x, x ∈ F -> x ∉ toks) -> peek toks s = (false, s).
Proof.
  intros Hf HF Hd. rewrite peek_tight by (by eapply follow_tight). destruct s as [|x s]; [done|]. f_equal. apply not_true_iff_false.
  rewrite mem_spec. by apply Hd.
Qed.

Lemma word_head y x : word_ok (y :: x) -> is_space y = false /\ is_symbol y = false /\ mem y [BAR; LPAR; RPAR; SEMI; AMP; LT] = false /\ (y =? GT) = false.
Proof.
  intros (_ & [Hy _]%Forall_cons & _). unfold is_word in Hy. apply andb_true_iff in Hy as [H1 H2]. apply negb_true_iff in H1, H2.
  split; [done|]. split; [done|]. unfold is_symbol, mem, symbols in H2. cbn in H2. rewrite !orb_false_iff, !Z.eqb_neq in H2.
  unfold mem, BAR, LPAR, RPAR, SEMI, AMP, LT, GT. cbn. rewrite !orb_false_iff, !Z.eqb_neq. tauto.
Qed.

Lemma gettoken_word x rest : word_ok x -> tight rest ->
  gettoken (print_word x ++ rest) = (WORD, (length (x ++ 32 :: rest), length (32 :: rest)), rest).
Proof.
  intros Hx Hr. unfold print_word. rewrite <- app_assoc. cbn [app].
  assert (skip_word (x ++ 32 :: rest) = 32 :: rest) as Hw.
  { destruct Hx as (_ & Hx & _). induction Hx as [|y x Hy Hx IH]; cbn; [done|]. by rewrite Hy. }
  destruct x as [|y x]; [by destruct Hx|]. destruct (word_head y x Hx) as (H1 & H2 & H3 & H4). unfold gettoken.
  rewrite (skip_tight ((y :: x) ++ 32 :: rest)) by done. cbn [app]. rewrite H3, H4. cbn [app] in Hw. rewrite Hw.
  cbn [skip_space]. change (is_space 32) with true. cbv iota. by rewrite skip_tight.
Qed.

Lemma gettoken_symbol x rest : x ∈ [BAR; LPAR; RPAR; SEMI; AMP; LT] -> tight rest ->
  exists w, gettoken (x :: rest) = (x, w, rest).
Proof.
  intros Hx Hr. eexists. unfold gettoken. apply mem_spec in Hx as Hm.
  rewrite (skip_tight (x :: rest)) by (cbn; repeat (apply elem_of_cons in Hx as [-> | Hx]; [done|]); by apply not_elem_of_nil in Hx).
  rewrite Hm. by rewrite skip_tight.
Qed.

Lemma word_here (text : list Z) x rest : word_ok x -> (x ++ 32 :: rest) `suffix_of` text ->
  text_of text (length (x ++ 32 :: rest), length (32 :: rest)) = x.
Proof.
  intros (Hn & Hx & _) [a E]. apply word_text. exists a, (32 :: rest). split; [done|]. split; [done|]. split; [done|]. split; [done|]. done.
Qed.

Definition ENDS : list Z := [BAR; RPAR; AMP; SEMI].

Lemma ends_symbols : ENDS ⊆ symbols.
Proof. unfold ENDS, symbols, BAR, RPAR, AMP, SEMI. set_solver. Qed.

Section Trip.
Context (text : list Z).

Definition named (r : redir wspan) : redir (list Z) := mkredir (text_of text (rd_file r)) (rd_mode r) (rd_fd r).

Lemma print_redir_head r s : redir_ok r -> tight (print_redir r ++ s) /\ peek [LT; GT] (print_redir r ++ s) = (true, print_redir r ++ s).
Proof.
  intros _. unfold print_redir. destruct (rd_fd r =? 0); [|destruct (rd_mode r =? 1537)]; cbn [app]; (split; [done|]); by rewrite peek_tight.
Qed.

(** One redirection. *)
Lemma redir_print r rest : redir_ok r -> tight rest -> (print_redir r ++ rest) `suffix_of` text ->
  exists tok w f, gettoken (print_redir r ++ rest) = (tok, w, print_word (rd_file r) ++ rest) /\
    gettoken (print_word (rd_file r) ++ rest) = (WORD, f, rest) /\
    named (if tok =? LT then mkredir f O_RDONLY 0
           else if tok =? GT then mkredir f (Z.lor (Z.lor O_WRONLY O_CREATE) O_TRUNC) 1 else mkredir f (Z.lor O_WRONLY O_CREATE) 1) = r.
Proof.
  intros [Hw Hm] Hr Hs. destruct r as [x mode fd]. cbn [rd_file rd_mode rd_fd] in *.
  assert (tight (print_word x ++ rest)) as Ht.
  { destruct x as [|y x]; [by destruct Hw|]. by destruct (word_head y x Hw) as (H1 & _). }
  assert (exists y t, print_word x ++ rest = y :: t /\ (y =? GT) = false) as (y & t & Ey & Hy).
  { destruct x as [|y x]; [by destruct Hw|]. eexists _, _. split; [done|]. by destruct (word_head y x Hw) as (_ & _ & _ & H1). }
  pose proof (gettoken_word x rest Hw Hr) as Hg.
  assert ((x ++ 32 :: rest) `suffix_of` text) as Hs'.
  { destruct Hs as [a E]. unfold print_redir, print_word in E. cbn [rd_file] in E. rewrite <- !app_assoc in E. cbn [app] in E. rewrite app_assoc in E. by eexists. }
  pose proof (word_here text x rest Hw Hs') as Hx. unfold print_redir. cbn [rd_file rd_mode rd_fd] in *.
  apply elem_of_cons in Hm as [[= -> ->]|Hm]; [|apply elem_of_cons in Hm as [[= -> ->]|Hm]; [|apply elem_of_cons in Hm as [[= -> ->]|Hm]; [|by apply not_elem_of_nil in Hm]]].
  - cbn [Z.eqb app]. destruct (gettoken_symbol LT (print_word x ++ rest)) as [w Ew]; [set_solver|done|]. rewrite Ew, Hg. eexists _, _, _. split; [done|].
    split; [done|]. change (LT =? LT) with true. cbv iota. unfold named. cbn [rd_file rd_mode rd_fd]. by rewrite Hx.
  - cbn [Z.eqb Pos.eqb app]. eexists _, _, _. split; [unfold gettoken; rewrite skip_tight by done; change (mem GT [BAR; LPAR; RPAR; SEMI; AMP; LT]) with false;
      rewrite Z.eqb_refl, Ey, Hy, skip_tight by (by rewrite <- Ey); by rewrite <- Ey|]. rewrite Hg. split; [done|]. change (GT =? LT) with false. change (GT =? GT) with true. cbv iota. unfold named. cbn [rd_file rd_mode rd_fd]. by rewrite Hx.
  - cbn [Z.eqb Pos.eqb app]. eexists _, _, _. split; [unfold gettoken; rewrite skip_tight by done; change (mem GT [BAR; LPAR; RPAR; SEMI; AMP; LT]) with false;
      rewrite !Z.eqb_refl, skip_tight by done; done|]. rewrite Hg. split; [done|]. change (PLUS =? LT) with false. change (PLUS =? GT) with false. cbv iota. unfold named. cbn [rd_file rd_mode rd_fd]. by rewrite Hx.
Qed.

Lemma redirs_print rs rest fuel : Forall redir_ok rs -> tight rest -> peek [LT; GT] rest = (false, rest) ->
  (concat (map print_redir rs) ++ rest) `suffix_of` text -> (length rs <= fuel)%nat ->
  exists ts, redirs fuel (concat (map print_redir rs) ++ rest) = Parsed ts rest /\ map named ts = rs.
Proof.
  intros Hrs Ht Hp. revert fuel. induction Hrs as [|r rs Hr Hrs IH]; intros fuel Hs Hf; cbn [map concat].
  - exists []. split; [|done]. destruct fuel; cbn [redirs app]; by rewrite Hp.
  - cbn in Hs, Hf. rewrite <- app_assoc in *. destruct fuel as [|fuel]; [lia|].
    assert (tight (concat (map print_redir rs) ++ rest)) as Ht'.
    { destruct rs as [|r' rs]; [done|]. cbn. rewrite <- app_assoc. apply print_redir_head. by apply Forall_cons in Hrs as [Hr' _]. }
    destruct (redir_print r _ Hr Ht' Hs) as (tok & w & f & E1 & E2 & E3).
    destruct (IH fuel) as (ts & E & Em); [|lia|].
    { destruct Hs as [a Ea]. rewrite app_assoc in Ea. by eexists. }
    cbn [redirs]. rewrite (proj2 (print_redir_head r _ Hr)), E1, E2. cbn [negb]. rewrite Z.eqb_refl. cbn [negb]. rewrite E. cbn [andthen].
    eexists. split; [done|]. cbn [map]. by rewrite E3, Em.
Qed.

Definition yields (p : parsed (cmd wspan)) (c : cmd (list Z)) (rest : list Z) : Prop :=
  exists t, p = Parsed t rest /\ map_words (text_of text) t = c.

Lemma map_words_wrap c rs : map_words (text_of text) (wrap c rs) = wrap (map_words (text_of text) c) (map named rs).
Proof. unfold wrap. revert c. induction rs as [|r rs IH]; intros c; cbn; [done|]. by rewrite IH. Qed.

Lemma exec_loop_end fuel av ts rest : follow ENDS rest -> exec_loop fuel av ts rest = Parsed (wrap (EXEC av) ts) rest.
Proof.
  intros Hf. pose proof (follow_tight _ _ Hf ends_symbols) as Ht.
  destruct fuel; cbn [exec_loop]; rewrite peek_tight by done; (destruct rest as [|x rest]; [done|]); cbn in Hf;
    apply mem_spec in Hf; unfold ENDS in Hf; by rewrite Hf.
Qed.

Lemma redirs_none fuel s : peek [LT; GT] s = (false, s) -> redirs fuel s = Parsed [] s.
Proof. intros Hp. destruct fuel; cbn [redirs]; by rewrite Hp. Qed.

Lemma words_head x s : word_ok x -> tight (print_word x ++ s) /\ peek [LT; GT] (print_word x ++ s) = (false, print_word x ++ s) /\
  peek ENDS (print_word x ++ s) = (false, print_word x ++ s) /\ peek [LPAR] (print_word x ++ s) = (false, print_word x ++ s).
Proof.
  intros Hx. destruct x as [|y x]; [by destruct Hx|]. destruct (word_head y x Hx) as (H1 & H2 & _ & _). unfold print_word. cbn [app].
  split; [done|]. assert (forall toks, toks ⊆ symbols -> mem y toks = false) as Hm.
  { intros toks Ht. apply not_true_iff_false. rewrite mem_spec. intros Hy. apply Ht, mem_spec in Hy. unfold is_symbol in H2. congruence. }
  rewrite !peek_tight by done. rewrite !Hm; [done|unfold symbols, LPAR; set_solver|apply ends_symbols|unfold symbols, LT, GT; set_solver].
Qed.

Lemma ends_stop rest : follow ENDS rest -> tight rest /\ peek [LT; GT] rest = (false, rest) /\ peek [LPAR] rest = (false, rest).
Proof.
  intros Hf. split; [by eapply follow_tight, ends_symbols|]. split; (eapply peek_follow; [exact Hf|apply ends_symbols|]);
    unfold ENDS, LPAR, LT, GT, BAR, RPAR, AMP, SEMI; set_solver by lia.
Qed.

(** The words of a command, then its redirections. *)
Lemma exec_print argv rs rest : Forall word_ok argv -> Forall redir_ok rs -> follow ENDS rest -> forall av fuel,
  (length av + length argv < MAXARGS)%nat -> (concat (map print_word argv) ++ concat (map print_redir rs) ++ rest) `suffix_of` text ->
  (length argv + length rs <= fuel)%nat -> argv <> [] ->
  yields (exec_loop fuel av [] (concat (map print_word argv) ++ concat (map print_redir rs) ++ rest))
    (wrap (EXEC (map (text_of text) av ++ argv)) rs) rest.
Proof.
  intros Hw Hrs Hf. destruct (ends_stop rest Hf) as (Ht & Hp & _).
  induction Hw as [|x argv Hx Hw IH]; intros av fuel Hl Hs Hfu Hne; [done|]. cbn [map concat] in *. rewrite <- app_assoc in *.
  set (more := concat (map print_word argv) ++ concat (map print_redir rs) ++ rest) in *. cbn in Hl, Hfu.
  destruct (words_head x more Hx) as (_ & _ & Hp1 & _). assert (tight more) as Htm.
  { unfold more. destruct argv as [|x' argv]; [destruct rs as [|r rs]; [done|]|]; cbn; rewrite <- app_assoc.
    - apply print_redir_head. by apply Forall_cons in Hrs as [Hr _].
    - apply words_head. by apply Forall_cons in Hw as [Hx' _]. }
  pose proof (gettoken_word x more Hx Htm) as Hg. set (w := (length (x ++ 32 :: more), length (32 :: more))) in *.
  assert (text_of text w = x) as Etw.
  { apply word_here; [done|]. unfold print_word in Hs. by rewrite <- app_assoc in Hs. }
  assert (more `suffix_of` text) as Hsm by (destruct Hs as [a Ea]; rewrite app_assoc in Ea; by eexists).
  destruct fuel as [|fuel]; [lia|]. cbn [exec_loop]. fold ENDS. rewrite Hp1, Hg. change (WORD =? 0) with false. change (WORD =? WORD) with true. cbn [negb].
  rewrite (proj2 (Nat.leb_gt _ _)) by (rewrite length_app; cbn; unfold MAXARGS in *; lia). destruct argv as [|x' argv].
  - destruct (redirs_print rs rest fuel Hrs Ht Hp Hsm) as (ts & E & Em); [cbn in Hfu; lia|]. unfold more. cbn [map concat app]. rewrite E. cbn [andthen app].
    rewrite exec_loop_end by done. eexists. split; [done|]. rewrite map_words_wrap, Em. cbn. by rewrite map_app, <- Etw.
  - apply Forall_cons in Hw as Hw'. destruct Hw' as [Hx' _]. assert (peek [LT; GT] more = (false, more)) as Hpm.
    { unfold more. cbn. rewrite <- app_assoc. by apply words_head. }
    rewrite (redirs_none fuel more Hpm). cbn [andthen app]. destruct (IH (av ++ [w]) fuel) as (t & E & Em); [rewrite length_app; cbn in *; lia|done|cbn in *; lia|done|].
    exists t. split; [done|]. rewrite Em, map_app, <- app_assoc. cbn [map app]. by rewrite Etw.
Qed.

Lemma parseexec_words argv rs rest fuel : cmd_ok (EXEC argv) -> Forall redir_ok rs -> follow ENDS rest ->
  (concat (map print_word argv) ++ concat (map print_redir rs) ++ rest) `suffix_of` text -> (length argv + length rs <= fuel)%nat ->
  yields (parseexec (S fuel) (concat (map print_word argv) ++ concat (map print_redir rs) ++ rest)) (wrap (EXEC argv) rs) rest.
Proof.
  intros [Hw Hl] Hrs Hf Hs Hfu. destruct (ends_stop rest Hf) as (Ht & Hp & Hp2). cbn [parseexec]. destruct argv as [|x argv].
  - cbn [map concat app] in *. assert (peek [LPAR] (concat (map print_redir rs) ++ rest) = (false, concat (map print_redir rs) ++ rest)) as Hpl.
    { destruct rs as [|r rs]; [done|]. cbn. rewrite <- app_assoc. unfold print_redir at 1 3.
      destruct (rd_fd r =? 0); [|destruct (rd_mode r =? 1537)]; cbn [app]; by rewrite peek_tight. }
    rewrite Hpl. destruct (redirs_print rs rest fuel Hrs Ht Hp Hs) as (ts & E & Em); [cbn in Hfu; lia|]. rewrite E. cbn [andthen].
    rewrite exec_loop_end by done. eexists. split; [done|]. by rewrite map_words_wrap, Em.
  - set (s := concat (map print_word (x :: argv)) ++ concat (map print_redir rs) ++ rest) in *. apply Forall_cons in Hw as Hw'. destruct Hw' as [Hx _].
    assert (exists s', s = print_word x ++ s') as [s' Es] by (unfold s; cbn [map concat]; rewrite <- app_assoc; eauto).
    destruct (words_head x s' Hx) as (_ & H1 & _ & H2). rewrite <- Es in H1, H2. rewrite H2, redirs_none by done. cbn [andthen].
    apply (exec_print (x :: argv) rs rest Hw Hrs Hf [] fuel); [done|done|done|done].
Qed.

Fixpoint csize (c : cmd (list Z)) : nat :=
  match c with
  | EXEC _ => 1
  | REDIR c _ => S (csize c)
  | PIPE l r => S (csize l + csize r)
  | LIST l r => S (csize l + csize r)
  | BACK c => S (csize c)
  end.

(** The redirections around a command. *)
Lemma unwrap c : cmd_ok c -> exists k rs, c = wrap k rs /\ (forall k' r, k <> REDIR k' r) /\ cmd_ok k /\ Forall redir_ok rs /\
  (csize k + length rs <= csize c)%nat.
Proof.
  induction c as [argv|c IH r|l _ r _|l _ r _|c _]; intros Hc; try (eexists _, []; repeat (split; [done|]); cbn; lia).
  destruct Hc as [Hc Hr]. destruct (IH Hc) as (k & rs & -> & Hk & Hck & Hrs & Hsz). exists k, (rs ++ [r]).
  split; [unfold wrap; by rewrite fold_left_app|]. split; [done|]. split; [done|]. split; [apply Forall_app; split; [done|by constructor]|].
  rewrite length_app. cbn. lia.
Qed.

(** The ampersands after a command. *)
Fixpoint backs (n : nat) (c : cmd (list Z)) : cmd (list Z) := match n with O => c | S n => BACK (backs n c) end.

Lemma unback c : cmd_ok c -> exists n p, c = backs n p /\ (forall p', p <> BACK p') /\ cmd_ok p /\ (csize p + n = csize c)%nat /\
  print 1 c = print 2 p ++ replicate n AMP.
Proof.
  induction c as [argv|c IH r|l _ r _|l _ r _|c IH]; intros Hc; try (exists 0%nat; eexists; repeat (split; [done || (cbn; lia)|]); by rewrite app_nil_r).
  destruct (IH Hc) as (n & p & -> & Hp & Hcp & Hsz & Hpr). exists (S n), p. cbn [backs csize print]. split; [done|]. split; [done|]. split; [done|].
  split; [lia|]. cbn [Nat.leb paren]. rewrite Hpr, <- app_assoc. f_equal. by rewrite <- replicate_S_end.
Qed.

Lemma backs_out n c : backs n (BACK c) = backs (S n) c.
Proof. induction n as [|n IH]; [done|]. cbn in *. by rewrite IH. Qed.

Lemma tight_amp n rest : tight rest -> tight (replicate n AMP ++ rest).
Proof. by destruct n. Qed.

Lemma back_loop_print n t p rest fuel : follow [RPAR; SEMI] rest -> (n <= fuel)%nat -> map_words (text_of text) t = p ->
  yields (back_loop fuel t (replicate n AMP ++ rest)) (backs n p) rest.
Proof.
  intros Hf. assert (tight rest) as Ht by (eapply follow_tight; [exact Hf|unfold symbols, RPAR, SEMI; set_solver]).
  revert t p fuel. induction n as [|n IH]; intros t p fuel Hfu Ht'.
  - cbn [replicate app]. exists t. split; [|done].
    assert (peek [AMP] rest = (false, rest)) as Hp.
    { eapply peek_follow; [exact Hf|unfold symbols, RPAR, SEMI; set_solver|unfold AMP, RPAR, SEMI; set_solver by lia]. }
    destruct fuel; cbn [back_loop]; by rewrite Hp.
  - destruct fuel as [|fuel]; [lia|]. cbn [replicate app back_loop]. rewrite peek_tight by done. change (mem AMP [AMP]) with true. cbv iota.
    destruct (gettoken_symbol AMP (replicate n AMP ++ rest)) as [w ->]; [set_solver|by apply tight_amp|].
    rewrite <- backs_out. apply IH; [lia|]. cbn. by rewrite Ht'.
Qed.

Lemma print_no_nul c lv : cmd_ok c -> 0 ∉ print lv c.
Proof.
  assert (forall x, word_ok x -> 0 ∉ print_word x) as Hword by (intros x (_ & _ & Hx); unfold print_word; set_solver by lia).
  assert (forall b s, 0 ∉ s -> 0 ∉ paren b s) as Hpar by (intros [] s Hs; unfold paren, LPAR, RPAR; set_solver by lia).
  revert lv. induction c as [argv|c IH r|l IHl r IHr|l IHl r IHr|c IH]; intros lv Hc; cbn [print].
  - destruct Hc as [Hw _]. induction Hw as [|x argv Hx Hw IH]; cbn; [apply not_elem_of_nil|]. rewrite not_elem_of_app. split; [by apply Hword|done].
  - destruct Hc as [Hc [Hr _]]. rewrite not_elem_of_app. split; [by apply IH|]. unfold print_redir. rewrite not_elem_of_app. split; [|by apply Hword].
    destruct (rd_fd r =? 0); [|destruct (rd_mode r =? 1537)]; unfold LT, GT; set_solver by lia.
  - destruct Hc as [Hl Hr]. specialize (IHl 3%nat Hl). specialize (IHr 2%nat Hr). apply Hpar. unfold BAR. set_solver by lia.
  - destruct Hc as [Hl Hr]. specialize (IHl 1%nat Hl). specialize (IHr 0%nat Hr). apply Hpar. unfold SEMI. set_solver by lia.
  - specialize (IH 1%nat Hc). apply Hpar. unfold AMP. set_solver by lia.
Qed.

Lemma print_tight c lv rest : cmd_ok c -> tight rest -> tight (print lv c ++ rest).
Proof.
  revert lv rest. induction c as [argv|c IH r|l IHl r IHr|l IHl r IHr|c IH]; intros lv rest Hc Ht; cbn [print].
  - destruct argv as [|x argv]; [done|]. cbn. rewrite <- app_assoc. destruct Hc as [Hw _]. apply Forall_cons in Hw as [Hx _]. by apply words_head.
  - destruct Hc as [Hc Hr]. rewrite <- app_assoc. apply IH; [done|]. by apply print_redir_head.
  - destruct Hc as [Hl _]. destruct (3 <=? lv)%nat; [done|]. cbn. rewrite <- app_assoc. by apply IHl.
  - destruct Hc as [Hl _]. destruct (1 <=? lv)%nat; [done|]. cbn. rewrite <- app_assoc. by apply IHl.
  - destruct (2 <=? lv)%nat; [done|]. cbn. rewrite <- app_assoc. by apply IH.
Qed.

Definition parses (P : nat -> list Z -> parsed (cmd wspan)) (toks : list Z) (lv extra : nat) (c : cmd (list Z)) : Prop :=
  forall rest fuel, follow toks rest -> (print lv c ++ rest) `suffix_of` text -> (4 * length (print lv c ++ rest) + extra <= fuel)%nat ->
  yields (P fuel (print lv c ++ rest)) c rest.
Definition line_ok := parses parseline [RPAR] 0 4.
Definition pipe_ok := parses parsepipe [RPAR; AMP; SEMI] 2 3.
Definition exec_ok := parses parseexec ENDS 3 2.

Lemma concat_length {A} (f : A -> list Z) l : (forall x, (1 <= length (f x))%nat) -> (length l <= length (concat (map f l)))%nat.
Proof. intros Hf. induction l as [|x l IH]; cbn; [lia|]. rewrite length_app. specialize (Hf x). lia. Qed.

Lemma redirs_length rs : (length rs <= length (concat (map print_redir rs)))%nat.
Proof. apply concat_length. intros r. unfold print_redir, print_word. rewrite !length_app. cbn. lia. Qed.
Lemma words_length argv : (length argv <= length (concat (map print_word argv)))%nat.
Proof. apply concat_length. intros x. unfold print_word. rewrite length_app. cbn. lia. Qed.

Lemma suffix_tail (a b : list Z) : (a ++ b) `suffix_of` text -> b `suffix_of` text.
Proof. intros [k ->]. exists (k ++ a). by rewrite <- app_assoc. Qed.

Lemma symbol_here x s : x ∈ symbols -> tight (x :: s).
Proof. intros Hx. by eapply (follow_tight symbols). Qed.

(** A line in parentheses, and redirections. *)
Lemma block_print k rs rest fuel : line_ok k -> cmd_ok k -> Forall redir_ok rs -> follow ENDS rest ->
  ([LPAR] ++ print 0 k ++ [RPAR] ++ concat (map print_redir rs) ++ rest) `suffix_of` text ->
  (4 * length ([LPAR] ++ print 0 k ++ [RPAR] ++ concat (map print_redir rs) ++ rest) + 2 <= fuel)%nat ->
  yields (parseexec fuel ([LPAR] ++ print 0 k ++ [RPAR] ++ concat (map print_redir rs) ++ rest)) (wrap k rs) rest.
Proof.
  intros Hk Hc Hrs Hf Hs Hfu. destruct (ends_stop rest Hf) as (Ht & Hp & _). rewrite !length_app in Hfu. cbn [length] in Hfu.
  pose proof (redirs_length rs) as Hrl.
  destruct fuel as [|[|fuel]]; [lia..|]. cbn [parseexec parseblock app]. rewrite peek_tight by done. change (mem LPAR [LPAR]) with true. cbv iota.
  rewrite peek_tight by done. change (mem LPAR [LPAR]) with true. cbn [negb].
  set (D := concat (map print_redir rs) ++ rest) in *. assert (tight D) as HtD.
  { unfold D. destruct rs as [|r rs]; [done|]. cbn. rewrite <- app_assoc. apply print_redir_head. by apply Forall_cons in Hrs as [Hr _]. }
  assert (tight (RPAR :: D)) as Htr by done.
  destruct (gettoken_symbol LPAR (print 0 k ++ RPAR :: D)) as [w ->]; [set_solver|by apply print_tight|].
  apply suffix_tail in Hs. destruct (Hk (RPAR :: D) fuel) as (t & E & Em); [cbn; set_solver|done| |].
  { rewrite length_app. cbn [length]. unfold D in *. rewrite length_app in *. lia. }
  rewrite E. cbn [andthen]. rewrite peek_tight by done. change (mem RPAR [RPAR]) with true. cbn [negb].
  destruct (gettoken_symbol RPAR D) as [w2 ->]; [set_solver|done|]. unfold parseredirs.
  apply suffix_tail in Hs. apply (suffix_tail [RPAR]) in Hs.
  destruct (redirs_print rs rest fuel Hrs Ht Hp Hs) as (ts & E2 & Em2); [lia|]. fold D in E2. rewrite E2. cbn [andthen].
  eexists. split; [done|]. by rewrite map_words_wrap, Em, Em2.
Qed.

Lemma print_wrap c rs : print 3 (wrap c rs) = print 3 c ++ concat (map print_redir rs).
Proof.
  revert c. induction rs as [|r rs IH]; intros c; [cbn; by rewrite app_nil_r|]. change (wrap c (r :: rs)) with (wrap (REDIR c r) rs).
  rewrite IH. cbn [print map concat]. by rewrite <- app_assoc.
Qed.

Lemma exec_words_ok argv rs : cmd_ok (EXEC argv) -> Forall redir_ok rs -> exec_ok (wrap (EXEC argv) rs).
Proof.
  intros Ha Hrs rest fuel Hf. rewrite print_wrap, <- app_assoc. cbn [print]. intros Hs Hfu. rewrite !length_app in Hfu. destruct fuel as [|fuel]; [lia|]. apply parseexec_words; [done|done|done|done|].
  pose proof (redirs_length rs). pose proof (words_length argv). lia.
Qed.

Lemma exec_paren_ok k rs : line_ok k -> cmd_ok k -> Forall redir_ok rs -> print 3 k = [LPAR] ++ print 0 k ++ [RPAR] -> exec_ok (wrap k rs).
Proof.
  intros Hl Hc Hrs Hp rest fuel Hf. rewrite print_wrap, Hp, <- !app_assoc. intros Hs Hfu. by apply block_print.
Qed.

Lemma pipe_sub : [RPAR; AMP; SEMI] ⊆ symbols.
Proof. unfold symbols, RPAR, AMP, SEMI. set_solver. Qed.

Lemma pipe_one_ok c : exec_ok c -> print 2 c = print 3 c -> pipe_ok c.
Proof.
  intros He Hp rest fuel Hf. rewrite Hp. intros Hs Hfu. destruct fuel as [|fuel]; [lia|]. cbn [parsepipe].
  destruct (He rest fuel) as (t & E & Em); [|done|lia|].
  { destruct rest; [done|]. cbn in *. unfold ENDS. set_solver. }
  rewrite E. cbn [andthen]. rewrite (peek_follow [BAR] _ rest Hf pipe_sub) by (unfold RPAR, AMP, SEMI, BAR; set_solver by lia). by exists t.
Qed.

Lemma pipe_two_ok l r : exec_ok l -> pipe_ok r -> cmd_ok r -> pipe_ok (PIPE l r).
Proof.
  intros Hl Hr Hc rest fuel Hf. pose proof (follow_tight _ _ Hf pipe_sub) as Ht. cbn [print Nat.leb paren app]. rewrite <- app_assoc. cbn [app].
  intros Hs Hfu. rewrite length_app in Hfu. cbn [length] in Hfu.
  destruct fuel as [|fuel]; [lia|]. cbn [parsepipe]. destruct (Hl (BAR :: print 2 r ++ rest) fuel) as (t & E & Em); [cbn; unfold ENDS; set_solver|done| |].
  { rewrite length_app. cbn [length]. lia. }
  rewrite E. cbn [andthen]. rewrite peek_tight by done. change (mem BAR [BAR]) with true. cbv iota.
  destruct (gettoken_symbol BAR (print 2 r ++ rest)) as [w ->]; [set_solver|by apply print_tight|].
  apply suffix_tail in Hs. apply (suffix_tail [BAR]) in Hs.
  destruct (Hr rest fuel Hf Hs) as (t2 & E2 & Em2); [lia|]. rewrite E2. cbn [andthen]. eexists. split; [done|]. cbn. by rewrite Em, Em2.
Qed.

(** A pipeline and its ampersands. *)
Lemma backs_print n p rest fuel : pipe_ok p -> follow [RPAR; SEMI] rest -> (print 2 p ++ replicate n AMP ++ rest) `suffix_of` text ->
  (4 * length (print 2 p ++ replicate n AMP ++ rest) + 3 <= fuel)%nat ->
  yields (andthen (parsepipe fuel (print 2 p ++ replicate n AMP ++ rest)) (back_loop fuel)) (backs n p) rest.
Proof.
  intros Hp Hf Hs Hfu. destruct (Hp (replicate n AMP ++ rest) fuel) as (t & E & Em); [|done|done|].
  { destruct n; cbn; [destruct rest; [done|]; cbn in *; set_solver|set_solver]. }
  rewrite E. cbn [andthen]. apply back_loop_print; [done| |done]. rewrite !length_app, length_replicate in Hfu. lia.
Qed.

Lemma line_step fuel s : parseline (S fuel) s = andthen (andthen (parsepipe fuel s) (back_loop fuel)) (fun c s =>
  let '(b, s) := peek [SEMI] s in
  if b then let '(_, _, s) := gettoken s in andthen (parseline fuel s) (fun c' s => Parsed (LIST c c') s) else Parsed c s).
Proof. cbn [parseline]. by destruct (parsepipe fuel s). Qed.

Lemma line_backs_ok n p : pipe_ok p -> print 0 (backs n p) = print 2 p ++ replicate n AMP -> line_ok (backs n p).
Proof.
  intros Hp Epr rest fuel Hf. rewrite Epr, <- app_assoc. intros Hs Hfu. destruct fuel as [|fuel]; [lia|]. rewrite line_step.
  destruct (backs_print n p rest fuel Hp) as (t & E & Em); [destruct rest; [done|]; cbn in *; set_solver|done|lia|].
  rewrite E. cbn [andthen]. rewrite (peek_follow [SEMI] _ rest Hf); [by exists t|unfold symbols, RPAR; set_solver|unfold RPAR, SEMI; set_solver by lia].
Qed.

Lemma line_list_ok n p r : pipe_ok p -> print 1 (backs n p) = print 2 p ++ replicate n AMP -> line_ok r -> cmd_ok r -> line_ok (LIST (backs n p) r).
Proof.
  intros Hp Epr Hr Hc rest fuel Hf. cbn [print Nat.leb paren]. rewrite Epr, <- !app_assoc. cbn [app]. intros Hs Hfu.
  assert (tight rest) as Ht by (eapply follow_tight; [exact Hf|unfold symbols, RPAR; set_solver]).
  rewrite !length_app in Hfu. cbn [length] in Hfu. rewrite length_app in Hfu.
  destruct fuel as [|fuel]; [lia|]. rewrite line_step.
  destruct (backs_print n p (SEMI :: print 0 r ++ rest) fuel Hp) as (t & E & Em); [cbn; set_solver|done| |].
  { rewrite !length_app. cbn [length]. rewrite length_app. lia. }
  rewrite E. cbn [andthen]. rewrite peek_tight by done. change (mem SEMI [SEMI]) with true. cbv iota.
  destruct (gettoken_symbol SEMI (print 0 r ++ rest)) as [w ->]; [set_solver|by apply print_tight|].
  apply suffix_tail, suffix_tail in Hs. apply (suffix_tail [SEMI]) in Hs.
  destruct (Hr rest fuel Hf Hs) as (t2 & E2 & Em2); [rewrite length_app; lia|]. rewrite E2. cbn [andthen]. eexists. split; [done|]. cbn. by rewrite Em, Em2.
Qed.

(** Every command, at every level. *)
Lemma all_ok c : cmd_ok c -> line_ok c /\ pipe_ok c /\ exec_ok c.
Proof.
  remember (csize c) as n eqn:En. revert c En. induction (lt_wf n) as [n _ IH']. intros c -> Hc.
  assert (forall d, (csize d < csize c)%nat -> cmd_ok d -> line_ok d /\ pipe_ok d /\ exec_ok d) as IH by (intros d Hd; by apply (IH' (csize d))).
  clear IH'. assert (forall k rs, c = wrap k rs -> line_ok k -> cmd_ok k -> Forall redir_ok rs -> print 3 k = [LPAR] ++ print 0 k ++ [RPAR] -> exec_ok c) as Hpar.
  { intros k rs -> Hl Hk Hrs Hp. by apply exec_paren_ok. }
  destruct c as [argv|c r|l r|l r|c].
  - assert (exec_ok (EXEC argv)) as He by (by apply (exec_words_ok argv [])). assert (pipe_ok (EXEC argv)) as Hp by (by apply pipe_one_ok).
    split; [|done]. apply (line_backs_ok 0 (EXEC argv)); [done|by rewrite app_nil_r].
  - assert (exec_ok (REDIR c r)) as He.
    { destruct (unwrap _ Hc) as (k & rs & E & Hk & Hck & Hrs & Hsz). destruct rs as [|r' rs]; [by destruct (Hk c r)|].
      destruct k as [argv|k' r0|kl kr|kl kr|k']; [rewrite E; by apply exec_words_ok|by destruct (Hk k' r0)|..];
        (eapply Hpar; [exact E| |done|done|done]; apply IH; [cbn in *; lia|done]). }
    assert (pipe_ok (REDIR c r)) as Hp by (by apply pipe_one_ok). split; [|done].
    apply (line_backs_ok 0 (REDIR c r)); [done|by rewrite app_nil_r].
  - destruct Hc as [Hl Hr]. destruct (IH l) as (_ & _ & Hel); [cbn; lia|done|]. destruct (IH r) as (_ & Hpr & _); [cbn; lia|done|].
    pose proof (pipe_two_ok l r Hel Hpr Hr) as Hp. assert (line_ok (PIPE l r)) as Hln.
    { apply (line_backs_ok 0 (PIPE l r)); [done|by rewrite app_nil_r]. }
    split; [done|]. split; [done|]. by apply (Hpar (PIPE l r) []).
  - destruct Hc as [Hl Hr]. destruct (unback l Hl) as (n & p & El & _ & Hp & Hsz & Epr). destruct (IH p) as (_ & Hpp & _); [cbn; lia|done|].
    destruct (IH r) as (Hlr & _ & _); [cbn; lia|done|]. assert (line_ok (LIST l r)) as Hln by (rewrite El in *; by apply line_list_ok).
    assert (exec_ok (LIST l r)) as He by (by apply (Hpar (LIST l r) [])). split; [done|]. split; [by apply pipe_one_ok|done].
  - destruct (unback (BACK c) Hc) as (n & p & El & Hnb & Hp & Hsz & Epr). destruct n as [|n]; [by destruct (Hnb c)|].
    destruct (IH p) as (_ & Hpp & _); [cbn in *; lia|done|]. assert (line_ok (BACK c)) as Hln by (rewrite El in *; by apply line_backs_ok).
    assert (exec_ok (BACK c)) as He by (by apply (Hpar (BACK c) [])). split; [done|]. split; [by apply pipe_one_ok|done].
Qed.
End Trip.

(** C32. Parsing the text of a command gives the command back: every tree of
    lists, background jobs, pipelines, redirections and words, printed with
    parentheses where they are needed and parsed with parsecmd, which ends the
    words in place with NULs, is the same tree again. *)
Theorem parsecmd_print c : cmd_ok c -> parsecmd (print 0 c) = Parsed c [].
Proof.
  intros Hc. rewrite parsecmd_text by (by apply print_no_nul). unfold parsetree.
  destruct (all_ok (print 0 c) c Hc) as [Hl _]. destruct (Hl [] (parse_fuel (print 0 c))) as (t & E & Em).
  - done.
  - by rewrite app_nil_r.
  - rewrite app_nil_r. unfold parse_fuel. lia.
  - rewrite app_nil_r in E. rewrite E. cbn [andthen peek skip_space]. by rewrite Em.
Qed.

Lemma spans_map {V W} (f : V -> W) c : spans (map_words f c) = map f (spans c).
Proof. induction c as [argv|c IH r|l IHl r IHr|l IHl r IHr|c IH]; cbn; rewrite ?IH, ?IHl, ?IHr, ?map_app; done. Qed.

(** *** The shape of the tree *)
Fixpoint shape_ok {W} (c : cmd W) : Prop :=
  match c with
  | EXEC argv => (length argv < MAXARGS)%nat
  | REDIR c r => shape_ok c /\ (rd_mode r, rd_fd r) ∈ [(0, 0); (1537, 1); (513, 1)]
  | PIPE l r => shape_ok l /\ shape_ok r
  | LIST l r => shape_ok l /\ shape_ok r
  | BACK c => shape_ok c
  end.

(** If it is parsed, [P] holds of the result. *)
Definition gives {A} (P : A -> Prop) (p : parsed A) : Prop := match p with Parsed a _ => P a | _ => True end.

Lemma gives_andthen {A B} (P : A -> Prop) (Q : B -> Prop) p f : gives P p -> (forall a s, P a -> gives Q (f a s)) -> gives Q (andthen p f).
Proof. destruct p; cbn; auto. Qed.

Definition modes_ok (rs : list (redir wspan)) : Prop := Forall (fun r => (rd_mode r, rd_fd r) ∈ [(0, 0); (1537, 1); (513, 1)]) rs.

Lemma redirs_shape fuel s : gives modes_ok (redirs fuel s).
Proof.
  revert s. induction fuel as [|fuel IH]; intros s; cbn [redirs]; destruct (peek [LT; GT] s) as [[] s1]; try by constructor.
  all: destruct (gettoken s1) as [[tok w1] s2]; destruct (gettoken s2) as [[tok2 w2] s3]; destruct (tok2 =? WORD); cbn [negb]; try done.
  apply (gives_andthen modes_ok); [apply IH|]. intros rs s' Hrs. constructor; [|done].
  destruct (tok =? LT); [left|]. destruct (tok =? GT); [right; left|right; right; left].
Qed.

Lemma wrap_shape {W} (c : cmd W) rs : shape_ok c -> Forall (fun r => (rd_mode r, rd_fd r) ∈ [(0, 0); (1537, 1); (513, 1)]) rs -> shape_ok (wrap c rs).
Proof. intros Hc Hrs. unfold wrap. revert c Hc. induction Hrs as [|r rs Hr Hrs IH]; intros c Hc; cbn [fold_left]; [done|]. by apply IH. Qed.

Lemma exec_loop_shape fuel argv rs s : (length argv < MAXARGS)%nat -> modes_ok rs -> gives shape_ok (exec_loop fuel argv rs s).
Proof.
  revert argv rs s. induction fuel as [|fuel IH]; intros argv rs s Ha Hr; cbn [exec_loop];
    destruct (peek [BAR; RPAR; AMP; SEMI] s) as [[] s1]; try by apply wrap_shape.
  all: destruct (gettoken s1) as [[tok w] s2]; (destruct (tok =? 0); [by apply wrap_shape|]); destruct (tok =? WORD); cbn [negb]; try done.
  all: destruct (Nat.leb_spec MAXARGS (length (argv ++ [w]))); try done.
  apply (gives_andthen modes_ok); [apply redirs_shape|]. intros rs' s' Hrs'. apply IH; [done|]. by apply Forall_app.
Qed.

Lemma back_loop_shape fuel c s : shape_ok c -> gives shape_ok (back_loop fuel c s).
Proof.
  revert c s. induction fuel as [|fuel IH]; intros c s Hc; cbn [back_loop]; destruct (peek [AMP] s) as [[] s1]; try done.
  destruct (gettoken s1) as [[tok w] s2]. by apply IH.
Qed.

Lemma parse_shape fuel : forall s, gives shape_ok (parseline fuel s) /\ gives shape_ok (parsepipe fuel s) /\
  gives shape_ok (parseexec fuel s) /\ gives shape_ok (parseblock fuel s).
Proof.
  induction fuel as [|fuel IH]; intros s; [done|]. split; [|split; [|split]]; cbn [parseline parsepipe parseexec parseblock].
  - apply (gives_andthen shape_ok); [apply IH|]. intros c s1 Hc. apply (gives_andthen shape_ok); [by apply back_loop_shape|]. intros c1 s2 Hc1.
    destruct (peek [SEMI] s2) as [[] s3]; [|done]. destruct (gettoken s3) as [[tok w] s4]. by apply (gives_andthen shape_ok); [apply IH|].
  - apply (gives_andthen shape_ok); [apply IH|]. intros c s1 Hc.
    destruct (peek [BAR] s1) as [[] s3]; [|done]. destruct (gettoken s3) as [[tok w] s4]. by apply (gives_andthen shape_ok); [apply IH|].
  - destruct (peek [LPAR] s) as [[] s1]; [apply IH|]. apply (gives_andthen modes_ok); [apply redirs_shape|]. intros rs s2 Hrs.
    apply exec_loop_shape; [unfold MAXARGS; cbn; lia|done].
  - destruct (peek [LPAR] s) as [[] s1]; cbn [negb]; [|done]. destruct (gettoken s1) as [[tok w] s2]. apply (gives_andthen shape_ok); [apply IH|].
    intros c s3 Hc. destruct (peek [RPAR] s3) as [[] s4]; cbn [negb]; [|done]. destruct (gettoken s4) as [[tok2 w2] s5].
    unfold parseredirs. apply (gives_andthen modes_ok); [apply redirs_shape|]. intros rs s6 Hrs. by apply wrap_shape.
Qed.

Lemma cmd_ok_shape {V} (f : V -> list Z) c : shape_ok c -> (forall w, w ∈ spans c -> word_ok (f w)) -> cmd_ok (map_words f c).
Proof.
  induction c as [argv|c IH r|l IHl r IHr|l IHl r IHr|c IH]; cbn; intros Hs Hw.
  - split; [|by rewrite length_map]. apply Forall_forall. intros x (w & -> & Hx)%list_elem_of_fmap. by apply Hw.
  - destruct Hs as [Hs Hm]. split; [apply IH; [done|]; intros; apply Hw; set_solver|]. split; [apply Hw; set_solver|done].
  - destruct Hs as [H1 H2]. split; [apply IHl|apply IHr]; try done; intros; apply Hw; set_solver.
  - destruct Hs as [H1 H2]. split; [apply IHl|apply IHr]; try done; intros; apply Hw; set_solver.
  - by apply IH.
Qed.

(** C33. The parser ends on every text without NULs, with a well-formed tree
    or a syntax error: the recursion is never deeper than four times the
    length of the text; the tree's strings are whole words of the text, no
    command of it has more than MAXARGS - 1 of them, so that argv ends in a
    null pointer, and its redirections are of the three kinds. *)
Theorem parsecmd_total text : 0 ∉ text ->
  match parsecmd text with
  | Parsed c s => s = [] /\ cmd_ok c /\ forall x, x ∈ spans c -> exists a b, text = a ++ x ++ b /\ match b with y :: _ => is_word y = false | [] => True end
  | Syntax _ => True
  | NoFuel => False
  end.
Proof.
  intros H0. rewrite parsecmd_text by done. pose proof (parsetree_good text) as Hg. unfold parsetree in *.
  pose proof (proj1 (parse_shape (parse_fuel text) text)) as Hsh.
  destruct (parseline (parse_fuel text) text) as [c s| |]; [|done..]. cbn [andthen gives] in *. destruct (peek [] s) as [b s1]. destruct s1; [|done].
  destruct Hg as [_ Hg]. rewrite Forall_forall in Hg. cbn [andthen].
  assert (forall w, w ∈ spans c -> word_ok (text_of text w) /\ exists a e, text = a ++ text_of text w ++ e /\ match e with y :: _ => is_word y = false | [] => True end) as Hw.
  { intros w Hw. destruct (Hg w Hw) as [x Hx]. rewrite (word_text _ _ _ Hx). destruct Hx as (a & e & E & _ & Hn & Hf & He).
    split; [|by exists a, e]. split; [done|]. split; [done|]. rewrite E in H0. set_solver. }
  split; [done|]. split; [apply cmd_ok_shape; [done|]; intros w Hin; by apply Hw|].
  intros x. rewrite spans_map. intros (w & -> & Hin)%list_elem_of_fmap. by apply Hw.
Qed.

(** [a b <c | (d &; e) >>f] *)
Definition demo_cmd : cmd (list Z) :=
  PIPE (REDIR (EXEC [[97]; [98]]) (mkredir [99] 0 0)) (REDIR (LIST (BACK (EXEC [[100]])) (EXEC [[101]])) (mkredir [102] 513 1)).

Lemma parsecmd_print_witness : parsecmd (print 0 demo_cmd) = Parsed demo_cmd [].
Proof. apply parsecmd_print. cbn. unfold word_ok, redir_ok, MAXARGS. repeat (split || constructor); try done; cbn; try lia; set_solver by lia. Defined.

Lemma parsecmd_total_witness : exists c, parsecmd [97; 32; 62; 98; 10] = Parsed c [] /\ cmd_ok c.
Proof.
  pose proof (parsecmd_total [97; 32; 62; 98; 10]) as H. destruct (parsecmd [97; 32; 62; 98; 10]) as [c s|msg|] eqn:E.
  - destruct H as (-> & H & _); [set_solver by lia|]. exists c. split; [reflexivity|exact H].
  - vm_compute in E. discriminate E.
  - vm_compute in E. discriminate E.
Defined.
