(* ===== verification/Spinlock.v ===== *)
(** * Spin locks

    The code of kernel/spinlock.c, and of sched in kernel/proc.c, on several
    harts that run at once.  A function is the list of its accesses to memory
    and to the hart's state; the harts interleave access by access, and an
    interrupt may come between any two where interrupts are enabled.  The
    memory is sequentially consistent, so __sync_synchronize does nothing
    here. *)

From Stdlib Require Import ZArith Lia.
From stdpp Require Import base list strings sets relations.
From S2P Require Import Prelude.

(** ** The machine *)

(** The lock word and the CPU that holds the lock. *)
Record spinlock := mkspinlock { locked : Z; lk_cpu : option nat }.

(** noff and intena of struct cpu, with the bit SIE of sstatus. *)
Record cpu := mkcpu { noff : Z; intena : bool; sie : bool }.

(** One access.  [old], [r] and the saved [intena] are the local variables of
    push_off, holding and sched. *)
Inductive instr : Type :=
| IGet                             (* old = intr_get() *)
| IOff                             (* intr_off() *)
| INoff                            (* if(mycpu()->noff == 0) mycpu()->intena = old; mycpu()->noff += 1 *)
| IPop                             (* the body of pop_off, which runs with interrupts off or panics *)
| ILocked (lk : nat)               (* r = lk->locked *)
| ICpu (lk : nat)                  (* r = r && lk->cpu == mycpu() *)
| IAssert (b : bool) (msg : string) (* if(r != b) panic(msg) *)
| ISwap (lk : nat)                 (* while(__sync_lock_test_and_set(&lk->locked, 1) != 0) ; *)
| ISetCpu (lk : nat)               (* lk->cpu = mycpu() *)
| IClearCpu (lk : nat)             (* lk->cpu = 0 *)
| IUnlock (lk : nat)               (* __sync_lock_release(&lk->locked) *)
| INoff1                           (* if(mycpu()->noff != 1) panic *)
| INoIntr                          (* if(intr_get()) panic *)
| ISave                            (* intena = mycpu()->intena *)
| ISwtch                           (* swtch *)
| IRestore.                        (* mycpu()->intena = intena *)

#[export] Instance instr_eq_dec : EqDecision instr.
Proof. solve_decision. Defined.

Definition push_off_code : list instr := [IGet; IOff; INoff].
Definition pop_off_code : list instr := [IPop].
Definition holding_code (lk : nat) : list instr := [ILocked lk; ICpu lk].
Definition acquire_code (lk : nat) : list instr :=
  push_off_code ++ holding_code lk ++ [IAssert false "acquire"; ISwap lk; ISetCpu lk].
Definition release_code (lk : nat) : list instr :=
  holding_code lk ++ [IAssert true "release"; IClearCpu lk; IUnlock lk] ++ pop_off_code.
(** The check that the process is not RUNNING is about data that this machine
    does not have: it is in [Sched.sched]. *)
Definition sched_code (lk : nat) : list instr :=
  holding_code lk ++ [IAssert true "sched p->lock"; INoff1; INoIntr; ISave; ISwtch; IRestore].

(** An activation: the rest of the function it is in ([] between calls), the
    local variables, the locks it took and has not released, and how many
    push_off it has not undone. *)
Record activation := mkact {
  a_code : list instr; a_old : bool; a_r : bool; a_saved : bool; a_own : list nat; a_offs : Z
}.

(** A hart runs the activation on top; below are those that interrupts
    suspended. *)
Record hart := mkhart { h_cpu : cpu; h_top : activation; h_stack : list activation }.

(** The pool has the threads that are switched out. *)
Record machine := mkmachine {
  m_locks : nat -> spinlock; m_harts : nat -> hart; m_pool : list (activation * list activation)
}.

Definition initlock : spinlock := mkspinlock 0 None.

Definition nupd {A} (n : nat) (v : A) (f : nat -> A) : nat -> A := fun x => if decide (x = n) then v else f x.

Definition put_hart (h : nat) (c : cpu) (f : activation) (m : machine) : machine :=
  mkmachine (m_locks m) (nupd h (mkhart c f (h_stack (m_harts m h))) (m_harts m)) (m_pool m).
Definition put_lock (lk : nat) (l : spinlock) (m : machine) : machine :=
  mkmachine (nupd lk l (m_locks m)) (m_harts m) (m_pool m).

(** What the access [i] does on hart [h], with [rest] left to do after it. *)
Definition exec (h : nat) (i : instr) (rest : list instr) : K machine unit := fun m =>
  let '(mkhart (mkcpu n ie s as c) (mkact _ old r sv own offs) _) := m_harts m h in
  let f := mkact rest old r sv own offs in
  match i with
  | IGet => Ret tt (put_hart h c (mkact rest s r sv own offs) m)
  | IOff => Ret tt (put_hart h (mkcpu n ie false) f m)
  | INoff => Ret tt (put_hart h (mkcpu (n + 1) (if n =? 0 then old else ie) s) (mkact rest old r sv own (offs + 1)) m)
  | IPop =>
      if s then Panic "pop_off - interruptible"
      else if n <? 1 then Panic "pop_off"
      else Ret tt (put_hart h (mkcpu (n - 1) ie ((n - 1 =? 0) && ie)) (mkact rest old r sv own (offs - 1)) m)
  | ILocked lk => Ret tt (put_hart h c (mkact rest old (negb (locked (m_locks m lk) =? 0)) sv own offs) m)
  | ICpu lk => Ret tt (put_hart h c (mkact rest old (r && bool_decide (lk_cpu (m_locks m lk) = Some h)) sv own offs) m)
  | IAssert b msg => if Bool.eqb r b then Ret tt (put_hart h c f m) else Panic msg
  | ISwap lk =>
      let l := m_locks m lk in
      let m' := put_lock lk (mkspinlock 1 (lk_cpu l)) m in
      if locked l =? 0 then Ret tt (put_hart h c (mkact rest old r sv (lk :: own) offs) m')
      else Ret tt m'
  | ISetCpu lk => Ret tt (put_hart h c f (put_lock lk (mkspinlock (locked (m_locks m lk)) (Some h)) m))
  | IClearCpu lk => Ret tt (put_hart h c f (put_lock lk (mkspinlock (locked (m_locks m lk)) None) m))
  | IUnlock lk =>
      Ret tt (put_hart h c (mkact rest old r sv (filter (fun x => x <> lk) own) offs)
                (put_lock lk (mkspinlock 0 (lk_cpu (m_locks m lk))) m))
  | INoff1 => if n =? 1 then Ret tt (put_hart h c f m) else Panic "sched locks"
  | INoIntr => if s then Panic "sched interruptible" else Ret tt (put_hart h c f m)
  | ISave => Ret tt (put_hart h c (mkact rest old r ie own offs) m)
  | ISwtch => Ret tt m
  | IRestore => Ret tt (put_hart h (mkcpu n sv s) f m)
  end.

(** What the kernel may call between two calls: an activation does not take a
    lock it has, releases and undoes only what it took and did, calls sched
    with just one lock, the process's, and the scheduler, which never runs in
    an interrupt handler, calls swtch the same way. *)
Inductive calls (f : activation) (fs : list activation) : list instr -> Prop :=
| call_acquire lk : lk ∉ a_own f -> calls f fs (acquire_code lk)
| call_release lk : lk ∈ a_own f -> calls f fs (release_code lk)
| call_push_off : calls f fs push_off_code
| call_pop_off : Z.of_nat (length (a_own f)) < a_offs f -> calls f fs pop_off_code
| call_sched lk : a_own f = [lk] -> a_offs f = 1 -> calls f fs (sched_code lk)
| call_swtch lk : a_own f = [lk] -> a_offs f = 1 -> fs = [] -> calls f fs [ISwtch].

Definition idle : activation := mkact [] false false false [] 0.

Inductive hart_step (m : machine) : machine -> Prop :=
| step_exec h i rest m' : a_code (h_top (m_harts m h)) = i :: rest -> i <> ISwtch -> exec h i rest m = Ret tt m' -> hart_step m m'
| step_call h c code f fs : m_harts m h = mkhart c f fs -> a_code f = [] -> calls f fs code ->
    hart_step m (put_hart h c (mkact code (a_old f) (a_r f) (a_saved f) (a_own f) (a_offs f)) m)
(** swtch to any thread of the pool: it goes on with the locks of this hart. *)
| step_swtch h c f fs rest j f' fs' : m_harts m h = mkhart c f fs -> a_code f = ISwtch :: rest -> m_pool m !! j = Some (f', fs') ->
    hart_step m (mkmachine (m_locks m)
      (nupd h (mkhart c (mkact (a_code f') (a_old f') (a_r f') (a_saved f') (a_own f) (a_offs f)) fs') (m_harts m))
      (<[j := (mkact rest (a_old f) (a_r f) (a_saved f) [] 0, fs)]> (m_pool m)))
(** allocproc makes a thread that will start in forkret. *)
| step_new : hart_step m (mkmachine (m_locks m) (m_harts m) (m_pool m ++ [(idle, [])]))
(** intr_on and intr_off outside of handlers and with no lock. *)
| step_intr h n ie s b f : m_harts m h = mkhart (mkcpu n ie s) f [] -> a_code f = [] -> a_own f = [] -> a_offs f = 0 ->
    hart_step m (put_hart h (mkcpu n ie b) f m)
(** The hart takes an interrupt, which disables interrupts. *)
| step_trap h n ie f fs : m_harts m h = mkhart (mkcpu n ie true) f fs ->
    hart_step m (mkmachine (m_locks m) (nupd h (mkhart (mkcpu n ie false) idle (f :: fs)) (m_harts m)) (m_pool m))
(** The handler returns; sret enables interrupts again. *)
| step_sret h n ie s f g fs : m_harts m h = mkhart (mkcpu n ie s) f (g :: fs) -> a_code f = [] -> a_own f = [] -> a_offs f = 0 ->
    hart_step m (mkmachine (m_locks m) (nupd h (mkhart (mkcpu n ie true) g fs) (m_harts m)) (m_pool m)).

(** Every hart between calls, no lock held, no thread switched out. *)
Definition boot (m : machine) : Prop :=
  (forall lk, m_locks m lk = initlock) /\
  (forall h, exists ie s, m_harts m h = mkhart (mkcpu 0 ie s) idle []) /\ m_pool m = [].
