(* ===== verification/SpinProps.v ===== *)
(** * Properties of spin locks *)

From Stdlib Require Import ZArith Lia.
From stdpp Require Import base list strings sets relations.
From S2P Require Import Prelude Spinlock.

Lemma nupd_eq {A} n (v : A) f : nupd n v f n = v.
Proof. unfold nupd. by rewrite decide_True. Qed.
Lemma nupd_ne {A} n x (v : A) f : x <> n -> nupd n v f x = f x.
Proof. intros. unfold nupd. by rewrite decide_False. Qed.

Lemma nupd_same {A} n (f : nat -> A) x : nupd n (f n) f x = f x.
Proof. unfold nupd. by case_decide; subst. Qed.

(** ** The locks

    [own h] are the locks whose word hart [h] has set, [rec h] those that
    record it as their holder. *)
Record locks_ok (L : nat -> spinlock) (own rec : nat -> list nat) : Prop := {
  lo_word lk : locked (L lk) <> 0 <-> exists h, lk ∈ own h;
  lo_one lk h h' : lk ∈ own h -> lk ∈ own h' -> h = h';
  lo_cpu lk h : lk_cpu (L lk) = Some h <-> lk ∈ rec h;
  lo_rec h : rec h ⊆ own h
}.

Section Locks.
Context (L : nat -> spinlock) (own rec : nat -> list nat) (H : locks_ok L own rec).

Ltac at_lock lk lk' := destruct (decide (lk' = lk)) as [->|]; [rewrite ?nupd_eq|rewrite ?(nupd_ne lk lk') by done]; cbn [locked lk_cpu].

Lemma locks_ext own' rec' : (forall h, own' h = own h) -> (forall h, rec' h = rec h) -> locks_ok L own' rec'.
Proof.
  intros Eo Er. destruct H as [H1 H2 H3 H4]. split; intros *; rewrite ?Er, ?Eo; auto; [|apply H2].
  rewrite H1. split; intros [h Hh]; exists h; [by rewrite Eo|by rewrite Eo in Hh].
Qed.

Lemma locks_swap h lk : locked (L lk) = 0 ->
  locks_ok (nupd lk (mkspinlock 1 (lk_cpu (L lk))) L) (nupd h (lk :: own h) own) rec.
Proof.
  intros Hz. destruct H as [H1 H2 H3 H4].
  assert (forall h', lk ∉ own h') as Hn by (intros h' Hh; apply (proj2 (H1 lk)); eauto).
  assert (forall h' x, x ∈ nupd h (lk :: own h) own h' <-> x = lk /\ h' = h \/ x ∈ own h') as Ho.
  { intros h' x. unfold nupd. case_decide as E; [subst; rewrite elem_of_cons; naive_solver|naive_solver]. }
  split.
  - intros x. setoid_rewrite Ho. at_lock lk x; [split; [intros _; eauto|done]|rewrite H1; naive_solver].
  - intros x h1 h2. rewrite !Ho. naive_solver.
  - intros x h'. at_lock lk x; apply H3.
  - intros h' x Hx. apply Ho. right. by apply H4.
Qed.

Lemma locks_spin lk : locked (L lk) <> 0 -> locks_ok (nupd lk (mkspinlock 1 (lk_cpu (L lk))) L) own rec.
Proof.
  intros Hz. destruct H as [H1 H2 H3 H4]. split; [|done| |done].
  - intros x. at_lock lk x; [|apply H1]. rewrite <- H1. done.
  - intros x h'. at_lock lk x; apply H3.
Qed.

Lemma locks_set_cpu h lk : lk ∈ own h ->
  locks_ok (nupd lk (mkspinlock (locked (L lk)) (Some h)) L) own (nupd h (lk :: rec h) rec).
Proof.
  intros Hin. destruct H as [H1 H2 H3 H4].
  assert (forall h' x, x ∈ nupd h (lk :: rec h) rec h' <-> x = lk /\ h' = h \/ x ∈ rec h') as Hr.
  { intros h' x. unfold nupd. case_decide as E; [subst; rewrite elem_of_cons; naive_solver|naive_solver]. }
  split; [|done| |].
  - intros x. at_lock lk x; apply H1.
  - intros x h'. rewrite Hr. at_lock lk x; [|rewrite H3; naive_solver]. split; [intros [= ->]; by left|].
    intros [[_ ->] | Hx%H4]; [done|f_equal; by eapply H2].
  - intros h' x. rewrite Hr. intros [[-> ->] | Hx]; [done|by apply H4].
Qed.

Lemma locks_clear_cpu h lk : lk ∈ rec h ->
  locks_ok (nupd lk (mkspinlock (locked (L lk)) None) L) own (nupd h (filter (fun x => x <> lk) (rec h)) rec).
Proof.
  intros Hin. destruct H as [H1 H2 H3 H4].
  assert (forall h' x, x ∈ nupd h (filter (fun x => x <> lk) (rec h)) rec h' <-> x <> lk /\ x ∈ rec h') as Hr.
  { intros h' x. unfold nupd. case_decide as E; [subst; by rewrite list_elem_of_filter|]. split; [|naive_solver].
    intros Hx. split; [|done]. intros ->. apply E. eapply (H2 lk); by apply H4. }
  split; [|done| |].
  - intros x. at_lock lk x; apply H1.
  - intros x h'. rewrite Hr. at_lock lk x; [naive_solver|rewrite H3; naive_solver].
  - intros h' x. rewrite Hr. intros [_ Hx]. by apply H4.
Qed.

Lemma locks_unlock h lk : lk ∈ own h -> lk ∉ rec h ->
  locks_ok (nupd lk (mkspinlock 0 (lk_cpu (L lk))) L) (nupd h (filter (fun x => x <> lk) (own h)) own) rec.
Proof.
  intros Hin Hr. destruct H as [H1 H2 H3 H4].
  assert (forall h' x, x ∈ nupd h (filter (fun x => x <> lk) (own h)) own h' <-> x <> lk /\ x ∈ own h') as Ho.
  { intros h' x. unfold nupd. case_decide as E; [subst; by rewrite list_elem_of_filter|]. split; [|naive_solver].
    intros Hx. split; [|done]. intros ->. apply E. by eapply H2. }
  split.
  - intros x. setoid_rewrite Ho. at_lock lk x; [naive_solver|rewrite H1; naive_solver].
  - intros x h1 h2. rewrite !Ho. intros [_ ?] [_ ?]. by eapply H2.
  - intros x h'. at_lock lk x; apply H3.
  - intros h' x Hx. apply Ho. split; [|by apply H4]. intros ->. apply Hr. assert (lk ∈ own h') by by apply H4.
    by rewrite (H2 lk h h').
Qed.
End Locks.

(** ** What holds at each point of the code

    [ok c l]: the activation, with [c] left to do, may go on from the local
    state [l].  Where interrupts are enabled, nothing is held and [intena]
    does not matter, for an interrupt may change it. *)
Record local := mkloc {
  l_noff : Z; l_ie : bool; l_sie : bool; l_old : bool; l_r : bool; l_sv : bool;
  l_own : list nat; l_rec : list nat; l_inh : bool
}.

Definition with_ie (b : bool) (l : local) : local :=
  mkloc (l_noff l) b (l_sie l) (l_old l) (l_r l) (l_sv l) (l_own l) (l_rec l) (l_inh l).

Definition stable (P : local -> Prop) (l : local) : Prop :=
  if l_sie l
  then l_noff l = 0 /\ l_own l = [] /\ l_rec l = [] /\ l_inh l = false /\ forall b, P (with_ie b l)
  else P l.

(** What holds before the access [i], if [P] is to hold after it. *)
Definition pre (i : instr) (P : local -> Prop) (l : local) : Prop :=
  let '(mkloc n ie s old r sv own rec inh) := l in
  match i with
  | IGet => P (mkloc n ie s s r sv own rec inh)
  | IOff => P (mkloc n ie false old r sv own rec inh)
  | INoff => P (mkloc (n + 1) (if n =? 0 then old else ie) s old r sv own rec inh)
  | IPop => s = false /\ 1 <= n /\ P (mkloc (n - 1) ie ((n - 1 =? 0) && ie) old r sv own rec inh)
  | ILocked lk => forall b, (lk ∈ own -> b = true) -> P (mkloc n ie s old b sv own rec inh)
  | ICpu lk => forall b, (b = true <-> lk ∈ rec) -> P (mkloc n ie s old (r && b) sv own rec inh)
  | IAssert b _ => r = b /\ P l
  | ISwap lk => (lk ∉ own) /\ P (mkloc n ie s old r sv (lk :: own) rec inh)
  | ISetCpu lk => lk ∈ own /\ P (mkloc n ie s old r sv own (lk :: rec) inh)
  | IClearCpu lk => lk ∈ rec /\ P (mkloc n ie s old r sv own (filter (fun x => x <> lk) rec) inh)
  | IUnlock lk => lk ∈ own /\ (lk ∉ rec) /\ P (mkloc n ie s old r sv (filter (fun x => x <> lk) own) rec inh)
  | INoff1 => n = 1 /\ P l
  | INoIntr => s = false /\ P l
  | ISave => P (mkloc n ie s old r ie own rec inh)
  | ISwtch => s = false /\ n = 1 /\ rec = own /\ (length own <= 1)%nat /\
      forall ie' own', (length own' <= 1)%nat -> P (mkloc 1 ie' false old r sv own' own' inh)
  | IRestore => P (mkloc n sv s old r sv own rec inh)
  end.

Fixpoint ok (c : list instr) (l : local) : Prop :=
  stable (fun l => match c with
    | [] => l_rec l = l_own l /\ Z.of_nat (length (l_own l)) <= l_noff l /\
            (l_inh l = true -> l_sie l = false /\ (0 < l_noff l -> l_ie l = false))
    | i :: c => pre i (ok c) l
    end) l.

Lemma ok_cons i c l : ok (i :: c) l -> pre i (ok c) l.
Proof.
  change (ok (i :: c) l) with (stable (pre i (ok c)) l). unfold stable. destruct l as [n ie s old r sv own rec inh].
  cbn [l_sie]. destruct s; [|done]. intros (_ & _ & _ & _ & H). exact (H ie).
Qed.

Lemma ok_rec l : ok [] l -> l_rec l = l_own l.
Proof. destruct l as [n ie s old r sv own rec inh]. cbn. unfold stable. cbn. destruct s; naive_solver. Qed.

(** Where interrupts are enabled, nothing is held and no handler runs. *)
Lemma ok_enabled c l : ok c l -> l_sie l = true ->
  l_noff l = 0 /\ l_own l = [] /\ l_rec l = [] /\ l_inh l = false /\ forall b, ok c (with_ie b l).
Proof.
  destruct l as [n ie s old r sv own rec inh]. cbn [l_sie]. intros H ->.
  assert (forall P, stable P (mkloc n ie true old r sv own rec inh) ->
    n = 0 /\ own = [] /\ rec = [] /\ inh = false /\ forall b, stable P (mkloc n b true old r sv own rec inh)) as HP.
  { intros P (H1 & H2 & H3 & H4 & H5). cbn in *. do 4 (split; [done|]). intros b. unfold stable. cbn. done. }
  destruct c; exact (HP _ H).
Qed.

Ltac walk := repeat match goal with |- _ /\ _ => split | |- forall _, _ => intro end; try done.

Lemma holding_no b1 b2 lk (R : list nat) : (b2 = true <-> lk ∈ R) -> lk ∉ R -> b1 && b2 = false.
Proof. intros H Hn. destruct b2; [by destruct Hn; apply H|apply andb_false_r]. Qed.
Lemma holding_yes b1 b2 lk (R : list nat) : (lk ∈ R -> b1 = true) -> (b2 = true <-> lk ∈ R) -> lk ∈ R -> b1 && b2 = true.
Proof. intros H1 H2 Hin. by rewrite H1, (proj2 H2). Qed.
Lemma filter_shorter lk (l : list nat) : lk ∈ l -> (length (filter (fun x => x <> lk) l) < length l)%nat.
Proof. intros Hin. apply length_filter_lt with lk; [done|naive_solver]. Qed.

(** pop_off enables interrupts only when the last lock is gone, and never in
    an interrupt handler. *)
Lemma pop_ok n ie old r sv own inh : 1 <= n -> Z.of_nat (length own) <= n - 1 -> (inh = true -> ie = false) ->
  ok [] (mkloc (n - 1) ie ((n - 1 =? 0) && ie) old r sv own own inh).
Proof.
  intros Hn Hl Hi. cbn. unfold stable. cbn. destruct (Z.eqb_spec (n - 1) 0) as [E|E]; cbn; [|walk; by apply Hi].
  destruct own; [|cbn in Hl; lia]. destruct ie, inh; cbn; walk; auto; lia.
Qed.

(** Every function the kernel may call runs from where it may be called. *)
Lemma calls_ok f fs code l : ok [] l -> l_own l = a_own f -> l_noff l = a_offs f ->
  l_inh l = (match fs with [] => false | _ => true end) -> calls f fs code -> ok code l.
Proof.
  destruct l as [n ie s old r sv own rec inh]. cbn [l_own l_noff l_inh]. intros H -> -> Hi Hc. destruct s.
  - destruct H as (H1 & H2 & H3 & H4 & _). cbn in H1, H2, H3, H4. rewrite H1, H2, H3, H4 in *. clear Hi.
    destruct Hc as [lk Hc|lk Hc| |Hc|lk Hc Ho|lk Hc Ho Hf]; cbn.
    + unfold stable. cbn. walk; [by eapply holding_no, not_elem_of_nil|apply not_elem_of_nil|left].
    + rewrite H2 in Hc. by apply not_elem_of_nil in Hc.
    + unfold stable. cbn. walk.
    + rewrite H1, H2 in Hc. cbn in Hc. lia.
    + congruence.
    + congruence.
  - cbn in H. destruct H as (-> & H2 & H3). cbn in H2, H3.
    destruct Hc as [lk Hc|lk Hc| |Hc|lk Hc Ho|lk Hc Ho Hf]; cbn; unfold stable; cbn.
    + walk; [by eapply holding_no|left|lia|]. destruct (Z.eqb_spec (a_offs f) 0); [done|]. apply H3; [done|lia].
    + pose proof (filter_shorter lk _ Hc) as Hs.
      walk; [by eapply holding_yes|rewrite list_elem_of_filter; naive_solver|lia|].
      pose proof (pop_ok (a_offs f) ie old r sv (filter (fun x => x <> lk) (a_own f)) inh) as Hp. apply Hp; [lia|lia|]. intros Hh. apply H3; [done|lia].
    + walk; [lia|]. destruct (Z.eqb_spec (a_offs f) 0); [done|]. apply H3; [done|lia].
    + walk; [lia|]. pose proof (pop_ok (a_offs f) ie old r sv (a_own f) inh) as Hp. apply Hp; [lia|lia|]. intros Hh. apply H3; [done|lia].
    + rewrite Hc, Ho in *. walk; [eapply holding_yes; [done|done|left]|lia|]. by apply H3.
    + rewrite Hc, Ho, Hf in *. walk; [cbn in *; lia|congruence].
Qed.

(** ** The invariant of the machine *)
Definition inh (fs : list activation) : bool := match fs with [] => false | _ => true end.
Definition owns (m : machine) (h : nat) : list nat := a_own (h_top (m_harts m h)).

Definition at_ (c : cpu) (f : activation) (R : list nat) (b : bool) : local :=
  mkloc (noff c) (intena c) (sie c) (a_old f) (a_r f) (a_saved f) (a_own f) R b.

(** An activation that an interrupt suspended. *)
Definition suspended (g : activation) : Prop :=
  a_own g = [] /\ a_offs g = 0 /\ forall ie, ok (a_code g) (at_ (mkcpu 0 ie true) g [] false).

Record hart_ok (c : cpu) (f : activation) (fs : list activation) (R : list nat) : Prop := {
  ho_code : ok (a_code f) (at_ c f R (inh fs));
  ho_noff : noff c = a_offs f;
  ho_depth : (length fs <= 1)%nat;
  ho_stack : Forall suspended fs
}.

(** A thread that is switched out may go on on any hart, with any lock. *)
Definition switched (x : activation * list activation) : Prop :=
  (forall ie own, (length own <= 1)%nat ->
     ok (a_code x.1) (mkloc 1 ie false (a_old x.1) (a_r x.1) (a_saved x.1) own own (inh x.2))) /\
  (length x.2 <= 1)%nat /\ Forall suspended x.2.

Record machine_ok (m : machine) (rec : nat -> list nat) : Prop := {
  mo_hart h : let H := m_harts m h in hart_ok (h_cpu H) (h_top H) (h_stack H) (rec h);
  mo_locks : locks_ok (m_locks m) (owns m) rec;
  mo_pool : Forall switched (m_pool m)
}.

Section Step.
Context (m : machine) (rec : nat -> list nat) (M : machine_ok m rec).

(** A step of one hart that keeps to its own part. *)
Lemma ok_put h c f fs L R pool : hart_ok c f fs R -> locks_ok L (nupd h (a_own f) (owns m)) (nupd h R rec) -> Forall switched pool ->
  machine_ok (mkmachine L (nupd h (mkhart c f fs) (m_harts m)) pool) (nupd h R rec).
Proof.
  intros H1 H2 H3. split; [|eapply locks_ext; [exact H2| |done]|done].
  - intros h'. cbn. destruct (decide (h' = h)) as [->|Hn]; [by rewrite !nupd_eq|]. rewrite !nupd_ne by done. apply M.
  - intros h'. unfold owns. cbn. destruct (decide (h' = h)) as [->|Hn]; [by rewrite !nupd_eq|]. by rewrite !nupd_ne.
Qed.

Lemma ok_put_local h c f fs pool : hart_ok c f fs (rec h) -> a_own f = owns m h -> Forall switched pool ->
  exists rec', machine_ok (mkmachine (m_locks m) (nupd h (mkhart c f fs) (m_harts m)) pool) rec'.
Proof.
  intros H1 H2 H3. exists (nupd h (rec h) rec). apply ok_put; [done| |done].
  eapply locks_ext; [apply M| |]; intros h'; [rewrite H2|]; apply nupd_same.
Qed.

(** The local state before an access allows the access, and what it leads to
    is as [pre] says. *)
Lemma exec_ok h i rest : a_code (h_top (m_harts m h)) = i :: rest -> i <> ISwtch ->
  wp (exec h i rest) (fun _ m' => exists rec', machine_ok m' rec') m.
Proof.
  intros Hc Hi. pose proof (mo_hart _ _ M h) as Hh. unfold wp, exec. destruct (m_harts m h) as [[n ie s] [code old r sv own offs] fs] eqn:E.
  cbn in Hc, Hh. subst code. destruct Hh as [Hok Hn Hd Hs]. apply ok_cons in Hok. cbn in Hok, Hn.
  assert (owns m h = own) as Ho by (unfold owns; by rewrite E).
  assert (forall c f, ok (a_code f) (at_ c f (rec h) (inh fs)) -> noff c = a_offs f -> a_own f = own ->
    exists rec', machine_ok (put_hart h c f m) rec') as Hput.
  { intros c f H1 H2 H3. unfold put_hart. rewrite E. apply ok_put_local; [done|by rewrite Ho|apply M]. }
  assert (forall L c f R, ok (a_code f) (at_ c f R (inh fs)) -> noff c = a_offs f ->
    locks_ok L (nupd h (a_own f) (owns m)) (nupd h R rec) ->
    exists rec', machine_ok (put_hart h c f (mkmachine L (m_harts m) (m_pool m))) rec') as Hlock.
  { intros L c f R H1 H2 H3. eexists. unfold put_hart. cbn. rewrite E. apply ok_put; [done|exact H3|apply M]. }
  pose proof (mo_locks _ _ M) as HL.
  destruct i; cbn in Hok; try (by apply Hput).
  - apply Hput; cbn; [done|lia|done].
  - destruct Hok as (-> & Hge & Hok). destruct (Z.ltb_spec n 1); [lia|]. apply Hput; cbn; [done|lia|done].
  - apply Hput; [|done|done]. apply Hok. intros Hin. apply negb_true_iff, Z.eqb_neq, (lo_word _ _ _ HL). exists h. by rewrite Ho.
  - apply Hput; [|done|done]. apply Hok. rewrite bool_decide_eq_true. apply (lo_cpu _ _ _ HL).
  - destruct Hok as [-> Hok]. rewrite eqb_reflx. by apply Hput.
  - destruct Hok as [Hni Hok]. destruct (Z.eqb_spec (locked (m_locks m lk)) 0) as [Hz|Hz].
    + apply (Hlock _ _ _ (rec h)); [done|done|]. cbn [a_own]. rewrite <- Ho.
      eapply locks_ext; [apply (locks_swap _ _ _ HL h lk Hz)|done|apply nupd_same].
    + exists rec. split; [apply M|apply (locks_spin _ _ _ HL lk Hz)|apply M].
  - destruct Hok as [Hin Hok]. apply (Hlock _ _ _ (lk :: rec h)); [done|done|]. cbn [a_own]. rewrite <- Ho in *.
    eapply locks_ext; [apply (locks_set_cpu _ _ _ HL h lk Hin)|apply nupd_same|done].
  - destruct Hok as [Hin Hok]. eapply Hlock; [exact Hok|done|]. cbn [a_own]. rewrite <- Ho in *.
    eapply locks_ext; [apply (locks_clear_cpu _ _ _ HL h lk Hin)|apply nupd_same|done].
  - destruct Hok as (Hin & Hr & Hok). apply (Hlock _ _ _ (rec h)); [done|done|]. cbn [a_own]. rewrite <- Ho in *.
    eapply locks_ext; [apply (locks_unlock _ _ _ HL h lk Hin Hr)|done|apply nupd_same].
  - destruct Hok as [-> Hok]. by apply Hput.
  - destruct Hok as [-> Hok]. by apply Hput.
  - done.
Qed.

Lemma step_ok m' : hart_step m m' -> exists rec', machine_ok m' rec'.
Proof.
  assert (forall h c f fs, m_harts m h = mkhart c f fs -> hart_ok c f fs (rec h) /\ a_own f = owns m h) as Hat.
  { intros h c f fs E. pose proof (mo_hart _ _ M h) as Hh. unfold owns. rewrite E in *. done. }
  intros H. destruct H as [h i rest m' Hc Hi He|h c code f fs E Hf Hc|h c f fs rest j f' fs' E Hf Hj| |h n ie s b f E Hf Ho Hz
    |h n ie f fs E|h n ie s f g fs E Hf Ho Hz].
  - pose proof (exec_ok h i rest Hc Hi) as Hw. unfold wp in Hw. by rewrite He in Hw.
  - destruct (Hat _ _ _ _ E) as [[H1 H2 H3 H4] Ho]. unfold put_hart. rewrite E. cbn. apply ok_put_local; [|done|apply M].
    split; [|done|done|done]. cbn. eapply (calls_ok f fs); [by rewrite <- Hf|done|done|done|done].
  - destruct (Hat _ _ _ _ E) as [[H1 H2 H3 H4] Ho]. rewrite Hf in H1. apply ok_cons in H1. cbn in H1.
    destruct H1 as (Hs & Hn & Hr & Hl & Hok). pose proof (mo_pool _ _ M) as Hp.
    pose proof (Forall_lookup_1 _ _ _ _ Hp Hj) as (Hx & Hd & Hst). cbn in Hx, Hd, Hst.
    apply ok_put_local; [|done|apply Forall_insert; [done|]; split; [exact Hok|done]].
    split; [|done|done|done]. destruct c as [n ie s]. cbn in *. rewrite Hs, Hn, Hr. apply (Hx ie (a_own f) Hl).
  - exists rec. split; [apply M|apply M|]. cbn. apply Forall_app. split; [apply M|]. constructor; [|done].
    split; [|split; [cbn; lia|done]]. intros ie own Hl. cbn. unfold stable. cbn. walk. lia.
  - destruct (Hat _ _ _ _ E) as [[H1 H2 H3 H4] Hw]. unfold put_hart. rewrite E. cbn. apply ok_put_local; [|done|apply M].
    split; [|done|done|done]. cbn in H2. rewrite Hf, H2, Hz in *. assert (rec h = []) as Hr by (apply ok_rec in H1; cbn in H1; congruence).
    unfold at_. cbn. rewrite Hr, Ho. unfold stable. cbn. destruct b; walk.
  - destruct (Hat _ _ _ _ E) as [[H1 H2 H3 H4] Hw]. destruct (ok_enabled _ _ H1 eq_refl) as (Hn & Ho & Hr & Hi & Hok).
    cbn in Hn, Ho, Hr, Hi, H2. assert (fs = []) as -> by (by destruct fs). apply ok_put_local; [|by rewrite <- Hw|apply M].
    split; [|done|done|]; [cbn; unfold stable; cbn; rewrite Hr; walk; lia|]. constructor; [|done].
    split; [done|]. split; [congruence|]. intros b. specialize (Hok b). unfold with_ie, at_ in *. cbn in *.
    rewrite Hn, Ho, Hr in Hok. by rewrite Ho.
  - destruct (Hat _ _ _ _ E) as [[H1 H2 H3 H4] Hw]. cbn in H2, H3. apply Forall_cons in H4 as [(Ho' & Hz' & Hok) H4].
    rewrite Hf in H1. apply ok_rec in H1. cbn in H1. assert (fs = []) as -> by (destruct fs; [done|cbn in H3; lia]).
    apply ok_put_local; [|congruence|apply M]. split; [|cbn; congruence|cbn; lia|done].
    cbn. rewrite H1, Ho, H2, Hz. apply Hok.
Qed.
End Step.

Lemma reachable_ok m0 m : boot m0 -> rtc hart_step m0 m -> exists rec, machine_ok m rec.
Proof.
  intros (Hl & Hh & Hp) H.
  assert (exists rec, machine_ok m0 rec) as H0.
  { exists (fun _ => []). split; [| |by rewrite Hp].
    - intros h. destruct (Hh h) as (ie & s & ->). cbn. split; [|done|cbn; lia|done].
      cbn. unfold stable. cbn. destruct s; walk.
    - assert (forall h, owns m0 h = []) as Ho by (intros h; unfold owns; by destruct (Hh h) as (ie & s & ->)).
      split; intros *; rewrite ?Hl, ?Ho; cbn; try done; [|set_solver..].
      split; [done|]. intros [h Hin]. rewrite Ho in Hin. by apply not_elem_of_nil in Hin. }
  revert H. apply (rtc_ind_r (fun m => exists rec, machine_ok m rec)); [done|].
  intros m1 m2 _ Hs [rec M]. by eapply step_ok.
Qed.

(** C28. Spin locks exclude each other, whatever the harts, the threads that
    are switched between them and the interrupts do: at no time have two harts
    taken the same lock and not released it, and none of the panics of
    acquire, release, pop_off and sched is ever reached. *)
Theorem spin_mutual_exclusion m0 m : boot m0 -> rtc hart_step m0 m ->
  (forall lk h1 h2, lk ∈ owns m h1 -> lk ∈ owns m h2 -> h1 = h2) /\
  (forall h i rest msg, a_code (h_top (m_harts m h)) = i :: rest -> exec h i rest m <> Panic msg).
Proof.
  intros Hb Hr. destruct (reachable_ok m0 m Hb Hr) as [rec M]. split; [apply (mo_locks _ _ M)|].
  intros h i rest msg Hc He. destruct (decide (i = ISwtch)) as [->|Hi].
  - unfold exec in He. destruct (m_harts m h) as [[n ie s] [code old r sv own offs] fs]. done.
  - pose proof (exec_ok m rec M h i rest Hc Hi) as Hw. unfold wp in Hw. by rewrite He in Hw.
Qed.

(** C29. A hart that holds a spin lock, or serves an interrupt, has interrupts
    disabled, however its threads are switched: handlers never nest, none
    interrupts an activation that has a lock, and a hart that spins waits for
    a lock that another hart has. *)
Theorem spin_interrupts m0 m h : boot m0 -> rtc hart_step m0 m ->
  let H := m_harts m h in
  (owns m h <> [] \/ h_stack H <> [] -> sie (h_cpu H) = false) /\
  (length (h_stack H) <= 1)%nat /\ Forall (fun g => a_own g = []) (h_stack H) /\
  (forall lk rest, a_code (h_top H) = ISwap lk :: rest -> locked (m_locks m lk) <> 0 -> exists h', h' <> h /\ lk ∈ owns m h').
Proof.
  intros Hb Hr H. destruct (reachable_ok m0 m Hb Hr) as [rec M]. destruct (mo_hart _ _ M h) as [H1 H2 H3 H4]. fold H in H1, H2, H3, H4.
  split; [|split; [done|split]].
  - intros Hor. destruct (sie (h_cpu H)) eqn:Es; [|done]. destruct (ok_enabled _ _ H1 Es) as (_ & Ho & _ & Hi & _). cbn in Ho, Hi.
    destruct Hor as [Hor|Hor]; [done|]. by destruct (h_stack H).
  - eapply Forall_impl; [exact H4|]. by intros g [Hg _].
  - intros lk rest Hc Hz. rewrite Hc in H1. apply ok_cons in H1. cbn in H1. destruct H1 as [Hn _].
    apply (lo_word _ _ _ (mo_locks _ _ M)) in Hz as [h' Hh']. exists h'. split; [|done]. by intros ->.
Qed.

(** ** Instances *)
Definition boot0 : machine := mkmachine (fun _ => initlock) (fun _ => mkhart (mkcpu 0 false true) idle []) [].
Definition go (h : nat) (m : machine) : machine :=
  match a_code (h_top (m_harts m h)) with
  | i :: rest => match exec h i rest m with Ret _ m' => m' | _ => m end
  | [] => m
  end.
Definition call (h : nat) (code : list instr) (m : machine) : machine :=
  let '(mkhart c f _) := m_harts m h in put_hart h c (mkact code (a_old f) (a_r f) (a_saved f) (a_own f) (a_offs f)) m.

Lemma go_step h m : a_code (h_top (m_harts m h)) !! 0%nat <> Some ISwtch -> rtc hart_step m (go h m).
Proof.
  intros Hn. unfold go. destruct (a_code (h_top (m_harts m h))) as [|i rest] eqn:E; [apply rtc_refl|].
  destruct (exec h i rest m) as [[] m'| |] eqn:He; [|apply rtc_refl..]. apply rtc_once.
  eapply step_exec; [exact E| |exact He]. intros ->. by apply Hn.
Qed.

Lemma call_step h code m : (let '(mkhart _ f fs) := m_harts m h in a_code f = [] /\ calls f fs code) -> rtc hart_step m (call h code m).
Proof.
  intros H. unfold call. destruct (m_harts m h) as [c f fs] eqn:E. destruct H as [H1 H2]. apply rtc_once. by eapply step_call.
Qed.

Lemma go_steps n h m0 m : rtc hart_step m0 m ->
  Forall (fun j => a_code (h_top (m_harts (Nat.iter j (go h) m) h)) !! 0%nat <> Some ISwtch) (seq 0 n) ->
  rtc hart_step m0 (Nat.iter n (go h) m).
Proof.
  intros Hm Hj. induction n as [|n IH]; [done|]. rewrite seq_S, Forall_app in Hj. destruct Hj as [Hj Hn]. apply Forall_cons in Hn as [Hn _].
  transitivity (Nat.iter n (go h) m); [by apply IH|by apply go_step].
Qed.

(** Hart 0 takes lock 5 and is through acquire; hart 1 is interrupted, and its
    handler wants the same lock and spins. *)
Definition taken : machine := Nat.iter 8 (go 0) (call 0 (acquire_code 5) boot0).
Definition trapped : machine :=
  mkmachine (m_locks taken) (nupd 1%nat (mkhart (mkcpu 0 false false) idle [idle]) (m_harts taken)) (m_pool taken).
Definition spinning : machine := Nat.iter 7 (go 1) (call 1 (acquire_code 5) trapped).

Lemma spinning_reached : rtc hart_step boot0 spinning.
Proof.
  apply go_steps; [|repeat (constructor; [by vm_compute|]); constructor]. etrans; [|apply call_step; cbn; split; [done|apply call_acquire, not_elem_of_nil]].
  eapply rtc_r; [|apply (step_trap taken 1 0 false idle []); reflexivity].
  apply go_steps; [|repeat (constructor; [by vm_compute|]); constructor]. apply call_step. cbn. split; [done|]. apply call_acquire, not_elem_of_nil.
Qed.

Lemma boot0_boot : boot boot0.
Proof. split; [done|]. split; [|done]. intros h. by exists false, true. Qed.

Lemma spin_mutual_exclusion_witness : owns spinning 0 = [5%nat] /\ locked (m_locks spinning 5) = 1 /\
  (forall h, 5%nat ∈ owns spinning h -> 0%nat = h) /\ (forall msg, exec 1 (ISwap 5) [ISetCpu 5] spinning <> Panic msg).
Proof.
  split; [reflexivity|]. split; [reflexivity|].
  destruct (spin_mutual_exclusion boot0 spinning boot0_boot spinning_reached) as [H1 H2]. split.
  - intros h Hh. apply (H1 5%nat 0%nat h); [left|exact Hh].
  - intros msg. apply H2. reflexivity.
Defined.

Lemma spin_interrupts_witness : h_stack (m_harts spinning 1) = [idle] /\ sie (h_cpu (m_harts spinning 1)) = false /\
  exists h', h' <> 1%nat /\ 5%nat ∈ owns spinning h'.
Proof.
  destruct (spin_interrupts boot0 spinning 1 boot0_boot spinning_reached) as (H1 & _ & _ & H4).
  split; [reflexivity|]. split; [apply H1; right; discriminate|]. apply (H4 5%nat [ISetCpu 5]); [reflexivity|discriminate].
Defined.
