(* ===== verification/Sched.v ===== *)
(** * Processes, queues and the scheduler (kernel/proc.c)

    The multi-level feedback queue, the context switch into the scheduler as
    a thread sees it, sleeping and waking up, and the operations on a process
    that need no file system. *)

From Stdlib Require Import ZArith Lia.
From stdpp Require Import base list strings sets.
From S2P Require Import Prelude Params Mem State Evict Kalloc Vm.

(** What the other threads, the devices and the other CPUs do while a thread
    is switched out. *)
Class Interference := interf : kernel -> kernel.

Definition getq (level : Z) : KM queue := gets (fun k => aget (k_pqueue k) level).
Definition updq (level : Z) (f : queue -> queue) : KM unit :=
  modify (fun k => k <| k_pqueue ::= aupd level f |>).

(** Every process of the table, in order. *)
Definition for_procs (body : nat -> KM unit) : KM unit :=
  for_range (Z.to_nat NPROC) 0 (fun i => body (Z.to_nat i)).
Definition for_procs_until {A} (body : nat -> KM (option A)) : KM (option A) :=
  for_until (Z.to_nat NPROC) 0 (fun i => body (Z.to_nat i)).

(** ** Queues *)

Definition qinit : KM unit :=
  do! for_range (Z.to_nat LEVELS) 0 (fun i => updq i (set q_tail (fun _ => 0)));
  do! modify (fun k => k <| k_ticks_max ::= aset 0 2 |>);
  for_range (Z.to_nat (LEVELS - 1)) 1 (fun i =>
    let! t := gets (fun k => aget (k_ticks_max k) (i - 1)) in
    modify (fun k => k <| k_ticks_max ::= aset i (t * 2) |>)).

Definition push_proc (p : nat) : KM unit :=
  let! pr := getp p in
  let level := p_qlevel pr in
  do! acquire (L_queue level);
  let! q := getq level in
  let tail := q_tail q in
  do! when (tail <? NPROC)
        (updq level (fun q => q <| q_proc ::= aset tail p |> <| q_tail := tail + 1 |>));
  release (L_queue level).

Definition pop_proc (level : Z) : KM unit :=
  let! q := getq level in
  if q_tail q <? 1 then ret tt
  else
    do! for_range (Z.to_nat (q_tail q - 1)) 1 (fun i =>
      updq level (set q_proc (fun l => aset (i - 1) (aget l i) l)));
    updq level (set q_tail Z.pred).

Definition procinit : KM unit :=
  do! initlock L_pid;
  do! initlock L_wait;
  for_procs (fun i => do! initlock (L_proc i); updp i (fun p => p <| p_state := UNUSED |> <| p_kstack := KSTACK (Z.of_nat i) |>)).

Definition allocpid : KM Z :=
  do! acquire L_pid;
  let! pid := gets k_nextpid in
  do! modify (fun k => k <| k_nextpid := i32 (pid + 1) |>);
  do! release L_pid;
  ret pid.

Section Sched.
Context {I : Interference}.

(** ** Switching *)

(** [swtch] to the scheduler, and back when the scheduler has chosen the
    process again: it set the state and the counter, and it left the CPU
    with the process's lock held. *)
Definition swtch (p : nat) : KM unit := fun k =>
  match k_wakeups k with
  | Some O => Asleep k
  | w =>
      let k1 := interf k in
      Ret tt (k1 <| k_procs ::= alter (fun pr => pr <| p_state := RUNNING |>
                                              <| p_tsched ::= fun t => i32 (t + 1) |>) p |>
                 <| k_cur := Some p |> <| k_held := [L_proc p] |> <| k_wakeups := Nat.pred <$> w |>)
  end.

(** Interrupts are off while a spin lock is held: acquire begins with push_off
    (Spinlock.v).  With no lock held they are on as sstatus says. *)
Definition SSTATUS_SIE : Z := Z.shiftl 1 1.
Definition intr_get : KM bool :=
  gets (fun k => bool_decide (k_held k = []) && has (r_sstatus (k_csr k)) SSTATUS_SIE).

Definition sched : KM unit :=
  let! p := curproc in
  let! held := gets k_held in
  if negb (bool_decide (L_proc p ∈ held)) then panic "sched p->lock"
  else if negb (bool_decide (length held = 1%nat)) then panic "sched locks"
  else
    let! pr := getp p in
    if state_eqb (p_state pr) RUNNING then panic "sched RUNNING"
    else
      let! ie := intr_get in
      if ie then panic "sched interruptible" else swtch p.

Definition yield : KM unit :=
  let! p := curproc in
  do! acquire (L_proc p);
  do! updp p (set p_state (fun _ => RUNNABLE));
  do! sched;
  release (L_proc p).

(** [sleep(chan, lk)] *)
Definition sleep (ch : chan) (lk : lock) : KM unit :=
  let! p := curproc in
  do! acquire (L_proc p);
  do! release lk;
  do! updp p (set p_chan (fun _ => ch));
  do! updp p (set p_state (fun _ => SLEEPING));
  do! sched;
  do! updp p (set p_chan (fun _ => CH_none));
  do! release (L_proc p);
  acquire lk.

Definition wakeup (ch : chan) : KM unit :=
  for_procs (fun i =>
    let! me := myproc in
    if bool_decide (Some i = me) then ret tt
    else
      do! acquire (L_proc i);
      let! p := getp i in
      do! when (state_eqb (p_state p) SLEEPING && bool_decide (p_chan p = ch))
            (do! updp i (set p_state (fun _ => RUNNABLE)); push_proc i);
      release (L_proc i)).

(** ** The clock tick of a running process *)

(** The ticks and the level of the process after a tick: [pticks], [qticks],
    [dSysCount], [qlevel], and whether its slice is used up. *)
Definition event_tick (p : nat) : KM unit :=
  do! acquire (L_proc p);
  do! updp p (set p_pticks (fun t => i32 (t + 1)));
  let! pr := getp p in
  let ptick := p_pticks pr in
  let level := p_qlevel pr in
  do! updp p (set p_qticks (aupd level (fun t => i32 (t + 1))));
  let delta_S := i32 (p_sysCount pr - p_dSysCount pr) in
  let! tmax := gets (fun k => aget (k_ticks_max k) level) in
  let! should_yield :=
    if tmax <=? ptick then
      do! updp p (fun pr => pr <| p_pticks := 0 |> <| p_dSysCount := p_sysCount pr |>);
      do! when ((delta_S <? ptick) && (level <? LEVELS - 1)) (updp p (set p_qlevel Z.succ));
      ret true
    else
      let! r := for_until (Z.to_nat level) 0 (fun i =>
        do! acquire (L_queue i);
        let! q := getq i in
        if negb (q_tail q =? 0) then do! release (L_queue i); ret (Some tt)
        else do! release (L_queue i); ret None) in
      ret (match r with Some _ => true | None => false end) in
  do! when should_yield
        (do! updp p (set p_state (fun _ => RUNNABLE));
         do! push_proc p;
         sched);
  release (L_proc p).

(** ** The scheduler *)

(** The priority boost: empty the queues, then put every process that is
    neither unused, a zombie nor asleep on level 0. *)
Definition mlfq_boost : KM unit :=
  do! for_range (Z.to_nat LEVELS) 0 (fun i =>
    do! acquire (L_queue i);
    do! updq i (set q_tail (fun _ => 0));
    release (L_queue i));
  for_procs (fun i =>
    do! acquire (L_proc i);
    let! p := getp i in
    do! when (negb (state_eqb (p_state p) UNUSED) && negb (state_eqb (p_state p) ZOMBIE)
              && negb (state_eqb (p_state p) SLEEPING))
          (do! updp i (fun p => p <| p_qlevel := 0 |> <| p_pticks := 0 |>
                                  <| p_dSysCount := p_sysCount p |>);
           do! acquire (L_queue 0);
           let! q := getq 0 in
           do! when (q_tail q <? NPROC)
                 (updq 0 (fun q => q <| q_proc ::= aset (q_tail q) i |> <| q_tail ::= Z.succ |>));
           release (L_queue 0));
    release (L_proc i)).

(** One level of the search: take the head off a queue that is not empty, and
    dispatch it if it is runnable. *)
Definition mlfq_level (i : Z) : KM (option nat) :=
  do! acquire (L_queue i);
  let! q := getq i in
  if 0 <? q_tail q then
    let p := aget (q_proc q) 0 in
    do! pop_proc i;
    do! release (L_queue i);
    do! acquire (L_proc p);
    let! pr := getp p in
    if state_eqb (p_state pr) RUNNABLE then
      do! updp p (set p_state (fun _ => RUNNING));
      do! modify (fun k => k <| k_cur := Some p |>);
      do! updp p (set p_tsched (fun t => i32 (t + 1)));
      ret (Some p)
    else do! release (L_proc p); ret None
  else do! release (L_queue i); ret None.

Definition mlfq_pick : KM (option nat) := for_until (Z.to_nat LEVELS) 0 mlfq_level.

(** One iteration of the scheduler's loop.  [run] is what happens between the
    two halves of [swtch]: the process runs and comes back with its lock held. *)
Definition SC_MLFQ_iter (run : nat -> KM unit) : KM bool :=
  do! acquire L_ticks;
  let! gtick := gets k_ticks in
  do! release L_ticks;
  let! id := gets k_cpuid in
  let! last := gets k_last_mod128 in
  do! when ((id =? 0) && (0 <? gtick) && (gtick mod 128 =? 0) && negb (gtick =? u32 last))
        (do! modify (fun k => k <| k_last_mod128 := i32 gtick |>);
         mlfq_boost);
  let! r := mlfq_pick in
  match r with
  | Some p =>
      do! run p;
      do! modify (fun k => k <| k_cur := None |>);
      do! release (L_proc p);
      ret true
  | None => ret false
  end.

(** [n] iterations of [SC_MLFQ]. *)
Fixpoint SC_MLFQ (n : nat) (run : nat -> KM unit) : KM unit :=
  match n with
  | O => ret tt
  | S n' => do! SC_MLFQ_iter run; SC_MLFQ n' run
  end.

(** The round-robin scheduler the repository started from. *)
Definition scheduler_iter (run : nat -> KM unit) : KM bool :=
  for_fold (Z.to_nat NPROC) 0 false (fun i found =>
    let p := Z.to_nat i in
    do! acquire (L_proc p);
    let! pr := getp p in
    let! found :=
      if state_eqb (p_state pr) RUNNABLE then
        do! updp p (set p_state (fun _ => RUNNING));
        do! modify (fun k => k <| k_cur := Some p |>);
        do! run p;
        do! modify (fun k => k <| k_cur := None |>);
        ret true
      else ret found in
    do! release (L_proc p);
    ret found).

(** ** Killing *)

Definition kkill (pid : Z) : KM Z :=
  let! r := for_procs_until (fun i =>
    do! acquire (L_proc i);
    let! p := getp i in
    if p_pid p =? pid then
      do! updp i (set p_killed (fun _ => 1));
      do! when (state_eqb (p_state p) SLEEPING) (updp i (set p_state (fun _ => RUNNABLE)));
      do! release (L_proc i);
      ret (Some 0)
    else do! release (L_proc i); ret None) in
  ret (default (-1) r).

Definition setkilled (p : nat) : KM unit :=
  do! acquire (L_proc p);
  do! updp p (set p_killed (fun _ => 1));
  release (L_proc p).

Definition killed (p : nat) : KM Z :=
  do! acquire (L_proc p);
  let! pr := getp p in
  do! release (L_proc p);
  ret (p_killed pr).
End Sched.
