(* ===== verification/SchedSpec.v ===== *)
(** * What the scheduler's queues compute

    A queue is a FIFO list; the search of the scheduler is a function on the
    lists of the four levels. *)

From Stdlib Require Import ZArith Lia.
From stdpp Require Import base list strings sets.
From S2P Require Import Prelude Params Mem State Evict Kalloc Vm Sched.

(** ** Queues as lists *)

Definition qlist (q : queue) : list nat := take (Z.to_nat (q_tail q)) (q_proc q).

Definition queue_wf (q : queue) : Prop :=
  Z.of_nat (length (q_proc q)) = NPROC /\ 0 <= q_tail q <= NPROC.

Definition queues_wf (k : kernel) : Prop :=
  Z.of_nat (length (k_pqueue k)) = LEVELS /\ Forall queue_wf (k_pqueue k).

Definition queue_at (k : kernel) (level : Z) : queue := aget (k_pqueue k) level.

Lemma queues_wf_at k level : queues_wf k -> 0 <= level < LEVELS -> queue_wf (queue_at k level).
Proof.
  intros [Hl Hf] Hr. unfold queue_at, aget. rewrite Forall_forall in Hf. apply Hf.
  destruct (lookup_lt_is_Some_2 (k_pqueue k) (Z.to_nat level)) as [q Hq]; [lia|].
  rewrite (list_lookup_total_correct _ _ _ Hq). by eapply list_elem_of_lookup_2.
Qed.

(** Replacing one queue by a well-formed one. *)
Lemma queues_wf_upd k level f : queues_wf k -> 0 <= level < LEVELS ->
  (queue_wf (queue_at k level) -> queue_wf (f (queue_at k level))) ->
  queues_wf (k <| k_pqueue ::= aupd level f |>).
Proof.
  intros [Hl Hf] Hr Hq. unfold queues_wf. kproj. split; [by rewrite length_aupd|].
  apply Forall_lookup. intros i q Hi. unfold aupd in Hi. destruct (decide (Z.to_nat level = i)) as [<-|Hne].
  - rewrite list_lookup_alter_eq in Hi. apply fmap_Some in Hi as (y & Hy & ->).
    assert (queue_at k level = y) as <- by (unfold queue_at, aget; by apply list_lookup_total_correct).
    apply Hq. by apply queues_wf_at.
  - rewrite list_lookup_alter_ne in Hi by done. by eapply Forall_lookup_1.
Qed.

Lemma queue_at_upd k level f j : queues_wf k -> 0 <= level < LEVELS -> 0 <= j ->
  queue_at (k <| k_pqueue ::= aupd level f |>) j = if decide (level = j) then f (queue_at k level) else queue_at k j.
Proof. intros [Hl _] Hr Hj. unfold queue_at. kproj. rewrite aget_aupd by lia. done. Qed.

Definition push_queue (p : nat) (q : queue) : queue :=
  if q_tail q <? NPROC then q <| q_proc ::= aset (q_tail q) p |> <| q_tail := q_tail q + 1 |> else q.

Lemma push_queue_wf p q : queue_wf q -> queue_wf (push_queue p q).
Proof.
  intros [Hl Ht]. unfold push_queue. destruct (Z.ltb_spec (q_tail q) NPROC); [|done].
  split; cbn; [by rewrite length_aset|lia].
Qed.

(** Pushing appends, unless all [NPROC] places are taken. *)
Lemma push_queue_list p q : queue_wf q ->
  qlist (push_queue p q) = if decide (Z.of_nat (length (qlist q)) < NPROC) then qlist q ++ [p] else qlist q.
Proof.
  intros [Hl Ht]. assert (Hlen : Z.of_nat (length (qlist q)) = q_tail q) by (unfold qlist; rewrite length_take; lia).
  rewrite Hlen. unfold push_queue. destruct (Z.ltb_spec (q_tail q) NPROC); case_decide; try lia; [|done].
  unfold qlist. cbn [q_tail q_proc set]. change (q_tail (q <| q_proc ::= aset (q_tail q) p |> <| q_tail := q_tail q + 1 |>)) with (q_tail q + 1).
  change (q_proc (q <| q_proc ::= aset (q_tail q) p |> <| q_tail := q_tail q + 1 |>)) with (aset (q_tail q) p (q_proc q)).
  replace (Z.to_nat (q_tail q + 1)) with (S (Z.to_nat (q_tail q))) by lia.
  unfold aset. rewrite (take_S_r _ _ p) by (apply list_lookup_insert_eq; lia).
  by rewrite take_insert_ge by lia.
Qed.

Lemma push_proc_eq p k level : p_qlevel (k_procs k !!! p) = level -> L_queue level ∉ k_held k ->
  queues_wf k -> 0 <= level < LEVELS ->
  push_proc p k = Ret tt (k <| k_pqueue ::= aupd level (push_queue p) |>).
Proof.
  intros Hlev Hl Hwf Hr. apply wp_eq. unfold push_proc, getq. wp_steps. rewrite Hlev. wp_lock. wp_steps. kproj.
  fold (queue_at k level).
  assert (Hupd : forall f g, f (queue_at k level) = g (queue_at k level) ->
    aupd level f (k_pqueue k) = aupd level g (k_pqueue k)).
  { intros f g E. unfold aupd. apply list_alter_ext; [|done]. intros x Hx.
    by rewrite <- (list_lookup_total_correct _ _ _ Hx). }
  destruct (q_tail (queue_at k level) <? NPROC) eqn:Ht; cbn [when].
  - unfold updq. wp_steps. wp_lock. split; [done|]. kext; [|by rewrite unlocked_top].
    apply Hupd. unfold push_queue. by rewrite Ht.
  - wp_steps. wp_lock. split; [done|]. kext; [|by rewrite unlocked_top].
    rewrite (Hupd (push_queue p) id) by (unfold push_queue; by rewrite Ht).
    unfold aupd. symmetry. by apply list_alter_id.
Qed.

(** ** Popping drops the head *)

(** The array once the entries below [n] have been shifted down. *)
Definition shifted (n : Z) (l l' : list nat) : Prop :=
  length l' = length l /\
  forall j, 0 <= j -> l' !! Z.to_nat j = if decide (j < n) then l !! Z.to_nat (j + 1) else l !! Z.to_nat j.

Lemma shifted_step n l l' : 0 <= n < Z.of_nat (length l) - 1 -> shifted n l l' ->
  shifted (n + 1) l (aset n (aget l' (n + 1)) l').
Proof.
  intros Hn [Hlen Hs]. split; [by rewrite length_aset|]. intros j Hj. unfold aset, aget.
  destruct (decide (j = n)) as [->|Hne].
  - rewrite list_lookup_insert_eq by lia. rewrite decide_True by lia.
    specialize (Hs (n + 1) ltac:(lia)). rewrite decide_False in Hs by lia. rewrite <- Hs.
    destruct (lookup_lt_is_Some_2 l' (Z.to_nat (n + 1))) as [x Hx]; [lia|].
    by rewrite Hx, (list_lookup_total_correct _ _ _ Hx).
  - rewrite list_lookup_insert_ne, Hs by lia. repeat case_decide; try lia; done.
Qed.

Lemma aupd_aupd {A} i (f g : A -> A) l : aupd i f (aupd i g l) = aupd i (fun x => f (g x)) l.
Proof. unfold aupd. by rewrite list_alter_alter_eq. Qed.

Lemma aupd_ext_at {A} `{Inhabited A} i (f g : A -> A) l :
  f (aget l i) = g (aget l i) -> aupd i f l = aupd i g l.
Proof.
  intros E. unfold aupd. apply list_alter_ext; [|done]. intros x Hx.
  unfold aget in E. by rewrite (list_lookup_total_correct _ _ _ Hx) in E.
Qed.

Lemma queue_eta q : q <| q_proc := q_proc q |> = q.
Proof. by destruct q. Qed.

Definition popped_queue (q q' : queue) : Prop := queue_wf q' /\ qlist q' = tail (qlist q).

Lemma pop_proc_wp level k : queues_wf k -> 0 <= level < LEVELS ->
  wp (pop_proc level)
    (fun _ k' => exists q', popped_queue (queue_at k level) q' /\
       k' = k <| k_pqueue ::= aupd level (fun _ => q') |>) k.
Proof.
  intros Hwf Hr. pose proof (queues_wf_at k level Hwf Hr) as [Hl Ht]. unfold pop_proc, getq. wp_steps.
  fold (queue_at k level). destruct Hwf as [HL _].
  set (q := queue_at k level) in *. destruct (Z.ltb_spec (q_tail q) 1) as [H0|H1].
  { wp_steps. exists q. split; [split; [done|unfold qlist; by replace (q_tail q) with 0 by lia]|].
    kext. rewrite (aupd_ext_at _ _ id) by done. unfold aupd. symmetry. by apply list_alter_id. }
  wp_steps. unfold updq. eapply wp_mono.
  - apply (wp_for_range _ _ _ (fun i k1 => exists l', shifted (i - 1) (q_proc q) l' /\
      k1 = k <| k_pqueue ::= aupd level (fun q => q <| q_proc := l' |>) |>)).
    + exists (q_proc q). split; [split; [done|]; intros j Hj; by rewrite decide_False by lia|].
      kext. rewrite (aupd_ext_at level _ id) by apply (queue_eta q). unfold aupd. symmetry. by apply list_alter_id.
    + intros i k1 Hi (l' & Hs & ->). wp_steps. exists (aset (i - 1) (aget l' i) l'). split.
      * replace (i + 1 - 1) with (i - 1 + 1) by lia. replace (aget l' i) with (aget l' (i - 1 + 1)) by (f_equal; lia).
        apply shifted_step; [lia|done].
      * kext. rewrite aupd_aupd. done.
  - intros _ k1 (l' & [Hlen Hs] & ->). wp_steps.
    exists (q <| q_proc := l' |> <| q_tail ::= Z.pred |>). split.
    + split; [split; cbn; lia|]. unfold qlist. cbn [q_tail q_proc set].
      change (q_tail (q <| q_proc := l' |> <| q_tail ::= Z.pred |>)) with (Z.pred (q_tail q)).
      change (q_proc (q <| q_proc := l' |> <| q_tail ::= Z.pred |>)) with l'.
      apply list_eq. intros j. destruct (decide (j < Z.to_nat (Z.pred (q_tail q)))%nat) as [Hj|Hj].
      * rewrite lookup_take_lt by lia. rewrite <- (Nat2Z.id j), Hs, decide_True by lia.
        rewrite lookup_tail, lookup_take_lt by lia. f_equal. lia.
      * rewrite lookup_take_ge by lia. rewrite lookup_tail, lookup_take_ge by lia. done.
    + kext. rewrite aupd_aupd. by apply aupd_ext_at.
Qed.

(** ** The search of the scheduler *)

Definition qs (k : kernel) : list (list nat) := qlist <$> k_pqueue k.
Definition runnable (k : kernel) (p : nat) : bool := state_eqb (p_state (k_procs k !!! p)) RUNNABLE.

(** Levels are searched from 0 upwards.  Only the head of a level is looked
    at; it is removed, and dispatched when it is runnable. *)
Fixpoint pick_levels (R : nat -> bool) (l : list (list nat)) : option nat * list (list nat) :=
  match l with
  | [] => (None, [])
  | [] :: r => let x := pick_levels R r in (fst x, [] :: snd x)
  | (p :: t) :: r =>
      if R p then (Some p, t :: r)
      else let x := pick_levels R r in (fst x, t :: snd x)
  end.

Definition dispatch (p : proc) : proc := p <| p_state := RUNNING |> <| p_tsched ::= fun t => i32 (t + 1) |>.

(** The state after the search: [o] is running on this CPU, its lock held. *)
Definition dispatched (o : option nat) (k k' : kernel) : Prop :=
  match o with
  | Some p => k' = k <| k_pqueue := k_pqueue k' |> <| k_procs ::= alter dispatch p |>
                    <| k_cur := Some p |> <| k_held := [L_proc p] |>
  | None => k' = k <| k_pqueue := k_pqueue k' |>
  end.

Lemma mlfq_level_wp i k : queues_wf k -> k_held k = [] -> 0 <= i < LEVELS ->
  wp (mlfq_level i)
    (fun r k' => exists q', queue_wf q' /\ qlist q' = tail (qlist (queue_at k i)) /\
       k_pqueue k' = aupd i (fun _ => q') (k_pqueue k) /\ dispatched r k k' /\
       r = match qlist (queue_at k i) with
           | p :: _ => if runnable k p then Some p else None
           | [] => None
           end) k.
Proof.
  intros Hwf Hh Hi. pose proof (queues_wf_at k i Hwf Hi) as [Hl Ht]. unfold mlfq_level. wp_steps.
  wp_lock. unfold getq. wp_steps. kproj. fold (queue_at k i). set (q := queue_at k i) in *.
  destruct (Z.ltb_spec 0 (q_tail q)) as [Hpos|Hz].
  - wp_steps. eapply wp_mono; [apply pop_proc_wp; done|]. intros _ k1 (q' & [Hq' Hlist] & ->). wp_steps.
    change (queue_at (k <| k_held ::= cons (L_queue i) |>) i) with q in *. wp_lock. kproj. wp_steps.
    destruct (q_proc q) as [|p l] eqn:Eq; [cbn in Hl; unfold NPROC in Hl; lia|].
    assert (Eql : qlist q = p :: take (Z.to_nat (q_tail q) - 1) l)
      by (unfold qlist; rewrite Eq; destruct (Z.to_nat (q_tail q)) eqn:E; [lia|]; cbn; by rewrite Nat.sub_0_r).
    change (aget (p :: l) 0) with p. wp_lock. wp_steps. kproj. fold (runnable k p).
    rewrite Eql in Hlist |- *. destruct (runnable k p).
    + wp_steps. exists q'. split; [done|]. split; [done|]. kproj. split; [done|]. split; [|done].
      kext. * by rewrite list_alter_alter_eq. * by rewrite unlocked_top, Hh by held.
    + wp_steps. wp_lock. wp_steps. exists q'. split; [done|]. split; [done|]. kproj. split; [done|]. split; [|done].
      kext. by rewrite !unlocked_top by held.
  - wp_steps. wp_lock. wp_steps. exists q. assert (Hz0 : q_tail q = 0) by lia.
    assert (Eql : qlist q = []) by (unfold qlist; by rewrite Hz0). rewrite Eql. kproj.
    split; [done|]. split; [done|]. split.
    { rewrite (aupd_ext_at _ _ id) by done. unfold aupd. symmetry. by apply list_alter_id. }
    split; [|done]. kext. by rewrite unlocked_top by held.
Qed.

Lemma qs_upd i q' l : (0 <= i)%Z -> (Z.to_nat i < length l)%nat ->
  qlist <$> aupd i (fun _ => q') l = take (Z.to_nat i) (qlist <$> l) ++ qlist q' :: drop (S (Z.to_nat i)) (qlist <$> l).
Proof.
  intros Hi Hl. unfold aupd. assert (alter (fun _ => q') (Z.to_nat i) l = <[Z.to_nat i := q']> l) as ->.
  { apply list_eq. intros j. destruct (decide (Z.to_nat i = j)) as [<-|Hne].
    - rewrite list_lookup_alter_eq, list_lookup_insert_eq by done.
      by destruct (lookup_lt_is_Some_2 l (Z.to_nat i) Hl) as [x ->].
    - by rewrite list_lookup_alter_ne, list_lookup_insert_ne. }
  rewrite list_fmap_insert. apply insert_take_drop. by rewrite length_fmap.
Qed.

Lemma pick_from n : forall lo k,
  0 <= lo -> lo + Z.of_nat n = LEVELS -> queues_wf k -> k_held k = [] ->
  wp (for_until n lo mlfq_level)
    (fun r k' => let x := pick_levels (runnable k) (drop (Z.to_nat lo) (qs k)) in
       r = fst x /\ qs k' = take (Z.to_nat lo) (qs k) ++ snd x /\ queues_wf k' /\ dispatched r k k') k.
Proof.
  induction n as [|n IH]; intros lo k Hlo Hn Hwf Hh; [|rewrite for_until_S].
  { apply wp_ret. cbv zeta. destruct Hwf as [HL Hf].
    rewrite drop_ge, take_ge by (unfold qs; rewrite length_fmap; lia). cbn.
    rewrite app_nil_r. split; [done|]. split; [done|]. split; [done|]. by destruct k. }
  pose proof Hwf as [HL _]. wp_steps. eapply wp_mono; [apply mlfq_level_wp; [done|done|lia]|].
  intros r k1 (q' & Hq' & Hlist & Hpq & Hdis & ->). cbv zeta.
  assert (Hlt : (Z.to_nat lo < length (k_pqueue k))%nat) by lia.
  assert (Hqs1 : qs k1 = take (Z.to_nat lo) (qs k) ++ qlist q' :: drop (S (Z.to_nat lo)) (qs k))
    by (unfold qs; rewrite Hpq; by apply qs_upd).
  assert (Hwf1 : queues_wf k1).
  { destruct (queues_wf_upd k lo (fun _ => q') Hwf ltac:(lia) ltac:(done)) as [Hw1 Hw2].
    revert Hw1 Hw2. kproj. rewrite <- Hpq. by split. }
  assert (Hd : drop (Z.to_nat lo) (qs k) = qlist (queue_at k lo) :: drop (S (Z.to_nat lo)) (qs k)).
  { apply drop_S. unfold qs. rewrite list_lookup_fmap. unfold queue_at, aget.
    destruct (lookup_lt_is_Some_2 (k_pqueue k) (Z.to_nat lo) Hlt) as [x Hx].
    by rewrite Hx, (list_lookup_total_correct _ _ _ Hx). }
  rewrite Hd. destruct (match qlist (queue_at k lo) with p :: _ => _ | [] => _ end) as [p|] eqn:Em.
  - wp_steps. destruct (qlist (queue_at k lo)) as [|p0 t]; [done|]. cbn [pick_levels tail] in *.
    destruct (runnable k p0); [|done]. injection Em as ->. cbn [fst snd].
    rewrite Hqs1, Hlist. done.
  - assert (Hk1 : k_held k1 = []) by (cbn in Hdis; rewrite Hdis; by kproj).
    assert (HR : runnable k1 = runnable k) by (cbn in Hdis; rewrite Hdis; unfold runnable; by kproj).
    eapply wp_mono; [apply IH; [lia|lia|done|done]|]. cbv zeta. rewrite HR.
    replace (Z.to_nat (lo + 1)) with (S (Z.to_nat lo)) by lia.
    assert (Htl : length (take (Z.to_nat lo) (qs k)) = Z.to_nat lo) by (rewrite length_take; unfold qs; rewrite length_fmap; lia).
    rewrite Hqs1, drop_app_ge, take_app_ge by lia. rewrite Htl.
    replace (S (Z.to_nat lo) - Z.to_nat lo)%nat with 1%nat by lia. cbn [drop take].
    rewrite drop_0, take_0. intros r k2 (Hr & Hq2 & Hwf2 & Hd2).
    assert (Hd02 : dispatched r k k2).
    { cbn in Hdis. destruct r as [p|]; cbn in *; rewrite Hd2, Hdis; kext. }
    destruct (qlist (queue_at k lo)) as [|p0 t]; cbn [pick_levels fst snd tail] in *.
    + split; [done|]. split; [|done]. rewrite Hq2, Hlist. by rewrite <- app_assoc.
    + destruct (runnable k p0); [done|]. cbn [fst snd]. split; [done|]. split; [|done].
      rewrite Hq2, Hlist. by rewrite <- app_assoc.
Qed.
