(* ===== verification/SchedProps.v ===== *)
(** * Properties of the scheduler, with instances

    The search, the clock tick, wakeup and the boost against their
    specifications, and that no process starves after a boost. *)

From Stdlib Require Import ZArith Lia.
From stdpp Require Import base list strings sets.
From S2P Require Import Prelude Params Mem State Evict Kalloc Vm Demo Sched SchedSpec.

(** ** The clock tick *)

(** The process after the tick: one more tick of its slice and of its level,
    and a new slice, one level down if it made fewer system calls than ticks,
    when the slice is used up. *)
Definition ticked (tmax : Z) (p : proc) : proc :=
  let t := i32 (p_pticks p + 1) in
  let p1 := p <| p_pticks := t |> <| p_qticks ::= aupd (p_qlevel p) (fun t => i32 (t + 1)) |> in
  if tmax <=? t then
    p1 <| p_pticks := 0 |> <| p_dSysCount := p_sysCount p |>
       <| p_qlevel := if (i32 (p_sysCount p - p_dSysCount p) <? t) && (p_qlevel p <? LEVELS - 1)
                      then p_qlevel p + 1 else p_qlevel p |>
  else p1.

(** The process gives up the CPU when its slice is used up or when a process
    waits at a better level. *)
Definition must_yield (k : kernel) (p : proc) : bool :=
  (aget (k_ticks_max k) (p_qlevel p) <=? i32 (p_pticks p + 1)) ||
  existsb (fun i => negb (q_tail (queue_at k (Z.of_nat i)) =? 0)) (seq 0 (Z.to_nat (p_qlevel p))).

Lemma higher_queues_wp n : forall lo k, 0 <= lo -> k_held k = [L_proc (default 0%nat (k_cur k))] ->
  wp (for_until n lo (fun i =>
        do! acquire (L_queue i);
        let! q := getq i in
        if negb (q_tail q =? 0) then do! release (L_queue i); ret (Some tt)
        else do! release (L_queue i); ret None))
    (fun r k' => k' = k /\
       (match r with Some _ => true | None => false end) =
       existsb (fun i => negb (q_tail (queue_at k (Z.of_nat i)) =? 0)) (seq (Z.to_nat lo) n)) k.
Proof.
  induction n as [|n IH]; intros lo k Hlo Hh; [by apply wp_ret|]. rewrite for_until_S. wp_steps. wp_lock.
  unfold getq. wp_steps. kproj. fold (queue_at k lo). cbn [seq existsb]. rewrite Z2Nat.id by lia.
  assert (Hk : k <| k_held ::= cons (L_queue lo) |> <| k_held ::= unlocked (L_queue lo) |> = k)
    by (kext; by rewrite unlocked_top by held).
  destruct (q_tail (queue_at k lo) =? 0); cbn [negb orb].
  - wp_steps. wp_lock. wp_steps. rewrite Hk. replace (S (Z.to_nat lo)) with (Z.to_nat (lo + 1)) by lia.
    apply IH; [lia|done].
  - wp_steps. wp_lock. by wp_steps.
Qed.

Section Tick.
Context {I : Interference} {k : kernel} {p : nat} (Hcur : k_cur k = Some p) (Hheld : k_held k = [])
  (Hp : (p < length (k_procs k))%nat) (Hwf : queues_wf k)
  (Hlev : 0 <= p_qlevel (k_procs k !!! p) < LEVELS).
Local Abbreviation pr := (k_procs k !!! p).
Local Abbreviation tmax := (aget (k_ticks_max k) (p_qlevel pr)).
Local Abbreviation pr' := (ticked tmax pr).

Lemma ticked_level : 0 <= p_qlevel pr' < LEVELS.
Proof.
  unfold ticked. destruct (tmax <=? _); [|done]. cbn.
  destruct (_ && _) eqn:E; [|done]. apply andb_true_iff in E as [_ E]. apply Z.ltb_lt in E. lia.
Qed.

(** No reason to yield: only the counters change. *)
Lemma event_tick_stay : must_yield k pr = false ->
  event_tick p k = Ret tt (k <| k_procs ::= alter (ticked tmax) p |>).
Proof.
  intros Hy. unfold must_yield in Hy. apply orb_false_iff in Hy as [Ht Hq].
  apply wp_eq. unfold event_tick. wp_steps. wp_lock. wp_steps. kproj.
  assert (Hl : forall f, alter f p (k_procs k) !!! p = f pr).
  { intros f. destruct (lookup_lt_is_Some_2 _ _ Hp) as [x Hx].
    rewrite !list_lookup_total_alt, list_lookup_alter_eq, Hx. done. }
  rewrite !Hl. cbn [p_pticks p_qlevel p_sysCount p_dSysCount set].
  change (p_qlevel (pr <| p_pticks ::= fun t => i32 (t + 1) |>)) with (p_qlevel pr).
  change (p_pticks (pr <| p_pticks ::= fun t => i32 (t + 1) |>)) with (i32 (p_pticks pr + 1)).
  rewrite Ht. wp_steps. eapply wp_mono.
  { apply higher_queues_wp; [done|]. kproj. rewrite Hcur, Hheld. done. }
  intros r k1 [-> Hr]. wp_steps. rewrite Hr.
  assert (existsb (fun i => negb (q_tail (queue_at (k <| k_held ::= cons (L_proc p) |>
      <| k_procs ::= alter (set p_pticks (fun t => i32 (t + 1))) p |>
      <| k_procs ::= alter (set p_qticks (aupd (p_qlevel pr) (fun t => i32 (t + 1)))) p |>) (Z.of_nat i)) =? 0))
      (seq (Z.to_nat 0) (Z.to_nat (p_qlevel pr))) = false) as -> by (rewrite <- Hq; unfold queue_at; by kproj).
  cbn [when]. wp_steps. wp_lock. split; [done|]. kext; [|by rewrite unlocked_top, Hheld by held].
  rewrite list_alter_alter_eq. apply list_alter_ext; [|done]. intros x Hx.
  rewrite <- (list_lookup_total_correct _ _ _ Hx). unfold ticked. by rewrite Ht.
Qed.

(** Otherwise the process is back in the queue of its level, runnable, when
    it switches to the scheduler. *)
Definition yielded : kernel :=
  k <| k_procs ::= alter (fun q => (ticked tmax q) <| p_state := RUNNABLE |>) p |>
    <| k_pqueue ::= aupd (p_qlevel pr') (push_queue p) |> <| k_held := [L_proc p] |>.

Lemma alter_at f : alter f p (k_procs k) !!! p = f pr.
Proof.
  destruct (lookup_lt_is_Some_2 _ _ Hp) as [x Hx].
  by rewrite !list_lookup_total_alt, list_lookup_alter_eq, Hx.
Qed.

(** The last part of [event_tick], from a state in which the counters are
    up to date. *)
Lemma tick_switch k1 f :
  k1 = k <| k_held ::= cons (L_proc p) |> <| k_procs ::= alter f p |> -> f pr = pr' -> k_wakeups k = Some 0%nat ->
  (do! when true
         (do! updp p (set p_state (fun _ => RUNNABLE));
          do! push_proc p;
          sched);
   release (L_proc p)) k1 = Asleep yielded.
Proof.
  intros -> Hf Hw.
  assert (H : wps (do! when true
         (do! updp p (set p_state (fun _ => RUNNABLE));
          do! push_proc p;
          sched);
   release (L_proc p)) (fun _ _ => False) (fun k' => k' = yielded)
      (k <| k_held ::= cons (L_proc p) |> <| k_procs ::= alter f p |>));
    [|revert H; unfold wps; destruct (bind _ _ _); [done|done|by intros ->]].
  cbn [when]. wps_run. apply wp_wps. eapply wp_Ret.
  { apply (push_proc_eq p _ (p_qlevel pr')); [|held| |apply ticked_level].
    - kproj. rewrite list_alter_alter_eq, alter_at. cbn. by rewrite Hf.
    - apply Hwf. }
  unfold sched, curproc. wps_run. kproj. rewrite Hcur. wps_run. kproj. rewrite Hheld.
  rewrite (bool_decide_eq_true_2 (L_proc p ∈ [L_proc p])) by set_solver. cbn [negb length].
  rewrite bool_decide_eq_true_2 by done. cbn [negb]. wps_run. kproj. rewrite list_alter_alter_eq, alter_at.
  cbn [p_state]. change (state_eqb _ RUNNING) with false. cbv iota.
  unfold intr_get. wps_run. kproj. rewrite Hheld, (bool_decide_eq_false_2 (_ = [])) by done. cbn [andb].
  unfold wps, swtch. kproj. rewrite Hw. unfold yielded. kext; [|by rewrite Hheld].
  rewrite list_alter_alter_eq. apply list_alter_ext; [|done]. intros x Hx.
  apply list_lookup_total_correct in Hx. subst x. unfold compose. by rewrite Hf.
Qed.

Lemma event_tick_switch : must_yield k pr = true -> k_wakeups k = Some 0%nat -> event_tick p k = Asleep yielded.
Proof.
  intros Hy Hw. unfold event_tick. erewrite bind_Ret by (apply acquire_eq; held).
  unfold bind at 1, updp at 1, modify. unfold bind at 1, getp, gets. kproj. rewrite alter_at.
  change (p_qlevel (set p_pticks _ pr)) with (p_qlevel pr).
  change (p_pticks (set p_pticks _ pr)) with (i32 (p_pticks pr + 1)).
  change (p_sysCount (set p_pticks _ pr)) with (p_sysCount pr).
  change (p_dSysCount (set p_pticks _ pr)) with (p_dSysCount pr). cbv beta zeta.
  unfold bind at 1, updp at 1, modify. unfold bind at 1. kproj. unfold must_yield in Hy.
  destruct (tmax <=? i32 (p_pticks pr + 1)) eqn:Ht.
  - destruct ((i32 (p_sysCount pr - p_dSysCount pr) <? i32 (p_pticks pr + 1)) && (p_qlevel pr <? LEVELS - 1)) eqn:Hd.
    + erewrite bind_Ret by (unfold bind, updp, modify, when, ret; reflexivity).
      eapply tick_switch; [kext; by rewrite !list_alter_alter_eq| |done].
      unfold compose, ticked. rewrite Ht, Hd. by destruct pr.
    + erewrite bind_Ret by (unfold bind, updp, modify, when, ret; reflexivity).
      eapply tick_switch; [kext; by rewrite !list_alter_alter_eq| |done].
      unfold compose, ticked. rewrite Ht, Hd. by destruct pr.
  - cbn [orb] in Hy.
    match goal with |- bind (bind ?m _) _ ?k1 = _ =>
      assert (Hm : wp m (fun r k' => k' = k1 /\ (match r with Some _ => true | None => false end) = true) k1) end.
    { eapply wp_mono; [apply higher_queues_wp; [done|kproj; by rewrite Hcur, Hheld]|]. cbv beta.
      intros r k1 [-> Hr]. split; [done|]. rewrite Hr, <- Hy. unfold queue_at. by kproj. }
    apply wp_inv in Hm as (r & k1 & Hm & -> & Hr).
    erewrite bind_Ret; [|rewrite (bind_Ret _ _ _ _ _ Hm); unfold ret; by rewrite Hr].
    eapply tick_switch; [kext; by rewrite !list_alter_alter_eq| |done]. unfold compose, ticked. by rewrite Ht.
Qed.
End Tick.

(** ** Waking up *)

Definition enqueue (l : list nat) (p : nat) : list nat :=
  if decide (Z.of_nat (length l) < NPROC) then l ++ [p] else l.

(** The processes [wakeup(ch)] makes runnable. *)
Definition woken (k : kernel) (ch : chan) (i : nat) : bool :=
  negb (bool_decide (Some i = k_cur k)) && state_eqb (p_state (k_procs k !!! i)) SLEEPING
  && bool_decide (p_chan (k_procs k !!! i) = ch).

Definition levels_ok (k : kernel) : Prop :=
  Z.of_nat (length (k_procs k)) = NPROC /\
  forall i, (i < Z.to_nat NPROC)%nat -> 0 <= p_qlevel (k_procs k !!! i) < LEVELS.

(** Locks [wakeup] takes. *)
Definition wakeup_unlocked (k : kernel) : Prop :=
  (forall i, Some i <> k_cur k -> L_proc i ∉ k_held k) /\ forall l, L_queue l ∉ k_held k.

(** [k'] is [k] after the processes below [n] have been looked at. *)
Record waking (ch : chan) (k : kernel) (n : nat) (k' : kernel) : Prop := {
  wk_frame : k' = k <| k_procs := k_procs k' |> <| k_pqueue := k_pqueue k' |>;
  wk_len : length (k_procs k') = length (k_procs k);
  wk_proc i : k_procs k' !!! i =
    if decide (i < n)%nat then (if woken k ch i then (k_procs k !!! i) <| p_state := RUNNABLE |> else k_procs k !!! i)
    else k_procs k !!! i;
  wk_wf : queues_wf k';
  wk_queue level : 0 <= level < LEVELS -> qlist (queue_at k' level) =
    foldl enqueue (qlist (queue_at k level))
      (filter (fun i => woken k ch i = true /\ p_qlevel (k_procs k !!! i) = level) (seq 0 n))
}.

Lemma waking_skip ch k n k' : waking ch k n k' -> woken k ch n = false -> waking ch k (S n) k'.
Proof.
  intros [F Ln P W Q] Hw. split; [done|done| |done|].
  - intros i. rewrite P. destruct (decide (i < S n)%nat), (decide (i < n)%nat); try lia; try done.
    assert (i = n) as -> by lia. by rewrite Hw.
  - intros level Hl. rewrite Q by done. rewrite seq_S, filter_app, foldl_app. cbn [Nat.add].
    rewrite filter_cons_False by naive_solver congruence. done.
Qed.

Lemma waking_hit ch k n k' :
  (n < length (k_procs k))%nat -> 0 <= p_qlevel (k_procs k !!! n) < LEVELS ->
  waking ch k n k' -> woken k ch n = true ->
  waking ch k (S n) (k' <| k_procs ::= alter (set p_state (fun _ => RUNNABLE)) n |>
                        <| k_pqueue ::= aupd (p_qlevel (k_procs k !!! n)) (push_queue n) |>).
Proof.
  intros Hn Hlev [F Ln P W Q] Hw.
  assert (Hat : k_procs k' !!! n = k_procs k !!! n) by (by rewrite P, decide_False by lia).
  split; kproj.
  - rewrite F. kext.
  - by rewrite length_alter.
  - intros i. destruct (decide (n = i)) as [<-|Hne].
    + rewrite decide_True, Hw by lia. destruct (lookup_lt_is_Some_2 (k_procs k') n) as [x Hx]; [lia|].
      rewrite list_lookup_total_alt, list_lookup_alter_eq, Hx. cbn.
      rewrite <- Hat. by rewrite (list_lookup_total_correct _ _ _ Hx).
    + rewrite list_lookup_total_alt, list_lookup_alter_ne, <- list_lookup_total_alt, P by done.
      destruct (decide (i < S n)%nat), (decide (i < n)%nat); try lia; done.
  - apply (queues_wf_upd (k' <| k_procs ::= _ |>)); [done|done|apply push_queue_wf].
  - intros level Hl. rewrite queue_at_upd by (done || lia).
    change (queue_at (k' <| k_procs ::= alter (set p_state (fun _ => RUNNABLE)) n |>)) with (queue_at k').
    rewrite seq_S, filter_app, foldl_app. cbn [Nat.add]. case_decide as E.
    + subst level. rewrite filter_cons_True by done. cbn. rewrite <- Q by done.
      by rewrite push_queue_list by (by apply queues_wf_at).
    + rewrite filter_cons_False by naive_solver. cbn. by apply Q.
Qed.

Lemma wakeup_wp ch k : queues_wf k -> levels_ok k -> wakeup_unlocked k ->
  wp (wakeup ch) (fun _ k' => waking ch k (Z.to_nat NPROC) k') k.
Proof.
  intros Hwf [Hlen Hlev] [Hlp Hlq]. unfold wakeup, for_procs.
  eapply wp_mono; [apply (wp_for_range _ _ _ (fun i k' => waking ch k (Z.to_nat i) k'))|].
  - split; [kext|done|intros i; by rewrite decide_False by lia|done|done].
  - intros i k' Hi Hk. set (n := Z.to_nat i). replace (Z.to_nat (i + 1)) with (S n) by lia.
    pose proof (wk_frame _ _ _ _ Hk) as F.
    assert (Hcur : k_cur k' = k_cur k) by (rewrite F; by kproj).
    assert (Hh : k_held k' = k_held k) by (rewrite F; by kproj).
    assert (Hat : k_procs k' !!! n = k_procs k !!! n) by (by rewrite (wk_proc _ _ _ _ Hk), decide_False by lia).
    wp_steps. rewrite Hcur. destruct (bool_decide (Some n = k_cur k)) eqn:Hme.
    + wp_steps. apply waking_skip; [done|]. unfold woken. by rewrite Hme.
    + apply bool_decide_eq_false in Hme. wp_steps. apply wp_acquire; [rewrite Hh; by apply Hlp|]. wp_steps. kproj.
      rewrite Hat. assert (HL : unlocked (L_proc n) (L_proc n :: k_held k') = k_held k')
        by (apply unlocked_top; rewrite Hh; by apply Hlp).
      destruct (state_eqb (p_state (k_procs k !!! n)) SLEEPING && bool_decide (p_chan (k_procs k !!! n) = ch)) eqn:Hc;
        cbn [when]; wp_steps.
      * eapply wp_Ret; [apply (push_proc_eq n _ (p_qlevel (k_procs k !!! n)))|].
        -- kproj. rewrite (proj_alter p_qlevel) by done. by rewrite Hat.
        -- kproj. rewrite Hh. specialize (Hlq (p_qlevel (k_procs k !!! n))). set_solver.
        -- apply Hk.
        -- apply Hlev. lia.
        -- wp_lock. match goal with |- waking _ _ _ ?x =>
             replace x with (k' <| k_procs ::= alter (set p_state (fun _ => RUNNABLE)) n |>
                        <| k_pqueue ::= aupd (p_qlevel (k_procs k !!! n)) (push_queue n) |>)
             by (kext; by rewrite HL) end.
           apply waking_hit; [lia|apply Hlev; lia|done|]. unfold woken.
           rewrite bool_decide_eq_false_2 by done. by rewrite <- andb_assoc, Hc.
      * wp_lock. match goal with |- waking _ _ _ ?x => replace x with k' by (kext; by rewrite HL) end.
        apply waking_skip; [done|]. unfold woken. by rewrite <- andb_assoc, Hc, andb_false_r.
  - intros u k' H. exact H.
Qed.

(** ** Killing *)

(** The first process with this pid. *)
Definition first_pid (k : kernel) (pid : Z) (i : nat) : Prop :=
  (i < Z.to_nat NPROC)%nat /\ p_pid (k_procs k !!! i) = pid /\
  forall j, (j < i)%nat -> p_pid (k_procs k !!! j) <> pid.

Definition kill_proc (p : proc) : proc :=
  if state_eqb (p_state p) SLEEPING then p <| p_killed := 1 |> <| p_state := RUNNABLE |> else p <| p_killed := 1 |>.

Lemma kkill_wp pid k : (forall i, L_proc i ∉ k_held k) -> (Z.to_nat NPROC <= length (k_procs k))%nat ->
  wp (kkill pid)
    (fun r k' => (r = 0 /\ exists i, first_pid k pid i /\ k' = k <| k_procs ::= alter kill_proc i |>) \/
       (r = -1 /\ k' = k /\ forall i, (i < Z.to_nat NPROC)%nat -> p_pid (k_procs k !!! i) <> pid)) k.
Proof.
  intros Hl Hlen. unfold kkill, for_procs_until. wp_steps. eapply wp_mono.
  - apply (wp_for_until _ _ _
      (fun i k' => k' = k /\ forall j, (j < Z.to_nat i)%nat -> p_pid (k_procs k !!! j) <> pid)
      (fun r k' => r = 0 /\ exists i, first_pid k pid i /\ k' = k <| k_procs ::= alter kill_proc i |>)).
    + split; [done|]. lia.
    + intros i k' Hi [-> Hno]. set (n := Z.to_nat i) in *. pose proof (Hl n) as Hln.
      assert (HL : unlocked (L_proc n) (L_proc n :: k_held k) = k_held k) by (by apply unlocked_top).
      wp_steps. wp_lock. wp_steps. kproj. destruct (Z.eqb_spec (p_pid (k_procs k !!! n)) pid) as [He|He].
      * assert (Hat : exists x, k_procs k !! n = Some x /\ k_procs k !!! n = x).
        { destruct (lookup_lt_is_Some_2 (k_procs k) n) as [x Hx]; [lia|].
          exists x. split; [done|]. by apply list_lookup_total_correct. }
        destruct Hat as (x & Hx & Hat). rewrite Hat.
        destruct (state_eqb (p_state x) SLEEPING) eqn:Hs; cbn [when]; wp_run; (split; [done|]);
          exists n; (split; [by split; [lia|split]|]); kext; rewrite ?HL, ?list_alter_alter_eq; try done;
          apply list_alter_ext; try done; intros y Hy; simplify_eq; unfold compose, kill_proc; by rewrite Hs.
      * wp_steps. wp_lock. wp_steps. split; [kext; by rewrite HL|]. intros j Hj.
        destruct (decide (j = n)) as [->|]; [done|]. apply Hno. lia.
  - intros [r|] k'; cbn [default]; intros H; wp_steps; [by left|right]. destruct H as [-> Hno].
    split; [done|]. split; [done|]. intros i Hi. apply Hno. lia.
Qed.

(** ** The priority boost *)

Definition active (p : proc) : bool :=
  negb (state_eqb (p_state p) UNUSED) && negb (state_eqb (p_state p) ZOMBIE) && negb (state_eqb (p_state p) SLEEPING).

Definition boost_proc (p : proc) : proc :=
  p <| p_qlevel := 0 |> <| p_pticks := 0 |> <| p_dSysCount := p_sysCount p |>.

Lemma empty_queues_wp k : queues_wf k -> k_held k = [] ->
  wp (for_range (Z.to_nat LEVELS) 0 (fun i =>
        do! acquire (L_queue i);
        do! updq i (set q_tail (fun _ => 0));
        release (L_queue i)))
    (fun _ k' => k' = k <| k_pqueue := k_pqueue k' |> /\ queues_wf k' /\
       forall level, 0 <= level < LEVELS -> q_tail (queue_at k' level) = 0) k.
Proof.
  intros Hwf Hh. eapply wp_mono; [apply (wp_for_range _ _ _ (fun i k' => k' = k <| k_pqueue := k_pqueue k' |> /\
    queues_wf k' /\ forall level, 0 <= level < i -> q_tail (queue_at k' level) = 0))|].
  - split; [kext|]. split; [done|]. lia.
  - intros i k' Hi (F & Hwf' & Hz). assert (Hh' : k_held k' = []) by (rewrite F; by kproj).
    assert (Hi' : 0 <= i < LEVELS) by lia. unfold updq. wp_run.
    match goal with |- ?x = _ /\ _ => replace x with (k' <| k_pqueue ::= aupd i (set q_tail (fun _ => 0)) |>)
      by (kext; by rewrite unlocked_top by held) end.
    split; [rewrite F; kext|]. split.
    + apply queues_wf_upd; [done|done|]. intros [Hl Ht]. split; cbn; [done|unfold NPROC; lia].
    + intros level Hlv. rewrite queue_at_upd by (done || lia). case_decide; [done|]. apply Hz. lia.
  - intros u k' (F & Hwf' & Hz). split; [done|]. split; [done|]. intros level Hl. apply Hz. lia.
Qed.

(** [k'] is [k] after the processes below [n] have been boosted. *)
Record boosting (k : kernel) (n : nat) (k' : kernel) : Prop := {
  bo_frame : k' = k <| k_procs := k_procs k' |> <| k_pqueue := k_pqueue k' |>;
  bo_len : length (k_procs k') = length (k_procs k);
  bo_proc i : k_procs k' !!! i =
    if decide (i < n)%nat then (if active (k_procs k !!! i) then boost_proc (k_procs k !!! i) else k_procs k !!! i)
    else k_procs k !!! i;
  bo_wf : queues_wf k';
  bo_queue level : 0 <= level < LEVELS -> qlist (queue_at k' level) =
    if decide (level = 0) then filter (fun i => active (k_procs k !!! i) = true) (seq 0 n) else []
}.

Lemma boosting_skip k n k' : boosting k n k' -> active (k_procs k !!! n) = false -> boosting k (S n) k'.
Proof.
  intros [F Ln P W Q] Hw. split; [done|done| |done|].
  - intros i. rewrite P. destruct (decide (i < S n)%nat), (decide (i < n)%nat); try lia; try done.
    assert (i = n) as -> by lia. by rewrite Hw.
  - intros level Hl. rewrite Q by done. case_decide; [|done]. rewrite seq_S, filter_app. cbn [Nat.add].
    rewrite filter_cons_False by congruence. by rewrite app_nil_r.
Qed.

Lemma filter_seq_length (P : nat -> bool) n : (length (filter (fun i => P i = true) (seq 0 n)) <= n)%nat.
Proof. rewrite <- (length_seq n 0) at 2. apply length_filter. Qed.

Lemma boosting_hit k n k' :
  (n < length (k_procs k))%nat -> (n < Z.to_nat NPROC)%nat -> boosting k n k' -> active (k_procs k !!! n) = true ->
  boosting k (S n) (k' <| k_procs ::= alter boost_proc n |> <| k_pqueue ::= aupd 0 (push_queue n) |>).
Proof.
  intros Hn HN [F Ln P W Q] Hw.
  assert (Hat : k_procs k' !!! n = k_procs k !!! n) by (by rewrite P, decide_False by lia).
  split; kproj.
  - rewrite F. kext.
  - by rewrite length_alter.
  - intros i. destruct (decide (n = i)) as [<-|Hne].
    + rewrite decide_True, Hw by lia. destruct (lookup_lt_is_Some_2 (k_procs k') n) as [x Hx]; [lia|].
      rewrite list_lookup_total_alt, list_lookup_alter_eq, Hx. cbn [from_option fmap option_fmap option_map].
      rewrite <- Hat. by rewrite (list_lookup_total_correct _ _ _ Hx).
    + rewrite list_lookup_total_alt, list_lookup_alter_ne, <- list_lookup_total_alt, P by done.
      destruct (decide (i < S n)%nat), (decide (i < n)%nat); try lia; done.
  - apply (queues_wf_upd (k' <| k_procs ::= _ |>)); [done|done|apply push_queue_wf].
  - intros level Hl. rewrite queue_at_upd by (done || lia).
    change (queue_at (k' <| k_procs ::= alter boost_proc n |>)) with (queue_at k').
    destruct (decide (0 = level)) as [<-|Hne]; [|rewrite Q, !decide_False by congruence; done].
    rewrite push_queue_list by (apply queues_wf_at; done). rewrite Q by done. rewrite !(decide_True (P := 0 = 0)) by done.
    rewrite decide_True by (pose proof (filter_seq_length (fun i => active (k_procs k !!! i)) n); lia).
    rewrite seq_S, filter_app. cbn [Nat.add]. by rewrite filter_cons_True.
Qed.

Lemma mlfq_boost_wp k : queues_wf k -> k_held k = [] -> Z.of_nat (length (k_procs k)) = NPROC ->
  wp mlfq_boost (fun _ k' => boosting k (Z.to_nat NPROC) k') k.
Proof.
  intros Hwf Hh Hlen. unfold mlfq_boost. wp_steps.
  eapply wp_mono; [by apply empty_queues_wp|]. intros _ k0 (F0 & Hwf0 & Hz). unfold for_procs.
  eapply wp_mono; [apply (wp_for_range _ _ _ (fun i k' => boosting k (Z.to_nat i) k'))|].
  - assert (Hp0 : k_procs k0 = k_procs k) by (rewrite F0; by kproj). split.
    + rewrite F0. kext.
    + by rewrite Hp0.
    + intros i. by rewrite decide_False, Hp0 by lia.
    + done.
    + intros level Hl. unfold qlist. rewrite Hz by done. by case_decide.
  - intros i k' Hi Hk. set (n := Z.to_nat i). replace (Z.to_nat (i + 1)) with (S n) by lia.
    pose proof (bo_frame _ _ _ Hk) as F. assert (Hh' : k_held k' = []) by (rewrite F; by kproj).
    assert (Hat : k_procs k' !!! n = k_procs k !!! n) by (by rewrite (bo_proc _ _ _ Hk), decide_False by lia).
    wp_run. kproj. rewrite Hat. fold (active (k_procs k !!! n)). destruct (active (k_procs k !!! n)) eqn:Ha; cbn [when].
    + wp_run. unfold getq. wp_run. kproj. fold (queue_at k' 0).
      pose proof (queues_wf_at k' 0 (bo_wf _ _ _ Hk) ltac:(done)) as Hq0.
      assert (Ht : (q_tail (queue_at k' 0) <? NPROC) = true).
      { apply Z.ltb_lt. destruct Hq0 as [Hl0 Ht0]. pose proof (bo_queue _ _ _ Hk 0 ltac:(done)) as Hq.
        rewrite decide_True in Hq by done. apply (f_equal length) in Hq. unfold qlist in Hq. rewrite length_take in Hq.
        pose proof (filter_seq_length (fun i => active (k_procs k !!! i)) (Z.to_nat i)) as Hf. lia. }
      rewrite Ht. cbn [when]. unfold updq. wp_run.
      match goal with |- boosting _ _ ?x =>
        replace x with (k' <| k_procs ::= alter boost_proc n |> <| k_pqueue ::= aupd 0 (push_queue n) |>) end.
      * apply boosting_hit; [lia|lia|done|done].
      * kext; [|by rewrite !unlocked_top by held]. apply aupd_ext_at. fold (queue_at k' 0). unfold push_queue. by rewrite Ht.
    + wp_run. match goal with |- boosting _ _ ?x => replace x with k' by (kext; by rewrite unlocked_top by held) end.
      by apply boosting_skip.
  - intros u k' H. exact H.
Qed.

(** ** Properties of the scheduler, with instances *)

(** A machine with a running process (0), two runnable ones at level 0 (1 and
    2) and a sleeping one (3) at level 1, in no queue. *)
Definition sproc (st : procstate) (pid lev : Z) : proc :=
  proc0 <| p_state := st |> <| p_pid := pid |> <| p_qlevel := lev |>.

Definition mlfq0 : kernel :=
  demo <| k_procs := sproc RUNNING 1 0 :: sproc RUNNABLE 2 0 :: sproc RUNNABLE 3 0
                     :: (sproc SLEEPING 4 1) <| p_chan := CH_ticks |> :: replicate 60 proc0 |>
       <| k_pqueue ::= aset 0 (mkqueue (1%nat :: 2%nat :: replicate 62 0%nat) 2) |>.

Lemma mlfq0_wf : queues_wf mlfq0.
Proof. split; [done|]. repeat constructor; done. Qed.

Lemma mlfq0_levels : levels_ok mlfq0.
Proof. split; [done|]. intros i Hi. apply (Forall_lookup_total_1 (fun p => 0 <= p_qlevel p < LEVELS)); [repeat constructor; done|exact Hi]. Qed.

Lemma pick_levels_In R l p : fst (pick_levels R l) = Some p -> exists q, q ∈ l /\ p ∈ q.
Proof.
  induction l as [|[|x t] r IH]; cbn; [done| |].
  - intros H. destruct (IH H) as (q & ? & ?). exists q. split; [by right|done].
  - destruct (R x); cbn; [intros [= <-]; exists (x :: t); split; left|].
    intros H. destruct (IH H) as (q & ? & ?). exists q. split; [by right|done].
Qed.

Lemma pick_levels_rest R l q : q ∈ snd (pick_levels R l) -> exists q', q' ∈ l /\ forall p, p ∈ q -> p ∈ q'.
Proof.
  revert q. induction l as [|[|x t] r IH]; cbn; intros q Hq; [by apply not_elem_of_nil in Hq| |].
  - apply elem_of_cons in Hq as [->|Hq]; [exists []; split; [left|done]|].
    destruct (IH _ Hq) as (q' & ? & ?). exists q'. split; [by right|done].
  - destruct (R x); cbn in Hq; apply elem_of_cons in Hq as [->|Hq].
    + exists (x :: t). split; [left|by right].
    + exists q. split; [by right|done].
    + exists (x :: t). split; [left|by right].
    + destruct (IH _ Hq) as (q' & ? & ?). exists q'. split; [by right|done].
Qed.

Lemma first_pid_unique k pid i j : first_pid k pid i -> first_pid k pid j -> i = j.
Proof.
  intros (_ & Hi & Hi') (_ & Hj & Hj'). destruct (Nat.lt_total i j) as [H|[H|H]]; [|done|].
  - by destruct (Hj' i H).
  - by destruct (Hi' j H).
Qed.

(** C7. The scheduler's search implements [pick_levels]: levels are tried from
    0 upwards, the head of each non-empty queue is removed, and the first head
    that is runnable is dispatched: it is [RUNNING], its count of dispatches is
    one higher, it is the current process and its lock is the only one held.
    When no head is runnable, only the queues change. *)
Theorem mlfq_pick_spec k : queues_wf k -> k_held k = [] ->
  wp mlfq_pick (fun r k' =>
    r = fst (pick_levels (runnable k) (qs k)) /\ qs k' = snd (pick_levels (runnable k) (qs k)) /\
    queues_wf k' /\ dispatched r k k') k.
Proof. intros Hwf Hh. by apply (pick_from 4 0 k). Qed.

Lemma mlfq_pick_spec_witness : fst (pick_levels (runnable mlfq0) (qs mlfq0)) = Some 1%nat /\
  wp mlfq_pick (fun r k' =>
    r = fst (pick_levels (runnable mlfq0) (qs mlfq0)) /\ qs k' = snd (pick_levels (runnable mlfq0) (qs mlfq0)) /\
    queues_wf k' /\ dispatched r mlfq0 k') mlfq0.
Proof. split; [vm_compute; reflexivity|]. apply mlfq_pick_spec; [apply mlfq0_wf|reflexivity]. Defined.

(** C8. The clock tick of a running process: it stays on the CPU with its
    counters updated unless its slice is used up or a better level has a
    waiting process; then it goes, runnable, to the end of the queue of its
    level, which is one lower exactly when it used up the slice making fewer
    system calls than ticks and was not at the lowest level, and control goes
    to the scheduler with the process lock as the only lock held. *)
Theorem event_tick_spec (I : Interference) k p :
  k_cur k = Some p -> k_held k = [] -> (p < length (k_procs k))%nat -> queues_wf k ->
  0 <= p_qlevel (k_procs k !!! p) < LEVELS -> k_wakeups k = Some 0%nat ->
  event_tick p k =
    if must_yield k (k_procs k !!! p) then Asleep (@yielded k p)
    else Ret tt (k <| k_procs ::= alter (ticked (aget (k_ticks_max k) (p_qlevel (k_procs k !!! p)))) p |>).
Proof.
  intros Hc Hh Hp Hwf Hl Hw. destruct (must_yield k (k_procs k !!! p)) eqn:E.
  - by apply event_tick_switch.
  - by apply event_tick_stay.
Qed.

Lemma event_tick_spec_witness :
  @event_tick (fun k => k) 0%nat mlfq0 =
    Ret tt (mlfq0 <| k_procs ::= alter (ticked 2) 0%nat |>) /\ k_cur mlfq0 = Some 0%nat.
Proof.
  split; [|reflexivity]. refine (eq_trans (event_tick_spec (fun k => k) mlfq0 0%nat _ _ _ _ _ _) _);
    [reflexivity|reflexivity|cbn; lia|apply mlfq0_wf|split; [discriminate|reflexivity]|reflexivity|].
  reflexivity.
Defined.

(** C22. [wakeup] on a channel makes runnable exactly the processes that sleep
    on it, other than the caller, and appends each, in table order, to the
    queue of its level, as long as that queue has room; nothing else of the
    machine changes. *)
Theorem wakeup_spec ch k : queues_wf k -> levels_ok k -> wakeup_unlocked k ->
  wp (wakeup ch) (fun _ k' =>
    k' = k <| k_procs := k_procs k' |> <| k_pqueue := k_pqueue k' |> /\ queues_wf k' /\
    (forall i, (i < Z.to_nat NPROC)%nat -> k_procs k' !!! i =
       if woken k ch i then (k_procs k !!! i) <| p_state := RUNNABLE |> else k_procs k !!! i) /\
    (forall level, 0 <= level < LEVELS -> qlist (queue_at k' level) =
       foldl enqueue (qlist (queue_at k level))
         (filter (fun i => woken k ch i = true /\ p_qlevel (k_procs k !!! i) = level) (seq 0 (Z.to_nat NPROC))))) k.
Proof.
  intros Hwf Hl Hu. eapply wp_mono; [by apply wakeup_wp|]. intros _ k' [F _ P W Q].
  split; [done|]. split; [done|]. split; [|done]. intros i Hi. by rewrite P, decide_True.
Qed.

Lemma wakeup_spec_witness : woken mlfq0 CH_ticks 3 = true /\
  wp (wakeup CH_ticks) (fun _ k' => p_state (k_procs k' !!! 3%nat) = RUNNABLE /\ qlist (queue_at k' 1) = [3%nat]) mlfq0.
Proof.
  split; [reflexivity|]. eapply wp_mono.
  - apply (wakeup_spec CH_ticks mlfq0); [apply mlfq0_wf|apply mlfq0_levels|].
    split; intros; change (k_held mlfq0) with (@nil lock); apply not_elem_of_nil.
  - cbv beta. intros _ k' (_ & _ & P & Q). split.
    + rewrite P by (apply Nat.ltb_lt; reflexivity). reflexivity.
    + rewrite Q by (split; [discriminate|reflexivity]). vm_compute. reflexivity.
Defined.

(** C39. The priority boost restarts the feedback: every process that is not
    unused, a zombie or asleep is at level 0 with a fresh slice; the queue of
    level 0 holds exactly these processes, in table order, and every other
    queue is empty.  A process that is [RUNNING] or [USED] is queued as well. *)
Theorem mlfq_boost_spec k : queues_wf k -> k_held k = [] -> Z.of_nat (length (k_procs k)) = NPROC ->
  wp mlfq_boost (fun _ k' =>
    k' = k <| k_procs := k_procs k' |> <| k_pqueue := k_pqueue k' |> /\ queues_wf k' /\
    (forall i, (i < Z.to_nat NPROC)%nat -> k_procs k' !!! i =
       if active (k_procs k !!! i) then boost_proc (k_procs k !!! i) else k_procs k !!! i) /\
    qlist (queue_at k' 0) = filter (fun i => active (k_procs k !!! i) = true) (seq 0 (Z.to_nat NPROC)) /\
    (forall level, 0 < level < LEVELS -> qlist (queue_at k' level) = [])) k.
Proof.
  intros Hwf Hh Hlen. eapply wp_mono; [by apply mlfq_boost_wp|]. intros _ k' [F _ P W Q].
  split; [done|]. split; [done|]. split; [intros i Hi; by rewrite P, decide_True|].
  split; [by rewrite Q|]. intros level Hl. rewrite Q, decide_False by lia. done.
Qed.

Lemma mlfq_boost_spec_witness :
  wp mlfq_boost (fun _ k' => qlist (queue_at k' 0) = [0%nat; 1%nat; 2%nat] /\ queues_wf k') mlfq0.
Proof.
  eapply wp_mono; [apply (mlfq_boost_spec mlfq0); [apply mlfq0_wf|reflexivity|reflexivity]|].
  cbv beta. intros _ k' (_ & W & _ & Q & _). split; [rewrite Q; vm_compute; reflexivity|exact W].
Defined.

(** A killed sleeper is not scheduled: [kkill] makes a sleeping process
    runnable without queueing it, so that the scheduler's search, which looks
    only at the queues, does not choose it, whatever state the other processes
    are in, and it is in no queue afterwards either. *)
Theorem kkill_unqueued k pid i : queues_wf k -> k_held k = [] -> (Z.to_nat NPROC <= length (k_procs k))%nat ->
  first_pid k pid i -> p_state (k_procs k !!! i) = SLEEPING -> (forall q, q ∈ qs k -> i ∉ q) ->
  wp (let! r := kkill pid in let! o := mlfq_pick in ret (r, o))
     (fun x k' => fst x = 0 /\ p_state (k_procs k' !!! i) = RUNNABLE /\ p_killed (k_procs k' !!! i) = 1 /\
        snd x <> Some i /\ forall q, q ∈ qs k' -> i ∉ q) k.
Proof.
  intros Hwf Hh Hlen Hi Hs Hq. wp_steps.
  eapply wp_mono; [apply kkill_wp; [intros j; rewrite Hh; apply not_elem_of_nil|done]|].
  intros r k1 [(-> & j & Hj & ->)|(_ & _ & Hno)].
  2: { destruct Hi as (H1 & H2 & _). by destruct (Hno i H1). }
  assert (j = i) as -> by (by eapply first_pid_unique). wp_steps.
  set (k1 := k <| k_procs ::= alter kill_proc i |>).
  eapply wp_mono; [apply (pick_from 4 0 k1); [done|done|exact Hwf|exact Hh]|].
  intros o k2 (Ho & Hq2 & _ & Hd). wp_steps. cbn [fst snd]. change (drop _ (qs k1)) with (qs k) in *.
  assert (Hne : o <> Some i).
  { intros ->. symmetry in Ho. apply pick_levels_In in Ho as (q & Hin & Hp). by apply (Hq q). }
  assert (Hk1 : k_procs k1 !!! i = kill_proc (k_procs k !!! i)).
  { destruct Hi as [HN _]. destruct (lookup_lt_is_Some_2 (k_procs k) i) as [x Hx]; [lia|]. unfold k1. kproj.
    by rewrite !list_lookup_total_alt, list_lookup_alter_eq, Hx. }
  assert (Hk2 : k_procs k2 !!! i = kill_proc (k_procs k !!! i)).
  { destruct o as [p|]; cbn in Hd; rewrite Hd; kproj; [|done].
    rewrite list_lookup_total_alt, list_lookup_alter_ne, <- list_lookup_total_alt by congruence. done. }
  rewrite Hk2. unfold kill_proc. rewrite Hs. cbn [state_eqb].
  split; [done|]. split; [done|]. split; [done|]. split; [done|].
  intros q Hin Hiq. rewrite Hq2 in Hin. apply pick_levels_rest in Hin as (q' & Hq' & Hsub).
  by apply (Hq q'); [|apply Hsub].
Qed.

Lemma kkill_unqueued_witness : p_state (k_procs mlfq0 !!! 3%nat) = SLEEPING /\
  wp (let! r := kkill 4 in let! o := mlfq_pick in ret (r, o))
     (fun x k' => fst x = 0 /\ p_state (k_procs k' !!! 3%nat) = RUNNABLE /\ p_killed (k_procs k' !!! 3%nat) = 1 /\
        snd x <> Some 3%nat /\ forall q, q ∈ qs k' -> 3%nat ∉ q) mlfq0.
Proof.
  split; [reflexivity|]. apply kkill_unqueued; [apply mlfq0_wf|reflexivity|apply Nat.leb_le; reflexivity| |reflexivity|].
  - split; [apply Nat.ltb_lt; reflexivity|]. split; [reflexivity|]. intros j Hj. do 3 (destruct j; [cbn; discriminate|]). lia.
  - apply Forall_forall. change (qs mlfq0) with [[1%nat; 2%nat]; []; []; []].
    repeat constructor; rewrite ?not_elem_of_cons; repeat split; try discriminate; apply not_elem_of_nil.
Defined.

(** Priority inversion: when the head of the only non-empty queue is no
    longer runnable (a process killed or asleep since it was queued), the
    search removes it and finds nothing, although runnable processes wait
    behind it in the same queue. *)
Theorem mlfq_stale_head k p q t : queues_wf k -> k_held k = [] ->
  qs k = [p :: q :: t; []; []; []] -> runnable k p = false -> runnable k q = true ->
  wp mlfq_pick (fun r k' => r = None /\ runnable k' q = true /\ qs k' = [q :: t; []; []; []]) k.
Proof.
  intros Hwf Hh Hq Hp Hr. eapply wp_mono; [by apply (pick_from 4 0 k)|].
  cbv zeta. change (drop (Z.to_nat 0) (qs k)) with (qs k). rewrite Hq. cbn. rewrite Hp. cbn.
  intros r k' (-> & Hq' & _ & Hd). split; [done|]. split; [|done]. cbn in Hd. rewrite Hd. unfold runnable. kproj. exact Hr.
Qed.

Definition mlfq_stale : kernel := mlfq0 <| k_procs ::= alter (set p_state (fun _ => SLEEPING)) 1%nat |>.

Lemma mlfq_stale_head_witness : runnable mlfq_stale 2 = true /\
  wp mlfq_pick (fun r k' => r = None /\ runnable k' 2 = true /\ qs k' = [[2%nat]; []; []; []]) mlfq_stale.
Proof.
  split; [reflexivity|]. apply (mlfq_stale_head mlfq_stale 1 2 []);
    [apply mlfq0_wf|reflexivity|vm_compute; reflexivity|reflexivity|reflexivity].
Defined.

(** ** No process starves

    Liveness of the scheduler (SC_MLFQ in kernel/proc.c): a runnable process
    in the queue of level 0 is dispatched after at most as many searches as
    there are processes in front of it, and the priority boost puts every
    runnable process there. *)

(** What the rest of the kernel may do between two searches, as long as there
    is no boost: processes are added at the end of the queue, and [p] stays
    runnable. *)
Record between (p : nat) (k k' : kernel) : Prop := {
  bw_wf : queues_wf k';
  bw_held : k_held k' = [];
  bw_ready : runnable k' p = true;
  bw_queue : exists added, qlist (queue_at k' 0) = qlist (queue_at k 0) ++ added
}.

(** [n] searches, none of which chose [p]. *)
Inductive passed_over (p : nat) : nat -> kernel -> kernel -> Prop :=
| passed_none k : passed_over p 0 k k
| passed_more n k r k1 k2 k3 : mlfq_pick k = Ret r k1 -> r <> Some p -> between p k1 k2 -> passed_over p n k2 k3 ->
    passed_over p (S n) k k3.

Lemma wp_returns {A} (m : KM A) Q k : wp m Q k -> exists a k', m k = Ret a k'.
Proof. unfold wp. destruct (m k) as [a k'| |]; [eauto|done..]. Qed.

Lemma qs_head k : queues_wf k -> exists l, qs k = qlist (queue_at k 0) :: l.
Proof.
  intros [HL _]. unfold qs, queue_at, aget. destruct (k_pqueue k) as [|q l] eqn:E; [cbn in HL; change LEVELS with 4 in HL; lia|]. by exists (qlist <$> l).
Qed.

(** A search takes the head of the queue of level 0. *)
Lemma pick_head k x l r k1 : queues_wf k -> k_held k = [] -> qlist (queue_at k 0) = x :: l -> mlfq_pick k = Ret r k1 ->
  qlist (queue_at k1 0) = l /\ (runnable k x = true -> r = Some x).
Proof.
  intros Hwf Hh Hq E. pose proof (pick_from 4 0 k ltac:(lia) eq_refl Hwf Hh) as Hw. unfold wp in Hw.
  change (for_until 4 0 mlfq_level k) with (mlfq_pick k) in Hw. rewrite E in Hw. cbv zeta in Hw. change (Z.to_nat 0) with 0%nat in Hw.
  rewrite drop_0 in Hw. cbn [take app] in Hw. destruct Hw as (Er & Eq & Hwf1 & _). destruct (qs_head k Hwf) as [l0 E0]. destruct (qs_head k1 Hwf1) as [l1 E1].
  rewrite E0, Hq in Er, Eq. rewrite E1 in Eq. cbn [pick_levels] in Er, Eq. destruct (runnable k x); cbn [fst snd] in *; injection Eq as -> _; split; done.
Qed.

Lemma waits_bound p n k k' pre post : queues_wf k -> k_held k = [] -> runnable k p = true -> qlist (queue_at k 0) = pre ++ p :: post ->
  passed_over p n k k' -> (n <= length pre)%nat /\ queues_wf k' /\ k_held k' = [].
Proof.
  intros Hwf Hh Hr Hq H. revert pre post Hwf Hh Hr Hq. induction H as [k|n k r k1 k2 k3 E Hne Hb H IH]; intros pre post Hwf Hh Hr Hq; [split; [lia|done]|].
  destruct Hb as [B1 B2 B3 [added B4]]. destruct pre as [|x pre]; cbn in Hq.
  - destruct (pick_head k p post r k1 Hwf Hh Hq E) as [_ Hp]. by destruct (Hne (Hp Hr)).
  - destruct (pick_head k x _ r k1 Hwf Hh Hq E) as [Hq1 _]. destruct (IH pre (post ++ added)) as [Hn Hk]; [done|done|done| |cbn; split; [lia|done]].
    by rewrite B4, Hq1, <- app_assoc.
Qed.

(** C34. No process starves: after a priority boost, a process that was
    runnable, at whatever level, is chosen by one of the next NPROC searches
    of the scheduler, as long as the other processes only join the queues
    behind it; and every search returns. *)
Theorem boost_no_starvation k p k1 n k' : queues_wf k -> k_held k = [] -> Z.of_nat (length (k_procs k)) = NPROC ->
  (p < Z.to_nat NPROC)%nat -> runnable k p = true -> mlfq_boost k = Ret tt k1 -> passed_over p n k1 k' ->
  (n < Z.to_nat NPROC)%nat /\ exists r k'', mlfq_pick k' = Ret r k''.
Proof.
  intros Hwf Hh Hlen Hp Hr Eb H. pose proof (mlfq_boost_wp k Hwf Hh Hlen) as Hw. unfold wp in Hw. rewrite Eb in Hw. destruct Hw as [F _ P W Q].
  assert (k_held k1 = []) as Hh1 by (rewrite F; by kproj).
  assert (active (k_procs k !!! p) = true) as Ha.
  { unfold runnable in Hr. unfold active. by destruct (p_state (k_procs k !!! p)). }
  assert (runnable k1 p = true) as Hr1 by (unfold runnable; rewrite P, decide_True by done; by rewrite Ha).
  specialize (Q 0 ltac:(done)). rewrite decide_True in Q by done.
  assert (p ∈ qlist (queue_at k1 0)) as Hin by (rewrite Q; apply list_elem_of_filter; split; [done|]; apply elem_of_seq; lia).
  apply list_elem_of_split in Hin as (pre & post & E). destruct (waits_bound p n k1 k' pre post W Hh1 Hr1 E H) as (Hn & Wf & Hk).
  split.
  - assert (length (pre ++ p :: post) <= Z.to_nat NPROC)%nat as Hl; [|rewrite length_app in Hl; cbn in Hl; lia].
    rewrite <- E, Q. etrans; [apply length_filter|]. by rewrite length_seq.
  - pose proof (pick_from 4 0 k' ltac:(lia) eq_refl Wf Hk) as Hpk. unfold wp in Hpk. unfold mlfq_pick. change (Z.to_nat LEVELS) with 4%nat.
    destruct (for_until 4 0 mlfq_level k') as [r k''| |]; [eauto|done..].
Qed.

Lemma boost_mlfq0 : exists k1, mlfq_boost mlfq0 = Ret tt k1.
Proof. destruct (wp_returns _ _ _ (mlfq_boost_wp mlfq0 mlfq0_wf eq_refl eq_refl)) as ([] & k1 & E). by exists k1. Qed.

Lemma boost_no_starvation_witness : exists k1, mlfq_boost mlfq0 = Ret tt k1 /\
  (0 < Z.to_nat NPROC)%nat /\ exists r k'', mlfq_pick k1 = Ret r k''.
Proof.
  destruct boost_mlfq0 as [k1 E]. exists k1. split; [exact E|].
  apply (boost_no_starvation mlfq0 2%nat k1 0 k1); [apply mlfq0_wf|reflexivity|reflexivity|apply Nat.ltb_lt; reflexivity|reflexivity|exact E|constructor].
Defined.
