(* ===== verification/MemFrame.v ===== *)
(** * What the memory system leaves alone

    The routines of kernel/vm.c and kernel/kalloc.c change physical memory,
    the free list, the frame table, the swap slots and the statistics of
    processes, and nothing else of the kernel; a copy to or from user memory
    therefore does not disturb a pipe, a file or the console. *)

From Stdlib Require Import ZArith Lia.
From stdpp Require Import base list strings sets.
From S2P Require Import Prelude Params Mem State Evict Kalloc Vm Sched.

(** The same process, apart from its paging statistics. *)
Definition same_stats (p p' : proc) : Prop :=
  p' = p <| p_page_faults := p_page_faults p' |> <| p_page_evicted := p_page_evicted p' |>
         <| p_pages_swapped_in := p_pages_swapped_in p' |> <| p_pages_swapped_out := p_pages_swapped_out p' |>
         <| p_resident_pages := p_resident_pages p' |>.

#[export] Instance same_stats_preorder : PreOrder same_stats.
Proof.
  split; [by intros []|]. intros p1 p2 p3 H1 H2. unfold same_stats in *. rewrite H2, H1. by destruct p1, p3.
Qed.

Record mem_only (k k' : kernel) : Prop := {
  mo_eq : k' = k <| k_mem := k_mem k' |> <| k_freelist := k_freelist k' |> <| k_frames := k_frames k' |>
                 <| k_clock_p := k_clock_p k' |> <| k_swap_mask := k_swap_mask k' |> <| k_procs := k_procs k' |>
                 <| k_held := k_held k' |>;
  mo_len : length (k_procs k') = length (k_procs k);
  mo_stats i : same_stats (k_procs k !!! i) (k_procs k' !!! i)
}.

#[export] Instance mem_only_preorder : PreOrder mem_only.
Proof.
  split.
  - intros k. split; [kext|done|reflexivity].
  - intros k1 k2 k3 [E1 L1 S1] [E2 L2 S2]. split; [rewrite E2, E1; kext|congruence|]. intros i. etransitivity; [apply S1|apply S2].
Qed.

Lemma mem_only_set k k' : k_procs k' = k_procs k ->
  k' = k <| k_mem := k_mem k' |> <| k_freelist := k_freelist k' |> <| k_frames := k_frames k' |>
         <| k_clock_p := k_clock_p k' |> <| k_swap_mask := k_swap_mask k' |> <| k_held := k_held k' |> -> mem_only k k'.
Proof.
  intros Ep E. split; rewrite ?Ep; [|done|done]. etransitivity; [exact E|]. kext.
Qed.

Lemma alter_total {A} `{Inhabited A} (f : A -> A) i (l : list A) j :
  alter f i l !!! j = l !!! j \/ alter f i l !!! j = f (l !!! j).
Proof.
  rewrite !list_lookup_total_alt. destruct (decide (i = j)) as [->|Hne]; [|left; by rewrite list_lookup_alter_ne].
  rewrite list_lookup_alter_eq. destruct (l !! j); [by right|by left].
Qed.

Lemma mem_only_stats k i f : (forall p, same_stats p (f p)) -> mem_only k (k <| k_procs ::= alter f i |>).
Proof.
  intros Hf. split; kproj; [kext|by rewrite length_alter|]. intros j.
  destruct (alter_total f i (k_procs k) j) as [->| ->]; [reflexivity|apply Hf].
Qed.

(** ** A logic for it *)
Definition keeps {A} (m : KM A) : Prop := forall k a k', m k = Ret a k' -> mem_only k k'.

(** A specification of a routine together with what it leaves alone. *)
Lemma wp_keeps {A} (m : KM A) Q k : wp m Q k -> keeps m -> wp m (fun a k' => Q a k' /\ mem_only k k') k.
Proof. unfold wp. intros H Hk. specialize (Hk k). destruct (m k) as [a k'| |]; [|done..]. split; [done|by eapply Hk]. Qed.

Lemma keeps_ret {A} (a : A) : keeps (ret a).
Proof. intros k b k' [= <- <-]. reflexivity. Qed.
Lemma keeps_panic {A} msg : keeps (A := A) (panic msg).
Proof. intros k b k' [=]. Qed.
Lemma keeps_gets {A} (f : kernel -> A) : keeps (gets f).
Proof. intros k b k' [= <- <-]. reflexivity. Qed.
Lemma keeps_modify f : (forall k, mem_only k (f k)) -> keeps (modify f).
Proof. intros H k b k' [= <- <-]. apply H. Qed.
Lemma keeps_bind {A B} (m : KM A) (f : A -> KM B) : keeps m -> (forall a, keeps (f a)) -> keeps (bind m f).
Proof. intros Hm Hf k b k' He. apply bind_inv in He as (a & k1 & H1 & H2). etransitivity; [by eapply Hm|by eapply Hf]. Qed.
Lemma keeps_acquire l : keeps (acquire l).
Proof. intros k b k'. unfold acquire. case_bool_decide; [done|]. intros [= <- <-]. apply mem_only_set; [done|kext]. Qed.
Lemma keeps_release l : keeps (release l).
Proof. intros k b k'. unfold release. case_bool_decide; [|done]. intros [= <- <-]. apply mem_only_set; [done|kext]. Qed.

Lemma keeps_for_range n lo body : (forall i, keeps (body i)) -> keeps (for_range n lo body).
Proof.
  intros Hb. revert lo. induction n as [|n IH]; intros lo; [apply keeps_ret|]. rewrite for_range_S. apply keeps_bind; [apply Hb|]. intros _. apply IH.
Qed.
Lemma keeps_for_fold {A} n lo (a : A) body : (forall i a, keeps (body i a)) -> keeps (for_fold n lo a body).
Proof.
  intros Hb. revert lo a. induction n as [|n IH]; intros lo a; [apply keeps_ret|]. rewrite for_fold_S. apply keeps_bind; [apply Hb|]. intros b. apply IH.
Qed.
Lemma keeps_for_until {A} n lo (body : Z -> KM (option A)) : (forall i, keeps (body i)) -> keeps (for_until n lo body).
Proof.
  intros Hb. revert lo. induction n as [|n IH]; intros lo; [apply keeps_ret|]. rewrite for_until_S. apply keeps_bind; [apply Hb|].
  intros [a|]; [apply keeps_ret|apply IH].
Qed.

Create HintDb frames discriminated.

Ltac keep_core :=
  cbv beta;
  lazymatch goal with
  | |- keeps (ret _) => apply keeps_ret
  | |- keeps (panic _) => apply keeps_panic
  | |- keeps (gets _) => apply keeps_gets
  | |- keeps (modify _) => apply keeps_modify; intros ?; apply mem_only_set; [reflexivity|kext]
  | |- keeps (acquire _) => apply keeps_acquire
  | |- keeps (release _) => apply keeps_release
  | |- keeps (bind _ _) => apply keeps_bind; [|intros ?]
  | |- keeps (for_range _ _ _) => apply keeps_for_range; intros ?
  | |- keeps (for_until _ _ _) => apply keeps_for_until; intros ?
  | |- keeps (for_fold _ _ _ _) => apply keeps_for_fold; intros ? ?
  | |- keeps (when _ _) => unfold when
  | |- keeps (if ?b then _ else _) => destruct b
  | |- keeps (match (if ?b then _ else _) with _ => _ end) => destruct b
  | |- keeps (match ?x with _ => _ end) => destruct x
  | |- keeps (let _ := _ in _) => cbv zeta
  | |- keeps (getp _) => apply keeps_gets
  | |- keeps (updp _ _) => apply keeps_modify; intros ?; apply mem_only_stats; by intros []
  | |- keeps (load64 _) => apply keeps_gets
  | |- keeps (store64 _ _) => unfold store64
  | |- keeps (kmemset _ _ _) => unfold kmemset
  | |- keeps (kmemmove _ _ _) => unfold kmemmove
  | |- keeps (kload _ _) => apply keeps_gets
  | |- keeps (kstore _ _) => unfold kstore
  | |- keeps myproc => apply keeps_gets
  | |- _ => solve [eauto 2 with frames nocore]
  end.
Ltac keep_auto := intros; repeat keep_core.

(** ** The routines *)
Lemma alloc_swap_index_keeps : keeps alloc_swap_index.
Proof. unfold alloc_swap_index. keep_auto. Qed.
#[export] Hint Resolve alloc_swap_index_keeps : frames.

Lemma free_swap_index_keeps i : keeps (free_swap_index i).
Proof. unfold free_swap_index. keep_auto. Qed.
#[export] Hint Resolve free_swap_index_keeps : frames.

Lemma walk_loop_keeps m alloc va level pt : keeps m -> keeps (walk_loop m alloc va level pt).
Proof. intros Hm. revert pt. induction level as [|n IH]; intros pt; cbn [walk_loop]; keep_auto. Qed.

Lemma walk0_keeps pt va : keeps (walk0 pt va).
Proof. unfold walk0, walk_with. keep_auto. apply walk_loop_keeps. keep_auto. Qed.
#[export] Hint Resolve walk0_keeps : frames.

Lemma evict_passes_keeps n pass te : keeps (evict_passes n pass te).
Proof. revert pass te. induction n as [|n IH]; intros; cbn [evict_passes]; unfold evict_scan_step, clock_advance; keep_auto. Qed.
#[export] Hint Resolve evict_passes_keeps : frames.

Lemma evict_page_keeps : keeps evict_page.
Proof. unfold evict_page, sfence_vma. keep_auto. Qed.
#[export] Hint Resolve evict_page_keeps : frames.

Section Frames.
Context {L : Layout}.

Lemma kfree_keeps pa : keeps (kfree pa).
Proof. unfold kfree. keep_auto. Qed.
#[local] Hint Resolve kfree_keeps : frames.

Lemma kalloc_keeps : keeps kalloc.
Proof. unfold kalloc. keep_auto. Qed.
#[local] Hint Resolve kalloc_keeps : frames.

Lemma walk_keeps pt va alloc : keeps (walk pt va alloc).
Proof. unfold walk, walk_with. keep_auto. apply walk_loop_keeps, kalloc_keeps. Qed.
#[local] Hint Resolve walk_keeps : frames.

Lemma mappages_keeps pt va sz pa perm : keeps (mappages pt va sz pa perm).
Proof.
  unfold mappages. keep_auto. generalize (Z.to_nat (sz / PGSIZE)) as n, (u64 (va + sz - PGSIZE)) as last.
  intros n last. revert va pa. induction n as [|n IH]; intros; cbn [mappages_loop]; keep_auto.
Qed.
#[local] Hint Resolve mappages_keeps : frames.

Lemma curproc_keeps : keeps curproc.
Proof. unfold curproc. keep_auto. Qed.
#[local] Hint Resolve curproc_keeps : frames.

Lemma kalloc_or_evict_keeps : keeps kalloc_or_evict.
Proof. unfold kalloc_or_evict. keep_auto. Qed.
#[local] Hint Resolve kalloc_or_evict_keeps : frames.

Lemma register_frame_keeps mem p va : keeps (register_frame mem p va).
Proof. unfold register_frame. keep_auto. Qed.
#[local] Hint Resolve register_frame_keeps : frames.

Lemma vmfault_keeps pt va : keeps (vmfault pt va).
Proof. unfold vmfault, vmfault_swapin, vmfault_lazy, ismapped, sfence_vma. keep_auto. Qed.
#[local] Hint Resolve vmfault_keeps : frames.

Lemma fault_in_keeps pt va : keeps (fault_in pt va).
Proof. unfold fault_in, walkaddr. keep_auto. Qed.
#[local] Hint Resolve fault_in_keeps : frames.

Lemma copyout_keeps pt va bs n : keeps (copyout pt va bs n).
Proof.
  unfold copyout. generalize (Z.to_nat n) as fuel. intros fuel. revert va bs n.
  induction fuel as [|fuel IH]; intros; cbn [copyout_loop]; unfold load_pte; keep_auto.
Qed.

Lemma copyin_keeps pt va n : keeps (copyin pt va n).
Proof.
  unfold copyin. generalize (Z.to_nat n) as fuel. intros fuel. revert va n.
  induction fuel as [|fuel IH]; intros; cbn [copyin_loop]; keep_auto.
Qed.

Lemma uvmunmap_keeps pt va n b : keeps (uvmunmap pt va n b).
Proof. unfold uvmunmap, uvmunmap_page. keep_auto. Qed.
#[local] Hint Resolve uvmunmap_keeps : frames.

Lemma uvmcreate_keeps : keeps uvmcreate.
Proof. unfold uvmcreate. keep_auto. Qed.

Lemma freewalk_keeps l pt : keeps (freewalk l pt).
Proof. revert pt. induction l as [|l IH]; intros pt; cbn [freewalk]; keep_auto. Qed.
#[local] Hint Resolve freewalk_keeps : frames.

Lemma uvmfree_keeps pt sz : keeps (uvmfree pt sz).
Proof. unfold uvmfree. keep_auto. Qed.

Lemma uvmcopy_keeps old new sz np : keeps (uvmcopy old new sz np).
Proof. unfold uvmcopy, uvmcopy_page, uvmcopy_map. keep_auto. Qed.
End Frames.
#[export] Hint Resolve kfree_keeps kalloc_keeps walk_keeps mappages_keeps curproc_keeps kalloc_or_evict_keeps : frames.
#[export] Hint Resolve uvmunmap_keeps uvmcreate_keeps freewalk_keeps uvmfree_keeps uvmcopy_keeps : frames.
#[export] Hint Resolve register_frame_keeps vmfault_keeps fault_in_keeps copyout_keeps copyin_keeps : frames.
