(* ===== verification/Sleeplock.v ===== *)
(** * Sleep locks (kernel/sleeplock.c)

    First waiting for a condition, the loops around sleep; then sleep locks.  A
    sleep lock lives in a buffer or in an inode; [sleepref] says where. *)

From Stdlib Require Import ZArith Lia.
From stdpp Require Import base list strings sets.
From S2P Require Import Prelude Params Mem State Evict Kalloc Vm Sched.

(** The place of a sleep lock: its inner spin lock, the channel on which it is
    waited for, and its fields. *)
Record sleepref := mksleepref {
  sr_lk : lock;
  sr_chan : chan;
  sr_get : kernel -> sleeplock;
  sr_upd : (sleeplock -> sleeplock) -> kernel -> kernel
}.

Definition buflock (b : nat) : sleepref :=
  mksleepref (L_buf b) (CH_buflock b) (fun k => b_lock (k_bufs k !!! b))
    (fun f k => k <| k_bufs ::= alter (set b_lock f) b |>).
Definition inodelock (i : nat) : sleepref :=
  mksleepref (L_inode i) (CH_inodelock i) (fun k => i_lock (k_inodes k !!! i))
    (fun f k => k <| k_inodes ::= alter (set i_lock f) i |>).

Definition initsleeplock (lk : sleepref) : KM unit :=
  do! initlock (sr_lk lk);
  do! modify (sr_upd lk (set sl_locked (fun _ => 0)));
  modify (sr_upd lk (set sl_pid (fun _ => 0))).

(** [myproc()->pid] *)
Definition mypid : KM Z :=
  let! p := curproc in
  let! pr := getp p in
  ret (p_pid pr).

Definition holdingsleep (lk : sleepref) : KM bool :=
  do! acquire (sr_lk lk);
  let! s := gets (sr_get lk) in
  let! r := if sl_locked s =? 0 then ret false
            else let! pid := mypid in ret (sl_pid s =? pid) in
  do! release (sr_lk lk);
  ret r.

(** A loop that waits for a condition on the state.  A thread that is resumed
    [n] more times goes at most [n + 1] times around the loop before it is
    asleep for good; a thread that is always resumed is given [SPIN] rounds. *)
Definition SPIN : nat := 1000.

Section Sleeplock.
Context {I : Interference}.

Fixpoint sleep_rounds (n : nat) (c : kernel -> bool) (ch : chan) (lk : lock) : KM unit := fun k =>
  if c k then
    match n with
    | O => Asleep k
    | S n' => (do! sleep ch lk; sleep_rounds n' c ch lk) k
    end
  else Ret tt k.

(** [while(c) sleep(ch, lk)] *)
Definition sleep_while (c : kernel -> bool) (ch : chan) (lk : lock) : KM unit := fun k =>
  sleep_rounds (match k_wakeups k with Some n => S n | None => SPIN end) c ch lk k.

Definition acquiresleep (lk : sleepref) : KM unit :=
  do! acquire (sr_lk lk);
  do! sleep_while (fun k => negb (sl_locked (sr_get lk k) =? 0)) (sr_chan lk) (sr_lk lk);
  do! modify (sr_upd lk (set sl_locked (fun _ => 1)));
  let! pid := mypid in
  do! modify (sr_upd lk (set sl_pid (fun _ => pid)));
  release (sr_lk lk).

Definition releasesleep (lk : sleepref) : KM unit :=
  do! acquire (sr_lk lk);
  do! modify (sr_upd lk (set sl_locked (fun _ => 0)));
  do! modify (sr_upd lk (set sl_pid (fun _ => 0)));
  do! wakeup (sr_chan lk);
  release (sr_lk lk).

Lemma sleep_while_done c ch lk k : c k = false -> sleep_while c ch lk k = Ret tt k.
Proof. intros H. unfold sleep_while. by destruct (k_wakeups k) as [[|n]|]; cbn; rewrite H. Qed.
End Sleeplock.

(** ** Waiting for a device or for another process, and being killed meanwhile

    The loop that piperead (kernel/pipe.c) and consoleread (kernel/console.c)
    share: sleep until a condition is over, and give up when killed. *)

(** A null pointer is dereferenced. *)
Definition deref (p : option nat) : KM nat :=
  match p with
  | Some i => ret i
  | None => panic "kerneltrap"
  end.

(** The rounds a loop that sleeps in some of them is given: as many as the
    thread is resumed, or [SPIN] for a thread that is always resumed. *)
Definition rounds (k : kernel) : nat := match k_wakeups k with Some n => S n | None => SPIN end.

Section Wait.
Context {I : Interference}.

Fixpoint wait_rounds (n : nat) (c : kernel -> bool) (ch : chan) (lk : lock) : KM bool := fun k =>
  if c k then
    match n with
    | O => Asleep k
    | S n' =>
        (let! p := curproc in
         let! dead := killed p in
         if negb (dead =? 0) then ret true
         else do! sleep ch lk; wait_rounds n' c ch lk) k
    end
  else Ret false k.

(** [while(c){ if(killed(myproc())) ...; sleep(ch, lk); }]: whether the
    process was found killed. *)
Definition wait_unless_killed (c : kernel -> bool) (ch : chan) (lk : lock) : KM bool := fun k =>
  wait_rounds (S (rounds k)) c ch lk k.
End Wait.
