(* ===== verification/Printf.v ===== *)
(** * Console output (kernel/printf.c, and the output half of uart.c and console.c)

    Output goes to the UART's transmit register one byte at a time; [k_out]
    is the sequence of bytes written to it.  The kernel is not panicking. *)

From Stdlib Require Import ZArith Lia.
From stdpp Require Import base list strings sets.
From S2P Require Import Prelude Params Mem State.

(** The bytes of a string literal. *)
Fixpoint cstr (s : string) : list Z :=
  match s with
  | EmptyString => []
  | String c s' => Z.of_N (Ascii.N_of_ascii c) :: cstr s'
  end.

(** [uartputc_sync]: wait for the transmitter and write the register. *)
Definition uartputc_sync (c : Z) : KM unit := modify (fun k => k <| k_out ::= fun o => o ++ [u8 c] |>).

Definition BACKSPACE : Z := 0x100.

Definition consputc (c : Z) : KM unit :=
  if c =? BACKSPACE then
    do! uartputc_sync 8;
    do! uartputc_sync 32;
    uartputc_sync 8
  else uartputc_sync c.

Fixpoint consputs (cs : list Z) : KM unit :=
  match cs with
  | [] => ret tt
  | c :: cs' => do! consputc c; consputs cs'
  end.

Definition digits : list Z := cstr "0123456789abcdef".

(** [do buf[i++] = digits[x % base] while((x /= base) != 0)]: the contents of
    [buf], least significant digit first. *)
Fixpoint digits_of (fuel : nat) (x base : Z) : list Z :=
  match fuel with
  | O => []
  | S fuel' =>
      let d := aget digits (x mod base) in
      if x / base =? 0 then [d] else d :: digits_of fuel' (x / base) base
  end.

(** A 64-bit number has at most 64 digits. *)
Definition printint (xx base : Z) (sign : bool) : KM unit :=
  let sign := sign && (xx <? 0) in
  let x := if sign then u64 (- xx) else u64 xx in
  let buf := digits_of 64 x base ++ (if sign then cstr "-" else []) in
  consputs (rev buf).

Definition printptr (x : Z) : KM unit :=
  do! consputs (cstr "0x");
  for_range 16 0 (fun i => consputc (aget digits (Z.shiftr (u64 (Z.shiftl x (4 * i))) 60))).

(** The arguments of [printf]: machine words and strings. *)
Inductive parg := PInt (n : Z) | PStr (s : option (list Z)).

(** [va_arg] of an integer type and of a pointer to characters. *)
Definition va_int (ap : list parg) : Z := match ap with PInt n :: _ => n | _ => 0 end.
Definition va_str (ap : list parg) : option (list Z) := match ap with PStr s :: _ => s | _ => None end.

(** The signed value of a 64-bit word. *)
Definition i64 (x : Z) : Z := (x + 9223372036854775808) mod 18446744073709551616 - 9223372036854775808.

(** The conversions, by the three characters after the percent sign: what is
    printed, whether an argument is used, and how many more characters are. *)
Definition conversion (c0 c1 c2 : Z) (ap : list parg) : option (KM unit * bool * nat) :=
  let ch s := aget (cstr s) 0 in
  if c0 =? ch "d" then Some (printint (i32 (va_int ap)) 10 true, true, 0%nat)
  else if (c0 =? ch "l") && (c1 =? ch "d") then Some (printint (i64 (va_int ap)) 10 true, true, 1%nat)
  else if (c0 =? ch "l") && (c1 =? ch "l") && (c2 =? ch "d") then Some (printint (i64 (va_int ap)) 10 true, true, 2%nat)
  else if c0 =? ch "u" then Some (printint (u32 (va_int ap)) 10 false, true, 0%nat)
  else if (c0 =? ch "l") && (c1 =? ch "u") then Some (printint (u64 (va_int ap)) 10 false, true, 1%nat)
  else if (c0 =? ch "l") && (c1 =? ch "l") && (c2 =? ch "u") then Some (printint (u64 (va_int ap)) 10 false, true, 2%nat)
  else if c0 =? ch "x" then Some (printint (u32 (va_int ap)) 16 false, true, 0%nat)
  else if (c0 =? ch "l") && (c1 =? ch "x") then Some (printint (u64 (va_int ap)) 16 false, true, 1%nat)
  else if (c0 =? ch "l") && (c1 =? ch "l") && (c2 =? ch "x") then Some (printint (u64 (va_int ap)) 16 false, true, 2%nat)
  else if c0 =? ch "p" then Some (printptr (u64 (va_int ap)), true, 0%nat)
  else if c0 =? ch "c" then Some (consputc (u32 (va_int ap)), true, 0%nat)
  else if c0 =? ch "s" then Some (consputs (default (cstr "(null)") (va_str ap)), true, 0%nat)
  else if c0 =? ch "%" then Some (consputc (ch "%"), false, 0%nat)
  else if c0 =? 0 then None
  else Some (do! consputc (ch "%"); consputc c0, false, 0%nat).

(** The loop over the format, [fmt] being what is left of it. *)
Fixpoint printf_loop (fuel : nat) (fmt : list Z) (ap : list parg) : KM unit :=
  match fuel, fmt with
  | S fuel', cx :: fmt' =>
      if negb (cx =? aget (cstr "%") 0) then
        do! consputc cx;
        printf_loop fuel' fmt' ap
      else
        let c0 := aget (fmt' ++ [0]) 0 in
        let c1 := if c0 =? 0 then 0 else aget (fmt' ++ [0]) 1 in
        let c2 := if c1 =? 0 then 0 else aget (fmt' ++ [0]) 2 in
        match conversion c0 c1 c2 ap with
        | Some (m, used, extra) =>
            do! m;
            printf_loop fuel' (drop (S extra) fmt') (if used then drop 1 ap else ap)
        | None => ret tt
        end
  | _, _ => ret tt
  end.

Definition printf (fmt : list Z) (ap : list parg) : KM unit :=
  do! acquire L_pr;
  do! printf_loop (length fmt) fmt ap;
  release L_pr.

Definition printfinit : KM unit := initlock L_pr.

(** ** Console output changes nothing else *)

Definition emits (m : KM unit) : Prop := forall k, exists o, m k = Ret tt (k <| k_out ::= fun x => x ++ o |>).

Lemma emits_ret : emits (ret tt).
Proof. intros k. exists []. unfold ret. f_equal. kext. by rewrite app_nil_r. Qed.

Lemma emits_bind m n : emits m -> emits n -> emits (do! m; n).
Proof.
  intros Hm Hn k. destruct (Hm k) as [o1 E1]. destruct (Hn (k <| k_out ::= fun x => x ++ o1 |>)) as [o2 E2].
  exists (o1 ++ o2). rewrite (bind_Ret _ _ _ _ _ E1), E2. f_equal. kext. by rewrite app_assoc.
Qed.

Lemma emits_putc c : emits (consputc c).
Proof.
  assert (Hs : forall c, emits (uartputc_sync c)) by (intros c' k; by exists [u8 c']).
  unfold consputc. destruct (c =? BACKSPACE); repeat apply emits_bind; apply Hs.
Qed.

Lemma emits_puts cs : emits (consputs cs).
Proof. induction cs as [|c cs IH]; [apply emits_ret|]. apply emits_bind; [apply emits_putc|done]. Qed.

Lemma emits_range n lo body : (forall i, emits (body i)) -> emits (for_range n lo body).
Proof.
  intros Hb. revert lo. induction n as [|n IH]; intros lo; [apply emits_ret|]. rewrite for_range_S. by apply emits_bind.
Qed.

Lemma emits_conversion c0 c1 c2 ap m u n : conversion c0 c1 c2 ap = Some (m, u, n) -> emits m.
Proof.
  assert (Hi : forall x b s, emits (printint x b s)) by (intros; apply emits_puts).
  assert (Hp : forall x, emits (printptr x)) by (intros; apply emits_bind; [apply emits_puts|apply emits_range; intros; apply emits_putc]).
  unfold conversion. cbv zeta.
  repeat (destruct (_ : bool); [intros [= <- _ _]; first [apply Hi|apply Hp|apply emits_putc|apply emits_puts]|]).
  all: try done. intros [= <- _ _]. apply emits_bind; apply emits_putc.
Qed.

Lemma emits_printf_loop fuel : forall fmt ap, emits (printf_loop fuel fmt ap).
Proof.
  induction fuel as [|fuel IH]; intros fmt ap; [destruct fmt; apply emits_ret|]. destruct fmt as [|c fmt]; [apply emits_ret|].
  cbn [printf_loop]. destruct (negb _); [apply emits_bind; [apply emits_putc|apply IH]|].
  destruct (conversion _ _ _ ap) as [[[m u] n]|] eqn:E; [|apply emits_ret].
  apply emits_bind; [by eapply emits_conversion|apply IH].
Qed.

Lemma printf_wp fmt ap k : L_pr ∉ k_held k -> wp (printf fmt ap) (fun _ k' => exists o, k' = k <| k_out ::= fun x => x ++ o |>) k.
Proof.
  intros Hh. unfold printf. wp_step. apply wp_acquire; [done|]. wp_step.
  destruct (emits_printf_loop (length fmt) fmt ap (k <| k_held ::= cons L_pr |>)) as [o E].
  eapply wp_Ret; [exact E|]. cbv beta. apply wp_release; [kproj; set_solver|]. exists o. kext. by rewrite unlocked_top.
Qed.
