(* ===== verification/Ulib.v ===== *)
(** * The user library

    user/ulib.c (strings and memory of a process, [gets], [atoi]) and
    user/printf.c.  Memory is a function from addresses to bytes, as for the
    kernel; [char] is unsigned on RISC-V.  The loops that look for a NUL take
    a bound on their iterations and give [None] when it is used up; the
    specifications say which bound is enough. *)

From Stdlib Require Import ZArith Lia.
From stdpp Require Import base list strings sets.
From S2P Require Import Prelude Mem State Printf.

(** ** Strings and memory *)

(** [while((star s++ = star t++) != 0)] *)
Fixpoint strcpy (fuel : nat) (m : memory) (s t : Z) : option memory :=
  match fuel with
  | O => None
  | S fuel' =>
      let m' := st8 m s (ld8 m t) in
      if ld8 m' s =? 0 then Some m' else strcpy fuel' m' (s + 1) (t + 1)
  end.

Fixpoint strcmp (fuel : nat) (m : memory) (p q : Z) : option Z :=
  match fuel with
  | O => None
  | S fuel' =>
      if negb (ld8 m p =? 0) && (ld8 m p =? ld8 m q) then strcmp fuel' m (p + 1) (q + 1)
      else Some (ld8 m p - ld8 m q)
  end.

Fixpoint strlen_from (fuel : nat) (m : memory) (s n : Z) : option Z :=
  match fuel with
  | O => None
  | S fuel' => if ld8 m (s + n) =? 0 then Some (u32 n) else strlen_from fuel' m s (n + 1)
  end.
Definition strlen (fuel : nat) (m : memory) (s : Z) : option Z := strlen_from fuel m s 0.

Fixpoint memset_from (m : memory) (cdst c i : Z) (n : nat) : memory :=
  match n with
  | O => m
  | S n' => memset_from (st8 m (cdst + i) c) cdst c (i + 1) n'
  end.
Definition memset (m : memory) (dst c n : Z) : memory := memset_from m dst c 0 (Z.to_nat n).

(** The place of [c] in the string at [s], 0 if it has none. *)
Fixpoint strchr (fuel : nat) (m : memory) (s c : Z) : option Z :=
  match fuel with
  | O => None
  | S fuel' => if ld8 m s =? 0 then Some 0 else if ld8 m s =? c then Some s else strchr fuel' m (s + 1) c
  end.

(** Forwards if the source is above the destination, otherwise backwards. *)
Definition memmove (m : memory) (vdst vsrc n : Z) : memory :=
  if vdst <? vsrc then copy_up m vdst vsrc (Z.to_nat n)
  else copy_down m (vdst + n) (vsrc + n) (Z.to_nat n).

Fixpoint memcmp (m : memory) (p1 p2 : Z) (n : nat) : Z :=
  match n with
  | O => 0
  | S n' => if negb (ld8 m p1 =? ld8 m p2) then ld8 m p1 - ld8 m p2 else memcmp m (p1 + 1) (p2 + 1) n'
  end.

Definition memcpy (m : memory) (dst src n : Z) : memory := memmove m dst src n.

(** [gets]: the bytes that read returns one at a time are the list [inp]; at
    its end read returns 0.  The loop gives the memory, [i] and what is left
    of the input. *)
Fixpoint gets_loop (inp : list Z) (m : memory) (buf max i : Z) : memory * Z * list Z :=
  if i + 1 <? max then
    match inp with
    | [] => (m, i, [])
    | c :: inp' =>
        let m' := st8 m (buf + i) c in
        if (c =? 10) || (c =? 13) then (m', i + 1, inp') else gets_loop inp' m' buf max (i + 1)
    end
  else (m, i, inp).

Definition gets (inp : list Z) (m : memory) (buf max : Z) : memory * list Z :=
  let '(m', i, inp') := gets_loop inp m buf max 0 in
  (st8 m' (buf + i) 0, inp').

Definition is_digit (c : Z) : bool := (48 <=? c) && (c <=? 57).

Fixpoint atoi_loop (fuel : nat) (m : memory) (s n : Z) : option Z :=
  match fuel with
  | O => None
  | S fuel' => if is_digit (ld8 m s) then atoi_loop fuel' m (s + 1) (i32 (n * 10 + ld8 m s - 48)) else Some n
  end.
Definition atoi (fuel : nat) (m : memory) (s : Z) : option Z := atoi_loop fuel m s 0.

(** ** Formatted output

    What vprintf writes to the descriptor, one [write] of one byte each. *)
Definition udigits : list Z := cstr "0123456789ABCDEF".

(** The loop [do buf[i++] = digits[x % base] while((x /= base) != 0)]. *)
Fixpoint int_digits (fuel : nat) (x base : Z) : list Z :=
  match fuel with
  | O => []
  | S fuel' => aget udigits (x mod base) :: (if x / base =? 0 then [] else int_digits fuel' (x / base) base)
  end.

(** The contents of [buf] when the digits and the sign are in it. *)
Definition int_buf (xx base : Z) (sgn : bool) : list Z :=
  let neg := sgn && (xx <? 0) in
  let x := if neg then u64 (- xx) else u64 xx in
  int_digits 64 x base ++ (if neg then cstr "-" else []).

(** [while(--i >= 0) putc(fd, buf[i])] *)
Definition printint (xx base : Z) (sgn : bool) : list Z := rev (int_buf xx base sgn).

Fixpoint ptr_digits (n : nat) (x : Z) : list Z :=
  match n with
  | O => []
  | S n' => aget udigits (Z.shiftr x 60) :: ptr_digits n' (u64 (Z.shiftl x 4))
  end.
Definition printptr (x : Z) : list Z := cstr "0x" ++ ptr_digits 16 x.

(** A conversion: what is printed, whether it uses an argument, and how many
    more characters of the format it covers. *)
Definition vconv (c0 c1 c2 : Z) (ap : list parg) : list Z * bool * nat :=
  let ch s := aget (cstr s) 0 in
  if c0 =? ch "d" then (printint (i32 (va_int ap)) 10 true, true, 0%nat)
  else if (c0 =? ch "l") && (c1 =? ch "d") then (printint (i64 (va_int ap)) 10 true, true, 1%nat)
  else if (c0 =? ch "l") && (c1 =? ch "l") && (c2 =? ch "d") then (printint (i64 (va_int ap)) 10 true, true, 2%nat)
  else if c0 =? ch "u" then (printint (u32 (va_int ap)) 10 false, true, 0%nat)
  else if (c0 =? ch "l") && (c1 =? ch "u") then (printint (i64 (va_int ap)) 10 false, true, 1%nat)
  else if (c0 =? ch "l") && (c1 =? ch "l") && (c2 =? ch "u") then (printint (i64 (va_int ap)) 10 false, true, 2%nat)
  else if c0 =? ch "x" then (printint (u32 (va_int ap)) 16 false, true, 0%nat)
  else if (c0 =? ch "l") && (c1 =? ch "x") then (printint (i64 (va_int ap)) 16 false, true, 1%nat)
  else if (c0 =? ch "l") && (c1 =? ch "l") && (c2 =? ch "x") then (printint (i64 (va_int ap)) 16 false, true, 2%nat)
  else if c0 =? ch "p" then (printptr (u64 (va_int ap)), true, 0%nat)
  else if c0 =? ch "c" then ([u8 (va_int ap)], true, 0%nat)
  else if c0 =? ch "s" then (default (cstr "(null)") (va_str ap), true, 0%nat)
  else if c0 =? ch "%" then (cstr "%", false, 0%nat)
  else (cstr "%" ++ [c0], false, 0%nat).

(** The loop over the format: [state] says that a percent sign was read.
    [skip] is the number of characters that [i += 1] and [i += 2] pass over. *)
Fixpoint vprintf_loop (fmt : list Z) (ap : list parg) (state : bool) (skip : nat) : list Z :=
  match fmt with
  | [] => []
  | c0 :: fmt' =>
      match skip with
      | S skip' => vprintf_loop fmt' ap state skip'
      | O =>
          if negb state then
            if c0 =? aget (cstr "%") 0 then vprintf_loop fmt' ap true 0
            else c0 :: vprintf_loop fmt' ap false 0
          else
            let c1 := aget (fmt' ++ [0]) 0 in
            let c2 := if c1 =? 0 then 0 else aget (fmt' ++ [0]) 1 in
            let '(out, used, extra) := vconv c0 c1 c2 ap in
            out ++ vprintf_loop fmt' (if used then drop 1 ap else ap) false extra
      end
  end.

Definition vprintf (fmt : list Z) (ap : list parg) : list Z := vprintf_loop fmt ap false 0.

(** ** Strings in memory *)
Definition str_at (m : memory) (s : Z) (l : list Z) : Prop :=
  ld_bytes m s (length l) = l /\ m (s + Z.of_nat (length l)) = 0 /\ Forall (fun c => 0 < c < 256) l.

Lemma ld_bytes_app m a n1 n2 : ld_bytes m a (n1 + n2) = ld_bytes m a n1 ++ ld_bytes m (a + Z.of_nat n1) n2.
Proof.
  revert a. induction n1 as [|n1 IH]; intros a; cbn [Nat.add ld_bytes app]; [by rewrite Z.add_0_r|]. rewrite IH. do 3 f_equal. lia.
Qed.

Lemma str_at_nil m s : str_at m s [] <-> m s = 0.
Proof. unfold str_at. cbn. rewrite Z.add_0_r. naive_solver. Qed.

Lemma str_at_cons m s c l : str_at m s (c :: l) <-> m s = c /\ 0 < c < 256 /\ str_at m (s + 1) l.
Proof.
  unfold str_at. cbn. rewrite Forall_cons. replace (s + Z.of_nat (S (length l))) with (s + 1 + Z.of_nat (length l)) by lia.
  split.
  - intros ([= -> E] & H0 & Hc & Hl). by rewrite E.
  - intros (-> & Hc & E & H0 & Hl). by rewrite E.
Qed.

Lemma strlen_spec m s l fuel : str_at m s l -> (length l < fuel)%nat -> strlen fuel m s = Some (u32 (Z.of_nat (length l))).
Proof.
  unfold strlen. intros Hs Hf. assert (forall n, str_at m (s + n) l -> strlen_from fuel m s n = Some (u32 (n + Z.of_nat (length l)))) as H.
  { clear Hs. revert fuel Hf. induction l as [|c l IH]; intros [|fuel] Hf n Hs; cbn in Hf; try lia; cbn [strlen_from]; unfold ld8.
    - apply str_at_nil in Hs. rewrite Hs. cbn. do 2 f_equal. lia.
    - apply str_at_cons in Hs as (-> & Hc & Hs). destruct (Z.eqb_spec c 0); [lia|]. rewrite IH; [|lia|by rewrite Z.add_assoc].
      do 2 f_equal. cbn. lia. }
  rewrite (H 0) by (by rewrite Z.add_0_r). do 2 f_equal.
Qed.

(** strcmp returns 0 for equal strings only. *)
Lemma strcmp_spec m p q l1 l2 fuel : str_at m p l1 -> str_at m q l2 -> (length l1 < fuel)%nat ->
  exists r, strcmp fuel m p q = Some r /\ (r = 0 <-> l1 = l2).
Proof.
  revert p q l2 fuel. induction l1 as [|c l1 IH]; intros p q l2 [|fuel] H1 H2 Hf; cbn in Hf; try lia; cbn [strcmp]; unfold ld8.
  - apply str_at_nil in H1. rewrite H1. cbn. eexists; split; [done|]. destruct l2 as [|d l2].
    + apply str_at_nil in H2. rewrite H2. naive_solver.
    + apply str_at_cons in H2 as (-> & Hd & _). split; [lia|done].
  - apply str_at_cons in H1 as (-> & Hc & H1). destruct (Z.eqb_spec c 0); [lia|]. cbn [negb andb]. destruct l2 as [|d l2].
    + apply str_at_nil in H2. rewrite H2. destruct (Z.eqb_spec c 0); [lia|]. eexists; split; [done|]. split; [lia|done].
    + apply str_at_cons in H2 as (-> & Hd & H2). destruct (Z.eqb_spec c d) as [<-|Hn].
      * destruct (IH (p + 1) (q + 1) l2 fuel H1 H2 ltac:(lia)) as (r & -> & Hr). exists r. split; [done|]. rewrite Hr. naive_solver.
      * eexists; split; [done|]. split; [lia|naive_solver].
Qed.

(** strcpy copies the string with its NUL and nothing else, unless the copy
    overwrites the rest of the source. *)
Lemma strcpy_spec m s t l fuel : mem_ok m -> str_at m t l -> (length l < fuel)%nat -> s <= t \/ t + Z.of_nat (length l) < s ->
  exists m', strcpy fuel m s t = Some m' /\
    forall a, m' a = if (s <=? a) && (a <=? s + Z.of_nat (length l)) then m (t + (a - s)) else m a.
Proof.
  revert m s t fuel. induction l as [|c l IH]; intros m s t [|fuel] Hm Ht Hf Hd; cbn in Hf, Hd; try lia; cbn [strcpy]; unfold ld8.
  - apply str_at_nil in Ht. rewrite st8_eq, Z.eqb_refl, Ht. eexists; split; [done|]. intros a. rewrite st8_eq. change (s + Z.of_nat (length [])) with (s + 0).
    destruct (Z.eqb_spec a s), (Z.leb_spec s a), (Z.leb_spec a (s + 0)); cbn; try lia; try done. subst. rewrite Z.sub_diag, Z.add_0_r. by rewrite Ht.
  - apply str_at_cons in Ht as (Ec & Hc & Ht). rewrite st8_eq, Z.eqb_refl, Ec, u8_id by lia. destruct (Z.eqb_spec c 0); [lia|].
    destruct (IH (st8 m s c) (s + 1) (t + 1) fuel) as (m' & -> & Hm'); [by apply st8_ok| |lia|lia|].
    { destruct Ht as (H1 & H2 & H3). split; [|split; [|done]].
      - rewrite <- H1 at 2. apply ld_bytes_ext. intros i Hi. rewrite st8_eq. destruct (Z.eqb_spec (t + 1 + i) s); [lia|done].
      - rewrite st8_eq. destruct (Z.eqb_spec (t + 1 + Z.of_nat (length l)) s); [lia|done]. }
    exists m'. split; [done|]. intros a. rewrite Hm', !st8_eq, u8_id by lia. cbn.
    destruct (Z.leb_spec (s + 1) a), (Z.leb_spec a (s + 1 + Z.of_nat (length l))), (Z.leb_spec s a), (Z.leb_spec a (s + Z.of_nat (S (length l))));
      cbn; try lia; destruct (Z.eqb_spec a s); try lia; try done.
    + destruct (Z.eqb_spec (t + 1 + (a - (s + 1))) s); [lia|]. f_equal. lia.
    + subst a. rewrite Z.sub_diag, Z.add_0_r. done.
Qed.

(** The user memmove, too, copies overlapping ranges as if through a buffer. *)
Lemma umemmove_spec m dst src n a : mem_ok m -> 0 <= n ->
  memmove m dst src n a = if (dst <=? a) && (a <? dst + n) then m (src + (a - dst)) else m a.
Proof.
  intros Hm Hn. unfold memmove. destruct (Z.ltb_spec dst src).
  - rewrite copy_up_spec, Z2Nat.id by (done || lia). done.
  - rewrite copy_down_spec, Z2Nat.id by (done || lia). replace (dst + n - n) with dst by lia.
    by replace (src + n + (a - (dst + n))) with (src + (a - dst)) by lia.
Qed.

(** ** Input lines *)

(** The next line of the input, at most [n] bytes of it. *)
Fixpoint next_line (n : nat) (inp : list Z) : list Z * list Z :=
  match n, inp with
  | S n', c :: inp' =>
      if (c =? 10) || (c =? 13) then ([c], inp')
      else let '(l, rest) := next_line n' inp' in (c :: l, rest)
  | _, _ => ([], inp)
  end.

Lemma next_line_app n inp : (next_line n inp).1 ++ (next_line n inp).2 = inp.
Proof.
  revert inp. induction n as [|n IH]; intros [|c inp]; cbn; try done. destruct ((c =? 10) || (c =? 13)); [done|].
  specialize (IH inp). destruct (next_line n inp). cbn in *. by rewrite IH.
Qed.

Lemma next_line_length n inp : (length (next_line n inp).1 <= n)%nat.
Proof.
  revert inp. induction n as [|n IH]; intros [|c inp]; cbn; try lia. destruct ((c =? 10) || (c =? 13)); [cbn; lia|].
  specialize (IH inp). destruct (next_line n inp). cbn in *. lia.
Qed.

Lemma gets_loop_spec inp m buf max i : 0 <= i ->
  gets_loop inp m buf max i = let '(l, rest) := next_line (Z.to_nat (max - 1 - i)) inp in
    (st_bytes m (buf + i) l, i + Z.of_nat (length l), rest).
Proof.
  revert m i. induction inp as [|c inp IH]; intros m i Hi; cbn [gets_loop]; destruct (Z.ltb_spec (i + 1) max).
  - destruct (Z.to_nat (max - 1 - i)); cbn; by rewrite Z.add_0_r.
  - destruct (Z.to_nat (max - 1 - i)); cbn; by rewrite Z.add_0_r.
  - replace (Z.to_nat (max - 1 - i)) with (S (Z.to_nat (max - 1 - (i + 1)))) by lia. cbn [next_line].
    destruct ((c =? 10) || (c =? 13)); [done|]. rewrite IH by lia. destruct (next_line _ inp) as [l rest]. cbn.
    rewrite Z.add_assoc. do 2 f_equal. lia.
  - replace (Z.to_nat (max - 1 - i)) with 0%nat by lia. cbn. by rewrite Z.add_0_r.
Qed.

Lemma st_bytes_app m a l1 l2 : st_bytes m a (l1 ++ l2) = st_bytes (st_bytes m a l1) (a + Z.of_nat (length l1)) l2.
Proof.
  revert m a. induction l1 as [|x l1 IH]; intros m a; cbn [app st_bytes length]; [by rewrite Z.add_0_r|]. rewrite IH. f_equal. lia.
Qed.

(** gets stores the next line of at most [max] - 1 bytes and its NUL, inside the
    buffer, and takes exactly that line from the input. *)
Lemma gets_spec inp m buf max : 0 < max -> let '(l, rest) := next_line (Z.to_nat (max - 1)) inp in
  gets inp m buf max = (st_bytes m buf (l ++ [0]), rest) /\ Z.of_nat (length (l ++ [0])) <= max.
Proof.
  intros Hmax. pose proof (next_line_length (Z.to_nat (max - 1)) inp) as Hl. unfold gets. rewrite gets_loop_spec by lia.
  rewrite Z.sub_0_r. destruct (next_line (Z.to_nat (max - 1)) inp) as [l rest]. cbn [fst] in Hl. split.
  - f_equal. rewrite Z.add_0_r, st_bytes_app. cbn. f_equal; lia.
  - rewrite length_app. cbn. lia.
Qed.

(** ** Numbers *)

(** The number that digits stand for, the most significant first. *)
Definition value (base : Z) (ds : list Z) : Z := fold_left (fun n d => n * base + d) ds 0.

Definition digit (d : Z) : Z := aget udigits d.

Lemma value_snoc base ds d : value base (ds ++ [d]) = value base ds * base + d.
Proof. unfold value. by rewrite fold_left_app. Qed.

(** A positional numeral in lowest terms: no leading zero except in 0. *)
Definition numeral (base : Z) (ds : list Z) : Prop :=
  Forall (fun d => 0 <= d < base) ds /\ (ds = [0] \/ exists d ds', ds = d :: ds' /\ d <> 0).

Lemma int_digits_spec fuel base x : 2 <= base -> 0 <= x < base ^ Z.of_nat fuel -> (0 < fuel)%nat ->
  exists ds, int_digits fuel x base = rev (digit <$> ds) /\ numeral base ds /\ value base ds = x /\
    (forall k, (0 < k)%nat -> x < base ^ Z.of_nat k -> (length ds <= k)%nat).
Proof.
  intros Hb. revert x. induction fuel as [|fuel IH]; intros x Hx Hf; [lia|]. cbn [int_digits].
  pose proof (Z.mod_pos_bound x base ltac:(lia)) as Hm. pose proof (Z.div_mod x base ltac:(lia)) as Hdm.
  destruct (Z.eqb_spec (x / base) 0) as [E0|E0].
  - exists [x mod base]. split; [done|]. split; [split; [by apply Forall_singleton|]|].
    { destruct (decide (x mod base = 0)) as [->|]; [by left|right; by exists (x mod base), []]. }
    split; [unfold value; cbn; lia|]. intros k Hk _. cbn. lia.
  - assert (0 < x / base) as Hpos by (pose proof (Z.div_pos x base ltac:(lia) ltac:(lia)); lia).
    assert (forall k, x < base ^ Z.of_nat (S k) -> x / base < base ^ Z.of_nat k) as Hdiv.
    { intros k Hk. apply Z.div_lt_upper_bound; [lia|]. by rewrite Nat2Z.inj_succ, Z.pow_succ_r in Hk by lia. }
    assert (0 < fuel)%nat as Hf'.
    { destruct fuel; [|lia]. change (base ^ Z.of_nat 1) with (base ^ 1) in Hx. rewrite Z.pow_1_r in Hx. by rewrite Z.div_small in Hpos by lia. }
    destruct (IH (x / base)) as (ds & E & [Hd Hl] & Hv & Hk); [split; [lia|apply Hdiv; lia]|done|].
    exists (ds ++ [x mod base]). split; [|split; [|split]].
    + rewrite E, fmap_app, rev_app_distr. done.
    + split; [apply Forall_app; split; [done|by apply Forall_singleton]|].
      right. destruct Hl as [->|(d & ds' & -> & Hd0)]; [unfold value in Hv; cbn in Hv; lia|]. by exists d, (ds' ++ [x mod base]).
    + rewrite value_snoc, Hv. lia.
    + intros k Hk0 Hxk. rewrite length_app. cbn. destruct k as [|[|k]]; [lia| |].
      * change (base ^ Z.of_nat 1) with (base ^ 1) in Hxk. rewrite Z.pow_1_r in Hxk. rewrite Z.div_small in Hpos by lia. lia.
      * assert (length ds <= S k)%nat; [apply Hk; [lia|by apply Hdiv]|lia].
Qed.

(** What printint writes: a minus sign if the number is printed as signed and
    negative, and the numeral of its absolute value; or the numeral of the
    64-bit pattern.  Its 20-byte buffer is large enough. *)
Lemma printint_numeral xx base sgn : base = 10 \/ base = 16 -> -9223372036854775808 <= xx < 9223372036854775808 ->
  exists ds, printint xx base sgn = (if sgn && (xx <? 0) then cstr "-" else []) ++ (digit <$> ds) /\ numeral base ds /\
    value base ds = (if sgn && (xx <? 0) then - xx else u64 xx) /\ (length (int_buf xx base sgn) <= 20)%nat.
Proof.
  intros Hb Hx. unfold printint, int_buf. set (neg := sgn && (xx <? 0)).
  assert (u64 (- xx) = - xx \/ neg = false) as Hneg.
  { subst neg. destruct sgn; cbn; [|by right]. destruct (Z.ltb_spec xx 0); [left; apply u64_id; lia|by right]. }
  assert ((if neg then u64 (- xx) else u64 xx) = (if neg then - xx else u64 xx)) as -> by (destruct neg; [destruct Hneg as [->|]; done|done]).
  set (x := if neg then - xx else u64 xx).
  assert (0 <= x < 18446744073709551616 /\ (neg = true -> x < 9223372036854775809)) as [Hxr Hxn].
  { subst x. destruct neg eqn:En; [|split; [unfold u64; dlia|done]]. subst neg. apply andb_true_iff in En as [_ En%Z.ltb_lt]. lia. }
  assert (18446744073709551616 <= base ^ 64 /\ 18446744073709551616 <= base ^ 20 /\ 9223372036854775809 <= base ^ 19) as (H1 & H2 & H3)
    by (destruct Hb as [->| ->]; (split; [|split]); by apply Z.leb_le; vm_compute).
  destruct (int_digits_spec 64 base x) as (ds & E & Hn & Hv & Hk).
  { clear -Hb. lia. }
  { split; [apply Hxr|]. exact (Z.lt_le_trans _ _ _ (proj2 Hxr) H1). }
  { apply Nat.lt_0_succ. }
  exists ds. split; [|split; [done|split; [done|]]].
  - rewrite E, rev_app_distr, rev_involutive. by destruct neg.
  - rewrite E, length_app, length_rev, length_fmap. destruct neg.
    + pose proof (Hk 19%nat (Nat.lt_0_succ _) (Z.lt_le_trans _ _ _ (Hxn eq_refl) H3)) as Hl. clear -Hl. cbn. lia.
    + pose proof (Hk 20%nat (Nat.lt_0_succ _) (Z.lt_le_trans _ _ _ (proj2 Hxr) H2)) as Hl. clear -Hl. cbn. lia.
Qed.

Lemma digit_10 d : 0 <= d < 10 -> digit d = 48 + d.
Proof.
  intros H. assert (d = 0 \/ d = 1 \/ d = 2 \/ d = 3 \/ d = 4 \/ d = 5 \/ d = 6 \/ d = 7 \/ d = 8 \/ d = 9) as Hc by lia.
  by destruct_or? Hc; subst.
Qed.

Lemma value_step ds n : 0 <= n -> Forall (fun d => 0 <= d < 10) ds -> n <= fold_left (fun n d => n * 10 + d) ds n.
Proof.
  intros Hn Hd. revert n Hn. induction Hd as [|d ds Hd _ IH]; intros n Hn; cbn; [lia|]. specialize (IH (n * 10 + d)). lia.
Qed.

Lemma atoi_loop_spec fuel m s n ds : Forall (fun d => 0 <= d < 10) ds -> ld_bytes m s (length ds) = (digit <$> ds) ->
  is_digit (m (s + Z.of_nat (length ds))) = false -> (length ds < fuel)%nat -> 0 <= n ->
  fold_left (fun n d => n * 10 + d) ds n < 2147483648 ->
  atoi_loop fuel m s n = Some (fold_left (fun n d => n * 10 + d) ds n).
Proof.
  intros Hd. revert fuel s n. induction Hd as [|d ds Hd Hds IH]; intros [|fuel] s n Hl He Hf Hn Hv; cbn in Hf; try lia; cbn [atoi_loop]; unfold ld8.
  - cbn in He. rewrite Z.add_0_r in He. by rewrite He.
  - cbn in Hl. injection Hl as Hs Hl. rewrite Hs, digit_10 by lia. unfold is_digit at 1.
    destruct (Z.leb_spec 48 (48 + d)), (Z.leb_spec (48 + d) 57); try lia. cbn [andb]. cbn in Hv.
    pose proof (value_step ds (n * 10 + d) ltac:(lia) Hds). rewrite i32_id by lia.
    replace (n * 10 + (48 + d) - 48) with (n * 10 + d) by lia. apply IH; [done| |lia|lia|done].
    rewrite <- He. do 2 f_equal. cbn. lia.
Qed.

(** Numbers: printint, as vprintf calls it, writes exactly the numeral of
    its argument in base 10 or 16 (without leading zeros, with a sign only if
    asked for), its 20-byte buffer is never overrun, and atoi reads back every
    non-negative int that was printed in decimal. *)
Theorem printint_atoi xx base sgn : base = 10 \/ base = 16 -> -9223372036854775808 <= xx < 9223372036854775808 ->
  (exists ds, printint xx base sgn = (if sgn && (xx <? 0) then cstr "-" else []) ++ (digit <$> ds) /\ numeral base ds /\
     value base ds = (if sgn && (xx <? 0) then - xx else u64 xx)) /\
  (length (int_buf xx base sgn) <= 20)%nat /\
  (forall m s, base = 10 -> 0 <= xx < 2147483648 -> str_at m s (printint xx base sgn) -> atoi 21 m s = Some xx).
Proof.
  intros Hb Hx. destruct (printint_numeral xx base sgn Hb Hx) as (ds & E & Hn & Hv & Hl).
  split; [by exists ds|]. split; [done|]. intros m s -> Hr (H1 & H2 & _). destruct (Z.ltb_spec xx 0); [lia|]. rewrite andb_false_r in E, Hv.
  cbn [app] in E. rewrite u64_id in Hv by lia.
  assert (length (printint xx 10 sgn) = length ds) as El by (by rewrite E, length_fmap).
  unfold atoi. rewrite El in H1, H2. rewrite E in H1. rewrite (atoi_loop_spec 21 m s 0 ds); [by rewrite <- Hv|apply Hn|done|by rewrite H2|..].
  - unfold printint in El. rewrite length_rev in El. lia.
  - lia.
  - unfold value in Hv. lia.
Qed.

Lemma printint_atoi_witness :
  (exists ds, printint (-1234567890123456789) 10 true = cstr "-" ++ (digit <$> ds) /\ numeral 10 ds /\ value 10 ds = 1234567890123456789) /\
  atoi 21 (st_bytes (fun _ => 0) 4096 (cstr "2147483647")) 4096 = Some 2147483647.
Proof.
  split.
  - destruct (printint_atoi (-1234567890123456789) 10 true) as (H & _ & _); [by left|lia|exact H].
  - destruct (printint_atoi 2147483647 10 true) as (_ & _ & H); [by left|lia|].
    apply H; [done|lia|]. split; [vm_compute; reflexivity|]. split; [vm_compute; reflexivity|]. vm_compute printint. repeat constructor.
Defined.
