(* ===== verification/Utils.v ===== *)
(** * Small programs: cat, wc and echo

    user/cat.c, user/wc.c and user/echo.c.  What a descriptor
    delivers is the list of the answers of read on it, a buffer of up to 512
    bytes or an error, with 0 at its end; write and open are arguments. *)

From Stdlib Require Import ZArith Lia.
From stdpp Require Import base list strings sets.
From S2P Require Import Prelude Mem State Printf Ulib.

(** An answer of read: some bytes, or -1. *)
Inductive answer : Type :=
| RData (bs : list Z)
| RErr.

(** What was written to the standard output, and the status with which the
    program has exited, if it has. *)
Definition result : Type := list Z * option Z.

(** ** cat *)
Section Cat.
(** Whether write(1, buf, n) returns n; what a shorter write has written is left
    out of the result. *)
Context (write_ok : list Z -> bool).

Fixpoint cat (fd : list answer) : result :=
  match fd with
  | [] => ([], None)
  | RErr :: _ => ([], Some 1)
  | RData bs :: fd' =>
      if bool_decide (bs = []) then ([], None)
      else if write_ok bs then let '(out, st) := cat fd' in (bs ++ out, st)
      else ([], Some 1)
  end.

(** The loop over the arguments; [None] is a file that cannot be opened. *)
Fixpoint cat_files (files : list (option (list answer))) : result :=
  match files with
  | [] => ([], Some 0)
  | None :: _ => ([], Some 1)
  | Some fd :: files' =>
      let '(out, st) := cat fd in
      match st with
      | Some _ => (out, st)
      | None => let '(out', st') := cat_files files' in (out ++ out', st')
      end
  end.

Definition cat_main (stdin : list answer) (files : list (option (list answer))) : result :=
  match files with
  | [] => let '(out, st) := cat stdin in (out, Some (default 0 st))
  | _ => cat_files files
  end.
End Cat.

(** ** wc *)
Record counts := mkcounts { ct_l : Z; ct_w : Z; ct_c : Z; ct_inword : bool }.

Definition wc_space : list Z := [32; 13; 9; 10; 11].

Definition wc_char (n : counts) (x : Z) : counts :=
  let c := i32 (ct_c n + 1) in
  let l := if x =? 10 then i32 (ct_l n + 1) else ct_l n in
  if bool_decide (x ∈ wc_space) then mkcounts l (ct_w n) c false
  else if ct_inword n then mkcounts l (ct_w n) c true
  else mkcounts l (i32 (ct_w n + 1)) c true.

(** The counters at the end of the input, or nothing after an error. *)
Fixpoint wc_loop (n : counts) (fd : list answer) : option counts :=
  match fd with
  | [] => Some n
  | RErr :: _ => None
  | RData bs :: fd' => if bool_decide (bs = []) then Some n else wc_loop (fold_left wc_char bs n) fd'
  end.

Definition wc (fd : list answer) (name : list Z) : result :=
  match wc_loop (mkcounts 0 0 0 false) fd with
  | None => (vprintf (cstr "wc: read error" ++ [10]) [], Some 1)
  | Some n => (vprintf (cstr "%d %d %d %s" ++ [10]) [PInt (ct_l n); PInt (ct_w n); PInt (ct_c n); PStr (Some name)], None)
  end.

Fixpoint wc_files (files : list (list Z * option (list answer))) : result :=
  match files with
  | [] => ([], Some 0)
  | (name, None) :: _ => (vprintf (cstr "wc: cannot open %s" ++ [10]) [PStr (Some name)], Some 1)
  | (name, Some fd) :: files' =>
      let '(out, st) := wc fd name in
      match st with
      | Some _ => (out, st)
      | None => let '(out', st') := wc_files files' in (out ++ out', st')
      end
  end.

Definition wc_main (stdin : list answer) (files : list (list Z * option (list answer))) : result :=
  match files with
  | [] => let '(out, st) := wc stdin [] in (out, Some (default 0 st))
  | _ => wc_files files
  end.

(** ** echo *)
Fixpoint echo (args : list (list Z)) : list Z :=
  match args with
  | [] => []
  | a :: args' => a ++ (match args' with [] => [10] | _ => [32] end) ++ echo args'
  end.

(** ** What they compute *)

(** The bytes of an input, up to the first error. *)
Fixpoint delivered (fd : list answer) : list Z :=
  match fd with
  | RData bs :: fd' => if bool_decide (bs = []) then [] else bs ++ delivered fd'
  | _ => []
  end.
Fixpoint intact (fd : list answer) : bool :=
  match fd with
  | [] => true
  | RData bs :: fd' => bool_decide (bs = []) || intact fd'
  | RErr :: _ => false
  end.

(** cat of files that open and can be read writes exactly their contents, one
    after the other; after the first that does not, nothing. *)
Lemma cat_spec fd : cat (fun _ => true) fd = (delivered fd, if intact fd then None else Some 1).
Proof.
  induction fd as [|[bs|] fd IH]; cbn; [done| |done]. case_bool_decide; [done|]. rewrite IH. cbn. done.
Qed.

Lemma cat_files_spec files : (forall f, f ∈ files -> exists fd, f = Some fd /\ intact fd = true) ->
  cat_files (fun _ => true) files = (concat (map (from_option delivered []) files), Some 0).
Proof.
  induction files as [|f files IH]; intros H; cbn; [done|]. destruct (H f ltac:(left)) as (fd & -> & Hi).
  rewrite cat_spec, Hi, IH by (intros f' Hf'; apply H; by right). done.
Qed.

Lemma cat_files_error pre fd post : (forall f, f ∈ pre -> exists fd, f = Some fd /\ intact fd = true) ->
  (fd = None \/ exists a, fd = Some a /\ intact a = false) ->
  cat_files (fun _ => true) (pre ++ fd :: post) = (concat (map (from_option delivered []) (pre ++ [fd])), Some 1).
Proof.
  induction pre as [|f pre IH]; intros H Hfd; cbn [app cat_files].
  - destruct Hfd as [->|(a & -> & Ha)]; [done|]. rewrite cat_spec, Ha. cbn. by rewrite app_nil_r.
  - destruct (H f ltac:(left)) as (fd' & -> & Hi). rewrite cat_spec, Hi, IH by (done || (intros f' Hf'; apply H; by right)). done.
Qed.

(** The words of a text, the first continuing [cur]: maximal runs of bytes
    that are not space. *)
Fixpoint words (cur : list Z) (s : list Z) : list (list Z) :=
  match s with
  | [] => if bool_decide (cur = []) then [] else [cur]
  | x :: s' =>
      if bool_decide (x ∈ wc_space) then (if bool_decide (cur = []) then [] else [cur]) ++ words [] s'
      else words (cur ++ [x]) s'
  end.

Definition newlines (s : list Z) : Z := Z.of_nat (length (filter (.= 10) s)).

(** The counters after a text, for texts of less than 2 GiB. *)
Lemma wc_chars s n (w : Z) cur : ct_inword n = bool_decide (cur <> []) ->
  ct_w n = w + (if ct_inword n then 1 else 0) -> 0 <= w -> 0 <= ct_l n -> 0 <= ct_c n ->
  ct_l n + Z.of_nat (length s) < 2147483648 -> ct_c n + Z.of_nat (length s) < 2147483648 -> ct_w n + Z.of_nat (length s) < 2147483648 ->
  let n' := fold_left wc_char s n in
  ct_l n' = ct_l n + newlines s /\ ct_c n' = ct_c n + Z.of_nat (length s) /\ ct_w n' = w + Z.of_nat (length (words cur s)).
Proof.
  revert n w cur. induction s as [|x s IH]; intros n w cur Hi Hw Hw0 Hl0 Hc0 Hl Hc Hww.
  { cbn. split; [unfold newlines; cbn; lia|]. split; [lia|]. rewrite Hw, Hi. repeat case_bool_decide; cbn; try done; try lia. }
  cbn [fold_left words length] in *. unfold newlines. rewrite filter_cons.
  assert (i32 (ct_c n + 1) = ct_c n + 1) as Ec by (apply i32_id; lia).
  assert (i32 (ct_l n + 1) = ct_l n + 1) as El by (apply i32_id; lia).
  assert (0 <= ct_w n) as Hwn by (destruct (ct_inword n); lia).
  assert (i32 (ct_w n + 1) = ct_w n + 1) as Ew by (apply i32_id; lia).
  set (l := if x =? 10 then ct_l n + 1 else ct_l n).
  assert (ct_l n + Z.of_nat (length (if decide (x = 10) then x :: filter (.= 10) s else filter (.= 10) s)) = l + newlines s) as El'.
  { unfold l, newlines. case_decide; destruct (Z.eqb_spec x 10); try done; cbn; lia. }
  rewrite El'. assert (ct_l n <= l <= ct_l n + 1) as Hlr by (unfold l; destruct (x =? 10); lia). unfold wc_char at 2 4 6. rewrite Ec, El, Ew. fold l.
  destruct (bool_decide (x ∈ wc_space)).
  - destruct (IH (mkcounts l (ct_w n) (ct_c n + 1) false) (ct_w n) []) as (H1 & H2 & H3); cbn [ct_l ct_w ct_c ct_inword] in *; try lia; [done|].
    split; [done|]. split; [lia|]. rewrite H3, length_app, Hw, Hi. repeat case_bool_decide; cbn; try done; lia.
  - destruct (ct_inword n) eqn:En.
    + destruct (IH (mkcounts l (ct_w n) (ct_c n + 1) true) w (cur ++ [x])) as (H1 & H2 & H3); cbn [ct_l ct_w ct_c ct_inword] in *; try lia.
      { symmetry. apply bool_decide_eq_true. by destruct cur. }
    + destruct (IH (mkcounts l (ct_w n + 1) (ct_c n + 1) true) w (cur ++ [x])) as (H1 & H2 & H3); cbn [ct_l ct_w ct_c ct_inword] in *; try lia.
      { symmetry. apply bool_decide_eq_true. by destruct cur. }
Qed.

(** However the input is split into reads, wc counts its newlines, its words
    and its bytes. *)
Theorem wc_spec fd : intact fd = true -> Z.of_nat (length (delivered fd)) < 2147483648 ->
  exists n, wc_loop (mkcounts 0 0 0 false) fd = Some n /\ ct_l n = newlines (delivered fd) /\
    ct_w n = Z.of_nat (length (words [] (delivered fd))) /\ ct_c n = Z.of_nat (length (delivered fd)).
Proof.
  intros Hi Hl. assert (forall n, wc_loop n fd = Some (fold_left wc_char (delivered fd) n)) as ->.
  { clear Hl. induction fd as [|[bs|] fd IH]; intros n; cbn in *; [done| |done]. case_bool_decide; [done|]. by rewrite IH, fold_left_app. }
  eexists. split; [done|].
  destruct (wc_chars (delivered fd) (mkcounts 0 0 0 false) 0 []) as (H1 & H2 & H3); cbn [ct_l ct_w ct_c ct_inword]; try lia; done.
Qed.

(** The arguments of echo, with a space between them and a newline at the end. *)
Lemma echo_spec a args : exists s, echo (a :: args) = s ++ [10] /\ s = a ++ concat (map (cons 32) args).
Proof.
  revert a. induction args as [|b args IH]; intros a; [exists a; by rewrite app_nil_r|].
  change (echo (a :: b :: args)) with (a ++ [32] ++ echo (b :: args)). destruct (IH b) as (s & -> & ->).
  exists (a ++ concat (map (cons 32) (b :: args))). split; [|done]. cbn. rewrite <- !app_assoc. cbn. by rewrite <- !app_assoc.
Qed.
