(* ===== verification/ShellRun.v ===== *)
(** * Running commands

    runcmd of user/sh.c: which programs a command starts, and what their file
    descriptors are.  A descriptor table is the list of its entries; as in the
    kernel (fdalloc in kernel/sysfile.c), a new descriptor is the lowest free
    one.  What open, pipe and fork answer is an argument.  The main loop of the
    shell follows. *)

From Stdlib Require Import ZArith Lia.
From stdpp Require Import base list strings sets.
From S2P Require Import Prelude Mem Shell Ulib.

(** What a descriptor refers to.  A pipe is named by where in the command it
    was made. *)
Inductive fobj : Type :=
| Inherited (n : nat)
| Opened (file : list Z) (mode : Z)
| PipeRead (id : list bool)
| PipeWrite (id : list bool).

Abbreviation fdtable := (list (option fobj)).

(** ** System calls on a table *)
Fixpoint fd_free (t : fdtable) : option nat :=
  match t with
  | [] => None
  | None :: _ => Some 0%nat
  | Some _ :: t' => S <$> fd_free t'
  end.

(** The new descriptor, or none, and the table. *)
Definition fd_add (o : fobj) (t : fdtable) : option nat * fdtable :=
  match fd_free t with
  | Some fd => (Some fd, <[fd := Some o]> t)
  | None => (None, t)
  end.
Definition fd_close (fd : nat) (t : fdtable) : fdtable := <[fd := None]> t.
Definition fd_dup (fd : nat) (t : fdtable) : fdtable :=
  match t !! fd with
  | Some (Some o) => snd (fd_add o t)
  | _ => t
  end.

(** What the other system calls answer, for the command at a place. *)
Class Answers := {
  open_ok : list Z -> Z -> bool;
  pipe_ok : list bool -> bool;
  fork_ok : list bool -> bool
}.

(** ** What a command does

    [Both] are two children at once, and the table with which their parent
    waits for both; [Seq] is a child that is
    waited for, and what comes after it; [Async] is a child that is not;
    [Abandoned] is a child whose parent then fails. *)
Inductive job : Type :=
| Program (argv : list (list Z)) (t : fdtable)
| Failed (msg : string)
| Exit
| Both (l r : job) (parent : fdtable)
| Seq (l r : job)
| Async (j : job)
| Abandoned (j : job) (msg : string).

Section Run.
Context `{Answers}.

Fixpoint runcmd (id : list bool) (c : cmd (list Z)) (t : fdtable) : job :=
  match c with
  | EXEC [] => Exit
  | EXEC argv => Program argv t
  | REDIR c r =>
      let t := fd_close (Z.to_nat (rd_fd r)) t in
      if open_ok (rd_file r) (rd_mode r) then
        match fd_add (Opened (rd_file r) (rd_mode r)) t with
        | (Some _, t) => runcmd (true :: id) c t
        | (None, _) => Failed "open"
        end
      else Failed "open"
  | LIST l r => if fork_ok id then Seq (runcmd (true :: id) l t) (runcmd (false :: id) r t) else Failed "fork"
  | PIPE l r =>
      if negb (pipe_ok id) then Failed "pipe" else
      match fd_add (PipeRead id) t with
      | (Some p0, t1) =>
          match fd_add (PipeWrite id) t1 with
          | (Some p1, t2) =>
              if fork_ok (true :: id) then
                let j1 := runcmd (true :: id) l (fd_close p1 (fd_close p0 (fd_dup p1 (fd_close 1 t2)))) in
                if fork_ok (false :: id) then
                  Both j1 (runcmd (false :: id) r (fd_close p1 (fd_close p0 (fd_dup p0 (fd_close 0 t2)))))
                    (fd_close p1 (fd_close p0 t2))
                else Abandoned j1 "fork"
              else Failed "fork"
          | (None, _) => Failed "pipe"
          end
      | (None, _) => Failed "pipe"
      end
  | BACK c => if fork_ok id then Async (runcmd (true :: id) c t) else Failed "fork"
  end.

(** ** How a command should be wired *)
Fixpoint wired (id : list bool) (c : cmd (list Z)) (t : fdtable) : job :=
  match c with
  | EXEC [] => Exit
  | EXEC argv => Program argv t
  | REDIR c r => if open_ok (rd_file r) (rd_mode r) then wired (true :: id) c (<[Z.to_nat (rd_fd r) := Some (Opened (rd_file r) (rd_mode r))]> t)
                 else Failed "open"
  | LIST l r => if fork_ok id then Seq (wired (true :: id) l t) (wired (false :: id) r t) else Failed "fork"
  | PIPE l r =>
      if negb (pipe_ok id) then Failed "pipe" else
      if fork_ok (true :: id) then
        let j1 := wired (true :: id) l (<[1%nat := Some (PipeWrite id)]> t) in
        if fork_ok (false :: id) then Both j1 (wired (false :: id) r (<[0%nat := Some (PipeRead id)]> t)) t else Abandoned j1 "fork"
      else Failed "fork"
  | BACK c => if fork_ok id then Async (wired (true :: id) c t) else Failed "fork"
  end.
End Run.

(** The standard descriptors are open, and two others are free. *)
Definition table_ok (t : fdtable) : Prop :=
  (forall fd, (fd < 3)%nat -> exists o, t !! fd = Some (Some o)) /\
  exists a b, (a < b)%nat /\ t !! a = Some None /\ t !! b = Some None.

(** Redirections are of the standard input or output. *)
Fixpoint shape_fds {W} (c : cmd W) : Prop :=
  match c with
  | EXEC _ => True
  | REDIR c r => shape_fds c /\ (Z.to_nat (rd_fd r) < 2)%nat
  | PIPE l r => shape_fds l /\ shape_fds r
  | LIST l r => shape_fds l /\ shape_fds r
  | BACK c => shape_fds c
  end.

Lemma fd_free_spec t fd : fd_free t = Some fd <-> t !! fd = Some None /\ forall i, (i < fd)%nat -> exists o, t !! i = Some (Some o).
Proof.
  revert fd. induction t as [|[o|] t IH]; intros fd; cbn.
  - split; [done|]. intros [H _]. done.
  - rewrite fmap_Some. setoid_rewrite IH. split.
    + intros (i & [H1 H2] & ->). split; [done|]. intros [|j] Hj; [by exists o|]. apply H2. lia.
    + intros [H1 H2]. destruct fd as [|fd]; [done|]. exists fd. split; [|done]. split; [done|]. intros i Hi. apply (H2 (S i)). lia.
  - split.
    + intros [= <-]. split; [done|]. intros i Hi. lia.
    + intros [H1 H2]. destruct fd as [|fd]; [done|]. destruct (H2 0%nat ltac:(lia)) as [o Ho]. done.
Qed.

Lemma fd_free_some (t : fdtable) a : t !! a = Some None -> exists fd, fd_free t = Some fd /\ (fd <= a)%nat.
Proof.
  revert a. induction t as [|[o|] t IH]; intros a Ha; cbn; [done| |by exists 0%nat; split; [|lia]].
  destruct a as [|a]; [done|]. destruct (IH a Ha) as (fd & -> & Hle). exists (S fd). split; [done|lia].
Qed.

Lemma table_insert t fd o : table_ok t -> (fd < 2)%nat -> table_ok (<[fd := Some o]> t).
Proof.
  intros [H1 (a & b & Hab & Ha & Hb)] Hfd. split.
  - intros i Hi. destruct (decide (fd = i)) as [->|Hn]; [|rewrite list_lookup_insert_ne by done; auto].
    exists o. apply list_lookup_insert_eq. destruct (H1 i Hi) as [o' Ho]. by eapply lookup_lt_Some.
  - assert (forall c, t !! c = Some None -> fd <> c) as Hne by (intros c Hc ->; destruct (H1 c ltac:(lia)); congruence).
    exists a, b. split; [done|]. rewrite !list_lookup_insert_ne by auto. done.
Qed.

(** close(fd), then open or dup: the descriptor is [fd] again. *)
Lemma reopen t fd o : table_ok t -> (fd < 2)%nat -> fd_add o (fd_close fd t) = (Some fd, <[fd := Some o]> t).
Proof.
  intros [H1 _] Hfd. unfold fd_add, fd_close. assert (fd < length t)%nat as Hl.
  { destruct (H1 fd ltac:(lia)) as [o' Ho]. by eapply lookup_lt_Some. }
  assert (fd_free (<[fd := None]> t) = Some fd) as ->.
  { apply fd_free_spec. split; [by apply list_lookup_insert_eq|]. intros i Hi. rewrite list_lookup_insert_ne by lia. apply H1. lia. }
  by rewrite list_insert_insert_eq.
Qed.

(** pipe: two descriptors above the standard ones. *)
Lemma pipe_fds t o1 o2 : table_ok t -> exists a b, (3 <= a)%nat /\ (3 <= b)%nat /\ a <> b /\ t !! a = Some None /\ t !! b = Some None /\
  fd_add o1 t = (Some a, <[a := Some o1]> t) /\ fd_add o2 (<[a := Some o1]> t) = (Some b, <[b := Some o2]> (<[a := Some o1]> t)).
Proof.
  intros [H1 (c & d & Hcd & Hc & Hd)]. destruct (fd_free_some t c Hc) as (a & Ea & Hac). apply fd_free_spec in Ea as Ha. destruct Ha as [Ha _].
  assert (3 <= a)%nat as Ha3. { destruct (decide (3 <= a)%nat); [done|]. destruct (H1 a ltac:(lia)). congruence. }
  assert ((<[a := Some o1]> t) !! d = Some None) as Hd' by (rewrite list_lookup_insert_ne by lia; done).
  destruct (fd_free_some _ d Hd') as (b & Eb & _). apply fd_free_spec in Eb as Hb. destruct Hb as [Hb _].
  assert (a <> b) as Hab.
  { intros <-. rewrite list_lookup_insert_eq in Hb by (by eapply lookup_lt_Some). done. }
  rewrite list_lookup_insert_ne in Hb by done.
  assert (3 <= b)%nat as Hb3. { destruct (decide (3 <= b)%nat); [done|]. destruct (H1 b ltac:(lia)). congruence. }
  exists a, b. unfold fd_add. rewrite Ea, Eb. done.
Qed.

(** The child of a pipeline: the end of the pipe in place of [fd], and neither
    of the two other descriptors. *)
Lemma child_fds t a b fd o1 o2 e o : table_ok t -> (fd < 2)%nat -> (3 <= a)%nat -> (3 <= b)%nat -> a <> b -> t !! a = Some None -> t !! b = Some None ->
  (e = a /\ o = o1 \/ e = b /\ o = o2) ->
  fd_close b (fd_close a (fd_dup e (fd_close fd (<[b := Some o2]> (<[a := Some o1]> t))))) = <[fd := Some o]> t.
Proof.
  intros Ht Hfd Ha Hb Hab Hta Htb He. set (t2 := <[b := Some o2]> (<[a := Some o1]> t)).
  assert (t2 !! e = Some (Some o)) as Hte.
  { unfold t2. destruct He as [[-> ->]|[-> ->]]; [rewrite list_lookup_insert_ne by done|]; apply list_lookup_insert_eq;
      rewrite ?length_insert; by eapply lookup_lt_Some. }
  assert (forall i, (i < 3)%nat -> exists o', t2 !! i = Some (Some o')) as Hstd.
  { intros i Hi. unfold t2. rewrite !list_lookup_insert_ne by lia. by apply Ht. }
  assert (fd_dup e (fd_close fd t2) = <[fd := Some o]> t2) as ->.
  { unfold fd_dup. unfold fd_close at 1. rewrite list_lookup_insert_ne by lia. rewrite Hte.
    unfold fd_add, fd_close. assert (fd < length t2)%nat as Hl by (destruct (Hstd fd ltac:(lia)) as [o' Ho]; by eapply lookup_lt_Some).
    assert (fd_free (<[fd := None]> t2) = Some fd) as ->; [|cbn; by rewrite list_insert_insert_eq].
    apply fd_free_spec. split; [by apply list_lookup_insert_eq|]. intros i Hi. rewrite list_lookup_insert_ne by lia. apply Hstd. lia. }
  unfold fd_close, t2. apply list_eq. intros i. destruct (decide (i = b)) as [->|Hib].
  { rewrite list_lookup_insert_eq by (rewrite !length_insert; by eapply lookup_lt_Some). rewrite list_lookup_insert_ne by lia. done. }
  rewrite list_lookup_insert_ne by done. destruct (decide (i = a)) as [->|Hia].
  { rewrite list_lookup_insert_eq by (rewrite !length_insert; by eapply lookup_lt_Some). rewrite list_lookup_insert_ne by lia. done. }
  rewrite list_lookup_insert_ne by done. destruct (decide (i = fd)) as [->|Hif].
  { destruct (proj1 Ht fd ltac:(lia)) as [o' Ho]. rewrite !list_lookup_insert_eq by (rewrite ?length_insert; by eapply lookup_lt_Some). done. }
  rewrite !list_lookup_insert_ne by done. done.
Qed.

(** The parent of a pipeline: its own descriptors again. *)
Lemma parent_fds t a b o1 o2 : a <> b -> t !! a = Some None -> t !! b = Some None ->
  fd_close b (fd_close a (<[b := Some o2]> (<[a := Some o1]> t))) = t.
Proof.
  intros Hab Ha Hb. unfold fd_close. rewrite list_insert_insert_ne by done. rewrite !list_insert_insert_eq.
  rewrite (list_insert_insert_ne _ a b), list_insert_insert_eq by done. by rewrite (list_insert_id t a), list_insert_id.
Qed.

(** C35. The shell wires its programs as written: a redirection replaces just
    its descriptor by the file, the command to the left of a pipe writes to
    it, the one to the right reads from it, no program inherits another end of
    a pipe and the parent waits with neither end open, so that the reader sees
    its end; sequences, background jobs and failures are as [wired] says. *)
Theorem runcmd_wired `{Answers} id c t : shape_fds c -> table_ok t -> runcmd id c t = wired id c t.
Proof.
  revert id t. induction c as [argv|c IH r|l IHl r IHr|l IHl r IHr|c IH]; intros id t Hc Ht; cbn [runcmd wired].
  - done.
  - destruct Hc as [Hc Hr]. destruct (open_ok _ _); [|done]. rewrite reopen by done. apply IH; [done|]. by apply table_insert.
  - destruct Hc as [Hl Hr]. destruct (pipe_ok id); cbn [negb]; [|done]. destruct (pipe_fds t (PipeRead id) (PipeWrite id) Ht) as (a & b & Ha & Hb & Hab & Hta & Htb & -> & ->).
    destruct (fork_ok (true :: id)); [|done].
    rewrite (child_fds t a b 1 _ _ b (PipeWrite id)) by (lia || (by right) || done). rewrite IHl by (done || (apply table_insert; [done|lia])).
    destruct (fork_ok (false :: id)); [|done].
    rewrite (child_fds t a b 0 _ _ a (PipeRead id)) by (lia || (by left) || done). rewrite parent_fds by done. by rewrite IHr by (done || (apply table_insert; [done|lia])).
  - destruct Hc as [Hl Hr]. by rewrite IHl, IHr.
  - by rewrite IH.
Qed.

(** The shell's own table, and [a <f | b]. *)
Definition sh_table : fdtable := Some (Inherited 0) :: Some (Inherited 1) :: Some (Inherited 2) :: replicate 13 None.
Definition sh_cmd : cmd (list Z) := PIPE (REDIR (EXEC [[97]]) (mkredir [102] 0 0)) (EXEC [[98]]).

Lemma runcmd_wired_witness :
  @runcmd {| open_ok := fun _ _ => true; pipe_ok := fun _ => true; fork_ok := fun _ => true |} [] sh_cmd sh_table =
  Both (Program [[97]] (Some (Opened [102] 0) :: Some (PipeWrite []) :: Some (Inherited 2) :: replicate 13 None))
       (Program [[98]] (Some (PipeRead []) :: Some (Inherited 1) :: Some (Inherited 2) :: replicate 13 None))
       sh_table.
Proof.
  rewrite runcmd_wired; [reflexivity|cbn; lia|]. split.
  - intros [|[|[|fd]]] Hfd; [by eexists..|lia].
  - exists 3%nat, 4%nat. split; [lia|done].
Defined.

(** ** The shell's main loop

    getcmd and main of user/sh.c: the shell makes sure that its standard
    descriptors are open, and then reads its input line by line into a buffer
    of 100 bytes; a line is blank, a change of directory, or a command for a
    child.  What the system calls answer is an argument, for each line. *)

Definition NBUF_SH : Z := 100.
Definition O_RDWR : Z := 2.
Definition console_name : list Z := [99; 111; 110; 115; 111; 108; 101].

(** open of the console, if it works, until a descriptor is 3 or more; that
    one is closed.  The table bounds the number of rounds. *)
Fixpoint open_std (fuel : nat) (console_ok : bool) (t : fdtable) : fdtable :=
  match fuel with
  | O => t
  | S fuel' =>
      if negb console_ok then t else
      match fd_add (Opened console_name O_RDWR) t with
      | (None, t') => t'
      | (Some fd, t') => if (3 <=? fd)%nat then fd_close fd t' else open_std fuel' console_ok t'
      end
  end.

(** getcmd: prompt (not modelled), clear the buffer, read a line. *)
Definition getcmd (inp : list Z) (m : memory) (buf nbuf : Z) : Z * memory * list Z :=
  let m := Ulib.memset m buf 0 nbuf in
  let '(m, inp) := Ulib.gets inp m buf nbuf in
  (if ld8 m buf =? 0 then -1 else 0, m, inp).

(** The string in the buffer. *)
Definition buf_string (m : memory) (buf nbuf : Z) : list Z := cstring (ld_bytes m buf (Z.to_nat nbuf)).

Fixpoint skip_blank (s : list Z) : list Z :=
  match s with
  | c :: s' => if (c =? 32) || (c =? 9) then skip_blank s' else s
  | [] => []
  end.

(** What a line made the shell do: chdir to a path, and whether it worked, or
    a child that runs a command. *)
Inductive sh_event : Type :=
| Chdir (path : list Z) (ok : bool)
| Child (j : job).

(** What the system calls answer to the shell and to its child on a line. *)
Record sh_answers := { chdir_ok : list Z -> bool; fork1_ok : bool; child_answers : Answers }.

(** The child: parse and run. *)
Definition run_child (A : sh_answers) (text : list Z) (t : fdtable) : job :=
  match parsecmd text with
  | Parsed c _ => @runcmd (child_answers A) [] c t
  | Syntax msg => Failed msg
  | NoFuel => Failed "fuel"
  end.

(** The body of the loop on the string in the buffer: what it did, and whether
    the shell goes on. *)
Definition sh_line (A : sh_answers) (text : list Z) (t : fdtable) : list sh_event * bool :=
  match skip_blank text with
  | 10 :: _ => ([], true)
  | 99 :: 100 :: 32 :: _ as cmd =>
      let path := drop 3 (removelast cmd) in
      ([Chdir path (chdir_ok A path)], true)
  | cmd => if fork1_ok A then ([Child (run_child A cmd t)], true) else ([], false)
  end.

(** The exit status and the events. *)
Fixpoint sh_loop (fuel : nat) (n : nat) (A : nat -> sh_answers) (inp : list Z) (m : memory) (buf : Z) (t : fdtable) :
    option (list sh_event * Z) :=
  match fuel with
  | O => None
  | S fuel' =>
      let '(r, m, inp) := getcmd inp m buf NBUF_SH in
      if r <? 0 then Some ([], 0)
      else
        let '(ev, go) := sh_line (A n) (buf_string m buf NBUF_SH) t in
        if go then (fun p => (ev ++ p.1, p.2)) <$> sh_loop fuel' (S n) A inp m buf t
        else Some (ev, 1)
  end.

Definition sh_main (A : nat -> sh_answers) (console_ok : bool) (inp : list Z) (m : memory) (buf : Z) (t : fdtable) :
    option (list sh_event * Z) :=
  sh_loop (S (length inp)) 0 A inp m buf (open_std (S (length t)) console_ok t).

(** ** What the shell should do with its input *)
Definition eol (c : Z) : bool := (c =? 10) || (c =? 13).

(** A line: its end, if it has one, is its last byte, and it fits the buffer. *)
Definition line_ok (l : list Z) : Prop :=
  l <> [] /\ (length l <= 99)%nat /\ forall a c b, l = a ++ c :: b -> eol c = true -> b = [].
Definition line_full (l : list Z) : Prop := length l = 99%nat \/ exists a c, l = a ++ [c] /\ eol c = true.

(** Lines, all but the last full. *)
Inductive cut : list (list Z) -> Prop :=
| cut_nil : cut []
| cut_last l : line_ok l -> cut [l]
| cut_cons l ls : line_ok l -> line_full l -> cut ls -> cut (l :: ls).

Fixpoint run_lines (n : nat) (A : nat -> sh_answers) (ls : list (list Z)) (t : fdtable) : list sh_event * Z :=
  match ls with
  | [] => ([], 0)
  | l :: ls' =>
      let '(ev, go) := sh_line (A n) l t in
      if go then let p := run_lines (S n) A ls' t in (ev ++ p.1, p.2) else (ev, 1)
  end.

Definition used (t : fdtable) (i : nat) : Prop := exists o, t !! i = Some (Some o).

(** ** Proofs *)
Lemma fd_free_none t i : fd_free t = None -> (i < length t)%nat -> used t i.
Proof.
  revert i. induction t as [|[o|] t IH]; intros i H Hi; cbn in *; [lia| |done].
  destruct i as [|i]; [by exists o|]. apply (IH i); [|lia]. by destruct (fd_free t).
Qed.

Lemma open_std_spec fuel k t : (forall i, (i < k)%nat -> used t i) -> (4 <= fuel + k)%nat -> (3 <= length t)%nat ->
  (forall i, (i < 3)%nat -> used (open_std fuel true t) i) /\
  (forall i, (3 <= i)%nat \/ used t i -> open_std fuel true t !! i = t !! i).
Proof.
  revert k t. induction fuel as [|fuel IH]; intros k t Hk Hf Hl; cbn [open_std negb].
  - split; [intros i Hi; apply Hk; lia|done].
  - unfold fd_add. destruct (fd_free t) as [fd|] eqn:E; [|split; [intros i Hi; apply fd_free_none; [done|lia]|done]].
    apply fd_free_spec in E as [E1 E2]. pose proof (lookup_lt_Some _ _ _ E1) as Hlt. destruct (Nat.leb_spec 3 fd).
    + unfold fd_close. rewrite list_insert_insert_eq, list_insert_id by done. split; [|done]. intros i Hi. apply E2. lia.
    + destruct (IH (S fd) (<[fd := Some (Opened console_name O_RDWR)]> t)) as [H1 H2].
      * intros i Hi. destruct (decide (i = fd)) as [->|Hn]; [eexists; by apply list_lookup_insert_eq|].
        unfold used. rewrite list_lookup_insert_ne by done. apply E2. lia.
      * assert (k <= fd)%nat; [|lia]. destruct (decide (k <= fd)%nat); [done|]. destruct (Hk fd ltac:(lia)) as [o Ho]. congruence.
      * by rewrite length_insert.
      * split; [done|]. intros i Hi. assert (i <> fd) as Hn by (destruct Hi as [Hi|[o Ho]]; [lia|congruence]).
        rewrite H2; unfold used; rewrite list_lookup_insert_ne by done; done.
Qed.

Lemma next_line_ok n inp : (0 < n)%nat -> inp <> [] -> let '(l, rest) := next_line n inp in
  l <> [] /\ (length l <= n)%nat /\ (forall a c b, l = a ++ c :: b -> eol c = true -> b = []) /\
  (rest = [] \/ length l = n \/ exists a c, l = a ++ [c] /\ eol c = true).
Proof.
  revert inp. induction n as [|n IH]; intros [|c inp] Hn Hi; [lia..|done|]. cbn. fold (eol c). destruct (eol c) eqn:Ec.
  - split; [done|]. split; [cbn; lia|]. split; [|right; right; by exists [], c]. intros [|x a] d b E _; injection E; [done|]. by destruct a.
  - destruct (decide (n = 0%nat)) as [->|Hn0].
    { destruct inp; cbn; (split; [done|]; split; [lia|]; split; [|by right; left]); intros [|x a] d b E; injection E; [done| |done|]; by destruct a. }
    destruct (decide (inp = [])) as [->|Hi'].
    { destruct n; [done|]. cbn. split; [done|]; split; [lia|]; split; [|by left]. intros [|x a] d b E; injection E; [done|]; by destruct a. }
    specialize (IH inp ltac:(lia) Hi'). destruct (next_line n inp) as [l rest]. destruct IH as (H1 & H2 & H3 & H4). split; [done|].
    split; [cbn; lia|]. split.
    + intros [|x a] d b E Hd; injection E as -> E; [congruence|]. by eapply H3.
    + destruct H4 as [->|[<-|(a & d & -> & Hd)]]; [by left|right; by left|]. right; right. by exists (c :: a), d.
Qed.

Lemma cstring_app l s : Forall (fun c => 0 < c < 256) l -> cstring (l ++ 0 :: s) = l.
Proof. induction 1 as [|c l Hc _ IH]; cbn; [done|]. destruct (Z.eqb_spec c 0); [lia|]. by rewrite IH. Qed.

Lemma buf_line m buf l : Forall (fun c => 0 < c < 256) l -> (length l <= 99)%nat ->
  buf_string (st_bytes m buf (l ++ [0])) buf NBUF_SH = l /\ ld8 (st_bytes m buf (l ++ [0])) buf = (match l with c :: _ => c | [] => 0 end).
Proof.
  intros Hl Hn. assert (Forall byte_ok (l ++ [0])) as Hb.
  { apply Forall_app. split; [|by repeat constructor]. eapply Forall_impl; [exact Hl|]. unfold byte_ok. intros; cbn in *; lia. }
  assert (ld_bytes (st_bytes m buf (l ++ [0])) buf (length (l ++ [0])) = l ++ [0]) as E by (by apply ld_st_bytes).
  split.
  - unfold buf_string. change (Z.to_nat NBUF_SH) with 100%nat.
    assert (100 = length (l ++ [0%Z]) + (99 - length l))%nat as -> by (rewrite length_app; cbn; lia).
    rewrite ld_bytes_app, E, <- app_assoc. cbn [app]. by apply cstring_app.
  - rewrite length_app, Nat.add_comm in E. cbn in E. unfold ld8. destruct l; by injection E.
Qed.

Lemma getcmd_line inp m buf : Forall (fun c => 0 < c < 256) inp -> exists m', let '(l, rest) := next_line 99 inp in
  getcmd inp m buf NBUF_SH = ((match l with [] => -1 | _ => 0 end), m', rest) /\ buf_string m' buf NBUF_SH = l.
Proof.
  intros Hi. pose proof (gets_spec inp (Ulib.memset m buf 0 NBUF_SH) buf NBUF_SH ltac:(done)) as H.
  change (Z.to_nat (NBUF_SH - 1)) with 99%nat in H. pose proof (next_line_app 99 inp) as Ha. pose proof (next_line_length 99 inp) as Hl.
  destruct (next_line 99 inp) as [l rest]. cbn [fst snd] in Ha, Hl. destruct H as [E _]. rewrite <- Ha in Hi. apply Forall_app in Hi as [Hi _].
  destruct (buf_line (Ulib.memset m buf 0 NBUF_SH) buf l Hi Hl) as [H1 H2]. eexists. split; [|exact H1].
  unfold getcmd. rewrite E, H2. destruct l as [|c l]; [done|]. apply Forall_cons in Hi as [Hc _]. by destruct (Z.eqb_spec c 0); [lia|].
Qed.

Lemma sh_loop_lines fuel n A inp m buf t : Forall (fun c => 0 < c < 256) inp -> (length inp < fuel)%nat ->
  exists ls, concat ls = inp /\ cut ls /\ sh_loop fuel n A inp m buf t = Some (run_lines n A ls t).
Proof.
  revert n inp m. induction fuel as [|fuel IH]; intros n inp m Hi Hf; [lia|]. cbn [sh_loop].
  destruct (getcmd_line inp m buf Hi) as [m' Hg]. pose proof (next_line_app 99 inp) as Ha. pose proof (next_line_ok 99 inp ltac:(lia)) as Hok.
  destruct (next_line 99 inp) as [l rest]. cbn [fst snd] in Ha. destruct Hg as [-> Eb]. rewrite Eb.
  destruct (decide (inp = [])) as [->|Hne].
  { apply app_nil in Ha as [-> ->]. exists []. repeat split. constructor. }
  destruct (Hok Hne) as (H1 & H2 & H3 & H4). assert (line_ok l) as Hlo by done.
  assert (((match l with [] => -1 | _ => 0 end) <? 0) = false) as -> by (by destruct l).
  rewrite <- Ha in Hi. apply Forall_app in Hi as [_ Hi]. destruct (IH (S n) rest m' Hi) as (ls & E1 & E2 & E3).
  { rewrite <- Ha, length_app in Hf. destruct l; [done|]. cbn in Hf. lia. }
  exists (l :: ls). split; [by cbn; rewrite E1|]. split.
  - destruct H4 as [->|H4]; [|by constructor]. destruct E2 as [|l' [Hl' _]|l' ls' [Hl' _]]; [by constructor|..];
      cbn in E1; by apply app_nil in E1 as [E1 _].
  - cbn [run_lines]. destruct (sh_line (A n) l t) as [ev []]; [by rewrite E3|done].
Qed.

(** The shell's loop: whatever its standard descriptors were, the three
    are open when it reads its first line, and no descriptor that was open has
    changed; its input, any text without NUL bytes, is cut into lines of at
    most 99 bytes, none lost and none run twice, and each line does what
    [sh_line] says of it, until the end of the input or a fork that fails. *)
Theorem sh_main_lines A inp m buf t : Forall (fun c => 0 < c < 256) inp -> (3 <= length t)%nat ->
  exists ls t', concat ls = inp /\ cut ls /\ sh_main A true inp m buf t = Some (run_lines 0 A ls t') /\
    (forall i, (i < 3)%nat -> used t' i) /\ (forall i, (3 <= i)%nat \/ used t i -> t' !! i = t !! i).
Proof.
  intros Hi Ht. unfold sh_main. destruct (open_std_spec (S (length t)) 0 t) as [H1 H2]; [lia|lia|done|].
  destruct (sh_loop_lines (S (length inp)) 0 A inp m buf (open_std (S (length t)) true t) Hi ltac:(lia)) as (ls & E1 & E2 & E3).
  by exists ls, (open_std (S (length t)) true t).
Qed.

(** A shell started with no descriptor, on the input [cd /] and [b&c]. *)
Definition sh_input : list Z := [99; 100; 32; 47; 10; 98; 38; 99; 10].
Definition sh_ok : nat -> sh_answers := fun _ =>
  {| chdir_ok := fun _ => true; fork1_ok := true; child_answers := {| open_ok := fun _ _ => true; pipe_ok := fun _ => true; fork_ok := fun _ => true |} |}.

Lemma sh_main_lines_witness : exists ls t', concat ls = sh_input /\ cut ls /\
  sh_main sh_ok true sh_input (fun _ => 0) 4096 (replicate 16 None) = Some (run_lines 0 sh_ok ls t') /\ forall i, (i < 3)%nat -> used t' i.
Proof.
  destruct (sh_main_lines sh_ok sh_input (fun _ => 0) 4096 (replicate 16 None)) as (ls & t' & H1 & H2 & H3 & H4 & _);
    [repeat constructor; lia|cbn; lia|]. exists ls, t'. split; [exact H1|]. split; [exact H2|]. split; [exact H3|exact H4].
Defined.
