(* ===== verification/Bio.v ===== *)
(** * The buffer cache (kernel/bio.c)

    A pointer to a buffer is its index in [bcache.buf]; [bhead] stands for
    [bcache.head]. *)

From Stdlib Require Import ZArith Lia.
From stdpp Require Import base list strings sets.
From S2P Require Import Prelude Params Mem State Evict Kalloc Vm Sched Sleeplock.

(** What bio.c calls of the disk driver: transfer a buffer, to the disk if the
    flag is set and from it otherwise.  [disk_ready] is the driver's own
    condition on its data and on the thread being resumed when it waits. *)
Class Disk := {
  virtio_disk_rw : nat -> bool -> KM unit;
  disk_ready : vdisk -> option nat -> Prop
}.

Definition bhead : nat := Z.to_nat NBUF.

Definition getb (b : nat) : KM buf := gets (fun k => k_bufs k !!! b).
Definition updb (b : nat) (f : buf -> buf) : KM unit :=
  modify (fun k => k <| k_bufs ::= alter f b |>).

(** Put [b] between the head and the first buffer of the list. *)
Definition link_front (b : nat) : KM unit :=
  let! h := getb bhead in
  do! updb (b_next h) (set b_prev (fun _ => b));
  updb bhead (set b_next (fun _ => b)).

Definition binit : KM unit :=
  do! initlock L_bcache;
  do! updb bhead (set b_prev (fun _ => bhead));
  do! updb bhead (set b_next (fun _ => bhead));
  for_range (Z.to_nat NBUF) 0 (fun i =>
    let b := Z.to_nat i in
    let! h := getb bhead in
    do! updb b (set b_next (fun _ => b_next h));
    do! updb b (set b_prev (fun _ => bhead));
    do! initsleeplock (buflock b);
    link_front b).

(** [for(b = first; b != &bcache.head; b = step(b)) if(test(b)) ...]: the first
    buffer that satisfies the test.  The list has [NBUF] buffers; going around
    for longer than that is a loop that does not end. *)
Fixpoint bscan (fuel : nat) (step : buf -> nat) (test : buf -> bool) (b : nat) : KM (option nat) :=
  if bool_decide (b = bhead) then ret None
  else
    match fuel with
    | O => Asleep
    | S fuel' =>
        let! x := getb b in
        if test x then ret (Some b) else bscan fuel' step test (step x)
    end.

Section Bio.
Context {I : Interference} {D : Disk}.

Definition bget (dev blockno : Z) : KM nat :=
  do! acquire L_bcache;
  let! h := getb bhead in
  let! r := bscan (Z.to_nat NBUF) b_next (fun b => (b_dev b =? dev) && (b_blockno b =? blockno)) (b_next h) in
  match r with
  | Some b =>
      do! updb b (set b_refcnt (fun n => u32 (n + 1)));
      do! release L_bcache;
      do! acquiresleep (buflock b);
      ret b
  | None =>
      let! r := bscan (Z.to_nat NBUF) b_prev (fun b => b_refcnt b =? 0) (b_prev h) in
      match r with
      | Some b =>
          do! updb b (fun x => x <| b_dev := dev |> <| b_blockno := blockno |> <| b_valid := 0 |>
                                 <| b_refcnt := 1 |>);
          do! release L_bcache;
          do! acquiresleep (buflock b);
          ret b
      | None => panic "bget: no buffers"
      end
  end.

Definition bread (dev blockno : Z) : KM nat :=
  let! b := bget dev blockno in
  let! x := getb b in
  do! when (b_valid x =? 0)
        (do! virtio_disk_rw b false;
         updb b (set b_valid (fun _ => 1)));
  ret b.

Definition bwrite (b : nat) : KM unit :=
  let! h := holdingsleep (buflock b) in
  if negb h then panic "bwrite"
  else virtio_disk_rw b true.

Definition brelse (b : nat) : KM unit :=
  let! h := holdingsleep (buflock b) in
  if negb h then panic "brelse"
  else
    do! releasesleep (buflock b);
    do! acquire L_bcache;
    do! updb b (set b_refcnt (fun n => u32 (n - 1)));
    let! x := getb b in
    do! when (b_refcnt x =? 0)
          (do! updb (b_next x) (set b_prev (fun _ => b_prev x));
           do! updb (b_prev x) (set b_next (fun _ => b_next x));
           let! h := getb bhead in
           do! updb b (set b_next (fun _ => b_next h));
           do! updb b (set b_prev (fun _ => bhead));
           link_front b);
    release L_bcache.

Definition bpin (b : nat) : KM unit :=
  do! acquire L_bcache;
  do! updb b (set b_refcnt (fun n => u32 (n + 1)));
  release L_bcache.

Definition bunpin (b : nat) : KM unit :=
  do! acquire L_bcache;
  do! updb b (set b_refcnt (fun n => u32 (n - 1)));
  release L_bcache.
End Bio.
