(* ===== verification/BioSpec.v ===== *)
(** * The buffer list and what the cache operations do to it *)

From Stdlib Require Import ZArith Lia.
From stdpp Require Import base list strings sets.
From S2P Require Import Prelude Params Mem State Evict Kalloc Vm Sched SchedSpec SchedProps Sleeplock Bio.

(** ** Doubly linked segments *)

(** The nodes [l] lie between [x] and [y], linked in both directions. *)
Fixpoint linked (bs : list buf) (x : nat) (l : list nat) (y : nat) : Prop :=
  match l with
  | [] => b_next (bs !!! x) = y /\ b_prev (bs !!! y) = x
  | a :: t => b_next (bs !!! x) = a /\ b_prev (bs !!! a) = x /\ linked bs a t y
  end.

(** The circular list through [bcache.head], most recently used first. *)
Definition ring (bs : list buf) (l : list nat) : Prop := linked bs bhead l bhead.

Lemma linked_app bs x l1 a l2 y :
  linked bs x (l1 ++ a :: l2) y <-> linked bs x l1 a /\ linked bs a l2 y.
Proof.
  revert x. induction l1 as [|b t IH]; intros x; cbn; [naive_solver|]. rewrite IH. naive_solver.
Qed.

Lemma linked_ext bs bs' x l y :
  (forall i, i ∈ x :: l -> b_next (bs' !!! i) = b_next (bs !!! i)) ->
  (forall i, i ∈ l ++ [y] -> b_prev (bs' !!! i) = b_prev (bs !!! i)) ->
  linked bs x l y -> linked bs' x l y.
Proof.
  revert x. induction l as [|a t IH]; intros x Hn Hp; cbn.
  - intros [H1 H2]. rewrite Hn, Hp by set_solver. done.
  - intros (H1 & H2 & H3). rewrite Hn, Hp by set_solver. split; [done|]. split; [done|].
    apply IH; [set_solver|set_solver|done].
Qed.

(** First and last node. *)
Lemma linked_first bs x l y : linked bs x l y -> b_next (bs !!! x) = hd y l.
Proof. destruct l; cbn; naive_solver. Qed.
Lemma linked_last bs x l y : linked bs x l y -> b_prev (bs !!! y) = default x (last l).
Proof.
  revert x. induction l as [|a t IH]; intros x; cbn [linked]; [naive_solver|]. intros (_ & _ & H).
  rewrite (IH _ H), last_cons. by destruct (last t).
Qed.

(** Make the last node of a segment point to another end. *)
Lemma linked_retarget bs bs' x l y y' :
  linked bs x l y -> NoDup (x :: l) ->
  (forall i, i ∈ x :: l -> i <> default x (last l) -> b_next (bs' !!! i) = b_next (bs !!! i)) ->
  (forall i, i ∈ l -> b_prev (bs' !!! i) = b_prev (bs !!! i)) ->
  b_next (bs' !!! default x (last l)) = y' -> b_prev (bs' !!! y') = default x (last l) ->
  linked bs' x l y'.
Proof.
  revert x. induction l as [|a t IH]; intros x; [by cbn; intros _ _ _ _ -> ->|].
  rewrite last_cons. replace (default x _) with (default a (last t)) by (by destruct (last t)).
  intros (H1 & H2 & H3) Hnd Hn Hp He1 He2. apply NoDup_cons in Hnd as [Hx Hnd].
  assert (Hne : x <> default a (last t)).
  { intros ->. apply Hx. destruct (last t) as [z|] eqn:E; cbn; [|left].
    right. by apply last_Some_elem_of. }
  split; [by rewrite Hn by (done || left)|]. split; [by rewrite Hp by left|].
  apply IH; try done; intros i Hi; [intros; apply Hn; [by right|done]|apply Hp; by right].
Qed.

(** ** Moving a buffer to the front *)

Definition unlink (b : nat) (bs : list buf) : list buf :=
  let x := bs !!! b in
  alter (set b_next (fun _ => b_next x)) (b_prev x) (alter (set b_prev (fun _ => b_prev x)) (b_next x) bs).

Definition push_front (b : nat) (bs : list buf) : list buf :=
  let f := b_next (bs !!! bhead) in
  alter (set b_next (fun _ => b)) bhead (alter (set b_prev (fun _ => b)) f
    (alter (set b_prev (fun _ => bhead)) b (alter (set b_next (fun _ => f)) b bs))).

Lemma ring_unlink bs l1 b l2 :
  length bs = S bhead -> NoDup (bhead :: l1 ++ b :: l2) -> Forall (fun i => i < bhead)%nat (l1 ++ b :: l2) ->
  ring bs (l1 ++ b :: l2) -> ring (unlink b bs) (l1 ++ l2).
Proof.
  intros Hl Hnd Hlt Hr. unfold ring in Hr. apply linked_app in Hr as [H1 H2]. unfold unlink.
  rewrite (linked_first _ _ _ _ H2), (linked_last _ _ _ _ H1).
  set (a := default bhead (last l1)). set (c := hd bhead l2).
  assert (Ha : a ∈ bhead :: l1).
  { unfold a. destruct (last l1) as [z|] eqn:E; cbn; [right; by apply last_Some_elem_of|left]. }
  assert (Hc : c ∈ l2 ++ [bhead]) by (unfold c; destruct l2; cbn; left).
  rewrite Forall_app, Forall_cons in Hlt. destruct Hlt as (F1 & Fb & F2). rewrite Forall_forall in F1, F2.
  assert (Hal : (a < length bs)%nat) by (apply elem_of_cons in Ha as [->|Ha]; [lia|apply F1 in Ha; lia]).
  assert (Hcl : (c < length bs)%nat).
  { apply elem_of_app in Hc as [Hc|Hc%list_elem_of_singleton]; [apply F2 in Hc; lia|lia]. }
  rewrite NoDup_cons, NoDup_app, NoDup_cons in Hnd. destruct Hnd as (Hh & N1 & N12 & Nb & N2).
  set (bs1 := alter _ c bs). set (bs2 := alter _ a bs1).
  assert (Hn : forall i, b_next (bs2 !!! i) = if decide (a = i) then c else b_next (bs !!! i)).
  { intros i. unfold bs2. rewrite lookup_total_alter by (unfold bs1; rewrite length_alter; lia).
    case_decide; [done|]. unfold bs1. rewrite lookup_total_alter by lia. case_decide; by subst. }
  assert (Hp : forall i, b_prev (bs2 !!! i) = if decide (c = i) then a else b_prev (bs !!! i)).
  { intros i. unfold bs2. rewrite lookup_total_alter by (unfold bs1; rewrite length_alter; lia).
    assert (Hb1 : forall i, b_prev (bs1 !!! i) = if decide (c = i) then a else b_prev (bs !!! i)).
    { intros j. unfold bs1. rewrite lookup_total_alter by lia. case_decide; by subst. }
    rewrite <- Hb1. case_decide; by subst. }
  assert (HL : linked bs2 bhead l1 c).
  { eapply linked_retarget; [exact H1|constructor; set_solver| | | |].
    - intros i _ Hi. rewrite Hn. rewrite decide_False; [done|]. intros E. apply Hi. by rewrite <- E.
    - intros i Hi. rewrite Hp. rewrite decide_False; [done|]. intros ->.
      apply elem_of_app in Hc as [Hc|Hc%list_elem_of_singleton]; set_solver.
    - fold a. rewrite Hn. by rewrite decide_True.
    - fold a. rewrite Hp. by rewrite decide_True. }
  destruct l2 as [|c' t]; [by rewrite app_nil_r|]. cbn in c. subst c. apply linked_app. split; [done|].
  destruct H2 as (_ & _ & H2). eapply linked_ext; [| |exact H2].
  - intros i Hi. rewrite Hn, decide_False; [done|]. intros ->. set_solver.
  - intros i Hi. rewrite Hp, decide_False; [done|]. intros ->. apply NoDup_cons in N2 as [N2 _]. set_solver.
Qed.

Lemma ring_push_front bs l b :
  length bs = S bhead -> NoDup (b :: bhead :: l) -> (b < bhead)%nat -> Forall (fun i => i < bhead)%nat l ->
  ring bs l -> ring (push_front b bs) (b :: l).
Proof.
  intros Hl Hnd Hb Hlt Hr. unfold push_front. rewrite (linked_first _ _ _ _ Hr). set (f := hd bhead l).
  assert (Hfl : (f < length bs)%nat) by (unfold f; destruct l; cbn; [|apply Forall_cons in Hlt as [??]]; lia).
  assert (Hfb : f <> b) by (unfold f; destruct l; cbn; [lia|]; apply NoDup_cons in Hnd as [Hnd _]; set_solver).
  match goal with |- ring ?x _ => set (bs' := x) end.
  assert (Hn : forall i, b_next (bs' !!! i) = if decide (bhead = i) then b else if decide (b = i) then f else b_next (bs !!! i)).
  { intros i. unfold bs'. do 4 (rewrite lookup_total_alter by (rewrite ?length_alter; lia)).
    rewrite !lookup_total_alter by (rewrite ?length_alter; lia).
    repeat case_decide; simplify_eq; done || lia. }
  assert (Hp : forall i, b_prev (bs' !!! i) = if decide (f = i) then b else if decide (b = i) then bhead else b_prev (bs !!! i)).
  { intros i. unfold bs'. do 4 (rewrite lookup_total_alter by (rewrite ?length_alter; lia)).
    rewrite !lookup_total_alter by (rewrite ?length_alter; lia).
    repeat case_decide; simplify_eq; done || lia. }
  apply NoDup_cons in Hnd as [Hb1 Hnd]. apply NoDup_cons in Hnd as [Hh Hnd].
  split; [by rewrite Hn, decide_True|]. split; [by rewrite Hp, decide_False, decide_True|].
  destruct l as [|f' t]; cbn in f; subst f.
  - split; [by rewrite Hn, decide_False, decide_True by lia|by rewrite Hp, decide_True].
  - split; [by rewrite Hn, decide_False, decide_True by lia|]. split; [by rewrite Hp, decide_True|].
    destruct Hr as (_ & _ & Hr). apply NoDup_cons in Hnd as [Hf Hnd]. eapply linked_ext; [| |exact Hr].
    + intros i Hi. rewrite Hn, !decide_False by set_solver. done.
    + intros i Hi. rewrite Hp, decide_False by set_solver. rewrite decide_False by set_solver. done.
Qed.

(** ** Searching the list *)

Definition found (bs : list buf) (test : buf -> bool) (l : list nat) : option nat :=
  List.find (fun i => test (bs !!! i)) l.

Lemma found_Some bs test l b : found bs test l = Some b -> b ∈ l /\ test (bs !!! b) = true.
Proof. intros H. apply List.find_some in H as [H1 H2]. split; [by apply list_elem_of_In|done]. Qed.

Lemma found_None bs test l b : found bs test l = None -> b ∈ l -> test (bs !!! b) = false.
Proof. intros H Hb. eapply List.find_none in H; [exact H|by apply list_elem_of_In]. Qed.

Lemma bscan_next test k l : forall fuel x, linked (k_bufs k) x l bhead -> bhead ∉ l -> (length l <= fuel)%nat ->
  bscan fuel b_next test (hd bhead l) k = Ret (found (k_bufs k) test l) k.
Proof.
  induction l as [|a t IH]; intros fuel x Hr Hh Hf; cbn [hd].
  - destruct fuel; cbn [bscan]; by rewrite bool_decide_eq_true_2.
  - destruct fuel as [|fuel]; cbn in Hf; [lia|]. cbn [bscan]. rewrite bool_decide_eq_false_2 by set_solver.
    unfold bind, getb, gets. unfold found. cbn [List.find]. destruct (test (k_bufs k !!! a)); [done|].
    destruct Hr as (_ & _ & Hr). rewrite (linked_first _ _ _ _ Hr). apply (IH _ a); [done|set_solver|lia].
Qed.

Lemma bscan_prev test k l : forall fuel y, linked (k_bufs k) bhead l y -> bhead ∉ l -> (length l <= fuel)%nat ->
  bscan fuel b_prev test (default bhead (last l)) k = Ret (found (k_bufs k) test (rev l)) k.
Proof.
  induction l as [|a t IH] using rev_ind; intros fuel y Hr Hh Hf.
  - destruct fuel; cbn [bscan last default]; by rewrite bool_decide_eq_true_2.
  - rewrite last_snoc, rev_app_distr. cbn [from_option id rev app]. rewrite length_app in Hf. cbn in Hf.
    destruct fuel as [|fuel]; [lia|]. cbn [bscan]. rewrite bool_decide_eq_false_2 by set_solver.
    unfold bind, getb, gets. unfold found. cbn [List.find]. destruct (test (k_bufs k !!! a)); [done|].
    apply linked_app in Hr as [Hr _]. rewrite (linked_last _ _ _ _ Hr). apply (IH _ a); [done|set_solver|lia].
Qed.

(** ** The shape of the cache *)

Record ring_wf (bs : list buf) (l : list nat) : Prop := {
  rw_len : length bs = S bhead;
  rw_perm : l ≡ₚ seq 0 bhead;
  rw_ring : ring bs l
}.

Lemma rw_elem bs l i : ring_wf bs l -> i ∈ l <-> (i < bhead)%nat.
Proof. intros [_ H _]. rewrite H, elem_of_seq. lia. Qed.

Lemma rw_nodup bs l : ring_wf bs l -> NoDup (bhead :: l).
Proof.
  intros H. constructor; [rewrite (rw_elem _ _ _ H); lia|]. destruct H as [_ H _]. rewrite H. apply NoDup_seq.
Qed.

Lemma rw_bound bs l : ring_wf bs l -> Forall (fun i => i < bhead)%nat l.
Proof. intros H. apply Forall_forall. intros i Hi. by apply (rw_elem _ _ _ H). Qed.

Lemma rw_length bs l : ring_wf bs l -> length l = bhead.
Proof. intros [_ H _]. rewrite H. apply length_seq. Qed.

(** Changes of the other fields keep the list. *)
Lemma ring_wf_alter bs l f b : ring_wf bs l ->
  (forall x, b_next (f x) = b_next x /\ b_prev (f x) = b_prev x) -> ring_wf (alter f b bs) l.
Proof.
  intros [Hl Hp Hr] Hf. split; [by rewrite length_alter|done|].
  assert (He : forall i, b_next (alter f b bs !!! i) = b_next (bs !!! i) /\ b_prev (alter f b bs !!! i) = b_prev (bs !!! i)).
  { intros i. rewrite !list_lookup_total_alt. destruct (decide (b = i)) as [->|]; [|by rewrite list_lookup_alter_ne].
    rewrite list_lookup_alter_eq. destruct (bs !! i); [apply Hf|done]. }
  eapply linked_ext; [| |exact Hr]; intros i _; apply He.
Qed.

(** Move the buffer [b] of the list [l] to its front. *)
Definition to_front (b : nat) (l : list nat) : list nat := b :: filter (fun i => i <> b) l.

Lemma filter_ne_split (l1 l2 : list nat) b : NoDup (l1 ++ b :: l2) ->
  filter (fun i => i <> b) (l1 ++ b :: l2) = l1 ++ l2.
Proof.
  intros Hnd. apply NoDup_app in Hnd as (N1 & N2 & N3). apply NoDup_cons in N3 as [N3 _].
  rewrite filter_app, filter_cons_False by naive_solver.
  assert (Hk : forall l : list nat, b ∉ l -> filter (fun i => i <> b) l = l).
  { intros l. induction l as [|x t IH]; [done|]. intros Hx. rewrite filter_cons_True by set_solver.
    f_equal. apply IH. set_solver. }
  rewrite !Hk; set_solver.
Qed.

Lemma ring_wf_front bs l b : ring_wf bs l -> (b < bhead)%nat ->
  ring_wf (push_front b (unlink b bs)) (to_front b l).
Proof.
  intros Hw Hb. pose proof (rw_nodup _ _ Hw) as Hnd. pose proof (rw_bound _ _ Hw) as Hlt.
  destruct (list_elem_of_split l b) as (l1 & l2 & ->); [by apply (rw_elem _ _ _ Hw)|].
  assert (Hnd' := Hnd). apply NoDup_cons in Hnd' as [Hh Hnd']. unfold to_front. rewrite filter_ne_split by done.
  destruct Hw as [Hl Hp Hr]. split.
  - unfold push_front, unlink. by rewrite !length_alter.
  - rewrite <- Hp. apply Permutation_middle.
  - apply ring_push_front; [unfold unlink; by rewrite !length_alter| |done| |by apply ring_unlink].
    + apply NoDup_cons. split.
      * apply NoDup_app in Hnd' as (N1 & N2 & N3). apply NoDup_cons in N3 as [N3 _]. intros Hin.
        apply elem_of_cons in Hin as [->|Hin]; [lia|]. apply elem_of_app in Hin as [Hin|Hin]; [|done].
        apply (N2 b Hin). left.
      * apply NoDup_cons. split; [set_solver|]. rewrite <- Permutation_middle in Hnd'. by apply NoDup_cons in Hnd' as [_ ?].
    + rewrite <- Permutation_middle in Hlt. by apply Forall_cons in Hlt as [_ ?].
Qed.

(** What a buffer holds apart from its place in the list. *)
Definition payload (b : buf) := (b_dev b, b_valid b, b_lock b, b_refcnt b, b_blockno b, b_data b).

Lemma payload_alter (bs : list buf) f j i : (forall x, payload (f x) = payload x) ->
  payload (alter f j bs !!! i) = payload (bs !!! i).
Proof. apply proj_alter. Qed.

Lemma payload_front bs b i : payload (push_front b (unlink b bs) !!! i) = payload (bs !!! i).
Proof. unfold push_front, unlink. by rewrite !payload_alter by (by intros []). Qed.
