(* ===== verification/BioLaws.v ===== *)
(** * The cache operations on a thread's view of the buffers

    While a thread works in the file system only the scheduler's data change
    behind its back: it wakes other threads and it waits for the disk. *)

From Stdlib Require Import ZArith Lia.
From stdpp Require Import base list strings sets.
From S2P Require Import Prelude Params Mem State Evict Kalloc Vm Sched SchedSpec SchedProps.
From S2P Require Import Sleeplock Bio BioSpec.

(** The same process, apart from its standing with the scheduler. *)
Definition same_task (p p' : proc) : Prop :=
  p' = p <| p_state := p_state p' |> <| p_chan := p_chan p' |> <| p_tsched := p_tsched p' |>.

Section Frame.
Context {D : Disk}.

(** [k'] is [k] with other scheduling data, and more console output. *)
Record resched (k k' : kernel) : Prop := {
  rs_eq : k' = k <| k_procs := k_procs k' |> <| k_pqueue := k_pqueue k' |>
                 <| k_vdisk := k_vdisk k' |> <| k_wakeups := k_wakeups k' |> <| k_out := k_out k' |>;
  rs_len : length (k_procs k') = length (k_procs k);
  rs_task i : same_task (k_procs k !!! i) (k_procs k' !!! i);
  rs_queues : queues_wf k -> queues_wf k';
  rs_ready : disk_ready (k_vdisk k) (k_wakeups k) -> disk_ready (k_vdisk k') (k_wakeups k')
}.

#[export] Instance resched_preorder : PreOrder resched.
Proof.
  split.
  - intros k. split; [kext|done|intros i; unfold same_task; by destruct (k_procs k !!! i)|done|done].
  - intros k1 k2 k3 [E1 L1 T1 Q1 R1] [E2 L2 T2 Q2 R2].
    split; [rewrite E2, E1; kext|congruence| |tauto|tauto]. intros i. unfold same_task in *.
    rewrite (T2 i), (T1 i). by destruct (k_procs k1 !!! i).
Qed.

(** The thread: a running process that holds no spin lock. *)
Record thread (p : nat) (k : kernel) : Prop := {
  th_cur : k_cur k = Some p;
  th_held : k_held k = [];
  th_queues : queues_wf k;
  th_levels : levels_ok k;
  th_ready : disk_ready (k_vdisk k) (k_wakeups k)
}.

Lemma resched_cur k k' : resched k k' -> k_cur k' = k_cur k.
Proof. intros [-> _ _ _ _]. by kproj. Qed.
Lemma resched_held k k' : resched k k' -> k_held k' = k_held k.
Proof. intros [-> _ _ _ _]. by kproj. Qed.
Lemma resched_bufs k k' : resched k k' -> k_bufs k' = k_bufs k.
Proof. intros [-> _ _ _ _]. by kproj. Qed.
Lemma resched_disk k k' : resched k k' -> k_disk k' = k_disk k.
Proof. intros [-> _ _ _ _]. by kproj. Qed.
Lemma resched_log k k' : resched k k' -> k_log k' = k_log k.
Proof. intros [-> _ _ _ _]. by kproj. Qed.
Lemma resched_dwrites k k' : resched k k' -> k_dwrites k' = k_dwrites k.
Proof. intros [-> _ _ _ _]. by kproj. Qed.
Lemma resched_pid k k' p : resched k k' -> p_pid (k_procs k' !!! p) = p_pid (k_procs k !!! p).
Proof. intros [_ _ H _ _]. rewrite (H p). by destruct (k_procs k !!! p). Qed.

Lemma resched_levels k k' : resched k k' -> levels_ok k -> levels_ok k'.
Proof.
  intros [_ L T _ _] [H1 H2]. split; [by rewrite L|]. intros i Hi. rewrite (T i).
  specialize (H2 i Hi). by destruct (k_procs k !!! i).
Qed.

Lemma thread_resched p k k' : thread p k -> resched k k' -> thread p k'.
Proof.
  intros [C H Q V R] F. split; [by rewrite (resched_cur _ _ F)|by rewrite (resched_held _ _ F)| | |].
  - by apply F. - by apply (resched_levels _ _ F). - by apply F.
Qed.

(** Updates of the data of the file system commute with it. *)
Lemma resched_set_bufs f k k' : resched k k' -> resched (k <| k_bufs ::= f |>) (k' <| k_bufs ::= f |>).
Proof. intros [E L T Q R]. split; [rewrite E; kext|exact L|exact T|exact Q|exact R]. Qed.
Lemma resched_set_log f k k' : resched k k' -> resched (k <| k_log ::= f |>) (k' <| k_log ::= f |>).
Proof. intros [E L T Q R]. split; [rewrite E; kext|exact L|exact T|exact Q|exact R]. Qed.
Lemma resched_set_disk f k k' : resched k k' -> resched (k <| k_disk ::= f |>) (k' <| k_disk ::= f |>).
Proof. intros [E L T Q R]. split; [rewrite E; kext|exact L|exact T|exact Q|exact R]. Qed.
Lemma resched_set_dwrites f k k' : resched k k' -> resched (k <| k_dwrites ::= f |>) (k' <| k_dwrites ::= f |>).
Proof. intros [E L T Q R]. split; [rewrite E; kext|exact L|exact T|exact Q|exact R]. Qed.
Lemma resched_set_inodes f k k' : resched k k' -> resched (k <| k_inodes ::= f |>) (k' <| k_inodes ::= f |>).
Proof. intros [E L T Q R]. split; [rewrite E; kext|exact L|exact T|exact Q|exact R]. Qed.
Lemma resched_set_held f k k' : resched k k' -> resched (k <| k_held ::= f |>) (k' <| k_held ::= f |>).
Proof. intros [E L T Q R]. split; [rewrite E; kext|exact L|exact T|exact Q|exact R]. Qed.

(** [wakeup] touches nothing else. *)
Lemma wakeup_resched ch k : queues_wf k -> levels_ok k -> wakeup_unlocked k ->
  wp (wakeup ch) (fun _ k' => resched k k') k.
Proof.
  intros Hq Hl Hu. eapply wp_mono; [by apply wakeup_wp|]. intros _ k' [F Ln P W _].
  split; [rewrite F; kext|done| |done|by rewrite F].
  intros i. rewrite P. unfold same_task. destruct (decide _); [destruct (woken k ch i)|]; by destruct (k_procs k !!! i).
Qed.
End Frame.

(** ** What the disk driver promises *)

Definition blockno_ok (bno : Z) : Prop := 0 <= bno < 2 ^ 31.

(** A buffer filled from the disk, and a buffer the driver is done with. *)
Definition filled (d : Z -> list Z) (x : buf) : buf := x <| b_data := d (b_blockno x) |> <| b_disk := 0 |>.
Definition flushed (x : buf) : buf := x <| b_disk := 0 |>.

Class DiskOk (D : Disk) : Prop := {
  disk_read_ok p k b :
    thread p k -> (b < bhead)%nat -> length (k_bufs k) = S bhead -> blockno_ok (b_blockno (k_bufs k !!! b)) ->
    wp (virtio_disk_rw b false) (fun _ k' => resched (k <| k_bufs ::= alter (filled (k_disk k)) b |>) k') k;
  disk_write_ok p k b :
    thread p k -> (b < bhead)%nat -> length (k_bufs k) = S bhead -> blockno_ok (b_blockno (k_bufs k !!! b)) ->
    wp (virtio_disk_rw b true)
       (fun _ k' => let x := k_bufs k !!! b in
          resched (k <| k_bufs ::= alter flushed b |> <| k_disk ::= fupd (b_blockno x) (b_data x) |>
                     <| k_dwrites ::= fun t => t ++ [(b_blockno x, b_data x)] |>) k') k
}.

Section Laws.
Context {I : Interference} {D : Disk} {DO : DiskOk D} {p : nat}.

Local Abbreviation pid k := (p_pid (k_procs k !!! p)).
Definition locked_by (n : Z) : sleeplock := mksleeplock 1 n.

Lemma mypid_eq k : k_cur k = Some p -> mypid k = Ret (pid k) k.
Proof. intros H. unfold mypid, curproc, bind, myproc, gets. by rewrite H. Qed.

(** A free sleep lock is taken without waiting. *)
Lemma acquiresleep_buf b k : k_cur k = Some p -> (L_buf b ∉ k_held k) -> sl_locked (b_lock (k_bufs k !!! b)) = 0 ->
  acquiresleep (buflock b) k =
  Ret tt (k <| k_bufs ::= alter (set b_lock (fun _ => locked_by (pid k))) b |>).
Proof.
  intros Hc Hh Hl. apply wp_eq. unfold acquiresleep. wp_steps. cbn [sr_lk sr_chan buflock].
  wp_lock. wp_steps. eapply wp_Ret; [apply sleep_while_done; cbn [sr_get buflock]; kproj; by rewrite Hl|].
  wp_steps. eapply wp_Ret; [apply mypid_eq; by kproj|]. cbn [sr_upd buflock]. wp_steps. cbn [sr_lk buflock]. wp_lock.
  split; [done|]. kext; [|by rewrite unlocked_top]. rewrite list_alter_alter_eq. kproj.
  apply list_alter_ext; [|done]. intros x _. unfold compose. by destruct x.
Qed.

Lemma holdingsleep_buf b k : k_cur k = Some p -> (L_buf b ∉ k_held k) ->
  b_lock (k_bufs k !!! b) = locked_by (pid k) -> holdingsleep (buflock b) k = Ret true k.
Proof.
  intros Hc Hh Hl. apply wp_eq. unfold holdingsleep. wp_steps. cbn [sr_lk buflock]. wp_lock.
  cbn [sr_get buflock]. wp_steps. kproj. rewrite Hl. cbn [sl_locked sl_pid locked_by]. change (1 =? 0) with false.
  cbv iota. wp_steps. eapply wp_Ret; [by apply mypid_eq|]. kproj. wp_steps.
  rewrite Z.eqb_refl. wp_lock. wp_steps. split; [done|]. kext. by rewrite unlocked_top.
Qed.

Lemma releasesleep_buf b k : thread p k ->
  wp (releasesleep (buflock b))
     (fun _ k' => resched (k <| k_bufs ::= alter (set b_lock (fun _ => sleeplock0)) b |>) k') k.
Proof.
  intros Ht. pose proof (th_held _ _ Ht) as Hh. unfold releasesleep. wp_steps. cbn [sr_lk sr_upd sr_chan buflock].
  wp_lock. wp_steps. eapply wp_mono.
  { apply wakeup_resched; [apply Ht|apply Ht|]. split; intros; held. }
  cbv beta. intros _ k1 Hr. assert (Hh1 : k_held k1 = [L_buf b]) by (rewrite (resched_held _ _ Hr); kproj; by rewrite Hh).
  wp_lock. apply (resched_set_held (unlocked (L_buf b))) in Hr. etransitivity; [|exact Hr].
  match goal with |- resched ?x ?y => replace y with x; [reflexivity|] end.
  kext; [|by rewrite unlocked_top by held]. rewrite list_alter_alter_eq. apply list_alter_ext; [|done].
  intros x _. unfold compose. by destruct x.
Qed.

(** ** Looking up a block *)

Definition is_block (dev bno : Z) (b : buf) : bool := (b_dev b =? dev) && (b_blockno b =? bno).
Definition is_free (b : buf) : bool := b_refcnt b =? 0.

(** A hit, and the recycling of a buffer on a miss, as seen by the buffer. *)
Definition hit (n : Z) (x : buf) : buf := x <| b_refcnt := u32 (b_refcnt x + 1) |> <| b_lock := locked_by n |>.
Definition recycled (dev bno n : Z) (x : buf) : buf :=
  x <| b_dev := dev |> <| b_blockno := bno |> <| b_valid := 0 |> <| b_refcnt := 1 |> <| b_lock := locked_by n |>.

Context {l : list nat}.

Lemma bget_hit dev bno b k : thread p k -> ring_wf (k_bufs k) l ->
  found (k_bufs k) (is_block dev bno) l = Some b -> sl_locked (b_lock (k_bufs k !!! b)) = 0 ->
  bget dev bno k = Ret b (k <| k_bufs ::= alter (hit (pid k)) b |>).
Proof.
  intros Ht Hw Hf Hl. pose proof (th_held _ _ Ht) as Hh. pose proof (rw_nodup _ _ Hw) as Hnd.
  apply NoDup_cons in Hnd as [Hnl _]. pose proof (rw_length _ _ Hw) as Hlen.
  assert (Hb : (b < bhead)%nat) by (apply (rw_elem _ _ _ Hw), (found_Some _ _ _ _ Hf)).
  apply wp_eq. unfold bget, getb, updb. wp_steps. wp_lock. wp_steps. kproj.
  rewrite (linked_first _ _ _ _ (rw_ring _ _ Hw)). eapply wp_Ret; [apply (bscan_next _ _ l _ bhead); [apply Hw|done|by rewrite Hlen]|].
  kproj. unfold is_block in Hf. rewrite Hf. wp_steps. wp_lock. wp_steps. eapply wp_Ret.
  { apply acquiresleep_buf; [apply Ht|held|]. kproj. rewrite lookup_total_alter, decide_True by (rewrite ?(rw_len _ _ Hw); lia || done).
    by destruct (k_bufs k !!! b). }
  wp_steps. split; [done|]. kext; [|by rewrite unlocked_top by held]. rewrite list_alter_alter_eq.
  apply list_alter_ext; [|done]. intros x _. by destruct x.
Qed.

Lemma bget_miss dev bno b k : thread p k -> ring_wf (k_bufs k) l ->
  found (k_bufs k) (is_block dev bno) l = None -> found (k_bufs k) is_free (rev l) = Some b ->
  sl_locked (b_lock (k_bufs k !!! b)) = 0 ->
  bget dev bno k = Ret b (k <| k_bufs ::= alter (recycled dev bno (pid k)) b |>).
Proof.
  intros Ht Hw Hn Hf Hl. pose proof (th_held _ _ Ht) as Hh. pose proof (rw_nodup _ _ Hw) as Hnd.
  apply NoDup_cons in Hnd as [Hnl _]. pose proof (rw_length _ _ Hw) as Hlen.
  assert (Hb : (b < bhead)%nat).
  { apply found_Some in Hf as [Hf _]. apply (rw_elem _ _ _ Hw). revert Hf. rewrite list_elem_of_In, <- in_rev, <- list_elem_of_In. done. }
  apply wp_eq. unfold bget, getb, updb. wp_steps. wp_lock. wp_steps. kproj.
  rewrite (linked_first _ _ _ _ (rw_ring _ _ Hw)). eapply wp_Ret; [apply (bscan_next _ _ l _ bhead); [apply Hw|done|by rewrite Hlen]|].
  kproj. unfold is_block in Hn. rewrite Hn. wp_steps. rewrite (linked_last _ _ _ _ (rw_ring _ _ Hw)).
  eapply wp_Ret; [apply (bscan_prev _ _ l _ bhead); [apply Hw|done|by rewrite Hlen]|].
  kproj. unfold is_free in Hf. rewrite Hf. wp_steps. wp_lock. wp_steps. eapply wp_Ret.
  { apply acquiresleep_buf; [apply Ht|held|]. kproj. rewrite lookup_total_alter, decide_True by (rewrite ?(rw_len _ _ Hw); lia || done).
    by destruct (k_bufs k !!! b). }
  wp_steps. split; [done|]. kext; [|by rewrite unlocked_top by held]. rewrite list_alter_alter_eq.
  apply list_alter_ext; [|done]. intros x _. by destruct x.
Qed.

(** No buffer is cached or free: the kernel panics. *)
Lemma bget_full dev bno k : thread p k -> ring_wf (k_bufs k) l ->
  found (k_bufs k) (is_block dev bno) l = None -> found (k_bufs k) is_free (rev l) = None ->
  bget dev bno k = Panic "bget: no buffers".
Proof.
  intros Ht Hw Hn Hf. pose proof (th_held _ _ Ht) as Hh. pose proof (rw_nodup _ _ Hw) as Hnd.
  apply NoDup_cons in Hnd as [Hnl _]. pose proof (rw_length _ _ Hw) as Hlen.
  unfold bget, getb, updb. erewrite bind_Ret by (apply acquire_eq; held). unfold bind at 1, gets at 1. kproj.
  rewrite (linked_first _ _ _ _ (rw_ring _ _ Hw)).
  erewrite bind_Ret by (apply (bscan_next _ _ l _ bhead); [apply Hw|done|by rewrite Hlen]).
  kproj. unfold is_block in Hn. rewrite Hn. rewrite (linked_last _ _ _ _ (rw_ring _ _ Hw)).
  erewrite bind_Ret by (apply (bscan_prev _ _ l _ bhead); [apply Hw|done|by rewrite Hlen]).
  kproj. unfold is_free in Hf. by rewrite Hf.
Qed.

(** ** Pinning, writing and releasing *)

Lemma bpin_eq b k : k_held k = [L_log] ->
  bpin b k = Ret tt (k <| k_bufs ::= alter (set b_refcnt (fun n => u32 (n + 1))) b |>).
Proof.
  intros Hh. apply wp_eq. unfold bpin, updb. wp_run. split; [done|]. kext. by rewrite unlocked_top by held.
Qed.

Lemma bunpin_eq b k : thread p k ->
  bunpin b k = Ret tt (k <| k_bufs ::= alter (set b_refcnt (fun n => u32 (n - 1))) b |>).
Proof.
  intros Ht. pose proof (th_held _ _ Ht) as Hh. apply wp_eq. unfold bunpin, updb. wp_run. split; [done|].
  kext. by rewrite unlocked_top by held.
Qed.

Lemma bwrite_wp b k : thread p k -> (b < bhead)%nat -> length (k_bufs k) = S bhead ->
  blockno_ok (b_blockno (k_bufs k !!! b)) -> b_lock (k_bufs k !!! b) = locked_by (pid k) ->
  wp (bwrite b)
     (fun _ k' => let x := k_bufs k !!! b in
        resched (k <| k_bufs ::= alter flushed b |> <| k_disk ::= fupd (b_blockno x) (b_data x) |>
                   <| k_dwrites ::= fun t => t ++ [(b_blockno x, b_data x)] |>) k') k.
Proof.
  intros Ht Hb Hlen Hbn Hl. unfold bwrite. wp_steps. eapply wp_Ret.
  { apply holdingsleep_buf; [apply Ht|rewrite (th_held _ _ Ht); apply not_elem_of_nil|done]. }
  cbn [negb]. eapply disk_write_ok; eauto.
Qed.

(** The buffer as [brelse] leaves it, before it is moved. *)
Definition dropped (x : buf) : buf := x <| b_lock := sleeplock0 |> <| b_refcnt := u32 (b_refcnt x - 1) |>.
Definition released (b : nat) (bs : list buf) : list buf :=
  let bs1 := alter dropped b bs in
  if b_refcnt (bs1 !!! b) =? 0 then push_front b (unlink b bs1) else bs1.

Lemma brelse_wp b k : thread p k -> (b < bhead)%nat -> ring_wf (k_bufs k) l ->
  b_lock (k_bufs k !!! b) = locked_by (pid k) ->
  wp (brelse b) (fun _ k' => resched (k <| k_bufs ::= released b |>) k') k.
Proof.
  intros Ht Hb Hw Hl. unfold brelse. wp_steps. eapply wp_Ret.
  { apply holdingsleep_buf; [apply Ht|rewrite (th_held _ _ Ht); apply not_elem_of_nil|done]. }
  cbn [negb]. wp_steps. eapply wp_mono; [by apply releasesleep_buf|]. cbv beta. intros _ k1 Hr.
  pose proof (resched_held _ _ Hr) as Hh. revert Hh. kproj. rewrite (th_held _ _ Ht). intros Hh.
  pose proof (resched_bufs _ _ Hr) as Hbs. revert Hbs. kproj. intros Hbs.
  unfold getb, updb. wp_steps. wp_lock. wp_steps. kproj.
  assert (Hd : alter (set b_refcnt (fun n => u32 (n - 1))) b (k_bufs k1) = alter dropped b (k_bufs k)).
  { rewrite Hbs, list_alter_alter_eq. apply list_alter_ext; [|done]. intros x _. by destruct x. }
  rewrite Hd. set (bs1 := alter dropped b (k_bufs k)) in *.
  assert (Hk : forall f, resched (k <| k_bufs ::= fun _ => f (alter (set b_lock (fun _ => sleeplock0)) b (k_bufs k)) |>)
                 (k1 <| k_bufs ::= f |>)).
  { intros f. apply (resched_set_bufs f) in Hr. etransitivity; [|exact Hr].
    match goal with |- resched ?x ?y => replace y with x; [reflexivity|kext] end. }
  destruct (b_refcnt (bs1 !!! b) =? 0) eqn:Hz; cbn [when]; wp_steps.
  - unfold link_front, getb, updb. wp_steps. wp_lock.
    match goal with |- resched _ ?x => replace x with (k1 <| k_bufs ::= fun _ => released b (k_bufs k) |>) end.
    { etransitivity; [|apply Hk]. match goal with |- resched ?x ?y => replace y with x; [reflexivity|kext] end. }
    kext; [|by rewrite unlocked_top by held]. unfold released. fold bs1. rewrite Hz. unfold push_front, unlink.
    kproj. rewrite !Hd. set (bs2 := alter _ (b_prev (bs1 !!! b)) _).
    assert (He : forall f g, alter f b (alter g b bs2) !!! bhead = bs2 !!! bhead).
    { intros f g. rewrite !list_lookup_total_alt, !list_lookup_alter_ne by lia. done. }
    by rewrite He.
  - wp_lock.
    match goal with |- resched _ ?x => replace x with (k1 <| k_bufs ::= fun _ => released b (k_bufs k) |>) end.
    { etransitivity; [|apply Hk]. match goal with |- resched ?x ?y => replace y with x; [reflexivity|kext] end. }
    kext; [|by rewrite unlocked_top by held]. unfold released. fold bs1. rewrite Hz. by rewrite Hd.
Qed.
End Laws.
