(* ===== verification/Log.v ===== *)
(** * The write-ahead log (kernel/log.c)

    The routines of the log, after the reading and writing of words in the
    bytes of a block, which the log header and the file system use. *)

From Stdlib Require Import ZArith Lia.
From stdpp Require Import base list strings sets.
From S2P Require Import Prelude Params Mem State Evict Kalloc Vm Sched Sleeplock Printf Bio.

(** Replace the bytes from [off] on by [bs]. *)
Definition splice (off : nat) (bs d : list Z) : list Z := take off d ++ bs ++ drop (off + length bs) d.
Definition slice (off n : nat) (d : list Z) : list Z := take n (drop off d).

(** The [n]-byte word at [off]. *)
Definition getw (n off : nat) (d : list Z) : Z := le_val (slice off n d).
Definition putw (n off : nat) (v : Z) (d : list Z) : list Z := splice off (le_bytes n v) d.

Lemma length_splice off bs d : (off + length bs <= length d)%nat -> length (splice off bs d) = length d.
Proof. intros H. unfold splice. rewrite !length_app, length_take, length_drop. lia. Qed.

Lemma slice_splice_eq off bs d : (off + length bs <= length d)%nat -> slice off (length bs) (splice off bs d) = bs.
Proof.
  intros H. unfold slice, splice. rewrite drop_app_ge by (rewrite length_take; lia).
  rewrite length_take, Nat.min_l, Nat.sub_diag, drop_0 by lia. by rewrite take_app_length.
Qed.

Lemma slice_splice_ne off bs d o n : (off + length bs <= length d)%nat ->
  (o + n <= off \/ off + length bs <= o)%nat -> slice o n (splice off bs d) = slice o n d.
Proof.
  intros H Ho. apply list_eq. intros i. unfold slice, splice.
  destruct (decide (i < n)%nat) as [Hi|Hi]; [|rewrite !lookup_take_ge by lia; done].
  rewrite !lookup_take_lt, !lookup_drop by lia. destruct Ho as [Ho|Ho].
  - rewrite lookup_app_l by (rewrite length_take; lia). by rewrite lookup_take_lt by lia.
  - rewrite lookup_app_r by (rewrite length_take; lia). rewrite length_take, Nat.min_l by lia.
    rewrite lookup_app_r by lia. rewrite lookup_drop. f_equal. lia.
Qed.

Lemma lookup_total_splice off bs d i : (off + length bs <= length d)%nat ->
  splice off bs d !!! i = if decide (off <= i < off + length bs)%nat then bs !!! (i - off)%nat else d !!! i.
Proof.
  intros H. rewrite !list_lookup_total_alt. unfold splice. destruct (decide (i < off)%nat) as [Hi|Hi].
  - rewrite lookup_app_l by (rewrite length_take; lia). rewrite lookup_take_lt, decide_False by lia. done.
  - rewrite lookup_app_r by (rewrite length_take; lia). rewrite length_take, Nat.min_l by lia.
    destruct (decide (i < off + length bs)%nat) as [Hi2|Hi2].
    + rewrite lookup_app_l, decide_True by lia. done.
    + rewrite lookup_app_r, lookup_drop, decide_False by lia. do 2 f_equal. lia.
Qed.

Lemma splice_bytes_ok off bs d : Forall byte_ok bs -> Forall byte_ok d -> Forall byte_ok (splice off bs d).
Proof. intros. unfold splice. rewrite !Forall_app. auto using Forall_take, Forall_drop. Qed.

Lemma length_putw n off v d : (off + n <= length d)%nat -> length (putw n off v d) = length d.
Proof. intros. unfold putw. apply length_splice. rewrite length_le_bytes. lia. Qed.

Lemma getw_putw_eq n off v d : (off + n <= length d)%nat -> getw n off (putw n off v d) = v mod 256 ^ Z.of_nat n.
Proof.
  intros H. unfold getw, putw. rewrite <- le_val_bytes, <- (length_le_bytes n v) at 1.
  rewrite slice_splice_eq; [done|]. rewrite length_le_bytes. lia.
Qed.

Lemma getw_putw_ne n off v d n' off' : (off + n <= length d)%nat -> (off' + n' <= off \/ off + n <= off')%nat ->
  getw n' off' (putw n off v d) = getw n' off' d.
Proof.
  intros H Ho. unfold getw, putw. rewrite slice_splice_ne; [done| |]; rewrite length_le_bytes; lia.
Qed.

Lemma putw_bytes_ok n off v d : Forall byte_ok d -> Forall byte_ok (putw n off v d).
Proof. intros. apply splice_bytes_ok; [apply le_bytes_ok|done]. Qed.

Lemma slice_ok off n d : Forall byte_ok d -> Forall byte_ok (slice off n d).
Proof. intros. unfold slice. auto using Forall_take, Forall_drop. Qed.

Lemma getw_range n off d : Forall byte_ok d -> 0 <= getw n off d < 256 ^ Z.of_nat n.
Proof.
  intros H. unfold getw. pose proof (le_val_range _ (slice_ok off n d H)) as Hr.
  assert (length (slice off n d) <= n)%nat by (unfold slice; rewrite length_take; lia).
  assert (256 ^ Z.of_nat (length (slice off n d)) <= 256 ^ Z.of_nat n) by (apply Z.pow_le_mono_r; lia). lia.
Qed.

(** ** The write-ahead log (kernel/log.c) *)

Definition getl : KM loginfo := gets k_log.
Definition updl (f : loginfo -> loginfo) : KM unit := modify (fun k => k <| k_log ::= f |>).

(** [struct logheader] at the start of a block: [n], then [block]. *)
Definition lh_n (d : list Z) : Z := i32 (getw 4 0 d).
Definition lh_block (d : list Z) (i : Z) : Z := i32 (getw 4 (4 + 4 * Z.to_nat i) d).
Definition set_lh_n (v : Z) (d : list Z) : list Z := putw 4 0 v d.
Definition set_lh_block (i v : Z) (d : list Z) : list Z := putw 4 (4 + 4 * Z.to_nat i) v d.

Section Log.
Context {I : Interference} {D : Disk}.

Definition install_trans (recovering : bool) : KM unit :=
  let! lg := getl in
  for_range (Z.to_nat (l_n lg)) 0 (fun tail =>
    do! when recovering
          (let! lg := getl in
           printf (cstr "recovering tail %d dst %d" ++ [10]) [PInt tail; PInt (aget (l_block lg) tail)]);
    let! lg := getl in
    let! lbuf := bread (u32 (l_dev lg)) (u32 (l_start lg + tail + 1)) in
    let! dbuf := bread (u32 (l_dev lg)) (u32 (aget (l_block lg) tail)) in
    let! x := getb lbuf in
    do! updb dbuf (set b_data (fun _ => b_data x));
    do! bwrite dbuf;
    do! when (negb recovering) (bunpin dbuf);
    do! brelse lbuf;
    brelse dbuf).

Definition read_head : KM unit :=
  let! lg := getl in
  let! buf := bread (u32 (l_dev lg)) (u32 (l_start lg)) in
  let! x := getb buf in
  do! updl (set l_n (fun _ => lh_n (b_data x)));
  do! for_range (Z.to_nat (lh_n (b_data x))) 0 (fun i =>
    let! x := getb buf in
    updl (set l_block (aset i (lh_block (b_data x) i))));
  brelse buf.

Definition write_head : KM unit :=
  let! lg := getl in
  let! buf := bread (u32 (l_dev lg)) (u32 (l_start lg)) in
  do! updb buf (set b_data (set_lh_n (l_n lg)));
  do! for_range (Z.to_nat (l_n lg)) 0 (fun i =>
    let! lg := getl in
    updb buf (set b_data (set_lh_block i (aget (l_block lg) i))));
  do! bwrite buf;
  brelse buf.

Definition recover_from_log : KM unit :=
  do! read_head;
  do! install_trans true;
  do! updl (set l_n (fun _ => 0));
  write_head.

(** The check that the header fits in a block holds for the constants. *)
Definition initlog (dev : Z) (sb : superblock) : KM unit :=
  if BSIZE <=? 4 + 4 * LOGBLOCKS then panic "initlog: too big logheader"
  else
    do! initlock L_log;
    do! updl (set l_start (fun _ => i32 (sb_logstart sb)));
    do! updl (set l_dev (fun _ => dev));
    recover_from_log.

(** One round of the loop of [begin_op] with the reasons to wait. *)
Definition op_must_wait (k : kernel) : bool :=
  let lg := k_log k in
  negb (l_committing lg =? 0) || (LOGBLOCKS <? l_n lg + (l_outstanding lg + 1) * MAXOPBLOCKS).

Definition begin_op : KM unit :=
  do! acquire L_log;
  do! sleep_while op_must_wait CH_log L_log;
  do! updl (set l_outstanding Z.succ);
  release L_log.

Definition write_log : KM unit :=
  let! lg := getl in
  for_range (Z.to_nat (l_n lg)) 0 (fun tail =>
    let! lg := getl in
    let! to := bread (u32 (l_dev lg)) (u32 (l_start lg + tail + 1)) in
    let! from := bread (u32 (l_dev lg)) (u32 (aget (l_block lg) tail)) in
    let! x := getb from in
    do! updb to (set b_data (fun _ => b_data x));
    do! bwrite to;
    do! brelse from;
    brelse to).

Definition commit : KM unit :=
  let! lg := getl in
  when (0 <? l_n lg)
    (do! write_log;
     do! write_head;
     do! install_trans false;
     do! updl (set l_n (fun _ => 0));
     write_head).

(** The two critical sections of [end_op]: leaving the transaction, with the
    answer whether this was the last operation, and the end of the commit. *)
Definition end_op_leave : KM bool :=
  do! acquire L_log;
  do! updl (set l_outstanding Z.pred);
  let! lg := getl in
  if negb (l_committing lg =? 0) then panic "log.committing"
  else
    let do_commit := l_outstanding lg =? 0 in
    do! (if do_commit then updl (set l_committing (fun _ => 1)) else wakeup CH_log);
    do! release L_log;
    ret do_commit.

Definition end_op_done : KM unit :=
  do! acquire L_log;
  do! updl (set l_committing (fun _ => 0));
  do! wakeup CH_log;
  release L_log.

Definition end_op : KM unit :=
  let! do_commit := end_op_leave in
  when do_commit
    (do! commit;
     end_op_done).

(** The search for the block stops at [log.lh.n] at the latest. *)
Definition log_write (b : nat) : KM unit :=
  do! acquire L_log;
  let! lg := getl in
  if LOGBLOCKS <=? l_n lg then panic "too big a transaction"
  else if l_outstanding lg <? 1 then panic "log_write outside of trans"
  else
    let! x := getb b in
    let! r := for_until (Z.to_nat (l_n lg)) 0 (fun i =>
      let! lg := getl in
      ret (if u32 (aget (l_block lg) i) =? b_blockno x then Some i else None)) in
    let i := default (l_n lg) r in
    do! updl (set l_block (aset i (i32 (b_blockno x))));
    do! when (i =? l_n lg)
          (do! bpin b;
           updl (set l_n Z.succ));
    release L_log.
End Log.
