(* ===== verification/Fs.v ===== *)
(** * The file system (kernel/fs.c)

    Blocks, inodes, directories and path names, on top of the buffer cache
    and the log.  A pointer to an in-memory inode is its index in
    [itable.inode], the null pointer is [None].  [struct dinode] is 64 bytes of
    a block: four 16-bit fields, the 32-bit size and 13 32-bit addresses;
    [struct dirent] is 16 bytes: a 16-bit inode number and 14 bytes of name.
    The copies to and from user or kernel addresses, of kernel/proc.c, come
    first. *)

From Stdlib Require Import ZArith Lia.
From stdpp Require Import base list strings sets.
From S2P Require Import Prelude Params Mem State Evict Kalloc Vm Sched Sleeplock Printf Bio Log.

(** A destination: a user virtual address, an address of physical memory, or
    a local variable of the caller, which the caller rebuilds from the bytes. *)
Inductive cpdst := D_user (va : Z) | D_kernel (pa : Z) | D_local.

(** A source: a user virtual address, or the bytes of a kernel variable. *)
Inductive cpsrc := S_user (va : Z) | S_bytes (bs : list Z).

(** [dst += m], [src += m] *)
Definition dst_add (d : cpdst) (m : Z) : cpdst :=
  match d with
  | D_user va => D_user (u64 (va + m))
  | D_kernel pa => D_kernel (u64 (pa + m))
  | D_local => D_local
  end.
Definition src_add (s : cpsrc) (m : Z) : cpsrc :=
  match s with
  | S_user va => S_user (u64 (va + m))
  | S_bytes bs => S_bytes (drop (Z.to_nat m) bs)
  end.

Section Copy.
Context {L : Layout}.

Definition either_copyout (dst : cpdst) (src : list Z) (len : Z) : KM Z :=
  match dst with
  | D_user va => let! p := curproc in let! pr := getp p in copyout (p_pagetable pr) va src len
  | D_kernel pa => do! kstore pa (take (Z.to_nat len) src); ret 0
  | D_local => ret 0
  end.

(** The status, and the bytes that were copied: all of them on success, those
    before the fault on failure. *)
Definition either_copyin (src : cpsrc) (len : Z) : KM (Z * list Z) :=
  match src with
  | S_user va => let! p := curproc in let! pr := getp p in copyin (p_pagetable pr) va len
  | S_bytes bs => ret (0, take (Z.to_nat len) bs)
  end.
End Copy.

(** ** The file system (kernel/fs.c)

    Blocks, inodes, directories and path names, on top of the buffer cache
    and the log.  A pointer to an in-memory inode is its index in
    [itable.inode], the null pointer is [None].  [struct dinode] is 64 bytes of
    a block: four 16-bit fields, the 32-bit size and 13 32-bit addresses;
    [struct dirent] is 16 bytes: a 16-bit inode number and 14 bytes of name. *)

(** ** Layout (kernel/fs.h) *)
Definition BBLOCK (b : Z) (sb : superblock) : Z := b / BPB + sb_bmapstart sb.
Definition IBLOCK (i : Z) (sb : superblock) : Z := i / IPB + sb_inodestart sb.
Definition DINODE : nat := 64.
Definition DIRENT : Z := 16.

(** The byte offset of inode [inum] in its block. *)
Definition dip_off (inum : Z) : nat := (DINODE * Z.to_nat (inum mod IPB))%nat.

(** [struct superblock], in the bytes of block 1. *)
Definition get_superblock (d : list Z) : superblock :=
  mksuperblock (getw 4 0 d) (getw 4 4 d) (getw 4 8 d) (getw 4 12 d) (getw 4 16 d) (getw 4 20 d)
    (getw 4 24 d) (getw 4 28 d).

(** The fields of a [struct dinode] at [o]. *)
Definition dip_type (o : nat) (d : list Z) : Z := i16 (getw 2 o d).
Definition dip_nlink (o : nat) (d : list Z) : Z := i16 (getw 2 (o + 6) d).
Definition dip_addrs (o : nat) (d : list Z) : list Z :=
  map (fun j => getw 4 (o + 12 + 4 * j) d) (seq 0 13).

(** The assignments [dip->f = ip->f] of [iupdate]. *)
Definition put_dinode (x : inode) (o : nat) (d : list Z) : list Z :=
  let d := putw 2 o (i_type x) d in
  let d := putw 2 (o + 2) (i_major x) d in
  let d := putw 2 (o + 4) (i_minor x) d in
  let d := putw 2 (o + 6) (i_nlink x) d in
  let d := putw 4 (o + 8) (i_size x) d in
  splice (o + 12) (mjoin (map (le_bytes 4) (i_addrs x))) d.

(** The assignments [ip->f = dip->f] of [ilock]. *)
Definition get_dinode (o : nat) (d : list Z) (x : inode) : inode :=
  x <| i_type := dip_type o d |> <| i_major := i16 (getw 2 (o + 2) d) |>
    <| i_minor := i16 (getw 2 (o + 4) d) |> <| i_nlink := dip_nlink o d |>
    <| i_size := getw 4 (o + 8) d |> <| i_addrs := dip_addrs o d |>.

(** [struct dirent]. *)
Definition de_inum (de : list Z) : Z := getw 2 0 de.
Definition de_name (de : list Z) : list Z := slice 2 (Z.to_nat DIRSIZ) de.

Definition geti (i : nat) : KM inode := gets (fun k => k_inodes k !!! i).
Definition updi (i : nat) (f : inode -> inode) : KM unit :=
  modify (fun k => k <| k_inodes ::= alter f i |>).

(** ** Names *)

(** [strncmp] on the bytes of two strings; a string ends at its NUL. *)
Fixpoint strncmp_bytes (n : nat) (p q : list Z) : Z :=
  match n with
  | O => 0
  | S n' => if negb (hd 0 p =? 0) && (hd 0 p =? hd 0 q)
            then strncmp_bytes n' (tl p) (tl q)
            else hd 0 p - hd 0 q
  end.

(** The [n] bytes [strncpy] stores. *)
Fixpoint strncpy_bytes (n : nat) (t : list Z) : list Z :=
  match n with
  | O => []
  | S n' => if hd 0 t =? 0 then replicate n 0 else hd 0 t :: strncpy_bytes n' (tl t)
  end.

Definition namecmp (s t : list Z) : Z := strncmp_bytes (Z.to_nat DIRSIZ) s t.

Definition SLASH : Z := 47.

(** [while( *path == '/') path++] *)
Fixpoint skip_slashes (path : list Z) : list Z :=
  match path with
  | c :: path' => if c =? SLASH then skip_slashes path' else path
  | [] => []
  end.

(** [while( *path != '/' && *path != 0) path++]: the bytes passed over and the
    rest. *)
Fixpoint take_elem (path : list Z) : list Z * list Z :=
  match path with
  | c :: path' =>
      if (c =? SLASH) || (c =? 0) then ([], path)
      else (c :: (take_elem path').1, (take_elem path').2)
  | [] => ([], [])
  end.

(** The rest of the path and the new contents of [name]; [None] is the null
    pointer. *)
Definition skipelem (path name : list Z) : option (list Z * list Z) :=
  let path := skip_slashes path in
  if hd 0 path =? 0 then None
  else
    let s := (take_elem path).1 in
    let path := (take_elem path).2 in
    let len := Z.of_nat (length s) in
    let name := if DIRSIZ <=? len then splice 0 (take (Z.to_nat DIRSIZ) s) name
                else splice 0 (s ++ [0]) name in
    Some (skip_slashes path, name).

Section Fs.
Context {L : Layout} {I : Interference} {D : Disk}.

(** ** The super block *)
Definition readsb (dev : Z) : KM unit :=
  let! bp := bread dev 1 in
  let! b := getb bp in
  do! modify (fun k => k <| k_sb := get_superblock (b_data b) |>);
  brelse bp.

(** ** Blocks *)
Definition bzero (dev bno : Z) : KM unit :=
  let! bp := bread dev bno in
  do! updb bp (set b_data (fun _ => replicate (Z.to_nat BSIZE) 0));
  do! log_write bp;
  brelse bp.

(** The inner loop of [balloc]: look for a clear bit of the bitmap block in
    [bp], whose first bit is that of block [b]. *)
Definition balloc_scan (dev : Z) (bp : nat) (b size : Z) : KM (option Z) :=
  for_until (Z.to_nat (Z.min BPB (size - b))) 0 (fun bi =>
    let m := Z.shiftl 1 (bi mod 8) in
    let! x := getb bp in
    if Z.land (aget (b_data x) (bi / 8)) m =? 0 then
      do! updb bp (set b_data (aupd (bi / 8) (fun y => Z.lor y m)));
      do! log_write bp;
      do! brelse bp;
      do! bzero dev (b + bi);
      ret (Some (b + bi))
    else ret None).

Definition balloc (dev : Z) : KM Z :=
  let! sb := gets k_sb in
  let! r := for_until (Z.to_nat ((sb_size sb + BPB - 1) / BPB)) 0 (fun j =>
    let b := j * BPB in
    let! bp := bread dev (BBLOCK b sb) in
    let! r := balloc_scan dev bp b (sb_size sb) in
    match r with
    | Some x => ret (Some x)
    | None => do! brelse bp; ret None
    end) in
  match r with
  | Some x => ret x
  | None => do! printf (cstr "balloc: out of blocks" ++ [10]) []; ret 0
  end.

Definition bfree (dev b : Z) : KM unit :=
  let! sb := gets k_sb in
  let! bp := bread dev (BBLOCK b sb) in
  let bi := b mod BPB in
  let m := Z.shiftl 1 (bi mod 8) in
  let! x := getb bp in
  if Z.land (aget (b_data x) (bi / 8)) m =? 0 then panic "freeing free block"
  else
    do! updb bp (set b_data (aupd (bi / 8) (fun y => Z.land y (Z.lnot m))));
    do! log_write bp;
    brelse bp.

(** ** Inodes *)
Definition iinit : KM unit :=
  do! initlock L_itable;
  for_range (Z.to_nat NINODE) 0 (fun i => initsleeplock (inodelock (Z.to_nat i))).

(** The loop of [iget]: the slot that caches the inode, or the first empty
    one.  [i] is the index of the head of [l]. *)
Fixpoint iget_scan (dev inum : Z) (l : list inode) (i : nat) (empty : option nat) : option nat * option nat :=
  match l with
  | [] => (None, empty)
  | ip :: l' =>
      if (0 <? i_ref ip) && (i_dev ip =? dev) && (i_inum ip =? inum) then (Some i, empty)
      else
        let empty := match empty with
                     | None => if i_ref ip =? 0 then Some i else None
                     | Some e => Some e
                     end in
        iget_scan dev inum l' (S i) empty
  end.

Definition iget (dev inum : Z) : KM nat :=
  do! acquire L_itable;
  let! r := gets (fun k => iget_scan dev inum (k_inodes k) 0 None) in
  match r with
  | (Some ip, _) => do! updi ip (set i_ref (fun r => r + 1)); do! release L_itable; ret ip
  | (None, None) => panic "iget: no inodes"
  | (None, Some ip) =>
      do! updi ip (set i_dev (fun _ => dev));
      do! updi ip (set i_inum (fun _ => inum));
      do! updi ip (set i_ref (fun _ => 1));
      do! updi ip (set i_valid (fun _ => 0));
      do! release L_itable;
      ret ip
  end.

Definition ialloc (dev type : Z) : KM (option nat) :=
  let! sb := gets k_sb in
  let! r := for_until (Z.to_nat (sb_ninodes sb - 1)) 1 (fun inum =>
    let! bp := bread dev (IBLOCK inum sb) in
    let! b := getb bp in
    if dip_type (dip_off inum) (b_data b) =? 0 then
      do! updb bp (set b_data (splice (dip_off inum) (replicate DINODE 0)));
      do! updb bp (set b_data (putw 2 (dip_off inum) type));
      do! log_write bp;
      do! brelse bp;
      let! ip := iget dev inum in
      ret (Some ip)
    else do! brelse bp; ret None) in
  match r with
  | Some ip => ret (Some ip)
  | None => do! printf (cstr "ialloc: no inodes" ++ [10]) []; ret None
  end.

Definition iupdate (ip : nat) : KM unit :=
  let! sb := gets k_sb in
  let! x := geti ip in
  let! bp := bread (i_dev x) (IBLOCK (i_inum x) sb) in
  let! x := geti ip in
  do! updb bp (set b_data (put_dinode x (dip_off (i_inum x))));
  do! log_write bp;
  brelse bp.

Definition idup (ip : nat) : KM nat :=
  do! acquire L_itable;
  do! updi ip (set i_ref (fun r => r + 1));
  do! release L_itable;
  ret ip.

Definition ilock (ipp : option nat) : KM unit :=
  match ipp with
  | None => panic "ilock"
  | Some ip =>
      let! x := geti ip in
      if i_ref x <? 1 then panic "ilock"
      else
        do! acquiresleep (inodelock ip);
        let! x := geti ip in
        if i_valid x =? 0 then
          let! sb := gets k_sb in
          let! bp := bread (i_dev x) (IBLOCK (i_inum x) sb) in
          let! b := getb bp in
          do! updi ip (fun x => get_dinode (dip_off (i_inum x)) (b_data b) x);
          do! brelse bp;
          do! updi ip (set i_valid (fun _ => 1));
          let! x := geti ip in
          if i_type x =? 0 then panic "ilock: no type" else ret tt
        else ret tt
  end.

Definition iunlock (ipp : option nat) : KM unit :=
  match ipp with
  | None => panic "iunlock"
  | Some ip =>
      let! h := holdingsleep (inodelock ip) in
      let! x := geti ip in
      if negb h || (i_ref x <? 1) then panic "iunlock" else releasesleep (inodelock ip)
  end.

(** ** Inode contents *)

(** The array [a] of block numbers in the indirect block held in [bp]. *)
Definition get_indirect (bp : nat) (bn : Z) : KM Z :=
  let! b := getb bp in ret (getw 4 (4 * Z.to_nat bn) (b_data b)).

Definition bmap (ip : nat) (bn : Z) : KM Z :=
  let! x := geti ip in
  if bn <? NDIRECT then
    let addr := aget (i_addrs x) bn in
    if addr =? 0 then
      let! addr := balloc (i_dev x) in
      if addr =? 0 then ret 0
      else do! updi ip (set i_addrs (aset bn addr)); ret addr
    else ret addr
  else
    let bn := bn - NDIRECT in
    if bn <? NINDIRECT then
      let addr := aget (i_addrs x) NDIRECT in
      let! addr :=
        if addr =? 0 then
          let! addr := balloc (i_dev x) in
          if addr =? 0 then ret 0
          else do! updi ip (set i_addrs (aset NDIRECT addr)); ret addr
        else ret addr in
      if addr =? 0 then ret 0
      else
        let! bp := bread (i_dev x) addr in
        let! addr := get_indirect bp bn in
        let! addr :=
          if addr =? 0 then
            let! addr := balloc (i_dev x) in
            do! when (negb (addr =? 0))
              (do! updb bp (set b_data (putw 4 (4 * Z.to_nat bn) addr)); log_write bp);
            ret addr
          else ret addr in
        do! brelse bp;
        ret addr
    else panic "bmap: out of range".

Definition itrunc (ip : nat) : KM unit :=
  do! for_range (Z.to_nat NDIRECT) 0 (fun i =>
    let! x := geti ip in
    when (negb (aget (i_addrs x) i =? 0))
      (do! bfree (i_dev x) (aget (i_addrs x) i);
       updi ip (set i_addrs (aset i 0))));
  let! x := geti ip in
  do! when (negb (aget (i_addrs x) NDIRECT =? 0))
    (let! bp := bread (i_dev x) (aget (i_addrs x) NDIRECT) in
     do! for_range (Z.to_nat NINDIRECT) 0 (fun j =>
       let! a := get_indirect bp j in
       when (negb (a =? 0)) (bfree (i_dev x) a));
     do! brelse bp;
     let! x := geti ip in
     do! bfree (i_dev x) (aget (i_addrs x) NDIRECT);
     updi ip (set i_addrs (aset NDIRECT 0)));
  do! updi ip (set i_size (fun _ => 0));
  iupdate ip.

Definition iput (ip : nat) : KM unit :=
  do! acquire L_itable;
  let! x := geti ip in
  do! when ((i_ref x =? 1) && negb (i_valid x =? 0) && (i_nlink x =? 0))
    (do! acquiresleep (inodelock ip);
     do! release L_itable;
     do! itrunc ip;
     do! updi ip (set i_type (fun _ => 0));
     do! iupdate ip;
     do! updi ip (set i_valid (fun _ => 0));
     do! releasesleep (inodelock ip);
     acquire L_itable);
  do! updi ip (set i_ref (fun r => r - 1));
  release L_itable.

Definition iunlockput (ip : nat) : KM unit :=
  do! iunlock (Some ip);
  iput ip.

Definition ireclaim (dev : Z) : KM unit :=
  let! sb := gets k_sb in
  for_range (Z.to_nat (sb_ninodes sb - 1)) 1 (fun inum =>
    let! bp := bread dev (IBLOCK inum sb) in
    let! b := getb bp in
    let o := dip_off inum in
    let! ip :=
      if negb (dip_type o (b_data b) =? 0) && (dip_nlink o (b_data b) =? 0) then
        do! printf (cstr "ireclaim: orphaned inode %d" ++ [10]) [PInt inum];
        let! ip := iget dev inum in
        ret (Some ip)
      else ret None in
    do! brelse bp;
    match ip with
    | Some ip =>
        do! begin_op;
        do! ilock (Some ip);
        do! iunlock (Some ip);
        do! iput ip;
        end_op
    | None => ret tt
    end).

Definition fsinit (dev : Z) : KM unit :=
  do! readsb dev;
  let! sb := gets k_sb in
  if negb (sb_magic sb =? FSMAGIC) then panic "invalid file system"
  else
    do! initlog dev sb;
    ireclaim dev.

(** [struct stat] of stat.h. *)
Record stat := mkstat { st_dev : Z; st_ino : Z; st_type : Z; st_nlink : Z; st_size : Z }.

Definition stati (ip : nat) : KM stat :=
  let! x := geti ip in
  ret (mkstat (i_dev x) (i_inum x) (i_type x) (i_nlink x) (i_size x)).

(** The loop of [readi]: [n] bytes are wanted and [tot] have been read.  Each
    round reads at least one byte, so [n] rounds are enough.  The result is
    [tot], -1 if a copy fails, and the bytes read. *)
Fixpoint readi_loop (fuel : nat) (ip : nat) (dst : cpdst) (off n tot : Z) : KM (Z * list Z) :=
  if tot <? n then
    match fuel with
    | O => Asleep
    | S fuel' =>
        let! addr := bmap ip (off / BSIZE) in
        if addr =? 0 then ret (tot, [])
        else
          let! x := geti ip in
          let! bp := bread (i_dev x) addr in
          let m := Z.min (n - tot) (BSIZE - off mod BSIZE) in
          let! b := getb bp in
          let bs := slice (Z.to_nat (off mod BSIZE)) (Z.to_nat m) (b_data b) in
          let! r := either_copyout dst bs m in
          if r =? -1 then do! brelse bp; ret (-1, [])
          else
            do! brelse bp;
            let! r := readi_loop fuel' ip (dst_add dst m) (off + m) n (tot + m) in
            ret (r.1, bs ++ r.2)
    end
  else ret (tot, []).

Definition readi (ip : nat) (dst : cpdst) (off n : Z) : KM (Z * list Z) :=
  let! x := geti ip in
  if (i_size x <? off) || (u32 (off + n) <? off) then ret (0, [])
  else
    let n := if i_size x <? u32 (off + n) then i_size x - off else n in
    let! r := readi_loop (Z.to_nat n) ip dst off n 0 in
    ret (i32 r.1, r.2).

(** The loop of [writei]; the result is [tot] and [off]. *)
Fixpoint writei_loop (fuel : nat) (ip : nat) (src : cpsrc) (off n tot : Z) : KM (Z * Z) :=
  if tot <? n then
    match fuel with
    | O => Asleep
    | S fuel' =>
        let! addr := bmap ip (off / BSIZE) in
        if addr =? 0 then ret (tot, off)
        else
          let! x := geti ip in
          let! bp := bread (i_dev x) addr in
          let m := Z.min (n - tot) (BSIZE - off mod BSIZE) in
          let! r := either_copyin src m in
          do! updb bp (set b_data (splice (Z.to_nat (off mod BSIZE)) r.2));
          if r.1 =? -1 then do! brelse bp; ret (tot, off)
          else
            do! log_write bp;
            do! brelse bp;
            writei_loop fuel' ip (src_add src m) (off + m) n (tot + m)
    end
  else ret (tot, off).

Definition writei (ip : nat) (src : cpsrc) (off n : Z) : KM Z :=
  let! x := geti ip in
  if (i_size x <? off) || (u32 (off + n) <? off) then ret (-1)
  else if MAXFILE * BSIZE <? u32 (off + n) then ret (-1)
  else
    let! r := writei_loop (Z.to_nat n) ip src off n 0 in
    let! x := geti ip in
    do! when (i_size x <? r.2) (updi ip (set i_size (fun _ => r.2)));
    do! iupdate ip;
    ret (i32 r.1).

(** ** Directories *)

(** The number of rounds of [for(off = 0; off < dp->size; off += sizeof(de))]. *)
Definition dirents (size : Z) : nat := Z.to_nat ((size + DIRENT - 1) / DIRENT).

(** The inode of the entry and the offset of the entry, [*poff]. *)
Definition dirlookup (dp : nat) (name : list Z) : KM (option (nat * Z)) :=
  let! x := geti dp in
  if negb (i_type x =? T_DIR) then panic "dirlookup not DIR"
  else
    for_until (dirents (i_size x)) 0 (fun j =>
      let off := DIRENT * j in
      let! r := readi dp D_local off DIRENT in
      if negb (r.1 =? DIRENT) then panic "dirlookup read"
      else
        let de := r.2 in
        if de_inum de =? 0 then ret None
        else if namecmp name (de_name de) =? 0 then
          let! ip := iget (i_dev x) (de_inum de) in
          ret (Some (ip, off))
        else ret None).

(** The bytes of a [struct dirent]. *)
Definition mkdirent (inum : Z) (name : list Z) : list Z :=
  le_bytes 2 inum ++ strncpy_bytes (Z.to_nat DIRSIZ) name.

Definition dirlink (dp : nat) (name : list Z) (inum : Z) : KM Z :=
  let! r := dirlookup dp name in
  match r with
  | Some (ip, _) => do! iput ip; ret (-1)
  | None =>
      let! x := geti dp in
      let! r := for_until (dirents (i_size x)) 0 (fun j =>
        let off := DIRENT * j in
        let! r := readi dp D_local off DIRENT in
        if negb (r.1 =? DIRENT) then panic "dirlink read"
        else if de_inum r.2 =? 0 then ret (Some off) else ret None) in
      let off := match r with Some off => off | None => DIRENT * Z.of_nat (dirents (i_size x)) end in
      let! r := writei dp (S_bytes (mkdirent inum name)) off DIRENT in
      if negb (r =? DIRENT) then ret (-1) else ret 0
  end.

(** ** Paths *)

(** The loop of [namex].  Every round removes a byte of the path, so its
    length bounds the rounds.  The result is the inode and [name]. *)
Fixpoint namex_loop (fuel : nat) (ip : nat) (path : list Z) (nameiparent : bool) (name : list Z) : KM (option nat * list Z) :=
  match skipelem path name with
  | None => if nameiparent then do! iput ip; ret (None, name) else ret (Some ip, name)
  | Some (path, name) =>
      match fuel with
      | O => Asleep
      | S fuel' =>
          do! ilock (Some ip);
          let! x := geti ip in
          if negb (i_type x =? T_DIR) then do! iunlockput ip; ret (None, name)
          else if nameiparent && (hd 0 path =? 0) then do! iunlock (Some ip); ret (Some ip, name)
          else
            let! next := dirlookup ip name in
            match next with
            | None => do! iunlockput ip; ret (None, name)
            | Some (next, _) => do! iunlockput ip; namex_loop fuel' next path nameiparent name
            end
      end
  end.

Definition namex (path : list Z) (nameiparent : bool) (name : list Z) : KM (option nat * list Z) :=
  let! ip := if hd 0 path =? SLASH then iget ROOTDEV ROOTINO
             else let! p := curproc in
                  let! pr := getp p in
                  match p_cwd pr with
                  | Some cwd => idup cwd
                  | None => panic "kerneltrap"
                  end in
  namex_loop (length path) ip path nameiparent name.

Definition namei (path : list Z) : KM (option nat) :=
  let! r := namex path false (replicate (Z.to_nat DIRSIZ) 0) in
  ret r.1.

(** The parent, and the final element in [name]. *)
Definition nameiparent (path name : list Z) : KM (option nat * list Z) := namex path true name.

End Fs.
