(* ===== verification/Pipe.v ===== *)
(** * Pipes (kernel/pipe.c)

    A pipe is a ring of [PIPESIZE] bytes with two free-running 32-bit
    counters.  A pipe is named by the address of its page; its contents are
    kept apart from the bytes of the page. *)

From Stdlib Require Import ZArith Lia.
From stdpp Require Import base list strings sets.
From S2P Require Import Prelude Params Mem State Evict Kalloc Vm Sched Sleeplock.

Definition getpi (pi : Z) : KM pipe := gets (fun k => k_pipes k pi).
Definition updpi (pi : Z) (f : pipe -> pipe) : KM unit :=
  modify (fun k => k <| k_pipes ::= fun ps => fupd pi (f (ps pi)) ps |>).

(** [pi->data[pi->nwrite++ % PIPESIZE] = ch] *)
Definition pipe_put (ch : Z) (p : pipe) : pipe :=
  p <| pi_data ::= aset (pi_nwrite p mod PIPESIZE) ch |> <| pi_nwrite ::= fun n => u32 (n + 1) |>.

Definition pipe_full (p : pipe) : bool := pi_nwrite p =? u32 (pi_nread p + PIPESIZE).
Definition pipe_empty (p : pipe) : bool := pi_nread p =? pi_nwrite p.

Section Pipe.
Context {L : Layout} {I : Interference}.

Definition pipeclose (pi : Z) (writable : bool) : KM unit :=
  do! acquire (L_pipe pi);
  do! if writable then
        do! updpi pi (set pi_writeopen (fun _ => 0));
        wakeup (CH_nread pi)
      else
        do! updpi pi (set pi_readopen (fun _ => 0));
        wakeup (CH_nwrite pi);
  let! p := getpi pi in
  if (pi_readopen p =? 0) && (pi_writeopen p =? 0) then
    do! release (L_pipe pi);
    kfree pi
  else release (L_pipe pi).

(** The loop of [pipewrite], from byte [i] on.  [None]: the reader is gone or
    the writer was killed. *)
Fixpoint pipewrite_loop (fuel : nat) (pr : nat) (pi addr n i : Z) : KM (option Z) :=
  if i <? n then
    match fuel with
    | O => Asleep
    | S fuel' =>
        let! p := getpi pi in
        let! dead := if pi_readopen p =? 0 then ret true
                     else let! r := killed pr in ret (negb (r =? 0)) in
        if dead then ret None
        else if pipe_full p then
          do! wakeup (CH_nread pi);
          do! sleep (CH_nwrite pi) (L_pipe pi);
          pipewrite_loop fuel' pr pi addr n i
        else
          let! x := getp pr in
          let! r := copyin (p_pagetable x) (u64 (addr + i)) 1 in
          if r.1 =? -1 then ret (Some i)
          else
            do! updpi pi (pipe_put (aget r.2 0));
            pipewrite_loop fuel' pr pi addr n (i + 1)
    end
  else ret (Some i).

Definition pipewrite (pi addr n : Z) : KM Z :=
  let! pr := curproc in
  do! acquire (L_pipe pi);
  let! fuel := gets (fun k => Z.to_nat n + rounds k)%nat in
  let! r := pipewrite_loop fuel pr pi addr n 0 in
  match r with
  | None => do! release (L_pipe pi); ret (-1)
  | Some i =>
      do! wakeup (CH_nread pi);
      do! release (L_pipe pi);
      ret i
  end.

(** The copy loop of [piperead], from byte [i] on, with [m] rounds left. *)
Fixpoint piperead_loop (m : nat) (pr : nat) (pi addr i : Z) : KM Z :=
  match m with
  | O => ret i
  | S m' =>
      let! p := getpi pi in
      if pipe_empty p then ret i
      else
        let ch := aget (pi_data p) (pi_nread p mod PIPESIZE) in
        let! x := getp pr in
        let! r := copyout (p_pagetable x) (u64 (addr + i)) [ch] 1 in
        if r =? -1 then ret (if i =? 0 then -1 else i)
        else
          do! updpi pi (set pi_nread (fun n => u32 (n + 1)));
          piperead_loop m' pr pi addr (i + 1)
  end.

Definition piperead (pi addr n : Z) : KM Z :=
  let! pr := curproc in
  do! acquire (L_pipe pi);
  let! dead := wait_unless_killed
                 (fun k => pipe_empty (k_pipes k pi) && negb (pi_writeopen (k_pipes k pi) =? 0))
                 (CH_nread pi) (L_pipe pi) in
  if dead then do! release (L_pipe pi); ret (-1)
  else
    let! i := piperead_loop (Z.to_nat n) pr pi addr 0 in
    do! wakeup (CH_nwrite pi);
    do! release (L_pipe pi);
    ret i.
End Pipe.
