(* ===== verification/PipeProps.v ===== *)
(** * Pipes as queues

    The ring of a pipe with its two counters represents a queue of bytes; the
    loops of pipewrite and piperead (kernel/pipe.c) append to it and take from
    it, whatever pages of the user's buffer have to be brought in meanwhile. *)

From Stdlib Require Import ZArith Lia.
From stdpp Require Import base list strings sets relations.
From S2P Require Import Prelude Params Mem State Evict Kalloc Vm VmInv VmFault VmFaultSpec UserMem Demo.
From S2P Require Import Sched SchedSpec SchedProps MemFrame Sleeplock BioLaws Pipe.

(** ** The ring *)
Definition pipe_count (p : pipe) : Z := u32 (pi_nwrite p - pi_nread p).

Record pipe_wf (p : pipe) : Prop := {
  pw_len : length (pi_data p) = Z.to_nat PIPESIZE;
  pw_data : Forall byte_ok (pi_data p);
  pw_nread : 0 <= pi_nread p < 2 ^ 32;
  pw_nwrite : 0 <= pi_nwrite p < 2 ^ 32;
  pw_count : pipe_count p <= PIPESIZE
}.

(** The bytes in the pipe, the next to be read first. *)
Definition pipe_queue (p : pipe) : list Z :=
  map (fun i => aget (pi_data p) ((pi_nread p + Z.of_nat i) mod PIPESIZE)) (seq 0 (Z.to_nat (pipe_count p))).

Lemma pipe_queue_length p : Z.of_nat (length (pipe_queue p)) = pipe_count p.
Proof. unfold pipe_queue. rewrite length_map, length_seq. unfold pipe_count. pose proof (u32_range (pi_nwrite p - pi_nread p)). lia. Qed.

Section Ring.
Context (p : pipe) (W : pipe_wf p).

Lemma pipe_full_spec : pipe_full p = (Z.of_nat (length (pipe_queue p)) =? PIPESIZE).
Proof.
  destruct W as [H1 H2 H3 H4 H5]. rewrite pipe_queue_length. unfold pipe_full, pipe_count, u32 in *. change PIPESIZE with 512 in *.
  destruct (Z.eqb_spec ((pi_nwrite p - pi_nread p) mod 4294967296) 512) as [E|E].
  - apply Z.eqb_eq. dlia.
  - apply Z.eqb_neq. dlia.
Qed.

Lemma pipe_empty_spec : pipe_empty p = (Z.of_nat (length (pipe_queue p)) =? 0).
Proof.
  destruct W as [H1 H2 H3 H4 H5]. rewrite pipe_queue_length. unfold pipe_empty, pipe_count, u32 in *.
  destruct (Z.eqb_spec ((pi_nwrite p - pi_nread p) mod 4294967296) 0) as [E|E].
  - apply Z.eqb_eq. dlia.
  - apply Z.eqb_neq. dlia.
Qed.

(** The byte after the last goes to a free place, also where the counters
    wrap around. *)
Lemma pipe_put_spec ch : byte_ok ch -> Z.of_nat (length (pipe_queue p)) < PIPESIZE ->
  pipe_queue (pipe_put ch p) = pipe_queue p ++ [ch] /\ pipe_wf (pipe_put ch p).
Proof.
  intros Hch Hlt. rewrite pipe_queue_length in Hlt. pose proof W as [H1 H2 H3 H4 H5].
  set (p' := pipe_put ch p). change (pi_data p') with (aset (pi_nwrite p mod PIPESIZE) ch (pi_data p)).
  assert (pi_nread p' = pi_nread p) as Er by done. assert (pi_nwrite p' = u32 (pi_nwrite p + 1)) as Ew by done.
  assert (pi_data p' = aset (pi_nwrite p mod PIPESIZE) ch (pi_data p)) as Ed by done.
  pose proof (u32_range (pi_nwrite p - pi_nread p)) as Hc0. fold (pipe_count p) in Hc0.
  assert (pipe_count p' = pipe_count p + 1) as Ec.
  { unfold pipe_count, u32 in *. rewrite Er, Ew. unfold u32. change PIPESIZE with 512 in *. dlia. }
  assert ((pi_nread p + pipe_count p) mod PIPESIZE = pi_nwrite p mod PIPESIZE) as Em.
  { unfold pipe_count, u32. change PIPESIZE with 512. dlia. }
  split.
  - unfold pipe_queue. rewrite Er, Ec, Ed. replace (Z.to_nat (pipe_count p + 1)) with (S (Z.to_nat (pipe_count p))) by lia.
    rewrite seq_S, map_app. cbn [map Nat.add]. rewrite Z2Nat.id by lia. f_equal.
    + apply map_ext_in. intros i Hi%in_seq. rewrite aget_aset by (change (Z.to_nat PIPESIZE) with 512%nat in *; change PIPESIZE with 512 in *; dlia).
      rewrite decide_False; [done|]. rewrite <- Em. change PIPESIZE with 512 in *. intros E.
      assert (0 <= Z.of_nat i < pipe_count p) by lia. clear - E H Hlt. dlia.
    + rewrite Em, aget_aset by (change (Z.to_nat PIPESIZE) with 512%nat in *; change PIPESIZE with 512 in *; dlia). by rewrite decide_True.
  - split; rewrite ?Er, ?Ew, ?Ec; try done; [rewrite Ed; unfold aset; by rewrite length_insert|rewrite Ed; by apply Forall_insert|apply u32_range|lia].
Qed.

(** The first byte comes off. *)
Lemma pipe_get_spec : 0 < Z.of_nat (length (pipe_queue p)) ->
  let p' := p <| pi_nread ::= fun n => u32 (n + 1) |> in
  pipe_queue p = aget (pi_data p) (pi_nread p mod PIPESIZE) :: pipe_queue p' /\ pipe_wf p'.
Proof.
  intros Hlt p'. rewrite pipe_queue_length in Hlt. pose proof W as [H1 H2 H3 H4 H5].
  assert (pi_nread p' = u32 (pi_nread p + 1)) as Er by done. assert (pi_nwrite p' = pi_nwrite p) as Ew by done.
  assert (pi_data p' = pi_data p) as Ed by done.
  pose proof (u32_range (pi_nwrite p - pi_nread p)) as Hc0. fold (pipe_count p) in Hc0.
  assert (pipe_count p' = pipe_count p - 1) as Ec.
  { unfold pipe_count, u32 in *. rewrite Er, Ew. unfold u32. dlia. }
  split.
  - unfold pipe_queue. rewrite Ec, Ed, Er. replace (Z.to_nat (pipe_count p)) with (S (Z.to_nat (pipe_count p - 1))) by lia.
    rewrite <- cons_seq. cbn [map]. rewrite Z.add_0_r. f_equal. rewrite <- seq_shift, map_map.
    apply map_ext. intros i. f_equal. unfold u32. change PIPESIZE with 512. dlia.
  - split; rewrite ?Er, ?Ew, ?Ec, ?Ed; try done; [apply u32_range|lia].
Qed.
End Ring.

(** ** The loops *)
Lemma ubyte_ok m r va : mem_ok m -> byte_ok (ubyte m r va).
Proof. intros Hm. unfold ubyte, view. destruct (has _ PTE_V); [apply Hm|]. destruct (has _ PTE_S); [apply Hm|done]. Qed.

Section Pipe.
Context {L : Layout} {LO : LayoutOk L} {I : Interference}.

(** The process [p] at work on the pipe [pi]. *)
Record pctx (use0 : Z -> usage) (p : nat) (r pi : Z) (k : kernel) : Prop := {
  pc_user : uctx use0 p r k;
  pc_held : k_held k = [L_pipe pi];
  pc_queues : queues_wf k;
  pc_levels : levels_ok k;
  pc_alive : p_killed (k_procs k !!! p) = 0
}.

Lemma pctx_mem use0 p r pi k k' : pctx use0 p r pi k -> uctx use0 p r k' -> calm k k' -> mem_only k k' -> pctx use0 p r pi k'.
Proof.
  intros [U H Q [Ll Lv] K] U' C [E Ln S]. split; [done|by rewrite (cm_held _ _ C)|unfold queues_wf; rewrite E; by kproj| |].
  - split; [congruence|]. intros i Hi. rewrite (S i). exact (Lv i Hi).
  - by rewrite (S p).
Qed.

Lemma pctx_pipes use0 p r pi k f : pctx use0 p r pi k -> pctx use0 p r pi (k <| k_pipes ::= f |>).
Proof.
  intros [[(use & slot & W & T) U2 U3 U4 U5 U6] H Q Lv K]. split; try done. split; try done.
  exists use, slot. split; [|done]. by destruct W.
Qed.

(** What the work on pipe [pi] leaves alone. *)
Record piped (use0 : Z -> usage) (pi : Z) (k k' : kernel) : Prop := {
  pp_views : same_views use0 (k_mem k) (k_mem k');
  pp_pipes pi' : pi' <> pi -> k_pipes k' pi' = k_pipes k pi'
}.

Lemma piped_trans use0 pi k1 k2 k3 : piped use0 pi k1 k2 -> piped use0 pi k2 k3 -> piped use0 pi k1 k3.
Proof. intros [V1 P1] [V2 P2]. split; [by eapply same_views_trans|]. intros pi' Hp. by rewrite P2, P1. Qed.

Lemma killed_wp use0 p r pi k Q : pctx use0 p r pi k -> Q 0 k -> wp (killed p) Q k.
Proof.
  intros H HQ. pose proof (pc_held _ _ _ _ _ H) as Hh. unfold killed. wp_run. kproj. rewrite (pc_alive _ _ _ _ _ H).
  match goal with |- Q 0 ?x => replace x with k; [done|] end. kext. by rewrite unlocked_top by (rewrite Hh; set_solver).
Qed.

Lemma pipewrite_loop_wp use0 p r pi addr n fuel i k (Q : option Z -> kernel -> Prop) :
  pctx use0 p r pi k -> pipe_wf (k_pipes k pi) -> pi_readopen (k_pipes k pi) <> 0 ->
  Z.of_nat (length (pipe_queue (k_pipes k pi))) + (n - i) <= PIPESIZE ->
  0 <= addr -> 0 <= i <= n -> addr + n <= p_sz (k_procs k !!! p) -> addr + n <= MAXVA ->
  (forall j, i <= j < n -> accessible (k_mem k) r (addr + j) PTE_U) -> n - i <= Z.of_nat fuel ->
  (forall k', pctx use0 p r pi k' -> pipe_wf (k_pipes k' pi) -> piped use0 pi k k' ->
     pipe_queue (k_pipes k' pi) = pipe_queue (k_pipes k pi) ++ ubytes (k_mem k) r (addr + i) (Z.to_nat (n - i)) -> Q (Some n) k') ->
  wp (pipewrite_loop fuel p pi addr n i) Q k.
Proof.
  revert i k. induction fuel as [|fuel IH]; intros i k H W Ho Hroom Ha Hi Hsz Hmax Hacc Hf HQ; cbn [pipewrite_loop].
  - assert (i = n) as -> by lia. rewrite Z.ltb_irrefl. wp_steps. apply HQ; [done|done|done|]. by rewrite Z.sub_diag, app_nil_r.
  - destruct (Z.ltb_spec i n) as [Hlt|Hge].
    2:{ assert (i = n) as -> by lia. wp_steps. apply HQ; [done|done|done|]. by rewrite Z.sub_diag, app_nil_r. }
    unfold getpi. wp_steps. rewrite (proj2 (Z.eqb_neq _ _) Ho). wp_step. apply (killed_wp _ _ _ _ _ _ H). wp_steps. cbn [Z.eqb negb].
    rewrite pipe_full_spec, (proj2 (Z.eqb_neq _ _)) by (done || lia).
    pose proof (pc_user _ _ _ _ _ H) as U. wp_steps. rewrite (uc_table _ _ _ _ U).
    assert (u64 (addr + i) = addr + i) as -> by (apply u64_id; change MAXVA with (2 ^ 38) in Hmax; lia).
    eapply wp_mono; [apply wp_keeps; [|apply copyin_keeps]; apply (copyin_loop_wp use0 p r); [done|lia|lia|lia|lia|lia|]|].
    { intros j Hj. assert (j = 0) as -> by lia. rewrite Z.add_0_r. apply Hacc. lia. }
    cbv beta. intros res k1 ((U1 & C1 & V1 & ->) & M1). cbn [fst snd Z.eqb]. 
    pose proof (pctx_mem _ _ _ _ _ _ H U1 C1 M1) as H1.
    assert (k_pipes k1 = k_pipes k) as Ep by (rewrite (mo_eq _ _ M1); by kproj).
    assert (ubytes (k_mem k) r (addr + i) (Z.to_nat 1) = [ubyte (k_mem k) r (addr + i)]) as -> by done.
    change (aget [ubyte (k_mem k) r (addr + i)] 0) with (ubyte (k_mem k) r (addr + i)). set (ch := ubyte (k_mem k) r (addr + i)).
    assert (byte_ok ch) as Hch by (apply ubyte_ok; destruct (uc_wf _ _ _ _ U) as (use & slot & Wf & _); apply Wf).
    destruct (pipe_put_spec (k_pipes k pi) W ch Hch) as [Eq W']; [lia|].
    unfold updpi. wp_steps. pose proof (uc_root _ _ _ _ U) as Hr.
    assert (k_pipes (k1 <| k_pipes ::= fun ps => fupd pi (pipe_put ch (ps pi)) ps |>) pi = pipe_put ch (k_pipes k pi)) as Ek.
    { kproj. by rewrite fupd_eq, Ep. }
    apply IH; try (rewrite Ek); try done; kproj.
    + by apply pctx_pipes.
    + rewrite Eq, length_app. cbn [length]. lia.
    + lia.
    + by rewrite (cm_sz _ _ C1).
    + intros j Hj. eapply accessible_same; [done|done|lia|]. apply Hacc. lia.
    + lia.
    + intros k' H' Wk P' E'. apply HQ; [done|done| |].
      * eapply piped_trans; [|exact P']. split; [by kproj|]. intros pi' Hp. kproj. by rewrite fupd_ne, Ep.
      * rewrite E', Eq, <- app_assoc. cbn [app]. f_equal. replace (Z.to_nat (n - i)) with (S (Z.to_nat (n - (i + 1)))) by lia.
        cbn [ubytes]. fold ch. f_equal. rewrite (ubytes_same _ _ _ _ _ _ V1 Hr) by lia. by replace (addr + (i + 1)) with (addr + i + 1) by lia.
Qed.

Lemma written_nil use m r dst : written use m m r dst [].
Proof. intros r' va _ _. by rewrite decide_False by (cbn; lia). Qed.

Lemma piperead_loop_wp use0 p r pi addr m i k (Q : Z -> kernel -> Prop) :
  let q := pipe_queue (k_pipes k pi) in
  let t := Nat.min m (length q) in
  pctx use0 p r pi k -> pipe_wf (k_pipes k pi) ->
  0 <= addr -> 0 <= i -> addr + i + Z.of_nat m <= p_sz (k_procs k !!! p) -> addr + i + Z.of_nat m <= MAXVA ->
  (forall j, i <= j < i + Z.of_nat m -> accessible (k_mem k) r (addr + j) PTE_W) ->
  (forall k', pctx use0 p r pi k' -> pipe_wf (k_pipes k' pi) -> pipe_queue (k_pipes k' pi) = drop t q ->
     written use0 (k_mem k) (k_mem k') r (addr + i) (take t q) -> (forall pi', pi' <> pi -> k_pipes k' pi' = k_pipes k pi') ->
     Q (i + Z.of_nat t) k') ->
  wp (piperead_loop m p pi addr i) Q k.
Proof.
  revert i k. induction m as [|m IH]; intros i k q t H W Ha Hi Hsz Hmax Hacc HQ; cbn [piperead_loop].
  - wp_steps. rewrite <- (Z.add_0_r i). apply HQ; try done. apply written_nil.
  - unfold getpi. wp_steps. rewrite pipe_empty_spec by done. fold q. destruct (Z.eqb_spec (Z.of_nat (length q)) 0) as [Hz|Hz].
    { wp_steps. assert (t = 0%nat) as Et by (unfold t; lia). rewrite Et in HQ. rewrite <- (Z.add_0_r i). apply HQ; try done. apply written_nil. }
    destruct (pipe_get_spec (k_pipes k pi) W) as [Eq W']; [fold q; lia|]. fold q in Eq.
    set (ch := aget (pi_data (k_pipes k pi)) (pi_nread (k_pipes k pi) mod PIPESIZE)) in *.
    assert (byte_ok ch) as Hch.
    { unfold ch, aget. pose proof (pw_len _ W) as Hl. apply (Forall_lookup_total_1 _ _ _ (pw_data _ W)). rewrite Hl.
      pose proof (Z.mod_pos_bound (pi_nread (k_pipes k pi)) PIPESIZE ltac:(done)). lia. }
    pose proof (pc_user _ _ _ _ _ H) as U. pose proof (uc_root _ _ _ _ U) as Hr. wp_steps. rewrite (uc_table _ _ _ _ U).
    assert (u64 (addr + i) = addr + i) as -> by (apply u64_id; change MAXVA with (2 ^ 38) in Hmax; lia).
    eapply wp_mono; [apply wp_keeps; [|apply copyout_keeps]; apply (copyout_loop_wp use0 p r); [done|lia|lia|done|by constructor|lia|lia|]|].
    { intros j Hj. assert (j = 0) as -> by lia. rewrite Z.add_0_r. apply Hacc. lia. }
    cbv beta. intros res k1 ((U1 & C1 & V1 & ->) & M1). cbn [Z.eqb].
    pose proof (pctx_mem _ _ _ _ _ _ H U1 C1 M1) as H1.
    assert (k_pipes k1 = k_pipes k) as Ep by (rewrite (mo_eq _ _ M1); by kproj).
    unfold updpi. wp_steps.
    assert (k_pipes (k1 <| k_pipes ::= fun ps => fupd pi (set pi_nread (fun n => u32 (n + 1)) (ps pi)) ps |>) pi =
      (k_pipes k pi) <| pi_nread ::= fun n => u32 (n + 1) |>) as Ek by (kproj; by rewrite fupd_eq, Ep).
    apply IH; try (rewrite Ek); try done; kproj.
    + by apply pctx_pipes.
    + lia.
    + rewrite (cm_sz _ _ C1). lia.
    + lia.
    + intros j Hj. eapply accessible_written; [done|done|lia|]. apply Hacc. lia.
    + intros k' H' Wk E' V' P'. replace (i + 1 + Z.of_nat (Nat.min m (length (pipe_queue ((k_pipes k pi) <| pi_nread ::= fun n => u32 (n + 1) |>))))) with (i + Z.of_nat t).
      * apply HQ; [done|done| | |].
        -- rewrite E'. unfold t. rewrite Eq. cbn [length Nat.min drop]. done.
        -- unfold t. rewrite Eq. cbn [length Nat.min take]. apply (written_app _ _ _ _ _ _ [ch] _ V1). replace (addr + i + Z.of_nat (length [ch])) with (addr + (i + 1)) by (cbn; lia). done.
        -- intros pi' Hp. rewrite P' by done. by rewrite fupd_ne, Ep.
      * unfold t. rewrite Eq. cbn [length Nat.min]. lia.
Qed.
End Pipe.

(** ** Properties of pipes, with instances *)

Section PipeProps.
Context {L : Layout} {LO : LayoutOk L} {I : Interference}.

(** The running process [p], about to use a pipe. *)
Record pipe_user (use0 : Z -> usage) (p : nat) (r : Z) (k : kernel) : Prop := {
  pu_user : uctx use0 p r k;
  pu_held : k_held k = [];
  pu_queues : queues_wf k;
  pu_levels : levels_ok k;
  pu_alive : p_killed (k_procs k !!! p) = 0
}.

Lemma pipe_user_lock use0 p r pi k : pipe_user use0 p r k -> pctx use0 p r pi (k <| k_held ::= cons (L_pipe pi) |>).
Proof.
  intros [[(use & slot & W & T) U2 U3 U4 U5 U6] H Q Lv K]. split; try done; [|kproj; by rewrite H].
  split; try done; [exists use, slot; split; [by destruct W|done]|]. unfold vm_unlocked. kproj. rewrite H. repeat split; set_solver.
Qed.

(** [wakeup], then [release] of the pipe. *)
Lemma pipe_leave {A} use0 p r pi ch (a : A) k Q : pctx use0 p r pi k ->
  (forall k', k_mem k' = k_mem k -> k_pipes k' = k_pipes k -> k_held k' = [] -> Q a k') ->
  wp (do! wakeup ch; do! release (L_pipe pi); ret a) Q k.
Proof.
  intros [U H Qw Lv K] HQ. wp_step.
  eapply wp_mono; [apply wakeup_wp; [done|done|split; intros; rewrite H; set_solver]|].
  cbv beta. intros _ k1 [F _ _ _ _]. assert (k_held k1 = [L_pipe pi]) as Hh by (rewrite F; by kproj). wp_run.
  apply HQ; kproj; [rewrite F; by kproj|rewrite F; by kproj|]. rewrite Hh. apply unlocked_top. set_solver.
Qed.

(** C24. A write to a pipe with room appends to the queue of its bytes exactly
    the bytes of the user's buffer, whether the buffer's pages are in memory or
    swapped out, and across a wrap-around of the counters; it returns their
    number, changes no byte any process can see and no other pipe, and leaves
    the pipe unlocked. *)
Theorem pipewrite_spec use0 p r pi addr n k :
  pipe_user use0 p r k -> pipe_wf (k_pipes k pi) -> pi_readopen (k_pipes k pi) <> 0 ->
  0 <= n -> Z.of_nat (length (pipe_queue (k_pipes k pi))) + n <= PIPESIZE ->
  0 <= addr -> addr + n <= p_sz (k_procs k !!! p) -> addr + n <= MAXVA ->
  (forall j, 0 <= j < n -> accessible (k_mem k) r (addr + j) PTE_U) ->
  wp (pipewrite pi addr n) (fun res k' => res = n /\ pipe_wf (k_pipes k' pi) /\
    pipe_queue (k_pipes k' pi) = pipe_queue (k_pipes k pi) ++ ubytes (k_mem k) r addr (Z.to_nat n) /\
    same_views use0 (k_mem k) (k_mem k') /\ (forall pi', pi' <> pi -> k_pipes k' pi' = k_pipes k pi') /\ k_held k' = []) k.
Proof.
  intros H W Ho Hn Hroom Ha Hsz Hmax Hacc. pose proof (pu_held _ _ _ _ H) as Hh. unfold pipewrite, curproc.
  wp_step. wp_steps. rewrite (uc_cur _ _ _ _ (pu_user _ _ _ _ H)). wp_run.
  apply (pipewrite_loop_wp use0 p r pi addr n _ 0); try done; [by apply pipe_user_lock|by rewrite Z.sub_0_r|lia|].
  intros k' H' W' [V P] E. apply (pipe_leave use0 p r pi _ _ _ _ H'). intros k2 Em Ep Eh.
  rewrite Em, Ep. rewrite Z.add_0_r, Z.sub_0_r in E. done.
Qed.

(** C25. A read from a pipe with bytes in it takes bytes off the front of the
    queue, as many as were asked for or as there are, stores exactly them in
    the user's buffer, and returns their number; no other byte any process can
    see and no other pipe is changed. *)
Theorem piperead_spec use0 p r pi addr n k (q := pipe_queue (k_pipes k pi)) (t := Nat.min (Z.to_nat n) (length q)) :
  pipe_user use0 p r k -> pipe_wf (k_pipes k pi) -> q <> [] ->
  0 <= n -> 0 <= addr -> addr + n <= p_sz (k_procs k !!! p) -> addr + n <= MAXVA ->
  (forall j, 0 <= j < n -> accessible (k_mem k) r (addr + j) PTE_W) ->
  wp (piperead pi addr n) (fun res k' => res = Z.of_nat t /\ pipe_wf (k_pipes k' pi) /\ pipe_queue (k_pipes k' pi) = drop t q /\
    written use0 (k_mem k) (k_mem k') r addr (take t q) /\ (forall pi', pi' <> pi -> k_pipes k' pi' = k_pipes k pi') /\ k_held k' = []) k.
Proof.
  intros H W Hq Hn Ha Hsz Hmax Hacc. pose proof (pu_held _ _ _ _ H) as Hh. unfold piperead, curproc.
  wp_step. wp_steps. rewrite (uc_cur _ _ _ _ (pu_user _ _ _ _ H)). wp_run.
  assert (pipe_empty (k_pipes k pi) = false) as Hne.
  { rewrite pipe_empty_spec by done. apply Z.eqb_neq. fold q. destruct q; [done|cbn; lia]. }
  eapply wp_Ret; [unfold wait_unless_killed; cbn [wait_rounds]; kproj; rewrite Hne; cbn [andb]; reflexivity|]. cbv beta iota. wp_step.
  apply (piperead_loop_wp use0 p r pi addr (Z.to_nat n) 0); rewrite ?Z2Nat.id by lia; rewrite ?Z.add_0_r; try done; [by apply pipe_user_lock|].
  intros k' H' W' E V P. apply (pipe_leave use0 p r pi _ _ _ _ H'). intros k2 Em Ep Eh.
  rewrite Em, Ep. done.
Qed.
End PipeProps.

(** ** Any interleaving of readers and writers

    Under its lock, a pipe is changed only by a writer that finds it not full
    and stores a byte, and by a reader that finds it not empty and takes one. *)
Inductive pipe_step : pipe * list Z * list Z -> pipe * list Z * list Z -> Prop :=
| step_put p ws rs ch : byte_ok ch -> pipe_full p = false -> pipe_step (p, ws, rs) (pipe_put ch p, ws ++ [ch], rs)
| step_get p ws rs : pipe_empty p = false ->
    pipe_step (p, ws, rs)
      (p <| pi_nread ::= fun n => u32 (n + 1) |>, ws, rs ++ [aget (pi_data p) (pi_nread p mod PIPESIZE)]).

(** The pipe [pipealloc] makes, with nothing written and nothing read. *)
Definition pipe_start : pipe * list Z * list Z := (pipe0 <| pi_readopen := 1 |> <| pi_writeopen := 1 |>, [], []).

Lemma pipe0_wf : pipe_wf (pipe0 <| pi_readopen := 1 |> <| pi_writeopen := 1 |>).
Proof. split; try done. apply Forall_replicate. done. Qed.

(** C23. A pipe is a bounded first-in first-out channel under every
    interleaving of its readers and writers: the bytes read so far followed by
    those in the pipe are the bytes written so far, in order, and there are
    never more than PIPESIZE in it, however often the 32-bit counters have
    wrapped around. *)
Theorem pipe_fifo p ws rs : rtc pipe_step pipe_start (p, ws, rs) ->
  ws = rs ++ pipe_queue p /\ pipe_wf p /\ (length (pipe_queue p) <= Z.to_nat PIPESIZE)%nat.
Proof.
  intros H. set (inv := fun s : pipe * list Z * list Z => s.1.2 = s.2 ++ pipe_queue s.1.1 /\ pipe_wf s.1.1).
  assert (inv (p, ws, rs)) as [E W].
  { revert H. generalize (p, ws, rs) as s. apply (rtc_ind_r inv); [split; [done|apply pipe0_wf]|].
    intros s1 s2 _ Hs [E1 W1]. destruct Hs as [q ws1 rs1 ch Hch Hf|q ws1 rs1 Hf]; cbn [fst snd] in *.
    - rewrite pipe_full_spec in Hf by done. apply Z.eqb_neq in Hf. pose proof (pipe_queue_length q). pose proof (pw_count _ W1).
      destruct (pipe_put_spec q W1 ch Hch) as [Eq Wq]; [lia|]. split; [cbn [fst snd]; by rewrite Eq, E1, app_assoc|done].
    - rewrite pipe_empty_spec in Hf by done. apply Z.eqb_neq in Hf.
      destruct (pipe_get_spec q W1) as [Eq Wq]; [lia|]. split; [cbn [fst snd]; by rewrite E1, Eq, <- app_assoc|done]. }
  cbn [fst snd] in *. split; [done|]. split; [done|]. pose proof (pipe_queue_length p). pose proof (pw_count _ W). lia.
Qed.

(** ** Instances *)

(** The machine of [Demo] with a pipe that holds three bytes, its counters
    about to wrap around. *)
Definition demo_pipe : pipe := mkpipe (aset 511 9 (aset 0 8 (aset 1 7 (replicate 512 0)))) 4294967295 2 1 1.
Definition pdemo : kernel := demo <| k_pipes := fun _ => demo_pipe |>.
#[local] Instance alone : Interference := fun k => k.

Lemma demo_pipe_wf : pipe_wf demo_pipe.
Proof. split; try done. unfold demo_pipe. cbn [pi_data]. repeat (apply Forall_insert; [|done]). apply Forall_replicate. done. Qed.

Lemma pdemo_user : pipe_user demo_use 0 (pg 0) pdemo.
Proof.
  split; [|done| | |done].
  - destruct demo_uctx as [(use & slot & W & T) U2 U3 U4 U5 U6]. split; try done. exists use, slot. split; [by destruct W|done].
  - split; [done|]. repeat constructor; done.
  - split; [done|]. intros i Hi. apply (Forall_lookup_total_1 (fun p => 0 <= p_qlevel p < LEVELS)); [repeat constructor; done|exact Hi].
Qed.

Lemma accessible_user m r va perm : accessible m r va perm -> accessible m r va PTE_U.
Proof. intros (fl & b & H1 & H2 & _). by exists fl, b. Qed.

Lemma pipewrite_spec_witness : wp (pipewrite 0 4094 4) (fun res k' => res = 4 /\
  pipe_queue (k_pipes k' 0) = [9; 8; 7] ++ ubytes demo_mem (pg 0) 4094 4) pdemo.
Proof.
  eapply wp_mono; [apply (pipewrite_spec demo_use 0 (pg 0) 0 4094 4 pdemo pdemo_user demo_pipe_wf)|].
  - done.
  - lia.
  - done.
  - lia.
  - done.
  - done.
  - intros j Hj. apply (accessible_user _ _ _ PTE_W), demo_accessible. addr.
  - cbv beta. intros res k' (-> & _ & E & _). split; [reflexivity|]. rewrite E. reflexivity.
Defined.

Lemma piperead_spec_witness : wp (piperead 0 4094 2) (fun res k' => res = 2 /\ pipe_queue (k_pipes k' 0) = [7] /\
  written demo_use demo_mem (k_mem k') (pg 0) 4094 [9; 8]) pdemo.
Proof.
  eapply wp_mono; [apply (piperead_spec demo_use 0 (pg 0) 0 4094 2 pdemo pdemo_user demo_pipe_wf)|].
  - done.
  - lia.
  - lia.
  - done.
  - done.
  - intros j Hj. apply demo_accessible. addr.
  - cbv beta. intros res k' (-> & _ & E & W & _). split; [reflexivity|]. split; [rewrite E; reflexivity|exact W].
Defined.

Lemma pipe_fifo_witness : exists p, rtc pipe_step pipe_start (p, [5; 6], [5]) /\ [5; 6] = [5] ++ pipe_queue p.
Proof.
  assert (rtc pipe_step pipe_start
    ((pipe_put 6 (pipe_put 5 pipe_start.1.1)) <| pi_nread ::= fun n => u32 (n + 1) |>, [5; 6], [5])) as H.
  { eapply rtc_l; [apply (step_put _ _ _ 5); done|]. eapply rtc_l; [apply (step_put _ _ _ 6); done|].
    eapply rtc_l; [apply step_get; done|]. apply rtc_refl. }
  eexists. split; [exact H|]. exact (proj1 (pipe_fifo _ _ _ H)).
Defined.
