(* ===== verification/Console.v ===== *)
(** * The console and the UART (kernel/console.c, kernel/uart.c)

    The transmitter's bytes are appended to [k_out], the bytes the receiver
    holds are [k_in].  Whether the transmitter is idle is read from a device
    register: it is an argument of [uartintr].  Also [procdump] of
    kernel/proc.c, which the console calls for control-P. *)

From Stdlib Require Import ZArith Lia.
From stdpp Require Import base list strings sets.
From S2P Require Import Prelude Params Mem State Evict Kalloc Vm Sched Sleeplock Printf Fs.

Definition INPUT_BUF_SIZE : Z := 128.
Definition CTRL (x : Z) : Z := x - 64.
Definition C_D : Z := CTRL 68.
Definition C_P : Z := CTRL 80.
Definition C_U : Z := CTRL 85.
Definition C_H : Z := CTRL 72.
Definition NEWLINE : Z := 10.

Definition updc (f : console -> console) : KM unit := modify (fun k => k <| k_cons ::= f |>).

(** ** Process listing (kernel/proc.c) *)

(** The names of the states, as in the array of [procdump]. *)
Definition state_name (s : procstate) : list Z :=
  match s with
  | UNUSED => cstr "unused"
  | USED => cstr "used"
  | SLEEPING => cstr "sleep "
  | RUNNABLE => cstr "runble"
  | RUNNING => cstr "run   "
  | ZOMBIE => cstr "zombie"
  end.

Definition procdump : KM unit :=
  do! printf [NEWLINE] [];
  for_procs (fun i =>
    let! p := getp i in
    when (negb (state_eqb (p_state p) UNUSED))
      (do! printf (cstr "%d %s %s") [PInt (p_pid p); PStr (Some (state_name (p_state p)));
                                     PStr (Some (until_nul (p_name p)))];
       printf [NEWLINE] [])).

(** ** Set-up *)
Definition IER : Z := 1.
Definition IER_RX_ENABLE : Z := 1.
Definition IER_TX_ENABLE : Z := 2.
Definition FCR : Z := 2.
Definition FCR_FIFO_ENABLE : Z := 1.
Definition FCR_FIFO_CLEAR : Z := 6.
Definition LCR : Z := 3.
Definition LCR_EIGHT_BITS : Z := 3.
Definition LCR_BAUD_LATCH : Z := 128.
Definition WriteReg (reg v : Z) : KM unit := mmio_write (UART0 + reg) v.

Definition uartinit : KM unit :=
  do! WriteReg IER 0;
  do! WriteReg LCR LCR_BAUD_LATCH;
  do! WriteReg 0 3;
  do! WriteReg 1 0;
  do! WriteReg LCR LCR_EIGHT_BITS;
  do! WriteReg FCR (Z.lor FCR_FIFO_ENABLE FCR_FIFO_CLEAR);
  do! WriteReg IER (Z.lor IER_TX_ENABLE IER_RX_ENABLE);
  initlock L_tx.

(** The entry of [devsw] it also fills is the case of [CONSOLE] in [File]. *)
Definition consoleinit : KM unit :=
  do! initlock L_cons;
  uartinit.

(** ** Input editing *)

(** [while(cons.e != cons.w && cons.buf[(cons.e-1) % INPUT_BUF_SIZE] != '\n')];
    each round takes one byte off the [cons.e - cons.w] bytes being edited. *)
Fixpoint kill_line (fuel : nat) : KM unit :=
  match fuel with
  | O => ret tt
  | S fuel' =>
      let! c := gets k_cons in
      if negb (c_e c =? c_w c) && negb (aget (c_buf c) (u32 (c_e c - 1) mod INPUT_BUF_SIZE) =? NEWLINE) then
        do! updc (set c_e (fun e => u32 (e - 1)));
        do! consputc BACKSPACE;
        kill_line fuel'
      else ret tt
  end.

(** The change an input byte makes to the ring: append the byte, and publish
    the line if it is complete or the ring is full. *)
Definition cons_put (ch : Z) (c : console) : console :=
  c <| c_buf ::= aset (c_e c mod INPUT_BUF_SIZE) ch |> <| c_e ::= fun e => u32 (e + 1) |>.
Definition line_done (ch : Z) (c : console) : bool :=
  (ch =? NEWLINE) || (ch =? C_D) || (u32 (c_e c - c_r c) =? INPUT_BUF_SIZE).

Section Console.
Context {L : Layout} {I : Interference}.

Definition consoleintr (ch : Z) : KM unit :=
  do! acquire L_cons;
  let! c := gets k_cons in
  do! if ch =? C_P then procdump
      else if ch =? C_U then kill_line (Z.to_nat (u32 (c_e c - c_w c)))
      else if (ch =? C_H) || (ch =? 127) then
        when (negb (c_e c =? c_w c))
          (do! updc (set c_e (fun e => u32 (e - 1))); consputc BACKSPACE)
      else
        when (negb (ch =? 0) && (u32 (c_e c - c_r c) <? INPUT_BUF_SIZE))
          (let ch := if ch =? 13 then NEWLINE else ch in
           do! consputc ch;
           do! updc (cons_put (u8 ch));
           let! c := gets k_cons in
           when (line_done ch c)
             (do! updc (fun c => c <| c_w := c_e c |>); wakeup CH_cons));
  release L_cons.

(** ** Reading *)

(** The loop of [consoleread]: [n] of the [target] bytes are still wanted.
    The result is [n]; [None] if the process was killed. *)
Fixpoint consoleread_loop (fuel : nat) (dst : cpdst) (n target : Z) : KM (option Z) :=
  if 0 <? n then
    match fuel with
    | O => Asleep
    | S fuel' =>
        let! dead := wait_unless_killed (fun k => c_r (k_cons k) =? c_w (k_cons k)) CH_cons L_cons in
        if dead then ret None
        else
          let! x := gets k_cons in
          let c := aget (c_buf x) (c_r x mod INPUT_BUF_SIZE) in
          do! updc (set c_r (fun r => u32 (r + 1)));
          if c =? C_D then
            do! when (n <? target) (updc (set c_r (fun r => u32 (r - 1))));
            ret (Some n)
          else
            let! r := either_copyout dst [c] 1 in
            if r =? -1 then ret (Some n)
            else if c =? NEWLINE then ret (Some (n - 1))
            else consoleread_loop fuel' (dst_add dst 1) (n - 1) target
    end
  else ret (Some n).

Definition consoleread (dst : cpdst) (n : Z) : KM Z :=
  do! acquire L_cons;
  let! r := consoleread_loop (Z.to_nat n) dst n n in
  do! release L_cons;
  match r with
  | None => ret (-1)
  | Some n' => ret (i32 (n - n'))
  end.

(** ** Writing *)
Fixpoint uartwrite_loop (buf : list Z) : KM unit :=
  match buf with
  | [] => ret tt
  | c :: buf' =>
      do! sleep_while (fun k => negb (k_tx_busy k =? 0)) CH_tx L_tx;
      do! modify (fun k => k <| k_out ::= fun o => o ++ [c] |> <| k_tx_busy := 1 |>);
      uartwrite_loop buf'
  end.

Definition uartwrite (buf : list Z) (n : Z) : KM unit :=
  do! acquire L_tx;
  do! uartwrite_loop (take (Z.to_nat n) buf);
  release L_tx.

(** Batches of 32 bytes; each round writes at least one. *)
Fixpoint consolewrite_loop (fuel : nat) (src : cpsrc) (n i : Z) : KM Z :=
  if i <? n then
    match fuel with
    | O => Asleep
    | S fuel' =>
        let nn := if n - i <? 32 then n - i else 32 in
        let! r := either_copyin (src_add src i) nn in
        if r.1 =? -1 then ret i
        else
          do! uartwrite r.2 nn;
          consolewrite_loop fuel' src n (i + nn)
    end
  else ret i.

Definition consolewrite (src : cpsrc) (n : Z) : KM Z := consolewrite_loop (Z.to_nat n) src n 0.

(** ** Interrupts *)
Definition uartgetc : KM Z := fun k =>
  match k_in k with
  | c :: rest => Ret c (k <| k_in := rest |>)
  | [] => Ret (-1) k
  end.

(** [while(1){ c = uartgetc(); if(c == -1) break; consoleintr(c); }]; [fuel] is
    the number of bytes received. *)
Fixpoint uart_drain (fuel : nat) : KM unit :=
  let! c := uartgetc in
  if c =? -1 then ret tt
  else
    match fuel with
    | O => Asleep
    | S fuel' => do! consoleintr c; uart_drain fuel'
    end.

Definition uartintr (tx_idle : bool) : KM unit :=
  do! acquire L_tx;
  do! when tx_idle
    (do! modify (fun k => k <| k_tx_busy := 0 |>);
     wakeup CH_tx);
  do! release L_tx;
  let! n := gets (fun k => length (k_in k)) in
  uart_drain n.
End Console.
