(* ===== verification/File.v ===== *)
(** * Open files (kernel/file.c, and pipealloc of kernel/pipe.c)

    A pointer to an open file is its index in [ftable.file].  [devsw] is the
    table [consoleinit] leaves: the console's two routines in entry
    [CONSOLE], null elsewhere. *)

From Stdlib Require Import ZArith Lia.
From stdpp Require Import base list strings sets.
From S2P Require Import Prelude Params Mem State Evict Kalloc Vm Sched Sleeplock Printf Bio Log Fs Pipe Console.

Definition getf (f : nat) : KM file := gets (fun k => k_files k !!! f).
Definition updf (f : nat) (g : file -> file) : KM unit :=
  modify (fun k => k <| k_files ::= alter g f |>).

(** The bytes of a [struct stat]; [pad] is what the four bytes of padding
    before the size hold. *)
Definition stat_bytes (pad : list Z) (st : stat) : list Z :=
  le_bytes 4 (st_dev st) ++ le_bytes 4 (st_ino st) ++ le_bytes 2 (st_type st) ++ le_bytes 2 (st_nlink st) ++
  take 4 (pad ++ replicate 4 0) ++ le_bytes 8 (st_size st).

Section File.
Context {L : Layout} {I : Interference} {D : Disk}.

Definition fileinit : KM unit := initlock L_ftable.

Definition filealloc : KM (option nat) :=
  do! acquire L_ftable;
  let! r := for_until (Z.to_nat NFILE) 0 (fun i =>
    let f := Z.to_nat i in
    let! x := getf f in
    if fl_ref x =? 0 then
      do! updf f (set fl_ref (fun _ => 1));
      ret (Some f)
    else ret None) in
  do! release L_ftable;
  ret r.

Definition filedup (f : nat) : KM nat :=
  do! acquire L_ftable;
  let! x := getf f in
  if fl_ref x <? 1 then panic "filedup"
  else
    do! updf f (set fl_ref (fun r => r + 1));
    do! release L_ftable;
    ret f.

Definition fileclose (f : nat) : KM unit :=
  do! acquire L_ftable;
  let! x := getf f in
  if fl_ref x <? 1 then panic "fileclose"
  else
    do! updf f (set fl_ref (fun r => r - 1));
    let! ff := getf f in
    if 0 <? fl_ref ff then release L_ftable
    else
      do! updf f (fun x => x <| fl_ref := 0 |> <| fl_type := FD_NONE |>);
      do! release L_ftable;
      match fl_type ff with
      | FD_PIPE => pipeclose (fl_pipe ff) (fl_writable ff)
      | FD_INODE | FD_DEVICE =>
          do! begin_op;
          let! ip := deref (fl_ip ff) in
          do! iput ip;
          end_op
      | FD_NONE => ret tt
      end.

Definition filestat (pad : list Z) (f : nat) (addr : Z) : KM Z :=
  let! p := curproc in
  let! x := getf f in
  match fl_type x with
  | FD_INODE | FD_DEVICE =>
      do! ilock (fl_ip x);
      let! ip := deref (fl_ip x) in
      let! st := stati ip in
      do! iunlock (fl_ip x);
      let! pr := getp p in
      let! r := copyout (p_pagetable pr) addr (stat_bytes pad st) 24 in
      if r <? 0 then ret (-1) else ret 0
  | _ => ret (-1)
  end.

(** [devsw[major].read] and [devsw[major].write]; [None] is a null pointer. *)
Definition devsw_read (major : Z) : option (cpdst -> Z -> KM Z) :=
  if major =? CONSOLE then Some consoleread else None.
Definition devsw_write (major : Z) : option (cpsrc -> Z -> KM Z) :=
  if major =? CONSOLE then Some consolewrite else None.

Definition fileread (f : nat) (addr n : Z) : KM Z :=
  let! x := getf f in
  if negb (fl_readable x) then ret (-1)
  else
    match fl_type x with
    | FD_PIPE => piperead (fl_pipe x) addr n
    | FD_DEVICE =>
        if (fl_major x <? 0) || (NDEV <=? fl_major x) then ret (-1)
        else match devsw_read (fl_major x) with
             | None => ret (-1)
             | Some read => read (D_user addr) n
             end
    | FD_INODE =>
        do! ilock (fl_ip x);
        let! ip := deref (fl_ip x) in
        let! x := getf f in
        let! r := readi ip (D_user addr) (fl_off x) (u32 n) in
        do! when (0 <? r.1) (updf f (set fl_off (fun o => u32 (o + r.1))));
        do! iunlock (fl_ip x);
        ret r.1
    | FD_NONE => panic "fileread"
    end.

(** [((MAXOPBLOCKS-1-1-2) / 2) * BSIZE] *)
Definition max_write : Z := ((MAXOPBLOCKS - 1 - 1 - 2) / 2) * BSIZE.

(** The loop of [filewrite]; a round that is followed by another writes at
    least one byte.  The result is [i]. *)
Fixpoint filewrite_loop (fuel : nat) (f : nat) (addr n i : Z) : KM Z :=
  if i <? n then
    match fuel with
    | O => Asleep
    | S fuel' =>
        let n1 := if max_write <? n - i then max_write else n - i in
        do! begin_op;
        let! x := getf f in
        do! ilock (fl_ip x);
        let! ip := deref (fl_ip x) in
        let! x := getf f in
        let! r := writei ip (S_user (u64 (addr + i))) (fl_off x) (u32 n1) in
        do! when (0 <? r) (updf f (set fl_off (fun o => u32 (o + r))));
        do! iunlock (fl_ip x);
        do! end_op;
        if negb (r =? n1) then ret i else filewrite_loop fuel' f addr n (i + r)
    end
  else ret i.

Definition filewrite (f : nat) (addr n : Z) : KM Z :=
  let! x := getf f in
  if negb (fl_writable x) then ret (-1)
  else
    match fl_type x with
    | FD_PIPE => pipewrite (fl_pipe x) addr n
    | FD_DEVICE =>
        if (fl_major x <? 0) || (NDEV <=? fl_major x) then ret (-1)
        else match devsw_write (fl_major x) with
             | None => ret (-1)
             | Some write => write (S_user addr) n
             end
    | FD_INODE =>
        let! i := filewrite_loop (Z.to_nat n) f addr n 0 in
        ret (if i =? n then n else -1)
    | FD_NONE => panic "filewrite"
    end.

(** The label [bad] of [pipealloc]; there [pi] is null, since nothing after
    the allocation of the page fails. *)
Definition pipealloc_bad (f0 f1 : option nat) : KM (option (nat * nat)) :=
  do! match f0 with Some f => fileclose f | None => ret tt end;
  do! match f1 with Some f => fileclose f | None => ret tt end;
  ret None.

(** The two files, [None] on failure. *)
Definition pipealloc : KM (option (nat * nat)) :=
  let! r0 := filealloc in
  match r0 with
  | None => pipealloc_bad None None
  | Some f0 =>
      let! r1 := filealloc in
      match r1 with
      | None => pipealloc_bad (Some f0) None
      | Some f1 =>
          let! pi := kalloc in
          if pi =? 0 then pipealloc_bad (Some f0) (Some f1)
          else
            do! updpi pi (fun p => p <| pi_readopen := 1 |> <| pi_writeopen := 1 |>
                                     <| pi_nwrite := 0 |> <| pi_nread := 0 |>);
            do! initlock (L_pipe pi);
            do! updf f0 (fun x => x <| fl_type := FD_PIPE |> <| fl_readable := true |>
                                    <| fl_writable := false |> <| fl_pipe := pi |>);
            do! updf f1 (fun x => x <| fl_type := FD_PIPE |> <| fl_readable := false |>
                                    <| fl_writable := true |> <| fl_pipe := pi |>);
            ret (Some (f0, f1))
      end
  end.
End File.
