(* ===== verification/ProcLife.v ===== *)
(** * The life of a process (kernel/proc.c)

    Allocation and release of process slots, fork, exit and wait, and the
    routines behind the system calls that report on processes.  The
    trap frame of a process is a page of physical memory. *)

From Stdlib Require Import ZArith Lia.
From stdpp Require Import base list strings sets.
From S2P Require Import Prelude Params Mem State Evict Kalloc Vm Sched Sleeplock Printf Bio Log Fs Pipe Console File.

(** Addresses of kernel code that the kernel stores in registers or memory. *)
Class Text := {
  forkret_addr : Z;
  usertrap_addr : Z;
  kernelvec_addr : Z;
  uservec_addr : Z;
  userret_addr : Z
}.

(** The offsets of the fields of [struct trapframe] (proc.h). *)
Definition TF_kernel_satp : Z := 0.
Definition TF_kernel_sp : Z := 8.
Definition TF_kernel_trap : Z := 16.
Definition TF_epc : Z := 24.
Definition TF_kernel_hartid : Z := 32.
Definition TF_sp : Z := 48.
Definition TF_a (n : Z) : Z := 112 + 8 * n.
Definition TF_size : Z := 288.

(** The channel of a process pointer. *)
Definition chan_of (p : option nat) : chan :=
  match p with Some i => CH_proc i | None => CH_none end.

(** [safestrcpy(s, t, n)] on the bytes of [s]. *)
Definition safestrcpy_bytes (t : list Z) (n : nat) (s : list Z) : list Z :=
  let u := until_nul t in
  if (length u <? n - 1)%nat then splice 0 (u ++ [0; 0]) s
  else splice 0 (take (n - 1) u ++ [0]) s.

Section ProcLife.
Context {L : Layout} {I : Interference} {D : Disk} {T : Text}.

(** ** Page tables *)
Definition proc_pagetable (p : nat) : KM Z :=
  let! pagetable := uvmcreate in
  if pagetable =? 0 then ret 0
  else
    let! r := mappages pagetable TRAMPOLINE PGSIZE trampoline (Z.lor PTE_R PTE_X) in
    if r <? 0 then do! uvmfree pagetable 0; ret 0
    else
      let! pr := getp p in
      let! r := mappages pagetable TRAPFRAME PGSIZE (p_trapframe pr) (Z.lor PTE_R PTE_W) in
      if r <? 0 then
        do! uvmunmap pagetable TRAMPOLINE 1 false;
        do! uvmfree pagetable 0;
        ret 0
      else ret pagetable.

Definition proc_freepagetable (pagetable sz : Z) : KM unit :=
  do! uvmunmap pagetable TRAMPOLINE 1 false;
  do! uvmunmap pagetable TRAPFRAME 1 false;
  uvmfree pagetable sz.

(** ** Slots *)
Definition freeproc (p : nat) : KM unit :=
  let! pr := getp p in
  do! when (negb (p_trapframe pr =? 0)) (kfree (p_trapframe pr));
  do! updp p (set p_trapframe (fun _ => 0));
  let! pr := getp p in
  do! when (negb (p_pagetable pr =? 0)) (proc_freepagetable (p_pagetable pr) (p_sz pr));
  updp p (fun x => x <| p_pagetable := 0 |> <| p_sz := 0 |> <| p_pid := 0 |> <| p_parent := None |>
                     <| p_name ::= aset 0 0 |> <| p_chan := CH_none |> <| p_killed := 0 |>
                     <| p_xstate := 0 |> <| p_state := UNUSED |>).

(** From the label [found] on. *)
Definition allocproc_found (p : nat) : KM (option nat) :=
  let! pid := allocpid in
  do! updp p (fun x => x <| p_pid := pid |> <| p_state := USED |>);
  let! tf := kalloc in
  do! updp p (set p_trapframe (fun _ => tf));
  if tf =? 0 then
    do! freeproc p;
    do! release (L_proc p);
    ret None
  else
    let! pt := proc_pagetable p in
    do! updp p (set p_pagetable (fun _ => pt));
    if pt =? 0 then
      do! freeproc p;
      do! release (L_proc p);
      ret None
    else
      do! updp p (fun x => x <| p_context := forkret_addr :: u64 (p_kstack x + PGSIZE) :: replicate 12 0 |>
                             <| p_sysCount := 0 |> <| p_qlevel := 0 |> <| p_pticks := 0 |>
                             <| p_qticks := replicate (Z.to_nat LEVELS) 0 |> <| p_tsched := 0 |>
                             <| p_dSysCount := 0 |> <| p_page_evicted := 0 |> <| p_page_faults := 0 |>
                             <| p_pages_swapped_in := 0 |> <| p_pages_swapped_out := 0 |>
                             <| p_resident_pages := 0 |>);
      ret (Some p).

Definition allocproc : KM (option nat) :=
  let! found := for_procs_until (fun p =>
    do! acquire (L_proc p);
    let! pr := getp p in
    if state_eqb (p_state pr) UNUSED then ret (Some p)
    else do! release (L_proc p); ret None) in
  match found with
  | None => ret None
  | Some p => allocproc_found p
  end.

Definition userinit : KM unit :=
  let! r := allocproc in
  do! modify (fun k => k <| k_initproc := r |>);
  let! cwd := namei [SLASH] in
  let! p := deref r in
  do! updp p (set p_cwd (fun _ => cwd));
  do! updp p (set p_state (fun _ => RUNNABLE));
  do! push_proc p;
  release (L_proc p).

Definition growproc (n : Z) : KM Z :=
  let! p := curproc in
  let! pr := getp p in
  let sz := p_sz pr in
  if 0 <? n then
    if TRAPFRAME <? u64 (sz + n) then ret (-1)
    else
      let! sz := uvmalloc (p_pagetable pr) sz (u64 (sz + n)) PTE_W in
      if sz =? 0 then ret (-1)
      else do! updp p (set p_sz (fun _ => sz)); ret 0
  else
    let! sz := if n <? 0 then uvmdealloc (p_pagetable pr) sz (u64 (sz + n)) else ret sz in
    do! updp p (set p_sz (fun _ => sz));
    ret 0.

(** ** fork *)

(** The loop of [kfork] over the child's pages. *)
Definition kfork_swapcopy (np : nat) : KM unit :=
  let! npr := getp np in
  for_range (pages_between 0 (p_sz npr)) 0 (fun j =>
    let va := j * PGSIZE in
    let! pte := walk (p_pagetable npr) va false in
    if pte =? 0 then ret tt
    else
      let! e := load64 pte in
      if has e PTE_S then
        let swap_index := i32 (Z.shiftr e 10) in
        let! mem := kalloc_or_evict in
        do! register_frame mem (Some np) va;
        do! kmemmove mem (get_swap_addr swap_index) PGSIZE;
        let! child_pte := walk (p_pagetable npr) va true in
        if child_pte =? 0 then panic "kerneltrap"
        else store64 child_pte (Z.lor (PA2PTE mem) (Z.lor PTE_V (Z.lor PTE_U (Z.lor PTE_R PTE_W))))
      else if has e PTE_V then register_frame (PTE2PA e) (Some np) va
      else ret tt).

(** The open files and the directory of the child. *)
Definition kfork_files (p np : nat) : KM unit :=
  do! for_range (Z.to_nat NOFILE) 0 (fun i =>
    let! pr := getp p in
    match aget (p_ofile pr) i with
    | Some f =>
        let! f := filedup f in
        updp np (set p_ofile (aset i (Some f)))
    | None => ret tt
    end);
  let! pr := getp p in
  let! cwd := deref (p_cwd pr) in
  let! cwd := idup cwd in
  updp np (set p_cwd (fun _ => Some cwd)).

Definition kfork : KM Z :=
  let! p := curproc in
  let! r := allocproc in
  match r with
  | None => ret (-1)
  | Some np =>
      let! pr := getp p in
      let! npr := getp np in
      let! r := uvmcopy (p_pagetable pr) (p_pagetable npr) (p_sz pr) np in
      if r <? 0 then
        do! freeproc np;
        do! release (L_proc np);
        ret (-1)
      else
        do! kfork_swapcopy np;
        let! pr := getp p in
        let! npr := getp np in
        do! updp np (set p_sz (fun _ => p_sz pr));
        do! kmemmove (p_trapframe npr) (p_trapframe pr) TF_size;
        do! store64 (p_trapframe npr + TF_a 0) 0;
        do! kfork_files p np;
        let! pr := getp p in
        do! updp np (set p_name (safestrcpy_bytes (p_name pr) 16));
        let! npr := getp np in
        let pid := p_pid npr in
        do! release (L_proc np);
        do! acquire L_wait;
        do! updp np (set p_parent (fun _ => Some p));
        do! release L_wait;
        do! acquire (L_proc np);
        do! updp np (set p_state (fun _ => RUNNABLE));
        do! push_proc np;
        do! release (L_proc np);
        ret pid
  end.

(** ** exit and wait *)
Definition reparent (p : nat) : KM unit :=
  for_procs (fun pp =>
    let! x := getp pp in
    when (bool_decide (p_parent x = Some p))
      (let! init := gets k_initproc in
       do! updp pp (set p_parent (fun _ => init));
       wakeup (chan_of init))).

(** [kexit] does not return: if the scheduler ever ran the zombie again, the
    kernel would panic. *)
Definition kexit (status : Z) : KM unit :=
  let! p := curproc in
  let! init := gets k_initproc in
  if bool_decide (init = Some p) then panic "init exiting"
  else
    do! for_range (Z.to_nat NOFILE) 0 (fun fd =>
      let! pr := getp p in
      match aget (p_ofile pr) fd with
      | Some f =>
          do! fileclose f;
          updp p (set p_ofile (aset fd None))
      | None => ret tt
      end);
    do! begin_op;
    let! pr := getp p in
    let! cwd := deref (p_cwd pr) in
    do! iput cwd;
    do! end_op;
    do! updp p (set p_cwd (fun _ => None));
    do! acquire L_wait;
    do! reparent p;
    let! pr := getp p in
    do! wakeup (chan_of (p_parent pr));
    do! acquire (L_proc p);
    do! updp p (fun x => x <| p_xstate := status |> <| p_state := ZOMBIE |>);
    do! release L_wait;
    do! sched;
    panic "zombie exit".

(** One child of the scan of [kwait]: [Some v] leaves [kwait] with [v]. *)
Definition kwait_child (p pp : nat) (addr : Z) : KM (option Z) :=
  let! x := getp pp in
  if state_eqb (p_state x) ZOMBIE then
    let pid := p_pid x in
    let! r := if addr =? 0 then ret 0
              else let! pr := getp p in copyout (p_pagetable pr) addr (le_bytes 4 (p_xstate x)) 4 in
    if r <? 0 then
      do! release (L_proc pp);
      do! release L_wait;
      ret (Some (-1))
    else
      do! freeproc pp;
      do! release (L_proc pp);
      do! release L_wait;
      ret (Some pid)
  else
    do! release (L_proc pp);
    ret None.

(** The scan of the table from slot [pp] on: a value to return, or
    [havekids]. *)
Fixpoint kwait_scan (n : nat) (p pp : nat) (addr : Z) (havekids : bool) : KM (Z + bool) :=
  match n with
  | O => ret (inr havekids)
  | S n' =>
      let! x := getp pp in
      if bool_decide (p_parent x = Some p) then
        do! acquire (L_proc pp);
        let! r := kwait_child p pp addr in
        match r with
        | Some v => ret (inl v)
        | None => kwait_scan n' p (S pp) addr true
        end
      else kwait_scan n' p (S pp) addr havekids
  end.

Fixpoint kwait_loop (fuel : nat) (p : nat) (addr : Z) : KM Z :=
  let! r := kwait_scan (Z.to_nat NPROC) p 0 addr false in
  match r with
  | inl v => ret v
  | inr havekids =>
      let! stop := if havekids then let! d := killed p in ret (negb (d =? 0)) else ret true in
      if stop then do! release L_wait; ret (-1)
      else
        match fuel with
        | O => Asleep
        | S fuel' =>
            do! sleep (CH_proc p) L_wait;
            kwait_loop fuel' p addr
        end
  end.

Definition kwait (addr : Z) : KM Z :=
  let! p := curproc in
  do! acquire L_wait;
  let! fuel := gets rounds in
  kwait_loop fuel p addr.

(** ** Reports *)
Definition kgetppid : KM Z :=
  let! pp := curproc in
  let! init := gets k_initproc in
  if bool_decide (init = Some pp) then ret (-1)
  else
    do! acquire L_wait;
    let! x := getp pp in
    let! hide := if bool_decide (p_parent x = init) then ret true
                 else let! par := deref (p_parent x) in
                      let! d := killed par in
                      ret (d =? 1) in
    if hide then do! release L_wait; ret (-1)
    else
      let! par := deref (p_parent x) in
      let! y := getp par in
      do! release L_wait;
      ret (p_pid y).

Definition kgetnumchild (addr : Z) : KM Z :=
  let! p := curproc in
  do! acquire L_wait;
  let! n := for_fold (Z.to_nat NPROC) 0 0 (fun i numKids =>
    let cp := Z.to_nat i in
    let! x := getp cp in
    if bool_decide (p_parent x = Some p) then
      do! acquire (L_proc cp);
      let! x := getp cp in
      do! release (L_proc cp);
      ret (if negb (p_killed x =? 1) && negb (state_eqb (p_state x) ZOMBIE) then numKids + 1 else numKids)
    else ret numKids) in
  do! release L_wait;
  ret n.

Definition kgetchildsyscount (PID : Z) : KM Z :=
  let! pp := curproc in
  do! acquire L_wait;
  let! r := for_procs_until (fun cp =>
    let! x := getp cp in
    if bool_decide (p_parent x = Some pp) then
      do! acquire (L_proc cp);
      let! x := getp cp in
      do! release (L_proc cp);
      ret (if p_pid x =? PID then Some (p_sysCount x) else None)
    else ret None) in
  do! release L_wait;
  ret (default (-1) r).

(** The bytes of [struct mlfqinfo] and [struct vmstats] (stat.h). *)
Definition mlfqinfo_bytes (x : proc) : list Z :=
  le_bytes 4 (p_qlevel x) ++ mjoin (map (fun i => le_bytes 4 (aget (p_qticks x) (Z.of_nat i))) (seq 0 4)) ++
  le_bytes 4 (p_tsched x) ++ le_bytes 4 (p_sysCount x).
Definition vmstats_bytes (x : proc) : list Z :=
  le_bytes 4 (p_page_faults x) ++ le_bytes 4 (p_page_evicted x) ++ le_bytes 4 (p_pages_swapped_in x) ++
  le_bytes 4 (p_pages_swapped_out x) ++ le_bytes 4 (p_resident_pages x).

(** The end of both routines: hand the bytes to the caller. *)
Definition copy_info (r : option (list Z)) (info_ptr : Z) : KM Z :=
  match r with
  | None => ret (-1)
  | Some bs =>
      let! p := curproc in
      let! pr := getp p in
      let! r := copyout (p_pagetable pr) info_ptr bs (Z.of_nat (length bs)) in
      ret (if r <? 0 then -1 else 0)
  end.

Definition kgetmlfqinfo (pid info_ptr : Z) : KM Z :=
  do! acquire L_wait;
  let! r := for_procs_until (fun p =>
    do! acquire (L_proc p);
    let! x := getp p in
    do! release (L_proc p);
    ret (if (p_pid x =? pid) && negb (state_eqb (p_state x) UNUSED) then Some (mlfqinfo_bytes x) else None)) in
  do! release L_wait;
  copy_info r info_ptr.

Definition kgetvmstats (pid info_ptr : Z) : KM Z :=
  do! acquire L_wait;
  let! r := for_procs_until (fun p =>
    let! x := getp p in
    ret (if (p_pid x =? pid) && negb (state_eqb (p_state x) UNUSED) then Some (vmstats_bytes x) else None)) in
  do! release L_wait;
  copy_info r info_ptr.
End ProcLife.
