(* ===== verification/ConsoleProps.v ===== *)
(** * The console's line discipline

    The input ring of kernel/console.c represents two lists: the bytes of the
    lines that are complete, which [consoleread] hands out, and those of the
    line being typed.  [line_input] says what a byte from the serial port does
    to them and [line_read] what a read takes; the interrupt handler and
    [consoleread] implement the two. *)

From Stdlib Require Import ZArith Lia.
From stdpp Require Import base list strings sets.
From S2P Require Import Prelude Params Mem State Evict Kalloc Vm VmInv VmFault VmFaultSpec UserMem Demo.
From S2P Require Import Sched SchedSpec SchedProps MemFrame Sleeplock Printf BioLaws Fs Pipe PipeProps Console.

(** ** The discipline *)

(** What the byte [ch] does: [ready] are the bytes of the complete lines,
    [edit] those of the line being typed. *)
Definition line_input (ch : Z) (s : list Z * list Z) : list Z * list Z :=
  let '(ready, edit) := s in
  if ch =? C_P then s
  else if ch =? C_U then (ready, [])
  else if (ch =? C_H) || (ch =? 127) then (ready, removelast edit)
  else if (ch =? 0) || (INPUT_BUF_SIZE <=? Z.of_nat (length (ready ++ edit))) then s
  else
    let ch := if ch =? 13 then NEWLINE else ch in
    let edit := edit ++ [ch] in
    if (ch =? NEWLINE) || (ch =? C_D) || (Z.of_nat (length (ready ++ edit)) =? INPUT_BUF_SIZE)
    then (ready ++ edit, []) else (ready, edit).

(** What is echoed for it, but for control-P. *)
Definition rubout : list Z := [8; 32; 8].
Definition line_echo (ch : Z) (s : list Z * list Z) : list Z :=
  let '(ready, edit) := s in
  if ch =? C_U then concat (replicate (length edit) rubout)
  else if (ch =? C_H) || (ch =? 127) then if decide (edit = []) then [] else rubout
  else if (ch =? 0) || (INPUT_BUF_SIZE <=? Z.of_nat (length (ready ++ edit))) then []
  else [if ch =? 13 then NEWLINE else ch].

(** A read of [n] more bytes, [some] of which have been read: the bytes it
    delivers and those that stay; it ends after a newline, and at an
    end-of-file mark, which it leaves for the next read if it has bytes. *)
Fixpoint line_read (n : nat) (some : bool) (ready : list Z) : list Z * list Z :=
  match n, ready with
  | S n', c :: rest =>
      if c =? C_D then ([], if some then ready else rest)
      else if c =? NEWLINE then ([c], rest)
      else let r := line_read n' true rest in (c :: r.1, r.2)
  | _, _ => ([], ready)
  end.

(** The read does not have to wait: [n] bytes, or the end of a line, are there. *)
Fixpoint line_ready (n : nat) (ready : list Z) : bool :=
  match n, ready with
  | O, _ => true
  | S _, [] => false
  | S n', c :: rest => (c =? C_D) || (c =? NEWLINE) || line_ready n' rest
  end.

Lemma line_read_length n : forall some ready, (length (line_read n some ready).1 <= n)%nat.
Proof.
  induction n as [|n IH]; intros some [|c ready]; cbn [line_read]; try (cbn; lia).
  repeat case_match; cbn; try lia. specialize (IH true ready). lia.
Qed.

(** ** The ring *)
Record cons_ring (c : console) (ready edit : list Z) : Prop := {
  cr_len : length (c_buf c) = Z.to_nat INPUT_BUF_SIZE;
  cr_r : 0 <= c_r c < 2 ^ 32;
  cr_w : c_w c = u32 (c_r c + Z.of_nat (length ready));
  cr_e : c_e c = u32 (c_r c + Z.of_nat (length (ready ++ edit)));
  cr_fit : Z.of_nat (length (ready ++ edit)) <= INPUT_BUF_SIZE;
  cr_at i x : (ready ++ edit) !! i = Some x -> aget (c_buf c) ((c_r c + Z.of_nat i) mod INPUT_BUF_SIZE) = x;
  cr_bytes : Forall byte_ok (ready ++ edit)
}.

(** The line being typed has no newline. *)
Definition console_ok (c : console) (s : list Z * list Z) : Prop := cons_ring c s.1 s.2 /\ NEWLINE ∉ s.2.

Section Ring.
Context (c : console) (ready edit : list Z) (R : cons_ring c ready edit).

Lemma ring_typed : u32 (c_e c - c_w c) = Z.of_nat (length edit).
Proof. destruct R as [_ Hr -> -> Hf _ _]. rewrite length_app in *. change INPUT_BUF_SIZE with 128 in *. unfold u32. dlia. Qed.

Lemma ring_used : u32 (c_e c - c_r c) = Z.of_nat (length (ready ++ edit)).
Proof. destruct R as [_ Hr _ -> Hf _ _]. change INPUT_BUF_SIZE with 128 in *. unfold u32. dlia. Qed.

Lemma ring_no_edit : (c_e c =? c_w c) = bool_decide (edit = []).
Proof.
  destruct R as [_ Hr Ew Ee Hf _ _]. rewrite length_app in *. change INPUT_BUF_SIZE with 128 in *. unfold u32 in *.
  destruct edit; [|rewrite bool_decide_eq_false_2 by done; apply Z.eqb_neq; cbn [length] in *; dlia].
  rewrite bool_decide_eq_true_2 by done. apply Z.eqb_eq. cbn [length] in *. dlia.
Qed.

Lemma ring_no_ready : (c_r c =? c_w c) = bool_decide (ready = []).
Proof.
  destruct R as [_ Hr Ew _ Hf _ _]. rewrite length_app in *. change INPUT_BUF_SIZE with 128 in *. unfold u32 in *.
  destruct ready; [|rewrite bool_decide_eq_false_2 by done; apply Z.eqb_neq; cbn [length] in *; dlia].
  rewrite bool_decide_eq_true_2 by done. apply Z.eqb_eq. cbn [length] in *. dlia.
Qed.

(** A byte is appended in a free place. *)
Lemma ring_put ch : byte_ok ch -> Z.of_nat (length (ready ++ edit)) < INPUT_BUF_SIZE ->
  cons_ring (cons_put ch c) ready (edit ++ [ch]).
Proof.
  intros Hch Hlt. pose proof R as [Hl Hr Ew Ee Hf Hat Hb].
  assert (c_e c mod INPUT_BUF_SIZE = (c_r c + Z.of_nat (length (ready ++ edit))) mod INPUT_BUF_SIZE) as Em
    by (rewrite Ee; unfold u32; change INPUT_BUF_SIZE with 128 in *; dlia).
  assert (forall j, aget (c_buf (cons_put ch c)) (j mod INPUT_BUF_SIZE) =
    if decide (c_e c mod INPUT_BUF_SIZE = j mod INPUT_BUF_SIZE) then ch else aget (c_buf c) (j mod INPUT_BUF_SIZE)) as Hg.
  { intros j. apply aget_aset; rewrite ?Hl; change INPUT_BUF_SIZE with 128 in *; change (Z.to_nat 128) with 128%nat; dlia. }
  split; cbn [cons_put]; rewrite ?app_assoc.
  - unfold cons_put, aset. cbn. by rewrite length_insert.
  - exact Hr.
  - exact Ew.
  - rewrite length_app. cbn. rewrite Ee. unfold u32. cbn [length]. dlia.
  - rewrite length_app. cbn [length]. lia.
  - intros i x Hi. rewrite Hg. change (c_r (cons_put ch c)) with (c_r c). apply lookup_app_Some in Hi as [Hi|[Hge Hi]].
    + pose proof (lookup_lt_Some _ _ _ Hi). rewrite decide_False; [by apply Hat|]. rewrite Em. intros E. clear - E H Hlt. change INPUT_BUF_SIZE with 128 in *. dlia.
    + apply list_lookup_singleton_Some in Hi as [Hi <-]. rewrite decide_True; [done|]. rewrite Em. do 2 f_equal. lia.
  - apply Forall_app. auto.
Qed.

(** The line is published. *)
Lemma ring_commit : cons_ring (c <| c_w := c_e c |>) (ready ++ edit) [].
Proof. destruct R as [Hl Hr Ew Ee Hf Hat Hb]. split; rewrite ?app_nil_r; done. Qed.
End Ring.

(** The last byte typed is dropped. *)
Lemma ring_drop c ready edit x : cons_ring c ready (edit ++ [x]) -> cons_ring (c <| c_e ::= fun e => u32 (e - 1) |>) ready edit.
Proof.
  intros [Hl Hr Ew Ee Hf Hat Hb]. rewrite app_assoc in *. rewrite length_app in Ee, Hf. cbn [length] in *.
  split; [done|done|done| |lia| |].
  - cbn. rewrite Ee. unfold u32. dlia.
  - intros i y Hi. apply Hat. by apply lookup_app_l_Some.
  - by apply Forall_app in Hb as [? _].
Qed.

(** The last byte typed. *)
Lemma ring_last c ready edit x : cons_ring c ready (edit ++ [x]) ->
  aget (c_buf c) (u32 (c_e c - 1) mod INPUT_BUF_SIZE) = x.
Proof.
  intros [Hl Hr Ew Ee Hf Hat Hb]. rewrite app_assoc in *. rewrite length_app in Ee, Hf. cbn [length] in *.
  rewrite <- (Hat (length (ready ++ edit)) x) by (by rewrite lookup_app_r, Nat.sub_diag by lia). f_equal.
  rewrite Ee. unfold u32. change INPUT_BUF_SIZE with 128. dlia.
Qed.

(** The first byte of a complete line is taken, and put back. *)
Lemma ring_take c x ready edit : cons_ring c (x :: ready) edit ->
  aget (c_buf c) (c_r c mod INPUT_BUF_SIZE) = x /\ cons_ring (c <| c_r ::= fun r => u32 (r + 1) |>) ready edit.
Proof.
  intros [Hl Hr Ew Ee Hf Hat Hb]. cbn [app length] in *. split.
  - rewrite <- (Hat 0%nat x) by done. by rewrite Z.add_0_r.
  - split; cbn; [done|apply u32_range| | |lia| |by inversion Hb].
    + rewrite Ew. unfold u32. dlia.
    + rewrite Ee. unfold u32. dlia.
    + intros i y Hi. rewrite <- (Hat (S i) y Hi). f_equal. unfold u32. change INPUT_BUF_SIZE with 128. dlia.
Qed.

Lemma ring_untake c x ready edit : cons_ring c (x :: ready) edit ->
  c <| c_r ::= fun r => u32 (r + 1) |> <| c_r ::= fun r => u32 (r - 1) |> = c.
Proof. intros [_ Hr _ _ _ _ _]. destruct c as [b r w e]. cbn in *.
  change (mkconsole b (u32 (u32 (r + 1) - 1)) w e = mkconsole b r w e). f_equal. unfold u32. dlia. Qed.

(** ** Listing the processes changes the output only *)
Definition prints {A} (P : list lock -> Prop) (m : KM A) : Prop :=
  forall k, P (k_held k) -> wp m (fun _ k' => k' = k <| k_out := k_out k' |>) k.

Section Prints.
Context (P : list lock -> Prop).

Lemma prints_ret {A} (a : A) : prints P (ret a).
Proof. intros k _. wp_steps. kext. Qed.

Lemma prints_bind {A B} (m : KM A) (f : A -> KM B) : prints P m -> (forall a, prints P (f a)) -> prints P (bind m f).
Proof.
  intros Hm Hf k Hk. wp_step. eapply wp_mono; [by apply Hm|]. cbv beta. intros a k1 E1.
  assert (P (k_held k1)) as Hk1 by (rewrite E1; by kproj). eapply wp_mono; [by apply Hf|]. cbv beta. intros b k2 E2.
  rewrite E2, E1. kext.
Qed.

Lemma prints_when b (m : KM unit) : prints P m -> prints P (when b m).
Proof. intros Hm. destruct b; [done|apply prints_ret]. Qed.

Lemma prints_for n : forall i (f : Z -> KM unit), (forall j, prints P (f j)) -> prints P (for_range n i f).
Proof.
  induction n as [|n IH]; intros i f Hf; cbn [for_range]; [apply prints_ret|].
  apply prints_bind; [apply Hf|]. intros []. by apply IH.
Qed.

Lemma prints_gets {A} (f : kernel -> A) : prints P (gets f).
Proof. intros k _. wp_steps. kext. Qed.
End Prints.

Lemma printf_prints fmt ap : prints (fun h => L_pr ∉ h) (printf fmt ap).
Proof. intros k Hk. eapply wp_mono; [by apply printf_wp|]. cbv beta. intros _ k' [o ->]. kext. Qed.

Lemma procdump_prints : prints (fun h => L_pr ∉ h) procdump.
Proof.
  unfold procdump. apply prints_bind; [apply printf_prints|]. intros []. apply prints_for. intros i.
  apply prints_bind; [apply prints_gets|]. intros p. apply prints_when. apply prints_bind; [apply printf_prints|].
  intros []. apply printf_prints.
Qed.

(** ** The interrupt handler *)
Record intr_ok (k : kernel) : Prop := {
  io_held : k_held k = [];
  io_queues : queues_wf k;
  io_levels : levels_ok k
}.

Lemma intr_wakes k lk : intr_ok k -> lk = L_cons \/ lk = L_tx -> wakeup_unlocked (k <| k_held ::= cons lk |>).
Proof. intros [Hh _ _] Hlk. split; intros; kproj; rewrite Hh; destruct Hlk as [-> | ->]; set_solver. Qed.

(** What [wakeup] does to the table, if it is called. *)
Definition woke (b : bool) (ch : chan) (k k' : kernel) : Prop :=
  forall i, (i < Z.to_nat NPROC)%nat ->
    k_procs k' !!! i = if b && woken k ch i then (k_procs k !!! i) <| p_state := RUNNABLE |> else k_procs k !!! i.

Lemma waking_levels ch k k' : levels_ok k -> waking ch k (Z.to_nat NPROC) k' -> levels_ok k'.
Proof.
  intros [Hl Hq] [_ Hl' P _ _]. split; [congruence|]. intros i Hi. rewrite P, decide_True by done.
  case_match; [cbn|]; by apply Hq.
Qed.

(** [k'] is [k] but for the console, with [out] printed. *)
Definition edited (out : list Z) (k k' : kernel) : Prop :=
  k' = k <| k_cons := k_cons k' |> <| k_out := k_out k ++ out |>.

Lemma edited_trans o1 o2 k1 k2 k3 : edited o1 k1 k2 -> edited o2 k2 k3 -> edited (o1 ++ o2) k1 k3.
Proof. unfold edited. intros E1 E2. rewrite E2. rewrite E1. kext. by rewrite app_assoc. Qed.

Lemma edited_cons f out k : edited out k (k <| k_cons ::= f |> <| k_out ::= fun o => o ++ out |>).
Proof. unfold edited. kext. Qed.

Lemma consputc_backspace_wp k (Q : unit -> kernel -> Prop) : Q tt (k <| k_out ::= fun o => o ++ rubout |>) -> wp (consputc BACKSPACE) Q k.
Proof.
  intros HQ. unfold consputc. rewrite Z.eqb_refl. unfold uartputc_sync. wp_steps.
  match goal with |- Q tt ?x => replace x with (k <| k_out ::= fun o => o ++ rubout |>); [done|] end.
  kext. by rewrite <- !app_assoc.
Qed.

Lemma consputc_wp ch k (Q : unit -> kernel -> Prop) : byte_ok ch -> Q tt (k <| k_out ::= fun o => o ++ [ch] |>) -> wp (consputc ch) Q k.
Proof.
  intros Hch HQ. unfold consputc. rewrite (proj2 (Z.eqb_neq _ _)) by (unfold BACKSPACE, byte_ok in *; lia).
  unfold uartputc_sync. wp_steps. by rewrite u8_id.
Qed.

Lemma kill_line_wp ready edit : forall k, cons_ring (k_cons k) ready edit -> NEWLINE ∉ edit ->
  wp (kill_line (length edit)) (fun _ k' => edited (concat (replicate (length edit) rubout)) k k' /\ cons_ring (k_cons k') ready []) k.
Proof.
  induction edit as [|x edit IH] using rev_ind; intros k R Hn.
  - cbn. wp_steps. split; [unfold edited; kext; by rewrite app_nil_r|done].
  - rewrite length_app, Nat.add_comm. cbn [length Nat.add kill_line replicate concat]. wp_steps.
    rewrite (ring_no_edit _ _ _ R), bool_decide_eq_false_2 by (by destruct edit). rewrite (ring_last _ _ _ _ R).
    rewrite (proj2 (Z.eqb_neq _ _)) by set_solver. cbn [negb andb]. unfold updc. wp_steps.
    apply consputc_backspace_wp. eapply wp_mono; [apply IH; [|set_solver]|].
    + kproj. by apply (ring_drop _ _ _ x).
    + cbv beta. intros _ k' [E R']. split; [|done]. eapply edited_trans; [apply edited_cons|exact E].
Qed.

(** What the handler does with the byte [ch]: the lines are as [line_input]
    says, and the readers are woken if a line was completed. *)
Record handled (ch : Z) (s : list Z * list Z) (k k' : kernel) : Prop := {
  hd_frame : k' = k <| k_cons := k_cons k' |> <| k_out := k_out k' |> <| k_procs := k_procs k' |> <| k_pqueue := k_pqueue k' |>;
  hd_queues : queues_wf k';
  hd_levels : levels_ok k';
  hd_lines : console_ok (k_cons k') (line_input ch s);
  hd_echo : ch <> C_P -> k_out k' = k_out k ++ line_echo ch s;
  hd_woke : woke (bool_decide ((line_input ch s).1 <> s.1)) CH_cons k k'
}.

Lemma handled_edited ch s k k' : queues_wf k -> levels_ok k -> edited (line_echo ch s) k k' ->
  console_ok (k_cons k') (line_input ch s) -> (line_input ch s).1 = s.1 -> handled ch s k k'.
Proof.
  unfold edited. intros Q Lv E H Hs. split; [rewrite E; kext| | |done|intros _; rewrite E; by kproj|].
  - unfold queues_wf. rewrite E. by kproj.
  - unfold levels_ok. rewrite E. by kproj.
  - intros i _. rewrite bool_decide_eq_false_2 by (by intros []). cbn [andb]. rewrite E. by kproj.
Qed.

(** The branch for a byte that is not a control key. *)
Lemma console_put_wp ch ready edit k (s := (ready, edit)) : k_held k = [L_cons] -> queues_wf k -> levels_ok k ->
  console_ok (k_cons k) s -> byte_ok ch -> ch <> C_P -> ch <> C_U -> ch <> C_H -> ch <> 127 -> ch <> 0 ->
  Z.of_nat (length (ready ++ edit)) < INPUT_BUF_SIZE ->
  wp (let ch := if ch =? 13 then NEWLINE else ch in
      do! consputc ch;
      do! updc (cons_put (u8 ch));
      let! c := gets k_cons in
      when (line_done ch c) (do! updc (fun c => c <| c_w := c_e c |>); wakeup CH_cons))
    (fun _ k' => handled ch s k k') k.
Proof.
  intros Hh Q Lv [R Hn] Hch H1 H2 H3 H4 H5 Hroom. cbv zeta. set (c' := if ch =? 13 then NEWLINE else ch).
  assert (byte_ok c') as Hc by (unfold c'; case_match; done). rewrite u8_id by done.
  assert (line_echo ch s = [c']) as He.
  { unfold line_echo, s. rewrite !(proj2 (Z.eqb_neq _ _)) by done. cbn [orb]. by rewrite (proj2 (Z.leb_gt _ _)) by done. }
  pose proof (ring_put _ _ _ R c' Hc Hroom) as R'. cbn [fst snd] in R'.
  assert (line_input ch s = if (c' =? NEWLINE) || (c' =? C_D) || (Z.of_nat (length (ready ++ edit ++ [c'])) =? INPUT_BUF_SIZE)
    then (ready ++ edit ++ [c'], []) else (ready, edit ++ [c'])) as Hi.
  { unfold line_input, s. rewrite !(proj2 (Z.eqb_neq _ _)) by done. cbn [orb]. by rewrite (proj2 (Z.leb_gt _ _)) by done. }
  wp_step. apply consputc_wp; [done|]. unfold updc. wp_steps. kproj.
  assert (line_done c' (cons_put c' (k_cons k)) = (c' =? NEWLINE) || (c' =? C_D) || (Z.of_nat (length (ready ++ edit ++ [c'])) =? INPUT_BUF_SIZE)) as ->
    by (unfold line_done; by rewrite (ring_used _ _ _ R')).
  destruct (_ || _ || _) eqn:Hd; cbn [when].
  - wp_steps. eapply wp_mono; [apply wakeup_wp; [done|done|split; intros; kproj; rewrite Hh; set_solver]|].
    cbv beta. intros _ k2 K2. pose proof (wk_frame _ _ _ _ K2) as F2. split.
    + rewrite F2. kext.
    + apply K2.
    + eapply waking_levels; [|exact K2]. done.
    + rewrite F2, Hi. kproj. split; [by apply ring_commit|set_solver].
    + intros _. rewrite F2. kproj. by rewrite He.
    + intros i Hlt. rewrite Hi. cbn [fst]. rewrite bool_decide_eq_true_2.
      * rewrite (wk_proc _ _ _ _ K2), decide_True by done. by kproj.
      * intros E. apply (f_equal length) in E. rewrite !length_app in E. cbn in E. lia.
  - wp_steps. apply handled_edited; try done; rewrite ?Hi; [|kproj; split; [done|]|done].
    + unfold edited. kext. by rewrite He.
    + cbn. rewrite not_elem_of_app. split; [done|]. intros E%list_elem_of_singleton. by rewrite <- E in Hd.
Qed.

Section Handler.
Context {L : Layout} {I : Interference}.

Lemma handled_unlock ch s k k1 : intr_ok k -> handled ch s (k <| k_held ::= cons L_cons |>) k1 ->
  intr_ok (k1 <| k_held := [] |>) /\ handled ch s k (k1 <| k_held := [] |>).
Proof.
  intros [Hh Q Lv] [F Q1 L1 R E W]. split; [done|]. split; kproj; try done. rewrite F. by kext.
Qed.

Lemma consoleintr_wp ch s k : intr_ok k -> console_ok (k_cons k) s -> byte_ok ch ->
  wp (consoleintr ch) (fun _ k' => intr_ok k' /\ handled ch s k k') k.
Proof.
  intros Hk Hc Hch. pose proof Hk as [Hh Q Lv]. unfold consoleintr. wp_run.
  set (k0 := k <| k_held ::= cons L_cons |>). change (k_cons (k <| k_held ::= cons L_cons |>)) with (k_cons k).
  assert (k_held k0 = [L_cons]) as Hh0 by (unfold k0; kproj; by rewrite Hh).
  match goal with |- wp ?m _ _ => assert (wp m (fun _ k' => handled ch s k0 k') k0) as Hm end.
  2:{ eapply wp_mono; [exact Hm|]. cbv beta. intros _ k1 H1. 
      assert (k_held k1 = [L_cons]) as E1 by (rewrite (hd_frame _ _ _ _ H1); by kproj). apply wp_release; [rewrite E1; set_solver|].
      match goal with |- intr_ok ?x /\ _ => replace x with (k1 <| k_held := [] |>) by (kext; rewrite E1; by rewrite unlocked_top by set_solver) end.
      by apply handled_unlock. }
  assert (queues_wf k0) as Q0 by done. assert (levels_ok k0) as L0 by done. assert (console_ok (k_cons k0) s) as C0 by done.
  clearbody k0. clear Hk Hc Hh Q Lv k. destruct s as [ready edit]. pose proof C0 as [R Hn]. cbn [fst snd] in *.
  destruct (Z.eqb_spec ch C_P) as [HP|HP].
  { eapply wp_mono; [apply procdump_prints; rewrite Hh0; set_solver|]. cbv beta. intros _ k1 E1.
    assert (line_input ch (ready, edit) = (ready, edit)) as Hl by (unfold line_input; by rewrite HP, Z.eqb_refl).
    split; rewrite ?Hl; try done; [rewrite E1; kext|unfold queues_wf; rewrite E1; by kproj|unfold levels_ok; rewrite E1; by kproj|rewrite E1; by kproj|].
    intros i _. rewrite bool_decide_eq_false_2 by (by intros []). rewrite E1. by kproj. }
  pose proof (handled_edited ch (ready, edit) k0) as He. unfold line_echo, line_input in He. cbn [fst] in He.
  rewrite (proj2 (Z.eqb_neq ch C_P) HP) in He. destruct (Z.eqb_spec ch C_U) as [HU|HU].
  { rewrite (ring_typed _ _ _ R), Nat2Z.id. eapply wp_mono; [by apply kill_line_wp|]. cbv beta. intros _ k1 [E1 R1].
    apply He; try done. split; [done|set_solver]. }
  destruct ((ch =? C_H) || (ch =? 127)) eqn:HB.
  { rewrite (ring_no_edit _ _ _ R). destruct edit as [|x edit _] using rev_ind.
    - rewrite bool_decide_eq_true_2 by done. cbn [negb when]. wp_steps. apply He; try done. unfold edited. kext. by rewrite app_nil_r.
    - rewrite bool_decide_eq_false_2 in * by (by destruct edit). cbn [negb when]. unfold updc. wp_steps. apply consputc_backspace_wp.
      rewrite decide_False in He by (by destruct edit). rewrite removelast_last in He.
      apply He; [done|done|apply edited_cons| |done]. kproj. split; [by eapply ring_drop|set_solver]. }
  apply orb_false_iff in HB as [H3%Z.eqb_neq H4%Z.eqb_neq]. rewrite (ring_used _ _ _ R).
  destruct (Z.eqb_spec ch 0) as [H0|H0]; cbn [negb andb orb] in *; [|destruct (Z.ltb_spec (Z.of_nat (length (ready ++ edit))) INPUT_BUF_SIZE) as [Hr|Hr]].
  - wp_steps. apply He; try done. unfold edited. kext. by rewrite app_nil_r.
  - by apply console_put_wp.
  - rewrite (proj2 (Z.leb_le _ _)) in He by done. wp_steps. apply He; try done. unfold edited. kext. by rewrite app_nil_r.
Qed.

(** Bytes that arrive together. *)
Definition lines_input (bs : list Z) (s : list Z * list Z) : list Z * list Z := foldl (fun s ch => line_input ch s) s bs.
Fixpoint lines_echo (bs : list Z) (s : list Z * list Z) : list Z :=
  match bs with
  | [] => []
  | ch :: bs' => line_echo ch s ++ lines_echo bs' (line_input ch s)
  end.

(** Complete lines stay. *)
Lemma line_input_grows ch s : s.1 `prefix_of` (line_input ch s).1.
Proof. destruct s as [ready edit]. unfold line_input. repeat case_match; try done; by apply prefix_app_r. Qed.

Lemma lines_input_grows bs : forall s, s.1 `prefix_of` (lines_input bs s).1.
Proof. induction bs as [|ch bs IH]; intros s; [done|]. etrans; [apply line_input_grows|apply IH]. Qed.

Lemma lines_input_cons ch bs s : bool_decide ((lines_input (ch :: bs) s).1 <> s.1) =
  bool_decide ((line_input ch s).1 <> s.1) || bool_decide ((lines_input bs (line_input ch s)).1 <> (line_input ch s).1).
Proof.
  cbn [lines_input foldl]. fold (lines_input bs (line_input ch s)). rewrite <- bool_decide_or. apply bool_decide_ext.
  pose proof (lines_input_grows bs (line_input ch s)) as Hp. pose proof (line_input_grows ch s) as Hq. split; [|intros [H|H]].
  - intros H. destruct (decide ((line_input ch s).1 = s.1)) as [E|E]; [right; congruence|by left].
  - intros E. apply H. rewrite E in Hp. by apply (anti_symm prefix).
  - intros E. apply H. rewrite E in *. by apply (anti_symm prefix).
Qed.

Lemma woke_trans ch k1 k2 k3 (b1 b2 : bool) : k_cur k2 = k_cur k1 -> woke b1 ch k1 k2 -> woke b2 ch k2 k3 -> woke (b1 || b2) ch k1 k3.
Proof.
  intros Ec H1 H2 i Hi. rewrite (H2 i Hi). unfold woken at 1. rewrite (H1 i Hi), Ec. destruct b1; cbn [orb andb]; [|done].
  destruct (woken k1 ch i) eqn:Hw; [by rewrite andb_false_r, andb_false_r|]. 
  unfold woken in Hw. rewrite Hw. by rewrite andb_false_r.
Qed.

Record drained (bs : list Z) (s : list Z * list Z) (k k' : kernel) : Prop := {
  dr_ok : intr_ok k';
  dr_frame : k' = k <| k_cons := k_cons k' |> <| k_out := k_out k' |> <| k_procs := k_procs k' |> <| k_pqueue := k_pqueue k' |> <| k_in := [] |>;
  dr_lines : console_ok (k_cons k') (lines_input bs s);
  dr_echo : C_P ∉ bs -> k_out k' = k_out k ++ lines_echo bs s;
  dr_woke : woke (bool_decide ((lines_input bs s).1 <> s.1)) CH_cons k k'
}.

Lemma uart_drain_wp bs : forall fuel s k, k_in k = bs -> (length bs <= fuel)%nat -> Forall byte_ok bs -> intr_ok k -> console_ok (k_cons k) s ->
  wp (uart_drain fuel) (fun _ k' => drained bs s k k') k.
Proof.
  induction bs as [|ch bs IH]; intros fuel s k Hin Hf Hb Hk Hc.
  - assert (wp uartgetc (fun r k' => r = -1 /\ k' = k) k) as Hg by (unfold uartgetc, wp; by rewrite Hin).
    assert (wp (let! c := uartgetc in if c =? -1 then ret tt else match fuel with O => Asleep | S fuel' => do! consoleintr c; uart_drain fuel' end)
      (fun _ k' => drained [] s k k') k) as Hd; [|by destruct fuel].
    wp_step. eapply wp_mono; [exact Hg|]. cbv beta. intros _ k1 [-> ->]. rewrite Z.eqb_refl. wp_steps.
    split; [done|kext; done|done|intros _; by rewrite app_nil_r|]. intros i _. by rewrite bool_decide_eq_false_2 by (by intros []).
  - destruct fuel as [|fuel]; [cbn in Hf; lia|]. cbn [uart_drain]. apply Forall_cons in Hb as [Hch Hb].
    assert (uartgetc k = Ret ch (k <| k_in := bs |>)) as Hg by (unfold uartgetc; by rewrite Hin). wp_step.
    eapply wp_Ret; [exact Hg|]. cbv beta. rewrite (proj2 (Z.eqb_neq ch (-1))) by (unfold byte_ok in Hch; lia). wp_step.
    assert (intr_ok (k <| k_in := bs |>)) as Hk0 by (by destruct Hk).
    eapply wp_mono; [apply (consoleintr_wp ch s); done|]. cbv beta. intros _ k1 [Hk1 H1]. pose proof (hd_frame _ _ _ _ H1) as F1.
    eapply wp_mono; [apply (IH fuel (line_input ch s)); [rewrite F1; by kproj|cbn in Hf; lia|done|done|apply H1]|].
    cbv beta. intros _ k2 [Hk2 F2 L2 E2 W2]. split; [done| |done| |].
    + rewrite F2. rewrite F1. kext.
    + intros Hn. rewrite E2 by set_solver. rewrite (hd_echo _ _ _ _ H1) by set_solver. kproj. cbn [lines_echo]. by rewrite app_assoc.
    + rewrite lines_input_cons.
      eapply woke_trans; [|apply (hd_woke _ _ _ _ H1)|exact W2]. rewrite F1. by kproj.
Qed.

(** The console after an interrupt from the serial port: its lines, what was
    printed, and the processes that wait for input. *)
Record received (s : list Z * list Z) (k k' : kernel) : Prop := {
  rv_ok : intr_ok k';
  rv_frame : k' = k <| k_cons := k_cons k' |> <| k_out := k_out k' |> <| k_procs := k_procs k' |> <| k_pqueue := k_pqueue k' |>
    <| k_in := [] |> <| k_tx_busy := k_tx_busy k' |>;
  rv_lines : console_ok (k_cons k') (lines_input (k_in k) s);
  rv_echo : C_P ∉ k_in k -> k_out k' = k_out k ++ lines_echo (k_in k) s;
  rv_readers i : (i < Z.to_nat NPROC)%nat -> woken k CH_cons i = true ->
    p_state (k_procs k' !!! i) = if decide ((lines_input (k_in k) s).1 = s.1) then SLEEPING else RUNNABLE
}.

Lemma uart_received s k k1 : intr_ok k1 -> console_ok (k_cons k) s -> Forall byte_ok (k_in k) ->
  k1 = k <| k_procs := k_procs k1 |> <| k_pqueue := k_pqueue k1 |> <| k_tx_busy := k_tx_busy k1 |> ->
  (forall i, (i < Z.to_nat NPROC)%nat -> woken k CH_cons i = true -> woken k1 CH_cons i = true) ->
  wp (let! n := gets (fun k => length (k_in k)) in uart_drain n) (fun _ k' => received s k k') k1.
Proof.
  intros Hk1 Hc Hb F Hw. wp_steps. assert (k_cons k1 = k_cons k) as Ec by (rewrite F; by kproj).
  assert (k_out k1 = k_out k) as Eo by (rewrite F; by kproj). assert (k_in k1 = k_in k) as Ei by (rewrite F; by kproj).
  eapply wp_mono; [apply (uart_drain_wp (k_in k) _ s); rewrite ?Ei, ?Ec; done|].
  cbv beta. intros _ k2 [Hk2 F2 L2 E2 W2]. split; [done|rewrite F2; rewrite F; kext|done|by rewrite <- Eo|].
  intros i Hi Hwi. specialize (Hw i Hi Hwi). rewrite (W2 i Hi), Hw, andb_true_r. case_decide as Hs.
  - rewrite bool_decide_eq_false_2 by (by intros []). unfold woken in Hw.
    apply andb_true_iff in Hw as [[_ Hw]%andb_true_iff _]. by apply bool_decide_eq_true in Hw.
  - by rewrite bool_decide_eq_true_2 by done.
Qed.

(** C26. An interrupt from the serial port.  The bytes it brings change the lines
    the console holds as the line discipline says, one after the other:
    control-U erases the line being typed, control-H and delete its last
    byte, a carriage return counts as a newline, bytes are dropped while the
    ring is full; a newline, an end-of-file mark or a full ring completes the
    line.  What was typed is echoed, with a rub-out for every byte erased.  A
    process that waits for input is made runnable if a line was completed and
    sleeps on if not. *)
Theorem uartintr_spec tx_idle s k : intr_ok k -> console_ok (k_cons k) s -> Forall byte_ok (k_in k) ->
  wp (uartintr tx_idle) (fun _ k' => received s k k') k.
Proof.
  intros Hk Hc Hb. pose proof Hk as [Hh Q Lv]. unfold uartintr. wp_run. destruct tx_idle; cbn [when].
  - wp_steps. eapply wp_mono; [apply wakeup_wp; [done|done|split; intros; kproj; rewrite Hh; set_solver]|].
    cbv beta. intros _ k1 K1. pose proof (wk_frame _ _ _ _ K1) as F1.
    assert (k_held k1 = [L_tx]) as Hh1 by (rewrite F1; kproj; by rewrite Hh). do 2 wp_lock || wp_step.
    match goal with |- wp _ _ ?x => replace x with (k1 <| k_held := [] |>) by (kext; rewrite Hh1; by rewrite unlocked_top by set_solver) end.
    apply uart_received; try done.
    + split; [done|apply K1|]. by eapply waking_levels in K1.
    + rewrite F1. by kext.
    + intros i Hi Hw. unfold woken. kproj. rewrite (wk_proc _ _ _ _ K1), decide_True by done.
      change (woken _ CH_tx i) with (woken k CH_tx i). unfold woken in *. pose proof Hw as Hw2.
      apply andb_true_iff in Hw2 as [_ Hw2%bool_decide_eq_true]. rewrite Hw2, andb_false_r.
      replace (k_cur k1) with (k_cur k) by (rewrite F1; by kproj). exact Hw.
  - wp_run.
    match goal with |- wp _ _ ?x => replace x with k by (kext; by rewrite unlocked_top by (rewrite Hh; set_solver)) end.
    apply uart_received; try done. kext.
Qed.
End Handler.

(** ** Reading *)
Section Read.
Context {L : Layout} {LO : LayoutOk L} {I : Interference}.

Lemma uctx_cons use0 p r f k : uctx use0 p r k -> uctx use0 p r (k <| k_cons ::= f |>).
Proof. intros [(use & slot & W & T) U2 U3 U4 U5 U6]. split; try done. exists use, slot. split; [by destruct W|done]. Qed.

(** One byte for the user. *)
Lemma console_deliver use0 p r dst c k (Q : Z -> kernel -> Prop) :
  uctx use0 p r k -> 0 <= dst -> dst + 1 <= p_sz (k_procs k !!! p) -> dst + 1 <= MAXVA -> byte_ok c ->
  accessible (k_mem k) r dst PTE_W ->
  (forall k', uctx use0 p r k' -> calm k k' -> k_cons k' = k_cons k -> written use0 (k_mem k) (k_mem k') r dst [c] -> Q 0 k') ->
  wp (either_copyout (D_user dst) [c] 1) Q k.
Proof.
  intros U Hd Hsz Hmax Hc Hacc HQ. cbn [either_copyout]. unfold curproc. wp_steps. rewrite (uc_cur _ _ _ _ U). wp_steps.
  rewrite (uc_table _ _ _ _ U).
  eapply wp_mono; [apply wp_keeps; [|apply copyout_keeps]; apply (copyout_loop_wp use0 p r); [done|lia|lia|done|by constructor|lia|lia|]|].
  { intros j Hj. assert (j = 0) as -> by lia. by rewrite Z.add_0_r. }
  cbv beta. intros res k1 ((U1 & C1 & V1 & ->) & M1). apply HQ; try done. rewrite (mo_eq _ _ M1). by kproj.
Qed.

Lemma consoleread_loop_wp use0 p r edit target fuel : forall dst n ready k (Q : option Z -> kernel -> Prop),
  let rd := line_read (Z.to_nat n) (n <? target) ready in
  uctx use0 p r k -> k_held k = [L_cons] -> console_ok (k_cons k) (ready, edit) -> line_ready (Z.to_nat n) ready = true ->
  0 <= n <= target -> n <= Z.of_nat fuel -> 0 <= dst -> dst + n <= p_sz (k_procs k !!! p) -> dst + n <= MAXVA ->
  (forall j, 0 <= j < n -> accessible (k_mem k) r (dst + j) PTE_W) ->
  (forall k', k_held k' = [L_cons] -> console_ok (k_cons k') (rd.2, edit) -> written use0 (k_mem k) (k_mem k') r dst rd.1 ->
     Q (Some (n - Z.of_nat (length rd.1))) k') ->
  wp (consoleread_loop fuel (D_user dst) n target) Q k.
Proof.
  induction fuel as [|fuel IH]; intros dst n ready k Q rd U Hh [R He] Hr Hn Hf Hd Hsz Hmax Hacc HQ; cbn [consoleread_loop];
    destruct (Z.ltb_spec 0 n) as [Hlt|Hge]; try lia;
    try (assert (n = 0) as -> by lia; wp_steps; apply (HQ k Hh); [done|apply written_nil]).
  destruct (Z.to_nat n) as [|m] eqn:Em; [lia|]. destruct ready as [|c ready]; [done|]. cbn [line_ready line_read fst snd] in *.
  pose proof (ring_no_ready _ _ _ R) as Hne. rewrite bool_decide_eq_false_2 in Hne by done.
  wp_step. eapply wp_Ret; [unfold wait_unless_killed; cbn [wait_rounds]; rewrite Hne; reflexivity|]. cbv beta iota. wp_steps.
  destruct (ring_take _ _ _ _ R) as [-> R1]. assert (byte_ok c) as Hc by (pose proof (cr_bytes _ _ _ R) as H; by inversion H).
  unfold updc. wp_steps. subst rd. destruct (Z.eqb_spec c C_D) as [Hcd|Hcd].
  { wp_steps. cbn [fst snd length] in HQ. rewrite Z.sub_0_r in HQ. destruct (n <? target) eqn:Hnt; cbn [when]; wp_steps.
    - apply HQ; kproj; [done| |apply written_nil]. rewrite (ring_untake _ _ _ _ R). done.
    - apply HQ; kproj; [done|done|apply written_nil]. }
  wp_step. apply (console_deliver use0 p r); [by apply uctx_cons|done|kproj; lia|lia|done|rewrite <- (Z.add_0_r dst); apply Hacc; lia|].
  kproj. intros k1 U1 C1 E1 W1. cbn [Z.eqb]. destruct (Z.eqb_spec c NEWLINE) as [Hnl|Hnl].
  { wp_steps. apply (HQ k1); [by rewrite (cm_held _ _ C1)|by rewrite E1|done]. }
  pose proof (uc_root _ _ _ _ U) as Hroot. cbn [dst_add].
  assert (u64 (dst + 1) = dst + 1) as -> by (apply u64_id; change MAXVA with (2 ^ 38) in Hmax; lia).
  assert (Z.to_nat (n - 1) = m) as Em1 by lia. assert ((n - 1 <? target) = true) as Ht by (apply Z.ltb_lt; lia).
  apply (IH _ _ ready); try lia; rewrite ?Em1, ?Ht; try done.
  - by rewrite (cm_held _ _ C1).
  - by rewrite E1.
  - rewrite (cm_sz _ _ C1). kproj. lia.
  - intros j Hj. eapply accessible_written; [done|done|lia|]. replace (dst + 1 + j) with (dst + (1 + j)) by lia. apply Hacc. lia.
  - intros k2 H2 C2 W2. cbn [fst snd length] in HQ. replace (n - 1 - _) with (n - Z.of_nat (S (length (line_read m true ready).1))) by lia.
    apply HQ; try done. by apply (written_app _ _ _ _ _ _ [c] _ W1).
Qed.

(** C27. A read from the console when a line, or as many bytes as were asked
    for, are there: it stores in the user's buffer, whether its pages are in
    memory or swapped out, exactly the bytes up to the end of the first line
    and returns their number; the rest stays for the next read.  At an
    end-of-file mark it returns 0, and the mark is gone; where bytes precede
    the mark it stays, so that the next read returns 0.  The line being typed
    is not touched. *)
Theorem consoleread_spec use0 p r dst n ready edit k (rd := line_read (Z.to_nat n) false ready) :
  uctx use0 p r k -> k_held k = [] -> console_ok (k_cons k) (ready, edit) -> line_ready (Z.to_nat n) ready = true ->
  0 <= n < 2 ^ 31 -> 0 <= dst -> dst + n <= p_sz (k_procs k !!! p) -> dst + n <= MAXVA ->
  (forall j, 0 <= j < n -> accessible (k_mem k) r (dst + j) PTE_W) ->
  wp (consoleread (D_user dst) n) (fun res k' => res = Z.of_nat (length rd.1) /\ console_ok (k_cons k') (rd.2, edit) /\
    written use0 (k_mem k) (k_mem k') r dst rd.1 /\ k_held k' = []) k.
Proof.
  intros U Hh Hc Hr Hn Hd Hsz Hmax Hacc. unfold consoleread. wp_run.
  apply (consoleread_loop_wp use0 p r edit n _ dst n ready); try done; try lia.
  - destruct U as [(use & slot & W & T) U2 U3 U4 U5 U6]. split; try done; [exists use, slot; split; [by destruct W|done]|].
    unfold vm_unlocked. kproj. rewrite Hh. repeat split; set_solver.
  - kproj. by rewrite Hh.
  - rewrite Z.ltb_irrefl. fold rd. kproj. intros k1 Hh1 C1 W1. wp_run. kproj.
    assert (length rd.1 <= Z.to_nat n)%nat as Hl by apply line_read_length.
    split; [rewrite i32_id by lia; lia|]. split; [done|]. split; [done|]. rewrite Hh1. apply unlocked_top. set_solver.
Qed.
End Read.

(** ** Instances *)

(** A ring about to wrap around: a line with one letter, and two letters typed. *)
Definition demo_cons : console := mkconsole (aset 126 108 (aset 127 10 (aset 0 120 (aset 1 121 (replicate 128 0))))) 4294967294 0 2.
Definition cdemo : kernel := demo <| k_cons := demo_cons |>.
Definition rdemo : kernel := cdemo <| k_in := [127; 97; 13] |>
  <| k_procs ::= alter (fun p => p <| p_state := SLEEPING |> <| p_chan := CH_cons |>) 1%nat |>.
#[local] Instance no_interference : Interference := fun k => k.

Lemma demo_cons_ok : console_ok demo_cons ([108; 10], [120; 121]).
Proof.
  split; [|set_solver]. split; try done; [|repeat constructor; done].
  intros i x Hi. do 4 (destruct i as [|i]; [injection Hi as <-; reflexivity|]). done.
Qed.

Lemma rdemo_ok : intr_ok rdemo.
Proof.
  split; [done| |].
  - split; [done|]. repeat constructor; done.
  - split; [done|]. intros i Hi. apply (Forall_lookup_total_1 (fun p => 0 <= p_qlevel p < LEVELS)); [repeat constructor; done|exact Hi].
Qed.

Lemma uartintr_spec_witness : woken rdemo CH_cons 1 = true /\
  wp (uartintr true) (fun _ k' => console_ok (k_cons k') ([108; 10; 120; 97; 10], []) /\
    k_out k' = k_out rdemo ++ [8; 32; 8; 97; 10] /\ p_state (k_procs k' !!! 1%nat) = RUNNABLE) rdemo.
Proof.
  split; [reflexivity|]. eapply wp_mono; [apply (uartintr_spec true ([108; 10], [120; 121]) rdemo rdemo_ok demo_cons_ok)|].
  - repeat constructor; done.
  - cbv beta. intros _ k' [_ _ R E P]. split; [exact R|]. split; [apply E; set_solver|]. apply P; [apply Nat.ltb_lt|]; reflexivity.
Defined.

Lemma consoleread_spec_witness : wp (consoleread (D_user 4094) 4) (fun res k' => res = 2 /\
  console_ok (k_cons k') ([], [120; 121]) /\ written demo_use demo_mem (k_mem k') (pg 0) 4094 [108; 10]) cdemo.
Proof.
  eapply wp_mono; [apply (consoleread_spec demo_use 0 (pg 0) 4094 4 [108; 10] [120; 121] cdemo)|].
  - destruct demo_uctx as [(use & slot & W & T) U2 U3 U4 U5 U6]. split; try done. exists use, slot. split; [by destruct W|done].
  - done.
  - apply demo_cons_ok.
  - done.
  - lia.
  - lia.
  - done.
  - done.
  - intros j Hj. apply demo_accessible. addr.
  - cbv beta. intros res k' (-> & C & W & _). done.
Defined.
