(* ===== verification/Virtio.v ===== *)
(** * The disk driver (kernel/virtio_disk.c)

    The descriptor table and the two rings live in pages shared with the
    device; here they are the lists of [vdisk], with the registers by which
    driver and device signal each other.  What the device and the
    other threads do while a thread sleeps is the [Interference] parameter. *)

From Stdlib Require Import ZArith Lia.
From stdpp Require Import base list strings sets.
From S2P Require Import Prelude Params Mem State Evict Kalloc Vm Sched Sleeplock Bio.

(** kernel/virtio.h *)
Definition NUM : Z := 8.
Definition VRING_DESC_F_NEXT : Z := 1.
Definition VRING_DESC_F_WRITE : Z := 2.
Definition VIRTIO_BLK_T_IN : Z := 0.
Definition VIRTIO_BLK_T_OUT : Z := 1.
Definition VIRTIO_MMIO_MAGIC_VALUE : Z := 0x000.
Definition VIRTIO_MMIO_VERSION : Z := 0x004.
Definition VIRTIO_MMIO_DEVICE_ID : Z := 0x008.
Definition VIRTIO_MMIO_VENDOR_ID : Z := 0x00c.
Definition VIRTIO_MMIO_DEVICE_FEATURES : Z := 0x010.
Definition VIRTIO_MMIO_DRIVER_FEATURES : Z := 0x020.
Definition VIRTIO_MMIO_QUEUE_SEL : Z := 0x030.
Definition VIRTIO_MMIO_QUEUE_NUM_MAX : Z := 0x034.
Definition VIRTIO_MMIO_QUEUE_NUM : Z := 0x038.
Definition VIRTIO_MMIO_QUEUE_READY : Z := 0x044.
Definition VIRTIO_MMIO_STATUS : Z := 0x070.
Definition VIRTIO_MMIO_QUEUE_DESC_LOW : Z := 0x080.
Definition VIRTIO_MMIO_QUEUE_DESC_HIGH : Z := 0x084.
Definition VIRTIO_MMIO_DRIVER_DESC_LOW : Z := 0x090.
Definition VIRTIO_MMIO_DRIVER_DESC_HIGH : Z := 0x094.
Definition VIRTIO_MMIO_DEVICE_DESC_LOW : Z := 0x0a0.
Definition VIRTIO_MMIO_DEVICE_DESC_HIGH : Z := 0x0a4.
Definition VIRTIO_CONFIG_S_ACKNOWLEDGE : Z := 1.
Definition VIRTIO_CONFIG_S_DRIVER : Z := 2.
Definition VIRTIO_CONFIG_S_DRIVER_OK : Z := 4.
Definition VIRTIO_CONFIG_S_FEATURES_OK : Z := 8.
Definition VIRTIO_BLK_F_RO : Z := 5.
Definition VIRTIO_BLK_F_SCSI : Z := 7.
Definition VIRTIO_BLK_F_CONFIG_WCE : Z := 11.
Definition VIRTIO_BLK_F_MQ : Z := 12.
Definition VIRTIO_F_ANY_LAYOUT : Z := 27.
Definition VIRTIO_RING_F_INDIRECT_DESC : Z := 28.
Definition VIRTIO_RING_F_EVENT_IDX : Z := 29.

(** A 32-bit register of the disk. *)
Definition write_reg (reg v : Z) : KM unit := mmio_write (VIRTIO0 + reg) (u32 v).

Definition getv : KM vdisk := gets k_vdisk.
Definition updv (f : vdisk -> vdisk) : KM unit := modify (fun k => k <| k_vdisk ::= f |>).
Definition updd (i : Z) (f : vdesc -> vdesc) : KM unit := updv (set v_desc (aupd i f)).

Section Virtio.
Context {L : Layout} {I : Interference}.

(** The write to QUEUE_NOTIFY: the device is told to look at queue [q]. *)
Definition queue_notify (q : Z) : KM unit := updv (set v_notify (fun _ => Some q)).

(** The write to INTERRUPT_ACK: the device clears these bits of its
    INTERRUPT_STATUS. *)
Definition interrupt_ack (bits : Z) : KM unit := updv (set v_isr (fun s => Z.land s (Z.lnot bits))).

(** The offered features without the ones the driver does not handle. *)
Definition driver_features (features : Z) : Z :=
  let clear f bit := Z.land f (Z.lnot (Z.shiftl 1 bit)) in
  let features := clear features VIRTIO_BLK_F_RO in
  let features := clear features VIRTIO_BLK_F_SCSI in
  let features := clear features VIRTIO_BLK_F_CONFIG_WCE in
  let features := clear features VIRTIO_BLK_F_MQ in
  let features := clear features VIRTIO_F_ANY_LAYOUT in
  let features := clear features VIRTIO_RING_F_EVENT_IDX in
  clear features VIRTIO_RING_F_INDIRECT_DESC.

(** Reset, the first status bits and the features. *)
Definition virtio_negotiate (R : Z -> Z) : KM unit :=
  let status := 0 in
  do! write_reg VIRTIO_MMIO_STATUS status;
  let status := Z.lor status VIRTIO_CONFIG_S_ACKNOWLEDGE in
  do! write_reg VIRTIO_MMIO_STATUS status;
  let status := Z.lor status VIRTIO_CONFIG_S_DRIVER in
  do! write_reg VIRTIO_MMIO_STATUS status;
  do! write_reg VIRTIO_MMIO_DRIVER_FEATURES (driver_features (R VIRTIO_MMIO_DEVICE_FEATURES));
  write_reg VIRTIO_MMIO_STATUS (Z.lor status VIRTIO_CONFIG_S_FEATURES_OK).

(** The size and the addresses of queue 0. *)
Definition virtio_queue (desc avail used : Z) : KM unit :=
  do! write_reg VIRTIO_MMIO_QUEUE_NUM NUM;
  do! write_reg VIRTIO_MMIO_QUEUE_DESC_LOW desc;
  do! write_reg VIRTIO_MMIO_QUEUE_DESC_HIGH (Z.shiftr desc 32);
  do! write_reg VIRTIO_MMIO_DRIVER_DESC_LOW avail;
  do! write_reg VIRTIO_MMIO_DRIVER_DESC_HIGH (Z.shiftr avail 32);
  do! write_reg VIRTIO_MMIO_DEVICE_DESC_LOW used;
  do! write_reg VIRTIO_MMIO_DEVICE_DESC_HIGH (Z.shiftr used 32);
  write_reg VIRTIO_MMIO_QUEUE_READY 1.

(** [R] is what the device's registers read as during the set-up. *)
Definition virtio_disk_init (R : Z -> Z) : KM unit :=
  do! initlock L_vdisk;
  if negb (R VIRTIO_MMIO_MAGIC_VALUE =? 0x74726976) || negb (R VIRTIO_MMIO_VERSION =? 2) ||
     negb (R VIRTIO_MMIO_DEVICE_ID =? 2) || negb (R VIRTIO_MMIO_VENDOR_ID =? 0x554d4551)
  then panic "could not find virtio disk"
  else
  do! virtio_negotiate R;
  let status := R VIRTIO_MMIO_STATUS in
  if negb (has status VIRTIO_CONFIG_S_FEATURES_OK) then panic "virtio disk FEATURES_OK unset"
  else
  do! write_reg VIRTIO_MMIO_QUEUE_SEL 0;
  if negb (R VIRTIO_MMIO_QUEUE_READY =? 0) then panic "virtio disk should not be ready"
  else if R VIRTIO_MMIO_QUEUE_NUM_MAX =? 0 then panic "virtio disk has no queue 0"
  else if R VIRTIO_MMIO_QUEUE_NUM_MAX <? NUM then panic "virtio disk max queue too short"
  else
    let! desc := kalloc in
    let! avail := kalloc in
    let! used := kalloc in
    if (desc =? 0) || (avail =? 0) || (used =? 0) then panic "virtio disk kalloc"
    else
      do! kmemset desc 0 PGSIZE;
      do! kmemset avail 0 PGSIZE;
      do! kmemset used 0 PGSIZE;
      do! updv (fun v => v <| v_desc := replicate (Z.to_nat NUM) vdesc0 |>
                           <| v_avail := replicate (Z.to_nat NUM) 0 |> <| v_avail_idx := 0 |>
                           <| v_used := replicate (Z.to_nat NUM) 0 |> <| v_used_didx := 0 |>);
      do! virtio_queue desc avail used;
      do! for_range (Z.to_nat NUM) 0 (fun i => updv (set v_free (aset i 1)));
      write_reg VIRTIO_MMIO_STATUS (Z.lor status VIRTIO_CONFIG_S_DRIVER_OK).

Definition alloc_desc : KM Z :=
  let! r := for_until (Z.to_nat NUM) 0 (fun i =>
    let! v := getv in
    if negb (aget (v_free v) i =? 0) then
      do! updv (set v_free (aset i 0));
      ret (Some i)
    else ret None) in
  ret (default (-1) r).

Definition free_desc (i : Z) : KM unit :=
  if NUM <=? i then panic "free_desc 1"
  else
    let! v := getv in
    if negb (aget (v_free v) i =? 0) then panic "free_desc 2"
    else
      do! updd i (fun _ => vdesc0);
      do! updv (set v_free (aset i 1));
      wakeup CH_desc.

(** A chain has at most [NUM] descriptors: freeing one twice is a panic. *)
Fixpoint free_chain_loop (fuel : nat) (i : Z) : KM unit :=
  match fuel with
  | O => Asleep
  | S fuel' =>
      let! v := getv in
      let flag := d_flags (aget (v_desc v) i) in
      let nxt := d_next (aget (v_desc v) i) in
      do! free_desc i;
      if has flag VRING_DESC_F_NEXT then free_chain_loop fuel' nxt else ret tt
  end.
Definition free_chain (i : Z) : KM unit := free_chain_loop (S (Z.to_nat NUM)) i.

(** The loop of [alloc3_desc], with the descriptors allocated so far; [None]
    is the return value -1. *)
Fixpoint alloc3_loop (n : nat) (idx : list Z) : KM (option (list Z)) :=
  match n with
  | O => ret (Some idx)
  | S n' =>
      let! i := alloc_desc in
      if i <? 0 then
        do! for_range (length idx) 0 (fun j => free_desc (aget idx j));
        ret None
      else alloc3_loop n' (idx ++ [i])
  end.
Definition alloc3_desc : KM (option (list Z)) := alloc3_loop 3 [].

(** [while(1){ if(alloc3_desc(idx) == 0) break; sleep(...); }] *)
Fixpoint alloc3_wait (fuel : nat) : KM (list Z) :=
  let! r := alloc3_desc in
  match r with
  | Some idx => ret idx
  | None =>
      match fuel with
      | O => Asleep
      | S fuel' => do! sleep CH_desc L_vdisk; alloc3_wait fuel'
      end
  end.

(** Format the three descriptors for a transfer of buffer [b]. *)
Definition format_descs (b : nat) (write : bool) (sector i0 i1 i2 : Z) : KM unit :=
  do! updv (set v_ops (aset i0 (if write then VIRTIO_BLK_T_OUT else VIRTIO_BLK_T_IN, sector)));
  do! updd i0 (fun _ => mkvdesc (DMA_op i0) 16 VRING_DESC_F_NEXT i1);
  do! updd i1 (fun _ => mkvdesc (DMA_data b) BSIZE
                          (Z.lor (if write then 0 else VRING_DESC_F_WRITE) VRING_DESC_F_NEXT) i2);
  do! updv (set v_info_status (aset i0 0xff));
  updd i2 (fun _ => mkvdesc (DMA_status i0) 1 VRING_DESC_F_WRITE 0).

Definition disk_rw (b : nat) (write : bool) : KM unit :=
  let! x := getb b in
  let sector := u32 (b_blockno x * (BSIZE / 512)) in
  do! acquire L_vdisk;
  let! fuel := gets rounds in
  let! idx := alloc3_wait fuel in
  let i0 := aget idx 0 in
  let i1 := aget idx 1 in
  let i2 := aget idx 2 in
  do! format_descs b write sector i0 i1 i2;
  do! updb b (set b_disk (fun _ => 1));
  do! updv (set v_info_b (aset i0 (Some b)));
  do! updv (fun v => v <| v_avail ::= aset (v_avail_idx v mod NUM) i0 |>);
  do! updv (set v_avail_idx (fun i => u16 (i + 1)));
  do! queue_notify 0;
  do! sleep_while (fun k => b_disk (k_bufs k !!! b) =? 1) (CH_buf b) L_vdisk;
  do! updv (set v_info_b (aset i0 None));
  do! free_chain i0;
  release L_vdisk.

(** The loop of [virtio_disk_intr]; the two indices differ by the number of
    completions not yet seen. *)
Fixpoint disk_intr_loop (fuel : nat) : KM unit :=
  let! v := getv in
  if v_used_idx v =? v_used_didx v then ret tt
  else
    match fuel with
    | O => Asleep
    | S fuel' =>
        let id := aget (v_used v) (v_used_idx v mod NUM) in
        if negb (aget (v_info_status v) id =? 0) then panic "virtio_disk_intr status"
        else
          let! b := deref (aget (v_info_b v) id) in
          do! updb b (set b_disk (fun _ => 0));
          do! wakeup (CH_buf b);
          do! updv (set v_used_idx (fun i => u16 (i + 1)));
          disk_intr_loop fuel'
    end.

Definition virtio_disk_intr : KM unit :=
  do! acquire L_vdisk;
  let! v := getv in
  do! interrupt_ack (Z.land (v_isr v) 0x3);
  let! fuel := gets (fun k => Z.to_nat (u16 (v_used_didx (k_vdisk k) - v_used_idx (k_vdisk k)))) in
  do! disk_intr_loop fuel;
  release L_vdisk.
End Virtio.

(** ** The driver as the disk of the buffer cache *)

(** No request is under way: every descriptor is free, the driver and the
    device agree on the three ring positions, and neither has a signal of the
    other to act on. *)
Record driver_idle (v : vdisk) : Prop := {
  di_desc : v_desc v = replicate 8 vdesc0;
  di_free : v_free v = replicate 8 1;
  di_info_b : v_info_b v = replicate 8 None;
  di_avail : length (v_avail v) = 8%nat;
  di_used : length (v_used v) = 8%nat;
  di_status : length (v_info_status v) = 8%nat;
  di_ops : length (v_ops v) = 8%nat;
  di_used_idx : v_used_idx v = v_avail_idx v;
  di_used_didx : v_used_didx v = v_avail_idx v;
  di_range : 0 <= v_avail_idx v < 65536;
  di_notify : v_notify v = None;
  di_isr : v_isr v = 0
}.

Definition virtio_disk {I : Interference} : Disk := {|
  virtio_disk_rw := disk_rw;
  disk_ready v w := driver_idle v /\ w = None
|}.
