(* ===== verification/Fork.v ===== *)
(** * fork

    kfork of kernel/proc.c, with allocproc and proc_pagetable: the child is a
    new process whose memory, registers and open files are the parent's. *)

From Stdlib Require Import ZArith Lia.
From stdpp Require Import base list strings sets.
From S2P Require Import Prelude Params Mem State Evict Kalloc Vm VmInv VmFault VmFaultSpec UserMem VmCopy VmSpace Demo.
From S2P Require Import Sched SchedSpec MemFrame Sleeplock Printf Bio Log Fs Pipe Console File ProcLife.

Section Fork.
Context {L : Layout} {LO : LayoutOk L} {T : Text}.

(** ** A new page table *)
Lemma trampoline_other use slot k : vm_wf use slot k ->
  use trampoline = Other /\ trampoline mod PGSIZE = 0 /\ 0 < trampoline /\ trampoline + PGSIZE <= PHYSTOP.
Proof.
  intros Hwf. destruct etext_range, trampoline_range. pose proof kend_range.
  split; [|split; [apply trampoline_aligned|addr]].
  destruct (decide (use trampoline = Other)) as [|E]; [done|]. exfalso.
  destruct (pt_page _ _ (wf_pt _ _ _ Hwf) _ E) as (_ & ? & _). addr.
Qed.

Lemma page_other use tf : page_ok tf -> use tf = Other -> tf mod PGSIZE = 0 /\ 0 < tf /\ tf + PGSIZE <= PHYSTOP.
Proof. intros Hp _. pose proof (page_ok_pos _ Hp). destruct Hp as (? & _ & ?). split; [done|]. addr. Qed.

Lemma proc_pagetable_wp use slot k p n (tf := p_trapframe (k_procs k !!! p)) :
  vm_wf use slot k -> vm_unlocked k -> free_pages k (5 + n) -> use tf = Other -> page_ok tf ->
  wp (proc_pagetable p) (fun r k' => exists use', vm_wf use' slot k' /\ extends use k use' k' /\ free_pages k' n /\
    use r = Free /\ page_ok r /\ (forall r', is_root use' r' <-> is_root use r' \/ r' = r) /\
    same_views use (k_mem k) (k_mem k') /\ forall va, 0 <= va < TRAPFRAME -> view (k_mem k') r va = None) k.
Proof.
  intros Hwf Hul Hfree Htf Hpg. unfold proc_pagetable. wp_step.
  eapply wp_mono; [apply wp_keeps; [by apply (uvmcreate_wp use slot k (4 + n))|auto with frames]|].
  intros r k1 ((use1 & Hwf1 & He1 & Hf1 & Hu & Hrp & Hroot & Hvw & Hz) & Hk1). pose proof (page_ok_pos _ Hrp).
  rewrite (proj2 (Z.eqb_neq r 0)) by addr.
  assert (Hr1 : is_root use1 r) by (apply Hroot; by right). assert (Hnr : ~ is_root use r) by (unfold is_root; congruence).
  assert (Hheld1 : L_kmem ∉ k_held k1) by (rewrite (cm_held _ _ (ex_calm _ _ _ _ He1)); apply Hul).
  destruct (trampoline_other _ _ _ Hwf1) as (Ht1 & Ht2 & Ht3).
  wp_step. eapply wp_mono; [apply wp_keeps; [apply (kmap_wp use1 slot k1 r TRAMPOLINE trampoline _ (2 + n)); try done|auto with frames]|].
  { by rewrite Hz. }
  intros res k2 ((-> & use2 & Hwf2 & He2 & Hf2 & Hroot2 & Hvw2 & Hp2) & Hk2). cbn [Z.ltb Z.compare].
  pose proof (extends_trans _ _ _ _ _ _ He1 He2) as He12.
  assert (Hheld2 : L_kmem ∉ k_held k2) by (rewrite (cm_held _ _ (ex_calm _ _ _ _ He12)); apply Hul).
  assert (Etf : p_trapframe (k_procs k2 !!! p) = tf).
  { destruct Hk1 as [_ _ S1], Hk2 as [_ _ S2]. by rewrite (S2 p), (S1 p). }
  assert (Htf2 : use2 tf = Other) by (by rewrite (ex_use _ _ _ _ He12), Htf by (by rewrite Htf)).
  destruct (page_other _ _ Hpg Htf2) as (Hta & Htb).
  wp_step. unfold getp. wp_step. wp_step. rewrite Etf.
  eapply wp_mono; [apply (kmap_wp use2 slot k2 r TRAPFRAME tf _ n); try done; [by apply Hroot2|]|].
  { by rewrite Hp2, decide_False, Hz. }
  intros res k3 (-> & use3 & Hwf3 & He3 & Hf3 & Hroot3 & Hvw3 & Hp3). cbn [Z.ltb Z.compare]. apply wp_ret.
  exists use3. split; [done|]. split; [by eapply extends_trans|]. split; [done|]. split; [done|]. split; [done|].
  split; [intros r'; by rewrite Hroot3, Hroot2|]. split.
  - intros r' va Hr' Hva. assert (r' <> r) by congruence.
    rewrite Hvw3 by (naive_solver || (apply Hroot2, Hroot; by left)).
    rewrite Hvw2 by (naive_solver || (apply Hroot; by left)). by apply Hvw.
  - intros va Hva. assert (0 <= va < MAXVA) by (change TRAPFRAME with (MAXVA - 2 * PGSIZE) in Hva; addr).
    assert (va / PGSIZE < TRAPFRAME / PGSIZE)
      by (apply Z.div_lt_upper_bound; [done|]; change (PGSIZE * (TRAPFRAME / PGSIZE)) with TRAPFRAME; lia).
    unfold view. rewrite Hp3, decide_False by lia. rewrite Hp2, decide_False, Hz; [done|done| |done].
    change (TRAMPOLINE / PGSIZE) with (TRAPFRAME / PGSIZE + 1). lia.
Qed.

(** ** A new process *)

(** The rest of the kernel: all but memory, processes, pids and locks. *)
Definition same_rest (k k' : kernel) : Prop :=
  k' = k <| k_mem := k_mem k' |> <| k_freelist := k_freelist k' |> <| k_frames := k_frames k' |>
         <| k_clock_p := k_clock_p k' |> <| k_swap_mask := k_swap_mask k' |> <| k_procs := k_procs k' |>
         <| k_held := k_held k' |> <| k_nextpid := k_nextpid k' |>.

#[export] Instance same_rest_preorder : PreOrder same_rest.
Proof.
  split; [intros k; unfold same_rest; kext|]. intros k1 k2 k3 H1 H2. unfold same_rest in *. rewrite H2, H1. kext.
Qed.

Lemma mem_only_rest k k' : mem_only k k' -> same_rest k k'.
Proof. intros [E _ _]. unfold same_rest. rewrite E. kext. Qed.

(** The slot [allocproc] chooses. *)
Definition first_unused (k : kernel) (np : nat) : Prop :=
  (np < Z.to_nat NPROC)%nat /\ p_state (k_procs k !!! np) = UNUSED /\
  forall j, (j < np)%nat -> p_state (k_procs k !!! j) <> UNUSED.

(** The slot [np] once it has been allocated, with page table [r] and trap
    frame [tf]. *)
Definition newproc (pid tf r : Z) (x : proc) : proc :=
  x <| p_pid := pid |> <| p_state := USED |> <| p_trapframe := tf |> <| p_pagetable := r |>
    <| p_context := forkret_addr :: u64 (p_kstack x + PGSIZE) :: replicate 12 0 |>
    <| p_sysCount := 0 |> <| p_qlevel := 0 |> <| p_pticks := 0 |>
    <| p_qticks := replicate (Z.to_nat LEVELS) 0 |> <| p_tsched := 0 |> <| p_dSysCount := 0 |>.

Record alloced (use : Z -> usage) (slot : Z -> option (Z * Z)) (k : kernel) (np : nat) (r tf : Z) (n : nat)
    (use' : Z -> usage) (k' : kernel) : Prop := {
  al_wf : vm_wf use' slot k';
  al_free : free_pages k' n;
  al_use x : use x <> Free -> use' x = use x;
  al_root r' : is_root use' r' <-> is_root use r' \/ r' = r;
  al_new : use r = Free /\ page_ok r;
  al_tf : use tf = Free /\ use' tf = Other /\ page_ok tf;
  al_views : same_views use (k_mem k) (k_mem k');
  al_solid : same_solid use (k_mem k) (k_mem k');
  al_empty va : 0 <= va < TRAPFRAME -> view (k_mem k') r va = None;
  al_child : same_stats (newproc (k_nextpid k) tf r (k_procs k !!! np)) (k_procs k' !!! np);
  al_other j : j <> np -> same_stats (k_procs k !!! j) (k_procs k' !!! j);
  al_len : length (k_procs k') = length (k_procs k);
  al_held : k_held k' = [L_proc np];
  al_pid : k_nextpid k' = i32 (k_nextpid k + 1);
  al_rest : same_rest k k'
}.

Lemma allocproc_scan k np : k_held k = [] -> first_unused k np ->
  wp (for_procs_until (fun p =>
        do! acquire (L_proc p);
        let! pr := getp p in
        if state_eqb (p_state pr) UNUSED then ret (Some p)
        else do! release (L_proc p); ret None))
     (fun r k' => r = Some np /\ k' = k <| k_held := [L_proc np] |>) k.
Proof.
  intros Hh (Hn & Hu & Hf). unfold for_procs_until.
  eapply wp_mono; [apply (wp_for_until _ 0 _ (fun i k' => k' = k /\ i <= Z.of_nat np)
    (fun a k' => a = np /\ k' = k <| k_held := [L_proc np] |>))|].
  - split; [done|lia].
  - intros i k' Hi [-> Hle]. wp_step. wp_lock. wp_step. unfold getp. wp_step. kproj.
    destruct (decide (i = Z.of_nat np)) as [->|Hne].
    + rewrite Nat2Z.id, Hu. cbn [state_eqb]. unfold state_eqb. rewrite bool_decide_eq_true_2 by done. apply wp_ret.
      split; [done|]. kext. by rewrite Hh.
    + unfold state_eqb. rewrite bool_decide_eq_false_2 by (apply Hf; lia). wp_step. wp_lock. wp_step.
      split; [|lia]. kext. by rewrite unlocked_top by (rewrite Hh; set_solver).
  - intros [a|] k'; [by intros [-> ->]|]. intros [_ ?]. lia.
Qed.

Lemma proc_pagetable_keeps p : keeps (proc_pagetable p).
Proof. unfold proc_pagetable. keep_auto. Qed.

(** [allocproc] once it has a trap frame page: [kB] is the state in which
    [proc_pagetable] is called. *)
Definition trapframed (k : kernel) (np : nat) : kernel :=
  (popped k) <| k_held := [L_proc np] |> <| k_nextpid := i32 (k_nextpid k + 1) |>
    <| k_procs ::= alter (fun x => x <| p_pid := k_nextpid k |> <| p_state := USED |> <| p_trapframe := k_freelist k |>) np |>.

Lemma alloc_trapframe use slot k np n : vm_wf use slot k -> L_kmem ∉ k_held k -> free_pages k (S n) ->
  let tf := k_freelist k in
  let use1 := fupd tf Other use in
  vm_wf use1 slot (trapframed k np) /\ free_pages (trapframed k np) n /\ use tf = Free /\ page_ok tf /\
  (forall r, is_root use1 r <-> is_root use r) /\
  same_views use (k_mem k) (k_mem (trapframed k np)) /\ same_solid use (k_mem k) (k_mem (trapframed k np)).
Proof.
  intros Hwf Hlk Hfree tf use1. destruct (kalloc_free _ _ _ _ Hwf Hlk Hfree) as (_ & Hu & Hwf1 & Hq & Hf1).
  fold tf in Hu, Hwf1. pose proof (pt_page _ _ (wf_pt _ _ _ Hwf) tf ltac:(by rewrite Hu)) as Hpg.
  pose proof (page_ok_pos _ Hpg). pose proof Hpg as (Htl & _).
  assert (Hroot : forall r, is_root use1 r <-> is_root use r).
  { intros r. unfold is_root, use1, fupd. case_decide as E; [rewrite E, Hu; naive_solver|done]. }
  split; [|split; [exact Hf1|split; [done|split; [done|split; [done|split; [apply Hq|]]]]]].
  - eapply (vm_wf_ext _ slot (popped k)); [|done..|].
    + eapply vm_wf_use; [|apply (own_other _ _ _ tf Hwf1 (fupd_eq _ _ _))]. intros x. unfold use1, fupd. by case_decide.
    + intros p _. unfold trapframed. kproj. by apply (proj_alter p_pagetable).
  - assert (k_mem (trapframed k np) = k_mem (popped k)) as -> by (unfold trapframed; by kproj).
    apply (changes_solid use slot k _ 0 tf Hwf (or_introl eq_refl) Htl popped_changes).
    intros [[E|E] _]; congruence.
Qed.

Lemma allocproc_wp use slot k np n :
  vm_wf use slot k -> k_held k = [] -> free_pages k (6 + n) -> first_unused k np ->
  Z.of_nat (length (k_procs k)) = NPROC -> p_pagetable (k_procs k !!! np) = 0 ->
  wp allocproc (fun res k' => res = Some np /\ exists use' r tf, alloced use slot k np r tf n use' k') k.
Proof.
  intros Hwf Hh Hfree Hfirst Hlen Hpt. pose proof Hfirst as (Hnp & Hst & Hf).
  assert (Hl : (np < length (k_procs k))%nat) by lia.
  assert (Hlk : L_kmem ∉ k_held k) by (rewrite Hh; set_solver).
  destruct (alloc_trapframe use slot k np (5 + n) Hwf Hlk Hfree) as (HwfB & HfB & Hu & Hpg & HrB & HvB & HsB).
  unfold allocproc. wp_step. eapply wp_mono; [by apply (allocproc_scan k np)|].
  intros res k1 [-> ->]. unfold allocproc_found, allocpid. wp_run. kproj.
  pose proof (page_ok_pos _ Hpg).
  eapply wp_Ret; [apply kalloc_pop; kproj; [addr|set_solver]|]. cbv beta. wp_step. wp_step. kproj.
  rewrite (proj2 (Z.eqb_neq _ 0)) by addr.
  match goal with |- wp _ _ ?x => assert (EB : x = trapframed k np) end.
  { unfold trapframed, popped. kext.
    rewrite ?list_alter_alter_eq. apply list_alter_ext; [|done]. intros x _. by destruct x. }
  rewrite EB. clear EB. wp_step. set (kB := trapframed k np) in *. set (tf := k_freelist k) in *.
  set (useB := fupd tf Other use) in *.
  assert (HhB : k_held kB = [L_proc np]) by (subst kB; unfold trapframed; by kproj).
  assert (HpB : forall j, k_procs kB !!! j = if decide (j = np)
            then (k_procs k !!! np) <| p_pid := k_nextpid k |> <| p_state := USED |> <| p_trapframe := tf |>
            else k_procs k !!! j).
  { intros j. subst kB. unfold trapframed, popped. kproj. rewrite lookup_total_alter by done.
    do 2 case_decide; subst; done. }
  assert (HlB : length (k_procs kB) = length (k_procs k)) by (subst kB; unfold trapframed; kproj; apply length_alter).
  assert (HrestB : same_rest k kB) by (subst kB; unfold same_rest, trapframed, popped; kext).
  assert (HpidB : k_nextpid kB = i32 (k_nextpid k + 1)) by (subst kB; unfold trapframed; by kproj).
  clearbody kB.
  assert (EtfB : p_trapframe (k_procs kB !!! np) = tf) by (by rewrite HpB, decide_True).
  assert (HulB : vm_unlocked kB) by (unfold vm_unlocked; rewrite HhB; set_solver).
  eapply wp_mono; [apply wp_keeps; [apply (proc_pagetable_wp useB slot kB np n); rewrite ?EtfB; try done|apply proc_pagetable_keeps]|].
  { apply fupd_eq. }
  intros r k2 ((use2 & Hwf2 & [U2 S2 C2] & Hf2 & Hur & Hpr & Hroot2 & Hv2 & He2) & [M1 M2 M3]).
  pose proof (page_ok_pos _ Hpr). rewrite (proj2 (Z.eqb_neq r 0)) by addr. wp_step. wp_step. wp_step. wp_step. wp_step.
  assert (Hne : r <> tf) by (intros ->; subst useB; by rewrite fupd_eq in Hur).
  split; [done|]. exists use2, r, tf.
  assert (Hl2 : (np < length (k_procs k2))%nat) by (rewrite M2, HlB; done).
  assert (HuB : forall x, use x <> Free -> useB x = use x) by (intros x Hx; subst useB; apply fupd_ne; congruence).
  split; kproj; rewrite ?length_alter.
  - eapply (vm_wf_ext _ _ k2); [done|kproj; done..|]. intros q Hq. kproj.
    destruct (decide (q = np)) as [->|Hqn]; [|by rewrite !lookup_total_alter_ne].
    exfalso. rewrite (M3 np), HpB, decide_True in Hq by done. cbn in Hq. rewrite Hpt in Hq. by eapply not_root_0.
  - exact Hf2.
  - intros x Hx. rewrite U2; [by apply HuB|]. by rewrite HuB.
  - intros r'. by rewrite Hroot2, HrB.
  - subst useB. by rewrite fupd_ne in Hur.
  - split; [done|]. split; [|done]. rewrite U2; subst useB; by rewrite fupd_eq.
  - intros r' va Hr' Hva. rewrite Hv2 by (by apply HrB || done). by apply HvB.
  - eapply same_solid_trans; [exact HuB|exact HsB|exact S2].
  - exact He2.
  - rewrite !lookup_total_alter, !decide_True by (rewrite ?length_alter; done).
    unfold same_stats, newproc. rewrite (M3 np), HpB, decide_True by done. by destruct (k_procs k !!! np).
  - intros j Hj. rewrite !lookup_total_alter_ne by done. specialize (M3 j). by rewrite HpB, decide_False in M3.
  - lia.
  - by rewrite (cm_held _ _ C2).
  - rewrite M1. kproj. done.
  - etransitivity; [exact HrestB|]. unfold same_rest. rewrite M1 at 1. kext. by rewrite M1.
Qed.

(** ** What a user program can see *)
Definition uview (m : memory) (r va : Z) : option (Z * Z) :=
  match view m r va with
  | Some (fl, b) => if has fl PTE_U then Some (fl, b) else None
  | None => None
  end.

(** Writing a page of the kernel, such as a trap frame, is invisible. *)
Lemma kernel_page_uview use slot k P m' r va :
  vm_wf use slot k -> use P = Other -> page_ok P -> changes (k_mem k) m' 0 P ->
  is_root use r -> 0 <= va < MAXVA -> uview m' r va = uview (k_mem k) r va.
Proof.
  intros Hwf HO Hpg Hch Hr Hva. destruct (page_other _ _ Hpg HO) as (HPl & HP0 & HPh).
  assert (Hsc : scratch use (k_swap_mask k) P) by (split; [done|]; left; do 3 right; done).
  pose proof (scratch_pte Hwf Hsc Hch r va Hr Hva) as Epte. unfold uview.
  destruct (has (pte_of (k_mem k) r va) PTE_V) eqn:HV; [destruct (has (pte_of (k_mem k) r va) PTE_U) eqn:HU|].
  - rewrite (view_user Hwf (or_introl eq_refl) Hsc Hch r va) by (done || addr || by right). done.
  - assert (has (PTE_FLAGS (pte_of (k_mem k) r va)) PTE_U = false) as E by (unfold PTE_U in *; by rewrite has_flags).
    unfold view. rewrite Epte, HV. by rewrite E.
  - rewrite (view_user Hwf (or_introl eq_refl) Hsc Hch r va) by (done || addr || by left). done.
Qed.

Lemma kernel_page_wf use slot k P m' :
  vm_wf use slot k -> use P = Other -> page_ok P -> changes (k_mem k) m' 0 P -> mem_ok m' ->
  vm_wf use slot (k <| k_mem := m' |>).
Proof.
  intros Hwf HO Hpg Hch Hok. destruct (page_other _ _ Hpg HO) as (HPl & HP0 & HPh).
  eapply scratch_wf; [done| |by rewrite HO|done|done]. split; [done|]. left. do 3 right. done.
Qed.

(** ** Open files *)

(** The file table once each file of [o] has one more reference. *)
Definition dup_refs (o : list (option nat)) (fs : list file) : list file :=
  foldl (fun fs f => match f with Some f => alter (set fl_ref (fun r => r + 1)) f fs | None => fs end) fs o.

Lemma dup_refs_snoc o f fs : dup_refs (o ++ [f]) fs =
  match f with Some f => alter (set fl_ref (fun r => r + 1)) f (dup_refs o fs) | None => dup_refs o fs end.
Proof. unfold dup_refs. by rewrite foldl_app. Qed.

(** The number of references each file gains. *)
Lemma dup_refs_count o fs f : (f < length fs)%nat ->
  fl_ref (dup_refs o fs !!! f) = fl_ref (fs !!! f) + Z.of_nat (length (filter (fun x => x = Some f) o)).
Proof.
  intros Hf. induction o as [|x o IH] using rev_ind; [cbn; lia|]. rewrite dup_refs_snoc, filter_app, length_app.
  assert (Hlen : length (dup_refs o fs) = length fs).
  { clear. induction o as [|x o IH] using rev_ind; [done|]. rewrite dup_refs_snoc. destruct x; by rewrite ?length_alter. }
  destruct x as [g|]; [|rewrite IH, filter_cons_False by done; cbn; lia].
  destruct (decide (g = f)) as [->|Hne].
  - rewrite lookup_total_alter, decide_True, filter_cons_True by (done || lia). cbn. rewrite IH. lia.
  - rewrite lookup_total_alter_ne, IH by done. rewrite filter_cons_False by congruence. cbn. lia.
Qed.

Lemma dup_refs_mono o fs f : fl_ref (fs !!! f) <= fl_ref (dup_refs o fs !!! f).
Proof.
  induction o as [|x o IH] using rev_ind; [done|]. rewrite dup_refs_snoc. destruct x as [g|]; [|done].
  destruct (alter_total (set fl_ref (fun r => r + 1)) g (dup_refs o fs) f) as [->| ->]; [done|]. cbn. lia.
Qed.

(** The open files of a process and its directory are in use. *)
Record files_ok (p : nat) (k : kernel) : Prop := {
  fo_len : length (p_ofile (k_procs k !!! p)) = Z.to_nat NOFILE;
  fo_ref fd f : aget (p_ofile (k_procs k !!! p)) fd = Some f -> 1 <= fl_ref (k_files k !!! f);
  fo_cwd : exists c, p_cwd (k_procs k !!! p) = Some c
}.

(** The state of the loop over the descriptors after [i] of them. *)
Definition files_dupped (o : list (option nat)) (np : nat) (i : nat) (k : kernel) : kernel :=
  k <| k_files ::= dup_refs (take i o) |>
    <| k_procs ::= alter (set p_ofile (fun x => take i o ++ drop i x)) np |>.

Lemma set_ofile_ext x f g : f (p_ofile x) = g (p_ofile x) -> set p_ofile f x = set p_ofile g x.
Proof. intros E. unfold set, set_p_ofile. by rewrite E. Qed.
Lemma set_ofile_set x f g : set p_ofile f (set p_ofile g x) = set p_ofile (fun o => f (g o)) x.
Proof. by destruct x. Qed.

Lemma files_dupped_none o np i k : o !! i = Some None ->
  p_ofile (k_procs k !!! np) = replicate (length o) None -> files_dupped o np i k = files_dupped o np (S i) k.
Proof.
  intros Hi Hnp. unfold files_dupped. rewrite (take_S_r _ _ _ Hi). pose proof (lookup_lt_Some _ _ _ Hi).
  kext; [|by rewrite dup_refs_snoc].
  destruct (decide (np < length (k_procs k))%nat) as [Hl|Hl];
    [|apply list_eq; intros j; destruct (decide (np = j)) as [->|]; [|by rewrite !list_lookup_alter_ne];
      rewrite !list_lookup_alter_eq; by rewrite lookup_ge_None_2 by lia].
  destruct (lookup_lt_is_Some_2 _ _ Hl) as [x Hx]. apply list_alter_ext; [|done].
  intros y Hy. assert (y = x) as -> by congruence. rewrite (list_lookup_total_correct _ _ _ Hx) in Hnp.
  apply set_ofile_ext. rewrite Hnp. rewrite <- app_assoc. f_equal.
  rewrite !drop_replicate. by replace (length o - i)%nat with (S (length o - S i)) by lia.
Qed.

Lemma files_dupped_some o np i f k : o !! i = Some (Some f) ->
  p_ofile (k_procs k !!! np) = replicate (length o) None ->
  (files_dupped o np i k) <| k_files ::= alter (set fl_ref (fun r => r + 1)) f |>
    <| k_procs ::= alter (set p_ofile (aset (Z.of_nat i) (Some f))) np |> = files_dupped o np (S i) k.
Proof.
  intros Hi Hnp. unfold files_dupped. rewrite (take_S_r _ _ _ Hi). pose proof (lookup_lt_Some _ _ _ Hi).
  kext; [|by rewrite dup_refs_snoc]. rewrite list_alter_alter_eq.
  destruct (decide (np < length (k_procs k))%nat) as [Hl|Hl];
    [|apply list_eq; intros j; destruct (decide (np = j)) as [->|]; [|by rewrite !list_lookup_alter_ne];
      rewrite !list_lookup_alter_eq; by rewrite lookup_ge_None_2 by lia].
  destruct (lookup_lt_is_Some_2 _ _ Hl) as [x Hx]. apply list_alter_ext; [|done].
  intros y Hy. assert (y = x) as -> by congruence. rewrite (list_lookup_total_correct _ _ _ Hx) in Hnp.
  unfold compose. rewrite set_ofile_set. apply set_ofile_ext. rewrite Hnp. unfold aset. rewrite Nat2Z.id. rewrite <- app_assoc.
  rewrite !drop_replicate. replace (length o - i)%nat with (S (length o - S i)) by lia. cbn [replicate app].
  rewrite insert_app_r_alt by (rewrite length_take; lia). rewrite length_take.
  by replace (i - i `min` length o)%nat with 0%nat by lia.
Qed.

Lemma kfork_files_wp p np k c : p <> np -> files_ok p k -> p_cwd (k_procs k !!! p) = Some c ->
  L_ftable ∉ k_held k -> L_itable ∉ k_held k ->
  let o := p_ofile (k_procs k !!! p) in
  p_ofile (k_procs k !!! np) = replicate (length o) None ->
  wp (kfork_files p np) (fun _ k' => k' = (files_dupped o np (length o) k)
     <| k_inodes ::= alter (set i_ref (fun r => r + 1)) c |>
     <| k_procs ::= alter (set p_cwd (fun _ => Some c)) np |>) k.
Proof.
  intros Hne [Hlen Href _] Hc Hlf Hli o Hnp. unfold kfork_files. wp_step.
  assert (Hp : forall i, k_procs (files_dupped o np i k) !!! p = k_procs k !!! p)
    by (intros i; unfold files_dupped; kproj; by rewrite lookup_total_alter_ne).
  assert (Hh : forall i, k_held (files_dupped o np i k) = k_held k) by done.
  eapply wp_mono; [apply (wp_for_range _ 0 _ (fun i k' => k' = files_dupped o np (Z.to_nat i) k))|].
  - unfold files_dupped. change (Z.to_nat 0) with 0%nat. rewrite take_0. kext. symmetry.
    apply list_alter_id. intros x. by destruct x.
  - intros i k' Hi ->. wp_step. unfold getp. wp_step. rewrite Hp. fold o.
    assert (Hio : (Z.to_nat i < length o)%nat) by (subst o; rewrite Hlen; lia).
    destruct (lookup_lt_is_Some_2 _ _ Hio) as [[f|] Ho].
    + assert (Ea : aget o i = Some f) by (unfold aget; by apply list_lookup_total_correct).
      rewrite Ea. unfold filedup, getf, updf.
      assert (Hr : 1 <= fl_ref (k_files (files_dupped o np (Z.to_nat i) k) !!! f)).
      { unfold files_dupped. kproj. etransitivity; [by eapply Href|apply dup_refs_mono]. }
      wp_step. wp_step. apply wp_acquire; [by rewrite Hh|]. wp_step. wp_step. kproj.
      rewrite (proj2 (Z.ltb_ge _ _)) by lia. wp_step. wp_step. wp_step. apply wp_release; [held|]. wp_step. wp_step.
      replace (Z.to_nat (i + 1)) with (S (Z.to_nat i)) by lia. rewrite <- (files_dupped_some _ _ _ _ _ Ho Hnp).
      rewrite Z2Nat.id by lia. kext. rewrite Hh. by rewrite unlocked_top.
    + assert (Ea : aget o i = None) by (unfold aget; by apply list_lookup_total_correct).
      rewrite Ea. apply wp_ret. replace (Z.to_nat (i + 1)) with (S (Z.to_nat i)) by lia. by apply files_dupped_none.
  - intros [] k' ->. rewrite Z.add_0_l, Nat2Z.id. wp_step. unfold getp. wp_step. rewrite Hp, Hc. cbn [deref].
    wp_step. wp_step. wp_step. unfold idup, updi. wp_step. apply wp_acquire; [by rewrite Hh|].
    wp_step. wp_step. wp_step. apply wp_release; [held|]. wp_step. unfold updp. wp_step.
    replace (Z.to_nat NOFILE) with (length o) by done. kext. rewrite Hh. by rewrite unlocked_top.
Qed.

(** ** fork *)

(** The process [p] calls fork, and [np] is the first free slot of the table. *)
Record fork_ready (use : Z -> usage) (slot : Z -> option (Z * Z)) (p np : nat) (k : kernel) : Prop := {
  fk_wf : vm_wf use slot k;
  fk_held : k_held k = [];
  fk_cur : k_cur k = Some p;
  fk_running : p_state (k_procs k !!! p) = RUNNING;
  fk_files : files_ok p k;
  fk_root : is_root use (p_pagetable (k_procs k !!! p));
  fk_sz : 0 <= p_sz (k_procs k !!! p) <= TRAPFRAME;
  fk_tf : use (p_trapframe (k_procs k !!! p)) = Other /\ page_ok (p_trapframe (k_procs k !!! p));
  fk_first : first_unused k np;
  fk_len : Z.of_nat (length (k_procs k)) = NPROC;
  fk_slot : p_pagetable (k_procs k !!! np) = 0 /\ p_sz (k_procs k !!! np) = 0 /\
            p_ofile (k_procs k !!! np) = replicate (Z.to_nat NOFILE) None;
  fk_queues : queues_wf k
}.

(** [np] is a child of [p], which called fork in state [k]. *)
Record child_of (use : Z -> usage) (k : kernel) (p np : nat) (use' : Z -> usage) (k' : kernel)
    (x := k_procs k !!! p) (c := k_procs k' !!! np) : Prop := {
  ch_proc : p_state c = RUNNABLE /\ p_pid c = k_nextpid k /\ p_parent c = Some p /\ p_sz c = p_sz x /\
            p_ofile c = p_ofile x /\ p_cwd c = p_cwd x;
  ch_table : is_root use' (p_pagetable c) /\ ~ is_root use (p_pagetable c);
  ch_mem va : 0 <= va < p_sz x -> uview (k_mem k') (p_pagetable c) va = uview (k_mem k) (p_pagetable x) va;
  ch_regs i : 0 <= i < TF_size ->
    k_mem k' (p_trapframe c + i) = if decide (TF_a 0 <= i < TF_a 0 + 8) then 0 else k_mem k (p_trapframe x + i);
  ch_refs : k_files k' = dup_refs (p_ofile x) (k_files k);
  ch_cwd : exists d, p_cwd x = Some d /\ k_inodes k' = alter (set i_ref (fun r => r + 1)) d (k_inodes k);
  ch_queue : k_pqueue k' = aupd 0 (push_queue np) (k_pqueue k);
  ch_views r va : is_root use r -> 0 <= va < MAXVA -> uview (k_mem k') r va = uview (k_mem k) r va;
  ch_others j : j <> np -> same_stats (k_procs k !!! j) (k_procs k' !!! j);
  ch_held : k_held k' = []
}.

Lemma uview_view m m' r r' va : view m r va = view m' r' va -> uview m r va = uview m' r' va.
Proof. unfold uview. by intros ->. Qed.

(** The trap frame of the child: a copy of the parent's, with 0 in [a0]. *)
Definition child_frame (m : memory) (dst src : Z) : memory := st64 (memmove m dst src TF_size) (dst + TF_a 0) 0.

Lemma child_frame_spec m dst src : mem_ok m ->
  mem_ok (child_frame m dst src) /\ changes m (child_frame m dst src) 0 dst /\
  forall i, 0 <= i < TF_size ->
    child_frame m dst src (dst + i) = if decide (TF_a 0 <= i < TF_a 0 + 8) then 0 else m (src + i).
Proof.
  intros Hm. unfold child_frame. split; [|split].
  - apply st64_ok, memmove_ok; done.
  - intros x _ Hx. unfold TF_size, TF_a, PGSIZE in *. rewrite st64_out by lia. apply memmove_out; [done|lia|lia].
  - intros i Hi. case_decide as E.
    + replace (dst + i) with (dst + TF_a 0 + (i - TF_a 0)) by lia. apply st64_zero. lia.
    + rewrite st64_out by lia. rewrite memmove_in by (done || lia). f_equal. lia.
Qed.

(** [kfork] after the child has its memory. *)
Definition kfork_rest (p np : nat) : KM Z :=
  do! kfork_swapcopy np;
  let! pr := getp p in
  let! npr := getp np in
  do! updp np (set p_sz (fun _ => p_sz pr));
  do! kmemmove (p_trapframe npr) (p_trapframe pr) TF_size;
  do! store64 (p_trapframe npr + TF_a 0) 0;
  do! kfork_files p np;
  let! pr := getp p in
  do! updp np (set p_name (safestrcpy_bytes (p_name pr) 16));
  let! npr := getp np in
  let pid := p_pid npr in
  do! release (L_proc np);
  do! acquire L_wait;
  do! updp np (set p_parent (fun _ => Some p));
  do! release L_wait;
  do! acquire (L_proc np);
  do! updp np (set p_state (fun _ => RUNNABLE));
  do! push_proc np;
  do! release (L_proc np);
  ret pid.

Definition forked (p np c : nat) (k : kernel) (x := k_procs k !!! p) : kernel :=
  k <| k_mem := child_frame (k_mem k) (p_trapframe (k_procs k !!! np)) (p_trapframe x) |>
    <| k_files ::= dup_refs (p_ofile x) |>
    <| k_inodes ::= alter (set i_ref (fun r => r + 1)) c |>
    <| k_procs ::= alter (fun y => y <| p_sz := p_sz x |> <| p_ofile := p_ofile x |> <| p_cwd := Some c |>
                         <| p_name ::= safestrcpy_bytes (p_name x) 16 |> <| p_parent := Some p |>
                         <| p_state := RUNNABLE |>) np |>
    <| k_pqueue ::= aupd 0 (push_queue np) |>
    <| k_held := [] |>.

Lemma kfork_rest_wp p np c k (x := k_procs k !!! p) (y := k_procs k !!! np) :
  p <> np -> (np < length (k_procs k))%nat -> k_held k = [L_proc np] -> p_sz y = 0 -> p_qlevel y = 0 ->
  files_ok p k -> p_cwd x = Some c -> p_ofile y = replicate (length (p_ofile x)) None -> queues_wf k ->
  kfork_rest p np k = Ret (p_pid y) (forked p np c k).
Proof.
  intros Hne Hl Hh Hs Hql Hfo Hc Ho Hq. apply wp_eq. unfold kfork_rest. wp_step.
  eapply (wp_Ret _ _ _ tt k).
  { unfold kfork_swapcopy. apply wp_eq. wp_step. unfold getp. wp_step. fold y. rewrite Hs. done. }
  wp_step. unfold getp. wp_step. wp_step. wp_step. wp_step. unfold updp. wp_step. wp_step. unfold kmemmove. wp_step.
  wp_step. unfold store64. wp_step. fold x y. wp_step.
  match goal with |- wp _ _ ?z => set (k1 := z) end.
  assert (Ex : k_procs k1 !!! p = x) by (subst k1; kproj; by rewrite lookup_total_alter_ne).
  assert (Ey : k_procs k1 !!! np = y <| p_sz := p_sz x |>) by (subst k1; kproj; by rewrite lookup_total_alter, decide_True).
  assert (Hfo1 : files_ok p k1) by (destruct Hfo; split; rewrite ?Ex; done).
  eapply wp_mono; [apply (kfork_files_wp p np k1 c); rewrite ?Ex, ?Ey; try done; subst k1; kproj; rewrite Hh; set_solver|].
  rewrite Ex. intros [] k2 ->. set (o := p_ofile x) in *. match goal with |- wp _ _ ?z => set (k2 := z) end.
  assert (Ep2 : k_procs k2 = alter (fun y => y <| p_sz := p_sz x |> <| p_ofile := o |> <| p_cwd := Some c |>) np (k_procs k)).
  { subst k2 k1. unfold files_dupped. kproj. rewrite !list_alter_alter_eq. apply list_alter_ext; [|done].
    intros z Hz. assert (Ez : z = y) by (subst y; by rewrite (list_lookup_total_correct _ _ _ Hz)). subst z. unfold compose.
    rewrite firstn_all. rewrite (set_ofile_ext _ _ (fun _ => o)); [by destruct y|].
    change (p_ofile (set p_sz (fun _ => p_sz x) y)) with (p_ofile y). rewrite Ho.
    by rewrite drop_ge, app_nil_r by (rewrite length_replicate; lia). }
  assert (Hh2 : k_held k2 = [L_proc np]) by (subst k2 k1; unfold files_dupped; by kproj).
  assert (Eq2 : k_pqueue k2 = k_pqueue k) by (subst k2 k1; unfold files_dupped; by kproj).
  assert (E2 : k2 = k <| k_mem := child_frame (k_mem k) (p_trapframe y) (p_trapframe x) |> <| k_files ::= dup_refs o |>
      <| k_inodes ::= alter (set i_ref (fun r => r + 1)) c |> <| k_procs := k_procs k2 |>).
  { subst k2 k1. unfold files_dupped. kext. by rewrite firstn_all. }
  clearbody k2. wp_step. wp_step. wp_step. wp_step. wp_step. wp_step. rewrite Ep2, lookup_total_alter_ne by done. fold x.
  wp_step. apply wp_release; [held|]. wp_step. apply wp_acquire; [held|].
  wp_step. wp_step. wp_step. apply wp_release; [held|]. wp_step. apply wp_acquire; [held|].
  wp_step. wp_step. wp_step. eapply wp_Ret.
  { apply (push_proc_eq np _ 0); [..|done]; kproj.
    - rewrite Ep2, !list_alter_alter_eq, lookup_total_alter, decide_True by done. done.
    - rewrite Hh2, !unlocked_top by set_solver. set_solver.
    - by unfold queues_wf; kproj; rewrite Eq2. }
  wp_step. apply wp_release; [held|]. wp_step. split.
  - kproj. rewrite Ep2, !list_alter_alter_eq, lookup_total_alter, decide_True by done. done.
  - unfold forked. fold x y o. rewrite Ep2 in E2. clear Ep2 Eq2 Hh2. subst k2. kext.
    + rewrite !list_alter_alter_eq. apply list_alter_ext; [|done]. intros z _. by destruct z.
    + rewrite Hh, !unlocked_top by set_solver. done.
Qed.


(** From the state in which the child has its memory to the one [kfork]
    returns in. *)
Section Done.
Context (use : Z -> usage) (slot : Z -> option (Z * Z)) (k : kernel) (p np c : nat) (r tf : Z) (n : nat).
Context (use1 : Z -> usage) (k1 : kernel) (use2 : Z -> usage) (k2 : kernel).
Let x := k_procs k !!! p.
Let old := p_pagetable x.
Let N := pages_between 0 (p_sz x).
Hypothesis Hready : fork_ready use slot p np k.
Hypothesis Hcwd : p_cwd x = Some c.
Hypothesis Hal : alloced use slot k np r tf n use1 k1.
Hypothesis Hwf2 : vm_wf use2 slot k2.
Hypothesis Hco : copied use1 k1 old r 0 (Z.of_nat N) use2 k2.
Hypothesis Hmo : mem_only k1 k2.

Lemma done_parent : same_stats x (k_procs k2 !!! p).
Proof.
  destruct Hready as [_ _ _ Hrun _ _ _ _ (_ & Hun & _) _ _ _].
  assert (p <> np) by (intros ->; congruence).
  etransitivity; [by apply (al_other _ _ _ _ _ _ _ _ _ Hal)|apply (mo_stats _ _ Hmo)].
Qed.

Lemma done_child : same_stats (newproc (k_nextpid k) tf r (k_procs k !!! np)) (k_procs k2 !!! np).
Proof. etransitivity; [apply (al_child _ _ _ _ _ _ _ _ _ Hal)|apply (mo_stats _ _ Hmo)]. Qed.

Lemma done_tf : use2 tf = Other /\ page_ok tf /\ use2 (p_trapframe x) = Other.
Proof.
  destruct (al_tf _ _ _ _ _ _ _ _ _ Hal) as (_ & T1 & T2). split; [|split; [done|]].
  - rewrite (co_use _ _ _ _ _ _ _ _ Hco); [done|congruence].
  - pose proof (proj1 (fk_tf _ _ _ _ _ Hready)) as E. fold x in E.
    assert (E1 : use1 (p_trapframe x) = Other) by (rewrite (al_use _ _ _ _ _ _ _ _ _ Hal); congruence).
    rewrite (co_use _ _ _ _ _ _ _ _ Hco); congruence.
Qed.

(** The parent's trap frame has not changed. *)
Lemma done_frame i : 0 <= i < TF_size -> k_mem k2 (p_trapframe x + i) = k_mem k (p_trapframe x + i).
Proof.
  intros Hi. destruct (fk_tf _ _ _ _ _ Hready) as [E Hpg]. fold x in E, Hpg.
  destruct (page_other _ _ Hpg E) as (Hl & H0 & Hm).
  assert (Hin : p_trapframe x <= p_trapframe x + i < p_trapframe x + PGSIZE) by (unfold TF_size, PGSIZE in *; lia).
  rewrite (co_solid _ _ _ _ _ _ _ _ Hco (p_trapframe x)), (al_solid _ _ _ _ _ _ _ _ _ Hal (p_trapframe x)); try done.
  - split; [by right|done].
  - split; [right; rewrite (al_use _ _ _ _ _ _ _ _ _ Hal); congruence|done].
Qed.

Lemma done_root_ne rr : is_root use rr -> rr <> r /\ is_root use1 rr.
Proof.
  intros Hr. destruct (al_new _ _ _ _ _ _ _ _ _ Hal) as [E _]. split.
  - intros ->. unfold is_root in Hr. congruence.
  - by apply (al_root _ _ _ _ _ _ _ _ _ Hal); left.
Qed.

Lemma done_views rr va : is_root use rr -> 0 <= va < MAXVA -> view (k_mem k2) rr va = view (k_mem k) rr va.
Proof.
  intros Hr Hva. destruct (done_root_ne _ Hr) as [Hne H1].
  rewrite (co_view _ _ _ _ _ _ _ _ Hco), decide_False by (done || tauto).
  by apply (al_views _ _ _ _ _ _ _ _ _ Hal).
Qed.

Lemma done_copy va : 0 <= va < p_sz x -> view (k_mem k2) r va = view (k_mem k) old va.
Proof.
  intros Hva. pose proof (fk_sz _ _ _ _ _ Hready) as Hsz. fold x in Hsz.
  assert (Hm : 0 <= va < MAXVA) by (unfold TRAPFRAME, TRAMPOLINE, PGSIZE in *; lia).
  rewrite (co_view _ _ _ _ _ _ _ _ Hco); [|by apply (al_root _ _ _ _ _ _ _ _ _ Hal); right|done].
  rewrite decide_True; [apply (al_views _ _ _ _ _ _ _ _ _ Hal); [apply (fk_root _ _ _ _ _ Hready)|done]|].
  split; [done|]. subst N. unfold pages_between. daddr.
Qed.

Lemma done_mem : k_mem (forked p np c k2) = child_frame (k_mem k2) tf (p_trapframe x).
Proof. unfold forked. kproj. by rewrite done_parent, done_child. Qed.

Lemma done_wf : vm_wf use2 slot (forked p np c k2).
Proof.
  destruct done_tf as (T1 & T2 & T3). destruct (child_frame_spec (k_mem k2) tf (p_trapframe x)) as (M1 & M2 & _); [apply (wf_mem _ _ _ Hwf2)|].
  eapply vm_wf_ext; [apply (kernel_page_wf use2 slot k2 tf _ Hwf2 T1 T2 M2 M1)|apply done_mem|done..|].
  intros i _. unfold forked. kproj. by destruct (alter_total
    (fun y => y <| p_sz := p_sz (k_procs k2 !!! p) |> <| p_ofile := p_ofile (k_procs k2 !!! p) |> <| p_cwd := Some c |>
       <| p_name ::= safestrcpy_bytes (p_name (k_procs k2 !!! p)) 16 |> <| p_parent := Some p |>
       <| p_state := RUNNABLE |>) np (k_procs k2) i) as [->| ->].
Qed.

Lemma done_uview rr va : is_root use2 rr -> 0 <= va < MAXVA ->
  uview (k_mem (forked p np c k2)) rr va = uview (k_mem k2) rr va.
Proof.
  intros Hr Hva. rewrite done_mem. destruct done_tf as (T1 & T2 & T3).
  destruct (child_frame_spec (k_mem k2) tf (p_trapframe x)) as (_ & M2 & _); [apply (wf_mem _ _ _ Hwf2)|].
  by apply (kernel_page_uview use2 slot k2 tf).
Qed.

Lemma done_root rr : is_root use2 rr <-> is_root use rr \/ rr = r.
Proof. rewrite (co_root _ _ _ _ _ _ _ _ Hco). apply (al_root _ _ _ _ _ _ _ _ _ Hal). Qed.

Lemma done_slot : (np < length (k_procs k2))%nat.
Proof.
  rewrite (mo_len _ _ Hmo), (al_len _ _ _ _ _ _ _ _ _ Hal). pose proof (fk_len _ _ _ _ _ Hready).
  destruct (fk_first _ _ _ _ _ Hready). lia.
Qed.

Lemma done_rest : same_rest k k2.
Proof. etransitivity; [apply (al_rest _ _ _ _ _ _ _ _ _ Hal)|by apply mem_only_rest]. Qed.

Lemma done_child_of : child_of use k p np use2 (forked p np c k2).
Proof.
  pose proof done_slot as Hl. pose proof done_rest as Hr.
  assert (Hc : k_procs (forked p np c k2) !!! np = (k_procs k2 !!! np) <| p_sz := p_sz x |> <| p_ofile := p_ofile x |>
    <| p_cwd := Some c |> <| p_name ::= safestrcpy_bytes (p_name x) 16 |> <| p_parent := Some p |> <| p_state := RUNNABLE |>).
  { unfold forked. kproj. rewrite lookup_total_alter, decide_True by done. by rewrite done_parent. }
  assert (Hpt : p_pagetable (k_procs (forked p np c k2) !!! np) = r) by (rewrite Hc, done_child; done).
  assert (Htf : p_trapframe (k_procs (forked p np c k2) !!! np) = tf) by (rewrite Hc, done_child; done).
  split; fold x; rewrite ?Hpt, ?Htf.
  - rewrite Hc, done_child, Hcwd. done.
  - split; [apply done_root; by right|]. intros H. by apply done_root_ne in H as [? _].
  - intros va Hva. rewrite done_uview by (rewrite ?done_root; auto; pose proof (fk_sz _ _ _ _ _ Hready);
      unfold x, TRAPFRAME, TRAMPOLINE, PGSIZE in *; lia). by apply uview_view, done_copy.
  - intros i Hi. rewrite done_mem. rewrite (proj2 (proj2 (child_frame_spec _ _ _ (wf_mem _ _ _ Hwf2)))) by done.
    case_decide; [done|]. by apply done_frame.
  - unfold forked. kproj. rewrite done_parent, Hr. done.
  - exists c. split; [done|]. unfold forked. kproj. by rewrite Hr.
  - unfold forked. kproj. by rewrite Hr.
  - intros rr va Hrr Hva. rewrite done_uview by (rewrite ?done_root; auto). by apply uview_view, done_views.
  - intros j Hj. unfold forked. kproj. rewrite lookup_total_alter_ne by done.
    etransitivity; [by apply (al_other _ _ _ _ _ _ _ _ _ Hal)|apply (mo_stats _ _ Hmo)].
  - done.
Qed.
End Done.

(** C5. fork makes a true copy.  When the process table has a free slot and
    memory has room for the child (six pages for its tables and trap frame and
    three for each page of the parent), [kfork] returns the new pid, and the
    child is a runnable process queued at the top level whose address space
    reads, byte for byte and with the same permissions, what the parent's read
    at the call, including the pages that were in swap slots; its registers
    are the parent's with 0 in [a0]; every open file and the current directory
    has one more reference; no other process sees a change; and the invariant
    of physical memory holds again, with no page shared between the two. *)
Theorem kfork_spec use slot k p np (N := pages_between 0 (p_sz (k_procs k !!! p))) :
  fork_ready use slot p np k -> free_pages k (6 + 3 * N) ->
  wp kfork (fun pid k' => pid = k_nextpid k /\ exists use', vm_wf use' slot k' /\ child_of use k p np use' k') k.
Proof.
  intros Hready Hfree. pose proof Hready as [Hwf Hh Hcur Hrun Hfo Hroot Hsz _ Hfirst Hlen (Hs1 & Hs2 & Hs3) Hq].
  pose proof Hfirst as (Hnp & Hun & _). assert (Hne : p <> np) by (intros ->; congruence).
  unfold kfork, curproc. wp_step. wp_step. unfold myproc. wp_step. rewrite Hcur. wp_step. wp_step.
  eapply wp_mono; [apply (allocproc_wp use slot k np (3 * N)); done|].
  intros res k1 (-> & use1 & r & tf & Hal). pose proof (al_other _ _ _ _ _ _ _ _ _ Hal p Hne) as Sp.
  pose proof (al_child _ _ _ _ _ _ _ _ _ Hal) as Sc. pose proof (al_held _ _ _ _ _ _ _ _ _ Hal) as Hh1.
  wp_step. unfold getp. wp_step. wp_step. wp_step. wp_step.
  assert (E1 : p_pagetable (k_procs k1 !!! p) = p_pagetable (k_procs k !!! p)) by (by rewrite Sp).
  assert (E2 : p_sz (k_procs k1 !!! p) = p_sz (k_procs k !!! p)) by (by rewrite Sp).
  assert (E3 : p_pagetable (k_procs k1 !!! np) = r) by (by rewrite Sc).
  rewrite E1, E2, E3.
  eapply wp_mono; [apply wp_keeps; [apply (uvmcopy_wp use1 slot k1 (p_pagetable (k_procs k !!! p)) r _ np 0)|apply uvmcopy_keeps]|].
  - apply (al_wf _ _ _ _ _ _ _ _ _ Hal).
  - unfold vm_unlocked. rewrite Hh1. set_solver.
  - fold N. rewrite Nat.add_0_r. apply (al_free _ _ _ _ _ _ _ _ _ Hal).
  - apply (al_root _ _ _ _ _ _ _ _ _ Hal). by left.
  - apply (al_root _ _ _ _ _ _ _ _ _ Hal). by right.
  - by apply (done_root_ne use slot k np r tf _ use1 k1 Hal).
  - unfold TRAPFRAME, TRAMPOLINE, PGSIZE in Hsz. lia.
  - done.
  - intros va Hva HvN. apply (al_empty _ _ _ _ _ _ _ _ _ Hal).
    unfold pages_between in HvN. unfold TRAPFRAME, TRAMPOLINE in *. daddr.
  - intros res k2 ((-> & use2 & Hwf2 & _ & Hco) & Hmo). destruct (fo_cwd _ _ Hfo) as [c Hc].
    change (0 <? 0) with false. cbv iota.
    assert (Sp2 : same_stats (k_procs k !!! p) (k_procs k2 !!! p)) by (eapply done_parent; eassumption).
    assert (Sc2 : same_stats (newproc (k_nextpid k) tf r (k_procs k !!! np)) (k_procs k2 !!! np)) by (eapply done_child; eassumption).
    assert (Hrest : same_rest k k2) by (eapply done_rest; eassumption).
    assert (Hh2 : k_held k2 = [L_proc np]) by (rewrite (cm_held _ _ (co_calm _ _ _ _ _ _ _ _ Hco)); done).
    eapply wp_Ret; [apply (kfork_rest_wp p np c k2); try (by rewrite Sp2); try (by rewrite Sc2); try done|].
    + eapply done_slot; eassumption.
    + destruct Hfo as [F1 F2 F3]. split; rewrite Sp2; [done| |done]. intros fd f Hf. rewrite Hrest. by apply (F2 fd f).
    + rewrite Sp2, Sc2. change (p_ofile (k_procs k !!! np) = replicate (length (p_ofile (k_procs k !!! p))) None).
      by rewrite (fo_len _ _ Hfo).
    + unfold queues_wf. by rewrite Hrest.
    + split; [by rewrite Sc2|]. exists use2. split; [eapply done_wf; eassumption|eapply done_child_of; eassumption].
Qed.
End Fork.

(** fork stores the address of forkret, wherever that is. *)
Definition notext : Text :=
  {| forkret_addr := 0; usertrap_addr := 0; kernelvec_addr := 0; uservec_addr := 0; userret_addr := 0 |}.

Lemma demo_fork_ready : fork_ready demo_use demo_slot 0 1 demo.
Proof.
  split; try done; [apply demo_wf|..].
  - split; [done| |by exists 0%nat].
    intros fd f Hf. assert (f = 0%nat) as ->; [|done]. revert Hf. unfold aget.
    change (p_ofile _) with (aset 0 (Some 0%nat) (replicate (Z.to_nat NOFILE) None)). unfold aset.
    destruct (decide (Z.to_nat fd = 0%nat)) as [->|Hne]; [by intros [= <-]|].
    rewrite list_lookup_total_insert_ne by done. rewrite list_lookup_total_alt.
    destruct (_ !! _) eqn:E; [|done]. apply lookup_replicate in E as [-> _]. done.
  - split; [change (Z.to_nat NPROC) with 64%nat; lia|]. split; [done|]. intros j Hj. by replace j with 0%nat by lia.
  - split; [done|]. repeat constructor; done.
Qed.

Lemma kfork_spec_witness (N := pages_between 0 (p_sz (k_procs demo !!! 0%nat))) : N = 4%nat /\
  wp (kfork (T := notext))
    (fun pid k' => pid = 2 /\ exists use', vm_wf use' demo_slot k' /\ child_of demo_use demo 0 1 use' k') demo.
Proof.
  split; [done|]. apply (kfork_spec demo_use demo_slot demo 0 1); [apply demo_fork_ready|].
  apply demo_free_pages. apply Nat.leb_le. vm_compute. reflexivity.
Defined.
