(* ===== verification/Reap.v ===== *)
(** * wait

    freeproc and kwait of kernel/proc.c: reaping a zombie returns all of its
    memory and its swap slots, and frees its slot of the process table. *)

From Stdlib Require Import ZArith Lia.
From stdpp Require Import base list strings sets.
From S2P Require Import Prelude Params Mem State Evict Kalloc Vm VmInv VmFault VmFaultSpec UserMem VmCopy VmSpace VmFree Demo.
From S2P Require Import Sched SchedSpec MemFrame Sleeplock Printf Bio Log Fs Pipe Console File ProcLife Fork.

Section Reap.
Context {L : Layout} {LO : LayoutOk L} {T : Text}.

(** ** The kernel's pages of an address space *)
Lemma uvmunmap_kernel_eq k r va : 0 <= va < MAXVA -> va mod PGSIZE = 0 -> has (pte_of (k_mem k) r va) PTE_V = true ->
  uvmunmap r va 1 false k = Ret tt (k <| k_mem ::= fun m => st64 m (pte_addr (k_mem k) r va) 0 |>).
Proof.
  intros Hva Hal HV. destruct (pte_of_present (k_mem k) r va 0 ltac:(lia) HV) as [Hne E].
  apply wp_eq. unfold uvmunmap. rewrite Hal. cbn [Z.eqb negb]. change (Z.to_nat 1) with 1%nat. rewrite for_range_S.
  rewrite Z.mul_0_l, Z.add_0_r. unfold uvmunmap_page. wp_step. wp_step.
  eapply wp_Ret; [apply walk_noalloc; lia|]. rewrite (proj2 (Z.eqb_neq _ _)) by done.
  wp_step. unfold load64. wp_step. rewrite <- E, HV. cbn [negb when]. wp_steps. done.
Qed.

(** A page of the kernel that nothing maps belongs to whoever frees it. *)
Lemma other_own use slot k P : vm_wf use slot k -> use P = Other -> page_ok P ->
  (forall r va, is_root use r -> 0 <= va < MAXVA -> has (pte_of (k_mem k) r va) PTE_V = true ->
     PTE2PA (pte_of (k_mem k) r va) <> P) ->
  vm_wf (fupd P Owned use) slot k.
Proof.
  intros Hwf HO Hpg Hno. pose proof (wf_pt _ _ _ Hwf) as Hpt.
  assert (Htab : forall x r l pre, fupd P Owned use x = PTab r l pre <-> use x = PTab r l pre)
    by (intros; unfold fupd; case_decide as E; [by rewrite E, HO|done]).
  split; try apply Hwf.
  - destruct Hpt as [P1 P2 P3 P4 P5 P6 P7 P8].
    split; intros *; rewrite ?Htab; eauto.
    + unfold fupd. case_decide as E; [by rewrite E|apply P1].
    + intros Hb Hl. destruct (P6 _ _ _ _ Hb Hl) as (a' & Ha & ?). exists a'. by rewrite Htab.
  - intros r va Hr%Htab Hva HV. rewrite !fupd_ne by (by apply Hno). by apply (wf_leaf _ _ _ Hwf).
  - destruct (wf_free _ _ _ Hwf) as (l & Hrep & Hnd & Hl). exists l. split; [done|]. split; [done|].
    intros a. rewrite Hl. unfold fupd. case_decide as E; [by rewrite E, HO|done].
  - intros r va Hr%Htab. by apply (wf_swap _ _ _ Hwf).
  - intros j Hj p Hu Hp. destruct (wf_frame _ _ _ Hwf j Hj p Hu Hp) as (Hr & Hva & Hal & HV & Hpa & Hd).
    cbv zeta. unfold is_root. rewrite Htab. rewrite fupd_ne by (by apply Hno). done.
Qed.

(** ** freeproc *)

(** What [freeproc] relies on: [p] has an address space, and its trap frame is
    mapped in it and nowhere else. *)
Record reapable (use : Z -> usage) (slot : Z -> option (Z * Z)) (p : nat) (k : kernel) (x := k_procs k !!! p) : Prop := {
  ra_wf : vm_wf use slot k;
  ra_unlocked : vm_unlocked k;
  ra_slot : (p < length (k_procs k))%nat;
  ra_root : is_root use (p_pagetable x);
  ra_space : user_space use (k_mem k) (p_pagetable x) (p_sz x);
  ra_frame : use (p_trapframe x) = Other /\ page_ok (p_trapframe x);
  ra_mapped r va : is_root use r -> 0 <= va < MAXVA -> has (pte_of (k_mem k) r va) PTE_V = true ->
    PTE2PA (pte_of (k_mem k) r va) = p_trapframe x -> r = p_pagetable x /\ va / PGSIZE = TRAPFRAME / PGSIZE
}.

(** The slot after [freeproc]. *)
Definition cleared (x : proc) : proc :=
  x <| p_trapframe := 0 |> <| p_pagetable := 0 |> <| p_sz := 0 |> <| p_pid := 0 |> <| p_parent := None |>
    <| p_name ::= aset 0 0 |> <| p_chan := CH_none |> <| p_killed := 0 |> <| p_xstate := 0 |> <| p_state := UNUSED |>.

Lemma cleared_stats x q : same_stats (x <| p_trapframe := 0 |>) q -> same_stats (cleared x)
  (q <| p_pagetable := 0 |> <| p_sz := 0 |> <| p_pid := 0 |> <| p_parent := None |> <| p_name ::= aset 0 0 |>
     <| p_chan := CH_none |> <| p_killed := 0 |> <| p_xstate := 0 |> <| p_state := UNUSED |>).
Proof. destruct x, q. intros [=]. subst. reflexivity. Qed.

(** The process in slot [p] of [k] is gone, and its memory is free. *)
Record reaped (use : Z -> usage) (k : kernel) (p : nat) (use' : Z -> usage) (k' : kernel)
    (x := k_procs k !!! p) (r := p_pagetable x) : Prop := {
  rp_tables a l pre : use a = PTab r l pre -> use' a = Free;
  rp_pages va : 0 <= va < MAXVA -> has (pte_of (k_mem k) r va) PTE_V = true ->
    use (PTE2PA (pte_of (k_mem k) r va)) <> Other -> use' (PTE2PA (pte_of (k_mem k) r va)) = Free;
  rp_slots va : 0 <= va < MAXVA -> has (pte_of (k_mem k) r va) PTE_V = false -> has (pte_of (k_mem k) r va) PTE_S = true ->
    aget (k_swap_mask k') (Z.shiftr (pte_of (k_mem k) r va) 10) = 0;
  rp_frame : use' (p_trapframe x) = Free;
  rp_use a : use' a = use a \/ (use' a = Free /\
    (a = p_trapframe x \/ (exists l pre, use a = PTab r l pre) \/ exists vpn, use a = Data r vpn));
  rp_mask i : 0 <= i < MAX_SP -> aget (k_swap_mask k') i = aget (k_swap_mask k) i \/
    (aget (k_swap_mask k') i = 0 /\ exists va, 0 <= va < MAXVA /\
       has (pte_of (k_mem k) r va) PTE_V = false /\ has (pte_of (k_mem k) r va) PTE_S = true /\
       i = Z.shiftr (pte_of (k_mem k) r va) 10);
  rp_root r' : is_root use' r' <-> is_root use r' /\ r' <> r;
  rp_views r' va : is_root use r' -> r' <> r -> 0 <= va < MAXVA -> view (k_mem k') r' va = view (k_mem k) r' va;
  rp_slot : same_stats (cleared x) (k_procs k' !!! p);
  rp_others j : j <> p -> same_stats (k_procs k !!! j) (k_procs k' !!! j);
  rp_held : k_held k' = k_held k;
  rp_rest : same_rest k k'
}.

Section Freeproc.
Context {use : Z -> usage} {slot : Z -> option (Z * Z)} {p : nat} {k : kernel} (Hra : reapable use slot p k).
Let x := k_procs k !!! p.
Let r := p_pagetable x.
Let tf := p_trapframe x.
Let a1 := pte_addr (k_mem k) r TRAMPOLINE.
Let a2 := pte_addr (k_mem k) r TRAPFRAME.
Let m1 := st64 (memset (k_mem k) tf 1 PGSIZE) tf (k_freelist k).
Let kB1 := k <| k_mem ::= fun m => st64 m a1 0 |>.
Let kB := kB1 <| k_mem ::= fun m => st64 m a2 0 |>.
Let mA1 := st64 m1 a1 0.
Let mA := st64 mA1 a2 0.

Lemma frame_vas : 0 <= TRAMPOLINE < MAXVA /\ 0 <= TRAPFRAME < MAXVA /\ TRAMPOLINE / PGSIZE <> TRAPFRAME / PGSIZE /\
  TRAMPOLINE mod PGSIZE = 0 /\ TRAPFRAME mod PGSIZE = 0.
Proof. done. Qed.

Lemma own_wf : vm_wf use slot k.
Proof. apply Hra. Qed.
Lemma own_root : is_root use r.
Proof. apply Hra. Qed.

Lemma kernel_entries va : TRAPFRAME <= va < MAXVA ->
  has (pte_of (k_mem k) r va) PTE_V = true /\ use (PTE2PA (pte_of (k_mem k) r va)) = Other /\ pte_addr (k_mem k) r va <> 0.
Proof.
  intros Hva. destruct (us_kernel _ _ _ _ (ra_space _ _ _ _ Hra) va Hva) as [HV HO].
  split; [done|]. split; [done|]. by destruct (pte_of_present (k_mem k) r va 0 ltac:(lia) HV).
Qed.

(** The address space without the trampoline, and without both. *)
Lemma tramp_step : vm_wf use slot kB1 /\
  unmapped use k r (within (TRAMPOLINE / PGSIZE) (TRAMPOLINE / PGSIZE + 1)) use kB1.
Proof.
  destruct (kernel_entries TRAMPOLINE ltac:(done)) as (HV & HO & _).
  apply unmap_kernel; [apply own_wf|apply own_root|done|done|done].
Qed.

Lemma tramp_pte va : 0 <= va < MAXVA -> va / PGSIZE <> TRAMPOLINE / PGSIZE ->
  pte_of (k_mem kB1) r va = pte_of (k_mem k) r va.
Proof.
  intros Hva Hne. destruct tramp_step as [_ Hum].
  apply (um_pte _ _ _ _ _ _ Hum); [apply own_root|done|]. rewrite within_iff. lia.
Qed.

Lemma tramp_addr va : 0 <= va < MAXVA -> pte_addr (k_mem kB1) r va = pte_addr (k_mem k) r va.
Proof.
  destruct (kernel_entries TRAMPOLINE ltac:(done)) as (_ & _ & Hne).
  apply (entry_addr (v := 0) (P := nopage) own_wf own_root (proj1 frame_vas) Hne (nopage_scratch _ _));
    [|unfold kB1; kproj; by rewrite ld64_st64|apply own_root].
  intros y Hy _. unfold kB1. kproj. apply st64_out. lia.
Qed.

Lemma frame_step : vm_wf use slot kB /\
  unmapped use k r (within (TRAPFRAME / PGSIZE) (TRAMPOLINE / PGSIZE + 1)) use kB.
Proof.
  destruct tramp_step as [Hwf1 Hum1]. destruct (kernel_entries TRAPFRAME ltac:(done)) as (HV & HO & _).
  assert (E : pte_of (k_mem kB1) r TRAPFRAME = pte_of (k_mem k) r TRAPFRAME) by (by apply tramp_pte).
  destruct (unmap_kernel use slot kB1 r TRAPFRAME Hwf1) as [Hwf2 Hum2];
    [apply own_root|done|by rewrite E|by rewrite E|].
  rewrite tramp_addr in Hwf2, Hum2 by done. split; [done|].
  eapply (unmapped_trans use slot k r); [apply own_wf|apply own_root|done|done|].
  intros v. unfold within. change (TRAPFRAME / PGSIZE) with (TRAMPOLINE / PGSIZE - 1). lia.
Qed.

(** The trap frame holds no entry of a page table. *)
Lemma frame_scratch mask : scratch use mask tf.
Proof.
  destruct (ra_frame _ _ _ _ Hra) as [HO Hpg]. destruct (page_other _ _ Hpg HO) as (Hl & _ & Hh).
  split; [done|]. left. do 3 right. done.
Qed.

Lemma tf_apart va : TRAPFRAME <= va < MAXVA ->
  tf + PGSIZE <= pte_addr (k_mem k) r va \/ pte_addr (k_mem k) r va + 8 <= tf.
Proof.
  intros Hva. destruct (kernel_entries va Hva) as (_ & _ & Hne). destruct (ra_frame _ _ _ _ Hra) as [HO Hpg].
  fold x in HO, Hpg. fold tf in HO, Hpg.
  assert (Hva' : 0 <= va < MAXVA) by (assert (0 <= TRAPFRAME) by done; lia).
  destruct (entry_in own_wf own_root Hva' Hne)
    as (b & rb & lb & pb & ib & Hb & Hib & Ea).
  pose proof (page_ok_pos _ (ptab_page (wf_pt _ _ _ own_wf) _ _ _ _ Hb)).
  rewrite Ea. eapply (data_not_table use); [apply (wf_pt _ _ _ own_wf)|exact Hb|congruence|apply Hpg|addr|addr].
Qed.

Lemma mA1_changes : changes (k_mem kB1) mA1 0 tf.
Proof. intros y Hy Hy'. apply st64_zero_same. exact (freed_changes _ _ _ 0 y Hy Hy'). Qed.

Lemma mA_changes : changes (k_mem kB) mA 0 tf.
Proof. intros y Hy Hy'. apply st64_zero_same. exact (mA1_changes y Hy Hy'). Qed.

Lemma mA_ok : mem_ok mA.
Proof. apply st64_ok, st64_ok, junk_ok, (wf_mem _ _ _ own_wf). Qed.

Lemma mA_ld : ld64 mA tf = k_freelist k.
Proof.
  pose proof (tf_apart TRAMPOLINE ltac:(done)). pose proof (tf_apart TRAPFRAME ltac:(done)).
  unfold mA, mA1. rewrite !ld64_st64_out by (unfold a1, a2; addr).
  eapply freed_ld, freelist_range, own_wf.
Qed.

(** The walks after the trap frame is freed. *)
Lemma m1_tramp : pte_addr m1 r TRAMPOLINE = a1 /\ has (pte_of m1 r TRAMPOLINE) PTE_V = true.
Proof.
  pose proof (freed_changes (k_mem k) tf (k_freelist k) 0) as Hch. fold m1 in Hch.
  rewrite (scratch_addr own_wf (frame_scratch _) Hch), (scratch_pte own_wf (frame_scratch _) Hch) by (apply own_root || done).
  split; [done|]. by apply kernel_entries.
Qed.

Lemma mA1_frame : pte_addr mA1 r TRAPFRAME = a2 /\ has (pte_of mA1 r TRAPFRAME) PTE_V = true.
Proof.
  destruct tramp_step as [Hwf1 _].
  rewrite (scratch_addr Hwf1 (frame_scratch _) mA1_changes), (scratch_pte Hwf1 (frame_scratch _) mA1_changes) by (apply own_root || done).
  rewrite tramp_addr, tramp_pte by done. split; [done|]. by apply kernel_entries.
Qed.

Let useC := fupd tf Free (fupd tf Owned use).
Let kC := (freed tf k) <| k_procs ::= alter (set p_trapframe (fun _ => 0)) p |> <| k_mem := mA |>.

Lemma frame_gone r' va : is_root use r' -> 0 <= va < MAXVA -> has (pte_of (k_mem kB) r' va) PTE_V = true ->
  PTE2PA (pte_of (k_mem kB) r' va) <> tf.
Proof.
  intros Hr Hva. destruct frame_step as [_ Hum]. intros HV E.
  destruct (decide (r' = r /\ within (TRAPFRAME / PGSIZE) (TRAMPOLINE / PGSIZE + 1) (va / PGSIZE) = true)) as [[-> Hw]|Hn].
  - destruct (um_gone _ _ _ _ _ _ Hum va Hva Hw). congruence.
  - destruct (um_pte _ _ _ _ _ _ Hum r' va Hr Hva Hn) as [Ep _]. rewrite Ep in HV, E. apply Hn.
    destruct (ra_mapped _ _ _ _ Hra r' va Hr Hva HV E) as [-> Ev]. split; [done|]. rewrite within_iff, Ev. done.
Qed.

Lemma kC_wf : vm_wf useC slot kC.
Proof.
  destruct frame_step as [Hwf _]. destruct (ra_frame _ _ _ _ Hra) as [HO Hpg].
  pose proof (other_own use slot kB tf Hwf HO Hpg frame_gone) as Hwf1.
  pose proof (kfree_wf _ slot kB tf mA Hwf1 (fupd_eq _ _ _) mA_changes mA_ok mA_ld) as Hwf2.
  apply (vm_wf_ext _ _ _ kC Hwf2); unfold kC, kB, kB1, freed; kproj; try reflexivity.
  intros q _. destruct (alter_total (set p_trapframe (fun _ => 0)) p (k_procs k) q) as [E|E]; rewrite E; reflexivity.
Qed.

Lemma useC_keep a : a <> tf -> useC a = use a.
Proof. intros Hne. unfold useC. by rewrite !fupd_ne. Qed.

Lemma useC_ptab a r' l pre : useC a = PTab r' l pre <-> use a = PTab r' l pre.
Proof.
  destruct (ra_frame _ _ _ _ Hra) as [HO _]. fold x in HO. fold tf in HO. unfold useC, fupd. case_decide as E; [|done].
  rewrite E. by rewrite HO.
Qed.

Lemma useC_other a : useC a = Other -> use a = Other.
Proof. unfold useC, fupd. by case_decide. Qed.

(** The entries and the contents of address spaces in [kC]. *)
Lemma kC_pte r' va : is_root use r' -> 0 <= va < MAXVA -> pte_of (k_mem kC) r' va = pte_of (k_mem kB) r' va.
Proof. destruct frame_step as [Hwf _]. apply (scratch_pte Hwf (frame_scratch _) mA_changes). Qed.

Lemma kC_low va : 0 <= va < TRAPFRAME -> pte_of (k_mem kC) r va = pte_of (k_mem k) r va.
Proof.
  intros Hva. assert (Hm : 0 <= va < MAXVA) by (assert (TRAPFRAME <= MAXVA) by done; lia).
  rewrite kC_pte by (apply own_root || done). destruct frame_step as [_ Hum].
  apply (um_pte _ _ _ _ _ _ Hum); [apply own_root|done|]. rewrite within_iff.
  unfold TRAPFRAME, TRAMPOLINE in *. daddr.
Qed.

Lemma kC_top va : TRAPFRAME <= va < MAXVA ->
  has (pte_of (k_mem kC) r va) PTE_V = false /\ has (pte_of (k_mem kC) r va) PTE_S = false.
Proof.
  intros Hva. assert (Hm : 0 <= va < MAXVA) by (assert (0 <= TRAPFRAME) by done; lia).
  rewrite kC_pte by (apply own_root || done). destruct frame_step as [_ Hum].
  apply (um_gone _ _ _ _ _ _ Hum); [done|]. rewrite within_iff. unfold TRAPFRAME, TRAMPOLINE in *. daddr.
Qed.

Lemma kC_view r' va : is_root use r' -> r' <> r -> 0 <= va < MAXVA -> view (k_mem kC) r' va = view (k_mem k) r' va.
Proof.
  intros Hr Hne Hva. destruct frame_step as [Hwf Hum].
  transitivity (view (k_mem kB) r' va).
  - eapply view_apart; [exact Hwf|by left|apply frame_scratch|apply mA_changes|done|done|by apply kC_pte|].
    by apply frame_gone.
  - apply (um_pte _ _ _ _ _ _ Hum); [done|done|]. by intros [? _].
Qed.

Lemma kC_free : wp (uvmfree r (p_sz x)) (fun _ k' => exists use', vm_wf use' slot k' /\ dropped useC kC r use' k') kC.
Proof.
  destruct (ra_space _ _ _ _ Hra) as [Hsz Hlow Hgap _]. fold x in Hsz, Hlow, Hgap. fold r in Hlow, Hgap.
  assert (HN : PGROUNDUP (p_sz x) = PGROUNDUP (p_sz x) / PGSIZE * PGSIZE /\ PGROUNDUP (p_sz x) <= TRAPFRAME).
  { unfold TRAPFRAME, TRAMPOLINE in *. rewrite PGROUNDUP_spec by addr. daddr. }
  apply (uvmfree_wp useC slot kC r (p_sz x) kC_wf).
  - apply (ra_unlocked _ _ _ _ Hra).
  - apply useC_ptab, own_root.
  - assert (TRAPFRAME <= MAXVA) by done. lia.
  - intros va Hva Hv. assert (Hva' : 0 <= va < PGROUNDUP (p_sz x)) by daddr.
    unfold frees_ok. rewrite kC_low by lia. intros HV. split; [|done]. intros HO%useC_other. by apply Hlow in HO.
  - intros va Hva Hv. destruct (decide (va < TRAPFRAME)); [|apply kC_top; lia].
    rewrite kC_low by lia. apply Hgap. daddr.
Qed.

(** The last assignments of [freeproc]. *)
Lemma freeproc_done use' k' (k2 := k' <| k_procs ::= alter (fun x => x <| p_pagetable := 0 |> <| p_sz := 0 |> <| p_pid := 0 |>
    <| p_parent := None |> <| p_name ::= aset 0 0 |> <| p_chan := CH_none |> <| p_killed := 0 |> <| p_xstate := 0 |>
    <| p_state := UNUSED |>) p |>) :
  vm_wf use' slot k' -> dropped useC kC r use' k' -> mem_only kC k' -> vm_wf use' slot k2 /\ reaped use k p use' k2.
Proof.
  intros Hwf' Hdr Hmo. pose proof (ra_slot _ _ _ _ Hra) as Hslot.
  assert (HlC : length (k_procs kC) = length (k_procs k)) by (unfold kC, freed; kproj; by rewrite length_alter).
  assert (Ex : k_procs kC !!! p = x <| p_trapframe := 0 |>)
    by (unfold kC, freed; kproj; by rewrite lookup_total_alter, decide_True).
  assert (Htab : p_pagetable (k_procs k' !!! p) = r) by (rewrite (cm_table _ _ (dr_calm _ _ _ _ _ Hdr)), Ex; done).
  split.
  { apply (vm_wf_ext use' slot k' k2 Hwf'); try reflexivity. intros q Hq. unfold k2. kproj.
    destruct (decide (q = p)) as [->|Hne]; [|by rewrite lookup_total_alter_ne].
    rewrite Htab in Hq. by apply (dr_root _ _ _ _ _ Hdr) in Hq as [_ ?]. }
  assert (Hhi : forall va, 0 <= va < MAXVA -> va < TRAPFRAME \/
    (has (pte_of (k_mem k) r va) PTE_V = true /\ use (PTE2PA (pte_of (k_mem k) r va)) = Other)).
  { intros va Hva. destruct (decide (va < TRAPFRAME)); [by left|right].
    by destruct (kernel_entries va) as (? & ? & _); [lia|]. }
  split; fold x; fold r; fold tf.
  - intros a l pre Ha. apply (dr_tables _ _ _ _ _ Hdr a l pre). by apply useC_ptab.
  - intros va Hva HV HO. destruct (Hhi va Hva) as [Hlt|[_ ?]]; [|done].
    rewrite <- kC_low in * by lia. apply (dr_pages _ _ _ _ _ Hdr); [done|done|]. by intros ?%useC_other.
  - intros va Hva HV HS. destruct (Hhi va Hva) as [Hlt|[? _]]; [|congruence].
    rewrite <- kC_low in * by lia. by apply (dr_slots _ _ _ _ _ Hdr).
  - assert (useC tf = Free) by apply fupd_eq. destruct (dr_use _ _ _ _ _ Hdr tf) as [->|[-> _]]; done.
  - intros a. destruct (decide (a = tf)) as [->|Hne].
    + right. split; [|by left]. assert (useC tf = Free) by apply fupd_eq.
      destruct (dr_use _ _ _ _ _ Hdr tf) as [->|[-> _]]; done.
    + rewrite <- (useC_keep a Hne). destruct (dr_use _ _ _ _ _ Hdr a) as [?|[? ?]]; [by left|right]. tauto.
  - intros i Hi. destruct (dr_mask _ _ _ _ _ Hdr i Hi) as [E|(E & va & Hva & HV & HS & Ei)]; [by left|right].
    split; [done|]. exists va. split; [done|]. destruct (decide (va < TRAPFRAME)).
    + rewrite kC_low in * by lia. done.
    + destruct (kC_top va); [lia|congruence].
  - intros r'. rewrite (dr_root _ _ _ _ _ Hdr). unfold is_root. by rewrite useC_ptab.
  - intros r' va Hr' Hne Hva. rewrite <- kC_view by done. apply (dr_views _ _ _ _ _ Hdr); [by apply useC_ptab|done|done].
  - unfold k2. kproj. rewrite lookup_total_alter, decide_True by (rewrite ?(mo_len _ _ Hmo); done || lia).
    pose proof (mo_stats _ _ Hmo p) as Hs. rewrite Ex in Hs. exact (cleared_stats _ _ Hs).
  - intros j Hj. unfold k2. kproj. rewrite lookup_total_alter_ne by done.
    pose proof (mo_stats _ _ Hmo j) as Hs. unfold kC, freed in Hs. revert Hs. kproj. by rewrite lookup_total_alter_ne.
  - apply (cm_held _ _ (dr_calm _ _ _ _ _ Hdr)).
  - transitivity kC; [unfold same_rest, kC, freed; kext|]. transitivity k'; [by apply mem_only_rest|].
    unfold same_rest, k2. kext.
Qed.

Lemma freeproc_wp : wp (freeproc p) (fun _ k' => exists use', vm_wf use' slot k' /\ reaped use k p use' k') k.
Proof.
  destruct (ra_frame _ _ _ _ Hra) as [HO Hpg]. destruct (ra_unlocked _ _ _ _ Hra) as (Hl1 & Hl2 & _).
  pose proof (page_ok_pos _ Hpg) as Htf0.
  pose proof (page_ok_pos _ (ptab_page (wf_pt _ _ _ own_wf) _ _ _ _ own_root)) as Hr0.
  unfold freeproc, getp, updp. wp_step. wp_step. wp_step. fold x. fold x in Hpg, Htf0. fold tf. fold tf in Hpg, Htf0.
  rewrite (proj2 (Z.eqb_neq tf 0)) by addr. cbn [negb when].
  eapply wp_Ret; [by apply kfree_eq|]. wp_step. wp_step. wp_step. wp_step.
  set (k1 := (freed tf k) <| k_procs ::= alter (set p_trapframe (fun _ => 0)) p |>).
  assert (Ex : k_procs k1 !!! p = x <| p_trapframe := 0 |>).
  { unfold k1, freed. kproj. rewrite lookup_total_alter, decide_True by (done || apply Hra). done. }
  rewrite Ex. wp_step. change (p_pagetable (x <| p_trapframe := 0 |>)) with r. change (p_sz (x <| p_trapframe := 0 |>)) with (p_sz x).
  rewrite (proj2 (Z.eqb_neq r 0)) by addr. cbn [negb when]. unfold proc_freepagetable.
  destruct m1_tramp as [E1 V1]. destruct mA1_frame as [E2 V2].
  wp_step. eapply wp_Ret; [apply uvmunmap_kernel_eq; [done|done|exact V1]|].
  wp_step. change (k_mem k1) with m1. rewrite E1. eapply wp_Ret; [apply uvmunmap_kernel_eq; [done|done|exact V2]|].
  match goal with |- wp _ _ ?z => assert (EkC : z = kC) end.
  { kproj. change (k_mem k1) with m1. fold mA1. rewrite E2. unfold kC, k1. kext. }
  rewrite EkC. clear EkC.
  eapply wp_mono; [apply wp_keeps; [apply kC_free|apply uvmfree_keeps]|].
  intros [] k' ((use' & Hwf' & Hdr) & Hmo). wp_step. exists use'. by apply freeproc_done.
Qed.
End Freeproc.

(** ** kwait *)
(** A child that is no zombie. *)
Lemma kwait_child_skip p pp addr k : p_state (k_procs k !!! pp) <> ZOMBIE -> L_proc pp ∉ k_held k ->
  (do! acquire (L_proc pp); kwait_child p pp addr) k = Ret None k.
Proof.
  intros Hz Hl. apply wp_eq. wp_step. apply wp_acquire; [done|]. unfold kwait_child, getp. wp_step. wp_step. kproj.
  assert (state_eqb (p_state (k_procs k !!! pp)) ZOMBIE = false) as -> by (by destruct (p_state (k_procs k !!! pp))).
  wp_step. apply wp_release; [held|]. wp_step. split; [done|]. kext. by rewrite unlocked_top.
Qed.

(** The scan passes over slots that hold no zombie child of [p]. *)
Lemma kwait_scan_skip p addr n : forall pp d havekids k,
  (forall j, (pp <= j < pp + d)%nat -> p_parent (k_procs k !!! j) = Some p ->
     p_state (k_procs k !!! j) <> ZOMBIE /\ L_proc j ∉ k_held k) ->
  exists hk, kwait_scan (d + n) p pp addr havekids k = kwait_scan n p (pp + d) addr hk k /\
    ((forall j, (pp <= j < pp + d)%nat -> p_parent (k_procs k !!! j) <> Some p) -> hk = havekids).
Proof.
  intros pp d. revert pp. induction d as [|d IH]; intros pp hk0 k Hno.
  { exists hk0. by rewrite Nat.add_0_r. }
  cbn [kwait_scan Nat.add]. unfold bind at 1, getp, gets.
  case_bool_decide as E.
  - destruct (Hno pp ltac:(lia) E) as [Hz Hl].
    destruct (IH (S pp) true k) as (hk & IHe & _); [intros; apply Hno; [lia|done]|].
    exists hk. split; [|intros H; by destruct (H pp ltac:(lia))]. rewrite <- Nat.add_succ_comm in *.
    rewrite <- IHe. pose proof (kwait_child_skip p pp addr k Hz Hl) as Hs. unfold bind in Hs |- *.
    destruct (acquire (L_proc pp) k) as [[] k1| |]; [|done..]. by rewrite Hs.
  - destruct (IH (S pp) hk0 k) as (hk & IHe & IHh); [intros; apply Hno; [lia|done]|].
    exists hk. split; [by rewrite IHe, Nat.add_succ_comm|]. intros H. apply IHh. intros j Hj. apply H. lia.
Qed.

Definition first_zombie (k : kernel) (p c : nat) : Prop :=
  (c < Z.to_nat NPROC)%nat /\ p_parent (k_procs k !!! c) = Some p /\ p_state (k_procs k !!! c) = ZOMBIE /\
  forall j, (j < c)%nat -> p_parent (k_procs k !!! j) = Some p -> p_state (k_procs k !!! j) <> ZOMBIE.

Lemma reapable_held use slot p k h : reapable use slot p k ->
  (L_kmem ∉ h) /\ (L_frametable ∉ h) /\ (L_swap ∉ h) -> reapable use slot p (k <| k_held := h |>).
Proof.
  intros H Hh. split; try apply H; try done. by apply (vm_wf_ext use slot k); [apply H|..].
Qed.

Lemma reaped_held use k p use' k' h h' : reaped use (k <| k_held := h |>) p use' k' -> h' = k_held k ->
  reaped use k p use' (k' <| k_held := h' |>).
Proof.
  intros H ->. split; try apply H; [done|]. pose proof (rp_rest _ _ _ _ _ H) as Hr. unfold same_rest in *.
  rewrite Hr at 1. kext.
Qed.

(** *** The exit status *)

(** [addr] is null, or points to an int in a page of the parent [p] that is in
    RAM and may be written. *)
Definition status_place (use : Z -> usage) (p : nat) (addr : Z) (k : kernel) (r := p_pagetable (k_procs k !!! p)) : Prop :=
  addr = 0 \/
  (0 < addr /\ addr + 4 <= MAXVA /\ addr mod PGSIZE + 4 <= PGSIZE /\ is_root use r /\
   has (pte_of (k_mem k) r addr) PTE_V = true /\ has (pte_of (k_mem k) r addr) PTE_U = true /\
   has (pte_of (k_mem k) r addr) PTE_W = true).

(** The status [v] is stored at [addr], unless [addr] is null. *)
Definition status_stored (use : Z -> usage) (p : nat) (addr v : Z) (k k' : kernel) : Prop :=
  if addr =? 0 then k' = k
  else k' = k <| k_mem := k_mem k' |> /\ written use (k_mem k) (k_mem k') (p_pagetable (k_procs k !!! p)) addr (le_bytes 4 v).

(** A store to a user page keeps what [freeproc] relies on. *)
Lemma reapable_store use slot c k m' : reapable use slot c k -> vm_wf use slot (k <| k_mem := m' |>) ->
  (forall r va, is_root use r -> 0 <= va < MAXVA -> pte_of m' r va = pte_of (k_mem k) r va) ->
  reapable use slot c (k <| k_mem := m' |>).
Proof.
  intros [W U S R Sp F M] W' Hpte. split; kproj; try done.
  - destruct Sp as [S1 S2 S3 S4]. assert (forall va, 0 <= va < TRAPFRAME -> 0 <= va < MAXVA) as Hm by (assert (TRAPFRAME <= MAXVA) by done; lia).
    assert (forall va, TRAPFRAME <= va < MAXVA -> 0 <= va < MAXVA) as Hk by (assert (0 <= TRAPFRAME) by done; lia).
    assert (0 <= PGROUNDUP (p_sz (k_procs k !!! c)) <= TRAPFRAME) as Hup.
    { change TRAPFRAME with 274877898752 in *. rewrite PGROUNDUP_spec by lia. dlia. }
    split; [done|intros va Hva; unfold frees_ok; rewrite Hpte by (done || apply Hm; lia); by apply S2
      |intros va Hva; rewrite Hpte by (done || apply Hm; lia); by apply S3|intros va Hva; rewrite Hpte by auto; by apply S4].
  - intros r va Hr Hva. rewrite Hpte by done. by apply M.
Qed.

(** copyout of the status. *)
Lemma status_wp use slot c p addr v k : reapable use slot c k -> status_place use p addr k ->
  wp (if addr =? 0 then ret 0 else let! pr := getp p in copyout (p_pagetable pr) addr (le_bytes 4 v) 4)
    (fun r k' => r = 0 /\ status_stored use p addr v k k' /\ reapable use slot c k') k.
Proof.
  intros Hra Hpl. unfold status_stored. destruct (Z.eqb_spec addr 0) as [->|Hne]; [by wp_steps|].
  destruct Hpl as [|(Ha & Hmax & Hfit & Hr & HV & HU & HW)]; [done|]. set (r := p_pagetable (k_procs k !!! p)) in *.
  set (va0 := PGROUNDDOWN addr). assert (Hv : 0 <= va0 < MAXVA /\ va0 / PGSIZE = addr / PGSIZE /\ va0 mod PGSIZE = 0 /\ addr - va0 = addr mod PGSIZE)
    by (unfold va0; rewrite PGROUNDDOWN_spec; unfold PGSIZE; dlia). destruct Hv as (Hva0 & Hvp & Hal & Hoff).
  assert (He : pte_of (k_mem k) r va0 = pte_of (k_mem k) r addr) by (unfold pte_of; by rewrite (pte_addr_vpn _ _ _ _ Hvp)).
  rewrite <- He in HV, HU, HW. set (pa := PTE2PA (pte_of (k_mem k) r va0)).
  assert (Hres : resident (k_mem k) r va0 pa) by (by split).
  destruct (pte_of_present (k_mem k) r va0 0 ltac:(lia) HV) as [Hne0 Ed].
  pose proof (ra_wf _ _ _ _ Hra) as Hwf. pose proof (store_page Hwf Hr Hva0 Hres) as Hpg. pose proof (page_ok_pos _ Hpg) as Hpos.
  unfold getp. wp_steps. fold r. unfold copyout. change (Z.to_nat 4) with (S 3). set (fuel := 3%nat). cbn [copyout_loop].
  change (4 <=? 0) with false. cbv iota. fold va0. rewrite (proj2 (Z.leb_gt MAXVA va0)) by lia. unfold fault_in. wp_steps.
  eapply wp_Ret; [apply walkaddr_eq; lia|]. cbv beta. rewrite HV, HU. cbn [andb]. fold pa.
  rewrite (proj2 (Z.eqb_neq pa 0)) by addr. wp_steps. rewrite (proj2 (Z.eqb_neq pa 0)) by addr. wp_steps.
  eapply wp_Ret; [apply walk_noalloc; lia|]. cbv beta. unfold load_pte. rewrite (proj2 (Z.eqb_neq _ 0) Hne0). wp_steps.
  rewrite <- Ed, HW. cbn [negb]. replace (Z.min (PGSIZE - (addr - va0)) 4) with 4 by (rewrite Hoff; lia).
  rewrite Z.sub_diag. unfold kstore. wp_steps. change (take (Z.to_nat 4) (le_bytes 4 v)) with (le_bytes 4 v).
  assert (forall f a l, copyout_loop f r a l 0 = ret 0) as -> by (by intros []). wp_steps. split; [done|].
  set (m' := st_bytes (k_mem k) (pa + (addr - va0)) (le_bytes 4 v)).
  change (k <| k_mem ::= fun m => st_bytes m (pa + (addr - va0)) (le_bytes 4 v) |>) with (k <| k_mem := m' |>).
  assert (Hle : va0 <= addr) by (rewrite <- (Z.add_0_r va0); pose proof (Z.mod_pos_bound addr PGSIZE ltac:(done)); lia).
  assert (Hend : addr + Z.of_nat (length (le_bytes 4 v)) <= va0 + PGSIZE) by (rewrite length_le_bytes; lia).
  pose proof (store_wf (bs := le_bytes 4 v) Hwf Hr Hva0 Hres Hle Hend) as Hwf'. fold m' in Hwf'.
  split.
  - split; [done|]. kproj. apply (store_written Hwf Hr Hva0 Hal Hres Hle Hend). apply le_bytes_ok.
  - apply reapable_store; [done|done|]. intros r' va' Hr' Hva'.
    apply (scratch_pte Hwf (store_scratch Hwf Hr Hva0 Hres) (store_changes (bs := le_bytes 4 v) Hle Hend)); done.
Qed.

(** The scan at the slot of a zombie child. *)
Lemma kwait_scan_zombie use slot k p c n hk addr : k_held k = [] -> p_parent (k_procs k !!! c) = Some p ->
  p_state (k_procs k !!! c) = ZOMBIE -> reapable use slot c k -> status_place use p addr k ->
  wp (kwait_scan (S n) p c addr hk) (fun res k' => res = inl (p_pid (k_procs k !!! c)) /\
      exists k1 use', status_stored use p addr (p_xstate (k_procs k !!! c)) k k1 /\
        vm_wf use' slot k' /\ reaped use k1 c use' k') (k <| k_held ::= cons L_wait |>).
Proof.
  intros Hh Hpar Hz Hra Hpl. set (k1 := k <| k_held ::= cons L_wait |>).
  assert (Hh1 : k_held k1 = [L_wait]) by (unfold k1; kproj; by rewrite Hh). cbn [kwait_scan].
  wp_step. unfold getp. wp_step. change (k_procs k1) with (k_procs k). rewrite bool_decide_eq_true_2 by done.
  wp_step. apply wp_acquire; [rewrite Hh1; set_solver|]. wp_step. unfold kwait_child, getp. wp_step. wp_step.
  change (k_procs (k1 <| k_held ::= cons (L_proc c) |>)) with (k_procs k). rewrite Hz. change (state_eqb ZOMBIE ZOMBIE) with true. cbv iota.
  wp_step. set (h := L_proc c :: k_held k1).
  assert (Ek : k1 <| k_held ::= cons (L_proc c) |> = k <| k_held := h |>) by (unfold h, k1; kext). rewrite Ek.
  eapply wp_mono; [apply (status_wp use slot c p addr (p_xstate (k_procs k !!! c)) (k <| k_held := h |>)); [|exact Hpl]|].
  { apply reapable_held; [done|]. unfold h. rewrite Hh1. set_solver. }
  cbv beta. intros st ks (-> & Hst & Hras). change (0 <? 0) with false. cbv iota. wp_step.
  set (ks0 := ks <| k_held := [] |>).
  assert (Hks : ks = ks0 <| k_held := h |> /\ status_stored use p addr (p_xstate (k_procs k !!! c)) k ks0).
  { unfold status_stored, ks0 in *. destruct (addr =? 0).
    - subst ks. split; kext. by rewrite Hh.
    - destruct Hst as [Es Hw]. split; [rewrite Es; kext|]. split; [rewrite Es; kext; by rewrite Hh|exact Hw]. }
  destruct Hks as [Eks Hst0]. rewrite Eks in Hras |- *.
  eapply wp_mono; [apply (freeproc_wp (use := use) (slot := slot) (p := c) (k := ks0 <| k_held := h |>)); exact Hras|].
  intros [] k2 (use' & Hwf2 & Hrp). pose proof (rp_held _ _ _ _ _ Hrp) as Hh2. change (k_held k2 = h) in Hh2.
  unfold h in Hh2. rewrite Hh1 in Hh2.
  wp_step. apply wp_release; [held|]. wp_step. apply wp_release; [held|]. wp_step. wp_step. split; [done|].
  exists ks0, use'. split; [exact Hst0|].
  assert (E : k2 <| k_held ::= unlocked (L_proc c) |> <| k_held ::= unlocked L_wait |> = k2 <| k_held := [] |>).
  { kext. rewrite Hh2, !unlocked_top by set_solver. done. }
  rewrite E. split; [by apply (vm_wf_ext use' slot k2)|]. by apply (reaped_held _ _ _ _ _ h).
Qed.

Context {I : Interference}.

(** C6. wait reaps.  When the process has a zombie child, [kwait], with a null
    pointer or with the address of an int in a writable page of the parent that
    is in RAM, stores the exit status there, in the bytes of that int only, and
    returns the pid of the first such child in the table; its slot is free
    again, and every page-table page, every resident page and the trap frame
    of the child are on the free list and every swap slot it used is free,
    and no other page or slot is; no other address space sees a change, and
    the invariant of physical memory holds. *)
Theorem kwait_spec use slot k p c addr : k_cur k = Some p -> k_held k = [] -> first_zombie k p c -> reapable use slot c k ->
  status_place use p addr k ->
  wp (kwait addr) (fun pid k' => pid = p_pid (k_procs k !!! c) /\
    exists k1 use', status_stored use p addr (p_xstate (k_procs k !!! c)) k k1 /\
      vm_wf use' slot k' /\ reaped use k1 c use' k') k.
Proof.
  intros Hcur Hh (Hc & Hpar & Hz & Hfirst) Hra Hpl. unfold kwait, curproc. wp_step. wp_step. unfold myproc. wp_step.
  rewrite Hcur. wp_step. wp_step. apply wp_acquire; [by rewrite Hh; set_solver|]. wp_step. wp_step.
  match goal with |- wp (kwait_loop ?f _ _) _ _ => generalize f; intros fuel end.
  destruct (kwait_scan_skip p addr (Z.to_nat NPROC - c) 0 c false (k <| k_held ::= cons L_wait |>)) as (hk & Es & _).
  { intros j Hj Hp. split; [apply Hfirst; [lia|done]|]. kproj. rewrite Hh. set_solver. }
  replace (c + (Z.to_nat NPROC - c))%nat with (Z.to_nat NPROC) in Es by lia.
  replace (Z.to_nat NPROC - c)%nat with (S (Z.to_nat NPROC - c - 1)) in Es by lia.
  pose proof (kwait_scan_zombie use slot k p c (Z.to_nat NPROC - c - 1) hk addr Hh Hpar Hz Hra Hpl) as Hscan.
  unfold wp in Hscan. rewrite Nat.add_0_l in Es. rewrite <- Es in Hscan.
  destruct fuel; cbn [kwait_loop]; wp_step; (eapply wp_mono; [exact Hscan|]); intros res k' (-> & Hres); by wp_step.
Qed.
End Reap.

(** A zombie child, in slot 1, with the address space of [Demo], a resident
    page, a swapped page and the two pages of the kernel, and its parent in slot
    0, whose tables [pg 26] to [pg 28] map page 0 to [pg 29]. *)
Definition zombie1 : proc :=
  proc0 <| p_pagetable := pg 0 |> <| p_sz := 4 * PGSIZE |> <| p_state := ZOMBIE |> <| p_pid := 7 |> <| p_xstate := 3 |>
    <| p_trapframe := pg 30 |> <| p_parent := Some 0%nat |>.
Definition word2 (a : Z) : Z :=
  if a =? pg 26 then Z.lor (PA2PTE (pg 27)) PTE_V
  else if a =? pg 27 then Z.lor (PA2PTE (pg 28)) PTE_V
  else if a =? pg 28 then Z.lor (PA2PTE (pg 29)) demo_flags
  else demo_word a.
Definition mem2 : memory := fun a => (word2 (8 * (a / 8)) / 256 ^ (a mod 8)) mod 256.
Definition use2 : Z -> usage :=
  fupd (pg 26) (PTab (pg 26) 2 0) (fupd (pg 27) (PTab (pg 26) 1 0) (fupd (pg 28) (PTab (pg 26) 0 0)
    (fupd (pg 29) (Data (pg 26) 0) demo_use))).
Definition parent1 : proc := proc0 <| p_state := RUNNING |> <| p_pid := 1 |> <| p_pagetable := pg 26 |> <| p_sz := PGSIZE |>.
Definition wdemo2 : kernel := (demo_state 1 (parent1 :: zombie1 :: replicate 62 proc0)) <| k_mem := mem2 |>.

Lemma mem2_ld64 a : a mod 8 = 0 -> ld64 mem2 a = word2 a.
Proof.
  intros Ha. apply (words_ld64 word2 a Ha). unfold word2. repeat case_match; try done. apply demo_word_range.
Qed.

Lemma mem2_old a : a mod 8 = 0 -> a + 8 <= pg 26 \/ pg 29 <= a -> ld64 mem2 a = ld64 demo_mem a.
Proof.
  intros Ha Ho. rewrite mem2_ld64, demo_ld64 by done. unfold word2.
  by rewrite !(proj2 (Z.eqb_neq _ _)) by (demo_pages; lia).
Qed.

(** The entries of the parent's tables: the first one is in use. *)
Lemma mem2_new n i : 26 <= n <= 28 -> 0 <= i < 512 ->
  ld64 mem2 (pg n + 8 * i) =
    if i =? 0 then Z.lor (PA2PTE (pg (n + 1))) (if n =? 28 then demo_flags else PTE_V) else 0.
Proof.
  intros Hn Hi. rewrite mem2_ld64 by (demo_pages; dlia). destruct (Z.eqb_spec i 0) as [->|Hne].
  - assert (n = 26 \/ n = 27 \/ n = 28) as [-> | [-> | ->]] by lia; done.
  - unfold word2. rewrite !(proj2 (Z.eqb_neq _ _)) by (demo_pages; lia). unfold demo_word. demo_none.
Qed.

Lemma use2_old x : demo_use x <> Other -> use2 x = demo_use x.
Proof.
  intros (n & -> & Hn & _)%demo_use_inv. unfold use2. by rewrite !fupd_ne by (demo_pages; lia).
Qed.

Lemma use2_inv x : use2 x = demo_use x \/
  (x = pg 26 /\ use2 x = PTab (pg 26) 2 0) \/ (x = pg 27 /\ use2 x = PTab (pg 26) 1 0) \/
  (x = pg 28 /\ use2 x = PTab (pg 26) 0 0) \/ (x = pg 29 /\ use2 x = Data (pg 26) 0).
Proof. unfold use2, fupd. repeat case_decide; tauto. Qed.

Lemma use2_ptab x r l pre : use2 x = PTab r l pre ->
  (r = pg 0 /\ demo_use x = PTab r l pre) \/
  (r = pg 26 /\ pre = 0 /\ (l <= 2)%nat /\ x = pg (28 - Z.of_nat l)).
Proof.
  destruct (use2_inv x) as [->|[[-> ->]|[[-> ->]|[[-> ->]|[-> ->]]]]]; intros H; try (injection H as <- <- <-); try done.
  - left. split; [by destruct (demo_ptab _ _ _ _ H)|done].
  - right. repeat split; lia.
  - right. repeat split; lia.
  - right. repeat split; lia.
Qed.

Lemma mem2_table x r l pre i : demo_use x = PTab r l pre -> 0 <= i < 512 -> ld64 mem2 (x + 8 * i) = ld64 demo_mem (x + 8 * i).
Proof.
  intros (_ & Hx)%demo_ptab Hi.
  assert (exists n, x = pg n /\ 0 <= n <= 25) as (n & -> & Hn) by (destruct Hx as [(-> & _)|[(-> & _)|[(-> & _)|[(-> & _)|(-> & _)]]]]; eexists; (split; [reflexivity|lia])).
  apply mem2_old; demo_pages; [dlia|left; lia].
Qed.

Lemma use2_pt_ok : pt_ok use2 mem2.
Proof.
  assert (forall x r l pre, demo_use x = PTab r l pre -> use2 x = PTab r l pre) as Hold by (intros x r l pre H; rewrite use2_old; by rewrite H).
  split.
  - intros x Hx. destruct (use2_inv x) as [E|[[-> _]|[[-> _]|[[-> _]|[-> _]]]]]; [|done..].
    rewrite E in Hx. by apply (pt_page _ _ demo_pt_ok).
  - intros x r l pre [[-> _]|[-> _]]%use2_ptab; done.
  - intros x y r l pre [[-> Hx]|(-> & -> & _ & ->)]%use2_ptab [[? Hy]|(? & _ & _ & ->)]%use2_ptab; try done.
    by apply (pt_inj _ _ demo_pt_ok _ _ _ _ _ Hx).
  - intros x r l pre i [[-> Hx]|(-> & -> & Hl & ->)]%use2_ptab Hi.
    + rewrite (mem2_table _ _ _ _ _ Hx Hi). intros HV. by apply Hold, (pt_node _ _ demo_pt_ok).
    + rewrite mem2_new by lia. destruct (Z.eqb_spec i 0) as [->|]; [|done].
      destruct l as [|[|l]]; [done|done|lia].
  - intros x r l pre [[-> Hx]|(-> & -> & Hl & ->)]%use2_ptab; [by apply (pt_level _ _ demo_pt_ok _ _ _ _ Hx)|].
    split; [done|]. by intros ->.
  - intros x r l pre [[-> Hx]|(-> & -> & Hl & ->)]%use2_ptab Hlt.
    + destruct (pt_link _ _ demo_pt_ok _ _ _ _ Hx Hlt) as (a & Ha & HV & Hp). exists a.
      rewrite (mem2_table _ _ _ _ _ Ha) by dlia. by rewrite (Hold _ _ _ _ Ha).
    + exists (pg (28 - Z.of_nat (S l))). change (0 / 512) with 0. change (0 mod 512) with 0. rewrite mem2_new by lia.
      destruct l as [|[|l]]; [done|done|lia].
  - intros x r l pre i [[-> Hx]|(-> & -> & Hl & ->)]%use2_ptab Hi.
    + rewrite (mem2_table _ _ _ _ _ Hx Hi). by apply (pt_plain _ _ demo_pt_ok _ _ _ _ _ Hx).
    + rewrite mem2_new by lia. destruct (Z.eqb_spec i 0) as [->|]; [|done].
      destruct l as [|[|l]]; [done|done|lia].
  - intros x r pre [[-> Hx]|(-> & -> & _)]%use2_ptab; [by apply (pt_low _ _ demo_pt_ok _ _ _ Hx)|lia].
Qed.

Lemma use2_root r : is_root use2 r <-> r = pg 0 \/ r = pg 26.
Proof. split; [|by intros [-> | ->]]. intros [[-> _]|[-> _]]%use2_ptab; tauto. Qed.

Lemma mem2_child va : 0 <= va < MAXVA -> pte_of mem2 (pg 0) va = demo_pte_of (va / PGSIZE).
Proof.
  intros Hva. assert (is_root demo_use (pg 0)) as Hr by done.
  destruct (pte_of_present demo_mem (pg 0) 0 0 ltac:(lia) ltac:(rewrite demo_pte; done)) as [Hne E].
  assert (@tables_upd demo_use demo_mem mem2 (pte_addr demo_mem (pg 0) 0) (pte_of demo_mem (pg 0) 0)) as Hu.
  { intros b r l pre i Hb Hi. rewrite (mem2_table _ _ _ _ _ Hb Hi). case_decide as Hd; [rewrite E, Hd; reflexivity|reflexivity]. }
  rewrite (pte_of_upd demo_pt_ok Hr (conj (Z.le_refl 0) eq_refl) Hne Hu (pg 0) va Hr Hva), <- demo_pte by exact Hva.
  case_decide as Hd; [|reflexivity]. destruct Hd as [_ Hd].
  rewrite !demo_pte by (exact Hva || (split; [apply Z.le_refl|reflexivity])). by rewrite Hd.
Qed.

Lemma mem2_parent va : 0 <= va < MAXVA ->
  pte_of mem2 (pg 26) va = if va / PGSIZE =? 0 then Z.lor (PA2PTE (pg 29)) demo_flags else 0.
Proof.
  intros Hva. pose proof (PX_decompose va Hva) as Hd.
  pose proof (PX_range 2 va ltac:(lia)). pose proof (PX_range 1 va ltac:(lia)). pose proof (PX_range 0 va ltac:(lia)).
  assert (Hq : va / PGSIZE = 2 ^ 18 * PX 2 va + 2 ^ 9 * PX 1 va + PX 0 va) by (unfold PGSIZE; dlia).
  rewrite Hq. unfold pte_of, pte_addr. cbn [pt_walk]. change (Z.of_nat 2) with 2. change (Z.of_nat 1) with 1.
  rewrite (mem2_new 26) by lia. destruct (Z.eqb_spec (PX 2 va) 0) as [->|Hn].
  2: { change (has 0 PTE_V) with false. cbn [Z.eqb]. by rewrite (proj2 (Z.eqb_neq _ _)) by lia. }
  change (Z.lor (PA2PTE (pg (26 + 1))) (if 26 =? 28 then demo_flags else PTE_V)) with (Z.lor (PA2PTE (pg 27)) PTE_V).
  change (has (Z.lor (PA2PTE (pg 27)) PTE_V) PTE_V) with true. change (PTE2PA (Z.lor (PA2PTE (pg 27)) PTE_V)) with (pg 27).
  cbv iota. rewrite (mem2_new 27) by lia. destruct (Z.eqb_spec (PX 1 va) 0) as [->|Hn].
  2: { change (has 0 PTE_V) with false. cbn [Z.eqb]. by rewrite (proj2 (Z.eqb_neq _ _)) by lia. }
  change (Z.lor (PA2PTE (pg (27 + 1))) (if 27 =? 28 then demo_flags else PTE_V)) with (Z.lor (PA2PTE (pg 28)) PTE_V).
  change (has (Z.lor (PA2PTE (pg 28)) PTE_V) PTE_V) with true. change (PTE2PA (Z.lor (PA2PTE (pg 28)) PTE_V)) with (pg 28).
  cbv iota. rewrite (proj2 (Z.eqb_neq (pg 28 + 8 * PX 0 va) 0)) by (demo_pages; lia). by rewrite (mem2_new 28) by lia.
Qed.

Lemma wdemo2_wf : vm_wf use2 demo_slot wdemo2.
Proof.
  assert (forall a, demo_use a <> Other -> use2 a = demo_use a) as Hold by apply use2_old.
  split.
  - intros a. change (k_mem wdemo2) with mem2. unfold mem2, byte_ok. apply Z.mod_pos_bound. lia.
  - apply use2_pt_ok.
  - intros r va [-> | ->]%use2_root Hva; unfold leaf_ok; change (k_mem wdemo2) with mem2.
    + rewrite mem2_child by done. destruct (demo_pte_cases (va / PGSIZE)) as [[-> ->]|[[-> ->]|[[-> ->]|[[-> ->]| ->]]]];
        intros HV; [by left|done|by right..|done].
    + rewrite mem2_parent by done. destruct (Z.eqb_spec (va / PGSIZE) 0) as [->|]; [by left|done].
  - exists demo_free. split; [|split; [apply demo_free_nodup|]].
    + eapply freelist_rep_ext; [apply demo_freelist|]. intros a (n & -> & Hn & _)%demo_free_use%(eq_ind_r (fun u => u <> Other))%demo_use_inv; [|done].
      apply mem2_old; demo_pages; [dlia|left; lia].
    + intros a. rewrite demo_free_use. split; [intros E; rewrite Hold; by rewrite E|].
      by destruct (use2_inv a) as [->|[[_ ->]|[[_ ->]|[[_ ->]|[_ ->]]]]].
  - done.
  - intros r va [-> | ->]%use2_root Hva; unfold swap_entry_ok; change (k_mem wdemo2) with mem2.
    + rewrite mem2_child by done. destruct (demo_pte_cases (va / PGSIZE)) as [[-> ->]|[[-> ->]|[[-> ->]|[[-> ->]| ->]]]]; done.
    + rewrite mem2_parent by done. by destruct (Z.eqb_spec (va / PGSIZE) 0).
  - done.
  - intros j Hj p. destruct (decide (j = frame_index (pg 3))) as [->|Hne].
    + intros _ Hp. assert (p = 1%nat) as -> by (revert Hp; by intros [= <-]). cbv zeta.
      change (p_pagetable (k_procs wdemo2 !!! 1%nat)) with (pg 0). change (k_mem wdemo2) with mem2.
      change (f_va (frame_at wdemo2 (frame_index (pg 3)))) with 0. rewrite mem2_child by done. done.
    + change (frame_at wdemo2 j) with (aget (aset (frame_index (pg 3)) (mkframe 1 (Some 1%nat) 0 1) (replicate 512 frame0)) j).
      rewrite aget_aset, decide_False by (done || lia).
      unfold aget. rewrite lookup_total_replicate_2 by (change NFRAMES with 512 in Hj; lia). done.
Qed.

Lemma wdemo2_reapable : reapable use2 demo_slot 1 wdemo2.
Proof.
  assert (Hvp : forall va, TRAPFRAME <= va < MAXVA -> va / PGSIZE = 67108862 \/ va / PGSIZE = 67108863)
    by (intros va Hva; unfold TRAPFRAME, TRAMPOLINE in *; daddr).
  split.
  - apply wdemo2_wf.
  - apply demo_unlocked.
  - cbn. lia.
  - done.
  - change (p_pagetable (k_procs wdemo2 !!! 1%nat)) with (pg 0). change (k_mem wdemo2) with mem2.
    change (p_sz (k_procs wdemo2 !!! 1%nat)) with (4 * PGSIZE). split.
    + done.
    + intros va Hva. change (PGROUNDUP (4 * PGSIZE)) with (4 * PGSIZE) in Hva. unfold frees_ok. rewrite mem2_child by addr.
      destruct (demo_pte_cases (va / PGSIZE)) as [[_ ->]|[[_ ->]|[[E _]|[[E _]| ->]]]]; [done|done|daddr|daddr|done].
    + intros va Hva. change (PGROUNDUP (4 * PGSIZE)) with (4 * PGSIZE) in Hva.
      assert (Hm : 0 <= va < MAXVA) by (assert (TRAPFRAME <= MAXVA) by done; addr). rewrite mem2_child by done.
      unfold TRAPFRAME, TRAMPOLINE in Hva.
      destruct (demo_pte_cases (va / PGSIZE)) as [[E _]|[[E _]|[[E _]|[[E _]| ->]]]]; [daddr..|done].
    + intros va Hva. assert (Hm : 0 <= va < MAXVA) by (assert (0 <= TRAPFRAME) by done; lia). rewrite mem2_child by done.
      destruct (Hvp va Hva) as [-> | ->]; done.
  - done.
  - intros r va [-> | ->]%use2_root Hva; change (k_mem wdemo2) with mem2.
    + rewrite mem2_child by done.
      destruct (demo_pte_cases (va / PGSIZE)) as [[_ ->]|[[_ ->]|[[-> _]|[[_ ->]| ->]]]]; done.
    + rewrite mem2_parent by done. by destruct (va / PGSIZE =? 0).
Qed.

(** wait with the address 2000, in the parent's page, and with a null pointer. *)
Lemma kwait_spec_witness :
  wp (kwait (I := fun k => k) 2000) (fun pid k' => pid = 7 /\
    exists k1 use', status_stored use2 0 2000 3 wdemo2 k1 /\
      vm_wf use' demo_slot k' /\ reaped use2 k1 1 use' k') wdemo2 /\
  wp (kwait (I := fun k => k) 0) (fun pid k' => pid = 7 /\
    exists k1 use', status_stored use2 0 0 3 wdemo2 k1 /\
      vm_wf use' demo_slot k' /\ reaped use2 k1 1 use' k') wdemo2.
Proof.
  assert (first_zombie wdemo2 0 1) as Hz.
  { split; [change (Z.to_nat NPROC) with 64%nat; lia|]. split; [done|]. split; [done|].
    intros j Hj. by replace j with 0%nat by lia. }
  split; [apply (kwait_spec use2 demo_slot wdemo2 0 1 2000)|apply (kwait_spec use2 demo_slot wdemo2 0 1 0)];
    [done|done|exact Hz|apply wdemo2_reapable| |done|done|exact Hz|apply wdemo2_reapable|by left].
  right. unfold status_place. change (p_pagetable (k_procs wdemo2 !!! 0%nat)) with (pg 26). change (k_mem wdemo2) with mem2.
  rewrite mem2_parent by (split; [discriminate|reflexivity]). done.
Defined.
