(* ===== verification/Exec.v ===== *)
(** * Program images (kernel/exec.c)

    The ELF headers are the bytes read from the file; the argument vector is
    the list of its strings, without their NULs. *)

From Stdlib Require Import ZArith Lia.
From stdpp Require Import base list strings sets.
From S2P Require Import Prelude Params Mem State Evict Kalloc Vm Sched Sleeplock Printf Bio Log Fs Pipe Console File ProcLife.

(** ** ELF headers (kernel/elf.h) *)
Definition ELF_MAGIC : Z := 0x464C457F.
Definition ELFHDR : Z := 64.
Definition PROGHDR : Z := 56.
Definition ELF_PROG_LOAD : Z := 1.

Definition elf_magic (e : list Z) : Z := getw 4 0 e.
Definition elf_entry (e : list Z) : Z := getw 8 24 e.
Definition elf_phoff (e : list Z) : Z := getw 8 32 e.
Definition elf_phnum (e : list Z) : Z := getw 2 56 e.

Definition ph_type (h : list Z) : Z := getw 4 0 h.
Definition ph_flags (h : list Z) : Z := getw 4 4 h.
Definition ph_off (h : list Z) : Z := getw 8 8 h.
Definition ph_vaddr (h : list Z) : Z := getw 8 16 h.
Definition ph_filesz (h : list Z) : Z := getw 8 32 h.
Definition ph_memsz (h : list Z) : Z := getw 8 40 h.

Definition flags2perm (flags : Z) : Z :=
  Z.lor (if has flags 0x1 then PTE_X else 0) (if has flags 0x2 then PTE_W else 0).

(** [for(last=s=path; *s; s++) if( *s == '/') last = s+1;] *)
Fixpoint last_elem (path last : list Z) : list Z :=
  match path with
  | c :: path' => if c =? SLASH then last_elem path' path' else last_elem path' last
  | [] => last
  end.

Section Exec.
Context {L : Layout} {I : Interference} {D : Disk} {T : Text}.

Definition loadseg (pagetable va : Z) (ip : nat) (offset sz : Z) : KM Z :=
  let! r := for_until (pages_between 0 sz) 0 (fun j =>
    let i := j * PGSIZE in
    let! pa := walkaddr pagetable (u64 (va + i)) in
    if pa =? 0 then panic "loadseg: address should exist"
    else
      let n := if sz - i <? PGSIZE then sz - i else PGSIZE in
      let! r := readi ip (D_kernel pa) (u32 (offset + i)) n in
      if negb (r.1 =? n) then ret (Some (-1)) else ret None) in
  ret (default 0 r).

(** The loop over the [n] program headers left, the next one at [off]; [sz]
    is the size of the image.  The result is whether all went well, and
    [sz]. *)
Fixpoint load_segments (n : nat) (pagetable : Z) (ip : nat) (off sz : Z) : KM (bool * Z) :=
  match n with
  | O => ret (true, sz)
  | S n' =>
      let! r := readi ip D_local (u32 off) PROGHDR in
      let ph := r.2 in
      if negb (r.1 =? PROGHDR) then ret (false, sz)
      else if negb (ph_type ph =? ELF_PROG_LOAD) then load_segments n' pagetable ip (i32 (off + PROGHDR)) sz
      else if ph_memsz ph <? ph_filesz ph then ret (false, sz)
      else if u64 (ph_vaddr ph + ph_memsz ph) <? ph_vaddr ph then ret (false, sz)
      else if negb (ph_vaddr ph mod PGSIZE =? 0) then ret (false, sz)
      else
        let! sz1 := uvmalloc pagetable sz (u64 (ph_vaddr ph + ph_memsz ph)) (flags2perm (ph_flags ph)) in
        if sz1 =? 0 then ret (false, sz)
        else
          let! r := loadseg pagetable (ph_vaddr ph) ip (u32 (ph_off ph)) (u32 (ph_filesz ph)) in
          if r <? 0 then ret (false, sz1)
          else load_segments n' pagetable ip (i32 (off + PROGHDR)) sz1
  end.

(** The label [bad]. *)
Definition kexec_bad (pagetable sz : Z) (ipp : option nat) : KM Z :=
  do! when (negb (pagetable =? 0)) (proc_freepagetable pagetable sz);
  do! match ipp with
      | Some ip => do! iunlockput ip; end_op
      | None => ret tt
      end;
  ret (-1).

(** [sp -= n; sp -= sp % 16] *)
Definition push_down (sp n : Z) : Z := let sp := u64 (sp - n) in sp - sp mod 16.

(** Copy the argument strings to the stack.  The result is [sp] and
    [ustack]; [None] is a jump to [bad]. *)
Fixpoint push_args (pagetable stackbase : Z) (argv : list (list Z)) (sp : Z) (ustack : list Z) : KM (option (Z * list Z)) :=
  match argv with
  | [] => ret (Some (sp, ustack))
  | s :: argv' =>
      if MAXARG <=? Z.of_nat (length ustack) then ret None
      else
        let len := Z.of_nat (length s) + 1 in
        let sp := push_down sp len in
        if sp <? stackbase then ret None
        else
          let! r := copyout pagetable sp (s ++ [0]) len in
          if r <? 0 then ret None else push_args pagetable stackbase argv' sp (ustack ++ [sp])
  end.

(** From the commit to the new image on. *)
Definition kexec_commit (p : nat) (path : list Z) (pagetable sz sp argc entry oldsz : Z) : KM Z :=
  let! pr := getp p in
  do! store64 (p_trapframe pr + TF_a 1) sp;
  do! updp p (set p_name (safestrcpy_bytes (last_elem path path) 16));
  let oldpagetable := p_pagetable pr in
  do! updp p (fun x => x <| p_pagetable := pagetable |> <| p_sz := sz |>);
  do! store64 (p_trapframe pr + TF_epc) entry;
  do! store64 (p_trapframe pr + TF_sp) sp;
  do! proc_freepagetable oldpagetable oldsz;
  ret argc.

(** The user stack, once the segments are loaded. *)
Definition kexec_stack (path : list Z) (argv : list (list Z)) (pagetable sz entry : Z) : KM Z :=
  let! p := curproc in
  let! pr := getp p in
  let oldsz := p_sz pr in
  let sz := PGROUNDUP sz in
  let! sz1 := uvmalloc pagetable sz (u64 (sz + (USERSTACK + 1) * PGSIZE)) PTE_W in
  if sz1 =? 0 then kexec_bad pagetable sz None
  else
    do! uvmclear pagetable (u64 (sz1 - (USERSTACK + 1) * PGSIZE));
    let stackbase := u64 (sz1 - USERSTACK * PGSIZE) in
    let! r := push_args pagetable stackbase argv sz1 [] in
    match r with
    | None => kexec_bad pagetable sz1 None
    | Some (sp, ustack) =>
        let argc := Z.of_nat (length ustack) in
        let sp := push_down sp ((argc + 1) * 8) in
        if sp <? stackbase then kexec_bad pagetable sz1 None
        else
          let! r := copyout pagetable sp (mjoin (map (le_bytes 8) (ustack ++ [0]))) ((argc + 1) * 8) in
          if r <? 0 then kexec_bad pagetable sz1 None
          else kexec_commit p path pagetable sz1 sp argc entry oldsz
    end.

Definition kexec (path : list Z) (argv : list (list Z)) : KM Z :=
  let! p := curproc in
  do! begin_op;
  let! r := namei path in
  match r with
  | None => do! end_op; ret (-1)
  | Some ip =>
      do! ilock (Some ip);
      let! r := readi ip D_local 0 ELFHDR in
      let elf := r.2 in
      if negb (r.1 =? ELFHDR) then kexec_bad 0 0 (Some ip)
      else if negb (elf_magic elf =? ELF_MAGIC) then kexec_bad 0 0 (Some ip)
      else
        let! pagetable := proc_pagetable p in
        if pagetable =? 0 then kexec_bad 0 0 (Some ip)
        else
          let! r := load_segments (Z.to_nat (elf_phnum elf)) pagetable ip (i32 (elf_phoff elf)) 0 in
          if negb r.1 then kexec_bad pagetable r.2 (Some ip)
          else
            do! iunlockput ip;
            do! end_op;
            kexec_stack path argv pagetable r.2 (elf_entry elf)
  end.
End Exec.
