(* ===== verification/Syscall.v ===== *)
(** * System calls (kernel/syscall.c, kernel/sysproc.c, kernel/sysfile.c)

    A system call takes its arguments from the trap frame and returns the
    value the dispatcher stores in [a0].  A path fetched from user memory is
    the list of its bytes before the NUL. *)

From Stdlib Require Import ZArith Lia.
From stdpp Require Import base list strings sets.
From S2P Require Import Prelude Params Mem State Evict Kalloc Vm Sched Sleeplock Printf Bio Log Fs Pipe Console File ProcLife Exec.

(** kernel/vm.h *)
Definition SBRK_EAGER : Z := 1.

(** The bytes of a local array of [DIRSIZ] characters before it is written. *)
Definition name0 : list Z := replicate (Z.to_nat DIRSIZ) 0.

Section Syscall.
Context {L : Layout} {I : Interference} {D : Disk} {T : Text}.

(** ** Arguments (syscall.c) *)

(** The status and the word. *)
Definition fetchaddr (addr : Z) : KM (Z * Z) :=
  let! p := curproc in
  let! pr := getp p in
  if (p_sz pr <=? addr) || (p_sz pr <? u64 (addr + 8)) then ret (-1, 0)
  else
    let! r := copyin (p_pagetable pr) addr 8 in
    if negb (r.1 =? 0) then ret (-1, 0) else ret (0, le_val r.2).

(** The length or -1, and the bytes of the string. *)
Definition fetchstr (addr max : Z) : KM (Z * list Z) :=
  let! p := curproc in
  let! pr := getp p in
  let! r := copyinstr (p_pagetable pr) addr max in
  if r.1 <? 0 then ret (-1, r.2)
  else ret (Z.of_nat (length (until_nul r.2)), until_nul r.2).

Definition argraw (n : Z) : KM Z :=
  let! p := curproc in
  let! pr := getp p in
  if (0 <=? n) && (n <=? 5) then load64 (p_trapframe pr + TF_a n) else panic "argraw".
Definition argint (n : Z) : KM Z := let! v := argraw n in ret (i32 v).
Definition argaddr (n : Z) : KM Z := argraw n.
Definition argstr (n max : Z) : KM (Z * list Z) :=
  let! addr := argaddr n in
  fetchstr addr max.

(** ** sysproc.c *)
Definition sys_exit : KM Z :=
  let! n := argint 0 in
  do! kexit n;
  ret 0.

Definition sys_getpid : KM Z := mypid.
Definition sys_fork : KM Z := kfork.

Definition sys_wait : KM Z :=
  let! p := argaddr 0 in
  kwait p.

Definition sys_sbrk : KM Z :=
  let! n := argint 0 in
  let! t := argint 1 in
  let! p := curproc in
  let! pr := getp p in
  let addr := p_sz pr in
  if (t =? SBRK_EAGER) || (n <? 0) then
    let! r := growproc n in
    if r <? 0 then ret (-1) else ret addr
  else if u64 (addr + n) <? addr then ret (-1)
  else if TRAPFRAME <? u64 (addr + n) then ret (-1)
  else
    do! updp p (set p_sz (fun s => u64 (s + n)));
    ret addr.

Definition sys_pause : KM Z :=
  let! n := argint 0 in
  let n := if n <? 0 then 0 else n in
  do! acquire L_ticks;
  let! ticks0 := gets k_ticks in
  let! dead := wait_unless_killed (fun k => u32 (k_ticks k - ticks0) <? n) CH_ticks L_ticks in
  do! release L_ticks;
  ret (if dead then -1 else 0).

Definition sys_kill : KM Z :=
  let! pid := argint 0 in
  kkill pid.

Definition sys_uptime : KM Z :=
  do! acquire L_ticks;
  let! xticks := gets k_ticks in
  do! release L_ticks;
  ret xticks.

Definition sys_hello : KM Z :=
  do! printf (cstr "%s") [PStr (Some (cstr "hello from the kernel!" ++ [NEWLINE]))];
  ret 0.

Definition sys_getppid : KM Z := kgetppid.

Definition sys_getnumchild : KM Z :=
  let! p := argaddr 0 in
  kgetnumchild p.

Definition sys_getsyscount : KM Z :=
  let! p := curproc in
  let! pr := getp p in
  ret (p_sysCount pr).

Definition sys_getchildsyscount : KM Z :=
  let! pid := argint 0 in
  kgetchildsyscount pid.

Definition sys_getpid2 : KM Z := mypid.

Definition sys_getpinfo : KM Z :=
  let! p := curproc in
  do! acquire (L_proc p);
  let! pr := getp p in
  do! printf (NEWLINE :: cstr " --- PID:%d STATS ---" ++ [NEWLINE]) [PInt (p_pid pr)];
  do! printf (cstr "Total number of ticks per qlevel" ++ [NEWLINE]) [];
  do! for_range (Z.to_nat LEVELS) 0 (fun i =>
    printf (cstr "LEVEL:%d" ++ [9] ++ cstr "->%d" ++ [NEWLINE]) [PInt i; PInt (aget (p_qticks pr) i)]);
  do! printf (cstr "Number of times rescheduled:%d" ++ [NEWLINE]) [PInt (p_tsched pr)];
  do! printf (cstr "Number of syscount:%d" ++ [NEWLINE]) [PInt (p_sysCount pr)];
  do! release (L_proc p);
  ret 0.

Definition sys_getlevel : KM Z :=
  let! p := curproc in
  let! pr := getp p in
  ret (p_qlevel pr).

Definition sys_getmlfqinfo : KM Z :=
  let! pid := argint 0 in
  let! info_ptr := argaddr 1 in
  kgetmlfqinfo pid info_ptr.

Definition sys_getvmstats : KM Z :=
  let! pid := argint 0 in
  let! info_ptr := argaddr 1 in
  kgetvmstats pid info_ptr.

(** ** sysfile.c: descriptors *)

(** The descriptor and the file; [None] is the return value -1. *)
Definition argfd (n : Z) : KM (option (Z * nat)) :=
  let! fd := argint n in
  if (fd <? 0) || (NOFILE <=? fd) then ret None
  else
    let! p := curproc in
    let! pr := getp p in
    match aget (p_ofile pr) fd with
    | Some f => ret (Some (fd, f))
    | None => ret None
    end.

Definition fdalloc (f : nat) : KM Z :=
  let! p := curproc in
  let! r := for_until (Z.to_nat NOFILE) 0 (fun fd =>
    let! pr := getp p in
    match aget (p_ofile pr) fd with
    | None => do! updp p (set p_ofile (aset fd (Some f))); ret (Some fd)
    | Some _ => ret None
    end) in
  ret (default (-1) r).

Definition clear_fd (p : nat) (fd : Z) : KM unit := updp p (set p_ofile (aset fd None)).

Definition sys_dup : KM Z :=
  let! r := argfd 0 in
  match r with
  | None => ret (-1)
  | Some (_, f) =>
      let! fd := fdalloc f in
      if fd <? 0 then ret (-1)
      else do! filedup f; ret fd
  end.

Definition sys_read : KM Z :=
  let! p := argaddr 1 in
  let! n := argint 2 in
  let! r := argfd 0 in
  match r with
  | None => ret (-1)
  | Some (_, f) => fileread f p n
  end.

Definition sys_write : KM Z :=
  let! p := argaddr 1 in
  let! n := argint 2 in
  let! r := argfd 0 in
  match r with
  | None => ret (-1)
  | Some (_, f) => filewrite f p n
  end.

Definition sys_close : KM Z :=
  let! r := argfd 0 in
  match r with
  | None => ret (-1)
  | Some (fd, f) =>
      let! p := curproc in
      do! clear_fd p fd;
      do! fileclose f;
      ret 0
  end.

(** [pad]: the padding of the [struct stat] on the kernel stack. *)
Definition sys_fstat (pad : list Z) : KM Z :=
  let! st := argaddr 1 in
  let! r := argfd 0 in
  match r with
  | None => ret (-1)
  | Some (_, f) => filestat pad f st
  end.

(** ** sysfile.c: links *)

(** [ip->nlink += d; iupdate(ip)] *)
Definition add_link (ip : nat) (d : Z) : KM unit :=
  do! updi ip (set i_nlink (fun n => i16 (n + d)));
  iupdate ip.

(** The label [bad] of [sys_link]. *)
Definition sys_link_bad (ip : nat) : KM Z :=
  do! ilock (Some ip);
  do! add_link ip (-1);
  do! iunlockput ip;
  do! end_op;
  ret (-1).

(** From the update of the link count on. *)
Definition sys_link_at (ip : nat) (new : list Z) : KM Z :=
  do! add_link ip 1;
  do! iunlock (Some ip);
  let! r := nameiparent new name0 in
  match r with
  | (None, _) => sys_link_bad ip
  | (Some dp, name) =>
      do! ilock (Some dp);
      let! d := geti dp in
      let! i := geti ip in
      let! r := if negb (i_dev d =? i_dev i) then ret (-1) else dirlink dp name (i_inum i) in
      if r <? 0 then
        do! iunlockput dp;
        sys_link_bad ip
      else
        do! iunlockput dp;
        do! iput ip;
        do! end_op;
        ret 0
  end.

Definition sys_link : KM Z :=
  let! old := argstr 0 MAXPATH in
  if old.1 <? 0 then ret (-1)
  else
    let! new := argstr 1 MAXPATH in
    if new.1 <? 0 then ret (-1)
    else
      do! begin_op;
      let! r := namei old.2 in
      match r with
      | None => do! end_op; ret (-1)
      | Some ip =>
          do! ilock (Some ip);
          let! x := geti ip in
          if i_type x =? T_DIR then
            do! iunlockput ip;
            do! end_op;
            ret (-1)
          else sys_link_at ip new.2
      end.

Definition isdirempty (dp : nat) : KM bool :=
  let! x := geti dp in
  let! r := for_until (dirents (i_size x) - 2) 2 (fun j =>
    let! r := readi dp D_local (DIRENT * j) DIRENT in
    if negb (r.1 =? DIRENT) then panic "isdirempty: readi"
    else if negb (de_inum r.2 =? 0) then ret (Some false) else ret None) in
  ret (default true r).

(** The label [bad] of [sys_unlink]. *)
Definition sys_unlink_bad (dp : nat) : KM Z :=
  do! iunlockput dp;
  do! end_op;
  ret (-1).

(** Remove the entry at [off] of [dp], which names the locked inode [ip]. *)
Definition sys_unlink_entry (dp ip : nat) (off : Z) : KM Z :=
  let! r := writei dp (S_bytes (replicate (Z.to_nat DIRENT) 0)) off DIRENT in
  if negb (r =? DIRENT) then panic "unlink: writei"
  else
    let! x := geti ip in
    do! when (i_type x =? T_DIR) (add_link dp (-1));
    do! iunlockput dp;
    do! add_link ip (-1);
    do! iunlockput ip;
    do! end_op;
    ret 0.

Definition sys_unlink : KM Z :=
  let! path := argstr 0 MAXPATH in
  if path.1 <? 0 then ret (-1)
  else
    do! begin_op;
    let! r := nameiparent path.2 name0 in
    match r with
    | (None, _) => do! end_op; ret (-1)
    | (Some dp, name) =>
        do! ilock (Some dp);
        if (namecmp name (cstr ".") =? 0) || (namecmp name (cstr "..") =? 0) then sys_unlink_bad dp
        else
          let! r := dirlookup dp name in
          match r with
          | None => sys_unlink_bad dp
          | Some (ip, off) =>
              do! ilock (Some ip);
              let! x := geti ip in
              if i_nlink x <? 1 then panic "unlink: nlink < 1"
              else
                let! full := if i_type x =? T_DIR then let! e := isdirempty ip in ret (negb e) else ret false in
                if full then do! iunlockput ip; sys_unlink_bad dp
                else sys_unlink_entry dp ip off
          end
    end.

(** ** sysfile.c: creation *)

(** The label [fail] of [create]. *)
Definition create_fail (dp ip : nat) : KM (option nat) :=
  do! updi ip (set i_nlink (fun _ => 0));
  do! iupdate ip;
  do! iunlockput ip;
  do! iunlockput dp;
  ret None.

(** The new inode [ip], locked, gets its fields and its entry in [dp]. *)
Definition create_new (dp ip : nat) (name : list Z) (type major minor : Z) : KM (option nat) :=
  do! updi ip (fun x => x <| i_major := major |> <| i_minor := minor |> <| i_nlink := 1 |>);
  do! iupdate ip;
  let! x := geti ip in
  let! d := geti dp in
  let! r :=
    if type =? T_DIR then
      let! r := dirlink ip (cstr ".") (i_inum x) in
      if r <? 0 then ret r else dirlink ip (cstr "..") (i_inum d)
    else ret 0 in
  if r <? 0 then create_fail dp ip
  else
    let! r := dirlink dp name (i_inum x) in
    if r <? 0 then create_fail dp ip
    else
      do! when (type =? T_DIR) (add_link dp 1);
      do! iunlockput dp;
      ret (Some ip).

Definition create (path : list Z) (type major minor : Z) : KM (option nat) :=
  let! r := nameiparent path name0 in
  match r with
  | (None, _) => ret None
  | (Some dp, name) =>
      do! ilock (Some dp);
      let! r := dirlookup dp name in
      match r with
      | Some (ip, _) =>
          do! iunlockput dp;
          do! ilock (Some ip);
          let! x := geti ip in
          if (type =? T_FILE) && ((i_type x =? T_FILE) || (i_type x =? T_DEVICE)) then ret (Some ip)
          else do! iunlockput ip; ret None
      | None =>
          let! d := geti dp in
          let! r := ialloc (i_dev d) type in
          match r with
          | None => do! iunlockput dp; ret None
          | Some ip =>
              do! ilock (Some ip);
              create_new dp ip name type major minor
          end
      end
  end.

(** An exit of a system call that holds the locked inode [ip]. *)
Definition fail_put (ip : nat) : KM Z :=
  do! iunlockput ip;
  do! end_op;
  ret (-1).

(** [sys_open] once the inode is found and locked. *)
Definition sys_open_at (ip : nat) (omode : Z) : KM Z :=
  let! x := geti ip in
  if (i_type x =? T_DEVICE) && ((i_major x <? 0) || (NDEV <=? i_major x)) then fail_put ip
  else
    let! r := filealloc in
    match r with
    | None => fail_put ip
    | Some f =>
        let! fd := fdalloc f in
        if fd <? 0 then
          do! fileclose f;
          fail_put ip
        else
          do! if i_type x =? T_DEVICE
              then updf f (fun y => y <| fl_type := FD_DEVICE |> <| fl_major := i_major x |>)
              else updf f (fun y => y <| fl_type := FD_INODE |> <| fl_off := 0 |>);
          do! updf f (fun y => y <| fl_ip := Some ip |> <| fl_readable := negb (has omode O_WRONLY) |>
                                 <| fl_writable := has omode O_WRONLY || has omode O_RDWR |>);
          do! when (has omode O_TRUNC && (i_type x =? T_FILE)) (itrunc ip);
          do! iunlock (Some ip);
          do! end_op;
          ret fd
    end.

Definition sys_open : KM Z :=
  let! omode := argint 1 in
  let! path := argstr 0 MAXPATH in
  if path.1 <? 0 then ret (-1)
  else
    do! begin_op;
    if has omode O_CREATE then
      let! r := create path.2 T_FILE 0 0 in
      match r with
      | None => do! end_op; ret (-1)
      | Some ip => sys_open_at ip omode
      end
    else
      let! r := namei path.2 in
      match r with
      | None => do! end_op; ret (-1)
      | Some ip =>
          do! ilock (Some ip);
          let! x := geti ip in
          if (i_type x =? T_DIR) && negb (omode =? O_RDONLY) then fail_put ip
          else sys_open_at ip omode
      end.

(** The common end of [sys_mkdir] and [sys_mknod]. *)
Definition create_done (r : option nat) : KM Z :=
  match r with
  | None => do! end_op; ret (-1)
  | Some ip =>
      do! iunlockput ip;
      do! end_op;
      ret 0
  end.

Definition sys_mkdir : KM Z :=
  do! begin_op;
  let! path := argstr 0 MAXPATH in
  let! r := if path.1 <? 0 then ret None else create path.2 T_DIR 0 0 in
  create_done r.

Definition sys_mknod : KM Z :=
  do! begin_op;
  let! major := argint 1 in
  let! minor := argint 2 in
  let! path := argstr 0 MAXPATH in
  let! r := if path.1 <? 0 then ret None else create path.2 T_DEVICE (i16 major) (i16 minor) in
  create_done r.

Definition sys_chdir : KM Z :=
  let! p := curproc in
  do! begin_op;
  let! path := argstr 0 MAXPATH in
  let! r := if path.1 <? 0 then ret None else namei path.2 in
  match r with
  | None => do! end_op; ret (-1)
  | Some ip =>
      do! ilock (Some ip);
      let! x := geti ip in
      if negb (i_type x =? T_DIR) then fail_put ip
      else
        do! iunlock (Some ip);
        let! pr := getp p in
        let! cwd := deref (p_cwd pr) in
        do! iput cwd;
        do! end_op;
        do! updp p (set p_cwd (fun _ => Some ip));
        ret 0
  end.

(** ** sysfile.c: exec and pipe *)

(** [for(i = 0; i < NELEM(argv) && argv[i] != 0; i++) kfree(argv[i]);] *)
Fixpoint free_argv (pages : list Z) : KM unit :=
  match pages with
  | [] => ret tt
  | a :: pages' => do! kfree a; free_argv pages'
  end.

(** Fetch the arguments from the [i]th on, [n] being the room left in [argv].
    The strings, [None] for a jump to [bad], and the pages of [argv]. *)
Fixpoint fetch_argv (n : nat) (uargv i : Z) : KM (option (list (list Z)) * list Z) :=
  match n with
  | O => ret (None, [])
  | S n' =>
      let! r := fetchaddr (u64 (uargv + 8 * i)) in
      if r.1 <? 0 then ret (None, [])
      else if r.2 =? 0 then ret (Some [], [])
      else
        let! page := kalloc in
        if page =? 0 then ret (None, [])
        else
          let! s := fetchstr r.2 PGSIZE in
          if s.1 <? 0 then
            do! kstore page s.2;
            ret (None, [page])
          else
            do! kstore page (s.2 ++ [0]);
            let! rest := fetch_argv n' uargv (i + 1) in
            ret (cons s.2 <$> rest.1, page :: rest.2)
  end.

Definition sys_exec : KM Z :=
  let! uargv := argaddr 1 in
  let! path := argstr 0 MAXPATH in
  if path.1 <? 0 then ret (-1)
  else
    let! r := fetch_argv (Z.to_nat MAXARG) uargv 0 in
    match r.1 with
    | None => do! free_argv r.2; ret (-1)
    | Some argv =>
        let! v := kexec path.2 argv in
        do! free_argv r.2;
        ret v
    end.

Definition sys_pipe : KM Z :=
  let! p := curproc in
  let! fdarray := argaddr 0 in
  let! r := pipealloc in
  match r with
  | None => ret (-1)
  | Some (rf, wf) =>
      let! fd0 := fdalloc rf in
      let! fd1 := if fd0 <? 0 then ret (-1) else fdalloc wf in
      if (fd0 <? 0) || (fd1 <? 0) then
        do! when (0 <=? fd0) (clear_fd p fd0);
        do! fileclose rf;
        do! fileclose wf;
        ret (-1)
      else
        let! pr := getp p in
        let! r := copyout (p_pagetable pr) fdarray (le_bytes 4 fd0) 4 in
        let! r := if r <? 0 then ret r else copyout (p_pagetable pr) (u64 (fdarray + 4)) (le_bytes 4 fd1) 4 in
        if r <? 0 then
          do! clear_fd p fd0;
          do! clear_fd p fd1;
          do! fileclose rf;
          do! fileclose wf;
          ret (-1)
        else ret 0
  end.

(** ** The dispatcher (syscall.c, with the numbers of syscall.h) *)
Definition syscalls (pad : list Z) (num : Z) : option (KM Z) :=
  match num with
  | 1 => Some sys_fork | 2 => Some sys_exit | 3 => Some sys_wait | 4 => Some sys_pipe
  | 5 => Some sys_read | 6 => Some sys_kill | 7 => Some sys_exec | 8 => Some (sys_fstat pad)
  | 9 => Some sys_chdir | 10 => Some sys_dup | 11 => Some sys_getpid | 12 => Some sys_sbrk
  | 13 => Some sys_pause | 14 => Some sys_uptime | 15 => Some sys_open | 16 => Some sys_write
  | 17 => Some sys_mknod | 18 => Some sys_unlink | 19 => Some sys_link | 20 => Some sys_mkdir
  | 21 => Some sys_close | 22 => Some sys_hello | 23 => Some sys_getppid
  | 24 => Some sys_getnumchild | 25 => Some sys_getsyscount | 26 => Some sys_getchildsyscount
  | 27 => Some sys_getpid2 | 28 => Some sys_getpinfo | 29 => Some sys_getlevel
  | 30 => Some sys_getmlfqinfo | 31 => Some sys_getvmstats
  | _ => None
  end.

Definition syscall (pad : list Z) : KM unit :=
  let! p := curproc in
  let! pr := getp p in
  let! a7 := load64 (p_trapframe pr + TF_a 7) in
  let num := i32 a7 in
  match syscalls pad num with
  | Some f =>
      do! updp p (set p_sysCount (fun c => i32 (c + 1)));
      let! r := f in
      let! pr := getp p in
      store64 (p_trapframe pr + TF_a 0) (u64 r)
  | None =>
      do! printf (cstr "%d %s: unknown sys call %d" ++ [NEWLINE])
            [PInt (p_pid pr); PStr (Some (until_nul (p_name pr))); PInt num];
      store64 (p_trapframe pr + TF_a 0) (u64 (-1))
  end.
End Syscall.
