(* ===== verification/Trap.v ===== *)
(** * Traps and start-up (kernel/trap.c, plic.c, main.c, forkret of proc.c)

    The control registers are [k_csr].  What a device register reads as
    during an interrupt is an argument: the interrupt the PLIC reports and
    whether the UART's transmitter is idle. *)

From Stdlib Require Import ZArith Lia.
From stdpp Require Import base list strings sets.
From S2P Require Import Prelude Params Mem State Evict Kalloc Vm Sched Sleeplock Printf Bio Log Fs Pipe Console File ProcLife Virtio Exec Syscall.

(** riscv.h, memlayout.h *)
Definition SSTATUS_SPP : Z := Z.shiftl 1 8.
Definition SSTATUS_SPIE : Z := Z.shiftl 1 5.
Definition SATP_SV39 : Z := Z.shiftl 8 60.
Definition MAKE_SATP (pagetable : Z) : Z := Z.lor SATP_SV39 (Z.shiftr pagetable 12).
Definition UART0_IRQ : Z := 10.
Definition VIRTIO0_IRQ : Z := 1.

Definition updr (f : csrs -> csrs) : KM unit := modify (fun k => k <| k_csr ::= f |>).
Definition getr : KM csrs := gets k_csr.

(** ** Control registers (kernel/riscv.h) *)
Definition w_sstatus (x : Z) : KM unit := updr (set r_sstatus (fun _ => x)).
Definition w_stvec (x : Z) : KM unit := updr (set r_stvec (fun _ => x)).
Definition w_sepc (x : Z) : KM unit := updr (set r_sepc (fun _ => x)).
Definition w_satp (x : Z) : KM unit := updr (set r_satp (fun _ => x)).
Definition w_stimecmp (x : Z) : KM unit := updr (set r_stimecmp (fun _ => x)).
Definition intr_on : KM unit := let! r := getr in w_sstatus (Z.lor (r_sstatus r) SSTATUS_SIE).
Definition intr_off : KM unit := let! r := getr in w_sstatus (Z.land (r_sstatus r) (Z.lnot SSTATUS_SIE)).

(** What the devices answer when an interrupt is handled: the register of the
    PLIC that tells which device interrupted, whether the UART's transmitter
    is idle, and the clock. *)
Record devices := mkdevices { irq : Z; tx_idle : bool; r_time : Z }.

(** ** The interrupt controller (kernel/plic.c) *)
Definition PLIC_SENABLE (hart : Z) : Z := PLIC + 0x2080 + hart * 0x100.
Definition PLIC_SPRIORITY (hart : Z) : Z := PLIC + 0x201000 + hart * 0x2000.
Definition PLIC_SCLAIM (hart : Z) : Z := PLIC + 0x201004 + hart * 0x2000.

Definition cpuid : KM Z := gets k_cpuid.

Definition plicinit : KM unit :=
  do! mmio_write (PLIC + UART0_IRQ * 4) 1;
  mmio_write (PLIC + VIRTIO0_IRQ * 4) 1.

Definition plicinithart : KM unit :=
  let! hart := cpuid in
  do! mmio_write (PLIC_SENABLE hart) (Z.lor (Z.shiftl 1 UART0_IRQ) (Z.shiftl 1 VIRTIO0_IRQ));
  mmio_write (PLIC_SPRIORITY hart) 0.

(** The value read is the device's. *)
Definition plic_claim (dev : devices) : KM Z := ret (i32 (irq dev)).

Definition plic_complete (irq : Z) : KM unit :=
  let! hart := cpuid in
  mmio_write (PLIC_SCLAIM hart) (u32 irq).

Section Trap.
Context {L : Layout} {I : Interference} {D : Disk} {T : Text}.

Definition trapinit : KM unit := initlock L_ticks.

Definition clockintr (dev : devices) : KM unit :=
  let! id := cpuid in
  do! when (id =? 0)
    (do! acquire L_ticks;
     do! modify (fun k => k <| k_ticks ::= fun t => u32 (t + 1) |>);
     do! wakeup CH_ticks;
     release L_ticks);
  w_stimecmp (u64 (r_time dev + 1000000)).

(** 2 for the timer, 1 for another device, 0 if not recognised. *)
Definition devintr (dev : devices) : KM Z :=
  let! r := getr in
  if r_scause r =? 0x8000000000000009 then
    let! irq := plic_claim dev in
    do! if irq =? UART0_IRQ then uartintr (tx_idle dev)
        else if irq =? VIRTIO0_IRQ then virtio_disk_intr
        else when (negb (irq =? 0))
               (printf (cstr "unexpected interrupt irq=%d" ++ [NEWLINE]) [PInt irq]);
    do! when (negb (irq =? 0)) (plic_complete irq);
    ret 1
  else if r_scause r =? 0x8000000000000005 then
    do! clockintr dev;
    ret 2
  else ret 0.

Definition prepare_return : KM unit :=
  let! p := curproc in
  do! intr_off;
  do! w_stvec (u64 (TRAMPOLINE + (uservec_addr - trampoline)));
  let! pr := getp p in
  let tf := p_trapframe pr in
  let! r := getr in
  do! store64 (tf + TF_kernel_satp) (r_satp r);
  do! store64 (tf + TF_kernel_sp) (u64 (p_kstack pr + PGSIZE));
  do! store64 (tf + TF_kernel_trap) usertrap_addr;
  let! id := gets k_cpuid in
  do! store64 (tf + TF_kernel_hartid) id;
  let! r := getr in
  do! w_sstatus (Z.lor (Z.land (r_sstatus r) (Z.lnot SSTATUS_SPP)) SSTATUS_SPIE);
  let! epc := load64 (tf + TF_epc) in
  w_sepc epc.

(** Handle the cause of a trap from user space; the result is [which_dev]. *)
Definition usertrap_cause (pad : list Z) (dev : devices) (p : nat) : KM Z :=
  let! r := getr in
  let! pr := getp p in
  let tf := p_trapframe pr in
  if r_scause r =? 8 then
    let! d := killed p in
    do! when (negb (d =? 0)) (kexit (-1));
    let! epc := load64 (tf + TF_epc) in
    do! store64 (tf + TF_epc) (u64 (epc + 4));
    do! intr_on;
    do! syscall pad;
    ret 0
  else
    let! which_dev := devintr dev in
    if negb (which_dev =? 0) then ret which_dev
    else if (r_scause r =? 15) || (r_scause r =? 13) || (r_scause r =? 12) then
      let! pr := getp p in
      let! pa := vmfault (p_pagetable pr) (r_stval r) in
      if pa =? 0 then panic "mem alloc failed" else ret 0
    else
      do! printf (cstr "usertrap(): unexpected scause 0x%lx pid=%d" ++ [NEWLINE])
            [PInt (r_scause r); PInt (p_pid pr)];
      do! printf (cstr "            sepc=0x%lx stval=0x%lx" ++ [NEWLINE]) [PInt (r_sepc r); PInt (r_stval r)];
      do! setkilled p;
      ret 0.

(** The value of [satp] for the return to user space. *)
Definition usertrap (pad : list Z) (dev : devices) : KM Z :=
  let! r := getr in
  if has (r_sstatus r) SSTATUS_SPP then panic "usertrap: not from user mode"
  else
    do! w_stvec kernelvec_addr;
    let! p := curproc in
    let! pr := getp p in
    do! store64 (p_trapframe pr + TF_epc) (r_sepc r);
    let! which_dev := usertrap_cause pad dev p in
    let! d := killed p in
    do! when (negb (d =? 0)) (kexit (-1));
    do! when (which_dev =? 2) (let! q := curproc in event_tick q);
    do! prepare_return;
    let! pr := getp p in
    ret (MAKE_SATP (p_pagetable pr)).

Definition kerneltrap (dev : devices) : KM unit :=
  let! r := getr in
  if negb (has (r_sstatus r) SSTATUS_SPP) then panic "kerneltrap: not from supervisor mode"
  else if has (r_sstatus r) SSTATUS_SIE then panic "kerneltrap: interrupts enabled"
  else
    let! which_dev := devintr dev in
    if which_dev =? 0 then
      let! r' := getr in
      do! printf (cstr "scause=0x%lx sepc=0x%lx stval=0x%lx" ++ [NEWLINE])
            [PInt (r_scause r); PInt (r_sepc r'); PInt (r_stval r')];
      panic "kerneltrap"
    else
      let! me := myproc in
      do! match me with
          | Some p => when (which_dev =? 2) (event_tick p)
          | None => ret tt
          end;
      do! w_sepc (r_sepc r);
      w_sstatus (r_sstatus r).

(** A new process's first steps; [first] is the static variable, which is set
    on the first call only.  The result is the argument of [userret]. *)
Definition forkret (first : bool) : KM Z :=
  let! p := curproc in
  do! release (L_proc p);
  do! when first
    (do! fsinit ROOTDEV;
     let! r := kexec (cstr "/init") [cstr "/init"] in
     let! pr := getp p in
     do! store64 (p_trapframe pr + TF_a 0) (u64 r);
     if r =? -1 then panic "exec" else ret tt);
  do! prepare_return;
  let! pr := getp p in
  ret (MAKE_SATP (p_pagetable pr)).

Definition kvminithart : KM unit :=
  do! sfence_vma;
  let! pt := gets k_kernel_pagetable in
  do! w_satp (MAKE_SATP pt);
  sfence_vma.

Definition trapinithart : KM unit := w_stvec kernelvec_addr.

(** [main] on the first CPU, up to the scheduler.  [R] are the disk's
    registers. *)
Definition main_cpu0 (R : Z -> Z) : KM unit :=
  do! consoleinit;
  do! printfinit;
  do! printf [NEWLINE] [];
  do! printf (cstr "xv6 kernel is booting" ++ [NEWLINE]) [];
  do! printf [NEWLINE] [];
  do! kinit;
  do! kvminit;
  do! kvminithart;
  do! procinit;
  do! trapinit;
  do! trapinithart;
  do! plicinit;
  do! plicinithart;
  do! binit;
  do! iinit;
  do! fileinit;
  do! virtio_disk_init R;
  do! qinit;
  do! sinit;
  do! userinit;
  modify (fun k => k <| k_started := 1 |>).

(** [main] on another CPU; while [started] is 0 it spins. *)
Definition main_cpu : KM unit :=
  let! s := gets k_started in
  if s =? 0 then Asleep
  else
    let! id := cpuid in
    do! printf (cstr "hart %d starting" ++ [NEWLINE]) [PInt id];
    do! kvminithart;
    do! trapinithart;
    plicinithart.

(** [n] rounds of the scheduler's endless loop; [run] is what a process does
    between two calls of [swtch]. *)
Definition main (R : Z -> Z) (n : nat) (run : nat -> KM unit) : KM unit :=
  let! id := cpuid in
  do! if id =? 0 then main_cpu0 R else main_cpu;
  SC_MLFQ n run.
End Trap.
