(* ===== verification/Asm.v ===== *)
(** * The assembly code

    kernel/trampoline.S, kernel/swtch.S, kernel/kernelvec.S and kernel/entry.S
    on a machine with the registers, the control registers they use and memory.
    The code is straight-line; a jump ends it and leaves its target in
    [pc].  Loads and stores go through the page table that satp names: what the
    hardware makes of it is the argument [trans]. *)

From Stdlib Require Import ZArith Lia.
From stdpp Require Import base list strings sets.
From S2P Require Import Prelude Params Mem State.

(** ** The machine *)
Inductive reg : Type :=
| ra | sp | gp | tp | t0 | t1 | t2 | s0 | s1 | a0 | a1 | a2 | a3 | a4 | a5 | a6 | a7
| s2 | s3 | s4 | s5 | s6 | s7 | s8 | s9 | s10 | s11 | t3 | t4 | t5 | t6.
#[export] Instance reg_eq_dec : EqDecision reg.
Proof. solve_decision. Defined.

Inductive csr : Type := sscratch | satp | mhartid.
#[export] Instance csr_eq_dec : EqDecision csr.
Proof. solve_decision. Defined.

(** [user] is the privilege mode. *)
Record machine := mkmachine {
  regs : reg -> Z;
  csrs : csr -> Z;
  mem : memory;
  pc : Z;
  user : bool
}.

Inductive instr : Type :=
| Sd (rs : reg) (off : Z) (base : reg)
| Ld (rd : reg) (off : Z) (base : reg)
| Addi (rd rs : reg) (imm : Z)
| Add (rd rs1 rs2 : reg)
| Mul (rd rs1 rs2 : reg)
| Li (rd : reg) (imm : Z)
| Csrw (c : csr) (rs : reg)
| Csrr (rd : reg) (c : csr)
| Sfence
| Jalr (rs : reg)
| Ret_
| Sret.

Definition rset (r : reg) (v : Z) (R : reg -> Z) : reg -> Z := fun q => if decide (q = r) then v else R q.
Definition cset (c : csr) (v : Z) (C : csr -> Z) : csr -> Z := fun d => if decide (d = c) then v else C d.

Section Machine.
(** The physical address of a virtual one under a page table, the program
    counter in sepc, and the address after the jump. *)
Context (trans : Z -> Z -> Z) (sepc link : Z).

Definition addr (M : machine) (base : reg) (off : Z) : Z := trans (csrs M satp) (u64 (regs M base + off)).

Definition step (i : instr) (M : machine) : machine :=
  let '(mkmachine R C m p u) := M in
  match i with
  | Sd rs off base => mkmachine R C (st64 m (addr M base off) (R rs)) p u
  | Ld rd off base => mkmachine (rset rd (ld64 m (addr M base off)) R) C m p u
  | Addi rd rs imm => mkmachine (rset rd (u64 (R rs + imm)) R) C m p u
  | Add rd rs1 rs2 => mkmachine (rset rd (u64 (R rs1 + R rs2)) R) C m p u
  | Mul rd rs1 rs2 => mkmachine (rset rd (u64 (R rs1 * R rs2)) R) C m p u
  | Li rd imm => mkmachine (rset rd (u64 imm) R) C m p u
  | Csrw c rs => mkmachine R (cset c (R rs) C) m p u
  | Csrr rd c => mkmachine (rset rd (C c) R) C m p u
  | Sfence => M
  | Jalr rs => mkmachine (rset ra link R) C m (R rs) u
  | Ret_ => mkmachine R C m (R ra) u
  | Sret => mkmachine R C m sepc true
  end.

Definition exec (code : list instr) (M : machine) : machine := fold_left (fun M i => step i M) code M.
End Machine.

(** ** trampoline.S *)
Definition uservec : list instr :=
  [Csrw sscratch a0;
   Li a0 TRAPFRAME;
   Sd ra 40 a0; Sd sp 48 a0; Sd gp 56 a0; Sd tp 64 a0; Sd t0 72 a0; Sd t1 80 a0; Sd t2 88 a0; Sd s0 96 a0; Sd s1 104 a0;
   Sd a1 120 a0; Sd a2 128 a0; Sd a3 136 a0; Sd a4 144 a0; Sd a5 152 a0; Sd a6 160 a0; Sd a7 168 a0;
   Sd s2 176 a0; Sd s3 184 a0; Sd s4 192 a0; Sd s5 200 a0; Sd s6 208 a0; Sd s7 216 a0; Sd s8 224 a0; Sd s9 232 a0; Sd s10 240 a0; Sd s11 248 a0;
   Sd t3 256 a0; Sd t4 264 a0; Sd t5 272 a0; Sd t6 280 a0;
   Csrr t0 sscratch;
   Sd t0 112 a0;
   Ld sp 8 a0;
   Ld tp 32 a0;
   Ld t0 16 a0;
   Ld t1 0 a0;
   Sfence;
   Csrw satp t1;
   Sfence;
   Jalr t0].

Definition userret : list instr :=
  [Sfence;
   Csrw satp a0;
   Sfence;
   Li a0 TRAPFRAME;
   Ld ra 40 a0; Ld sp 48 a0; Ld gp 56 a0; Ld tp 64 a0; Ld t0 72 a0; Ld t1 80 a0; Ld t2 88 a0; Ld s0 96 a0; Ld s1 104 a0;
   Ld a1 120 a0; Ld a2 128 a0; Ld a3 136 a0; Ld a4 144 a0; Ld a5 152 a0; Ld a6 160 a0; Ld a7 168 a0;
   Ld s2 176 a0; Ld s3 184 a0; Ld s4 192 a0; Ld s5 200 a0; Ld s6 208 a0; Ld s7 216 a0; Ld s8 224 a0; Ld s9 232 a0; Ld s10 240 a0; Ld s11 248 a0;
   Ld t3 256 a0; Ld t4 264 a0; Ld t5 272 a0; Ld t6 280 a0;
   Ld a0 112 a0;
   Sret].

(** ** swtch.S *)
Definition swtch : list instr :=
  [Sd ra 0 a0; Sd sp 8 a0; Sd s0 16 a0; Sd s1 24 a0; Sd s2 32 a0; Sd s3 40 a0; Sd s4 48 a0; Sd s5 56 a0; Sd s6 64 a0; Sd s7 72 a0;
   Sd s8 80 a0; Sd s9 88 a0; Sd s10 96 a0; Sd s11 104 a0;
   Ld ra 0 a1; Ld sp 8 a1; Ld s0 16 a1; Ld s1 24 a1; Ld s2 32 a1; Ld s3 40 a1; Ld s4 48 a1; Ld s5 56 a1; Ld s6 64 a1; Ld s7 72 a1;
   Ld s8 80 a1; Ld s9 88 a1; Ld s10 96 a1; Ld s11 104 a1;
   Ret_].

(** ** kernelvec.S, before and after the call of kerneltrap *)
Definition kernelvec_save : list instr :=
  [Addi sp sp (-256);
   Sd ra 0 sp; Sd gp 16 sp; Sd tp 24 sp; Sd t0 32 sp; Sd t1 40 sp; Sd t2 48 sp;
   Sd a0 72 sp; Sd a1 80 sp; Sd a2 88 sp; Sd a3 96 sp; Sd a4 104 sp; Sd a5 112 sp; Sd a6 120 sp; Sd a7 128 sp;
   Sd t3 216 sp; Sd t4 224 sp; Sd t5 232 sp; Sd t6 240 sp].
Definition kernelvec_restore : list instr :=
  [Ld ra 0 sp; Ld gp 16 sp; Ld t0 32 sp; Ld t1 40 sp; Ld t2 48 sp;
   Ld a0 72 sp; Ld a1 80 sp; Ld a2 88 sp; Ld a3 96 sp; Ld a4 104 sp; Ld a5 112 sp; Ld a6 120 sp; Ld a7 128 sp;
   Ld t3 216 sp; Ld t4 224 sp; Ld t5 232 sp; Ld t6 240 sp;
   Addi sp sp 256;
   Sret].

(** ** entry.S: a stack for each hart *)
Definition entry (stack0 : Z) : list instr :=
  [Li sp stack0; Li a0 (1024 * 4); Csrr a1 mhartid; Addi a1 a1 1; Mul a0 a0 a1; Add sp sp a0].

(** ** struct trapframe and struct context (kernel/proc.h) *)
Definition tf_off (r : reg) : Z :=
  match r with
  | ra => 40 | sp => 48 | gp => 56 | tp => 64 | t0 => 72 | t1 => 80 | t2 => 88 | s0 => 96 | s1 => 104
  | a0 => 112 | a1 => 120 | a2 => 128 | a3 => 136 | a4 => 144 | a5 => 152 | a6 => 160 | a7 => 168
  | s2 => 176 | s3 => 184 | s4 => 192 | s5 => 200 | s6 => 208 | s7 => 216 | s8 => 224 | s9 => 232 | s10 => 240 | s11 => 248
  | t3 => 256 | t4 => 264 | t5 => 272 | t6 => 280
  end.
(** The registers of a context, in order. *)
Definition context : list reg := [ra; sp; s0; s1; s2; s3; s4; s5; s6; s7; s8; s9; s10; s11].
Definition ctx_off (r : reg) : option Z := (fun ir => 8 * Z.of_nat ir.1) <$> list_find (r =.) context.

(** ** Saving and restoring registers *)
Definition saves (l : list (reg * Z)) (base : reg) : list instr := map (fun ro => Sd ro.1 ro.2 base) l.
Definition loads (l : list (reg * Z)) (base : reg) : list instr := map (fun ro => Ld ro.1 ro.2 base) l.

(** The slots do not overlap. *)
Fixpoint apart (l : list (reg * Z)) : bool :=
  match l with
  | [] => true
  | ro :: l' => forallb (fun ro' => (ro.2 + 8 <=? ro'.2) || (ro'.2 + 8 <=? ro.2)) l' && apart l'
  end.

(** All registers hold 64-bit values. *)
Definition regs_ok (R : reg -> Z) : Prop := forall r, 0 <= R r < 18446744073709551616.

Section Exec.
Context (trans : Z -> Z -> Z) (sepc link : Z).
Local Abbreviation exec := (exec trans sepc link).

Lemma exec_app c1 c2 M : exec (c1 ++ c2) M = exec c2 (exec c1 M).
Proof. apply fold_left_app. Qed.

Lemma exec_cons i c M : exec (i :: c) M = exec c (step trans sepc link i M).
Proof. done. Qed.

(** The area at [b] that the offsets [0] to [n] of [base] are mapped to. *)
Definition area (M : machine) (base : reg) (b n : Z) : Prop :=
  forall off, 0 <= off < n -> addr trans M base off = b + off.

(** Stores write the slots, each with its register, and nothing else. *)
Lemma exec_saves l base b n M : area M base b n -> Forall (fun ro => 0 <= ro.2 /\ ro.2 + 8 <= n) l -> apart l = true ->
  let M' := exec (saves l base) M in
  regs M' = regs M /\ csrs M' = csrs M /\ pc M' = pc M /\ user M' = user M /\
  (forall r off, (r, off) ∈ l -> ld64 (mem M') (b + off) = u64 (regs M r)) /\
  (forall a, (forall r off, (r, off) ∈ l -> a < b + off \/ b + off + 8 <= a) -> mem M' a = mem M a).
Proof.
  revert M. induction l as [|[r off] l IH]; intros M Ha Hl Hap; cbn [saves map fst snd].
  { repeat split; try done. intros r off H. by apply not_elem_of_nil in H. }
  apply Forall_cons in Hl as [[H0 Hn] Hl]. cbn [apart fst snd] in Hap. apply andb_true_iff in Hap as [Hd Hap]. rewrite exec_cons.
  set (M1 := step trans sepc link (Sd r off base) M).
  assert (mem M1 = st64 (mem M) (b + off) (regs M r)) as Em by (unfold M1; destruct M; cbn in *; f_equal; apply Ha; lia).
  assert (regs M1 = regs M /\ csrs M1 = csrs M /\ pc M1 = pc M /\ user M1 = user M) as (E1 & E2 & E3 & E4) by (unfold M1; by destruct M).
  destruct (IH M1) as (F1 & F2 & F3 & F4 & F5 & F6); [|done|done|].
  { intros o Ho. rewrite <- (Ha o Ho). unfold addr. by rewrite E1, E2. }
  fold (saves l base). cbv zeta. rewrite F1, F2, F3, F4, E1, E2, E3, E4. repeat split; try done.
  - intros r' off' [Heq|Hin]%elem_of_cons; [injection Heq as -> ->|by rewrite (F5 _ _ Hin), E1].
    rewrite <- (ld64_st64 (mem M) (b + off) (regs M r)), <- Em. apply ld64_ext. intros i Hi. apply F6. intros r' off' Hin.
    rewrite forallb_forall in Hd. specialize (Hd (r', off') (proj1 (list_elem_of_In _ _) Hin)). cbn in Hd. apply orb_true_iff in Hd as [Hd%Z.leb_le|Hd%Z.leb_le]; lia.
  - intros a Hout. rewrite F6, Em.
    + apply st64_out. destruct (Hout r off ltac:(left)); lia.
    + intros r' off' Hin. apply (Hout r'). by right.
Qed.

(** Loads set the registers from the slots. *)
Lemma exec_loads l base b n M : area M base b n -> Forall (fun ro => 0 <= ro.2 /\ ro.2 + 8 <= n) l -> NoDup l.*1 -> base ∉ l.*1 ->
  let M' := exec (loads l base) M in
  mem M' = mem M /\ csrs M' = csrs M /\ pc M' = pc M /\ user M' = user M /\
  (forall r off, (r, off) ∈ l -> regs M' r = ld64 (mem M) (b + off)) /\ (forall r, r ∉ l.*1 -> regs M' r = regs M r).
Proof.
  revert M. induction l as [|[r off] l IH]; intros M Ha Hl Hnd Hb; cbn [loads map fst snd].
  { repeat split; try done. intros r off H. by apply not_elem_of_nil in H. }
  apply Forall_cons in Hl as [[H0 Hn] Hl]. cbn [fst snd] in *. rewrite fmap_cons in Hnd, Hb. apply NoDup_cons in Hnd as [Hnin Hnd].
  apply not_elem_of_cons in Hb as [Hbr Hb]. rewrite exec_cons. set (M1 := step trans sepc link (Ld r off base) M).
  assert (regs M1 = rset r (ld64 (mem M) (b + off)) (regs M)) as Er by (unfold M1; destruct M; cbn in *; do 2 f_equal; apply Ha; lia).
  assert (mem M1 = mem M /\ csrs M1 = csrs M /\ pc M1 = pc M /\ user M1 = user M) as (E1 & E2 & E3 & E4) by (unfold M1; by destruct M).
  destruct (IH M1) as (F1 & F2 & F3 & F4 & F5 & F6); [|done|done|done|].
  { intros o Ho. rewrite <- (Ha o Ho). unfold addr. rewrite Er, E2. unfold rset. by rewrite decide_False. }
  fold (loads l base). cbv zeta. rewrite F1, F2, F3, F4, E1, E2, E3, E4. repeat split; try done.
  - intros r' off' [Heq|Hin]%elem_of_cons; [injection Heq as -> ->|by rewrite (F5 _ _ Hin), E1].
    rewrite F6, Er by done. unfold rset. by rewrite decide_True.
  - intros r' Hr'. rewrite fmap_cons in Hr'. apply not_elem_of_cons in Hr' as [Hne Hnot]. rewrite F6, Er by done. unfold rset. by rewrite decide_False.
Qed.
End Exec.
