(* ===== verification/AsmProps.v ===== *)
(** * Traps and context switches keep registers

    Theorems on the code of kernel/trampoline.S, kernel/swtch.S,
    kernel/kernelvec.S and kernel/entry.S. *)

From Stdlib Require Import ZArith Lia.
From stdpp Require Import base list strings sets.
From S2P Require Import Prelude Params Mem State Evict Kalloc Vm Sched Sleeplock Printf Bio Log Fs Pipe Console File ProcLife.
From S2P Require Import Asm.

(** A decidable fact about concrete slots. *)
Ltac slots := apply (bool_decide_unpack _); vm_compute; exact I.

(** The slots of the registers but a0 in the trapframe. *)
Definition user_regs : list reg :=
  [ra; sp; gp; tp; t0; t1; t2; s0; s1; a1; a2; a3; a4; a5; a6; a7; s2; s3; s4; s5; s6; s7; s8; s9; s10; s11; t3; t4; t5; t6].
Definition user_slots : list (reg * Z) := map (fun r => (r, tf_off r)) user_regs.

Lemma uservec_eq : uservec = [Csrw sscratch a0; Li a0 TRAPFRAME] ++ saves user_slots a0 ++
  [Csrr t0 sscratch; Sd t0 112 a0; Ld sp 8 a0; Ld tp 32 a0; Ld t0 16 a0; Ld t1 0 a0; Sfence; Csrw satp t1; Sfence; Jalr t0].
Proof. reflexivity. Qed.

Lemma userret_eq : userret = [Sfence; Csrw satp a0; Sfence; Li a0 TRAPFRAME] ++ loads user_slots a0 ++ [Ld a0 112 a0; Sret].
Proof. reflexivity. Qed.

Lemma user_slot r : r <> a0 -> (r, tf_off r) ∈ user_slots.
Proof.
  intros Hr. apply (list_elem_of_fmap_2 (fun r => (r, tf_off r)) user_regs r). unfold user_regs. destruct r; try done; set_solver.
Qed.

Lemma user_slot_inv r off : (r, off) ∈ user_slots -> r <> a0 /\ off = tf_off r.
Proof.
  intros H. apply list_elem_of_fmap in H as (r' & E & Hin). injection E as -> ->. split; [|done]. intros ->. revert Hin. unfold user_regs. set_solver.
Qed.

Lemma user_regs_nodup : NoDup user_slots.*1.
Proof. slots. Qed.

Lemma a0_not_user : a0 ∉ user_slots.*1.
Proof. slots. Qed.

Lemma tf_off_range r : 40 <= tf_off r /\ tf_off r + 8 <= 288.
Proof. destruct r; cbn; lia. Qed.

Lemma tf_off_apart r r' : r <> r' -> tf_off r + 8 <= tf_off r' \/ tf_off r' + 8 <= tf_off r.
Proof. destruct r, r'; cbn; try done; lia. Qed.

Section Trampoline.
Context (trans : Z -> Z -> Z) (sepc link tf usatp : Z).
Local Abbreviation exec := (exec trans sepc link).

(** The page table of the process maps TRAPFRAME to its trapframe. *)
Hypothesis (Htrap : forall off, 0 <= off < PGSIZE -> trans usatp (TRAPFRAME + off) = tf + off).

Lemma trap_area M : csrs M satp = usatp -> regs M a0 = TRAPFRAME -> area trans M a0 tf PGSIZE.
Proof.
  intros E1 E2 off Hoff. unfold addr. rewrite E1, E2, u64_id; [by apply Htrap|]. change TRAPFRAME with 274877898752. change PGSIZE with 4096 in Hoff. lia.
Qed.

Lemma slots_fit : Forall (fun ro => 0 <= ro.2 /\ ro.2 + 8 <= PGSIZE) user_slots.
Proof.
  apply Forall_forall. intros [r off] H. apply user_slot_inv in H as [_ ->]. pose proof (tf_off_range r). change PGSIZE with 4096. cbn. lia.
Qed.

(** Entry: the registers are in the trapframe, and the kernel's are set. *)
Lemma uservec_spec M : csrs M satp = usatp -> regs_ok (regs M) -> let M' := exec uservec M in
  (forall r, ld64 (mem M') (tf + tf_off r) = regs M r) /\
  (forall a, a < tf + 40 \/ tf + 288 <= a -> mem M' a = mem M a) /\
  pc M' = ld64 (mem M) (tf + TF_kernel_trap) /\ csrs M' satp = ld64 (mem M) (tf + TF_kernel_satp) /\
  regs M' sp = ld64 (mem M) (tf + TF_kernel_sp) /\ regs M' tp = ld64 (mem M) (tf + TF_kernel_hartid) /\ regs M' ra = link /\ user M' = user M.
Proof.
  intros Es Hok. rewrite uservec_eq, exec_app. set (M1 := exec [Csrw sscratch a0; Li a0 TRAPFRAME] M).
  assert (mem M1 = mem M /\ user M1 = user M /\ csrs M1 satp = usatp /\ csrs M1 sscratch = regs M a0 /\ regs M1 a0 = TRAPFRAME /\
    forall r, r <> a0 -> regs M1 r = regs M r) as (E1 & E2 & E3 & E4 & E5 & E6).
  { unfold M1. destruct M as [R C m p u]. cbn in *. unfold cset, rset. repeat split; try done. intros r Hr. by rewrite decide_False. }
  pose proof (trap_area M1 E3 E5) as HA. rewrite exec_app.
  destruct (exec_saves trans sepc link user_slots a0 tf PGSIZE M1 HA slots_fit eq_refl) as (F1 & F2 & F3 & F4 & F5 & F6).
  set (M2 := exec (saves user_slots a0) M1) in *.
  assert (forall a, a < tf + 40 \/ tf + 288 <= a -> mem M2 a = mem M a) as Hout.
  { intros a Ha. rewrite F6, E1; [done|]. intros r off Hin. apply user_slot_inv in Hin as [_ ->]. pose proof (tf_off_range r). lia. }
  assert (forall off, 0 <= off <= 32 -> ld64 (mem M2) (tf + off) = ld64 (mem M) (tf + off)) as Hld.
  { intros off Hoff. apply ld64_ext. intros i Hi. apply Hout. lia. }
  assert (area trans M2 a0 tf PGSIZE) as HA2 by (apply trap_area; [by rewrite F2|by rewrite F1]).
  assert (addr trans M2 a0 112 = tf + 112) as A112 by (apply HA2; done).
  destruct M2 as [R C m p u] eqn:EM2. cbn [regs csrs mem pc user] in *.
  assert (forall off, 0 <= off < PGSIZE -> trans (C satp) (u64 (R a0 + off)) = tf + off) as HT by exact HA2.
  unfold Asm.exec. cbn [fold_left step]. unfold addr in *. cbn [regs csrs mem pc user]. unfold rset, cset. cbn [decide reg_eq_dec csr_eq_dec]. 
  repeat (rewrite decide_True by done || rewrite decide_False by done). rewrite !HT by done.
  assert (forall off, 0 <= off <= 32 -> ld64 (st64 m (tf + 112) (C sscratch)) (tf + off) = ld64 (mem M) (tf + off)) as Hl2.
  { intros off Hoff. rewrite ld64_st64_out by lia. by apply Hld. }
  repeat split.
  - intros r. destruct (decide (r = a0)) as [->|Hr].
    + cbn [tf_off]. rewrite ld64_st64, F2, E4. by apply u64_id.
    + pose proof (tf_off_apart r a0 Hr) as Hap. cbn [tf_off] in Hap. rewrite ld64_st64_out by (clear -Hap; cbn [tf_off] in Hap; destruct r; cbn in *; lia).
      rewrite (F5 r (tf_off r)) by (by apply user_slot). rewrite E6 by done. by apply u64_id.
  - intros a Ha. rewrite st64_out by lia. by apply Hout.
  - apply Hl2. done.
  - apply Hl2. done.
  - apply Hl2. done.
  - apply Hl2. done.
  - by rewrite F4.
Qed.

(** Return: the registers are those of the trapframe. *)
Lemma userret_spec M : regs M a0 = usatp -> let M' := exec userret M in
  (forall r, regs M' r = ld64 (mem M) (tf + tf_off r)) /\ mem M' = mem M /\ csrs M' satp = usatp /\ pc M' = sepc /\ user M' = true.
Proof.
  intros Ea. rewrite userret_eq, exec_app. set (M1 := exec [Sfence; Csrw satp a0; Sfence; Li a0 TRAPFRAME] M).
  assert (mem M1 = mem M /\ csrs M1 satp = usatp /\ regs M1 a0 = TRAPFRAME) as (E1 & E2 & E3) by (unfold M1; by destruct M).
  pose proof (trap_area M1 E2 E3) as HA. rewrite exec_app.
  destruct (exec_loads trans sepc link user_slots a0 tf PGSIZE M1 HA slots_fit) as (F1 & F2 & F3 & F4 & F5 & F6).
  { exact user_regs_nodup. }
  { exact a0_not_user. }
  set (M2 := exec (loads user_slots a0) M1) in *.
  assert (area trans M2 a0 tf PGSIZE) as HA2 by (apply trap_area; [rewrite F2; exact E2|rewrite F6; [exact E3|exact a0_not_user]]).
  assert (addr trans M2 a0 112 = tf + 112) as A112 by (apply HA2; done).
  destruct M2 as [R C m p u] eqn:EM2. cbn [regs csrs mem pc user] in *. unfold Asm.exec. cbn [fold_left step regs csrs mem pc user]. rewrite A112.
  split; [|by rewrite F1, F2]. intros r. unfold rset. case_decide as Hr; [rewrite Hr, F1, E1; reflexivity|].
  rewrite (F5 r (tf_off r)) by (by apply user_slot). by rewrite E1.
Qed.
End Trampoline.

(** C38. A trap from user space keeps the registers of the program.  On entry
    uservec stores every register in its field of struct trapframe and nothing
    else, and enters usertrap on the kernel's page table, stack and hart id,
    with userret as its return address.  When the kernel later returns through
    userret with the page table of the process, every register whose field of
    the trapframe it has not changed has its old value, a0 has the value of
    the field where system calls put their result, and the program goes on at
    sepc in user mode. *)
Theorem trampoline_roundtrip (trans : Z -> Z -> Z) (sepc link tf : Z) (M0 M2 : machine) :
  (forall off, 0 <= off < PGSIZE -> trans (csrs M0 satp) (TRAPFRAME + off) = tf + off) -> regs_ok (regs M0) -> regs M2 a0 = csrs M0 satp ->
  let M1 := exec trans sepc link uservec M0 in let M3 := exec trans sepc link userret M2 in
  pc M1 = ld64 (mem M0) (tf + TF_kernel_trap) /\ csrs M1 satp = ld64 (mem M0) (tf + TF_kernel_satp) /\
  regs M1 sp = ld64 (mem M0) (tf + TF_kernel_sp) /\ regs M1 tp = ld64 (mem M0) (tf + TF_kernel_hartid) /\ regs M1 ra = link /\
  (forall a, a < tf + 40 \/ tf + 288 <= a -> mem M1 a = mem M0 a) /\
  (forall r, ld64 (mem M2) (tf + tf_off r) = ld64 (mem M1) (tf + tf_off r) -> regs M3 r = regs M0 r) /\
  regs M3 a0 = ld64 (mem M2) (tf + TF_a 0) /\ mem M3 = mem M2 /\ csrs M3 satp = csrs M0 satp /\ pc M3 = sepc /\ user M3 = true.
Proof.
  intros Ht Hok Ha M1 M3. destruct (uservec_spec trans sepc link tf (csrs M0 satp) Ht M0 eq_refl Hok) as (U1 & U2 & U3 & U4 & U5 & U6 & U7 & _).
  destruct (userret_spec trans sepc link tf (csrs M0 satp) Ht M2 Ha) as (V1 & V2 & V3 & V4 & V5).
  repeat (split; [assumption|]). split; [|split; [apply V1|by repeat split]].
  intros r Hr. rewrite V1, Hr. apply U1.
Qed.

(** A machine with the register numbers as values, and a kernel that changes
    a0 in the trapframe at 0x87000000. *)
Definition demo_trans (table va : Z) : Z := if TRAPFRAME <=? va then 0x87000000 + (va - TRAPFRAME) else va.
Definition demo_machine : machine := mkmachine (fun r => tf_off r) (fun _ => 1) (fun _ => 0) 0 false.
Definition demo_kernel (M : machine) : machine :=
  mkmachine (fun r => if decide (r = a0) then 1 else 0) (csrs M) (st64 (mem M) (0x87000000 + TF_a 0) 77) 0 false.

Lemma trampoline_roundtrip_witness :
  let M1 := exec demo_trans 4096 8192 uservec demo_machine in
  let M3 := exec demo_trans 4096 8192 userret (demo_kernel M1) in
  regs M3 s5 = 200 /\ regs M3 a0 = 77.
Proof.
  destruct (trampoline_roundtrip demo_trans 4096 8192 0x87000000 demo_machine (demo_kernel (exec demo_trans 4096 8192 uservec demo_machine)))
    as (_ & _ & _ & _ & _ & _ & H1 & H2 & _).
  - intros off [H0 H4]. unfold demo_trans. rewrite (proj2 (Z.leb_le TRAPFRAME (TRAPFRAME + off))) by lia. lia.
  - intros r. cbn. pose proof (tf_off_range r). lia.
  - reflexivity.
  - split; [apply (H1 s5); vm_compute; reflexivity|rewrite H2; vm_compute; reflexivity].
Defined.

(** ** Context switches *)
Definition ctx_slots : list (reg * Z) := imap (fun i r => (r, 8 * Z.of_nat i)) context.
Definition CONTEXT : Z := 112.

Lemma swtch_eq : swtch = saves ctx_slots a0 ++ loads ctx_slots a1 ++ [Ret_].
Proof. reflexivity. Qed.

Lemma ctx_fit : Forall (fun ro => 0 <= ro.2 /\ ro.2 + 8 <= CONTEXT) ctx_slots.
Proof. slots. Qed.

Lemma ctx_nodup : NoDup ctx_slots.*1 /\ (a0 ∉ ctx_slots.*1) /\ (a1 ∉ ctx_slots.*1).
Proof. split; [|split]; slots. Qed.

Lemma ctx_range r off : (r, off) ∈ ctx_slots -> 0 <= off /\ off + 8 <= CONTEXT.
Proof. intros H. exact (proj1 (Forall_forall _ _) ctx_fit _ H). Qed.

Section Switch.
Context (trans : Z -> Z -> Z) (sepc link : Z).
Local Abbreviation exec := (exec trans sepc link).

(** swtch(old, new): [old] gets the registers of this thread, and the
    registers are those of [new]. *)
Lemma swtch_spec M old new : area trans M a0 old CONTEXT -> area trans M a1 new CONTEXT -> new + CONTEXT <= old \/ old + CONTEXT <= new ->
  let M' := exec swtch M in
  (forall r off, (r, off) ∈ ctx_slots -> ld64 (mem M') (old + off) = u64 (regs M r) /\ regs M' r = ld64 (mem M) (new + off)) /\
  (forall r, r ∉ ctx_slots.*1 -> regs M' r = regs M r) /\ (forall a, a < old \/ old + CONTEXT <= a -> mem M' a = mem M a) /\
  pc M' = ld64 (mem M) new /\ csrs M' = csrs M.
Proof.
  intros Ho Hn Hd. rewrite swtch_eq, exec_app, exec_app.
  destruct (exec_saves trans sepc link ctx_slots a0 old CONTEXT M Ho ctx_fit eq_refl) as (F1 & F2 & _ & _ & F5 & F6). set (M1 := exec (saves ctx_slots a0) M) in *.
  assert (area trans M1 a1 new CONTEXT) as Hn1 by (intros off Hoff; rewrite <- (Hn off Hoff); unfold addr; by rewrite F1, F2).
  destruct ctx_nodup as (N1 & N2 & N3).
  destruct (exec_loads trans sepc link ctx_slots a1 new CONTEXT M1 Hn1 ctx_fit N1 N3) as (G1 & G2 & _ & _ & G5 & G6). set (M2 := exec (loads ctx_slots a1) M1) in *.
  assert (forall a, a < old \/ old + CONTEXT <= a -> mem M1 a = mem M a) as Hout.
  { intros a Ha. apply F6. intros r off Hin. apply ctx_range in Hin. lia. }
  assert (forall r off, (r, off) ∈ ctx_slots -> ld64 (mem M1) (new + off) = ld64 (mem M) (new + off)) as Hnew.
  { intros r off Hin. apply ctx_range in Hin. apply ld64_ext. intros i Hi. apply Hout. lia. }
  assert ((ra, 0) ∈ ctx_slots) as Hra by left.
  destruct M2 as [R C m p u] eqn:EM2. unfold Asm.exec. cbn [fold_left step regs csrs mem pc user] in *. split; [|split; [|split; [|split]]].
  - intros r off Hin. rewrite G1, (F5 _ _ Hin), (G5 _ _ Hin). split; [done|by apply (Hnew r)].
  - intros r Hr. rewrite G6, F1 by done. done.
  - intros a Ha. rewrite G1. by apply Hout.
  - rewrite (G5 _ _ Hra), (Hnew _ _ Hra). f_equal. lia.
  - by rewrite G2, F2.
Qed.
End Switch.

(** A thread that is switched away from and later switched back to, with its
    context as it left it, has its callee-saved registers and its stack
    pointer, and returns to where it called swtch. *)
Theorem swtch_resume trans sepc link old new save (M0 M2 : machine) : regs_ok (regs M0) ->
  area trans M0 a0 old CONTEXT -> area trans M0 a1 new CONTEXT -> new + CONTEXT <= old \/ old + CONTEXT <= new ->
  area trans M2 a0 save CONTEXT -> area trans M2 a1 old CONTEXT -> old + CONTEXT <= save \/ save + CONTEXT <= old ->
  let M1 := exec trans sepc link swtch M0 in
  (forall a, old <= a < old + CONTEXT -> mem M2 a = mem M1 a) ->
  let M3 := exec trans sepc link swtch M2 in
  (forall r, r ∈ context -> regs M3 r = regs M0 r) /\ pc M3 = regs M0 ra.
Proof.
  intros Hok A1 A2 D1 A3 A4 D2 M1 Hm M3. destruct (swtch_spec trans sepc link M0 old new A1 A2 D1) as (S1 & _).
  destruct (swtch_spec trans sepc link M2 save old A3 A4 D2) as (T1 & _ & _ & T4 & _).
  assert (forall r off, (r, off) ∈ ctx_slots -> ld64 (mem M2) (old + off) = regs M0 r) as Hslot.
  { intros r off Hin. rewrite <- (u64_id (regs M0 r)) by apply Hok. rewrite <- (proj1 (S1 r off Hin)). apply ctx_range in Hin.
    apply ld64_ext. intros i Hi. apply Hm. lia. }
  split.
  - intros r Hr. apply list_elem_of_lookup in Hr as [i Hi]. assert ((r, 8 * Z.of_nat i) ∈ ctx_slots) as Hin.
    { apply (elem_of_lookup_imap_2 (fun i r => (r, 8 * Z.of_nat i)) _ _ _ Hi). }
    unfold M3. rewrite (proj2 (T1 _ _ Hin)). by apply Hslot.
  - unfold M3. rewrite T4, <- (Hslot ra 0); [f_equal; lia|left].
Qed.

(** ** Traps in the kernel *)
Definition kvec_regs : list (reg * Z) :=
  [(ra, 0); (gp, 16); (t0, 32); (t1, 40); (t2, 48); (a0, 72); (a1, 80); (a2, 88); (a3, 96); (a4, 104); (a5, 112); (a6, 120); (a7, 128);
   (t3, 216); (t4, 224); (t5, 232); (t6, 240)].
Definition kvec_slots : list (reg * Z) := (ra, 0) :: (gp, 16) :: (tp, 24) :: drop 2 kvec_regs.

Lemma kernelvec_eq : kernelvec_save = Addi sp sp (-256) :: saves kvec_slots sp /\ kernelvec_restore = loads kvec_regs sp ++ [Addi sp sp 256; Sret].
Proof. split; reflexivity. Qed.

Definition callee_saved : list reg := [sp; s0; s1; s2; s3; s4; s5; s6; s7; s8; s9; s10; s11].

Lemma kvec_fit : Forall (fun ro => 0 <= ro.2 /\ ro.2 + 8 <= 256) kvec_slots /\ Forall (fun ro => 0 <= ro.2 /\ ro.2 + 8 <= 256) kvec_regs.
Proof. split; slots. Qed.

Lemma kvec_cover r : r = tp \/ r ∈ callee_saved \/ exists off, (r, off) ∈ kvec_regs /\ (r, off) ∈ kvec_slots.
Proof.
  destruct r; try (by left); right; try (left; slots); right;
    let go o := (exists o; split; slots) in
    first [go 0|go 16|go 32|go 40|go 48|go 72|go 80|go 88|go 96|go 104|go 112|go 120|go 128|go 216|go 224|go 232|go 240].
Qed.

Lemma push_frame trans sepc link M : regs_ok (regs M) -> 256 <= regs M sp -> let M0 := step trans sepc link (Addi sp sp (-256)) M in
  mem M0 = mem M /\ csrs M0 = csrs M /\ regs M0 sp = regs M sp - 256 /\ forall r, r <> sp -> regs M0 r = regs M r.
Proof.
  intros Hok Hsp. destruct M as [R C m p u]. specialize (Hok sp). cbn in *. unfold rset. rewrite decide_True, u64_id by (done || lia).
  split; [done|]. split; [done|]. split; [lia|]. intros r Hr. by rewrite decide_False.
Qed.

(** A trap in the kernel is invisible to the code it interrupts: around
    any kerneltrap that keeps to the calling convention (it may change the
    caller-saved registers, but not the stack pointer, the callee-saved ones
    and the frame above the stack pointer), kernelvec gives back every register
    but tp, which names the hart the thread is now on, and writes nothing but
    its frame of 256 bytes below the stack pointer. *)
Theorem kernelvec_transparent trans sepc link (kerneltrap : machine -> machine) b (M : machine) : regs_ok (regs M) -> 256 <= regs M sp ->
  (forall off, 0 <= off < 256 -> trans (csrs M satp) (regs M sp - 256 + off) = b + off) ->
  let M1 := exec trans sepc link kernelvec_save M in
  let M2 := kerneltrap M1 in
  (forall r, r ∈ callee_saved -> regs M2 r = regs M1 r) -> (forall a, b <= a < b + 256 -> mem M2 a = mem M1 a) -> csrs M2 satp = csrs M1 satp ->
  let M3 := exec trans sepc link kernelvec_restore M2 in
  (forall r, r <> tp -> regs M3 r = regs M r) /\ regs M3 tp = regs M2 tp /\ mem M3 = mem M2 /\ pc M3 = sepc /\
  (forall a, a < b \/ b + 256 <= a -> mem M1 a = mem M a).
Proof.
  intros Hok Hsp Ht M1 M2 Hcs Hfr Hsatp M3. destruct kernelvec_eq as [E1 E2]. destruct kvec_fit as [K1 K2].
  set (M0 := step trans sepc link (Addi sp sp (-256)) M).
  destruct (push_frame trans sepc link M Hok Hsp) as (Z1 & Z2 & Z3 & Z4). fold M0 in Z1, Z2, Z3, Z4.
  assert (forall M', csrs M' satp = csrs M satp -> regs M' sp = regs M sp - 256 -> area trans M' sp b 256) as HA.
  { intros M' Q1 Q2 off Hoff. unfold addr. specialize (Hok sp). rewrite Q1, Q2, u64_id by lia. by apply Ht. }
  assert (M1 = exec trans sepc link (saves kvec_slots sp) M0) as EM1 by (unfold M1; rewrite E1; apply exec_cons).
  destruct (exec_saves trans sepc link kvec_slots sp b 256 M0 (HA M0 ltac:(by rewrite Z2) Z3) K1 eq_refl) as (F1 & F2 & _ & _ & F5 & F6).
  rewrite <- EM1 in F1, F2, F5, F6.
  assert (forall r, r ∈ callee_saved -> regs M2 r = regs M0 r) as Hcs' by (intros r Hr; rewrite Hcs, F1 by done; reflexivity).
  assert (sp ∈ callee_saved) as Hspc by left.
  assert (area trans M2 sp b 256) as HA2 by (apply HA; [by rewrite Hsatp, F2, Z2|by rewrite Hcs']).
  assert (NoDup kvec_regs.*1 /\ (sp ∉ kvec_regs.*1) /\ (tp ∉ kvec_regs.*1) /\ forallb (fun r => bool_decide (r ∉ kvec_regs.*1)) callee_saved = true) as (N1 & N2 & N3 & N4)
    by (split; [slots|split; [slots|split; [slots|vm_compute; reflexivity]]]).
  destruct (exec_loads trans sepc link kvec_regs sp b 256 M2 HA2 K2 N1 N2) as (G1 & _ & _ & _ & G5 & G6).
  assert (M3 = exec trans sepc link [Addi sp sp 256; Sret] (exec trans sepc link (loads kvec_regs sp) M2)) as EM3 by (unfold M3; rewrite E2; apply exec_app).
  assert (forall r, r ∈ callee_saved -> r ∉ kvec_regs.*1) as N5.
  { intros r Hr. rewrite forallb_forall in N4. apply (bool_decide_unpack _). rewrite (N4 r); [exact I|by apply list_elem_of_In]. }
  set (M2' := exec trans sepc link (loads kvec_regs sp) M2) in *.
  assert (regs M2' sp = regs M sp - 256) as Esp by (rewrite G6, Hcs', Z3 by (done || by apply N5); reflexivity).
  assert (regs M3 = rset sp (regs M sp) (regs M2') /\ mem M3 = mem M2' /\ pc M3 = sepc) as (R3 & E3 & P3).
  { rewrite EM3. clearbody M2'. destruct M2' as [R C m p u]. cbn in Esp |- *. rewrite Esp, u64_id by (specialize (Hok sp); lia). repeat split. do 2 f_equal. lia. }
  rewrite R3, E3, P3, G1. unfold rset. split; [|split; [|split; [done|split; [done|]]]].
  - intros r Hr. case_decide as Hs; [by rewrite Hs|]. destruct (kvec_cover r) as [->|[Hc|(off & I1 & I2)]]; [done| |].
    + rewrite G6, Hcs', Z4 by (done || by apply N5). done.
    + rewrite (G5 _ _ I1). rewrite <- (u64_id (regs M r)), <- Z4, <- (F5 _ _ I2) by (done || apply Hok). apply ld64_ext. intros i Hi. apply Hfr.
      apply (proj1 (Forall_forall _ _) K2) in I1. cbn in I1. lia.
  - rewrite decide_False by done. by apply G6.
  - intros a Ha. rewrite F6, Z1; [done|]. intros r off Hin. apply (proj1 (Forall_forall _ _) K1) in Hin. cbn in Hin. lia.
Qed.

(** ** The first stacks *)

(** Each hart enters start on a stack of its own, 4096 bytes inside stack0. *)
Lemma entry_stacks trans sepc link stack0 M : 0 <= csrs M mhartid < NCPU -> 0 <= stack0 -> stack0 + 4096 * NCPU < 18446744073709551616 ->
  regs (exec trans sepc link (entry stack0) M) sp = stack0 + 4096 * (csrs M mhartid + 1).
Proof.
  intros Hh H0 Hm. change NCPU with 8 in *. destruct M as [R C m p u]. cbn [csrs] in *. unfold exec, entry. cbn [fold_left step regs csrs mem pc user].
  unfold rset. repeat case_decide; try congruence.
  rewrite (u64_id stack0), (u64_id (1024 * 4)), (u64_id (C mhartid + 1)), (u64_id (1024 * 4 * (C mhartid + 1))) by lia. rewrite u64_id by lia. lia.
Qed.
