(* ===== verification/Boot.v ===== *)
(** * Machine mode start-up (kernel/start.c)

    start and timerinit as functions on the control registers of a hart; what
    mret does with mstatus.MPP and mepc is that of the privileged
    architecture (the interrupt-enable bits that mret also moves are left
    out). *)

From Stdlib Require Import ZArith Lia.
From stdpp Require Import base list strings sets.
From S2P Require Import Prelude Params.

Inductive mcsr : Type :=
| mstatus | mepc | msatp | medeleg | mideleg | sie | pmpaddr0 | pmpcfg0 | mie | menvcfg | mcounteren | stimecmp | mtime | hartid.
#[export] Instance mcsr_eq_dec : EqDecision mcsr.
Proof. solve_decision. Defined.

Inductive mode : Type := Machine | Supervisor | UserMode.

Record hart := mkhart { h_csr : mcsr -> Z; h_tp : Z; h_pc : Z; h_mode : mode }.

Definition w_csr (c : mcsr) (v : Z) (h : hart) : hart :=
  mkhart (fun d => if decide (d = c) then u64 v else h_csr h d) (h_tp h) (h_pc h) (h_mode h).

(** The accessors of kernel/riscv.h that start uses. *)
Definition r_mhartid (h : hart) : Z := h_csr h hartid.
Definition r_mstatus (h : hart) : Z := h_csr h mstatus.
Definition w_mstatus (x : Z) (h : hart) : hart := w_csr mstatus x h.
Definition w_mepc (x : Z) (h : hart) : hart := w_csr mepc x h.
Definition w_medeleg (x : Z) (h : hart) : hart := w_csr medeleg x h.
Definition w_mideleg (x : Z) (h : hart) : hart := w_csr mideleg x h.
Definition r_sie (h : hart) : Z := h_csr h sie.
Definition w_sie (x : Z) (h : hart) : hart := w_csr sie x h.
Definition r_mie (h : hart) : Z := h_csr h mie.
Definition w_mie (x : Z) (h : hart) : hart := w_csr mie x h.
Definition r_menvcfg (h : hart) : Z := h_csr h menvcfg.
Definition w_menvcfg (x : Z) (h : hart) : hart := w_csr menvcfg x h.
Definition w_pmpcfg0 (x : Z) (h : hart) : hart := w_csr pmpcfg0 x h.
Definition w_pmpaddr0 (x : Z) (h : hart) : hart := w_csr pmpaddr0 x h.
Definition r_mcounteren (h : hart) : Z := h_csr h mcounteren.
Definition w_mcounteren (x : Z) (h : hart) : hart := w_csr mcounteren x h.
Definition w_satp (x : Z) (h : hart) : hart := w_csr msatp x h.
Definition w_stimecmp (x : Z) (h : hart) : hart := w_csr stimecmp x h.
Definition r_time (h : hart) : Z := h_csr h mtime.
Definition w_tp (x : Z) (h : hart) : hart := mkhart (h_csr h) (u64 x) (h_pc h) (h_mode h).

Definition MSTATUS_MPP_MASK : Z := Z.shiftl 3 11.
Definition MSTATUS_MPP_S : Z := Z.shiftl 1 11.
Definition SIE_SEIE : Z := Z.shiftl 1 9.
Definition SIE_STIE : Z := Z.shiftl 1 5.
Definition MIE_STIE : Z := Z.shiftl 1 5.

Definition timerinit (h : hart) : hart :=
  let h := w_mie (Z.lor (r_mie h) MIE_STIE) h in
  let h := w_menvcfg (Z.lor (r_menvcfg h) (Z.shiftl 1 63)) h in
  let h := w_mcounteren (Z.lor (r_mcounteren h) 2) h in
  w_stimecmp (r_time h + 1000000) h.

(** mret: to the mode in MPP, at mepc. *)
Definition mret (h : hart) : hart :=
  let mpp := Z.land (Z.shiftr (h_csr h mstatus) 11) 3 in
  mkhart (h_csr h) (h_tp h) (h_csr h mepc) (if mpp =? 3 then Machine else if mpp =? 1 then Supervisor else UserMode).

Definition start (main : Z) (h : hart) : hart :=
  let x := r_mstatus h in
  let x := Z.land x (Z.lnot MSTATUS_MPP_MASK) in
  let x := Z.lor x MSTATUS_MPP_S in
  let h := w_mstatus x h in
  let h := w_mepc main h in
  let h := w_satp 0 h in
  let h := w_medeleg 0xffff h in
  let h := w_mideleg 0xffff h in
  let h := w_sie (Z.lor (Z.lor (r_sie h) SIE_SEIE) SIE_STIE) h in
  let h := w_pmpaddr0 0x3fffffffffffff h in
  let h := w_pmpcfg0 0xf h in
  let h := timerinit h in
  let id := i32 (r_mhartid h) in
  let h := w_tp id h in
  mret h.

(** ** What it leaves behind *)
Lemma u64_testbit v i : 0 <= i < 64 -> Z.testbit (u64 v) i = Z.testbit v i.
Proof. intros H. unfold u64. change 18446744073709551616 with (2 ^ 64). rewrite Z.mod_pow2_bits_low by lia. done. Qed.

Lemma lor_bit_testbit v n i : 0 <= n -> 0 <= i -> Z.testbit (Z.lor v (Z.shiftl 1 n)) i = Z.testbit v i || (i =? n).
Proof. intros Hn Hi. rewrite Z.lor_spec, Z.shiftl_1_l, Z.pow2_bits_eqb by lia. by rewrite (Z.eqb_sym n). Qed.

(** The MPP field of mstatus: bits 11 and 12 are 1 and 0, the others are kept. *)
Lemma mpp_bits v i : 0 <= i -> Z.testbit (Z.lor (Z.land v (Z.lnot MSTATUS_MPP_MASK)) MSTATUS_MPP_S) i =
  if i =? 11 then true else if i =? 12 then false else Z.testbit v i.
Proof.
  intros Hi. unfold MSTATUS_MPP_S. rewrite lor_bit_testbit, Z.land_spec, Z.lnot_spec by lia. unfold MSTATUS_MPP_MASK.
  rewrite Z.shiftl_spec by lia. destruct (Z.eqb_spec i 11) as [->|H11]; [by rewrite orb_true_r|]. rewrite orb_false_r.
  destruct (Z.eqb_spec i 12) as [->|H12]; [by rewrite andb_false_r|].
  assert (Z.testbit 3 (i - 11) = false) as ->; [|by rewrite andb_true_r].
  destruct (Z_lt_le_dec i 11); [by apply Z.testbit_neg_r; lia|]. apply (Z.bits_above_log2 3 (i - 11)); [lia|]. change (Z.log2 3) with 1. lia.
Qed.

(** Every hart leaves start in supervisor mode at main, with paging off, its
    number in tp, all traps delegated to supervisor mode and its timer and
    external interrupts enabled there; of mstatus, mie, sie, menvcfg and
    mcounteren only the bits that start sets are changed. *)
Theorem start_spec main h : 0 <= main < 18446744073709551616 -> 0 <= h_csr h hartid < NCPU -> let h' := start main h in
  h_mode h' = Supervisor /\ h_pc h' = main /\ h_tp h' = h_csr h hartid /\ h_csr h' msatp = 0 /\
  h_csr h' medeleg = 0xffff /\ h_csr h' mideleg = 0xffff /\
  (forall i, 0 <= i < 64 -> Z.testbit (h_csr h' mstatus) i = if i =? 11 then true else if i =? 12 then false else Z.testbit (h_csr h mstatus) i) /\
  (forall i, 0 <= i < 64 -> Z.testbit (h_csr h' sie) i = Z.testbit (h_csr h sie) i || (i =? 9) || (i =? 5)) /\
  (forall i, 0 <= i < 64 -> Z.testbit (h_csr h' mie) i = Z.testbit (h_csr h mie) i || (i =? 5)) /\
  (forall i, 0 <= i < 64 -> Z.testbit (h_csr h' menvcfg) i = Z.testbit (h_csr h menvcfg) i || (i =? 63)) /\
  (forall i, 0 <= i < 64 -> Z.testbit (h_csr h' mcounteren) i = Z.testbit (h_csr h mcounteren) i || (i =? 1)).
Proof.
  intros Hm Hh h'. change NCPU with 8 in Hh.
  assert (forall i, 0 <= i < 64 -> Z.testbit (h_csr h' mstatus) i = if i =? 11 then true else if i =? 12 then false else Z.testbit (h_csr h mstatus) i) as Hs.
  { intros i Hi. change (h_csr h' mstatus) with (u64 (Z.lor (Z.land (h_csr h mstatus) (Z.lnot MSTATUS_MPP_MASK)) MSTATUS_MPP_S)).
    rewrite u64_testbit by done. apply mpp_bits. lia. }
  assert (Z.land (Z.shiftr (h_csr h' mstatus) 11) 3 = 1) as Hmpp.
  { apply Z.bits_inj'. intros i Hi. rewrite Z.land_spec, Z.shiftr_spec by done. destruct (Z_lt_le_dec i 2).
    - assert (i = 0 \/ i = 1) as [-> | ->] by lia; by rewrite Hs by lia.
    - rewrite (Z.bits_above_log2 3 i), (Z.bits_above_log2 1 i) by (cbn; lia). apply andb_false_r. }
  split; [|split; [|split; [|split; [done|split; [done|split; [done|split; [done|]]]]]]].
  - change (h_mode h') with (let mpp := Z.land (Z.shiftr (h_csr h' mstatus) 11) 3 in if mpp =? 3 then Machine else if mpp =? 1 then Supervisor else UserMode).
    by rewrite Hmpp.
  - change (h_pc h') with (u64 main). by apply u64_id.
  - change (h_tp h') with (u64 (i32 (h_csr h hartid))). rewrite i32_id, u64_id by lia. done.
  - split; [|split; [|split]]; intros i Hi.
    + change (h_csr h' sie) with (u64 (Z.lor (Z.lor (h_csr h sie) SIE_SEIE) SIE_STIE)). unfold SIE_SEIE, SIE_STIE. by rewrite u64_testbit, !lor_bit_testbit by lia.
    + change (h_csr h' mie) with (u64 (Z.lor (h_csr h mie) MIE_STIE)). unfold MIE_STIE. by rewrite u64_testbit, lor_bit_testbit by lia.
    + change (h_csr h' menvcfg) with (u64 (Z.lor (h_csr h menvcfg) (Z.shiftl 1 63))). by rewrite u64_testbit, lor_bit_testbit by lia.
    + change (h_csr h' mcounteren) with (u64 (Z.lor (h_csr h mcounteren) (Z.shiftl 1 1))). by rewrite u64_testbit, lor_bit_testbit by lia.
Qed.
