(* ===== verification/FsInv.v ===== *)
(** * The buffer cache and the log as one block store

    A thread that works alone in the file system sees a block store [ld]: the
    contents of every block, whether it is on the disk, in an unmodified
    buffer, or in a buffer the log has pinned.  [fs_wf op pins ld k] relates it
    to the machine; [op] are the buffers the thread has open, and [pins] the
    blocks the log has pinned.  Last, that a machine after its start satisfies
    it. *)

From Stdlib Require Import ZArith Lia.
From stdpp Require Import base list strings sets.
From S2P Require Import Prelude Params Mem State Evict Kalloc Vm Sched SchedSpec SchedProps Sleeplock Printf Bio BioSpec.
From S2P Require Import BioLaws Log.

Definition block_ok (d : list Z) : Prop := length d = Z.to_nat BSIZE /\ Forall byte_ok d.

(** The blocks of the transaction in progress. *)
Definition logged (lg : loginfo) : list Z := take (Z.to_nat (l_n lg)) (l_block lg).

Record log_wf (lg : loginfo) : Prop := {
  lw_dev : l_dev lg = ROOTDEV;
  lw_n : 0 <= l_n lg <= LOGBLOCKS;
  lw_len : length (l_block lg) = Z.to_nat LOGBLOCKS;
  lw_nodup : NoDup (logged lg);
  lw_ok : Forall blockno_ok (logged lg)
}.

(** Buffer [i] of the cache. *)
Record buf_wf (n : Z) (op : list nat) (lgd : list Z) (ld : Z -> list Z) (i : nat) (b : buf) : Prop := {
  bw_dev : b_dev b = ROOTDEV \/ (i ∉ op);
  bw_valid : b_dev b = ROOTDEV -> b_valid b = 1;
  bw_lock : b_lock b = if decide (i ∈ op) then locked_by n else sleeplock0;
  bw_ref : b_refcnt b = (if decide (i ∈ op) then 1 else 0)
                        + (if decide (b_dev b = ROOTDEV /\ b_blockno b ∈ lgd) then 1 else 0);
  bw_bno : blockno_ok (b_blockno b);
  bw_data : b_dev b = ROOTDEV -> b_data b = ld (b_blockno b)
}.

(** The log with one more block. *)
Definition log_add (x : Z) (lg : loginfo) : loginfo :=
  if bool_decide (x ∈ logged lg) then lg
  else lg <| l_block ::= aset (l_n lg) x |> <| l_n ::= Z.succ |>.

Lemma logged_lookup lg i : log_wf lg -> 0 <= i < l_n lg -> logged lg !! Z.to_nat i = Some (aget (l_block lg) i).
Proof.
  intros [_ Hn Hlen _ _] Hi. unfold logged, aget. rewrite lookup_take_lt by lia. apply list_lookup_lookup_total_lt. lia.
Qed.

Lemma logged_length lg : log_wf lg -> Z.of_nat (length (logged lg)) = l_n lg.
Proof. intros [_ Hn Hlen _ _]. unfold logged. rewrite length_take. lia. Qed.

Lemma logged_ok lg x : log_wf lg -> x ∈ logged lg -> i32 x = x /\ u32 x = x.
Proof.
  intros [_ _ _ _ Hok] Hx. rewrite Forall_forall in Hok. specialize (Hok x Hx). unfold blockno_ok in Hok.
  rewrite i32_id, u32_id by lia. done.
Qed.

Lemma set_block_same lg f : f (l_block lg) = l_block lg -> lg <| l_block ::= f |> = lg.
Proof. destruct lg. unfold set, set_l_block. cbn. by intros ->. Qed.

Lemma logged_add x lg : log_wf lg -> l_n lg < LOGBLOCKS ->
  logged (log_add x lg) = if bool_decide (x ∈ logged lg) then logged lg else logged lg ++ [x].
Proof.
  intros [_ Hn Hlen _ _] Hlt. unfold log_add. destruct (bool_decide _); [done|]. unfold logged.
  change (l_n (lg <| l_block ::= aset (l_n lg) x |> <| l_n ::= Z.succ |>)) with (Z.succ (l_n lg)).
  change (l_block (lg <| l_block ::= aset (l_n lg) x |> <| l_n ::= Z.succ |>)) with (aset (l_n lg) x (l_block lg)).
  rewrite Z2Nat.inj_succ by lia. unfold aset. rewrite (take_S_r _ _ x).
  - by rewrite take_insert_ge by lia.
  - apply list_lookup_insert_eq. lia.
Qed.

Lemma log_add_wf x lg : log_wf lg -> l_n lg < LOGBLOCKS -> blockno_ok x -> log_wf (log_add x lg).
Proof.
  intros Hw Hlt Hx. pose proof (logged_add x lg Hw Hlt) as Hl. pose proof Hw as [H1 H2 H3 H4 H5].
  split; rewrite ?Hl; unfold log_add in *; destruct (bool_decide _) eqn:E; try done.
  - change (l_n (lg <| l_block ::= aset (l_n lg) x |> <| l_n ::= Z.succ |>)) with (Z.succ (l_n lg)). lia.
  - change (l_block (lg <| l_block ::= aset (l_n lg) x |> <| l_n ::= Z.succ |>)) with (aset (l_n lg) x (l_block lg)).
    unfold aset. by rewrite length_insert.
  - apply bool_decide_eq_false in E. apply NoDup_app. split; [done|]. split; [|apply NoDup_singleton]. set_solver.
  - apply Forall_app. split; [done|by constructor].
Qed.

Section FsInv.
Context {I : Interference} {D : Disk} {DO : DiskOk D} {p : nat}.

Local Abbreviation pid k := (p_pid (k_procs k !!! p)).
Local Abbreviation bno k i := (b_blockno (k_bufs k !!! i)).

Record fs_wf (op : list nat) (pins : list Z) (ld : Z -> list Z) (k : kernel) : Prop := {
  fw_thread : thread p k;
  fw_ring : exists l, ring_wf (k_bufs k) l;
  fw_buf i : (i < bhead)%nat -> buf_wf (pid k) op (pins) ld i (k_bufs k !!! i);
  fw_uniq i j : (i < bhead)%nat -> (j < bhead)%nat ->
    b_dev (k_bufs k !!! i) = ROOTDEV -> b_dev (k_bufs k !!! j) = ROOTDEV -> bno k i = bno k j -> i = j;
  fw_logged x : x ∈ pins -> exists i, (i < bhead)%nat /\ b_dev (k_bufs k !!! i) = ROOTDEV /\ bno k i = x;
  fw_op : NoDup op /\ Forall (fun i => i < bhead)%nat op;
  fw_ld x : block_ok (ld x);
  fw_disk x : block_ok (k_disk k x);
  fw_clean x : (forall i, i ∈ op -> bno k i <> x) -> x ∉ pins -> ld x = k_disk k x
}.

Lemma fs_wf_resched op pins ld k k' : fs_wf op pins ld k -> resched k k' -> fs_wf op pins ld k'.
Proof.
  intros [T R B U G O LD DK C] F. pose proof (resched_bufs _ _ F) as Hb.
  pose proof (resched_disk _ _ F) as Hd. pose proof (resched_pid _ _ p F) as Hp.
  split; rewrite ?Hb, ?Hd, ?Hp; try done. by apply (thread_resched _ _ _ T).
Qed.

(** The block store matters only up to its contents. *)
Lemma fs_wf_ext op pins ld ld' k : (forall x, ld x = ld' x) -> fs_wf op pins ld k -> fs_wf op pins ld' k.
Proof.
  intros E [T R B U G O LD DK C]. split; try done.
  - intros i Hi. destruct (B i Hi) as [B1 B2 B3 B4 B5 B6]. split; try done. intros Hd. by rewrite <- E, B6.
  - intros x. by rewrite <- E.
  - intros x Hx Hp. rewrite <- E. by apply C.
Qed.

#[export] Instance fs_wf_proper op pins : Proper (pointwise_relation Z eq ==> eq ==> iff) (fs_wf op pins).
Proof. intros ld ld' E k ? <-. split; apply fs_wf_ext; intros x; [apply E|symmetry; apply E]. Qed.

Lemma bufs_len op pins ld k : fs_wf op pins ld k -> length (k_bufs k) = S bhead.
Proof. intros H. destruct (fw_ring _ _ _ _ H) as [l [Hl _ _]]. exact Hl. Qed.

Lemma op_lt op pins ld k i : fs_wf op pins ld k -> i ∈ op -> (i < bhead)%nat.
Proof. intros H Hi. destruct (fw_op _ _ _ _ H) as [_ Ho]. rewrite Forall_forall in Ho. by apply Ho. Qed.

Lemma op_buf op pins ld k i : fs_wf op pins ld k -> i ∈ op ->
  b_dev (k_bufs k !!! i) = ROOTDEV /\ b_data (k_bufs k !!! i) = ld (bno k i) /\
  b_lock (k_bufs k !!! i) = locked_by (pid k) /\ blockno_ok (bno k i).
Proof.
  intros H Hi. destruct (fw_buf _ _ _ _ H i (op_lt _ _ _ _ _ H Hi)) as [D1 D2 D3 D4 D5 D6].
  destruct D1 as [D1|]; [|done]. rewrite decide_True in D3 by done. auto.
Qed.

(** A thread without the block open finds the block's buffer unlocked. *)
Lemma closed_lock op pins ld k i : fs_wf op pins ld k -> (i < bhead)%nat -> i ∉ op -> sl_locked (b_lock (k_bufs k !!! i)) = 0.
Proof. intros H Hi Ho. rewrite (bw_lock _ _ _ _ _ _ (fw_buf _ _ _ _ H i Hi)), decide_False by done. done. Qed.

(** As long as the open and the pinned buffers do not fill the cache, some
    buffer is free. *)
Lemma free_buffer op pins ld k l : fs_wf op pins ld k -> ring_wf (k_bufs k) l ->
  Z.of_nat (length op) + Z.of_nat (length pins) < NBUF -> exists b, found (k_bufs k) is_free (rev l) = Some b.
Proof.
  intros H Hr Hn. destruct (found (k_bufs k) is_free (rev l)) as [b|] eqn:E; [by exists b|]. exfalso.
  assert (Hall : forall i, (i < bhead)%nat -> i ∉ op -> bno k i ∈ pins /\ b_dev (k_bufs k !!! i) = ROOTDEV).
  { intros i Hi Ho. assert (Hf : is_free (k_bufs k !!! i) = false).
    { eapply found_None; [exact E|]. rewrite list_elem_of_In, <- in_rev, <- list_elem_of_In. by apply (rw_elem _ _ _ Hr). }
    unfold is_free in Hf. rewrite (bw_ref _ _ _ _ _ _ (fw_buf _ _ _ _ H i Hi)) in Hf. rewrite decide_False in Hf by done.
    destruct (decide (_ /\ _)) as [[H1 H2]|]; [done|done]. }
  set (cl := filter (fun i => i ∉ op) (seq 0 bhead)).
  assert (Hcl : forall i, i ∈ cl <-> (i < bhead)%nat /\ i ∉ op).
  { intros i. unfold cl. rewrite list_elem_of_filter, elem_of_seq. naive_solver lia. }
  assert (Hnd : NoDup ((fun i => bno k i) <$> cl)).
  { apply NoDup_fmap_2_strong; [|apply NoDup_filter, NoDup_seq]. intros i j Hi Hj He.
    apply Hcl in Hi as [Hi Hi']. apply Hcl in Hj as [Hj Hj'].
    apply (fw_uniq _ _ _ _ H); try done; by apply Hall. }
  assert (Hle : (length cl <= length (pins))%nat).
  { rewrite <- (length_fmap (fun i => bno k i)). apply submseteq_length, NoDup_submseteq; [done|].
    intros x Hx. apply list_elem_of_fmap in Hx as (i & -> & Hi). apply Hcl in Hi as [Hi Hi']. by apply Hall. }
  assert (Hop : (bhead <= length op + length cl)%nat).
  { rewrite <- (length_seq bhead 0) at 1. rewrite <- length_app. apply submseteq_length, NoDup_submseteq; [apply NoDup_seq|].
    intros i Hi. apply elem_of_seq in Hi. apply elem_of_app. destruct (decide (i ∈ op)); [by left|right]. apply Hcl. split; [lia|done]. }
  unfold bhead in Hop. unfold NBUF in *. lia.
Qed.

(** ** Opening a block *)

(** Only buffers, and what the scheduler owns, differ. *)
Definition only_bufs (k k' : kernel) : Prop := resched (k <| k_bufs := k_bufs k' |>) k'.

#[export] Instance only_bufs_preorder : PreOrder only_bufs.
Proof.
  split.
  - intros k. unfold only_bufs. replace (k <| k_bufs := k_bufs k |>) with k by kext. reflexivity.
  - intros k1 k2 k3 H1 H2. unfold only_bufs in *. apply (resched_set_bufs (fun _ => k_bufs k3)) in H1.
    etransitivity; [|exact H2]. etransitivity; [|exact H1].
    match goal with |- resched ?x ?y => replace y with x; [reflexivity|kext] end.
Qed.

Lemma resched_only_bufs f k k' : resched (k <| k_bufs ::= f |>) k' -> only_bufs k k'.
Proof.
  intros H. unfold only_bufs. pose proof (resched_bufs _ _ H) as Hb. revert Hb. kproj. intros Hb. rewrite Hb.
  etransitivity; [|exact H]. match goal with |- resched ?x ?y => replace y with x; [reflexivity|kext] end.
Qed.

Lemma only_bufs_log k k' : only_bufs k k' -> k_log k' = k_log k.
Proof. intros H. rewrite (resched_log _ _ H). by kproj. Qed.
Lemma only_bufs_disk k k' : only_bufs k k' -> k_disk k' = k_disk k.
Proof. intros H. rewrite (resched_disk _ _ H). by kproj. Qed.
Lemma only_bufs_dwrites k k' : only_bufs k k' -> k_dwrites k' = k_dwrites k.
Proof. intros H. rewrite (resched_dwrites _ _ H). by kproj. Qed.

Lemma buf_wf_op n op op' lgd ld i b : (i ∈ op <-> i ∈ op') -> buf_wf n op lgd ld i b -> buf_wf n op' lgd ld i b.
Proof.
  intros Ho [B1 B2 B3 B4 B5 B6].
  split; [rewrite <- Ho; done|done|by rewrite <- (decide_ext (i ∈ op) (i ∈ op')) by done| |done|done].
  by rewrite <- (decide_ext (i ∈ op) (i ∈ op')) by done.
Qed.

(** The state in which [b], so far closed, has become the open buffer of [x]. *)
Lemma fs_wf_open op pins ld k k' b x :
  fs_wf op pins ld k -> (b < bhead)%nat -> b ∉ op -> thread p k' -> (exists l, ring_wf (k_bufs k') l) ->
  pid k' = pid k -> k_disk k' = k_disk k -> (forall i, i ∈ op -> bno k i <> x) ->
  (forall i, i <> b -> k_bufs k' !!! i = k_bufs k !!! i) ->
  (forall i, (i < bhead)%nat -> b_dev (k_bufs k !!! i) = ROOTDEV -> bno k i = x -> i = b) ->
  (b_dev (k_bufs k !!! b) = ROOTDEV -> bno k b ∈ pins -> bno k b = x) ->
  b_dev (k_bufs k' !!! b) = ROOTDEV -> bno k' b = x ->
  buf_wf (pid k) (b :: op) (pins) ld b (k_bufs k' !!! b) ->
  fs_wf (b :: op) pins ld k'.
Proof.
  intros [T R B U G O LD DK C] Hb Hop Ht Hr Hpid Hdisk Hx Hoth Hux Hvic Hdev Hbno Hbuf.
  split; rewrite ?Hpid, ?Hdisk; try done.
  - intros i Hi. destruct (decide (i = b)) as [->|Hne]; [done|]. rewrite Hoth by done.
    eapply buf_wf_op; [|by apply B]. set_solver.
  - assert (Hcase : forall i, (i < bhead)%nat -> b_dev (k_bufs k' !!! i) = ROOTDEV -> bno k' i = x -> i = b).
    { intros i Hi Hd He. destruct (decide (i = b)) as [|Hne]; [done|]. rewrite Hoth in Hd, He by done. by apply Hux. }
    intros i j Hi Hj Hdi Hdj He. destruct (decide (i = b)) as [->|Hib].
    { symmetry. apply Hcase; [done|done|congruence]. }
    destruct (decide (j = b)) as [->|Hjb]; [apply Hcase; [done|done|congruence]|].
    rewrite !Hoth in * by done. by apply U.
  - intros y Hy. destruct (G y Hy) as (i & Hi & Hd & He). destruct (decide (i = b)) as [->|Hne].
    + exists b. split; [done|]. split; [done|]. rewrite Hbno. symmetry. rewrite <- He. apply Hvic; [done|by rewrite He].
    + exists i. by rewrite Hoth.
  - destruct O as [O1 O2]. split; [by constructor|by constructor].
  - intros y Hy Hl. apply C; [|done]. intros i Hi. destruct (decide (i = b)) as [->|Hne]; [done|].
    rewrite <- Hoth by done. apply Hy. by right.
Qed.

(** [b] has been opened for block [x]. *)
Record opened (op : list nat) (pins : list Z) (ld : Z -> list Z) (k : kernel) (x : Z) (b : nat) (k' : kernel) : Prop := {
  od_new : b ∉ op;
  od_lt : (b < bhead)%nat;
  od_bno : bno k' b = x;
  od_wf : fs_wf (b :: op) pins ld k';
  od_only : only_bufs k k';
  od_oth i : i <> b -> k_bufs k' !!! i = k_bufs k !!! i
}.

Lemma thread_set_bufs k f : thread p k -> thread p (k <| k_bufs ::= f |>).
Proof. intros [T1 T2 T3 T4 T5]. by split. Qed.

Lemma hit_total (bs : list buf) f b : (b < length bs)%nat -> alter f b bs !!! b = f (bs !!! b).
Proof. intros H. by rewrite lookup_total_alter, decide_True. Qed.
Lemma miss_total (bs : list buf) f b i : i <> b -> alter f b bs !!! i = bs !!! i.
Proof. intros H. by rewrite !list_lookup_total_alt, list_lookup_alter_ne. Qed.

(** A cached block. *)
Lemma bread_cached op pins ld k l b x : fs_wf op pins ld k -> (forall i, i ∈ op -> bno k i <> x) ->
  ring_wf (k_bufs k) l -> found (k_bufs k) (is_block ROOTDEV x) l = Some b ->
  let k' := k <| k_bufs ::= alter (hit (pid k)) b |> in
  bread ROOTDEV x k = Ret b k' /\ (b ∉ op) /\ (b < bhead)%nat /\ bno k' b = x /\ fs_wf (b :: op) pins ld k'.
Proof.
  intros H Hx Hr Hf k'. pose proof (bufs_len _ _ _ _ H) as Hlen. destruct (found_Some _ _ _ _ Hf) as [Hb Ht].
  apply (rw_elem _ _ _ Hr) in Hb. apply andb_true_iff in Ht as [Hd Hbn].
  apply Z.eqb_eq in Hd. apply Z.eqb_eq in Hbn.
  assert (Hop : b ∉ op) by (intros Hin; by apply (Hx b)).
  pose proof (fw_buf _ _ _ _ H b Hb) as [B1 B2 B3 B4 B5 B6].
  assert (Hk : k_bufs k' !!! b = hit (pid k) (k_bufs k !!! b)) by (unfold k'; kproj; apply hit_total; lia).
  split.
  { unfold bread, getb. erewrite bind_Ret by (eapply bget_hit; [apply H|exact Hr|exact Hf|by eapply closed_lock]).
    fold k'. unfold bind at 1, gets. rewrite Hk. change (b_valid (hit _ ?y)) with (b_valid y). by rewrite B2. }
  split; [done|]. split; [done|]. split; [by rewrite Hk|]. eapply fs_wf_open; try done.
  - apply thread_set_bufs, H.
  - exists l. apply ring_wf_alter; [done|]. by intros [].
  - intros i Hi. unfold k'. kproj. by apply miss_total.
  - intros i Hi Hdi He. apply (fw_uniq _ _ _ _ H); congruence.
  - by rewrite Hk.
  - by rewrite Hk.
  - rewrite Hk. split; cbn [hit b_dev b_valid b_lock b_refcnt b_blockno b_data set].
    + by left. + done. + by rewrite decide_True by left.
    + change (b_refcnt (hit _ ?y)) with (u32 (b_refcnt y + 1)). rewrite B4, decide_False, (decide_True (P := b ∈ b :: op)) by (done || left).
      change (b_dev (hit _ ?y)) with (b_dev y). change (b_blockno (hit _ ?y)) with (b_blockno y).
      destruct (decide (_ /\ _)); reflexivity.
    + done. + done.
Qed.

(** A block that is not cached replaces a free buffer. *)
Lemma bread_uncached op pins ld k l x : fs_wf op pins ld k -> blockno_ok x -> (forall i, i ∈ op -> bno k i <> x) ->
  Z.of_nat (length op) + Z.of_nat (length pins) < NBUF ->
  ring_wf (k_bufs k) l -> found (k_bufs k) (is_block ROOTDEV x) l = None ->
  wp (bread ROOTDEV x) (fun b k' => opened op pins ld k x b k') k.
Proof.
  intros H Hok Hx Hn Hr Hf. pose proof (bufs_len _ _ _ _ H) as Hlen.
  destruct (free_buffer _ _ _ _ _ H Hr Hn) as [b Hb]. destruct (found_Some _ _ _ _ Hb) as [Hbl Hz].
  rewrite list_elem_of_In, <- in_rev, <- list_elem_of_In in Hbl. apply (rw_elem _ _ _ Hr) in Hbl.
  pose proof (fw_buf _ _ _ _ H b Hbl) as [B1 B2 B3 B4 B5 B6]. unfold is_free in Hz. rewrite B4 in Hz.
  destruct (decide (b ∈ op)) as [|Hop]; [destruct (decide (_ /\ _)); done|].
  destruct (decide (b_dev (k_bufs k !!! b) = ROOTDEV /\ bno k b ∈ pins)) as [|Hng]; [done|]. clear Hz.
  assert (Hnc : forall i, (i < bhead)%nat -> b_dev (k_bufs k !!! i) = ROOTDEV -> bno k i <> x).
  { intros i Hi Hd He. assert (Hc := found_None _ _ _ i Hf ltac:(by apply (rw_elem _ _ _ Hr))).
    unfold is_block in Hc. rewrite Hd, He, !Z.eqb_refl in Hc. done. }
  assert (Hxl : x ∉ pins) by (intros Hin; destruct (fw_logged _ _ _ _ H x Hin) as (i & ? & ? & ?); by apply (Hnc i)).
  unfold bread, getb, updb. wp_steps. eapply wp_Ret; [eapply bget_miss; [apply H|exact Hr|exact Hf|exact Hb|by eapply closed_lock]|].
  wp_steps. kproj. rewrite hit_total by lia. change (b_valid (recycled _ _ _ _)) with 0. cbn [when Z.eqb].
  set (k1 := k <| k_bufs ::= alter _ b |>).
  assert (Hk1 : k_bufs k1 !!! b = recycled ROOTDEV x (pid k) (k_bufs k !!! b)) by (unfold k1; kproj; apply hit_total; lia).
  wp_steps. eapply wp_mono.
  { apply (disk_read_ok p); [apply thread_set_bufs, H|done|by unfold k1; kproj; rewrite length_alter|by rewrite Hk1]. }
  cbv beta. intros _ k2 Hr2. wp_steps.
  apply (resched_set_bufs (alter (set b_valid (fun _ => 1)) b)) in Hr2.
  set (k3 := k2 <| k_bufs ::= _ |>) in *.
  set (f x := (filled (k_disk k1) x) <| b_valid := 1 |>).
  assert (Hbs : k_bufs k3 = alter f b (alter (recycled ROOTDEV x (pid k)) b (k_bufs k))).
  { rewrite (resched_bufs _ _ Hr2). unfold k1. kproj. rewrite !list_alter_alter_eq. done. }
  assert (Hk3 : k_bufs k3 !!! b = f (recycled ROOTDEV x (pid k) (k_bufs k !!! b))).
  { rewrite Hbs, !hit_total by (rewrite ?length_alter; lia). done. }
  assert (Hoth : forall i, i <> b -> k_bufs k3 !!! i = k_bufs k !!! i).
  { intros i Hi. rewrite Hbs. by rewrite !miss_total. }
  split; [done|done|by rewrite Hk3| | |done].
  - eapply fs_wf_open; try done.
    + eapply thread_resched; [|exact Hr2]. apply thread_set_bufs, thread_set_bufs, thread_set_bufs, H.
    + exists l. rewrite Hbs. apply ring_wf_alter; [apply ring_wf_alter; [done|by intros []]|by intros []].
    + rewrite (resched_pid _ _ _ Hr2). done.
    + rewrite (resched_disk _ _ Hr2). done.
    + intros i Hi Hd He. by destruct (Hnc i Hi Hd).
    + intros Hd Hin. by destruct Hng.
    + by rewrite Hk3.
    + by rewrite Hk3.
    + rewrite Hk3. split; cbn.
      * by left. * done. * by rewrite decide_True by left.
      * rewrite decide_True by left. rewrite decide_False by naive_solver. done.
      * done.
      * intros _. unfold k1. kproj. symmetry. apply (fw_clean _ _ _ _ H); done.
  - apply (resched_only_bufs (fun _ => k_bufs k3)).
    etransitivity; [|exact Hr2]. match goal with |- resched ?x ?y => replace y with x; [reflexivity|] end.
    unfold k1. kext. rewrite Hbs, !list_alter_alter_eq. done.
Qed.

(** The law of [bread]. *)
Lemma bread_spec op pins ld k x : fs_wf op pins ld k -> blockno_ok x -> (forall i, i ∈ op -> bno k i <> x) ->
  (x ∈ pins \/ Z.of_nat (length op) + Z.of_nat (length pins) < NBUF) ->
  wp (bread ROOTDEV x) (fun b k' => opened op pins ld k x b k') k.
Proof.
  intros H Hok Hx Hn. destruct (fw_ring _ _ _ _ H) as [l Hr].
  destruct (found (k_bufs k) (is_block ROOTDEV x) l) as [b|] eqn:Hf.
  2: { destruct Hn as [Hn|Hn]; [|by eapply bread_uncached]. destruct (fw_logged _ _ _ _ H x Hn) as (i & Hi & Hd & He).
    assert (Hc := found_None _ _ _ i Hf ltac:(by apply (rw_elem _ _ _ Hr))).
    unfold is_block in Hc. by rewrite Hd, He, !Z.eqb_refl in Hc. }
  destruct (bread_cached _ _ _ _ _ _ _ H Hx Hr Hf) as (He & Hop & Hb & Hbn & Hw). eapply wp_Ret; [exact He|].
  split; [done|done|done|done| |].
  - eapply resched_only_bufs. reflexivity.
  - intros i Hi. kproj. by apply miss_total.
Qed.

(** ** Changing, logging and closing an open block *)

Lemma fs_wf_write op pins ld k b d : fs_wf op pins ld k -> b ∈ op -> block_ok d ->
  fs_wf op pins (fupd (bno k b) d ld) (k <| k_bufs ::= alter (set b_data (fun _ => d)) b |>).
Proof.
  intros H Hb Hd. pose proof (op_lt _ _ _ _ _ H Hb) as Hlt. pose proof (bufs_len _ _ _ _ H) as Hlen.
  destruct H as [T [l R] B U G O LD DK C].
  assert (Hsame : forall i, let y := alter (set b_data (fun _ => d)) b (k_bufs k) !!! i in
    let z := k_bufs k !!! i in b_dev y = b_dev z /\ b_valid y = b_valid z /\ b_lock y = b_lock z /\
    b_refcnt y = b_refcnt z /\ b_blockno y = b_blockno z /\ b_data y = if decide (i = b) then d else b_data z).
  { intros i. cbv zeta. destruct (decide (i = b)) as [->|Hne]; [rewrite hit_total by lia; done|by rewrite miss_total]. }
  split; kproj; try done.
  - by apply thread_set_bufs.
  - exists l. apply ring_wf_alter; [done|]. by intros [].
  - intros i Hi. destruct (Hsame i) as (E1 & E2 & E3 & E4 & E5 & E6). destruct (B i Hi) as [B1 B2 B3 B4 B5 B6].
    split; rewrite ?E1, ?E2, ?E3, ?E4, ?E5, ?E6; try done. intros Hdev. destruct (decide (i = b)) as [Hib|Hib].
    + subst i. by rewrite fupd_eq.
    + rewrite fupd_ne; [by apply B6|]. intros He. apply Hib. apply U; try done.
      destruct (B b Hlt) as [[Hdb|] _ _ _ _ _]; done.
  - intros i j Hi Hj. destruct (Hsame i) as (-> & _ & _ & _ & -> & _). destruct (Hsame j) as (-> & _ & _ & _ & -> & _). by apply U.
  - intros x Hx. destruct (G x Hx) as (i & Hi & Hd1 & Hd2). exists i. destruct (Hsame i) as (-> & _ & _ & _ & -> & _). done.
  - intros x. destruct (decide (x = bno k b)) as [->|]; [by rewrite fupd_eq|by rewrite fupd_ne].
  - intros x Hx Hl. assert (Hx' : forall i, i ∈ op -> bno k i <> x).
    { intros i Hi. destruct (Hsame i) as (_ & _ & _ & _ & E & _). rewrite <- E. by apply Hx. }
    rewrite fupd_ne; [by apply C|]. intros ->. by apply (Hx' b).
Qed.

(** Closing a block that is in the log or that was not changed. *)
Lemma brelse_spec op1 b op2 pins ld k : fs_wf (op1 ++ b :: op2) pins ld k ->
  (bno k b ∈ pins \/ ld (bno k b) = k_disk k (bno k b)) ->
  wp (brelse b) (fun _ k' => fs_wf (op1 ++ op2) pins ld k' /\ only_bufs k k' /\
    forall i, i ∈ op1 ++ op2 -> b_blockno (k_bufs k' !!! i) = bno k i) k.
Proof.
  intros H Hcl. set (op := op1 ++ b :: op2) in *. assert (Hb : b ∈ op) by set_solver.
  pose proof (op_lt _ _ _ _ _ H Hb) as Hlt. pose proof (bufs_len _ _ _ _ H) as Hlen.
  destruct (fw_ring _ _ _ _ H) as [l Hr]. destruct (op_buf _ _ _ _ _ H Hb) as (Hdev & Hdat & Hlk & Hok).
  eapply wp_mono; [eapply brelse_wp; [apply H|done|exact Hr|done]|]. cbv beta. intros _ k' Hk.
  assert (Hbs : k_bufs k' = released b (k_bufs k)) by (rewrite (resched_bufs _ _ Hk); by kproj).
  assert (HrR : exists l', ring_wf (released b (k_bufs k)) l').
  { unfold released. assert (Hd : ring_wf (alter dropped b (k_bufs k)) l) by (apply ring_wf_alter; [done|by intros []]).
    destruct (_ =? 0); [exists (to_front b l); by apply ring_wf_front|by exists l]. }
  assert (Hpay : forall i, payload (released b (k_bufs k) !!! i) = payload (alter dropped b (k_bufs k) !!! i)).
  { intros i. unfold released. destruct (_ =? 0); [apply payload_front|done]. }
  assert (Hoth : forall i, i <> b -> payload (released b (k_bufs k) !!! i) = payload (k_bufs k !!! i)).
  { intros i Hi. by rewrite Hpay, miss_total. }
  specialize (Hpay b). rewrite hit_total in Hpay by lia. injection Hpay as P1 P2 P3 P4 P5 P6.
  assert (HB : forall i, b_blockno (released b (k_bufs k) !!! i) = bno k i /\ b_dev (released b (k_bufs k) !!! i) = b_dev (k_bufs k !!! i)).
  { intros i. destruct (decide (i = b)) as [->|Hne]; [done|]. specialize (Hoth i Hne). by injection Hoth. }
  pose proof (fw_op _ _ _ _ H) as [Hnd Hfa]. assert (Hnd' := Hnd). unfold op in Hnd'. rewrite <- Permutation_middle in Hnd'.
  apply NoDup_cons in Hnd' as [Hbop Hnd'].
  split; [|split; [by eapply resched_only_bufs|intros i _; rewrite Hbs; apply HB]].
  eapply fs_wf_resched; [|exact Hk]. destruct H as [T _ B U G O LD DK C]. split; kproj; try done.
  - by apply thread_set_bufs.
  - intros i Hi. destruct (decide (i = b)) as [->|Hne].
    + destruct (B b Hi) as [B1 B2 B3 B4 B5 B6]. split; rewrite ?P1, ?P2, ?P3, ?P4, ?P5, ?P6.
      * by right. * done. * by rewrite decide_False.
      * change (b_refcnt (dropped ?y)) with (u32 (b_refcnt y - 1)). rewrite B4, decide_True, (decide_False (P := b ∈ op1 ++ op2)) by done.
        change (b_dev (dropped ?y)) with (b_dev y). change (b_blockno (dropped ?y)) with (b_blockno y).
        destruct (decide (_ /\ _)); reflexivity.
      * done. * done.
    + apply (buf_wf_op _ op); [unfold op; set_solver|]. destruct (B i Hi) as [B1 B2 B3 B4 B5 B6]. specialize (Hoth i Hne).
      injection Hoth as Q1 Q2 Q3 Q4 Q5 Q6. split; rewrite ?Q1, ?Q2, ?Q3, ?Q4, ?Q5, ?Q6; done.
  - intros i j Hi Hj. destruct (HB i) as [-> ->]. destruct (HB j) as [-> ->]. by apply U.
  - intros x Hx. destruct (G x Hx) as (i & Hi & H1 & H2). exists i. by destruct (HB i) as [-> ->].
  - split; [done|]. unfold op in Hfa. rewrite <- Permutation_middle in Hfa. by apply Forall_cons in Hfa as [_ ?].
  - intros x Hx Hl. destruct (decide (x = bno k b)) as [->|Hne].
    + destruct Hcl as [Hcl|Hcl]; [by destruct Hl|done].
    + apply C; [|done]. intros i Hi. destruct (decide (i = b)) as [->|Hib]; [congruence|].
      rewrite <- (proj1 (HB i)). apply Hx. set_solver.
Qed.

(** Between transactions' steps the pinned blocks are those of the log. *)
Definition fs_ok (op : list nat) (ld : Z -> list Z) (k : kernel) : Prop :=
  fs_wf op (logged (k_log k)) ld k /\ log_wf (k_log k).

(** The search of [log_write] finds the place of a logged block. *)
Lemma log_search x k : log_wf (k_log k) ->
  wp (for_until (Z.to_nat (l_n (k_log k))) 0 (fun i =>
        let! lg := getl in ret (if u32 (aget (l_block lg) i) =? x then Some i else None)))
     (fun r k' => k' = k /\ match r with
        | Some i => 0 <= i < l_n (k_log k) /\ aget (l_block (k_log k)) i = x
        | None => x ∉ logged (k_log k) end) k.
Proof.
  intros Hw. eapply wp_mono; [apply (wp_for_until _ _ _
    (fun i k' => k' = k /\ forall j, 0 <= j < i -> aget (l_block (k_log k)) j <> x)
    (fun i k' => k' = k /\ 0 <= i < l_n (k_log k) /\ aget (l_block (k_log k)) i = x))|].
  - split; [done|]. lia.
  - intros i k' Hi [-> Hno]. pose proof (lw_n _ Hw) as Hn. unfold getl. wp_steps.
    assert (Hi' : 0 <= i < l_n (k_log k)) by lia.
    destruct (logged_ok (k_log k) (aget (l_block (k_log k)) i) Hw) as [_ ->].
    { eapply list_elem_of_lookup_2. by apply logged_lookup. }
    destruct (Z.eqb_spec (aget (l_block (k_log k)) i) x) as [He|He]; [done|].
    split; [done|]. intros j Hj. destruct (decide (j = i)) as [->|]; [done|]. apply Hno. lia.
  - intros [i|] k'; [naive_solver|]. cbv beta. intros [-> Hno]. split; [done|]. intros Hx.
    apply list_elem_of_lookup_1 in Hx as [j Hj]. pose proof (lookup_lt_Some _ _ _ Hj) as Hlt.
    pose proof (logged_length _ Hw) as Hll. apply (Hno (Z.of_nat j)); [lia|].
    pose proof (logged_lookup _ (Z.of_nat j) Hw ltac:(lia)) as Hl. rewrite Nat2Z.id in Hl. congruence.
Qed.

Lemma log_write_eq op ld k b : fs_ok op ld k -> b ∈ op -> l_n (k_log k) < LOGBLOCKS -> 1 <= l_outstanding (k_log k) ->
  log_write b k = Ret tt (if bool_decide (bno k b ∈ logged (k_log k)) then k
     else k <| k_bufs ::= alter (set b_refcnt (fun n => u32 (n + 1))) b |> <| k_log ::= log_add (bno k b) |>).
Proof.
  intros H Hb Hn Ho. pose proof (th_held _ _ (fw_thread _ _ _ _ (proj1 H))) as Hh. pose proof (proj2 H) as Hw.
  destruct (op_buf _ _ _ _ _ (proj1 H) Hb) as (_ & _ & _ & Hok). unfold blockno_ok in Hok.
  apply wp_eq. unfold log_write, getl, updl, getb. wp_steps. wp_lock. wp_steps. kproj.
  destruct (Z.leb_spec LOGBLOCKS (l_n (k_log k))); [lia|]. destruct (Z.ltb_spec (l_outstanding (k_log k)) 1); [lia|].
  wp_steps. kproj. pose proof (log_search (bno k b) (k <| k_held ::= cons L_log |>)) as Hs. specialize (Hs Hw). kproj_in Hs. unfold getl in Hs.
  eapply wp_mono; [exact Hs|]. cbv beta. rewrite i32_id by lia. intros r k' [-> Hr]. destruct r as [i|]; cbn [default from_option id].
  - destruct Hr as [Hi He]. wp_steps. destruct (Z.eqb_spec i (l_n (k_log k))); [lia|]. cbn [when].
    wp_steps. wp_lock. split; [done|]. rewrite bool_decide_eq_true_2
      by (rewrite <- He; eapply list_elem_of_lookup_2; by apply logged_lookup).
    kext; [|by rewrite unlocked_top by held].
    assert (aset i (bno k b) (l_block (k_log k)) = l_block (k_log k)) as E.
    { unfold aset. apply list_insert_id. rewrite <- He. unfold aget. apply list_lookup_lookup_total_lt.
      pose proof (lw_len _ Hw). pose proof (lw_n _ Hw). lia. }
    by apply set_block_same.
  - wp_steps. rewrite Z.eqb_refl. cbn [when]. wp_steps. eapply wp_Ret; [apply bpin_eq; kproj; by rewrite Hh|].
    wp_steps. wp_lock. split; [done|]. rewrite bool_decide_eq_false_2 by done.
    kext; [|by rewrite unlocked_top by held]. unfold log_add. rewrite bool_decide_eq_false_2 by done. by destruct (k_log k).
Qed.

(** The law of [log_write]: the block is in the transaction, nothing else changes. *)
Lemma log_write_spec op ld k b : fs_ok op ld k -> b ∈ op -> l_n (k_log k) < LOGBLOCKS -> 1 <= l_outstanding (k_log k) ->
  wp (log_write b) (fun _ k' => fs_ok op ld k' /\ k_log k' = log_add (bno k b) (k_log k) /\
    k' = k <| k_bufs := k_bufs k' |> <| k_log := k_log k' |> /\
    forall i, b_blockno (k_bufs k' !!! i) = bno k i) k.
Proof.
  intros H Hb Hn Ho. pose proof (op_lt _ _ _ _ _ (proj1 H) Hb) as Hlt. pose proof (bufs_len _ _ _ _ (proj1 H)) as Hlen.
  destruct (op_buf _ _ _ _ _ (proj1 H) Hb) as (Hdev & _ & _ & Hok). eapply wp_Ret; [by eapply log_write_eq|].
  destruct (bool_decide _) eqn:E.
  { split; [done|]. split; [unfold log_add; by rewrite E|]. split; [kext|done]. }
  kproj. destruct H as [[T [l R] B U G O LD DK C] L].
  pose proof (logged_add (bno k b) _ L Hn) as Hl. rewrite E in Hl. apply bool_decide_eq_false in E.
  set (f := set b_refcnt (fun n => u32 (n + 1))).
  assert (Hsame : forall i, let y := alter f b (k_bufs k) !!! i in let z := k_bufs k !!! i in
    b_dev y = b_dev z /\ b_valid y = b_valid z /\ b_lock y = b_lock z /\ b_blockno y = b_blockno z /\ b_data y = b_data z /\
    b_refcnt y = if decide (i = b) then u32 (b_refcnt z + 1) else b_refcnt z).
  { intros i. cbv zeta. destruct (decide (i = b)) as [->|Hne]; [rewrite hit_total by lia; done|by rewrite miss_total]. }
  split; [|split; [done|split; [kext|intros i; apply Hsame]]].
  split; [|by apply log_add_wf]. split; kproj; rewrite ?Hl; try done.
  - destruct T as [T1 T2 T3 T4 T5]. by split.
  - exists l. apply ring_wf_alter; [done|]. by intros [].
  - intros i Hi. destruct (Hsame i) as (E1 & E2 & E3 & E4 & E5 & E6). destruct (B i Hi) as [B1 B2 B3 B4 B5 B6].
    split; rewrite ?E1, ?E2, ?E3, ?E4, ?E5, ?E6; try done. rewrite B4. destruct (decide (i = b)) as [Hib|Hib].
    + subst i. rewrite (decide_False (P := _ /\ bno k b ∈ logged (k_log k))) by naive_solver.
      rewrite (decide_True (P := _ /\ bno k b ∈ _ ++ _)) by set_solver. rewrite decide_True by done. done.
    + f_equal. apply decide_ext. split; [set_solver|]. intros [Hd Hin]. split; [done|].
      apply elem_of_app in Hin as [Hin|Hin%list_elem_of_singleton]; [done|]. destruct Hib. by apply U.
  - intros i j Hi Hj. destruct (Hsame i) as (-> & _ & _ & -> & _). destruct (Hsame j) as (-> & _ & _ & -> & _). by apply U.
  - intros x Hx. apply elem_of_app in Hx as [Hx|Hx%list_elem_of_singleton].
    + destruct (G x Hx) as (i & Hi & Hd1 & Hd2). exists i. destruct (Hsame i) as (-> & _ & _ & -> & _). done.
    + exists b. destruct (Hsame b) as (-> & _ & _ & -> & _). done.
  - intros x Hx Hnl. apply C; [|set_solver]. intros i Hi. destruct (Hsame i) as (_ & _ & _ & Eb & _). rewrite <- Eb. by apply Hx.
Qed.
End FsInv.

(** ** The cache after booting *)

(** The fields [binit] leaves alone. *)
Definition contents (b : buf) := (b_dev b, b_valid b, b_refcnt b, b_blockno b, b_data b).

(** The first [n] buffers are in the list, the last one first. *)
Record initialised (bs0 : list buf) (n : nat) (bs : list buf) : Prop := {
  in_len : length bs = S bhead;
  in_ring : ring bs (rev (seq 0 n));
  in_contents i : contents (bs !!! i) = contents (bs0 !!! i);
  in_lock i : (i < n)%nat -> b_lock (bs !!! i) = sleeplock0
}.

Lemma in_rev_seq i n : i ∈ rev (seq 0 n) <-> (i < n)%nat.
Proof. rewrite list_elem_of_In, <- in_rev, <- list_elem_of_In, elem_of_seq. lia. Qed.

(** One more buffer at the front, its lock initialised. *)
Definition add_front (b : nat) (bs : list buf) : list buf :=
  alter (set b_lock (fun _ => sleeplock0)) b (push_front b bs).

Lemma initialised_S bs0 n bs : (n < bhead)%nat -> initialised bs0 n bs -> initialised bs0 (S n) (add_front n bs).
Proof.
  intros Hn [Hl Hr Hc Hk]. unfold add_front.
  assert (Hpl : length (push_front n bs) = S bhead) by (unfold push_front; by rewrite !length_alter).
  assert (Hpp : forall i, payload (push_front n bs !!! i) = payload (bs !!! i))
    by (intros i; unfold push_front; by rewrite !payload_alter by (by intros [])).
  split.
  - by rewrite length_alter.
  - rewrite seq_S, rev_app_distr. cbn [rev app Nat.add]. eapply linked_ext; [| |apply ring_push_front].
    + intros i _. by apply (proj_alter b_next).
    + intros i _. by apply (proj_alter b_prev).
    + done.
    + apply NoDup_cons. split; [|apply NoDup_cons; split].
      * intros H. apply elem_of_cons in H as [->|H]; [lia|]. apply in_rev_seq in H. lia.
      * intros H. apply in_rev_seq in H. lia.
      * apply NoDup_ListNoDup, NoDup_rev, NoDup_ListNoDup, NoDup_seq.
    + done.
    + apply Forall_forall. intros i Hi. apply in_rev_seq in Hi. lia.
    + done.
  - intros i. rewrite (proj_alter contents) by (by intros []). rewrite <- Hc. specialize (Hpp i). injection Hpp as E1 E2 _ E4 E5 E6. unfold contents. by rewrite E1, E2, E4, E5, E6.
  - intros i Hi. rewrite lookup_total_alter by lia. case_decide as E; [by destruct (push_front n bs !!! n)|].
    specialize (Hpp i). injection Hpp as _ _ -> _ _ _. apply Hk. lia.
Qed.

Lemma bufs_eq (l1 l2 : list buf) : length l1 = length l2 -> (forall i, l1 !!! i = l2 !!! i) -> l1 = l2.
Proof.
  intros Hl H. apply list_eq. intros i. destruct (decide (i < length l1)%nat) as [Hi|Hi].
  - rewrite !list_lookup_lookup_total_lt by lia. by rewrite H.
  - rewrite !lookup_ge_None_2 by lia. done.
Qed.

(** [binit] builds the list and initialises the locks. *)
Lemma binit_wp k : length (k_bufs k) = S bhead -> k_held k = [] ->
  wp binit (fun _ k' => k' = k <| k_bufs := k_bufs k' |> /\ initialised (k_bufs k) bhead (k_bufs k')) k.
Proof.
  intros Hl Hh. unfold binit, updb, getb. wp_step. eapply wp_Ret; [apply initlock_eq; rewrite Hh; set_solver|]. wp_steps.
  eapply wp_mono; [apply (wp_for_range _ _ _ (fun i k' => k' = k <| k_bufs := k_bufs k' |> /\ initialised (k_bufs k) (Z.to_nat i) (k_bufs k')))|].
  - split; [kext|]. kproj. split; [by rewrite !length_alter| |intros i; by rewrite !(proj_alter contents) by (by intros [])|lia].
    change (Z.to_nat 0) with 0%nat. unfold ring. cbn [rev seq linked]. rewrite !lookup_total_alter by (rewrite ?length_alter; lia).
    rewrite !decide_True by done. by destruct (k_bufs k !!! bhead).
  - intros i k' Hi [Hk Hin]. assert (Hh' : k_held k' = []) by (rewrite Hk; kproj; done).
    unfold initsleeplock, link_front, updb, getb. do 8 wp_step. kproj.
    eapply wp_Ret; [apply initlock_eq; kproj; rewrite Hh'; set_solver|]. cbn [sr_upd buflock]. wp_steps. kproj.
    set (n := Z.to_nat i) in *. replace (Z.to_nat (i + 1)) with (S n) by lia. assert (Hn : (n < bhead)%nat) by (unfold n, bhead; lia).
    split; [rewrite Hk; kext|]. apply (initialised_S _ n) in Hin as Hin'; [|done].
    match goal with |- initialised _ _ ?x => replace x with (add_front n (k_bufs k')); [done|] end.
    destruct Hin as [Hlen Hr _ _]. apply linked_first in Hr. assert (Hfl : (b_next (k_bufs k' !!! bhead) < length (k_bufs k'))%nat).
    { rewrite Hr, Hlen. destruct (rev (seq 0 n)) as [|z t] eqn:E; cbn; [lia|].
      assert (z ∈ rev (seq 0 n)) as Hz%in_rev_seq by (rewrite E; left). lia. }
    unfold add_front, push_front. apply bufs_eq; [by rewrite !length_alter|].
    intros j. assert (Hnb : n <> bhead) by lia. pose proof miss_total as Hm.
    rewrite !(Hm _ _ n bhead) by congruence. set (f := b_next (k_bufs k' !!! bhead)) in *.
    repeat rewrite lookup_total_alter by (rewrite ?length_alter; lia).
    repeat case_decide; simplify_eq; try done; first [congruence | by destruct (k_bufs k' !!! _)].
  - cbv beta. intros _ k' [Hk Hin]. split; [done|]. by rewrite Z.add_0_l, Nat2Z.id in Hin.
Qed.

(** Buffers as the zeroed memory of the kernel image has them. *)
Definition fresh_bufs (bs : list buf) : Prop :=
  length bs = S bhead /\ forall i, b_dev (bs !!! i) = 0 /\ b_refcnt (bs !!! i) = 0 /\ b_blockno (bs !!! i) = 0.

Section Boot.
Context {D : Disk} {DO : DiskOk D} {p : nat}.

Lemma binit_fs_wf k : thread p k -> fresh_bufs (k_bufs k) -> (forall x, block_ok (k_disk k x)) ->
  wp binit (fun _ k' => k' = k <| k_bufs := k_bufs k' |> /\ fs_wf (p := p) [] [] (k_disk k) k') k.
Proof.
  intros Ht [Hl Hz] Hd. eapply wp_mono; [apply binit_wp; [done|apply Ht]|]. cbv beta. intros _ k' [Hk [Il Ir Ic Ik]]. split; [done|].
  assert (Hc : forall i, b_dev (k_bufs k' !!! i) = 0 /\ b_refcnt (k_bufs k' !!! i) = 0 /\ b_blockno (k_bufs k' !!! i) = 0).
  { intros i. specialize (Ic i). injection Ic as -> _ -> -> _. apply Hz. }
  assert (Hpr : k_procs k' = k_procs k) by (rewrite Hk; by kproj). assert (Hdk : k_disk k' = k_disk k) by (rewrite Hk; by kproj).
  split; rewrite ?Hpr, ?Hdk; try done.
  - rewrite Hk. apply (thread_set_bufs k (fun _ => k_bufs k')). exact Ht.
  - exists (rev (seq 0 bhead)). split; [done| |done]. symmetry. apply Permutation_rev.
  - intros i Hi. destruct (Hc i) as (Hdev & Hr & Hbn). split; rewrite ?Hdev, ?Hr, ?Hbn; try done.
    + right. apply not_elem_of_nil.
    + rewrite decide_False by apply not_elem_of_nil. by apply Ik.
  - intros i j _ _ Hi. by rewrite (proj1 (Hc i)) in Hi.
  - intros x Hx. by apply not_elem_of_nil in Hx.
  - split; constructor.
Qed.
End Boot.
