(* ===== verification/LogSpec.v ===== *)
(** * Committing and recovering *)

From Stdlib Require Import ZArith Lia.
From stdpp Require Import base list strings sets.
From S2P Require Import Prelude Params Mem State Evict Kalloc Vm Sched SchedSpec SchedProps.
From S2P Require Import Sleeplock Printf Bio BioSpec BioLaws Log FsInv.

(** ** Sequences of block writes *)

Definition apply_writes (ws : list (Z * list Z)) (d : Z -> list Z) : Z -> list Z :=
  foldl (fun d w => fupd (fst w) (snd w) d) d ws.

Lemma apply_writes_app ws1 ws2 d : apply_writes (ws1 ++ ws2) d = apply_writes ws2 (apply_writes ws1 d).
Proof. unfold apply_writes. by rewrite foldl_app. Qed.

Lemma apply_writes_ne ws d x : (x ∉ ws.*1) -> apply_writes ws d x = d x.
Proof.
  revert d. induction ws as [|[y v] ws IH]; intros d Hx; [done|].
  change (apply_writes ws (fupd y v d) x = d x). cbn in Hx. rewrite IH by set_solver. apply fupd_ne. set_solver.
Qed.

(** ** The header block *)

(** The block [d] with the count and the first [i] block numbers of [lg]. *)
Definition hdr_upto (lg : loginfo) (i : nat) (d : list Z) : list Z :=
  foldl (fun d j => set_lh_block (Z.of_nat j) (aget (l_block lg) (Z.of_nat j)) d) (set_lh_n (l_n lg) d) (seq 0 i).
Definition hdr_block (lg : loginfo) (d : list Z) : list Z := hdr_upto lg (Z.to_nat (l_n lg)) d.

Lemma hdr_upto_S lg i d :
  hdr_upto lg (S i) d = set_lh_block (Z.of_nat i) (aget (l_block lg) (Z.of_nat i)) (hdr_upto lg i d).
Proof. unfold hdr_upto. by rewrite seq_S, foldl_app. Qed.

Lemma putw_block_ok n off v d : (off + n <= Z.to_nat BSIZE)%nat -> block_ok d -> block_ok (putw n off v d).
Proof. intros Hn [H1 H2]. split; [rewrite length_putw; lia|by apply putw_bytes_ok]. Qed.

Lemma hdr_upto_ok lg i d : (i <= Z.to_nat LOGBLOCKS)%nat -> block_ok d -> block_ok (hdr_upto lg i d).
Proof.
  change (Z.to_nat LOGBLOCKS) with 30%nat. intros Hi Hd. induction i as [|i IH].
  - apply putw_block_ok; [change (Z.to_nat BSIZE) with 1024%nat; lia|done].
  - rewrite hdr_upto_S. apply putw_block_ok; [|apply IH; lia]. rewrite Nat2Z.id. change (Z.to_nat BSIZE) with 1024%nat. lia.
Qed.

Lemma word32_back v : i32 (v mod 256 ^ Z.of_nat 4) = i32 v.
Proof. change (256 ^ Z.of_nat 4) with 4294967296. unfold i32. dlia. Qed.

Lemma hdr_upto_n lg i d : (i <= Z.to_nat LOGBLOCKS)%nat -> block_ok d -> lh_n (hdr_upto lg i d) = i32 (l_n lg).
Proof.
  intros Hi Hd. induction i as [|i IH].
  - unfold lh_n, hdr_upto, set_lh_n. cbn [seq foldl]. rewrite getw_putw_eq; [apply word32_back|].
    rewrite (proj1 Hd). change (Z.to_nat BSIZE) with 1024%nat. lia.
  - rewrite hdr_upto_S. unfold lh_n, set_lh_block in *. rewrite Nat2Z.id, getw_putw_ne; [apply IH; lia| |lia].
    rewrite (proj1 (hdr_upto_ok lg i d ltac:(lia) Hd)). change (Z.to_nat BSIZE) with 1024%nat.
    change (Z.to_nat LOGBLOCKS) with 30%nat in Hi. lia.
Qed.

Lemma hdr_upto_block lg i d j : (i <= Z.to_nat LOGBLOCKS)%nat -> block_ok d -> (j < i)%nat ->
  lh_block (hdr_upto lg i d) (Z.of_nat j) = i32 (aget (l_block lg) (Z.of_nat j)).
Proof.
  intros Hi Hd Hj. induction i as [|i IH]; [lia|]. rewrite hdr_upto_S. unfold lh_block, set_lh_block in *.
  assert (Hlen : (4 + 4 * i + 4 <= length (hdr_upto lg i d))%nat).
  { rewrite (proj1 (hdr_upto_ok lg i d ltac:(lia) Hd)). change (Z.to_nat BSIZE) with 1024%nat.
    change (Z.to_nat LOGBLOCKS) with 30%nat in Hi. lia. }
  rewrite !Nat2Z.id in *. destruct (decide (j = i)) as [->|Hne].
  - rewrite getw_putw_eq by done. apply word32_back.
  - rewrite getw_putw_ne by lia. apply IH; lia.
Qed.

(** ** The writes of a transaction *)

(** Blocks [bs] to the log, and back from the log to their places. *)
Definition log_writes (s : Z) (ld : Z -> list Z) (bs : list Z) : list (Z * list Z) :=
  imap (fun i x => (s + Z.of_nat i + 1, ld x)) bs.
Definition install_writes (s : Z) (ld : Z -> list Z) (bs : list Z) : list (Z * list Z) :=
  imap (fun i x => (x, ld (s + Z.of_nat i + 1))) bs.

(** The blocks of a log that starts at [s], and blocks outside of it. *)
Definition in_log (s x : Z) : Prop := s <= x <= s + LOGBLOCKS.
Definition log_place (s : Z) (bs : list Z) : Prop :=
  blockno_ok s /\ blockno_ok (s + LOGBLOCKS) /\ Forall (fun x => blockno_ok x /\ ~ in_log s x) bs.

Lemma imap_take_S {A B} (f : nat -> A -> B) (l : list A) i x : l !! i = Some x ->
  imap f (take (S i) l) = imap f (take i l) ++ [f i x].
Proof.
  intros H. rewrite (take_S_r _ _ x) by done. rewrite imap_app. cbn. rewrite Nat.add_0_r, length_take.
  pose proof (lookup_lt_Some _ _ _ H). by rewrite Nat.min_l by lia.
Qed.

Lemma NoDup_drop {A} n (l : list A) : NoDup l -> NoDup (drop n l).
Proof. rewrite <- (take_drop n l) at 1. rewrite NoDup_app. tauto. Qed.

Lemma log_writes_fst s ld bs x : x ∈ (log_writes s ld bs).*1 -> s < x <= s + Z.of_nat (length bs).
Proof.
  intros Hx. apply list_elem_of_fmap in Hx as (w & -> & Hw). apply list_elem_of_lookup_1 in Hw as [i Hi].
  unfold log_writes in Hi. rewrite list_lookup_imap in Hi. destruct (bs !! i) as [y|] eqn:E; [|done].
  cbn in Hi. injection Hi as <-. cbn. pose proof (lookup_lt_Some _ _ _ E). lia.
Qed.

Lemma install_writes_fst s ld bs : (install_writes s ld bs).*1 = bs.
Proof.
  apply list_eq. intros i. unfold install_writes. rewrite list_lookup_fmap, list_lookup_imap. by destruct (bs !! i).
Qed.

(** The writes of [commit], in order. *)
Definition commit_writes (lg : loginfo) (ld : Z -> list Z) : list (Z * list Z) :=
  let s := l_start lg in
  let ws := log_writes s ld (logged lg) ++ [(s, hdr_block lg (ld s))] in
  ws ++ install_writes s (apply_writes ws ld) (logged lg)
     ++ [(s, hdr_block (lg <| l_n := 0 |>) (hdr_block lg (ld s)))].

Lemma log_wf_empty lg : log_wf lg -> log_wf (lg <| l_n := 0 |>).
Proof. intros [H1 H2 H3 H4 H5]. split; cbn; try done; constructor. Qed.

Section LogSpec.
Context {I : Interference} {D : Disk} {DO : DiskOk D} {p : nat}.

Local Abbreviation pid k := (p_pid (k_procs k !!! p)).
Local Abbreviation bno k i := (b_blockno (k_bufs k !!! i)).
Local Abbreviation fs_wf := (@fs_wf D p).

(** Only the block store differs, apart from what the scheduler owns. *)
Definition only_fs (k k' : kernel) : Prop :=
  resched (k <| k_bufs := k_bufs k' |> <| k_disk := k_disk k' |> <| k_dwrites := k_dwrites k' |> <| k_log := k_log k' |>) k'.

#[export] Instance only_fs_preorder : PreOrder only_fs.
Proof.
  split.
  - intros k. unfold only_fs. match goal with |- resched ?x ?y => replace x with y by kext end. reflexivity.
  - intros k1 k2 k3 H1 H2. unfold only_fs in *.
    apply (resched_set_bufs (fun _ => k_bufs k3)) in H1. apply (resched_set_disk (fun _ => k_disk k3)) in H1.
    apply (resched_set_dwrites (fun _ => k_dwrites k3)) in H1. apply (resched_set_log (fun _ => k_log k3)) in H1.
    etransitivity; [|exact H2]. etransitivity; [|exact H1].
    match goal with |- resched ?x ?y => replace y with x; [reflexivity|kext] end.
Qed.

Lemma only_bufs_fs k k' : only_bufs k k' -> only_fs k k'.
Proof.
  intros H. unfold only_fs. rewrite (only_bufs_disk _ _ H), (only_bufs_dwrites _ _ H), (only_bufs_log _ _ H).
  etransitivity; [|exact H]. match goal with |- resched ?x ?y => replace y with x; [reflexivity|kext] end.
Qed.

Lemma only_fs_log f k : only_fs k (k <| k_log ::= f |>).
Proof.
  unfold only_fs. match goal with |- resched ?x ?y => replace x with y by kext end. reflexivity.
Qed.

Lemma fs_wf_set_log op pins ld k f : fs_wf op pins ld k -> fs_wf op pins ld (k <| k_log ::= f |>).
Proof. intros [T R B U G O LD DK C]. split; try done. by destruct T. Qed.

(** Writing an open buffer to the disk. *)
Lemma bwrite_spec op pins ld k b : fs_wf op pins ld k -> b ∈ op ->
  wp (bwrite b) (fun _ k' => fs_wf op pins ld k' /\ only_fs k k' /\ k_log k' = k_log k /\
    k_disk k' = fupd (bno k b) (ld (bno k b)) (k_disk k) /\
    k_dwrites k' = k_dwrites k ++ [(bno k b, ld (bno k b))] /\ forall i, b_blockno (k_bufs k' !!! i) = bno k i) k.
Proof.
  intros H Hb. pose proof (op_lt _ _ _ _ _ H Hb) as Hlt. pose proof (bufs_len _ _ _ _ H) as Hlen.
  destruct (op_buf _ _ _ _ _ H Hb) as (Hdev & Hdat & Hlk & Hok).
  eapply wp_mono; [apply (bwrite_wp (p := p)); [apply H|done|done|done|done]|].
  cbv zeta beta. rewrite Hdat. intros _ k' Hk. set (x := bno k b) in *.
  assert (Hpay : forall i, payload (alter flushed b (k_bufs k) !!! i) = payload (k_bufs k !!! i)) by (intros i; apply payload_alter; by intros []).
  assert (Hbs : k_bufs k' = alter flushed b (k_bufs k)) by (rewrite (resched_bufs _ _ Hk); by kproj).
  assert (Hdk : k_disk k' = fupd x (ld x) (k_disk k)) by (rewrite (resched_disk _ _ Hk); by kproj).
  assert (Hdw : k_dwrites k' = k_dwrites k ++ [(x, ld x)]) by (rewrite (resched_dwrites _ _ Hk); by kproj).
  assert (Hlg : k_log k' = k_log k) by (rewrite (resched_log _ _ Hk); by kproj).
  assert (Hb' : forall i, b_blockno (alter flushed b (k_bufs k) !!! i) = bno k i /\ b_dev (alter flushed b (k_bufs k) !!! i) = b_dev (k_bufs k !!! i))
    by (intros i; specialize (Hpay i); by injection Hpay).
  split.
  - eapply fs_wf_resched; [|exact Hk]. destruct H as [T [l R] B U G O LD DK C]. split; kproj; try done.
    + destruct T as [T1 T2 T3 T4 T5]. by split.
    + exists l. apply ring_wf_alter; [done|]. by intros [].
    + intros i Hi. specialize (Hpay i). injection Hpay as P1 P2 P3 P4 P5 P6. destruct (B i Hi) as [B1 B2 B3 B4 B5 B6].
      split; rewrite ?P1, ?P2, ?P3, ?P4, ?P5, ?P6; done.
    + intros i j Hi Hj. destruct (Hb' i) as [-> ->]. destruct (Hb' j) as [-> ->]. by apply U.
    + intros y Hy. destruct (G y Hy) as (i & Hi & H1 & H2). exists i. by destruct (Hb' i) as [-> ->].
    + intros y. destruct (decide (y = x)) as [->|]; [by rewrite fupd_eq|by rewrite fupd_ne].
    + intros y Hy Hp. destruct (decide (y = x)) as [->|]; [by rewrite fupd_eq|]. rewrite fupd_ne by done. apply C; [|done].
      intros i Hi. rewrite <- (proj1 (Hb' i)). by apply Hy.
  - split; [|split; [done|split; [done|split; [done|intros i; rewrite Hbs; apply Hb']]]].
    unfold only_fs. rewrite Hbs, Hdk, Hdw, Hlg. etransitivity; [|exact Hk].
    match goal with |- resched ?x ?y => replace y with x; [reflexivity|kext] end.
Qed.

(** Unpinning a block that is the same on the disk. *)
Lemma bunpin_spec op p1 p2 ld k b : fs_wf op (p1 ++ bno k b :: p2) ld k -> b ∈ op -> NoDup (p1 ++ bno k b :: p2) ->
  ld (bno k b) = k_disk k (bno k b) ->
  wp (bunpin b) (fun _ k' => fs_wf op (p1 ++ p2) ld k' /\ only_bufs k k' /\ forall i, b_blockno (k_bufs k' !!! i) = bno k i) k.
Proof.
  intros H Hb Hnd Hcl. pose proof (op_lt _ _ _ _ _ H Hb) as Hlt. pose proof (bufs_len _ _ _ _ H) as Hlen.
  destruct (op_buf _ _ _ _ _ H Hb) as (Hdev & Hdat & Hlk & Hok).
  assert (Hnx : bno k b ∉ p1 ++ p2) by (rewrite <- Permutation_middle in Hnd; by apply NoDup_cons in Hnd as [? _]).
  eapply wp_Ret; [eapply bunpin_eq, H|]. set (f := set b_refcnt (fun n => u32 (n - 1))).
  assert (Hsame : forall i, let y := alter f b (k_bufs k) !!! i in let z := k_bufs k !!! i in
    b_dev y = b_dev z /\ b_valid y = b_valid z /\ b_lock y = b_lock z /\ b_blockno y = b_blockno z /\ b_data y = b_data z /\
    b_refcnt y = if decide (i = b) then u32 (b_refcnt z - 1) else b_refcnt z).
  { intros i. cbv zeta. destruct (decide (i = b)) as [->|Hne]; [rewrite hit_total by lia; done|by rewrite miss_total]. }
  kproj. split; [|split; [by eapply resched_only_bufs|intros i; apply Hsame]].
  destruct H as [T [l R] B U G O LD DK C]. split; kproj; try done.
  - by apply thread_set_bufs.
  - exists l. apply ring_wf_alter; [done|]. by intros [].
  - intros i Hi. destruct (Hsame i) as (E1 & E2 & E3 & E4 & E5 & E6). destruct (B i Hi) as [B1 B2 B3 B4 B5 B6].
    split; rewrite ?E1, ?E2, ?E3, ?E4, ?E5, ?E6; try done. rewrite B4. destruct (decide (i = b)) as [Hib|Hib].
    + subst i. rewrite (decide_True (P := _ /\ bno k b ∈ p1 ++ _ :: p2)) by set_solver.
      rewrite (decide_False (P := _ /\ bno k b ∈ p1 ++ p2)) by naive_solver. rewrite decide_True by done. done.
    + f_equal. apply decide_ext. split; [|set_solver]. intros [Hd Hin]. split; [done|].
      assert (bno k i <> bno k b) by (intros He; destruct Hib; by apply U). set_solver.
  - intros i j Hi Hj. destruct (Hsame i) as (-> & _ & _ & -> & _). destruct (Hsame j) as (-> & _ & _ & -> & _). by apply U.
  - intros x Hx. destruct (G x) as (i & Hi & Hd1 & Hd2); [set_solver|]. exists i. destruct (Hsame i) as (-> & _ & _ & -> & _). done.
  - intros x Hx Hnl. destruct (decide (x = bno k b)) as [->|Hne]; [done|]. apply C; [|set_solver].
    intros i Hi. destruct (Hsame i) as (_ & _ & _ & Eb & _). rewrite <- Eb. by apply Hx.
Qed.

(** [k1] is [k] after the writes [ws], with no buffer open. *)
Record stage (k : kernel) (pins : list Z) (ld : Z -> list Z) (ws : list (Z * list Z)) (k1 : kernel) : Prop := {
  sg_wf : fs_wf [] pins (apply_writes ws ld) k1;
  sg_only : only_fs k k1;
  sg_log : k_log k1 = k_log k;
  sg_disk : k_disk k1 = apply_writes ws (k_disk k);
  sg_dwrites : k_dwrites k1 = k_dwrites k ++ ws
}.

Lemma stage_refl k pins ld : fs_wf [] pins ld k -> stage k pins ld [] k.
Proof. intros H. split; [done|reflexivity|done|done|by rewrite app_nil_r]. Qed.

Lemma stage_trans k pins ld ws k1 pins' ws' k2 :
  stage k pins ld ws k1 -> stage k1 pins' (apply_writes ws ld) ws' k2 -> stage k pins' ld (ws ++ ws') k2.
Proof.
  intros [A1 A2 A3 A4 A5] [B1 B2 B3 B4 B5]. split.
  - by rewrite apply_writes_app.
  - by transitivity k1.
  - congruence.
  - by rewrite B4, A4, apply_writes_app.
  - by rewrite B5, A5, app_assoc.
Qed.

(** One round of [write_log]: the pinned block [x] is copied to [y]. *)
Lemma log_copy pins ld k x y (body := fun (_ : unit) =>
    let! to := bread ROOTDEV y in
    let! from := bread ROOTDEV x in
    let! b := getb from in
    do! updb to (set b_data (fun _ => b_data b));
    do! bwrite to;
    do! brelse from;
    brelse to) :
  fs_wf [] pins ld k -> x ∈ pins -> blockno_ok x -> blockno_ok y -> x <> y -> Z.of_nat (length pins) < NBUF ->
  wp (body tt) (fun _ k' => stage k pins ld [(y, ld x)] k') k.
Proof.
  intros H Hx Hxo Hyo Hne Hroom. unfold body, getb, updb. wp_steps.
  eapply wp_mono; [apply (bread_spec [] pins ld k y H Hyo); [set_solver|right; cbn; lia]|].
  intros to k1 [_ Htl Htb Hw1 Ho1 _]. wp_steps.
  eapply wp_mono; [apply (bread_spec [to] pins ld k1 x Hw1 Hxo)|]; [|by left|].
  { intros i Hi. apply list_elem_of_singleton in Hi as ->. congruence. }
  intros from k2 [Hfn _ Hfb Hw2 Ho2 Hoth]. wp_steps.
  assert (Hft : to <> from) by set_solver.
  assert (Htb2 : bno k2 to = y) by (rewrite Hoth; done).
  destruct (op_buf _ _ _ _ from Hw2) as (_ & Hdat & _); [left|]. rewrite Hdat, Hfb.
  assert (Hw3 := fs_wf_write _ _ _ _ to (ld x) Hw2 ltac:(right; left) ltac:(apply (fw_ld _ _ _ _ H))).
  rewrite Htb2 in Hw3. set (k3 := k2 <| k_bufs ::= _ |>) in *.
  assert (Hb3 : forall i, bno k3 i = bno k2 i).
  { intros i. unfold k3. kproj. by apply proj_alter. }
  wp_steps. eapply wp_mono; [apply (bwrite_spec _ _ _ _ to Hw3); right; left|].
  intros _ k4 (Hw4 & Ho4 & Hl4 & Hd4 & Hdw4 & Hb4). rewrite Hb3, Htb2 in Hd4, Hdw4. rewrite fupd_eq in Hd4, Hdw4. wp_steps.
  assert (Hb4' : forall i, bno k4 i = bno k2 i) by (intros i; by rewrite Hb4, Hb3).
  eapply wp_mono; [apply (brelse_spec [] from [to] _ _ _ Hw4)|]; [left; by rewrite Hb4', Hfb|].
  cbn [app]. intros _ k5 (Hw5 & Ho5 & Hb5).
  assert (Ht5 : bno k5 to = y) by (rewrite Hb5, Hb4' by left; done).
  eapply wp_mono; [apply (brelse_spec [] to [] _ _ _ Hw5)|].
  { right. rewrite Ht5, fupd_eq, (only_bufs_disk _ _ Ho5), Hd4. by rewrite fupd_eq. }
  cbn [app]. intros _ k6 (Hw6 & Ho6 & _).
  assert (Hob : only_bufs k k3).
  { transitivity k2; [by transitivity k1|]. unfold k3. eapply resched_only_bufs. reflexivity. }
  assert (Hob' : only_bufs k4 k6) by (by transitivity k5).
  split; [done| | | |].
  - transitivity k3; [by apply only_bufs_fs|]. transitivity k4; [done|by apply only_bufs_fs].
  - by rewrite (only_bufs_log _ _ Hob'), Hl4, (only_bufs_log _ _ Hob).
  - by rewrite (only_bufs_disk _ _ Hob'), Hd4, (only_bufs_disk _ _ Hob).
  - by rewrite (only_bufs_dwrites _ _ Hob'), Hdw4, (only_bufs_dwrites _ _ Hob).
Qed.

(** One round of [install_trans]: block [y] is copied to [x], which is
    unpinned unless this is a recovery. *)
Lemma install_copy recov pins pins' ld k x y (body := fun (_ : unit) =>
    let! lbuf := bread ROOTDEV y in
    let! dbuf := bread ROOTDEV x in
    let! b := getb lbuf in
    do! updb dbuf (set b_data (fun _ => b_data b));
    do! bwrite dbuf;
    do! when (negb recov) (bunpin dbuf);
    do! brelse lbuf;
    brelse dbuf) :
  fs_wf [] pins ld k -> blockno_ok x -> blockno_ok y -> x <> y -> (y ∉ pins) ->
  (if recov then pins = [] /\ pins' = [] else pins = x :: pins' /\ NoDup pins /\ Z.of_nat (length pins) < NBUF) ->
  wp (body tt) (fun _ k' => stage k pins' ld [(x, ld y)] k') k.
Proof.
  intros H Hxo Hyo Hne Hyp Hpins. unfold body, getb, updb. wp_steps.
  assert (Hroom : Z.of_nat (length pins) < NBUF) by (destruct recov; [destruct Hpins as [-> _]; done|apply Hpins]).
  assert (Hclean : ld y = k_disk k y) by (apply (fw_clean _ _ _ _ H); [set_solver|done]).
  eapply wp_mono; [apply (bread_spec [] pins ld k y H Hyo); [set_solver|right; cbn; lia]|].
  intros lb k1 [_ Hll Hlb Hw1 Ho1 _]. wp_steps.
  eapply wp_mono; [apply (bread_spec [lb] pins ld k1 x Hw1 Hxo)|].
  { intros i Hi. apply list_elem_of_singleton in Hi as ->. congruence. }
  { destruct recov; [destruct Hpins as [-> _]; right; done|destruct Hpins as [-> _]; left; left]. }
  intros db k2 [Hfn _ Hdb Hw2 Ho2 Hoth]. wp_steps.
  assert (Hft : lb <> db) by set_solver. assert (Hlb2 : bno k2 lb = y) by (by rewrite Hoth).
  destruct (op_buf _ _ _ _ lb Hw2) as (_ & Hdat & _); [right; left|]. rewrite Hdat, Hlb2.
  assert (Hw3 := fs_wf_write _ _ _ _ db (ld y) Hw2 ltac:(left) ltac:(apply (fw_ld _ _ _ _ H))).
  rewrite Hdb in Hw3. set (k3 := k2 <| k_bufs ::= _ |>) in *.
  assert (Hb3 : forall i, bno k3 i = bno k2 i) by (intros i; unfold k3; kproj; by apply proj_alter).
  wp_steps. eapply wp_mono; [apply (bwrite_spec _ _ _ _ db Hw3); left|].
  intros _ k4 (Hw4 & Ho4 & Hl4 & Hd4 & Hdw4 & Hb4). rewrite Hb3, Hdb in Hd4, Hdw4. rewrite fupd_eq in Hd4, Hdw4. wp_steps.
  assert (Hob : only_bufs k k3).
  { transitivity k2; [by transitivity k1|]. unfold k3. eapply resched_only_bufs. reflexivity. }
  assert (Hd04 : k_disk k4 = fupd x (ld y) (k_disk k)) by (by rewrite Hd4, (only_bufs_disk _ _ Hob)).
  assert (Hun : wp (when (negb recov) (bunpin db)) (fun _ k5 => fs_wf [db; lb] pins' (fupd x (ld y) ld) k5 /\ only_bufs k4 k5 /\
    forall i, bno k5 i = bno k2 i) k4).
  { destruct recov; cbn [negb when].
    - destruct Hpins as [-> ->]. wp_steps. split; [done|]. split; [reflexivity|]. intros i. by rewrite Hb4, Hb3.
    - destruct Hpins as (-> & Hnd & _). assert (E : bno k4 db = x) by (by rewrite Hb4, Hb3). rewrite <- E in Hw4, Hnd at 1.
      eapply wp_mono; [apply (bunpin_spec _ [] pins' _ _ db Hw4); [left|done|]|].
      + rewrite E, fupd_eq, Hd04. by rewrite fupd_eq.
      + cbn [app]. rewrite E. intros _ k5 (Hw5 & Ho5 & Hb5). split; [done|]. split; [done|]. intros i. by rewrite Hb5, Hb4, Hb3. }
  eapply wp_mono; [exact Hun|]. cbv beta. intros _ k5 (Hw5 & Ho5 & Hb5). wp_steps.
  eapply wp_mono; [apply (brelse_spec [db] lb [] _ _ _ Hw5)|].
  { right. rewrite Hb5, Hlb2, (only_bufs_disk _ _ Ho5), Hd04, !fupd_ne by done. done. }
  cbn [app]. intros _ k6 (Hw6 & Ho6 & Hb6). assert (Hdb6 : bno k6 db = x) by (rewrite Hb6, Hb5 by left; done).
  eapply wp_mono; [apply (brelse_spec [] db [] _ _ _ Hw6)|].
  { right. rewrite Hdb6, fupd_eq, (only_bufs_disk _ _ Ho6), (only_bufs_disk _ _ Ho5), Hd04. by rewrite fupd_eq. }
  cbn [app]. intros _ k7 (Hw7 & Ho7 & _). assert (Hob' : only_bufs k4 k7) by (transitivity k6; [by transitivity k5|done]).
  split; [done| | | |].
  - transitivity k3; [by apply only_bufs_fs|]. transitivity k4; [done|by apply only_bufs_fs].
  - by rewrite (only_bufs_log _ _ Hob'), Hl4, (only_bufs_log _ _ Hob).
  - by rewrite (only_bufs_disk _ _ Hob'), Hd04.
  - by rewrite (only_bufs_dwrites _ _ Hob'), Hdw4, (only_bufs_dwrites _ _ Hob).
Qed.

Lemma write_head_wp pins ld k (lg := k_log k) : fs_wf [] pins ld k -> l_dev lg = ROOTDEV -> 0 <= l_n lg <= LOGBLOCKS ->
  blockno_ok (l_start lg) -> (l_start lg ∉ pins) -> Z.of_nat (length pins) < NBUF ->
  wp write_head (fun _ k' => stage k pins ld [(l_start lg, hdr_block lg (ld (l_start lg)))] k') k.
Proof.
  intros H Hdev Hn Hs Hsp Hroom. set (s := l_start lg) in *. unfold write_head, getl, updb. wp_steps. fold lg. rewrite Hdev.
  change (u32 ROOTDEV) with ROOTDEV. replace (u32 (l_start lg)) with s by (symmetry; apply u32_id; unfold blockno_ok in Hs; lia).
  eapply wp_mono; [apply (bread_spec [] pins ld k s H Hs); [set_solver|right; cbn; lia]|].
  intros b k1 [_ Hbl Hbn Hw1 Ho1 _]. wp_steps.
  set (inv i k2 := fs_wf [b] pins (fupd s (hdr_upto lg i (ld s)) ld) k2 /\ only_bufs k k2 /\ bno k2 b = s /\
                   k_log k2 = k_log k).
  assert (Hstep : forall i d k2, (i <= Z.to_nat LOGBLOCKS)%nat -> fs_wf [b] pins (fupd s d ld) k2 -> only_bufs k k2 -> bno k2 b = s ->
    k_log k2 = k_log k -> block_ok (hdr_upto lg i (ld s)) -> forall f, f d = hdr_upto lg i (ld s) ->
    inv i (k2 <| k_bufs ::= alter (set b_data f) b |>)).
  { intros i d k2 Hi Hw Ho Hb Hl Hok f Hf. destruct (op_buf _ _ _ _ b Hw) as (_ & Hdat & _); [left|]. rewrite Hb, fupd_eq in Hdat.
    assert (Hal : alter (set b_data f) b (k_bufs k2) = alter (set b_data (fun _ => hdr_upto lg i (ld s))) b (k_bufs k2)).
    { apply list_alter_ext; [|done]. intros x Hx. apply list_lookup_total_correct in Hx. rewrite <- Hf, <- Hdat. by subst x; destruct (k_bufs k2 !!! b). }
    replace (k2 <| k_bufs ::= alter (set b_data f) b |>) with (k2 <| k_bufs ::= alter (set b_data (fun _ => hdr_upto lg i (ld s))) b |>)
      by (kext; by rewrite Hal).
    pose proof (fs_wf_write _ _ _ _ b (hdr_upto lg i (ld s)) Hw ltac:(left) Hok) as Hw'. rewrite Hb in Hw'.
    split; [|split; [|split; [|by kproj]]].
    - by rewrite fupd_fupd in Hw'.
    - transitivity k2; [done|]. eapply resched_only_bufs. reflexivity.
    - kproj. by rewrite (proj_alter b_blockno). }
  assert (Hok : forall i, (i <= Z.to_nat LOGBLOCKS)%nat -> block_ok (hdr_upto lg i (ld s)))
    by (intros i Hi; apply hdr_upto_ok; [done|apply (fw_ld _ _ _ _ H)]).
  eapply wp_mono; [apply (wp_for_range _ _ _ (fun i k2 => inv (Z.to_nat i) k2))|].
  - apply (Hstep 0%nat (ld s)); [lia|by rewrite fupd_id|done|done|by rewrite (only_bufs_log _ _ Ho1)|apply Hok; lia|done].
  - intros i k2 Hi (Hw2 & Ho2 & Hb2 & Hl2). wp_steps. rewrite Hl2. fold lg. replace (Z.to_nat (i + 1)) with (S (Z.to_nat i)) by lia.
    eapply Hstep; [lia|exact Hw2|done|done|done|apply Hok; lia|]. rewrite hdr_upto_S, Z2Nat.id by lia. done.
  - cbv beta. intros _ k2 (Hw2 & Ho2 & Hb2 & Hl2). wp_steps. rewrite Z.add_0_l, Nat2Z.id in Hw2. fold (hdr_block lg (ld s)) in Hw2.
    eapply wp_mono; [apply (bwrite_spec _ _ _ _ b Hw2); left|]. rewrite Hb2, fupd_eq.
    intros _ k3 (Hw3 & Ho3 & Hl3 & Hd3 & Hdw3 & Hb3).
    eapply wp_mono; [apply (brelse_spec [] b [] _ _ _ Hw3)|].
    { right. rewrite Hb3, Hb2, Hd3. by rewrite !fupd_eq. }
    cbn [app]. intros _ k4 (Hw4 & Ho4 & _). split; [done| | | |].
    + transitivity k2; [by apply only_bufs_fs|]. transitivity k3; [done|by apply only_bufs_fs].
    + by rewrite (only_bufs_log _ _ Ho4), Hl3, Hl2.
    + by rewrite (only_bufs_disk _ _ Ho4), Hd3, (only_bufs_disk _ _ Ho2).
    + by rewrite (only_bufs_dwrites _ _ Ho4), Hdw3, (only_bufs_dwrites _ _ Ho2).
Qed.

Lemma write_log_wp pins ld k (lg := k_log k) (s := l_start lg) :
  fs_wf [] pins ld k -> log_wf lg -> pins = logged lg -> log_place s (logged lg) -> l_n lg < NBUF ->
  wp write_log (fun _ k' => stage k pins ld (log_writes s ld (logged lg)) k') k.
Proof.
  intros H Hlw -> (Hs1 & Hs2 & Hpl) Hroom. pose proof (logged_length _ Hlw) as Hll. pose proof (lw_n _ Hlw) as Hn.
  rewrite Forall_forall in Hpl. unfold write_log, getl. wp_steps. fold lg.
  eapply wp_mono; [apply (wp_for_range _ _ _ (fun i k1 => stage k (logged lg) ld (log_writes s ld (take (Z.to_nat i) (logged lg))) k1))|].
  - rewrite take_0. by apply stage_refl.
  - intros i k1 Hi Hst. wp_step. wp_step. rewrite (sg_log _ _ _ _ _ Hst). fold lg. rewrite (lw_dev _ Hlw).
    assert (Hx : logged lg !! Z.to_nat i = Some (aget (l_block lg) i)) by (apply logged_lookup; [done|lia]).
    set (x := aget (l_block lg) i) in *. assert (Hin : x ∈ logged lg) by (by eapply list_elem_of_lookup_2).
    destruct (Hpl x Hin) as [Hxo Hxl]. unfold in_log in Hxl. unfold blockno_ok in Hs1, Hs2, Hxo.
    change (u32 ROOTDEV) with ROOTDEV. rewrite !u32_id by (fold s; lia). fold s.
    replace (Z.to_nat (i + 1)) with (S (Z.to_nat i)) by lia.
    set (ws := log_writes s ld (take (Z.to_nat i) (logged lg))) in *.
    assert (Hws : apply_writes ws ld x = ld x).
    { apply apply_writes_ne. intros Hin'. apply log_writes_fst in Hin'. rewrite length_take in Hin'. lia. }
    eapply wp_mono; [apply (log_copy _ _ _ x (s + i + 1) (sg_wf _ _ _ _ _ Hst) Hin)|];
      [by unfold blockno_ok|unfold blockno_ok; lia|lia|lia|].
    cbv beta. intros _ k2 Hst2. rewrite Hws in Hst2. pose proof (stage_trans _ _ _ _ _ _ _ _ Hst Hst2) as Hst3.
    unfold log_writes. rewrite (imap_take_S _ _ _ x) by done. by rewrite Z2Nat.id by lia.
  - cbv beta. intros _ k1 Hst. replace (take (Z.to_nat (0 + _)) (logged lg)) with (logged lg) in Hst; [done|]. rewrite take_ge; [done|lia].
Qed.

Lemma install_trans_wp ld k (lg := k_log k) (s := l_start lg) :
  fs_wf [] (logged lg) ld k -> log_wf lg -> log_place s (logged lg) -> l_n lg < NBUF ->
  wp (install_trans false) (fun _ k' => stage k [] ld (install_writes s ld (logged lg)) k') k.
Proof.
  intros H Hlw (Hs1 & Hs2 & Hpl) Hroom. pose proof (logged_length _ Hlw) as Hll. pose proof (lw_n _ Hlw) as Hn.
  rewrite Forall_forall in Hpl. unfold install_trans, getl. wp_steps. fold lg.
  eapply wp_mono; [apply (wp_for_range _ _ _ (fun i k1 =>
    stage k (drop (Z.to_nat i) (logged lg)) ld (install_writes s ld (take (Z.to_nat i) (logged lg))) k1))|].
  - rewrite take_0, drop_0. by apply stage_refl.
  - intros i k1 Hi Hst. cbn [when]. wp_step. wp_step. wp_step. wp_step. rewrite (sg_log _ _ _ _ _ Hst). fold lg. rewrite (lw_dev _ Hlw).
    assert (Hx : logged lg !! Z.to_nat i = Some (aget (l_block lg) i)) by (apply logged_lookup; [done|lia]).
    set (x := aget (l_block lg) i) in *. assert (Hin : x ∈ logged lg) by (by eapply list_elem_of_lookup_2).
    destruct (Hpl x Hin) as [Hxo Hxl]. unfold in_log in Hxl. unfold blockno_ok in Hs1, Hs2, Hxo.
    change (u32 ROOTDEV) with ROOTDEV. rewrite !u32_id by (fold s; lia). fold s.
    replace (Z.to_nat (i + 1)) with (S (Z.to_nat i)) by lia.
    set (ws := install_writes s ld (take (Z.to_nat i) (logged lg))) in *.
    assert (Hny : s + i + 1 ∉ logged lg) by (intros Hin'; apply Hpl in Hin' as [_ Hin']; unfold in_log in Hin'; lia).
    assert (Hws : apply_writes ws ld (s + i + 1) = ld (s + i + 1)).
    { apply apply_writes_ne. unfold ws. rewrite install_writes_fst. intros Hin'. apply elem_of_take in Hin' as (j & Hj & _).
      apply Hny. by eapply list_elem_of_lookup_2. }
    eapply wp_mono; [apply (install_copy false _ (drop (S (Z.to_nat i)) (logged lg)) _ _ x (s + i + 1) (sg_wf _ _ _ _ _ Hst))|].
    + by unfold blockno_ok.
    + unfold blockno_ok. lia.
    + lia.
    + intros Hin'. apply Hny. eapply elem_of_submseteq; [exact Hin'|apply submseteq_drop].
    + split; [by apply drop_S|]. split; [apply NoDup_drop, Hlw|]. rewrite length_drop. lia.
    + cbv beta. intros _ k2 Hst2. rewrite Hws in Hst2. pose proof (stage_trans _ _ _ _ _ _ _ _ Hst Hst2) as Hst3.
      unfold install_writes. rewrite (imap_take_S _ _ _ x) by done. by rewrite Z2Nat.id by lia.
  - cbv beta. intros _ k1 Hst. rewrite drop_ge, take_ge in Hst by lia. done.
Qed.

Lemma commit_wp ld k (lg := k_log k) : fs_ok (p := p) [] ld k -> log_place (l_start lg) (logged lg) -> 0 < l_n lg < NBUF ->
  wp commit (fun _ k' => fs_ok (p := p) [] (apply_writes (commit_writes lg ld) ld) k' /\ only_fs k k' /\
    k_log k' = lg <| l_n := 0 |> /\ k_disk k' = apply_writes (commit_writes lg ld) (k_disk k) /\
    k_dwrites k' = k_dwrites k ++ commit_writes lg ld) k.
Proof.
  intros [H Hlw] Hpl Hn. fold lg in H, Hlw. set (s := l_start lg) in *. pose proof (logged_length _ Hlw) as Hll. pose proof (lw_n _ Hlw) as Hln.
  assert (Hs : s ∉ logged lg) by (intros Hin; destruct Hpl as (_ & _ & Hpl); rewrite Forall_forall in Hpl; apply Hpl in Hin as [_ Hin]; unfold in_log, LOGBLOCKS, MAXOPBLOCKS in Hin; lia).
  unfold commit, getl, updl. wp_steps. fold lg. rewrite (proj2 (Z.ltb_lt 0 (l_n lg))) by lia. cbn [when]. wp_steps.
  eapply wp_mono; [apply (write_log_wp (logged lg) ld k); [done|done|done|done|fold lg; lia]|].
  cbv beta. fold lg. fold s. intros _ k1 S1. wp_steps. set (w1 := log_writes s ld (logged lg)) in *.
  assert (L1 : k_log k1 = lg) by apply S1.
  assert (Hs1 : apply_writes w1 ld s = ld s) by (apply apply_writes_ne; intros Hin; apply log_writes_fst in Hin; lia).
  pose proof (write_head_wp (logged lg) (apply_writes w1 ld) k1) as Hwh. rewrite L1 in Hwh. cbv zeta in Hwh. fold s in Hwh.
  eapply wp_mono; [apply Hwh; [apply S1|apply Hlw|done|apply Hpl|done|lia]|]. cbv beta. rewrite Hs1. intros _ k2 S2. wp_steps.
  pose proof (stage_trans _ _ _ _ _ _ _ _ S1 S2) as S12. set (w2 := w1 ++ _) in S12.
  assert (L2 : k_log k2 = lg) by apply S12.
  pose proof (install_trans_wp (apply_writes w2 ld) k2) as Hit. rewrite L2 in Hit. cbv zeta in Hit. fold s in Hit.
  eapply wp_mono; [apply Hit; [apply S12|done|done|lia]|]. cbv beta. intros _ k3 S3. wp_steps.
  pose proof (stage_trans _ _ _ _ _ _ _ _ S12 S3) as S123. set (w3 := w2 ++ _) in S123.
  assert (L3 : k_log k3 = lg) by apply S123.
  set (k4 := k3 <| k_log ::= _ |>).
  assert (L4 : k_log k4 = lg <| l_n := 0 |>) by (unfold k4; kproj; by rewrite L3).
  assert (Hs3 : apply_writes w3 ld s = hdr_block lg (ld s)).
  { unfold w3. rewrite apply_writes_app, apply_writes_ne by (by rewrite install_writes_fst). unfold w2. rewrite apply_writes_app. apply fupd_eq. }
  pose proof (write_head_wp [] (apply_writes w3 ld) k4) as Hwh4. rewrite L4 in Hwh4. cbv zeta in Hwh4.
  change (l_start (lg <| l_n := 0 |>)) with s in Hwh4. rewrite Hs3 in Hwh4.
  eapply wp_mono; [apply Hwh4; [apply fs_wf_set_log, S123|apply Hlw|done|apply Hpl|set_solver|done]|].
  cbv beta. intros _ k5 S5. assert (HW : commit_writes lg ld = w3 ++ [(s, hdr_block (lg <| l_n := 0 |>) (hdr_block lg (ld s)))]).
  { unfold commit_writes, w3, w2, w1. fold s. by rewrite <- !app_assoc. }
  rewrite HW. destruct S5 as [W5 O5 G5 D5 T5]. rewrite L4 in G5. split; [|split; [|split; [done|split]]].
  - split; [rewrite G5, apply_writes_app; exact W5|rewrite G5; by apply log_wf_empty].
  - transitivity k3; [apply S123|]. transitivity k4; [apply only_fs_log|done].
  - rewrite D5, apply_writes_app. unfold k4. kproj. by rewrite (sg_disk _ _ _ _ _ S123).
  - rewrite T5. unfold k4. kproj. by rewrite (sg_dwrites _ _ _ _ _ S123), app_assoc.
Qed.
End LogSpec.
