(* ===== verification/LogTheorems.v ===== *)
(** * Crash safety of the log

    What commit writes, in which order, and what recovery makes of a disk on
    which any prefix of these writes has arrived. *)

From Stdlib Require Import ZArith Lia.
From stdpp Require Import base list strings sets.
From S2P Require Import Prelude Params Mem State Evict Kalloc Vm Sched SchedSpec SchedProps Sleeplock Printf Bio BioSpec.
From S2P Require Import BioLaws Log FsInv LogSpec.

(** ** Reading the header *)

(** The block numbers in a header block. *)
Definition hdr_blocks (h : list Z) : list Z := lh_block h <$> seqZ 0 (lh_n h).

(** [lg] holds the header [h]. *)
Record has_head (lg0 lg : loginfo) (h : list Z) (n : Z) : Prop := {
  hh_n : l_n lg = lh_n h;
  hh_start : l_start lg = l_start lg0;
  hh_dev : l_dev lg = l_dev lg0;
  hh_len : length (l_block lg) = length (l_block lg0);
  hh_blocks i : 0 <= i < n -> aget (l_block lg) i = lh_block h i
}.

Lemma has_head_logged lg0 lg h : has_head lg0 lg h (lh_n h) -> length (l_block lg) = Z.to_nat LOGBLOCKS ->
  0 <= lh_n h <= LOGBLOCKS -> logged lg = hdr_blocks h.
Proof.
  intros [G1 _ _ _ G5] Hlen Hn. apply list_eq. intros i. unfold logged, hdr_blocks. rewrite list_lookup_fmap, G1.
  destruct (decide (i < Z.to_nat (lh_n h))%nat) as [Hi|Hi].
  - rewrite lookup_take_lt, lookup_seqZ_lt by lia. cbn. rewrite <- G5 by lia. unfold aget. replace (Z.to_nat (0 + Z.of_nat i)) with i by lia.
    apply list_lookup_lookup_total_lt. lia.
  - rewrite lookup_take_ge, lookup_seqZ_ge by lia. done.
Qed.

(** The disk [d] after recovery from a log that starts at [s]. *)
Definition recovery_writes (s : Z) (d : Z -> list Z) : list (Z * list Z) :=
  install_writes s d (hdr_blocks (d s)) ++ [(s, set_lh_n 0 (d s))].
Definition recovered (s : Z) (d : Z -> list Z) : Z -> list Z := apply_writes (recovery_writes s d) d.

Section Recovery.
Context {I : Interference} {D : Disk} {DO : DiskOk D} {p : nat}.
Local Abbreviation bno k i := (b_blockno (k_bufs k !!! i)).
Local Abbreviation fs_wf := (@fs_wf D p).
Local Abbreviation stage := (@stage D p).

Lemma read_head_wp ld k (lg := k_log k) (h := ld (l_start lg)) :
  fs_wf [] [] ld k -> l_dev lg = ROOTDEV -> blockno_ok (l_start lg) -> length (l_block lg) = Z.to_nat LOGBLOCKS ->
  0 <= lh_n h <= LOGBLOCKS ->
  wp read_head (fun _ k' => fs_wf [] [] ld k' /\ only_fs k k' /\ k_disk k' = k_disk k /\ k_dwrites k' = k_dwrites k /\
    has_head lg (k_log k') h (lh_n h)) k.
Proof.
  intros H Hdev Hs Hlen Hn. unfold read_head, getl, updl, getb. wp_steps. fold lg. rewrite Hdev.
  change (u32 ROOTDEV) with ROOTDEV. rewrite u32_id by (unfold blockno_ok in Hs; lia).
  eapply wp_mono; [apply (bread_spec [] [] ld k _ H Hs); [set_solver|right; done]|].
  intros b k1 [_ Hbl Hbn Hw1 Ho1 _]. wp_steps. destruct (op_buf _ _ _ _ b Hw1) as (_ & Hdat & _); [left|].
  rewrite Hdat, Hbn. fold h. pose proof (only_bufs_log _ _ Ho1) as Hl1.
  eapply wp_mono; [apply (wp_for_range _ _ _ (fun i k2 => k2 = k1 <| k_log := k_log k2 |> /\ has_head lg (k_log k2) h i))|].
  - split; [kext|]. kproj. rewrite Hl1. fold lg. split; cbn; try done. lia.
  - intros i k2 Hi [Hk2 [G1 G2 G3 G4 G5]]. wp_steps.
    assert (Hb2 : k_bufs k2 = k_bufs k1) by (rewrite Hk2; by kproj). rewrite Hb2, Hdat, Hbn. fold h. kproj.
    split; [rewrite Hk2; kext|]. split; cbn; try done.
    + unfold aset. by rewrite length_insert.
    + intros j Hj. rewrite aget_aset by (rewrite ?G4, ?Hlen; lia). case_decide as E; [by rewrite E|]. apply G5. lia.
  - cbv beta. intros _ k2 [Hk2 Hh]. rewrite Z.add_0_l, Z2Nat.id in Hh by lia.
    assert (Hw2 : fs_wf [b] [] ld k2) by (rewrite Hk2; by apply fs_wf_set_log).
    assert (Hb2 : bno k2 b = l_start lg) by (rewrite Hk2; by kproj).
    assert (Hd2 : k_disk k2 = k_disk k) by (rewrite Hk2; kproj; by rewrite (only_bufs_disk _ _ Ho1)).
    eapply wp_mono; [apply (brelse_spec [] b [] _ _ _ Hw2)|].
    { right. rewrite Hb2, Hd2. apply (fw_clean _ _ _ _ H); set_solver. }
    cbn [app]. intros _ k3 (Hw3 & Ho3 & _). split; [done|]. split; [|split; [|split]].
    + transitivity k1; [by apply only_bufs_fs|]. transitivity k2; [|by apply only_bufs_fs]. rewrite Hk2. apply only_fs_log.
    + by rewrite (only_bufs_disk _ _ Ho3).
    + rewrite (only_bufs_dwrites _ _ Ho3), Hk2. kproj. by rewrite (only_bufs_dwrites _ _ Ho1).
    + by rewrite (only_bufs_log _ _ Ho3).
Qed.

(** ** Installing the blocks of a committed transaction *)

Lemma resched_out o k : resched k (k <| k_out ::= fun x => x ++ o |>).
Proof. split; [kext|done|intros i; unfold same_task; by destruct (k_procs k !!! i)|done|done]. Qed.

Lemma install_recover_wp ld k (lg := k_log k) (s := l_start lg) (bs := logged lg) :
  fs_wf [] [] ld k -> l_dev lg = ROOTDEV -> 0 <= l_n lg <= LOGBLOCKS -> length (l_block lg) = Z.to_nat LOGBLOCKS ->
  log_place s bs ->
  wp (install_trans true) (fun _ k' => stage k [] ld (install_writes s ld bs) k') k.
Proof.
  intros H Hdev Hn Hlen (Hs1 & Hs2 & Hpl). rewrite Forall_forall in Hpl. unfold install_trans, getl. wp_steps. fold lg.
  assert (Hll : Z.of_nat (length bs) = l_n lg) by (unfold bs, logged; rewrite length_take; lia).
  eapply wp_mono; [apply (wp_for_range _ _ _ (fun i k1 => stage k [] ld (install_writes s ld (take (Z.to_nat i) bs)) k1))|].
  - rewrite take_0. by apply stage_refl.
  - intros i k1 Hi Hst. cbn [when]. wp_step. wp_step. wp_step.
    eapply wp_mono; [apply printf_wp; rewrite (th_held _ _ (fw_thread _ _ _ _ (sg_wf _ _ _ _ _ Hst))); set_solver|]. cbv beta. intros _ k2 [o ->].
    assert (Hst1 : stage k [] ld (install_writes s ld (take (Z.to_nat i) bs)) (k1 <| k_out ::= fun x => x ++ o |>)).
    { destruct Hst as [A1 A2 A3 A4 A5]. split; try done; [by eapply fs_wf_resched; [exact A1|apply resched_out]|].
      unfold only_fs in *. etransitivity; [|apply resched_out]. etransitivity; [|exact A2].
      match goal with |- resched ?x ?y => replace y with x; [reflexivity|kext] end. }
    clear Hst. set (k3 := k1 <| k_out ::= _ |>) in *. wp_step. wp_step. rewrite (sg_log _ _ _ _ _ Hst1). fold lg. rewrite Hdev.
    assert (Hx : bs !! Z.to_nat i = Some (aget (l_block lg) i)).
    { unfold bs, logged, aget. rewrite lookup_take_lt by lia. apply list_lookup_lookup_total_lt. lia. }
    set (x := aget (l_block lg) i) in *. assert (Hin : x ∈ bs) by (by eapply list_elem_of_lookup_2).
    destruct (Hpl x Hin) as [Hxo Hxl]. unfold in_log in Hxl. unfold blockno_ok in Hs1, Hs2, Hxo.
    change (u32 ROOTDEV) with ROOTDEV. rewrite !u32_id by (fold s; lia). fold s.
    replace (Z.to_nat (i + 1)) with (S (Z.to_nat i)) by lia.
    set (ws := install_writes s ld (take (Z.to_nat i) bs)) in *.
    assert (Hws : apply_writes ws ld (s + i + 1) = ld (s + i + 1)).
    { apply apply_writes_ne. unfold ws. rewrite install_writes_fst. intros Hin'. apply elem_of_take in Hin' as (j & Hj & _).
      apply list_elem_of_lookup_2 in Hj. apply Hpl in Hj as [_ Hj]. unfold in_log in Hj. lia. }
    eapply wp_mono; [apply (install_copy true [] [] _ _ x (s + i + 1) (sg_wf _ _ _ _ _ Hst1))|];
      [by unfold blockno_ok|unfold blockno_ok; lia|lia|set_solver|done|].
    cbv beta. intros _ k4 Hst2. rewrite Hws in Hst2. pose proof (stage_trans _ _ _ _ _ _ _ _ Hst1 Hst2) as Hst3.
    unfold install_writes. rewrite (imap_take_S _ _ _ x) by done. by rewrite Z2Nat.id by lia.
  - cbv beta. intros _ k1 Hst. rewrite take_ge in Hst by lia. done.
Qed.

(** ** Recovery *)

Lemma recover_wp ld k (lg := k_log k) (s := l_start lg) :
  fs_wf [] [] ld k -> l_dev lg = ROOTDEV -> length (l_block lg) = Z.to_nat LOGBLOCKS ->
  0 <= lh_n (ld s) <= LOGBLOCKS -> log_place s (hdr_blocks (ld s)) ->
  wp recover_from_log (fun _ k' => fs_ok (p := p) [] (recovered s ld) k' /\ only_fs k k' /\
    k_disk k' = apply_writes (recovery_writes s ld) (k_disk k) /\
    k_dwrites k' = k_dwrites k ++ recovery_writes s ld /\
    l_n (k_log k') = 0 /\ l_start (k_log k') = s) k.
Proof.
  intros H Hdev Hlen Hn Hpl. unfold recover_from_log, updl. wp_steps.
  eapply wp_mono; [apply (read_head_wp ld k H Hdev); [apply Hpl|done|done]|]. cbv zeta beta. fold lg. fold s.
  intros _ k1 (W1 & O1 & D1 & T1 & Hh). wp_steps. pose proof Hh as [G1 G2 G3 G4 G5]. rewrite Hlen in G4.
  pose proof (has_head_logged _ _ _ Hh G4 Hn) as Hbs. fold s in G2.
  pose proof (install_recover_wp ld k1 W1) as Hir. cbv zeta in Hir. rewrite Hbs, G2 in Hir.
  eapply wp_mono; [apply Hir; [congruence|lia|done|done]|]. cbv beta. intros _ k2 S2. wp_steps.
  pose proof (sg_log _ _ _ _ _ S2) as L2. set (k3 := k2 <| k_log ::= _ |>). set (w := install_writes s ld (hdr_blocks (ld s))) in *.
  pose proof (write_head_wp (p := p) [] (apply_writes w ld) k3) as Hwh. cbv zeta in Hwh.
  change (l_start (k_log k3)) with (l_start (k_log k2)) in Hwh. rewrite L2, G2 in Hwh.
  assert (Hs3 : apply_writes w ld s = ld s).
  { apply apply_writes_ne. unfold w. rewrite install_writes_fst. destruct Hpl as (_ & _ & Hpl). rewrite Forall_forall in Hpl.
    intros Hin. apply Hpl in Hin as [_ Hin]. unfold in_log, LOGBLOCKS, MAXOPBLOCKS in Hin. lia. }
  rewrite Hs3 in Hwh. eapply wp_mono; [apply Hwh; [apply fs_wf_set_log, S2| |done|apply Hpl|set_solver|done]|].
  { unfold k3. kproj. rewrite L2. cbn. congruence. }
  cbv beta. intros _ k4 S4. change (hdr_block (k_log k3) (ld s)) with (set_lh_n 0 (ld s)) in S4.
  destruct S4 as [W4 O4 L4 D4 T4]. fold (recovery_writes s ld).
  assert (Hw : recovery_writes s ld = w ++ [(s, set_lh_n 0 (ld s))]) by done.
  assert (Hlw : log_wf (k_log k4)).
  { rewrite L4. unfold k3. kproj. rewrite L2. split; cbn; [congruence|done|done|constructor|constructor]. }
  split; [split; [|done]|].
  - assert (Hlg : logged (k_log k4) = []) by (unfold logged; rewrite L4; unfold k3; kproj; done).
    rewrite Hlg. unfold recovered. rewrite Hw, apply_writes_app. exact W4.
  - split; [transitivity k1; [done|]; transitivity k2; [apply S2|]; transitivity k3; [apply only_fs_log|done]|].
    split; [|split; [|split; [by rewrite L4|by rewrite L4; unfold k3; kproj; rewrite L2]]].
    + rewrite D4, Hw, apply_writes_app. unfold k3. kproj. by rewrite (sg_disk _ _ _ _ _ S2), D1.
    + rewrite T4, Hw, app_assoc. unfold k3. kproj. by rewrite (sg_dwrites _ _ _ _ _ S2), T1.
Qed.
End Recovery.

(** ** Crash safety of the log *)

(** ** Disks after some of the writes *)

Lemma apply_writes_in ws d x v : NoDup ws.*1 -> (x, v) ∈ ws -> apply_writes ws d x = v.
Proof.
  revert d. induction ws as [|[y u] ws IH]; intros d Hnd Hin; [set_solver|]. cbn in Hnd. apply NoDup_cons in Hnd as [Hy Hnd].
  change (apply_writes ws (fupd y u d) x = v). apply elem_of_cons in Hin as [[= -> ->]|Hin]; [|by apply IH].
  rewrite apply_writes_ne by done. apply fupd_eq.
Qed.

Lemma prefix_app_cases {A} (ws a b : list A) : ws `prefix_of` a ++ b ->
  ws `prefix_of` a \/ exists c, ws = a ++ c /\ c `prefix_of` b.
Proof.
  intros [t Ht]. destruct (decide (length ws <= length a)%nat) as [Hl|Hl].
  - left. exists (drop (length ws) a). apply (f_equal (take (length a))) in Ht. rewrite take_app_length in Ht.
    rewrite take_app_ge in Ht by lia. apply (f_equal (drop (length ws))) in Ht as Hd.
    rewrite drop_app_length in Hd. rewrite Hd. exact Ht.
  - right. exists (drop (length a) ws). split.
    + apply (f_equal (take (length a))) in Ht. rewrite take_app_length, take_app_le in Ht by lia.
      rewrite Ht at 1. by rewrite take_drop.
    + exists t. apply (f_equal (drop (length a))) in Ht. rewrite drop_app_length, drop_app_le in Ht by lia. done.
Qed.

Lemma prefix_snoc_cases {A} (ws a : list A) x : ws `prefix_of` a ++ [x] -> ws `prefix_of` a \/ ws = a ++ [x].
Proof.
  intros [H|(c & -> & t & Ht)]%prefix_app_cases; [by left|]. destruct c as [|y c]; [left; rewrite app_nil_r; done|].
  right. injection Ht as <- Ht. destruct c; [done|discriminate].
Qed.

Lemma prefix_fst (ws a : list (Z * list Z)) x : ws `prefix_of` a -> x ∈ ws.*1 -> x ∈ a.*1.
Proof. intros [t ->]. rewrite fmap_app. set_solver. Qed.

Lemma log_writes_nodup s ld bs : NoDup (log_writes s ld bs).*1.
Proof.
  apply NoDup_alt. intros i j x. unfold log_writes. rewrite !list_lookup_fmap, !list_lookup_imap.
  destruct (bs !! i), (bs !! j); cbn; intros [= <-] [= E]; lia || done.
Qed.

Lemma log_writes_at s ld bs i x d : bs !! i = Some x -> apply_writes (log_writes s ld bs) d (s + Z.of_nat i + 1) = ld x.
Proof.
  intros H. apply apply_writes_in; [apply log_writes_nodup|]. apply (list_elem_of_lookup_2 _ i).
  unfold log_writes. rewrite list_lookup_imap, H. done.
Qed.

Lemma install_writes_at s f bs i x d : NoDup bs -> bs !! i = Some x ->
  apply_writes (install_writes s f bs) d x = f (s + Z.of_nat i + 1).
Proof.
  intros Hnd H. apply apply_writes_in; [by rewrite install_writes_fst|]. apply (list_elem_of_lookup_2 _ i).
  unfold install_writes. rewrite list_lookup_imap, H. done.
Qed.

(** ** The header of a transaction *)

Lemma hdr_block_blocks lg h : log_wf lg -> block_ok h -> hdr_blocks (hdr_block lg h) = logged lg /\ lh_n (hdr_block lg h) = l_n lg.
Proof.
  intros Hw Hh. pose proof (lw_n _ Hw) as Hn. assert (Hle : (Z.to_nat (l_n lg) <= Z.to_nat LOGBLOCKS)%nat) by lia.
  assert (Hln : lh_n (hdr_block lg h) = l_n lg).
  { unfold hdr_block. rewrite hdr_upto_n by done. apply i32_id. change LOGBLOCKS with 30 in Hn. lia. }
  split; [|done]. apply list_eq. intros i. unfold hdr_blocks. rewrite Hln, list_lookup_fmap.
  destruct (decide (i < Z.to_nat (l_n lg))%nat) as [Hi|Hi].
  - rewrite lookup_seqZ_lt by lia. cbn. rewrite Z.add_0_l. unfold hdr_block. rewrite hdr_upto_block by done.
    pose proof (logged_lookup lg (Z.of_nat i) Hw ltac:(lia)) as Hl. rewrite Nat2Z.id in Hl. rewrite Hl. f_equal.
    apply (logged_ok lg); [done|]. by eapply list_elem_of_lookup_2.
  - rewrite lookup_seqZ_ge by lia. symmetry. apply lookup_ge_None_2. pose proof (logged_length lg Hw). lia.
Qed.

Lemma hdr_empty h : lh_n h = 0 -> hdr_blocks h = [].
Proof. intros H. unfold hdr_blocks. by rewrite H. Qed.

Lemma set_lh_n_0 h : block_ok h -> lh_n (set_lh_n 0 h) = 0.
Proof.
  intros [Hl _]. unfold lh_n, set_lh_n. rewrite getw_putw_eq; [done|]. rewrite Hl. change (Z.to_nat BSIZE) with 1024%nat. lia.
Qed.

(** Recovery of a disk whose header is empty. *)
Lemma recovered_empty s d x : lh_n (d s) = 0 -> x <> s -> recovered s d x = d x.
Proof.
  intros H Hx. unfold recovered, recovery_writes. rewrite (hdr_empty _ H). cbn. by apply fupd_ne.
Qed.

(** ** A crash during recovery *)

Lemma apply_writes_same ws d d' x : x ∈ ws.*1 -> apply_writes ws d x = apply_writes ws d' x.
Proof.
  revert d d'. induction ws as [|[y v] ws IH]; intros d d' Hx; [by apply not_elem_of_nil in Hx|].
  change (apply_writes ws (fupd y v d) x = apply_writes ws (fupd y v d') x). cbn in Hx.
  destruct (decide (x ∈ ws.*1)) as [Hin|Hin]; [by apply IH|]. rewrite !apply_writes_ne by done.
  apply elem_of_cons in Hx as [->|]; [by rewrite !fupd_eq|done].
Qed.

Lemma apply_writes_absorb ws pre d x : (forall y, y ∈ pre.*1 -> y ∈ ws.*1) ->
  apply_writes ws (apply_writes pre d) x = apply_writes ws d x.
Proof.
  intros H. destruct (decide (x ∈ ws.*1)) as [Hin|Hin]; [by apply apply_writes_same|].
  rewrite !(apply_writes_ne ws) by done. apply apply_writes_ne. intros Hx. by apply Hin, H.
Qed.

Lemma install_writes_ext s f g bs : (forall i, (i < length bs)%nat -> f (s + Z.of_nat i + 1) = g (s + Z.of_nat i + 1)) ->
  install_writes s f bs = install_writes s g bs.
Proof.
  intros H. apply list_eq. intros i. unfold install_writes. rewrite !list_lookup_imap.
  destruct (bs !! i) as [x|] eqn:E; [|done]. cbn. by rewrite H by (by eapply lookup_lt_Some).
Qed.

Lemma recovered_again s d pre (bs := hdr_blocks (d s)) :
  lh_n (d s) <= LOGBLOCKS -> log_place s bs -> block_ok (d s) -> pre `prefix_of` recovery_writes s d ->
  let c := apply_writes pre d in
  (hdr_blocks (c s) = bs /\ lh_n (c s) = lh_n (d s) \/ hdr_blocks (c s) = [] /\ lh_n (c s) = 0) /\
  forall x, ~ in_log s x -> recovered s c x = recovered s d x.
Proof.
  intros Hn (Hs1 & Hs2 & Hpl) Hok Hpre c. rewrite Forall_forall in Hpl. unfold recovery_writes in Hpre. fold bs in Hpre.
  assert (Hxs : forall x, ~ in_log s x -> x <> s) by (intros x Hx ->; apply Hx; unfold in_log, LOGBLOCKS, MAXOPBLOCKS; lia).
  assert (Hlen : Z.of_nat (length bs) = Z.max 0 (lh_n (d s))) by (unfold bs, hdr_blocks; rewrite length_fmap, length_seqZ; lia).
  apply prefix_snoc_cases in Hpre as [Hpre|Hpre].
  - assert (Hk : forall y, y ∈ pre.*1 -> y ∈ bs) by (intros y Hy; apply (prefix_fst _ _ _ Hpre) in Hy; by rewrite install_writes_fst in Hy).
    assert (Hc : forall y, in_log s y -> c y = d y).
    { intros y Hy. apply apply_writes_ne. intros Hin. by apply Hk, Hpl in Hin as [_ Hin]. }
    assert (Hcs : c s = d s) by (apply Hc; unfold in_log, LOGBLOCKS, MAXOPBLOCKS; lia).
    split; [left; by rewrite Hcs|]. intros x Hx. unfold recovered, recovery_writes. rewrite Hcs. fold bs.
    rewrite (install_writes_ext s c d bs) by (intros i Hi; apply Hc; unfold in_log; lia).
    rewrite !apply_writes_app. cbn. rewrite !fupd_ne by (by apply Hxs). apply apply_writes_absorb. by rewrite install_writes_fst.
  - assert (Hcs : c s = set_lh_n 0 (d s)) by (unfold c; rewrite Hpre, apply_writes_app; cbn; apply fupd_eq).
    assert (Hz : lh_n (c s) = 0) by (rewrite Hcs; by apply set_lh_n_0).
    split; [right; split; [by apply hdr_empty|done]|]. intros x Hx. rewrite recovered_empty by (done || by apply Hxs).
    unfold c. by rewrite Hpre.
Qed.

Section Crash.
Context (lg : loginfo) (ld d : Z -> list Z).
Local Abbreviation s := (l_start lg).
Local Abbreviation bs := (logged lg).
Context (Hlw : log_wf lg) (Hpl : log_place s bs) (Hn : lh_n (d s) = 0) (Hld : forall x, block_ok (ld x))
  (Hcl : forall x, (x ∉ bs) -> ld x = d x).

Local Abbreviation w1 := (log_writes s ld bs).
Local Abbreviation hdr := (hdr_block lg (ld s)).

Lemma outside x : x ∈ bs -> ~ in_log s x.
Proof. destruct Hpl as (_ & _ & H). rewrite Forall_forall in H. intros Hx. by destruct (H x Hx). Qed.

Lemma start_outside : s ∉ bs.
Proof. intros H%outside. apply H. unfold in_log, LOGBLOCKS, MAXOPBLOCKS. lia. Qed.

Lemma w1_keys x : x ∈ w1.*1 -> in_log s x /\ x <> s.
Proof.
  intros H%log_writes_fst. pose proof (logged_length _ Hlw) as Hl. pose proof (lw_n _ Hlw). unfold in_log. lia.
Qed.

(** A crash before the header is written: the old state. *)
Lemma crash_before ws x : ws `prefix_of` w1 -> ~ in_log s x ->
  lh_n (apply_writes ws d s) = 0 /\ recovered s (apply_writes ws d) x = d x.
Proof.
  intros Hp Hx. assert (Hs : apply_writes ws d s = d s).
  { apply apply_writes_ne. intros H. apply (prefix_fst _ _ _ Hp), w1_keys in H as [_ H]. done. }
  rewrite Hs. split; [done|]. rewrite recovered_empty; [|by rewrite Hs|].
  - apply apply_writes_ne. intros H. by apply (prefix_fst _ _ _ Hp), w1_keys in H as [H _].
  - intros ->. apply Hx. unfold in_log, LOGBLOCKS, MAXOPBLOCKS. lia.
Qed.

(** Up to the erasure of the header: the new state. *)
Lemma crash_after ws (f : Z -> list Z) (c := apply_writes (w1 ++ [(s, hdr)] ++ ws) d) :
  ws `prefix_of` install_writes s f bs -> c s = hdr /\ forall x, ~ in_log s x -> recovered s c x = ld x.
Proof.
  intros Hp. assert (Hk : forall x, x ∈ ws.*1 -> x ∈ bs).
  { intros x H. apply (prefix_fst _ _ _ Hp) in H. by rewrite install_writes_fst in H. }
  assert (Hc : forall x, (x ∉ bs) -> c x = if decide (x = s) then hdr else apply_writes w1 d x).
  { intros x Hx. unfold c. rewrite !apply_writes_app, apply_writes_ne by (intros H; by apply Hx, Hk). cbn. unfold fupd. by case_decide. }
  assert (Hcs : c s = hdr) by (rewrite Hc by apply start_outside; by rewrite decide_True). split; [done|]. intros x Hx.
  destruct (hdr_block_blocks lg (ld s) Hlw (Hld s)) as [Hb Hbn].
  assert (Hxs : x <> s) by (intros ->; apply Hx; unfold in_log, LOGBLOCKS, MAXOPBLOCKS; lia).
  unfold recovered, recovery_writes. rewrite Hcs, Hb, apply_writes_app.
  change (fupd s (set_lh_n 0 hdr) (apply_writes (install_writes s c bs) c) x = ld x). rewrite fupd_ne by done.
  destruct (decide (x ∈ bs)) as [Hin|Hin].
  - apply list_elem_of_lookup_1 in Hin as [i Hi]. rewrite (install_writes_at _ _ _ i) by (done || apply Hlw).
    assert (Hlog : in_log s (s + Z.of_nat i + 1)).
    { pose proof (lookup_lt_Some _ _ _ Hi). pose proof (logged_length _ Hlw). pose proof (lw_n _ Hlw). unfold in_log. lia. }
    rewrite Hc by (intros H; by apply (outside _ H)). rewrite decide_False by lia. by apply log_writes_at.
  - rewrite apply_writes_ne by (by rewrite install_writes_fst). rewrite Hc, decide_False by done.
    rewrite apply_writes_ne by (intros H; by apply w1_keys in H as [H _]). symmetry. by apply Hcl.
Qed.

(** After the erasure. *)
Lemma crash_done (c := apply_writes (commit_writes lg ld) d) :
  lh_n (c s) = 0 /\ forall x, ~ in_log s x -> c x = ld x.
Proof.
  set (f := apply_writes (w1 ++ [(s, hdr)]) ld).
  assert (Hc : forall x, c x = fupd s (set_lh_n 0 hdr) (apply_writes (install_writes s f bs) (apply_writes (w1 ++ [(s, hdr)]) d)) x).
  { intros x. unfold c, commit_writes. fold f. rewrite !apply_writes_app. done. }
  assert (Hh : block_ok hdr) by (apply hdr_upto_ok; [pose proof (lw_n _ Hlw); lia|apply Hld]).
  split; [rewrite Hc, fupd_eq; by apply set_lh_n_0|]. intros x Hx.
  assert (Hxs : x <> s) by (intros ->; apply Hx; unfold in_log, LOGBLOCKS, MAXOPBLOCKS; lia).
  rewrite Hc, fupd_ne by done. destruct (decide (x ∈ bs)) as [Hin|Hin].
  - apply list_elem_of_lookup_1 in Hin as [i Hi]. rewrite (install_writes_at _ _ _ i) by (done || apply Hlw).
    unfold f. rewrite apply_writes_app. cbn. rewrite fupd_ne by lia. by apply log_writes_at.
  - rewrite apply_writes_ne by (by rewrite install_writes_fst). rewrite apply_writes_app. cbn. rewrite fupd_ne by done.
    rewrite apply_writes_ne by (intros H; by apply w1_keys in H as [H _]). symmetry. by apply Hcl.
Qed.
End Crash.

(** ** The operations on the log *)

Section Ops.
Context {I : Interference} {D : Disk} {DO : DiskOk D} {p : nat}.

(** [begin_op] when the log has room and no commit is running. *)
Lemma begin_op_eq k : k_held k = [] -> op_must_wait k = false ->
  begin_op k = Ret tt (k <| k_log ::= set l_outstanding Z.succ |>).
Proof.
  intros Hh Hw. apply wp_eq. unfold begin_op, updl. wp_steps. wp_lock. wp_steps.
  eapply wp_Ret; [by apply sleep_while_done|]. wp_steps. wp_lock. split; [done|]. kext. by rewrite unlocked_top by held.
Qed.

Lemma fs_ok_outstanding op ld k f : fs_ok (p := p) op ld k -> fs_ok (p := p) op ld (k <| k_log ::= set l_outstanding f |>).
Proof.
  intros [H1 H2]. assert (E : logged (k_log (k <| k_log ::= set l_outstanding f |>)) = logged (k_log k)) by (by kproj).
  split; [rewrite E; by apply fs_wf_set_log|]. kproj. by destruct H2.
Qed.

(** Recovery of a machine that is booted on a disk in the middle of a commit. *)
Lemma recover_after_crash lg ld d pre kb q :
  log_wf lg -> log_place (l_start lg) (logged lg) -> lh_n (d (l_start lg)) = 0 -> (forall x, block_ok (ld x)) ->
  (forall x, (x ∉ logged lg) -> ld x = d x) -> pre `prefix_of` commit_writes lg ld ->
  fs_wf (p := q) [] [] (k_disk kb) kb -> k_disk kb = apply_writes pre d ->
  l_start (k_log kb) = l_start lg -> l_dev (k_log kb) = ROOTDEV -> length (l_block (k_log kb)) = Z.to_nat LOGBLOCKS ->
  wp recover_from_log (fun _ kr =>
    (forall x, ~ in_log (l_start lg) x -> k_disk kr x = d x) \/
    (forall x, ~ in_log (l_start lg) x -> k_disk kr x = ld x)) kb.
Proof.
  intros Hlw Hpl Hn Hld Hcl Hpre Hb Hd Hs Hdev Hlen. set (s := l_start lg) in *.
  assert (Hpl0 : log_place s []) by (destruct Hpl as (H1 & H2 & _); repeat split; done || (by destruct H1) || (by destruct H2)).
  pose proof (lw_n _ Hlw) as Hln.
  assert (Hrec : forall P : kernel -> Prop, 0 <= lh_n (k_disk kb s) <= LOGBLOCKS -> log_place s (hdr_blocks (k_disk kb s)) ->
    (forall kr, k_disk kr = recovered s (k_disk kb) -> P kr) -> wp recover_from_log (fun _ kr => P kr) kb).
  { intros P H1 H2 HP. eapply wp_mono; [apply (recover_wp (k_disk kb) kb Hb Hdev Hlen); rewrite Hs; done|].
    cbv zeta. rewrite Hs. intros _ kr (_ & _ & Hdk & _). by apply HP. }
  destruct (hdr_block_blocks lg (ld s) Hlw (Hld s)) as [Hhb Hhn]. rewrite Hd in Hrec.
  assert (Hold : pre `prefix_of` log_writes s ld (logged lg) -> wp recover_from_log (fun _ kr =>
    (forall x, ~ in_log s x -> k_disk kr x = d x) \/ (forall x, ~ in_log s x -> k_disk kr x = ld x)) kb).
  { intros Hp. destruct (crash_before lg ld d Hlw Hn pre (s - 1) Hp) as [Hz _]; [unfold in_log; lia|].
    fold s in Hz. apply Hrec; rewrite ?Hz, ?(hdr_empty _ Hz); [unfold LOGBLOCKS, MAXOPBLOCKS; lia|done|].
    intros kr ->. left. intros x Hx. apply (crash_before lg ld d Hlw Hn pre x Hp Hx). }
  assert (Hnew : forall c f, pre = log_writes s ld (logged lg) ++ [(s, hdr_block lg (ld s))] ++ c -> c `prefix_of` install_writes s f (logged lg) ->
    wp recover_from_log (fun _ kr => (forall x, ~ in_log s x -> k_disk kr x = d x) \/ (forall x, ~ in_log s x -> k_disk kr x = ld x)) kb).
  { intros c f -> Hp. destruct (crash_after lg ld d Hlw Hpl Hld Hcl c f Hp) as [Hcs Hx]. fold s in Hcs, Hx. cbv zeta in Hcs, Hx.
    apply Hrec; rewrite ?Hcs, ?Hhb, ?Hhn; [done|done|]. intros kr ->. by right. }
  unfold commit_writes in Hpre. cbv zeta in Hpre. fold s in Hpre. set (f := apply_writes _ ld) in Hpre. rewrite app_assoc in Hpre.
  apply prefix_snoc_cases in Hpre as [Hpre|Hpre].
  - apply prefix_app_cases in Hpre as [Hpre|(c & Hc & Hpre)].
    + apply prefix_snoc_cases in Hpre as [Hpre|Hpre]; [by apply Hold|].
      apply (Hnew [] f); [by rewrite app_nil_r|apply prefix_nil].
    + apply (Hnew c f); [by rewrite Hc, <- app_assoc|done].
  - destruct (crash_done lg ld d Hlw Hld Hcl) as [Hz Hx]. cbv zeta in Hz, Hx. fold s in Hz, Hx.
    assert (E : pre = commit_writes lg ld) by (unfold commit_writes; cbv zeta; fold s; fold f; by rewrite Hpre, <- app_assoc).
    rewrite <- E in Hz, Hx. apply Hrec; rewrite ?Hz, ?(hdr_empty _ Hz); [unfold LOGBLOCKS, MAXOPBLOCKS; lia|done|].
    intros kr ->. right. intros x Hxl. rewrite recovered_empty; [by apply Hx|done|].
    intros ->. apply Hxl. unfold in_log, LOGBLOCKS, MAXOPBLOCKS. lia.
Qed.
End Ops.
