(* ===== verification/FsDemo.v ===== *)
(** * A machine for the file-system theorems to be applied to

    A disk that transfers blocks at once, and a booted machine with one
    process. *)

From Stdlib Require Import ZArith Lia.
From stdpp Require Import base list strings sets.
From S2P Require Import Prelude Params Mem State Evict Kalloc Vm Sched SchedSpec SchedProps Demo.
From S2P Require Import Sleeplock Printf Bio BioSpec BioLaws Log FsInv LogSpec LogTheorems.

#[export] Instance still : Interference := fun k => k.

(** The transfer as one step. *)
#[export] Instance ideal_disk : Disk := {|
  virtio_disk_rw b write := modify (fun k =>
    let x := k_bufs k !!! b in
    if write then
      k <| k_bufs ::= alter flushed b |> <| k_disk ::= fupd (b_blockno x) (b_data x) |>
        <| k_dwrites ::= fun t => t ++ [(b_blockno x, b_data x)] |>
    else k <| k_bufs ::= alter (filled (k_disk k)) b |>);
  disk_ready _ _ := True
|}.

#[export] Instance ideal_disk_ok : DiskOk ideal_disk.
Proof. split; intros p k b _ _ _ _; cbn; reflexivity. Qed.

Definition zero_block : list Z := replicate (Z.to_nat BSIZE) 0.
Definition ones_block : list Z := replicate (Z.to_nat BSIZE) 1.

(** Before [binit]: an empty disk whose log starts at block 2. *)
Definition fdemo0 : kernel :=
  demo <| k_disk := fun _ => zero_block |> <| k_log := mkloginfo 2 0 0 1 0 (replicate 30 0) |>.

Lemma fdemo0_thread : thread 0 fdemo0.
Proof.
  split; [done|done| | |done].
  - split; [done|]. repeat constructor; done.
  - split; [done|]. intros i Hi.
    apply (Forall_lookup_total_1 (fun p => 0 <= p_qlevel p < LEVELS)); [repeat constructor; done|exact Hi].
Qed.

Lemma zero_block_ok : block_ok zero_block.
Proof. split; [done|]. apply Forall_replicate. done. Qed.
Lemma ones_block_ok : block_ok ones_block.
Proof. split; [done|]. apply Forall_replicate. done. Qed.

Lemma fdemo0_bufs : fresh_bufs (k_bufs fdemo0).
Proof.
  split; [done|]. intros i. change (k_bufs fdemo0) with (replicate 31 buf0). rewrite list_lookup_total_alt.
  destruct (decide (i < 31)%nat) as [H|H]; [rewrite lookup_replicate_2 by done; done|].
  by rewrite lookup_ge_None_2 by (rewrite length_replicate; lia).
Qed.

(** The state a run ends in. *)
Definition final {A} (m : KM A) (k : kernel) : kernel := match m k with Ret _ k' => k' | _ => k end.

Lemma wp_final {A} (m : KM A) (P : kernel -> Prop) k : wp m (fun _ k' => P k') k -> P (final m k).
Proof. unfold wp, final. by destruct (m k). Qed.

Definition fdemo : kernel := final binit fdemo0.

Definition fdemo_spec (k : kernel) : Prop :=
  fs_wf (p := 0%nat) [] [] (fun _ => zero_block) k /\ k_log k = k_log fdemo0 /\ k_disk k = k_disk fdemo0 /\ k_dwrites k = [].

Lemma fdemo_wf : fdemo_spec fdemo.
Proof.
  unfold fdemo. apply (wp_final binit fdemo_spec). eapply wp_mono; [apply (binit_fs_wf fdemo0 fdemo0_thread fdemo0_bufs)|].
  - intros x. apply zero_block_ok.
  - cbv beta. intros _ k' [Hk Hw]. split; [exact Hw|]. rewrite Hk. kproj. split; [|split]; reflexivity.
Qed.

(** A transaction that fills block 50 with ones. *)
Definition demo_txn : KM unit :=
  do! begin_op;
  let! b := bread ROOTDEV 50 in
  do! updb b (set b_data (fun _ => ones_block));
  do! log_write b;
  brelse b.

Definition fdemo1 : kernel := final demo_txn fdemo.

Definition fdemo1_spec (k : kernel) : Prop :=
  fs_ok (p := 0%nat) [] (fupd 50 ones_block (fun _ => zero_block)) k /\
  k_log k = mkloginfo 2 1 0 1 1 (50 :: replicate 29 0) /\ k_disk k = fun _ => zero_block.

Lemma fdemo1_ok : fdemo1_spec fdemo1.
Proof.
  destruct fdemo_wf as (Hw & Hl & Hd & _). unfold fdemo1. generalize dependent fdemo. intros kd Hw Hl Hd.
  apply (wp_final demo_txn fdemo1_spec). unfold demo_txn. wp_steps.
  eapply wp_Ret; [apply begin_op_eq; [apply Hw|unfold op_must_wait; by rewrite Hl]|]. wp_steps.
  set (k1 := kd <| k_log ::= _ |>). assert (Hl1 : k_log k1 = mkloginfo 2 1 0 1 0 (replicate 30 0)) by (unfold k1; kproj; by rewrite Hl).
  assert (Hw1 : fs_wf (p := 0%nat) [] [] (fun _ => zero_block) k1) by (by apply fs_wf_set_log).
  eapply wp_mono; [apply (bread_spec [] [] _ k1 50 Hw1); [split; done|set_solver|right; done]|].
  intros b k2 [_ Hb Hbn Hw2 Ho2 _]. unfold updb. wp_steps. pose proof (only_bufs_log _ _ Ho2) as Hl2. rewrite Hl1 in Hl2.
  assert (Hw3 := fs_wf_write _ _ _ _ b ones_block Hw2 ltac:(left) ones_block_ok). rewrite Hbn in Hw3.
  set (k3 := k2 <| k_bufs ::= _ |>) in *. assert (Hb3 : b_blockno (k_bufs k3 !!! b) = 50) by (unfold k3; kproj; by rewrite (proj_alter b_blockno)).
  assert (Hl3 : k_log k3 = mkloginfo 2 1 0 1 0 (replicate 30 0)) by (unfold k3; by kproj).
  assert (Hok3 : fs_ok (p := 0%nat) [b] (fupd 50 ones_block (fun _ => zero_block)) k3).
  { unfold fs_ok. rewrite Hl3. split; [exact Hw3|]. split; cbn; try done; constructor. }
  eapply wp_mono; [apply (log_write_spec [b] _ k3 b Hok3); [left|by rewrite Hl3|by rewrite Hl3]|].
  cbv beta. intros _ k4 ([Hw4 Hlw4] & Hl4 & Hk4 & Hb4).
  assert (Hl4' : k_log k4 = mkloginfo 2 1 0 1 1 (50 :: replicate 29 0)) by (rewrite Hl4, Hb3, Hl3; reflexivity).
  eapply wp_mono; [apply (brelse_spec [] b [] _ _ _ Hw4); left; rewrite Hb4, Hb3, Hl4'; left|].
  cbn [app]. intros _ k5 (Hw5 & Ho5 & _). pose proof (only_bufs_log _ _ Ho5) as Hl5. rewrite Hl4' in Hl5. split; [|split; [done|]].
  - unfold fs_ok. rewrite Hl5, <- Hl4'. done.
  - rewrite (only_bufs_disk _ _ Ho5), Hk4. kproj. unfold k3. kproj. rewrite (only_bufs_disk _ _ Ho2). unfold k1. kproj. by rewrite Hd.
Qed.

(** A transaction that logs thirty blocks without changing them. *)
Definition touch (x : Z) : KM unit :=
  let! b := bread ROOTDEV x in
  do! log_write b;
  brelse b.

Lemma touch_wp ld k x : fs_ok (p := 0%nat) [] ld k -> blockno_ok x -> l_n (k_log k) < LOGBLOCKS -> 1 <= l_outstanding (k_log k) ->
  wp (touch x) (fun _ k' => fs_ok (p := 0%nat) [] ld k' /\ k_log k' = log_add x (k_log k)) k.
Proof.
  intros [H Hlw] Hx Hn Ho. unfold touch. wp_steps.
  eapply wp_mono; [apply (bread_spec [] _ ld k x H Hx); [set_solver|right; rewrite logged_length by done; exact Hn]|].
  intros b k1 [_ Hb Hbn Hw1 Ho1 _]. pose proof (only_bufs_log _ _ Ho1) as Hl1. wp_steps.
  assert (Hok : fs_ok (p := 0%nat) [b] ld k1) by (by split; rewrite Hl1).
  eapply wp_mono; [apply (log_write_spec [b] ld k1 b Hok); [left|by rewrite Hl1|by rewrite Hl1]|].
  cbv beta. rewrite Hbn, Hl1. intros _ k2 ([Hw2 Hlw2] & Hl2 & Hk2 & Hb2).
  eapply wp_mono; [apply (brelse_spec [] b [] _ _ _ Hw2); left; rewrite Hb2, Hbn, Hl2, logged_add by done|].
  { destruct (bool_decide _) eqn:E; [by apply bool_decide_eq_true in E|set_solver]. }
  cbn [app]. intros _ k3 (Hw3 & Ho3 & _). pose proof (only_bufs_log _ _ Ho3) as Hl3.
  split; [by split; rewrite Hl3|]. by rewrite Hl3.
Qed.

Definition demo_fill : KM unit :=
  do! begin_op;
  for_range 30 50 touch.

Definition fdemo2 : kernel := final demo_fill fdemo.

Definition fdemo2_spec (k : kernel) : Prop :=
  fs_ok (p := 0%nat) [] (fun _ => zero_block) k /\ logged (k_log k) = seqZ 50 30 /\ l_n (k_log k) = LOGBLOCKS /\ l_start (k_log k) = 2.

Lemma fdemo2_ok : fdemo2_spec fdemo2.
Proof.
  destruct fdemo_wf as (Hw & Hl & Hd & _). unfold fdemo2. generalize dependent fdemo. intros kd Hw Hl Hd.
  apply (wp_final demo_fill fdemo2_spec). unfold demo_fill. wp_steps.
  eapply wp_Ret; [apply begin_op_eq; [apply Hw|unfold op_must_wait; by rewrite Hl]|].
  set (k1 := kd <| k_log ::= _ |>). assert (Hl1 : k_log k1 = mkloginfo 2 1 0 1 0 (replicate 30 0)) by (unfold k1; kproj; by rewrite Hl).
  eapply wp_mono; [apply (wp_for_range _ _ _ (fun i k => fs_ok (p := 0%nat) [] (fun _ => zero_block) k /\
    logged (k_log k) = seqZ 50 (i - 50) /\ l_n (k_log k) = i - 50 /\ l_outstanding (k_log k) = 1 /\ l_start (k_log k) = 2))|].
  - rewrite Hl1. split; [|done]. split; rewrite Hl1; [by apply fs_wf_set_log|]. split; cbn; try done; constructor.
  - intros i k Hi (Hok & Hlg & Hn & Ho & Hs). assert (Hi' : 50 <= i < 80) by lia.
    eapply wp_mono; [apply (touch_wp _ k i Hok); [unfold blockno_ok; lia|rewrite Hn; unfold LOGBLOCKS, MAXOPBLOCKS; lia|lia]|].
    cbv beta. intros _ k' [Hok' Hl']. split; [done|]. pose proof Hok as [_ Hlw].
    assert (Hni : i ∉ logged (k_log k)) by (rewrite Hlg, elem_of_seqZ; lia).
    assert (Hlg' : logged (k_log k') = logged (k_log k) ++ [i]).
    { rewrite Hl', logged_add by (done || (rewrite Hn; unfold LOGBLOCKS, MAXOPBLOCKS; lia)). by rewrite bool_decide_eq_false_2. }
    split; [|rewrite Hl'; unfold log_add; rewrite bool_decide_eq_false_2 by done].
    + rewrite Hlg', Hlg. replace (i + 1 - 50) with (i - 50 + 1) by lia. rewrite seqZ_app by lia. f_equal.
      replace (50 + (i - 50)) with i by lia. done.
    + change (l_n (set _ _ (set _ _ (k_log k)))) with (Z.succ (l_n (k_log k))). change (l_outstanding (set _ _ (set _ _ (k_log k)))) with (l_outstanding (k_log k)).
      change (l_start (set _ _ (set _ _ (k_log k)))) with (l_start (k_log k)). split; [lia|done].
  - cbv beta. intros _ k (Hok & Hlg & Hn & _ & Hs). split; [done|]. done.
Qed.

#[global] Opaque fdemo fdemo1 fdemo2.
