(* ===== verification/LogProps.v ===== *)
(** * Properties of the buffer cache and the log, with instances

    Atomic commits, the panic of a log that fills the cache, and the space of
    the log under interleaved operations, as a step relation. *)

From Stdlib Require Import ZArith Lia.
From stdpp Require Import base list strings sets relations.
From S2P Require Import Prelude Params Mem State Evict Kalloc Vm Sched SchedSpec SchedProps Sleeplock Printf Bio BioSpec.
From S2P Require Import BioLaws Log FsInv LogSpec LogTheorems FsDemo.

(** ** A log that fills the cache *)

Section Full.
Context {I : Interference} {D : Disk} {DO : DiskOk D} {p : nat}.

(** When the transaction has as many blocks as the cache has buffers, every
    buffer is pinned. *)
Lemma all_pinned ld k i : fs_ok (p := p) [] ld k -> l_n (k_log k) = NBUF -> (i < bhead)%nat ->
  b_dev (k_bufs k !!! i) = ROOTDEV /\ b_blockno (k_bufs k !!! i) ∈ logged (k_log k).
Proof.
  intros [H Hlw] Hn Hi. pose proof (logged_length _ Hlw) as Hll. pose proof (lw_nodup _ Hlw) as Hnd.
  assert (Hex : exists ids, length ids = length (logged (k_log k)) /\
    forall j i, ids !! j = Some i -> (i < bhead)%nat /\ b_dev (k_bufs k !!! i) = ROOTDEV /\ logged (k_log k) !! j = Some (b_blockno (k_bufs k !!! i))).
  { assert (Hall : Forall (fun x => exists i, (i < bhead)%nat /\ b_dev (k_bufs k !!! i) = ROOTDEV /\ b_blockno (k_bufs k !!! i) = x) (logged (k_log k)))
      by (apply Forall_forall; apply (fw_logged _ _ _ _ H)).
    apply Forall_exists_Forall2_r in Hall as [ids Hf]. apply Forall2_length in Hf as Hfl. exists ids. split; [done|].
    intros j i' Hj. eapply Forall2_lookup_l in Hf as (x & Hx & H1 & H2 & H3); [|exact Hj]. by rewrite Hx, H3. }
  destruct Hex as (ids & Hlen & His).
  assert (Hnd' : NoDup ids).
  { apply NoDup_alt. intros a b x Ha Hb. destruct (His a x Ha) as (_ & _ & Ea). destruct (His b x Hb) as (_ & _ & Eb).
    by eapply (NoDup_lookup (logged (k_log k))). }
  assert (Hp : ids ≡ₚ seq 0 bhead).
  { apply submseteq_length_Permutation.
    - apply NoDup_submseteq; [done|]. intros x Hx. apply list_elem_of_lookup_1 in Hx as [j Hj].
      destruct (His j x Hj) as [Hx _]. apply elem_of_seq. lia.
    - rewrite length_seq, Hlen. unfold bhead. lia. }
  assert (Hin : i ∈ ids) by (rewrite Hp; apply elem_of_seq; lia). apply list_elem_of_lookup_1 in Hin as [j Hj].
  destruct (His j i Hj) as (_ & Hd & He). split; [done|]. by eapply list_elem_of_lookup_2.
Qed.

Lemma commit_full ld k : fs_ok (p := p) [] ld k -> log_place (l_start (k_log k)) (logged (k_log k)) -> l_n (k_log k) = LOGBLOCKS ->
  commit k = Panic "bget: no buffers".
Proof.
  intros Hok (Hs1 & Hs2 & Hpl) Hn. pose proof Hok as [H Hlw]. destruct (fw_ring _ _ _ _ H) as [l Hr].
  rewrite Forall_forall in Hpl. unfold commit, getl. unfold bind at 1, gets at 1. rewrite Hn. cbn [when].
  change (0 <? LOGBLOCKS) with true. cbn [when]. apply bind_Panic. unfold write_log, getl. unfold bind at 1, gets at 1. rewrite Hn.
  change (Z.to_nat LOGBLOCKS) with (S 29). rewrite for_range_S. apply bind_Panic. unfold bind at 1, gets at 1.
  rewrite (lw_dev _ Hlw). apply bind_Panic. unfold bread. apply bind_Panic.
  eapply bget_full; [apply H|exact Hr| |].
  - destruct (found _ _ l) as [b|] eqn:E; [|done]. exfalso. apply found_Some in E as [Hb Ht]. apply (rw_elem _ _ _ Hr) in Hb.
    destruct (all_pinned _ _ b Hok) as [_ Hin]; [by rewrite Hn|done|]. apply Hpl in Hin as [_ Hin].
    apply andb_true_iff in Ht as [_ Ht]. apply Z.eqb_eq in Ht. rewrite Ht in Hin. apply Hin. unfold blockno_ok in Hs1, Hs2.
    unfold in_log, LOGBLOCKS, MAXOPBLOCKS in *. rewrite u32_id by lia. lia.
  - destruct (found _ _ (rev l)) as [b|] eqn:E; [|done]. exfalso. apply found_Some in E as [Hb Ht].
    rewrite list_elem_of_In, <- in_rev, <- list_elem_of_In in Hb. apply (rw_elem _ _ _ Hr) in Hb.
    destruct (all_pinned _ _ b Hok) as [Hd Hin]; [by rewrite Hn|done|].
    unfold is_free in Ht. rewrite (bw_ref _ _ _ _ _ _ (fw_buf _ _ _ _ H b Hb)) in Ht.
    rewrite decide_False, decide_True in Ht by (done || apply not_elem_of_nil). done.
Qed.
End Full.

(** ** Reservations *)

Section Space.
Context {I : Interference} {D : Disk} {DO : DiskOk D}.

(** A full log: the write panics, also that of a block the log has. *)
Lemma log_write_full b k : k_held k = [] -> LOGBLOCKS <= l_n (k_log k) -> log_write b k = Panic "too big a transaction".
Proof.
  intros Hh Hn. unfold log_write. erewrite bind_Ret by (apply acquire_eq; rewrite Hh; set_solver).
  unfold bind, getl, gets. kproj. by rewrite (proj2 (Z.leb_le _ _)).
Qed.

(** What [log_write] does to the log, in any state. *)
Lemma log_write_any b k : k_held k = [] -> l_n (k_log k) < LOGBLOCKS -> 1 <= l_outstanding (k_log k) ->
  wp (log_write b) (fun _ k' => k_held k' = [] /\ l_outstanding (k_log k') = l_outstanding (k_log k) /\
    l_committing (k_log k') = l_committing (k_log k) /\
    (l_n (k_log k') = l_n (k_log k) \/ l_n (k_log k') = l_n (k_log k) + 1)) k.
Proof.
  intros Hh Hn Ho. unfold log_write, getl, updl, getb. wp_steps. wp_lock. wp_steps. kproj.
  destruct (Z.leb_spec LOGBLOCKS (l_n (k_log k))); [lia|]. destruct (Z.ltb_spec (l_outstanding (k_log k)) 1); [lia|].
  wp_steps. kproj. set (k1 := k <| k_held ::= cons L_log |>).
  eapply wp_mono; [apply (wp_for_until _ _ _ (fun _ k' => k' = k1) (fun _ k' => k' = k1))|].
  - done.
  - intros i k' _ ->. wp_steps. by destruct (_ =? _).
  - cbv beta. intros r k' Hk'. assert (k' = k1) as -> by (by destruct r). wp_steps.
    destruct (_ =? l_n (k_log k)); cbn [when]; wp_steps.
    + eapply wp_Ret; [apply bpin_eq; unfold k1; kproj; by rewrite Hh|]. wp_steps. unfold k1. wp_lock. kproj.
      rewrite unlocked_top by held. split; [done|]. split; [done|]. split; [done|]. by right.
    + unfold k1. wp_lock. kproj. rewrite unlocked_top by held. split; [done|]. split; [done|]. split; [done|]. by left.
Qed.

Lemma end_op_leave_any k : k_held k = [] -> queues_wf k -> levels_ok k -> l_committing (k_log k) = 0 ->
  wp end_op_leave (fun c k' => k_held k' = [] /\ l_outstanding (k_log k') = l_outstanding (k_log k) - 1 /\
    l_n (k_log k') = l_n (k_log k) /\ c = (l_outstanding (k_log k) - 1 =? 0) /\
    l_committing (k_log k') = if c then 1 else 0) k.
Proof.
  intros Hh Hq Hl Hc. unfold end_op_leave, getl, updl. wp_steps. wp_lock. wp_steps. kproj.
  change (l_committing (set _ _ (k_log k))) with (l_committing (k_log k)). rewrite Hc. cbn [negb Z.eqb].
  change (l_outstanding (set _ _ (k_log k))) with (l_outstanding (k_log k) - 1).
  destruct (l_outstanding (k_log k) - 1 =? 0); cbv iota; wp_steps.
  - wp_lock. wp_steps. kproj. rewrite unlocked_top by held. cbn. repeat split; try done; lia.
  - set (k1 := k <| k_held ::= _ |> <| k_log ::= _ |>).
    eapply wp_mono; [apply (wakeup_wp CH_log k1); [done|done|]|].
    { split; intros; unfold k1; kproj; rewrite Hh; set_solver. }
    cbv beta. intros _ k2 [F _ _ _ _]. assert (Hh2 : k_held k2 = [L_log]) by (rewrite F; unfold k1; kproj; by rewrite Hh).
    assert (Hg : k_log k2 = (k_log k) <| l_outstanding ::= Z.pred |>) by (rewrite F; unfold k1; by kproj).
    wp_run. kproj. rewrite Hh2, Hg, unlocked_top by set_solver. cbn. repeat split; try done; lia.
Qed.

Lemma end_op_done_any k : k_held k = [] -> queues_wf k -> levels_ok k ->
  wp end_op_done (fun _ k' => k_held k' = [] /\ k_log k' = (k_log k) <| l_committing := 0 |>) k.
Proof.
  intros Hh Hq Hl. unfold end_op_done, updl. wp_steps. wp_lock. wp_steps. set (k1 := k <| k_held ::= _ |> <| k_log ::= _ |>).
  eapply wp_mono; [apply (wakeup_wp CH_log k1); [done|done|]|].
  { split; intros; unfold k1; kproj; rewrite Hh; set_solver. }
  cbv beta. intros _ k2 [F _ _ _ _]. assert (Hh2 : k_held k2 = [L_log]) by (rewrite F; unfold k1; kproj; by rewrite Hh).
  wp_run. kproj. rewrite Hh2, unlocked_top by set_solver. split; [done|]. rewrite F. unfold k1. by kproj.
Qed.

(** [commit], by a thread that finds the buffer cache and the log in order,
    empties the log; with the full log of [commit_full] it does not return. *)
Lemma commit_any q ld k : fs_ok (p := q) [] ld k -> log_place (l_start (k_log k)) (logged (k_log k)) ->
  forall k', commit k = Ret tt k' ->
  k_held k' = [] /\ queues_wf k' /\ levels_ok k' /\ k_log k' = (k_log k) <| l_n := 0 |>.
Proof.
  intros Hok Hpl k' He. pose proof (lw_n _ (proj2 Hok)) as Hn. destruct (decide (l_n (k_log k) = LOGBLOCKS)) as [Hf|Hf].
  { by rewrite (commit_full ld k Hok Hpl Hf) in He. }
  destruct (decide (l_n (k_log k) = 0)) as [H0|H0].
  - revert He. unfold commit, getl, bind, gets. rewrite H0. intros [= <-].
    destruct (fw_thread _ _ _ _ (proj1 Hok)) as [_ Hh Hq Hl _]. split; [done|]. split; [done|]. split; [done|].
    clear -H0. destruct (k_log k). cbn in H0. by subst.
  - assert (Hw := commit_wp ld k Hok Hpl ltac:(change NBUF with 30; change LOGBLOCKS with 30 in *; lia)). cbv zeta in Hw.
    unfold wp in Hw. rewrite He in Hw. destruct Hw as (Hok' & _ & Hg & _).
    destruct (fw_thread _ _ _ _ (proj1 Hok')) as [_ Hh Hq Hl _]. done.
Qed.

(** The threads' steps: [us] has, for each operation in progress, the number
    of blocks it has added to the transaction, at most MAXOPBLOCKS.  A commit
    is run by the thread that ended the last operation, with the cache and the
    log as the file system keeps them; [LS_other] is everything that does not
    touch the log. *)
Inductive log_step : kernel * list Z -> kernel * list Z -> Prop :=
  | LS_begin k k' us : op_must_wait k = false -> begin_op k = Ret tt k' -> log_step (k, us) (k', 0 :: us)
  | LS_write k k' b us1 u us2 : log_write b k = Ret tt k' -> u + (l_n (k_log k') - l_n (k_log k)) <= MAXOPBLOCKS ->
      log_step (k, us1 ++ u :: us2) (k', us1 ++ (u + (l_n (k_log k') - l_n (k_log k))) :: us2)
  | LS_end k k' c us1 u us2 : end_op_leave k = Ret c k' -> log_step (k, us1 ++ u :: us2) (k', us1 ++ us2)
  | LS_commit q ld k k1 k' us : l_committing (k_log k) = 1 -> fs_ok (p := q) [] ld k ->
      log_place (l_start (k_log k)) (logged (k_log k)) -> commit k = Ret tt k1 -> end_op_done k1 = Ret tt k' ->
      log_step (k, us) (k', us)
  | LS_other k k' us : k_held k' = [] -> queues_wf k' -> levels_ok k' -> k_log k' = k_log k -> log_step (k, us) (k', us).

(** The room still reserved. *)
Fixpoint reserved (us : list Z) : Z :=
  match us with
  | [] => 0
  | u :: us' => (MAXOPBLOCKS - u) + reserved us'
  end.

Record space_inv (s : kernel * list Z) : Prop := {
  si_held : k_held (fst s) = [];
  si_out : l_outstanding (k_log (fst s)) = Z.of_nat (length (snd s));
  si_room : l_n (k_log (fst s)) + reserved (snd s) <= LOGBLOCKS;
  si_n : 0 <= l_n (k_log (fst s));
  si_used : Forall (fun u => 0 <= u <= MAXOPBLOCKS) (snd s);
  si_comm : l_committing (k_log (fst s)) = 0 \/ (l_committing (k_log (fst s)) = 1 /\ snd s = [])
}.

Lemma reserved_app a b : reserved (a ++ b) = reserved a + reserved b.
Proof. induction a as [|u a IH]; cbn [reserved app]; [done|]. rewrite IH. lia. Qed.

Lemma reserved_bound us : Forall (fun u => 0 <= u <= MAXOPBLOCKS) us -> 0 <= reserved us <= Z.of_nat (length us) * MAXOPBLOCKS.
Proof. induction 1 as [|u us Hu _ IH]; cbn [reserved length]; lia. Qed.

Lemma reserved_none us : Forall (fun u => 0 <= u <= MAXOPBLOCKS) us -> reserved us <= 0 -> Forall (eq MAXOPBLOCKS) us.
Proof.
  induction 1 as [|u us Hu Hus IH]; cbn [reserved]; intros Hr; [constructor|]. pose proof (reserved_bound us Hus).
  constructor; [lia|]. apply IH. lia.
Qed.

Lemma reserved_lt us : Forall (fun u => 0 <= u <= MAXOPBLOCKS) us -> Exists (fun u => u < MAXOPBLOCKS) us -> 0 < reserved us.
Proof.
  intros Hus Hex. destruct (Z.lt_ge_cases 0 (reserved us)) as [|Hle]; [done|]. exfalso.
  apply reserved_none in Hle; [|done]. rewrite Forall_forall in Hle. apply Exists_exists in Hex as (u & Hin & Hu).
  specialize (Hle u Hin). lia.
Qed.

Lemma outcome_wp {A} (m : KM A) k a k' Q : m k = Ret a k' -> wp m Q k -> Q a k'.
Proof. intros E H. unfold wp in H. by rewrite E in H. Qed.

Lemma space_begin k k' us : space_inv (k, us) -> op_must_wait k = false -> begin_op k = Ret tt k' -> space_inv (k', 0 :: us).
Proof.
  intros [H1 H2 H3 H4 H5 H6] Hw Hb. cbn [fst snd] in *. rewrite (begin_op_eq _ H1 Hw) in Hb. injection Hb as <-.
  unfold op_must_wait in Hw. apply orb_false_iff in Hw as [Hc Hr]. apply negb_false_iff, Z.eqb_eq in Hc. apply Z.ltb_ge in Hr.
  pose proof (reserved_bound _ H5) as Hrb. split; cbn [fst snd]; try done.
  - kproj. cbn [length]. change (l_outstanding (set _ _ (k_log k))) with (Z.succ (l_outstanding (k_log k))). lia.
  - kproj. cbn [reserved]. change (l_n (set _ _ (k_log k))) with (l_n (k_log k)). lia.
  - constructor; [|done]. unfold MAXOPBLOCKS. lia.
  - by left.
Qed.

Lemma space_write k k' b us1 u us2 : space_inv (k, us1 ++ u :: us2) -> log_write b k = Ret tt k' ->
  u + (l_n (k_log k') - l_n (k_log k)) <= MAXOPBLOCKS ->
  space_inv (k', us1 ++ (u + (l_n (k_log k') - l_n (k_log k))) :: us2).
Proof.
  intros [H1 H2 H3 H4 H5 H6] Hb Hu. cbn [fst snd] in *. rewrite length_app in H2. cbn [length] in H2. rewrite reserved_app in H3. cbn [reserved] in H3.
  apply Forall_app in H5 as [F1 F2]. apply Forall_cons in F2 as [Fu F2].
  pose proof (reserved_bound _ F1). pose proof (reserved_bound _ F2).
  destruct (Z.ltb_spec (l_n (k_log k)) LOGBLOCKS) as [Hlt|Hge]; [|by rewrite (log_write_full b k) in Hb by (done || lia)].
  assert (Hw := outcome_wp _ _ _ _ _ Hb (log_write_any b k H1 Hlt ltac:(lia))). cbv beta in Hw.
  destruct Hw as (W1 & W2 & W3 & W4). split; cbn [fst snd]; try done.
  - rewrite W2, length_app. cbn [length]. lia.
  - rewrite reserved_app. cbn [reserved]. lia.
  - lia.
  - apply Forall_app. split; [done|]. constructor; [lia|done].
  - left. destruct H6 as [H6|[_ H6]]; [congruence|by destruct us1].
Qed.

(** Every step keeps the reservation. *)
Lemma space_step s s' : (queues_wf (fst s) /\ levels_ok (fst s)) -> log_step s s' -> space_inv s -> space_inv s'.
Proof.
  intros Hs Hst Hi. destruct Hst as [k k' us Hw Hb|k k' b us1 u us2 Hb Hu|k k' c us1 u us2 He|q ld k k1 k' us Hc Hok Hpl Hcm Hd|k k' us Hh Hq Hl Hg].
  - by eapply space_begin.
  - by eapply space_write.
  - destruct Hi as [H1 H2 H3 H4 H5 H6]. cbn [fst snd] in *. assert (Hc0 : l_committing (k_log k) = 0) by (destruct H6 as [|[_ H6]]; [done|by destruct us1]).
    assert (Hw := outcome_wp _ _ _ _ _ He (end_op_leave_any k H1 (proj1 Hs) (proj2 Hs) Hc0)). cbv beta in Hw.
    destruct Hw as (W1 & W2 & W3 & W4 & W5). rewrite length_app in H2. cbn [length] in H2. rewrite reserved_app in H3. cbn [reserved] in H3.
    apply Forall_app in H5 as [F1 F2]. apply Forall_cons in F2 as [Fu F2]. split; cbn [fst snd]; try done.
    + rewrite W2, H2, length_app. lia.
    + rewrite W3, reserved_app. lia.
    + lia.
    + by apply Forall_app.
    + rewrite W5. destruct c; [right|by left]. split; [done|]. symmetry in W4. apply Z.eqb_eq in W4.
      destruct us1, us2; cbn [length] in *; done || lia.
  - destruct Hi as [H1 H2 H3 H4 H5 H6]. cbn [fst snd] in *. destruct H6 as [H6|[_ ->]]; [congruence|].
    destruct (commit_any q ld k Hok Hpl k1 Hcm) as (C1 & C2 & C3 & C4).
    assert (Hw := outcome_wp _ _ _ _ _ Hd (end_op_done_any k1 C1 C2 C3)). cbv beta in Hw. destruct Hw as [Hh Hg]. rewrite C4 in Hg.
    split; cbn [fst snd]; rewrite ?Hg; try done; [by left].
  - destruct Hi as [H1 H2 H3 H4 H5 H6]. cbn [fst snd] in *. split; cbn [fst snd]; rewrite ?Hg; done.
Qed.

(** Runs in which the scheduler's tables stay well formed. *)
Definition sched_ok (k : kernel) : Prop := queues_wf k /\ levels_ok k.
Definition log_run : relation (kernel * list Z) := rtc (fun s s' => log_step s s' /\ sched_ok (fst s')).

Lemma sched_ok_set_log k f : sched_ok k -> sched_ok (k <| k_log ::= f |>).
Proof. by intros [H1 H2]. Qed.

Lemma log_run_inv s s' : log_run s s' -> sched_ok (fst s) -> space_inv s -> space_inv s'.
Proof.
  induction 1 as [|s1 s2 s3 [Hst Hs] _ IH]; intros H1 H2; [done|]. apply IH; [done|]. by eapply space_step.
Qed.

(** A log with nothing in it. *)
Definition log_idle (lg : loginfo) : Prop := l_n lg = 0 /\ l_outstanding lg = 0 /\ l_committing lg = 0.

Lemma space_init k : k_held k = [] -> log_idle (k_log k) -> space_inv (k, []).
Proof.
  intros Hh (H1 & H2 & H3). split; cbn [fst snd]; rewrite ?H1, ?H2; try done. by left.
Qed.
End Space.

(** ** Properties of the buffer cache and the log, with instances *)

Section LogProps.
Context {I : Interference} {D : Disk} {DO : DiskOk D}.

(** C9. A transaction is atomic with respect to crashes: [commit] leaves
    every block outside the log on the disk as the transaction has it, and if
    the machine stops after any prefix of the block writes [commit] makes and
    is booted again, recovery brings the disk, outside the log, to the state
    before the transaction or to the state after it. *)
Theorem commit_crash_safe p ld k (s := l_start (k_log k)) :
  fs_ok (p := p) [] ld k -> log_place s (logged (k_log k)) -> 0 < l_n (k_log k) < NBUF -> lh_n (k_disk k s) = 0 ->
  wp commit (fun _ k' => exists ws, k_dwrites k' = k_dwrites k ++ ws /\
    (forall x, ~ in_log s x -> k_disk k' x = ld x) /\
    forall pre q kb, pre `prefix_of` ws ->
      fs_wf (p := q) [] [] (k_disk kb) kb -> k_disk kb = apply_writes pre (k_disk k) ->
      l_start (k_log kb) = s -> l_dev (k_log kb) = ROOTDEV -> length (l_block (k_log kb)) = Z.to_nat LOGBLOCKS ->
      wp recover_from_log (fun _ kr =>
        (forall x, ~ in_log s x -> k_disk kr x = k_disk k x) \/ (forall x, ~ in_log s x -> k_disk kr x = ld x)) kb) k.
Proof.
  intros Hok Hpl Hn Hz. pose proof Hok as [Hwf Hlw].
  assert (Hcl : forall x, (x ∉ logged (k_log k)) -> ld x = k_disk k x) by (intros x; apply (fw_clean _ _ _ _ Hwf); set_solver).
  eapply wp_mono; [by apply (commit_wp ld k Hok)|]. cbv zeta. intros _ k' (_ & _ & _ & Hd & Ht).
  exists (commit_writes (k_log k) ld). split; [done|]. split.
  - rewrite Hd. by apply (crash_done (k_log k) ld (k_disk k) Hlw (fw_ld _ _ _ _ Hwf) Hcl).
  - intros pre q kb Hpre Hb Hdb Hs Hdev Hlen. eapply recover_after_crash; try done. apply Hwf.
Qed.

(** The buffer cache and the log together are a block store: [bread] of a
    block the thread does not have open returns a buffer that holds the
    block's contents, whether it comes from the disk, from a cached buffer or
    from a buffer pinned by the log; the buffer is locked by the thread, no
    other buffer the thread has open is touched, and the contents of every
    block stay the same. *)
Theorem bread_block_store p op ld k x : fs_ok (p := p) op ld k -> blockno_ok x ->
  (forall i, i ∈ op -> b_blockno (k_bufs k !!! i) <> x) ->
  (x ∈ logged (k_log k) \/ Z.of_nat (length op) + l_n (k_log k) < NBUF) ->
  wp (bread ROOTDEV x) (fun b k' =>
    (b ∉ op) /\ b_blockno (k_bufs k' !!! b) = x /\ b_data (k_bufs k' !!! b) = ld x /\
    b_lock (k_bufs k' !!! b) = locked_by (p_pid (k_procs k' !!! p)) /\ fs_ok (p := p) (b :: op) ld k' /\
    k_disk k' = k_disk k /\ forall i, i ∈ op -> k_bufs k' !!! i = k_bufs k !!! i) k.
Proof.
  intros [Hwf Hlw] Hx Hop Hroom. eapply wp_mono; [apply (bread_spec op _ ld k x Hwf Hx Hop)|].
  { destruct Hroom as [|Hroom]; [by left|right]. by rewrite logged_length. }
  cbv beta. intros b k' [Hn Hlt Hb Hw Ho Hoth]. pose proof (only_bufs_log _ _ Ho) as Hl.
  destruct (op_buf _ _ _ _ b Hw) as (_ & Hdat & Hlk & _); [left|]. rewrite Hb in Hdat.
  split; [done|]. split; [done|]. split; [done|]. split; [done|]. split; [by split; rewrite Hl|].
  split; [apply (only_bufs_disk _ _ Ho)|]. intros i Hi. apply Hoth. congruence.
Qed.

(** Recovery may itself be interrupted: if the machine stops after any
    prefix of the block writes that recovery makes and is booted again, the
    second recovery leaves every block outside the log as the first one would
    have. *)
Theorem recovery_restartable p kb (s := l_start (k_log kb)) (h := k_disk kb s) :
  fs_wf (p := p) [] [] (k_disk kb) kb -> l_dev (k_log kb) = ROOTDEV -> length (l_block (k_log kb)) = Z.to_nat LOGBLOCKS ->
  0 <= lh_n h <= LOGBLOCKS -> log_place s (hdr_blocks h) ->
  wp recover_from_log (fun _ kr => exists ws, k_dwrites kr = k_dwrites kb ++ ws /\
    forall pre q kb', pre `prefix_of` ws ->
      fs_wf (p := q) [] [] (k_disk kb') kb' -> k_disk kb' = apply_writes pre (k_disk kb) ->
      l_start (k_log kb') = s -> l_dev (k_log kb') = ROOTDEV -> length (l_block (k_log kb')) = Z.to_nat LOGBLOCKS ->
      wp recover_from_log (fun _ kr' => forall x, ~ in_log s x -> k_disk kr' x = k_disk kr x) kb') kb.
Proof.
  intros Hb Hdev Hlen Hn Hpl. eapply wp_mono; [apply (recover_wp (k_disk kb) kb Hb Hdev Hlen Hn Hpl)|].
  cbv zeta. fold s. intros _ kr (_ & _ & Hd & Ht & _). exists (recovery_writes s (k_disk kb)). split; [done|].
  intros pre q kb' Hpre Hb' Hd' Hs Hdev' Hlen'.
  destruct (recovered_again s (k_disk kb) pre (proj2 Hn) Hpl (fw_disk _ _ _ _ Hb s) Hpre) as [Hh Hr].
  rewrite <- Hd' in Hh, Hr. eapply wp_mono; [apply (recover_wp (k_disk kb') kb' Hb' Hdev' Hlen')|].
  - rewrite Hs. destruct Hh as [[_ ->]|[_ ->]]; [done|]. unfold LOGBLOCKS, MAXOPBLOCKS. lia.
  - rewrite Hs. destruct Hh as [[-> _]|[-> _]]; [done|]. destruct Hpl as (H1 & H2 & _). by split.
  - cbv zeta. rewrite Hs. intros _ kr' (_ & _ & Hdk & _) x Hx. rewrite Hdk, Hd. by apply Hr.
Qed.

(** C10. The reservations of [begin_op] keep the log from overflowing.  In
    every interleaving of [begin_op], [log_write], [end_op] and [commit] by any
    number of threads in which no operation adds more than [MAXOPBLOCKS] blocks
    (blocks the log has already are free), the log has at most [LOGBLOCKS]
    blocks; while some operation in progress has added fewer than MAXOPBLOCKS,
    [log_write] of any block returns; it returns whenever the log is not full;
    and if the log is full, when every operation in progress has added exactly
    MAXOPBLOCKS blocks, it panics, also on a block that the log has. *)
Theorem log_space_safe k0 k us b :
  k_held k0 = [] -> log_idle (k_log k0) -> sched_ok k0 -> log_run (k0, []) (k, us) -> us <> [] ->
  l_n (k_log k) <= LOGBLOCKS /\
  (Exists (fun u => u < MAXOPBLOCKS) us -> exists k', log_write b k = Ret tt k') /\
  (l_n (k_log k) < LOGBLOCKS -> exists k', log_write b k = Ret tt k') /\
  (l_n (k_log k) = LOGBLOCKS -> log_write b k = Panic "too big a transaction" /\ Forall (eq MAXOPBLOCKS) us).
Proof.
  intros Hh Hi Hs Hrun Hne. pose proof (log_run_inv _ _ Hrun Hs (space_init _ Hh Hi)) as [H1 H2 H3 H4 H5 _].
  cbn [fst snd] in *. pose proof (reserved_bound _ H5) as Hb. split; [lia|].
  assert (Hout : 1 <= l_outstanding (k_log k)) by (destruct us; [done|]; cbn [length] in H2; lia).
  assert (Hok : l_n (k_log k) < LOGBLOCKS -> exists k', log_write b k = Ret tt k').
  { intros Hlt. destruct (proj1 (wp_inv _ _ _) (log_write_any b k H1 Hlt Hout)) as ([] & k' & He & _). by exists k'. }
  split; [intros Hex; apply Hok; pose proof (reserved_lt _ H5 Hex); lia|].
  split; [exact Hok|]. intros Hf. split; [apply log_write_full; [done|lia]|]. apply reserved_none; [done|lia].
Qed.

(** C11. A transaction of [LOGBLOCKS] blocks, which [begin_op] and [log_write]
    admit, cannot be committed: all [NBUF] buffers are pinned, so that the
    first [bread] of a log block panics. *)
Theorem full_commit_panics p ld k : fs_ok (p := p) [] ld k ->
  log_place (l_start (k_log k)) (logged (k_log k)) -> l_n (k_log k) = LOGBLOCKS ->
  commit k = Panic "bget: no buffers".
Proof. apply commit_full. Qed.
End LogProps.

Definition fdemo_committed (k' : kernel) : Prop :=
  exists ws, k_dwrites k' = k_dwrites fdemo1 ++ ws /\
    (forall x, ~ in_log 2 x -> k_disk k' x = fupd 50 ones_block (fun _ => zero_block) x).

Lemma commit_crash_safe_witness : fdemo_committed (final commit fdemo1).
Proof.
  destruct fdemo1_ok as (Hok & Hl & Hd). apply (wp_final commit fdemo_committed).
  pose proof (commit_crash_safe 0%nat (fupd 50 ones_block (fun _ => zero_block)) fdemo1 Hok) as Hc.
  cbv zeta in Hc. rewrite Hl, Hd in Hc. cbn [l_start l_n] in Hc. eapply wp_mono; [apply Hc|].
  - split; [split; [discriminate|reflexivity]|]. split; [split; [discriminate|reflexivity]|].
    constructor; [|constructor]. split; [split; [discriminate|reflexivity]|]. unfold in_log, LOGBLOCKS, MAXOPBLOCKS. lia.
  - split; reflexivity.
  - reflexivity.
  - cbv beta. intros _ k' (ws & H1 & H2 & _). exists ws. split; [exact H1|exact H2].
Defined.

Lemma bread_block_store_witness :
  wp (bread ROOTDEV 50) (fun b k' => b_data (k_bufs k' !!! b) = ones_block /\ k_disk k' = fun _ => zero_block) fdemo1.
Proof.
  destruct fdemo1_ok as (Hok & Hl & Hd). eapply wp_mono; [apply (bread_block_store 0%nat [] _ fdemo1 50 Hok)|].
  - split; [discriminate|reflexivity].
  - intros i Hi. destruct (not_elem_of_nil i Hi).
  - left. rewrite Hl. left.
  - cbv beta. intros b k' (_ & _ & H1 & _ & _ & H2 & _). rewrite H1, H2. split; [reflexivity|exact Hd].
Defined.

Definition fdemo_restarted (kr : kernel) : Prop := exists ws, k_dwrites kr = k_dwrites fdemo ++ ws.

Lemma recovery_restartable_witness : fdemo_restarted (final recover_from_log fdemo).
Proof.
  destruct fdemo_wf as (Hw & Hl & Hd & _). apply (wp_final recover_from_log fdemo_restarted).
  pose proof (recovery_restartable 0%nat fdemo) as Hr. cbv zeta in Hr. rewrite Hl, Hd in Hr.
  eapply wp_mono; [apply Hr; [exact Hw|reflexivity|reflexivity|split; discriminate|]|].
  - split; [split; [discriminate|reflexivity]|]. split; [split; [discriminate|reflexivity]|].
    change (hdr_blocks _) with (@nil Z). constructor.
  - cbv beta. intros _ k' (ws & H & _). exists ws. exact H.
Defined.

Lemma log_space_safe_witness : l_n (k_log (final begin_op fdemo)) <= LOGBLOCKS /\
  exists k', log_write 0 (final begin_op fdemo) = Ret tt k'.
Proof.
  destruct fdemo_wf as (Hw & Hl & _). assert (Hm : op_must_wait fdemo = false) by (unfold op_must_wait; rewrite Hl; reflexivity).
  pose proof (begin_op_eq fdemo (th_held _ _ (fw_thread _ _ _ _ Hw)) Hm) as Hb.
  destruct (log_space_safe fdemo (final begin_op fdemo) [0] 0%nat) as (H1 & H2 & _).
  - exact (th_held _ _ (fw_thread _ _ _ _ Hw)).
  - unfold log_idle. rewrite Hl. repeat split.
  - split; apply (fw_thread _ _ _ _ Hw).
  - unfold final. rewrite Hb. eapply rtc_l; [|apply rtc_refl]. split; [exact (LS_begin _ _ _ Hm Hb)|].
    destruct (fw_thread _ _ _ _ Hw) as [_ _ Hq Hv _]. apply sched_ok_set_log. exact (conj Hq Hv).
  - discriminate.
  - split; [exact H1|]. apply H2. left. reflexivity.
Defined.

Lemma full_commit_panics_witness : commit fdemo2 = Panic "bget: no buffers".
Proof.
  destruct fdemo2_ok as (Hok & Hlg & Hn & Hs). apply (full_commit_panics 0%nat (fun _ => zero_block)); [exact Hok| |exact Hn].
  rewrite Hs, Hlg. split; [split; [discriminate|reflexivity]|]. split; [split; [discriminate|reflexivity]|].
  apply Forall_forall. intros x Hx. apply elem_of_seqZ in Hx. unfold blockno_ok, in_log, LOGBLOCKS, MAXOPBLOCKS. lia.
Defined.
