(* ===== verification/FsAlloc.v ===== *)
(** * Block allocation (balloc and bfree of kernel/fs.c)

    The block store as the file system sees it; the bitmap as a predicate on
    block numbers, and what the two routines do to it. *)

From Stdlib Require Import ZArith Lia.
From stdpp Require Import base list strings sets.
From S2P Require Import Prelude Params Mem State Evict Kalloc Vm Sched SchedSpec SchedProps Sleeplock Printf Bio BioSpec.
From S2P Require Import BioLaws Log Fs FsInv LogSpec LogTheorems.

(** ** The write set of a transaction *)
Definition log_adds (xs : list Z) (lg : loginfo) : loginfo := foldl (fun lg x => log_add x lg) lg xs.

Lemma log_adds_app xs ys lg : log_adds (xs ++ ys) lg = log_adds ys (log_adds xs lg).
Proof. apply foldl_app. Qed.

Lemma log_add_n x lg : l_n (log_add x lg) <= l_n lg + 1.
Proof. unfold log_add. destruct (bool_decide _); cbn; lia. Qed.

Lemma log_adds_n xs lg : l_n (log_adds xs lg) <= l_n lg + Z.of_nat (length xs).
Proof.
  revert lg. induction xs as [|x xs IH]; intros lg; cbn [log_adds foldl length]; [lia|].
  specialize (IH (log_add x lg)). unfold log_adds in IH. pose proof (log_add_n x lg). lia.
Qed.

Lemma log_add_outstanding x lg : l_outstanding (log_add x lg) = l_outstanding lg.
Proof. unfold log_add. by destruct (bool_decide _). Qed.
Lemma log_adds_outstanding xs lg : l_outstanding (log_adds xs lg) = l_outstanding lg.
Proof.
  revert lg. induction xs as [|x xs IH]; intros lg; [done|]. cbn. unfold log_adds in IH. by rewrite IH, log_add_outstanding.
Qed.

(** [m] more blocks fit in the log, and buffers are left to work with. *)
Definition room (m : Z) (lg : loginfo) : Prop := l_n lg + m < NBUF - 3 /\ 1 <= l_outstanding lg.

Lemma room_adds m xs lg : room (m + Z.of_nat (length xs)) lg -> room m (log_adds xs lg).
Proof.
  intros [H1 H2]. pose proof (log_adds_n xs lg). split; [lia|]. by rewrite log_adds_outstanding.
Qed.
Lemma room_le m m' lg : m <= m' -> room m' lg -> room m lg.
Proof. intros Hm [H1 H2]. split; [lia|done]. Qed.

Section View.
Context {I : Interference} {D : Disk} {DO : DiskOk D} {p : nat}.

Local Abbreviation bno k i := (b_blockno (k_bufs k !!! i)).

Record view (o : list (nat * Z)) (ld : Z -> list Z) (k : kernel) : Prop := {
  vw_ok : fs_ok (p := p) (o.*1) ld k;
  vw_bno b x : (b, x) ∈ o -> bno k b = x;
  vw_clean x : x ∈ logged (k_log k) \/ ld x = k_disk k x
}.

(** Only the cache, the log and scheduling data differ. *)
Definition quiet (k k' : kernel) : Prop := resched (k <| k_bufs := k_bufs k' |> <| k_log := k_log k' |>) k'.

#[export] Instance quiet_preorder : PreOrder quiet.
Proof.
  split.
  - intros k. unfold quiet. match goal with |- resched ?x ?y => replace x with y by kext end. reflexivity.
  - intros k1 k2 k3 H1 H2. unfold quiet in *.
    apply (resched_set_bufs (fun _ => k_bufs k3)) in H1. apply (resched_set_log (fun _ => k_log k3)) in H1.
    etransitivity; [|exact H2]. etransitivity; [|exact H1].
    match goal with |- resched ?x ?y => replace y with x; [reflexivity|kext] end.
Qed.

Lemma only_bufs_quiet k k' : only_bufs k k' -> quiet k k'.
Proof.
  intros H. unfold quiet. rewrite (only_bufs_log _ _ H).
  etransitivity; [|exact H]. match goal with |- resched ?x ?y => replace y with x; [reflexivity|kext] end.
Qed.

Lemma quiet_inodes k k' : quiet k k' -> k_inodes k' = k_inodes k.
Proof. intros [E _ _ _ _]. rewrite E. by kproj. Qed.
Lemma quiet_sb k k' : quiet k k' -> k_sb k' = k_sb k.
Proof. intros [E _ _ _ _]. rewrite E. by kproj. Qed.
Lemma quiet_held k k' : quiet k k' -> k_held k' = k_held k.
Proof. intros H. by rewrite (resched_held _ _ H). Qed.
Lemma quiet_set_inodes f k k' : quiet k k' -> quiet (k <| k_inodes ::= f |>) (k' <| k_inodes ::= f |>).
Proof.
  intros H. unfold quiet in *. apply (resched_set_inodes f) in H. etransitivity; [|exact H].
  match goal with |- resched ?x ?y => replace y with x; [reflexivity|kext] end.
Qed.

Lemma view_set_inodes o ld k f : view o ld k -> view o ld (k <| k_inodes ::= f |>).
Proof. intros [[H L] B C]. split; [|done|done]. split; [|done]. destruct H as [T R Bf U G O LD DK Cl]. split; try done. by destruct T. Qed.

Lemma view_open_ld o ld k b x : view o ld k -> (b, x) ∈ o -> b_data (k_bufs k !!! b) = ld x /\ blockno_ok x.
Proof.
  intros [[H L] B C] Hb. destruct (op_buf _ _ _ _ b H) as (_ & Hd & _ & Hok).
  { apply list_elem_of_fmap. by exists (b, x). }
  by rewrite (B _ _ Hb) in Hd, Hok.
Qed.

Lemma view_block o ld k x : view o ld k -> block_ok (ld x).
Proof. intros [[H L] B C]. by apply H. Qed.

(** Opening a block. *)
Lemma open_block o ld k x Q : view o ld k -> blockno_ok x -> (x ∉ o.*2) ->
  Z.of_nat (length o) + l_n (k_log k) < NBUF ->
  (forall b k', view ((b, x) :: o) ld k' -> quiet k k' -> k_log k' = k_log k -> b_data (k_bufs k' !!! b) = ld x -> Q b k') ->
  wp (bread ROOTDEV x) Q k.
Proof.
  intros V Hx Hn Hr HQ. pose proof V as [[H L] B C].
  eapply wp_mono; [apply (bread_spec (o.*1) _ ld k x H Hx)|].
  - intros b Hb. apply list_elem_of_fmap in Hb as [[b' y] [-> Hb]]. cbn. rewrite (B _ _ Hb). intros ->.
    apply Hn, list_elem_of_fmap. by exists (b', x).
  - right. rewrite length_fmap, (logged_length _ L). done.
  - cbv beta. intros b k' [N Lt Bn Wf On Oth]. pose proof (only_bufs_log _ _ On) as EL.
    assert (view ((b, x) :: o) ld k') as V'.
    { split; [split; [by rewrite EL|by rewrite EL]| |].
      - intros b' y [E|Hb']%elem_of_cons; [by injection E as -> ->|]. rewrite Oth; [by apply B|].
        intros ->. apply N, list_elem_of_fmap. by exists (b, y).
      - intros y. rewrite EL, (only_bufs_disk _ _ On). apply C. }
    apply HQ; [done|by apply only_bufs_quiet|done|]. apply (view_open_ld _ _ _ b x V'). by left.
Qed.

(** Closing it. *)
Lemma close_block o ld k b x Q : view ((b, x) :: o) ld k ->
  (forall k', view o ld k' -> quiet k k' -> k_log k' = k_log k -> Q tt k') -> wp (brelse b) Q k.
Proof.
  intros V HQ. pose proof V as [[H L] B C]. assert (bno k b = x) as Hb by (apply B; by left).
  eapply wp_mono; [apply (brelse_spec [] b (o.*1) _ ld k H); rewrite Hb; apply C|].
  cbv beta. intros [] k' (Wf & On & Oth). pose proof (only_bufs_log _ _ On) as EL.
  apply HQ; [|by apply only_bufs_quiet|done]. split; [split; by rewrite EL| |].
  - intros b' y Hb'. rewrite Oth; [apply B; by right|]. cbn. apply list_elem_of_fmap. by exists (b', y).
  - intros y. rewrite EL, (only_bufs_disk _ _ On). apply C.
Qed.

(** Changing the data of an open block and putting it in the transaction. *)
Lemma write_block o ld k b x f Q : view o ld k -> (b, x) ∈ o -> block_ok (f (ld x)) -> room 0 (k_log k) ->
  (forall k', view o (fupd x (f (ld x)) ld) k' -> quiet k k' -> k_log k' = log_add x (k_log k) -> Q tt k') ->
  wp (do! updb b (set b_data f); log_write b) Q k.
Proof.
  intros V Hb Hf [Hr Ho] HQ. pose proof V as [[H L] B C]. destruct (view_open_ld _ _ _ _ _ V Hb) as [Hd Hok].
  assert (b ∈ o.*1) as Hb1 by (apply list_elem_of_fmap; by exists (b, x)).
  pose proof (fs_wf_write _ _ _ _ b (f (ld x)) H Hb1 Hf) as Hw. rewrite (B _ _ Hb) in Hw.
  unfold updb. wp_steps.
  match goal with |- wp _ _ ?y => set (k1 := y) end.
  assert (k1 = k <| k_bufs ::= alter (set b_data (fun _ => f (ld x))) b |>) as E1.
  { unfold k1. kext. apply list_alter_ext; [|done]. intros y Hy. apply list_lookup_total_correct in Hy. rewrite <- Hd, Hy. by destruct y. }
  rewrite <- E1 in Hw. assert (forall i, bno k1 i = bno k i) as EB.
  { intros i. unfold k1. kproj. by apply (proj_alter b_blockno). }
  assert (k_log k1 = k_log k) as EL by (unfold k1; by kproj).
  eapply wp_mono; [apply (log_write_spec (p := p) (o.*1) (fupd x (f (ld x)) ld) k1 b); [split; by rewrite EL|done| |by rewrite EL]|].
  { rewrite EL. change LOGBLOCKS with 30. change NBUF with 30 in Hr. lia. }
  cbv beta. rewrite EB, (B _ _ Hb), EL. intros [] k' (Hok' & EL' & E' & EB').
  apply HQ; [|unfold quiet; rewrite E', E1; match goal with |- resched ?x ?y => replace y with x; [reflexivity|kext] end|done].
  split; [done| |].
  - intros b' y Hb'. rewrite EB', EB. by apply B.
  - intros y. rewrite EL'. unfold fupd. assert (k_disk k' = k_disk k) as -> by (rewrite E', E1; by kproj).
    assert (l_n (k_log k) < LOGBLOCKS) as Hlt by (change LOGBLOCKS with 30; change NBUF with 30 in Hr; lia).
    rewrite (logged_add x _ L Hlt). destruct (bool_decide _) eqn:Eb.
    + apply bool_decide_eq_true in Eb. destruct (decide _) as [->|]; [by left|apply C].
    + destruct (decide _) as [->|]; [left; set_solver|]. destruct (C y); [left; set_solver|by right].
Qed.

(** The same in front of the rest of a routine. *)
Lemma write_block_then {A} o ld k b x f (m : KM A) Q :
  view o ld k -> (b, x) ∈ o -> block_ok (f (ld x)) -> room 0 (k_log k) ->
  (forall k', view o (fupd x (f (ld x)) ld) k' -> quiet k k' -> k_log k' = log_add x (k_log k) -> wp m Q k') ->
  wp (do! updb b (set b_data f); do! log_write b; m) Q k.
Proof.
  intros V Hb Hf Hr Hm. assert (wp (do! updb b (set b_data f); log_write b) (fun _ => wp m Q) k) as H.
  { by apply (write_block o ld k b x f). }
  unfold wp, bind in *. destruct (updb b _ k); [|done..]. by destruct (log_write b w).
Qed.

(** The three together: [bread], change, [log_write], [brelse]. *)
Lemma update_block o ld k x f Q : view o ld k -> blockno_ok x -> (x ∉ o.*2) -> (length o <= 2)%nat ->
  block_ok (f (ld x)) -> room 0 (k_log k) ->
  (forall k', view o (fupd x (f (ld x)) ld) k' -> quiet k k' -> k_log k' = log_add x (k_log k) -> Q tt k') ->
  wp (let! b := bread ROOTDEV x in do! updb b (set b_data f); do! log_write b; brelse b) Q k.
Proof.
  intros V Hx Hn Ho Hf Hr HQ. wp_steps. apply (open_block o ld); [done|done|done|destruct Hr; lia|].
  intros b k1 V1 Q1 L1 _. rewrite <- L1 in Hr. apply (write_block_then ((b, x) :: o) ld k1 b x f); [done|by left|done|done|].
  intros k2 V2 Q2 L2. apply (close_block _ _ _ _ _ _ V2). intros k3 V3 Q3 L3.
  apply HQ; [done|by etransitivity; [|etransitivity]|]. by rewrite L3, L2, L1.
Qed.

Lemma view_held o ld k : view o ld k -> k_held k = [].
Proof. intros [[H _] _ _]. apply H. Qed.

(** Printing changes nothing of the view. *)
Lemma printf_view o ld k fmt ap Q : view o ld k ->
  (forall k', view o ld k' -> quiet k k' -> k_log k' = k_log k -> Q tt k') -> wp (printf fmt ap) Q k.
Proof.
  intros V HQ. eapply wp_mono; [apply printf_wp; erewrite view_held by done; set_solver|]. cbv beta. intros [] k' [out ->].
  apply HQ; [| |done].
  - destruct V as [[H L] B C]. split; [|done|done]. split; [|done]. destruct H as [T R Bf U G O LD DK Cl]. split; try done. by destruct T.
  - split; [kext|done|intros i; kproj; unfold same_task; by destruct (k_procs k !!! i)|done|done].
Qed.
End View.

(** ** Block allocation (balloc and bfree of kernel/fs.c)

    The bitmap as a predicate on block numbers, and what the two routines do
    to it. *)

(** ** The bitmap *)

(** The byte and the bit of block [c] in its bitmap block. *)
Definition bit_byte (c : Z) : Z := c mod BPB / 8.
Definition bit_mask (c : Z) : Z := Z.shiftl 1 (c mod BPB mod 8).

Definition allocated (sb : superblock) (ld : Z -> list Z) (c : Z) : bool :=
  has (aget (ld (BBLOCK c sb)) (bit_byte c)) (bit_mask c).

Definition set_bit (c : Z) : list Z -> list Z := aupd (bit_byte c) (fun y => Z.lor y (bit_mask c)).
Definition clear_bit (c : Z) : list Z -> list Z := aupd (bit_byte c) (fun y => Z.land y (Z.lnot (bit_mask c))).

Lemma bit_byte_range c : 0 <= bit_byte c < BSIZE.
Proof. unfold bit_byte, BPB, BSIZE. pose proof (Z.mod_pos_bound c (1024 * 8) ltac:(lia)). dlia. Qed.

Lemma bit_index_range c : 0 <= c mod BPB mod 8 < 8.
Proof. apply Z.mod_pos_bound. lia. Qed.

(** Two blocks with the same bitmap block, byte and bit are the same block. *)
Lemma bit_inj sb c c' : BBLOCK c sb = BBLOCK c' sb -> bit_byte c = bit_byte c' ->
  c mod BPB mod 8 = c' mod BPB mod 8 -> c = c'.
Proof.
  unfold BBLOCK, bit_byte. intros H1 H2 H3. assert (c / BPB = c' / BPB) as H4 by lia.
  assert (c mod BPB = c' mod BPB) as H5.
  { rewrite (Z.div_mod (c mod BPB) 8), (Z.div_mod (c' mod BPB) 8) by lia. lia. }
  rewrite (Z.div_mod c BPB), (Z.div_mod c' BPB) by done. lia.
Qed.

Lemma mask_bits c n : 0 <= n -> Z.testbit (bit_mask c) n = (n =? c mod BPB mod 8).
Proof.
  intros Hn. pose proof (bit_index_range c). unfold bit_mask. rewrite Z.shiftl_1_l, Z.pow2_bits_eqb by lia. apply Z.eqb_sym.
Qed.

Lemma has_mask x c : has x (bit_mask c) = Z.testbit x (c mod BPB mod 8).
Proof. apply has_bit. apply bit_index_range. Qed.

Lemma set_bit_allocated sb ld c c' : length (ld (BBLOCK c sb)) = Z.to_nat BSIZE ->
  allocated sb (fupd (BBLOCK c sb) (set_bit c (ld (BBLOCK c sb))) ld) c' = bool_decide (c = c') || allocated sb ld c'.
Proof.
  intros Hl. unfold allocated. pose proof (bit_byte_range c). pose proof (bit_byte_range c'). rewrite !has_mask.
  destruct (decide (BBLOCK c' sb = BBLOCK c sb)) as [E|E].
  - rewrite E, fupd_eq. unfold set_bit. rewrite aget_aupd by (change (Z.to_nat BSIZE) with 1024%nat in Hl; change BSIZE with 1024 in *; lia).
    destruct (decide (bit_byte c = bit_byte c')) as [Eb|Eb].
    + rewrite Z.lor_spec, mask_bits, Eb by apply bit_index_range.
      destruct (Z.eqb_spec (c' mod BPB mod 8) (c mod BPB mod 8)) as [Em|Em].
      * rewrite bool_decide_eq_true_2 by (by eapply bit_inj). by rewrite orb_true_r.
      * rewrite bool_decide_eq_false_2 by congruence. by rewrite orb_false_r.
    + rewrite bool_decide_eq_false_2 by congruence. done.
  - rewrite fupd_ne by done. rewrite bool_decide_eq_false_2 by congruence. done.
Qed.

Lemma clear_bit_allocated sb ld c c' : length (ld (BBLOCK c sb)) = Z.to_nat BSIZE ->
  allocated sb (fupd (BBLOCK c sb) (clear_bit c (ld (BBLOCK c sb))) ld) c' = negb (bool_decide (c = c')) && allocated sb ld c'.
Proof.
  intros Hl. unfold allocated. pose proof (bit_byte_range c). pose proof (bit_byte_range c'). rewrite !has_mask.
  destruct (decide (BBLOCK c' sb = BBLOCK c sb)) as [E|E].
  - rewrite E, fupd_eq. unfold clear_bit. rewrite aget_aupd by (change (Z.to_nat BSIZE) with 1024%nat in Hl; change BSIZE with 1024 in *; lia).
    destruct (decide (bit_byte c = bit_byte c')) as [Eb|Eb].
    + rewrite Z.land_spec, Z.lnot_spec, mask_bits, Eb by apply bit_index_range.
      destruct (Z.eqb_spec (c' mod BPB mod 8) (c mod BPB mod 8)) as [Em|Em].
      * rewrite bool_decide_eq_true_2 by (by eapply bit_inj). by rewrite andb_false_r.
      * rewrite bool_decide_eq_false_2 by congruence. by rewrite andb_true_r.
    + rewrite bool_decide_eq_false_2 by congruence. done.
  - rewrite fupd_ne by done. rewrite bool_decide_eq_false_2 by congruence. done.
Qed.

(** Writing a block that is not of the bitmap. *)
Lemma allocated_ne sb ld x d c : x <> BBLOCK c sb -> allocated sb (fupd x d ld) c = allocated sb ld c.
Proof. intros H. unfold allocated. by rewrite fupd_ne by congruence. Qed.

Lemma aupd_block_ok i f d : block_ok d -> (forall y, byte_ok y -> byte_ok (f y)) -> block_ok (aupd i f d).
Proof.
  intros [H1 H2] Hf. split; [by rewrite length_aupd|]. unfold aupd. apply Forall_alter; [done|].
  intros y Hy Hy'. by apply Hf.
Qed.

Lemma splice_block_ok off bs d : block_ok d -> Forall byte_ok bs -> (off + length bs <= Z.to_nat BSIZE)%nat -> block_ok (splice off bs d).
Proof. intros [H1 H2] Hb Hl. split; [rewrite length_splice; lia|by apply splice_bytes_ok]. Qed.

Lemma set_bit_ok c d : block_ok d -> block_ok (set_bit c d).
Proof.
  intros H. apply aupd_block_ok; [done|]. intros y Hy. pose proof (bit_index_range c). unfold byte_ok in *.
  apply (lor_below _ _ 8); [lia|exact Hy|]. unfold bit_mask. rewrite Z.shiftl_1_l. split; [apply Z.pow_nonneg; lia|].
  apply Z.pow_lt_mono_r; lia.
Qed.

Lemma clear_bit_ok c d : block_ok d -> block_ok (clear_bit c d).
Proof.
  intros H. apply aupd_block_ok; [done|]. intros y Hy. unfold byte_ok in *. pose proof (land_le_r y (bit_mask c)). lia.
Qed.

(** ** The layout of the disk

    mkfs puts the bitmap after the inodes and the data blocks after it. *)
Definition data_start (sb : superblock) : Z := sb_bmapstart sb + sb_size sb / BPB + 1.

Record geom (sb : superblock) : Prop := {
  gm_size : 0 < sb_size sb < 2 ^ 31;
  gm_istart : 1 < sb_inodestart sb;
  gm_ninodes : 0 <= sb_ninodes sb < 2 ^ 31;
  gm_inodes : sb_inodestart sb + sb_ninodes sb / IPB < sb_bmapstart sb;
  gm_data : data_start sb <= sb_size sb
}.

Definition is_data (sb : superblock) (x : Z) : Prop := data_start sb <= x < sb_size sb.

(** The bitmap marks every block of the system itself. *)
Definition meta_marked (sb : superblock) (ld : Z -> list Z) : Prop :=
  forall x, 0 <= x < data_start sb -> allocated sb ld x = true.

Lemma BBLOCK_range sb c : geom sb -> 0 <= c < sb_size sb -> sb_bmapstart sb <= BBLOCK c sb < data_start sb.
Proof.
  intros G Hc. unfold BBLOCK, data_start.
  assert (0 <= c / BPB <= sb_size sb / BPB); [|lia].
  split; [apply Z.div_pos; [lia|done]|]. apply Z.div_le_mono; [done|lia].
Qed.

Lemma BBLOCK_ok sb c : geom sb -> 0 <= c < sb_size sb -> blockno_ok (BBLOCK c sb).
Proof.
  intros G Hc. pose proof (BBLOCK_range sb c G Hc). destruct G as [G1 G2 G3 G4 G5].
  assert (0 <= sb_ninodes sb / IPB) by (apply Z.div_pos; [lia|done]). unfold blockno_ok. lia.
Qed.

(** A free block is a data block. *)
Lemma free_is_data sb ld c : meta_marked sb ld -> 0 <= c < sb_size sb -> allocated sb ld c = false -> is_data sb c.
Proof. intros M Hc Hf. split; [|lia]. destruct (Z_lt_le_dec c (data_start sb)); [|done]. rewrite M in Hf by lia. done. Qed.

(** [b] is the first free block. *)
Definition first_free (sb : superblock) (ld : Z -> list Z) (b : Z) : Prop :=
  0 <= b < sb_size sb /\ allocated sb ld b = false /\ forall c, 0 <= c < b -> allocated sb ld c = true.

Definition zeros : list Z := replicate (Z.to_nat BSIZE) 0.

(** The disk after [b] has been allocated. *)
Definition alloc_ld (sb : superblock) (b : Z) (ld : Z -> list Z) : Z -> list Z :=
  fupd b zeros (fupd (BBLOCK b sb) (set_bit b (ld (BBLOCK b sb))) ld).
Definition free_ld (sb : superblock) (b : Z) (ld : Z -> list Z) : Z -> list Z :=
  fupd (BBLOCK b sb) (clear_bit b (ld (BBLOCK b sb))) ld.

Lemma zeros_ok : block_ok zeros.
Proof. split; [done|]. apply Forall_replicate. done. Qed.

Section Alloc.
Context {L : Layout} {I : Interference} {D : Disk} {DO : DiskOk D} {p : nat}.
Local Abbreviation view := (@view D p).

Lemma bzero_wp o ld k x Q : view o ld k -> blockno_ok x -> (x ∉ o.*2) -> (length o <= 2)%nat -> room 0 (k_log k) ->
  (forall k', view o (fupd x zeros ld) k' -> quiet k k' -> k_log k' = log_add x (k_log k) -> Q tt k') ->
  wp (bzero ROOTDEV x) Q k.
Proof. intros V Hx Hn Ho Hr HQ. unfold bzero. apply (update_block (p := p) o ld k x (fun _ => zeros)); try done. apply zeros_ok. Qed.

(** What the caller of the allocator has open. *)
Definition open_data (sb : superblock) (ld : Z -> list Z) (o : list (nat * Z)) : Prop :=
  forall x, x ∈ o.*2 -> is_data sb x /\ allocated sb ld x = true.

(** The scan of one bitmap block, open in [bp]. *)
Lemma balloc_scan_wp sb o ld k bp j Q :
  view ((bp, BBLOCK (j * BPB) sb) :: o) ld k -> geom sb -> meta_marked sb ld -> open_data sb ld o -> (length o <= 1)%nat ->
  0 <= j -> j * BPB < sb_size sb -> room 0 (k_log k) ->
  (forall b, first_free sb ld b -> room 0 (log_add (BBLOCK b sb) (k_log k))) ->
  (forall c, 0 <= c < j * BPB -> allocated sb ld c = true) ->
  (forall b k', first_free sb ld b -> view o (alloc_ld sb b ld) k' -> quiet k k' ->
     k_log k' = log_adds [BBLOCK b sb; b] (k_log k) -> Q (Some b) k') ->
  ((forall c, 0 <= c < Z.min (j * BPB + BPB) (sb_size sb) -> allocated sb ld c = true) -> Q None k) ->
  wp (balloc_scan ROOTDEV bp (j * BPB) (sb_size sb)) Q k.
Proof.
  intros V G M Od Ho Hj Hlt Hr Hr2 Hbef HS HN. unfold balloc_scan.
  destruct (view_open_ld _ _ _ bp _ V ltac:(by left)) as [Hd Hbok].
  assert (0 <= j * BPB) as Hjb by (apply Z.mul_nonneg_nonneg; done).
  assert (forall bi, 0 <= bi < BPB -> BBLOCK (j * BPB + bi) sb = BBLOCK (j * BPB) sb /\
     (j * BPB + bi) mod BPB = bi) as Hbi.
  { intros bi Hb. unfold BBLOCK. rewrite (Z.add_comm (j * BPB)), Z.div_add, Z.div_mul, Z.div_small, Z.mod_add, Z.mod_small by done. done. }
  eapply wp_mono; [apply (wp_for_until _ _ _
    (fun bi k' => k' = k /\ forall c, 0 <= c < j * BPB + bi -> allocated sb ld c = true)
    (fun b k' => Q (Some b) k'))|].
  - split; [done|]. intros c Hc. apply Hbef. lia.
  - intros bi k' Hb [-> Hall]. unfold getb. wp_steps. rewrite Hd. destruct (Hbi bi) as [E1 E2]; [lia|].
    set (c := j * BPB + bi) in *.
    assert ((Z.land (aget (ld (BBLOCK (j * BPB) sb)) (bi / 8)) (Z.shiftl 1 (bi mod 8)) =? 0) = negb (allocated sb ld c)) as ->.
    { unfold allocated, bit_byte, bit_mask, has. by rewrite E1, E2, negb_involutive. }
    destruct (allocated sb ld c) eqn:Ea; cbn [negb].
    + wp_steps. split; [done|]. intros c' Hc'. destruct (decide (c' = c)) as [->|]; [done|]. apply Hall. lia.
    + assert (0 <= c < sb_size sb) as Hc by (unfold c; lia). assert (first_free sb ld c) as Hff by (split; [done|split; [done|]]; intros; apply Hall; lia).
      pose proof (free_is_data _ _ _ M Hc Ea) as Hdat. pose proof (BBLOCK_range sb c G Hc) as Hbr.
      replace (aupd (bi / 8) (fun y => Z.lor y (Z.shiftl 1 (bi mod 8)))) with (set_bit c)
        by (unfold set_bit, bit_byte, bit_mask; by rewrite E2).
      rewrite <- E1 in V, Hd.
      apply (write_block_then (p := p) ((bp, BBLOCK c sb) :: o) ld k bp (BBLOCK c sb)); [done|by left|by apply set_bit_ok, (view_block _ _ _ _ V)|done|].
      intros k1 V1 Q1 L1. wp_steps. apply (close_block _ _ _ _ _ _ V1). intros k2 V2 Q2 L2. wp_steps.
      apply (bzero_wp _ _ _ _ _ V2); [destruct G; unfold blockno_ok; lia| |lia| |].
      * intros Hin. destruct (Od c Hin) as [_ Hc2]. congruence.
      * rewrite L2, L1. by apply Hr2.
      * intros k3 V3 Q3 L3. wp_steps. apply HS; [done|exact V3|by etransitivity; [|etransitivity]|]. by rewrite L3, L2, L1.
  - intros [b|] k'; [done|]. cbv beta. intros [-> Hall]. apply HN. intros c Hc. apply Hall. lia.
Qed.

Lemma balloc_wp sb o ld k Q :
  view o ld k -> k_sb k = sb -> geom sb -> meta_marked sb ld -> open_data sb ld o -> (length o <= 1)%nat -> room 0 (k_log k) ->
  (forall b, first_free sb ld b -> room 0 (log_add (BBLOCK b sb) (k_log k))) ->
  (forall b k', first_free sb ld b -> view o (alloc_ld sb b ld) k' -> quiet k k' ->
     k_log k' = log_adds [BBLOCK b sb; b] (k_log k) -> Q b k') ->
  (forall k', (forall c, 0 <= c < sb_size sb -> allocated sb ld c = true) -> view o ld k' -> quiet k k' ->
     k_log k' = k_log k -> Q 0 k') ->
  wp (balloc ROOTDEV) Q k.
Proof.
  intros V Hsb G M Od Ho Hr Hr2 HS HN. unfold balloc. wp_steps. rewrite Hsb.
  assert (0 < BPB) as HB by done.
  eapply wp_mono; [apply (wp_for_until _ _ _
    (fun j k' => view o ld k' /\ quiet k k' /\ k_log k' = k_log k /\ forall c, 0 <= c < Z.min (j * BPB) (sb_size sb) -> allocated sb ld c = true)
    (fun b k' => first_free sb ld b /\ view o (alloc_ld sb b ld) k' /\ quiet k k' /\ k_log k' = log_adds [BBLOCK b sb; b] (k_log k)))|].
  - split; [done|]. split; [reflexivity|]. split; [done|]. intros c Hc. lia.
  - intros j k1 Hj (V1 & Q1 & L1 & Hall).
    assert (j * BPB < sb_size sb) as Hjs.
    { rewrite Z2Nat.id in Hj by (apply Z.div_pos; [destruct G; lia|done]). unfold BPB, BSIZE in *. dlia. }
    wp_steps. assert (0 <= j * BPB) as Hj0 by (apply Z.mul_nonneg_nonneg; lia).
    pose proof (BBLOCK_range sb (j * BPB) G ltac:(lia)) as Hbr.
    apply (open_block (p := p) o ld); [done|by apply BBLOCK_ok| | |].
    { intros Hin. destruct (Od _ Hin) as [[? ?] _]. lia. }
    { rewrite L1. destruct Hr. lia. }
    intros bp k2 V2 Q2 L2 _. wp_steps.
    apply (balloc_scan_wp sb o ld); try done; [lia|by rewrite L2, L1|intros b Hf; rewrite L2, L1; by apply Hr2| | |].
    { intros c Hc. apply Hall. lia. }
    { intros b k3 Hff V3 Q3 L3. wp_steps. split; [done|]. split; [done|].
      split; [by etransitivity; [|etransitivity]|]. by rewrite L3, L2, L1. }
    intros Hall2. wp_steps. apply (close_block _ _ _ _ _ _ V2). intros k3 V3 Q3 L3. wp_steps.
    split; [done|]. split; [by etransitivity; [|etransitivity]|]. split; [by rewrite L3, L2, L1|].
    intros c Hc. apply Hall2. lia.
  - intros [b|] k1; cbv beta.
    + intros (Hff & V1 & Q1 & L1). wp_steps. by apply HS.
    + intros (V1 & Q1 & L1 & Hall). wp_steps. apply (printf_view _ _ _ _ _ _ V1). intros k2 V2 Q2 L2. wp_steps.
      apply HN; [|done|by etransitivity|by rewrite L2, L1]. intros c Hc. apply Hall.
      rewrite Z2Nat.id by (apply Z.div_pos; [destruct G; lia|done]). unfold BPB, BSIZE in *. dlia.
Qed.

Lemma bfree_wp sb o ld k b Q :
  view o ld k -> k_sb k = sb -> geom sb -> 0 <= b < sb_size sb -> allocated sb ld b = true ->
  (BBLOCK b sb ∉ o.*2) -> (length o <= 2)%nat -> room 0 (k_log k) ->
  (forall k', view o (free_ld sb b ld) k' -> quiet k k' -> k_log k' = log_add (BBLOCK b sb) (k_log k) -> Q tt k') ->
  wp (bfree ROOTDEV b) Q k.
Proof.
  intros V Hsb G Hb Ha Hn Ho Hr HQ. unfold bfree. wp_steps. rewrite Hsb.
  apply (open_block (p := p) o ld); [done|by apply BBLOCK_ok|done|destruct Hr; lia|].
  intros bp k1 V1 Q1 L1 Hd. unfold getb. wp_steps. rewrite Hd.
  assert ((Z.land (aget (ld (BBLOCK b sb)) (b mod BPB / 8)) (Z.shiftl 1 (b mod BPB mod 8)) =? 0) = negb (allocated sb ld b)) as ->.
  { unfold allocated, bit_byte, bit_mask, has. by rewrite negb_involutive. }
  rewrite Ha. cbn [negb].
  apply (write_block_then (p := p) ((bp, BBLOCK b sb) :: o) ld k1 bp (BBLOCK b sb) (clear_bit b)); [done|by left|by apply clear_bit_ok, (view_block _ _ _ _ V)|by rewrite L1|].
  intros k2 V2 Q2 L2. apply (close_block _ _ _ _ _ _ V2). intros k3 V3 Q3 L3.
  apply HQ; [done|by etransitivity; [|etransitivity]|]. by rewrite L3, L2, L1.
Qed.

(** Freeing a block that is free stops the machine. *)
Lemma bfree_free_panics sb o ld k b :
  view o ld k -> k_sb k = sb -> geom sb -> 0 <= b < sb_size sb -> allocated sb ld b = false ->
  (BBLOCK b sb ∉ o.*2) -> Z.of_nat (length o) + l_n (k_log k) < NBUF ->
  bfree ROOTDEV b k = Panic "freeing free block".
Proof.
  intros V Hsb G Hb Ha Hn Ho. unfold bfree. rewrite (bind_Ret _ _ _ sb k) by (unfold gets; by rewrite Hsb).
  assert (wp (bread ROOTDEV (BBLOCK b sb)) (fun bp k' => b_data (k_bufs k' !!! bp) = ld (BBLOCK b sb)) k) as H.
  { by apply (open_block (p := p) o ld); [done|apply BBLOCK_ok| | |]. }
  apply wp_inv in H as (bp & k1 & E & Hd). rewrite (bind_Ret _ _ _ _ _ E).
  rewrite (bind_Ret _ _ _ (k_bufs k1 !!! bp) k1) by done. rewrite Hd.
  assert ((Z.land (aget (ld (BBLOCK b sb)) (b mod BPB / 8)) (Z.shiftl 1 (b mod BPB mod 8)) =? 0) = negb (allocated sb ld b)) as ->.
  { unfold allocated, bit_byte, bit_mask, has. by rewrite negb_involutive. }
  by rewrite Ha.
Qed.
End Alloc.
