(* ===== verification/FsFile.v ===== *)
(** * The contents of a file (kernel/fs.c)

    An inode and its indirect block map file block numbers to disk blocks.
    [file_wf] says that the map is one of a file: its blocks are allocated,
    distinct, and there are none missing below the size.  [grows] is what an
    allocation may do to it, and what other files see of that. *)

From Stdlib Require Import ZArith Lia.
From stdpp Require Import base list strings sets.
From S2P Require Import Prelude Params Mem State Evict Kalloc Vm Sched SchedSpec SchedProps.
From S2P Require Import Sleeplock Printf Bio BioSpec BioLaws Log FsInv LogSpec LogTheorems Fs FsAlloc.

(** ** The blocks an operation has put in the log *)
Record spent (lg0 : loginfo) (ws : list Z) (lg : loginfo) : Prop := {
  sp_logged : logged lg ⊆ logged lg0 ++ ws;
  sp_outstanding : l_outstanding lg = l_outstanding lg0
}.

Lemma spent_refl lg ws : spent lg ws lg.
Proof. split; [set_solver|done]. Qed.

Lemma spent_mono lg0 ws ws' lg : spent lg0 ws lg -> ws ⊆ ws' -> spent lg0 ws' lg.
Proof. intros [H1 H2] Hs. split; [set_solver|done]. Qed.

Lemma spent_add lg0 ws lg x : spent lg0 ws lg -> log_wf lg -> l_n lg < LOGBLOCKS -> x ∈ ws -> spent lg0 ws (log_add x lg).
Proof.
  intros [H1 H2] Hw Hn Hx. split; [|by rewrite log_add_outstanding].
  rewrite (logged_add x lg Hw Hn). destruct (bool_decide _); [done|]. set_solver.
Qed.

(** The log grows by no more than the number of distinct blocks. *)
Lemma spent_n lg0 ws lg : spent lg0 ws lg -> log_wf lg0 -> log_wf lg -> l_n lg <= l_n lg0 + Z.of_nat (length ws).
Proof.
  intros [H1 _] H0 H. rewrite <- (logged_length _ H0), <- (logged_length _ H), <- Nat2Z.inj_add, <- length_app.
  apply inj_le. apply (submseteq_length (A := Z)), NoDup_submseteq; [apply H|]. set_solver.
Qed.

Lemma spent_room lg0 ws lg : spent lg0 ws lg -> log_wf lg0 -> log_wf lg -> room (Z.of_nat (length ws)) lg0 -> room 0 lg.
Proof. intros H H0 H1 [R1 R2]. pose proof (spent_n _ _ _ H H0 H1). destruct H as [_ E]. split; [lia|by rewrite E]. Qed.

(** Arithmetic on file block numbers. *)
Ltac fslia :=
  change MAXFILE with 268 in *; change NDIRECT with 12 in *; change NINDIRECT with 256 in *;
  change BSIZE with 1024 in *; lia.

(** ** The block map *)
Definition ind (x : inode) : Z := aget (i_addrs x) NDIRECT.

(** The disk block of file block [bn], 0 if it has none. *)
Definition addr_of (x : inode) (ld : Z -> list Z) (bn : Z) : Z :=
  if bn <? NDIRECT then aget (i_addrs x) bn
  else if ind x =? 0 then 0
  else getw 4 (4 * Z.to_nat (bn - NDIRECT)) (ld (ind x)).

Definition in_file (bn : Z) : Prop := 0 <= bn < MAXFILE.

(** The data of file block [bn], and byte [i] of the file. *)
Definition file_data (x : inode) (ld : Z -> list Z) (bn : Z) : list Z :=
  if addr_of x ld bn =? 0 then zeros else ld (addr_of x ld bn).
Definition file_byte (x : inode) (ld : Z -> list Z) (i : Z) : Z := aget (file_data x ld (i / BSIZE)) (i mod BSIZE).

(** Block [y] belongs to the file. *)
Definition owned (x : inode) (ld : Z -> list Z) (y : Z) : Prop :=
  y <> 0 /\ (y = ind x \/ exists bn, in_file bn /\ addr_of x ld bn = y).

Record file_wf (sb : superblock) (x : inode) (ld : Z -> list Z) : Prop := {
  ff_dev : i_dev x = ROOTDEV;
  ff_len : length (i_addrs x) = 13%nat;
  ff_data y : owned x ld y -> is_data sb y /\ allocated sb ld y = true;
  ff_inj bn bn' : in_file bn -> in_file bn' -> addr_of x ld bn <> 0 -> addr_of x ld bn = addr_of x ld bn' -> bn = bn';
  ff_ind bn : in_file bn -> ind x <> 0 -> addr_of x ld bn <> ind x;
  ff_size : 0 <= i_size x <= MAXFILE * BSIZE;
  ff_full bn : 0 <= bn -> bn * BSIZE < i_size x -> addr_of x ld bn <> 0
}.

(** Blocks were added to the file: its contents are the same, and so are the
    blocks of everything else. *)
Record grows (sb : superblock) (x : inode) (ld : Z -> list Z) (x' : inode) (ld' : Z -> list Z) : Prop := {
  gr_meta : meta_marked sb ld';
  gr_wf : file_wf sb x' ld';
  gr_fields : x' = x <| i_addrs := i_addrs x' |>;
  gr_data bn : in_file bn -> file_data x' ld' bn = file_data x ld bn;
  gr_addr bn : in_file bn -> addr_of x ld bn <> 0 -> addr_of x' ld' bn = addr_of x ld bn;
  gr_ind : ind x <> 0 -> ind x' = ind x;
  gr_new y : owned x' ld' y -> owned x ld y \/ allocated sb ld y = false;
  gr_alloc y : is_data sb y -> allocated sb ld y = true -> allocated sb ld' y = true;
  gr_other y : is_data sb y -> allocated sb ld y = true -> ~ owned x ld y -> ld' y = ld y /\ ~ owned x' ld' y;
  gr_inodes y : y < sb_bmapstart sb -> ld' y = ld y
}.

Lemma grows_refl sb x ld : meta_marked sb ld -> file_wf sb x ld -> grows sb x ld x ld.
Proof. intros M F. split; try done; [by destruct x|by left]. Qed.

Lemma grows_trans sb x ld x1 ld1 x2 ld2 : grows sb x ld x1 ld1 -> grows sb x1 ld1 x2 ld2 -> grows sb x ld x2 ld2.
Proof.
  intros [M1 F1 E1 D1 A1 N1 W1 L1 O1 I1] [M2 F2 E2 D2 A2 N2 W2 L2 O2 I2]. split; try done.
  - rewrite E2, E1. done.
  - intros bn Hb. by rewrite D2, D1.
  - intros bn Hb Hn. rewrite A2; [by apply A1|done|]. by rewrite A1.
  - intros Hi. rewrite N2; [by apply N1|]. by rewrite N1.
  - intros y Hy. destruct (ff_data _ _ _ F2 y Hy) as [Hd _]. destruct (W2 y Hy) as [Hy1|Hy1]; [by apply W1|right].
    destruct (allocated sb ld y) eqn:Ea; [|done]. by rewrite (L1 y Hd Ea) in Hy1.
  - auto.
  - intros y Hd Ha Ho. destruct (O1 y Hd Ha Ho) as [E H]. destruct (O2 y Hd) as [E' H']; [by apply L1|done|]. by rewrite E'.
  - intros y Hy. by rewrite I2, I1.
Qed.

(** ** Allocation *)
Lemma data_not_bitmap sb y c : geom sb -> is_data sb y -> 0 <= c < sb_size sb -> y <> BBLOCK c sb.
Proof. intros G [H _] Hc. pose proof (BBLOCK_range sb c G Hc). lia. Qed.

Lemma first_free_data sb ld b : meta_marked sb ld -> first_free sb ld b -> is_data sb b.
Proof. intros M (H1 & H2 & _). by eapply free_is_data. Qed.

Lemma data_nonneg sb y : geom sb -> is_data sb y -> 0 < y < sb_size sb.
Proof.
  intros G [H1 H2]. split; [|done]. pose proof (BBLOCK_range sb 0 G ltac:(destruct G; lia)). destruct G.
  assert (0 <= sb_ninodes sb / IPB) by (apply Z.div_pos; [lia|done]). lia.
Qed.

Lemma data_blockno sb y : geom sb -> is_data sb y -> blockno_ok y.
Proof. intros G H. pose proof (data_nonneg _ _ G H). destruct G. unfold blockno_ok. lia. Qed.

Section AllocLd.
Context (sb : superblock) (ld : Z -> list Z) (b : Z).
Context (G : geom sb) (M : meta_marked sb ld) (Hf : first_free sb ld b) (Hl : forall y, block_ok (ld y)).

Lemma alloc_ld_eq : alloc_ld sb b ld b = zeros.
Proof. unfold alloc_ld. by rewrite fupd_eq. Qed.

Lemma alloc_ld_data y : is_data sb y -> y <> b -> alloc_ld sb b ld y = ld y.
Proof.
  intros Hy Hn. unfold alloc_ld. rewrite !fupd_ne; [done| |done]. apply data_not_bitmap; [done|done|apply Hf].
Qed.

Lemma alloc_ld_inodes y : y < sb_bmapstart sb -> alloc_ld sb b ld y = ld y.
Proof.
  intros Hy. pose proof (BBLOCK_range sb b G (proj1 Hf)). pose proof (first_free_data _ _ _ M Hf) as [Hb _].
  unfold alloc_ld. rewrite !fupd_ne by lia. done.
Qed.

Lemma alloc_ld_allocated y : 0 <= y < sb_size sb -> allocated sb (alloc_ld sb b ld) y = bool_decide (b = y) || allocated sb ld y.
Proof.
  intros Hy. unfold alloc_ld. rewrite allocated_ne, set_bit_allocated; [done|apply Hl|].
  apply data_not_bitmap; [done|by eapply first_free_data|done].
Qed.

Lemma alloc_ld_meta : meta_marked sb (alloc_ld sb b ld).
Proof.
  intros y Hy. rewrite alloc_ld_allocated; [by rewrite M, orb_true_r|]. destruct G. lia.
Qed.

Lemma alloc_ld_ok y : block_ok (alloc_ld sb b ld y).
Proof.
  unfold alloc_ld, fupd. destruct (decide _); [apply zeros_ok|]. destruct (decide _); [by apply set_bit_ok|done].
Qed.
End AllocLd.

(** A block is added to the map. *)
Section Slot.
Context (sb : superblock) (x x' : inode) (ld ld' : Z -> list Z) (b : Z).
Context (G : geom sb) (M : meta_marked sb ld) (F : file_wf sb x ld) (Hf : first_free sb ld b) (Hl : forall y, block_ok (ld y)).
Hypothesis (Ef : x' = x <| i_addrs := i_addrs x' |>) (El : length (i_addrs x') = 13%nat).
Hypothesis (Hdat : forall y, is_data sb y -> y <> ind x -> ld' y = alloc_ld sb b ld y).
Hypothesis (Hmeta : forall y, y < data_start sb -> ld' y = alloc_ld sb b ld y).

Lemma slot_fresh y : owned x ld y -> y <> b.
Proof. intros Ho ->. destruct (ff_data _ _ _ F b Ho) as [_ Ha]. destruct Hf as (_ & Hn & _). congruence. Qed.

Lemma slot_allocated y : 0 <= y < sb_size sb -> allocated sb ld' y = bool_decide (b = y) || allocated sb ld y.
Proof.
  intros Hy. rewrite <- (alloc_ld_allocated sb ld b G M Hf Hl y Hy). unfold allocated. rewrite Hmeta; [done|].
  by apply BBLOCK_range.
Qed.

Lemma slot_meta : meta_marked sb ld'.
Proof. intros y Hy. rewrite slot_allocated; [by rewrite M, orb_true_r|]. destruct G. lia. Qed.

(** The blocks of the file are the old ones and [b], each in one place. *)
Lemma slot_grows :
  (forall y, owned x' ld' y -> owned x ld y \/ y = b) ->
  (forall bn bn', in_file bn -> in_file bn' -> addr_of x' ld' bn <> 0 -> addr_of x' ld' bn = addr_of x' ld' bn' -> bn = bn') ->
  (forall bn, in_file bn -> ind x' <> 0 -> addr_of x' ld' bn <> ind x') ->
  (forall bn, in_file bn -> file_data x' ld' bn = file_data x ld bn) ->
  (forall bn, in_file bn -> addr_of x ld bn <> 0 -> addr_of x' ld' bn = addr_of x ld bn) ->
  (ind x <> 0 -> ind x' = ind x) -> grows sb x ld x' ld'.
Proof.
  intros Ho Hi Hd Hc Ha Hn. pose proof (first_free_data _ _ _ M Hf) as Hb.
  split; try done.
  - apply slot_meta.
  - split; try done.
    + rewrite Ef. apply F.
    + intros y [Hy | ->]%Ho.
      * destruct (ff_data _ _ _ F y Hy) as [Hy1 Hy2]. split; [done|]. rewrite slot_allocated by (pose proof (data_nonneg _ _ G Hy1); lia).
        by rewrite Hy2, orb_true_r.
      * split; [done|]. rewrite slot_allocated by (pose proof (data_nonneg _ _ G Hb); lia). by rewrite bool_decide_eq_true_2.
    + rewrite Ef. apply F.
    + rewrite Ef. change (i_size (x <| i_addrs := i_addrs x' |>)) with (i_size x). intros bn H0 Hs. pose proof (ff_full _ _ _ F bn H0 Hs) as Hfl.
      rewrite <- Ef, Ha; [done| |done]. destruct (ff_size _ _ _ F). unfold in_file in *. fslia.
  - intros y [Hy | ->]%Ho; [by left|right]. apply Hf.
  - intros y Hy Hy'. rewrite slot_allocated by (pose proof (data_nonneg _ _ G Hy); lia). by rewrite Hy', orb_true_r.
  - intros y Hy Hy' Hno. assert (y <> b) as Hyb by (destruct Hf as (_ & ? & _); congruence).
    split; [|by intros [H1|H1]%Ho].
    rewrite Hdat, alloc_ld_data; try done. intros ->. apply Hno. split; [|by left]. pose proof (data_nonneg _ _ G Hy). lia.
  - intros y Hy. rewrite Hmeta, alloc_ld_inodes; try done. pose proof (BBLOCK_range sb b G (proj1 Hf)). lia.
Qed.

Lemma slot_data y : owned x ld y -> y <> ind x -> ld' y = ld y.
Proof.
  intros Hy Hn. destruct (ff_data _ _ _ F y Hy) as [Hd _]. rewrite Hdat, alloc_ld_data; try done. by apply slot_fresh.
Qed.

Lemma addr_owned bn : in_file bn -> addr_of x ld bn <> 0 -> owned x ld (addr_of x ld bn).
Proof. intros H1 H2. split; [done|]. right. by exists bn. Qed.

(** [b] becomes block [n] of the file. *)
Lemma slot_at n : in_file n -> addr_of x ld n = 0 -> ind x' = ind x ->
  (forall m, in_file m -> addr_of x' ld' m = if decide (m = n) then b else addr_of x ld m) ->
  ld' b = zeros -> grows sb x ld x' ld'.
Proof.
  intros Hn Hz Ei Ha Eb. pose proof (data_nonneg _ _ G (first_free_data _ _ _ M Hf)) as Hb.
  assert (forall m, in_file m -> addr_of x ld m <> 0 -> addr_of x ld m <> b) as Hfr.
  { intros m Hm H0. by apply slot_fresh, addr_owned. }
  assert (ind x <> 0 -> ind x <> b) as Hif by (intros H0; apply slot_fresh; split; [done|by left]).
  apply slot_grows.
  - intros y [Hy [->|(m & Hm & <-)]]; [rewrite Ei in *; left; split; [done|by left]|].
    rewrite Ha in * by done. destruct (decide _); [by right|]. left. by apply addr_owned.
  - intros m m' Hm Hm' H0 E. rewrite !Ha in * by done. destruct (decide (m = n)) as [->|], (decide (m' = n)) as [->|]; [done|..].
    + exfalso. apply (Hfr m' Hm'); congruence.
    + exfalso. by apply (Hfr m Hm).
    + by apply (ff_inj _ _ _ F).
  - intros m Hm H0. rewrite Ei, Ha in * by done. destruct (decide _); [by apply not_eq_sym, Hif|]. by apply F.
  - intros m Hm. unfold file_data. rewrite Ha by done. destruct (decide _) as [->|].
    + rewrite Hz, Eb. by destruct (b =? 0).
    + destruct (Z.eqb_spec (addr_of x ld m) 0); [done|]. apply slot_data; [by apply addr_owned|].
      destruct (decide (ind x = 0)); [congruence|]. by apply F.
  - intros m Hm H0. rewrite Ha by done. destruct (decide _) as [->|]; done.
  - done.
Qed.

(** [b] becomes the indirect block. *)
Lemma slot_ind : ind x = 0 -> ind x' = b ->
  (forall m, in_file m -> addr_of x' ld' m = addr_of x ld m) -> grows sb x ld x' ld'.
Proof.
  intros Hz Ei Ha. pose proof (data_nonneg _ _ G (first_free_data _ _ _ M Hf)) as Hb.
  apply slot_grows.
  - intros y [Hy [->|(m & Hm & <-)]]; [by right|]. rewrite Ha in * by done. left. by apply addr_owned.
  - intros m m' Hm Hm' H0 E. rewrite !Ha in * by done. by apply (ff_inj _ _ _ F).
  - intros m Hm H0. rewrite Ha, Ei by done. destruct (decide (addr_of x ld m = 0)); [lia|]. by apply slot_fresh, addr_owned.
  - intros m Hm. unfold file_data. rewrite Ha by done. destruct (Z.eqb_spec (addr_of x ld m) 0); [done|].
    apply slot_data; [by apply addr_owned|congruence].
  - intros m Hm H0. by rewrite Ha.
  - done.
Qed.
End Slot.

(** The three places [bmap] puts a block in. *)
Section Places.
Context (sb : superblock) (x : inode) (ld : Z -> list Z) (b : Z).
Context (G : geom sb) (M : meta_marked sb ld) (F : file_wf sb x ld) (Hf : first_free sb ld b) (Hl : forall y, block_ok (ld y)).

Lemma ind_owned : ind x <> 0 -> owned x ld (ind x).
Proof. intros H. split; [done|by left]. Qed.

Lemma alloc_ld_ind : ind x <> 0 -> alloc_ld sb b ld (ind x) = ld (ind x).
Proof.
  intros H. pose proof (ff_data _ _ _ F _ (ind_owned H)) as [Hd _]. apply alloc_ld_data; [done|done|done|].
  by eapply slot_fresh; [..|apply ind_owned].
Qed.

Lemma grows_direct n : 0 <= n < NDIRECT -> addr_of x ld n = 0 ->
  grows sb x ld (x <| i_addrs ::= aset n b |>) (alloc_ld sb b ld) /\
  addr_of (x <| i_addrs ::= aset n b |>) (alloc_ld sb b ld) n = b.
Proof.
  intros Hn Hz. set (x' := x <| i_addrs ::= aset n b |>).
  assert (i_addrs x' = aset n b (i_addrs x)) as Ex by done. pose proof (ff_len _ _ _ F) as Hlen.
  assert (ind x' = ind x) as Ei. { unfold ind. rewrite Ex, aget_aset by fslia. rewrite decide_False; [done|]. fslia. }
  assert (forall m, in_file m -> addr_of x' (alloc_ld sb b ld) m = if decide (m = n) then b else addr_of x ld m) as Ha.
  { intros m Hm. unfold addr_of. rewrite Ei, Ex. destruct (Z.ltb_spec m NDIRECT).
    - rewrite aget_aset by (unfold in_file in *; fslia). destruct (decide (m = n)), (decide (n = m)); try done; congruence.
    - rewrite decide_False by lia. destruct (Z.eqb_spec (ind x) 0); [done|]. by rewrite alloc_ld_ind. }
  split; [|rewrite Ha, decide_True; [done|done|]; unfold in_file in *; fslia].
  apply (slot_at sb x x' ld _ b G M F Hf Hl) with n; try done; try (rewrite Ex; unfold aset; by rewrite length_insert).
  - unfold in_file in *. fslia.
  - apply alloc_ld_eq.
Qed.

Lemma grows_ind : ind x = 0 ->
  grows sb x ld (x <| i_addrs ::= aset NDIRECT b |>) (alloc_ld sb b ld) /\ ind (x <| i_addrs ::= aset NDIRECT b |>) = b.
Proof.
  intros Hz. set (x' := x <| i_addrs ::= aset NDIRECT b |>).
  assert (i_addrs x' = aset NDIRECT b (i_addrs x)) as Ex by done. pose proof (ff_len _ _ _ F) as Hlen.
  assert (ind x' = b) as Ei. { unfold ind. rewrite Ex, aget_aset by fslia. by rewrite decide_True. }
  split; [|done]. apply (slot_ind sb x x' ld _ b G M F Hf Hl); try done; [rewrite Ex; unfold aset; by rewrite length_insert|].
  intros m Hm. unfold addr_of. rewrite Ei, Ex, Hz, alloc_ld_eq. destruct (Z.ltb_spec m NDIRECT).
  - rewrite aget_aset by (unfold in_file in *; fslia). by rewrite decide_False by lia.
  - cbn [Z.eqb]. destruct (b =? 0); [done|]. unfold getw, slice, zeros. rewrite drop_replicate, take_replicate.
    apply le_val_zeros.
Qed.

Lemma grows_indirect n : NDIRECT <= n < MAXFILE -> ind x <> 0 -> addr_of x ld n = 0 ->
  let ld' := fupd (ind x) (putw 4 (4 * Z.to_nat (n - NDIRECT)) b (alloc_ld sb b ld (ind x))) (alloc_ld sb b ld) in
  grows sb x ld x ld' /\ addr_of x ld' n = b.
Proof.
  intros Hn Hi Hz ld'. pose proof (ff_data _ _ _ F _ (ind_owned Hi)) as [Hd _].
  pose proof (data_nonneg _ _ G (first_free_data _ _ _ M Hf)) as Hb. destruct G as [G1 G2 G3 G4 G5].
  assert (length (ld (ind x)) = 1024%nat) as Hlen by apply Hl.
  assert (forall m, in_file m -> addr_of x ld' m = if decide (m = n) then b else addr_of x ld m) as Ha.
  { intros m Hm. unfold in_file, addr_of, ld' in *. destruct (Z.ltb_spec m NDIRECT); [by rewrite decide_False by lia|].
    rewrite (proj2 (Z.eqb_neq _ _) Hi), fupd_eq, alloc_ld_ind by done.
    change MAXFILE with 268 in *. change NDIRECT with 12 in *. destruct (decide (m = n)) as [->|Hmn].
    - rewrite getw_putw_eq by lia. apply Z.mod_small. change (256 ^ Z.of_nat 4) with (2 ^ 32). lia.
    - rewrite getw_putw_ne by lia. done. }
  assert (in_file n) as Hin by (unfold in_file in *; fslia).
  split; [|by rewrite Ha, decide_True].
  apply (slot_at sb x x ld _ b ltac:(done) M F Hf Hl) with n; try done; try (by destruct x); try apply F.
  - intros y Hy Hyi. unfold ld'. by rewrite fupd_ne.
  - intros y Hy. unfold ld'. rewrite fupd_ne; [done|]. destruct Hd. lia.
  - unfold ld'. rewrite fupd_ne, alloc_ld_eq; [done|]. intros E.
    by apply (slot_fresh sb x ld b F Hf (ind x) (ind_owned Hi)).
Qed.
End Places.
