(* ===== verification/FsBmap.v ===== *)
(** * From file blocks to disk blocks (bmap of kernel/fs.c)

    [bmap] returns the disk block of a file block and allocates it, and the
    indirect block, where they are missing. *)

From Stdlib Require Import ZArith Lia.
From stdpp Require Import base list strings sets.
From S2P Require Import Prelude Params Mem State Evict Kalloc Vm Sched SchedSpec SchedProps.
From S2P Require Import Sleeplock Printf Bio BioSpec BioLaws Log FsInv LogSpec LogTheorems Fs FsAlloc FsFile.

(** Every block is in use. *)
Definition full (sb : superblock) (ld : Z -> list Z) : Prop := forall c, 0 <= c < sb_size sb -> allocated sb ld c = true.

Section Bmap.
Context {L : Layout} {I : Interference} {D : Disk} {DO : DiskOk D} {p : nat}.
Local Abbreviation view := (@view D p).

(** ** States that differ in one inode *)
Lemma alter_insert {A} (f : A -> A) i (l : list A) x : l !! i = Some x -> alter f i l = <[i := f x]> l.
Proof.
  intros H. apply list_eq. intros j. destruct (decide (i = j)) as [->|].
  - rewrite list_lookup_alter_eq, H, list_lookup_insert_eq; [done|]. by eapply lookup_lt_Some.
  - by rewrite list_lookup_alter_ne, list_lookup_insert_ne.
Qed.

Definition still (ip : nat) (x' : inode) (k k' : kernel) : Prop :=
  k_inodes k' = <[ip := x']> (k_inodes k) /\ quiet (k <| k_inodes := k_inodes k' |>) k'.

Lemma still_lookup ip x x' k k' : k_inodes k !! ip = Some x -> still ip x' k k' -> k_inodes k' !! ip = Some x'.
Proof. intros H [-> _]. apply list_lookup_insert_eq. by eapply lookup_lt_Some. Qed.

Lemma quiet_still ip x k k' : k_inodes k !! ip = Some x -> quiet k k' -> still ip x k k'.
Proof.
  intros H Hq. rewrite <- (quiet_inodes _ _ Hq) in H. split.
  - rewrite <- (quiet_inodes _ _ Hq). by rewrite list_insert_id.
  - rewrite (quiet_inodes _ _ Hq). etransitivity; [|exact Hq].
    match goal with |- quiet ?x ?y => replace x with y; [reflexivity|kext] end.
Qed.

Lemma still_trans ip x1 x2 k k1 k2 : still ip x1 k k1 -> still ip x2 k1 k2 -> still ip x2 k k2.
Proof.
  intros [E1 Q1] [E2 Q2]. split; [by rewrite E2, E1, list_insert_insert_eq|].
  apply (quiet_set_inodes (fun _ => k_inodes k2)) in Q1. etransitivity; [|exact Q2]. etransitivity; [|exact Q1].
  match goal with |- quiet ?x ?y => replace x with y; [reflexivity|kext] end.
Qed.

Lemma still_sb ip x' k k' : still ip x' k k' -> k_sb k' = k_sb k.
Proof. intros [_ Q]. rewrite (quiet_sb _ _ Q). by kproj. Qed.

Lemma still_updi ip x f k : k_inodes k !! ip = Some x -> still ip (f x) k (k <| k_inodes ::= alter f ip |>).
Proof.
  intros H. split; [kproj|match goal with |- quiet ?x ?y => replace x with y; [reflexivity|kext] end].
  by apply alter_insert.
Qed.

(** The file system has one bitmap block; [lg0] is the log when the operation
    began. *)
Context (sb : superblock) (G : geom sb) (Hone : sb_size sb <= BPB) (lg0 : loginfo) (W0 : log_wf lg0).

Lemma view_log o ld k : view o ld k -> log_wf (k_log k).
Proof. intros [[_ H] _ _]. exact H. Qed.

Lemma one_bitmap c : 0 <= c < sb_size sb -> BBLOCK c sb = sb_bmapstart sb.
Proof. intros H. unfold BBLOCK. rewrite Z.div_small by lia. lia. Qed.

Lemma balloc_spent o ld k ws Q :
  view o ld k -> k_sb k = sb -> meta_marked sb ld -> open_data sb ld o -> (length o <= 1)%nat ->
  spent lg0 ws (k_log k) -> sb_bmapstart sb ∈ ws -> room (Z.of_nat (length ws)) lg0 ->
  (forall b k', first_free sb ld b -> view o (alloc_ld sb b ld) k' -> quiet k k' -> spent lg0 (b :: ws) (k_log k') -> Q b k') ->
  (forall k', full sb ld -> view o ld k' -> quiet k k' -> spent lg0 ws (k_log k') -> Q 0 k') ->
  wp (balloc ROOTDEV) Q k.
Proof.
  intros V Hsb M Od Ho Hs Hb Hr HS HN. pose proof (view_log _ _ _ V) as W.
  pose proof (spent_room _ _ _ Hs W0 W Hr) as R0. assert (l_n (k_log k) < LOGBLOCKS) as Hlt by (destruct R0; change LOGBLOCKS with NBUF; lia).
  assert (forall b, first_free sb ld b -> spent lg0 ws (log_add (BBLOCK b sb) (k_log k)) /\
    log_wf (log_add (BBLOCK b sb) (k_log k)) /\ room 0 (log_add (BBLOCK b sb) (k_log k))) as Hadd.
  { intros b (Hf & _). assert (spent lg0 ws (log_add (BBLOCK b sb) (k_log k))) as H by (rewrite one_bitmap by done; by apply spent_add).
    assert (log_wf (log_add (BBLOCK b sb) (k_log k))) by (apply log_add_wf; [done|done|by apply BBLOCK_ok]).
    split; [done|]. split; [done|]. by eapply spent_room. }
  apply (balloc_wp (p := p) sb o ld k Q); try done.
  - intros b Hf. by apply Hadd.
  - intros b k' Hf V' Q' E. apply HS; try done. rewrite E. cbn [log_adds foldl]. destruct (Hadd b Hf) as (H1 & H2 & [H3 _]).
    apply spent_add; [eapply spent_mono; [exact H1|set_solver]|done|change LOGBLOCKS with NBUF; lia|set_solver].
  - intros k' Hf V' Q' E. apply HN; try done. by rewrite E.
Qed.

(** ** The state of an operation on file [ip] *)

(** The blocks allocation logs besides the one it returns. *)
Definition touch (x : inode) : list Z := sb_bmapstart sb :: if ind x =? 0 then [] else [ind x].

(** The file is [x] on the disk [ld], and the operation has logged blocks of
    [touch x ++ ds]. *)
Record fileop (o : list (nat * Z)) (ip : nat) (x : inode) (ld : Z -> list Z) (ds : list Z) (k : kernel) : Prop := {
  fo_view : view o ld k;
  fo_sb : k_sb k = sb;
  fo_inode : k_inodes k !! ip = Some x;
  fo_meta : meta_marked sb ld;
  fo_wf : file_wf sb x ld;
  fo_spent : spent lg0 (touch x ++ ds) (k_log k)
}.

Lemma fileop_geti o ip x ld ds k Q : fileop o ip x ld ds k -> Q x k -> wp (geti ip) Q k.
Proof. intros H HQ. unfold geti. wp_steps. by rewrite (list_lookup_total_correct _ _ _ (fo_inode _ _ _ _ _ _ H)). Qed.

Lemma fileop_quiet o ip x ld ds k k' : fileop o ip x ld ds k -> quiet k k' -> k_log k' = k_log k ->
  forall o', view o' ld k' -> fileop o' ip x ld ds k'.
Proof.
  intros [V S N M F P] Q E o' V'. split; try done.
  - by rewrite (quiet_sb _ _ Q).
  - by rewrite (quiet_inodes _ _ Q).
  - by rewrite E.
Qed.

Lemma fileop_block o ip x ld ds k y : fileop o ip x ld ds k -> block_ok (ld y).
Proof. intros [V _ _ _ _ _]. by eapply view_block. Qed.

(** What [bmap] leaves: block [r] of the file. *)
Record mapped (ip : nat) (x : inode) (ld : Z -> list Z) (ds : list Z) (k : kernel) (bn r : Z)
    (x' : inode) (ld' : Z -> list Z) (k' : kernel) : Prop := {
  mp_op : fileop [] ip x' ld' (r :: ds) k';
  mp_still : still ip x' k k';
  mp_grows : grows sb x ld x' ld';
  mp_addr : addr_of x' ld' bn = r;
  mp_full : r = 0 -> full sb ld'
}.

Lemma touch_length x : (length (touch x) <= 2)%nat.
Proof. unfold touch. destruct (_ =? _); cbn; lia. Qed.

Lemma fileop_mono o ip x ld ds ds' k : fileop o ip x ld ds k -> ds ⊆ ds' -> fileop o ip x ld ds' k.
Proof. intros [V S N M F P] Hs. split; try done. eapply spent_mono; [exact P|]. set_solver. Qed.

(** An allocation that puts the block in the inode. *)
Lemma fileop_addr ip x ld ds ds' k b n k' :
  fileop [] ip x ld ds k -> view [] (alloc_ld sb b ld) k' -> quiet k k' -> spent lg0 (b :: touch x ++ ds) (k_log k') ->
  grows sb x ld (x <| i_addrs ::= aset n b |>) (alloc_ld sb b ld) ->
  b :: touch x ++ ds ⊆ touch (x <| i_addrs ::= aset n b |>) ++ ds' ->
  let k2 := k' <| k_inodes ::= alter (set i_addrs (aset n b)) ip |> in
  fileop [] ip (x <| i_addrs ::= aset n b |>) (alloc_ld sb b ld) ds' k2 /\ still ip (x <| i_addrs ::= aset n b |>) k k2.
Proof.
  intros [V S N M F P] V' Q' P' Hg Hs k2.
  pose proof (quiet_still _ _ _ _ N Q') as St. pose proof (still_lookup _ _ _ _ _ N St) as N'.
  split; [|by eapply still_trans, (still_updi ip x (set i_addrs (aset n b)))].
  unfold k2. split; try apply Hg; kproj.
  - by apply view_set_inodes.
  - by rewrite (quiet_sb _ _ Q').
  - erewrite alter_insert by exact N'. apply list_lookup_insert_eq. by eapply lookup_lt_Some.
  - by eapply spent_mono.
Qed.

Lemma bmap_direct_wp ip x ld ds k bn Q :
  fileop [] ip x ld ds k -> 0 <= bn < NDIRECT -> room (3 + Z.of_nat (length ds)) lg0 ->
  (forall r x' ld' k', mapped ip x ld ds k bn r x' ld' k' -> Q r k') -> wp (bmap ip bn) Q k.
Proof.
  intros H Hbn Hr HQ. pose proof H as [V S N M F P]. unfold bmap. wp_step. apply (fileop_geti _ _ _ _ _ _ _ H).
  rewrite (proj2 (Z.ltb_lt bn NDIRECT)) by lia.
  assert (aget (i_addrs x) bn = addr_of x ld bn) as -> by (unfold addr_of; by rewrite (proj2 (Z.ltb_lt bn NDIRECT)) by lia).
  destruct (Z.eqb_spec (addr_of x ld bn) 0) as [Hz|Hz].
  - wp_step. rewrite (ff_dev _ _ _ F). pose proof (touch_length x) as Ht.
    apply (balloc_spent [] ld k (touch x ++ ds)); try done; [by intros y Hy%elem_of_nil|cbn; lia|unfold touch; set_solver|..].
    { eapply room_le; [|exact Hr]. rewrite length_app. lia. }
    + intros b k' Hf V' Q' P'. pose proof (data_nonneg _ _ G (first_free_data _ _ _ M Hf)) as Hb.
      rewrite (proj2 (Z.eqb_neq b 0)) by lia. unfold updi. wp_steps.
      destruct (grows_direct sb x ld b G M F Hf (fun y => view_block _ _ _ y V) bn Hbn Hz) as [Hg Ha].
      destruct (fileop_addr ip x ld ds (b :: ds) k b bn k') as [Ho Hs]; try done.
      { unfold touch. assert (ind (x <| i_addrs ::= aset bn b |>) = ind x) as ->; [|set_solver].
        unfold ind. change (i_addrs (x <| i_addrs ::= aset bn b |>)) with (aset bn b (i_addrs x)).
        rewrite aget_aset by (pose proof (ff_len _ _ _ F); fslia). rewrite decide_False by fslia. done. }
      eapply HQ. split; [exact Ho|exact Hs|exact Hg|exact Ha|lia].
    + intros k' Hf V' Q' P'. cbn [Z.eqb]. wp_steps. apply (HQ 0 x ld). split; [|by apply quiet_still|by apply grows_refl|done|done].
      split; try done; [by rewrite (quiet_sb _ _ Q')|by rewrite (quiet_inodes _ _ Q')|]. eapply spent_mono; [exact P'|set_solver].
  - wp_steps. apply (HQ _ x ld). split; [|by apply quiet_still|by apply grows_refl|done|done].
    split; try done. eapply spent_mono; [exact P|set_solver].
Qed.

(** The indirect block, allocated if there is none. *)
Lemma ind_block_wp ip x ld ds k Q :
  fileop [] ip x ld ds k -> room (3 + Z.of_nat (length ds)) lg0 ->
  (forall x' ld' k', fileop [] ip x' ld' ds k' -> still ip x' k k' -> grows sb x ld x' ld' -> ind x' <> 0 -> Q (ind x') k') ->
  (forall k', fileop [] ip x ld ds k' -> still ip x k k' -> full sb ld -> ind x = 0 -> Q 0 k') ->
  wp (if ind x =? 0 then
        let! addr := balloc (i_dev x) in
        if addr =? 0 then ret 0
        else do! updi ip (set i_addrs (aset NDIRECT addr)); ret addr
      else ret (ind x)) Q k.
Proof.
  intros H Hr HS HN. pose proof H as [V S N M F P]. destruct (Z.eqb_spec (ind x) 0) as [Hz|Hz].
  - wp_step. rewrite (ff_dev _ _ _ F). pose proof (touch_length x) as Ht.
    apply (balloc_spent [] ld k (touch x ++ ds)); try done; [by intros y Hy%elem_of_nil|cbn; lia|unfold touch; set_solver|..].
    { eapply room_le; [|exact Hr]. rewrite length_app. lia. }
    + intros b k' Hf V' Q' P'. pose proof (data_nonneg _ _ G (first_free_data _ _ _ M Hf)) as Hb.
      rewrite (proj2 (Z.eqb_neq b 0)) by lia. unfold updi. wp_steps.
      destruct (grows_ind sb x ld b G M F Hf (fun y => view_block _ _ _ y V) Hz) as [Hg Ha].
      destruct (fileop_addr ip x ld ds ds k b NDIRECT k') as [Ho Hs]; try done.
      { unfold touch. rewrite Ha, Hz, (proj2 (Z.eqb_neq b 0)) by lia. set_solver. }
      rewrite <- Ha at 1. eapply HS; [exact Ho|done|done|lia].
    + intros k' Hf V' Q' P'. cbn [Z.eqb]. wp_steps. apply HN; [|by apply quiet_still|done|done].
      split; try done; [by rewrite (quiet_sb _ _ Q')|by rewrite (quiet_inodes _ _ Q')].
  - wp_steps. apply (HS x ld); [done|by apply quiet_still|by apply grows_refl|done].
Qed.

Lemma fileop_room o ip x ld ds k : fileop o ip x ld ds k -> room (2 + Z.of_nat (length ds)) lg0 -> room 0 (k_log k).
Proof.
  intros [V S N M F P] Hr. pose proof (touch_length x). apply (spent_room _ _ _ P W0 (view_log _ _ _ V)).
  eapply room_le; [|exact Hr]. rewrite length_app. lia.
Qed.

(** An entry of the indirect block. *)
Lemma bmap_entry_wp ip x ld ds k bn Q :
  fileop [] ip x ld ds k -> NDIRECT <= bn < MAXFILE -> ind x <> 0 -> room (3 + Z.of_nat (length ds)) lg0 ->
  (forall r x' ld' k', mapped ip x ld ds k bn r x' ld' k' -> Q r k') ->
  wp (let! bp := bread ROOTDEV (ind x) in
      let! addr := get_indirect bp (bn - NDIRECT) in
      let! addr :=
        if addr =? 0 then
          let! addr := balloc ROOTDEV in
          do! when (negb (addr =? 0))
            (do! updb bp (set b_data (putw 4 (4 * Z.to_nat (bn - NDIRECT)) addr)); log_write bp);
          ret addr
        else ret addr in
      do! brelse bp;
      ret addr) Q k.
Proof.
  intros H Hbn Hi Hr HQ. pose proof H as [V S N M F P].
  destruct (ff_data _ _ _ F _ (ind_owned x ld Hi)) as [Hd Ha]. pose proof (data_blockno _ _ G Hd) as Hbi.
  assert (room 0 (k_log k)) as R by (eapply fileop_room; [exact H|eapply room_le; [|exact Hr]; lia]).
  wp_step. apply (open_block (p := p) [] ld); [done|done|apply not_elem_of_nil|destruct R; cbn; lia|].
  intros bp k1 V1 Q1 L1 Hdat. unfold get_indirect, getb. wp_steps. rewrite Hdat.
  pose proof (fileop_quiet _ _ _ _ _ _ _ H Q1 L1 _ V1) as H1. rewrite <- L1 in R.
  assert (getw 4 (4 * Z.to_nat (bn - NDIRECT)) (ld (ind x)) = addr_of x ld bn) as ->.
  { unfold addr_of. rewrite (proj2 (Z.ltb_ge bn NDIRECT)) by lia. by rewrite (proj2 (Z.eqb_neq (ind x) 0)). }
  destruct (Z.eqb_spec (addr_of x ld bn) 0) as [Hz|Hz]; wp_step.
  - pose proof (touch_length x) as Ht. pose proof H1 as [_ S1 N1 _ _ P1].
    apply (balloc_spent [(bp, ind x)] ld k1 (touch x ++ ds)); try done; [by intros y ->%list_elem_of_singleton|unfold touch; set_solver|..].
    { eapply room_le; [|exact Hr]. rewrite length_app. lia. }
    + intros b k2 Hf V2 Q2 P2. pose proof (data_nonneg _ _ G (first_free_data _ _ _ M Hf)) as Hb.
      rewrite (proj2 (Z.eqb_neq b 0)) by lia. cbn [negb when]. wp_step.
      assert (room 0 (k_log k2)) as R2.
      { apply (spent_room _ _ _ P2 W0 (view_log _ _ _ V2)). eapply room_le; [|exact Hr]. cbn [length]. rewrite length_app. lia. }
      destruct (grows_indirect sb x ld b G M F Hf (fun y => view_block _ _ _ y V) bn Hbn Hi Hz) as [Hg Ha'].
      eapply (write_block (p := p) [(bp, ind x)] _ k2 bp (ind x)); [exact V2|by left| |done|].
      { apply putw_block_ok; [change (Z.to_nat BSIZE) with 1024%nat; fslia|by eapply view_block]. }
      intros k3 V3 Q3 L3. wp_steps. apply (close_block _ _ _ _ _ _ V3). intros k4 V4 Q4 L4. wp_steps.
      assert (quiet k k4) as QQ by (etransitivity; [exact Q1|]; etransitivity; [exact Q2|]; by etransitivity).
      eapply HQ. split; [|by apply quiet_still|exact Hg|exact Ha'|lia].
      split; try apply Hg; try done; [by rewrite (quiet_sb _ _ QQ)|by rewrite (quiet_inodes _ _ QQ)|].
      rewrite L4, L3. apply spent_add; [eapply spent_mono; [exact P2|set_solver]|by eapply view_log|destruct R2; change LOGBLOCKS with NBUF; lia|].
      unfold touch. rewrite (proj2 (Z.eqb_neq (ind x) 0)) by done. set_solver.
    + intros k2 Hf V2 Q2 P2. cbn [Z.eqb negb when]. wp_steps. apply (close_block _ _ _ _ _ _ V2). intros k3 V3 Q3 L3. wp_steps.
      assert (quiet k k3) as QQ by (etransitivity; [exact Q1|]; by etransitivity).
      apply (HQ 0 x ld). split; [|by apply quiet_still|by apply grows_refl|done|done].
      split; try done; [by rewrite (quiet_sb _ _ QQ)|by rewrite (quiet_inodes _ _ QQ)|]. rewrite L3. eapply spent_mono; [exact P2|set_solver].
  - wp_steps. apply (close_block _ _ _ _ _ _ V1). intros k2 V2 Q2 L2. wp_steps.
    apply (HQ _ x ld). split; [|apply quiet_still; [done|by etransitivity]|by apply grows_refl|done|done].
    eapply fileop_mono; [|apply list_subseteq_cons, reflexivity]. eapply fileop_quiet; [exact H1|done|done|done].
Qed.

Lemma bmap_wp ip x ld ds k bn Q :
  fileop [] ip x ld ds k -> in_file bn -> room (3 + Z.of_nat (length ds)) lg0 ->
  (forall r x' ld' k', mapped ip x ld ds k bn r x' ld' k' -> Q r k') -> wp (bmap ip bn) Q k.
Proof.
  intros H Hbn Hr HQ. destruct (Z_lt_le_dec bn NDIRECT) as [Hlt|Hge].
  { eapply bmap_direct_wp; [exact H| |done|exact HQ]. unfold in_file in Hbn. lia. }
  pose proof H as [V S N M F P]. unfold bmap. wp_step. apply (fileop_geti _ _ _ _ _ _ _ H).
  rewrite (proj2 (Z.ltb_ge bn NDIRECT)), (proj2 (Z.ltb_lt (bn - NDIRECT) NINDIRECT)) by (unfold in_file in Hbn; fslia).
  cbv zeta. wp_step. fold (ind x). apply (ind_block_wp ip x ld ds k); [done|done|..].
  - intros x1 ld1 k1 H1 St1 Hg1 Hi. rewrite (proj2 (Z.eqb_neq (ind x1) 0)) by done. rewrite (ff_dev _ _ _ F).
    apply (bmap_entry_wp ip x1 ld1 ds k1 bn); [done|unfold in_file in Hbn; lia|done|done|].
    intros r x2 ld2 k2 [O2 St2 Hg2 A2 F2]. eapply HQ. split; [exact O2|by eapply still_trans|by eapply grows_trans|done|done].
  - intros k1 H1 St1 Hf Hi. cbn [Z.eqb]. wp_steps. apply (HQ 0 x ld). split; [|done|by apply grows_refl| |done].
    + eapply fileop_mono; [exact H1|]. apply list_subseteq_cons, reflexivity.
    + unfold addr_of. by rewrite (proj2 (Z.ltb_ge bn NDIRECT)), Hi by lia.
Qed.
End Bmap.

(** ** Reading
    A block below the size is there, and [bmap] only looks it up. *)
Section Lookup.
Context {L : Layout} {I : Interference} {D : Disk} {DO : DiskOk D} {p : nat}.
Local Abbreviation view := (@view D p).

Lemma bmap_lookup_wp sb ip x ld k bn Q :
  view [] ld k -> geom sb -> file_wf sb x ld -> k_inodes k !! ip = Some x -> in_file bn -> addr_of x ld bn <> 0 ->
  l_n (k_log k) < NBUF ->
  (forall k', view [] ld k' -> quiet k k' -> k_log k' = k_log k -> Q (addr_of x ld bn) k') -> wp (bmap ip bn) Q k.
Proof.
  intros V G F N Hbn Hz Hn HQ. unfold bmap, geti. wp_steps. rewrite (list_lookup_total_correct _ _ _ N).
  destruct (Z.ltb_spec bn NDIRECT) as [Hlt|Hge].
  - assert (aget (i_addrs x) bn = addr_of x ld bn) as -> by (unfold addr_of; by rewrite (proj2 (Z.ltb_lt bn NDIRECT)) by lia).
    rewrite (proj2 (Z.eqb_neq _ 0)) by done. wp_steps. by apply HQ.
  - rewrite (proj2 (Z.ltb_lt (bn - NDIRECT) NINDIRECT)) by (unfold in_file in Hbn; fslia). fold (ind x).
    assert (ind x <> 0 /\ getw 4 (4 * Z.to_nat (bn - NDIRECT)) (ld (ind x)) = addr_of x ld bn) as [Hi Ha].
    { unfold addr_of in *. rewrite (proj2 (Z.ltb_ge bn NDIRECT)) in * by lia. by destruct (Z.eqb_spec (ind x) 0). }
    rewrite (proj2 (Z.eqb_neq (ind x) 0)) by done. wp_steps. rewrite (proj2 (Z.eqb_neq (ind x) 0)) by done.
    destruct (ff_data _ _ _ F _ (ind_owned x ld Hi)) as [Hd _]. rewrite (ff_dev _ _ _ F). wp_step.
    apply (open_block (p := p) [] ld); [done|by eapply data_blockno|apply not_elem_of_nil|cbn; lia|].
    intros bp k1 V1 Q1 L1 Hdat. unfold get_indirect, getb. wp_steps. rewrite Hdat, Ha.
    rewrite (proj2 (Z.eqb_neq _ 0)) by done. wp_steps. apply (close_block _ _ _ _ _ _ V1). intros k2 V2 Q2 L2. wp_steps.
    apply HQ; [done|by etransitivity|by rewrite L2].
Qed.
End Lookup.
