(* ===== verification/FsSource.v ===== *)
(** * The source of a write to a file

    [writei] of kernel/fs.c copies from the kernel or from the memory of the
    running process.  What the file system relies on is an interface,
    [source]; a list of bytes and a readable range of user memory implement
    it. *)

From Stdlib Require Import ZArith Lia.
From stdpp Require Import base list strings sets.
From S2P Require Import Prelude Params Mem State Evict Kalloc Vm VmInv VmFault UserMem VmSpace MemFrame Sched SchedSpec SchedProps.
From S2P Require Import Sleeplock Printf Bio BioSpec BioLaws Log FsInv LogSpec LogTheorems Fs FsAlloc FsFile FsBmap.

(** ** User memory that can be read *)

Section Readable.
Context {L : Layout} {LO : LayoutOk L}.

(** The running process [p] has the bytes [bs] at [va], in pages it may
    access, in RAM or swapped out; a page can be evicted to bring one back. *)
Record readable (use0 : Z -> usage) (p : nat) (r va : Z) (bs : list Z) (k : kernel) : Prop := {
  rd_ctx : uctx use0 p r k;
  rd_swap : own_swap p k;
  rd_pos : 0 <= va;
  rd_sz : va + Z.of_nat (length bs) <= p_sz (k_procs k !!! p);
  rd_max : va + Z.of_nat (length bs) <= MAXVA;
  rd_acc i : 0 <= i < Z.of_nat (length bs) -> accessible (k_mem k) r (va + i) PTE_U;
  rd_bytes : bs = ubytes (k_mem k) r va (length bs)
}.

(** A part of the range is copied, and the rest can still be read. *)
Lemma readable_copy use0 p r va bs k m : readable use0 p r va bs k -> 0 <= m <= Z.of_nat (length bs) ->
  wp (copyin r va m) (fun res k' => res = (0, take (Z.to_nat m) bs) /\
    readable use0 p r (u64 (va + m)) (drop (Z.to_nat m) bs) k' /\ calm k k' /\ same_views use0 (k_mem k) (k_mem k')) k.
Proof.
  intros [U W P Sz Mx A B] Hm. unfold copyin. pose proof (uc_root _ _ _ _ U) as Hr.
  eapply wp_mono; [apply (copyin_loop_own use0 p r _ k va m U); [lia|lia|lia|lia|lia|intros i Hi; apply A; lia]|].
  cbv beta. intros res k' (U' & C & S & W' & ->).
  assert (bs = ubytes (k_mem k) r va (Z.to_nat m) ++ ubytes (k_mem k) r (va + m) (length bs - Z.to_nat m)) as E.
  { rewrite B at 1. replace (length bs) with (Z.to_nat m + (length bs - Z.to_nat m))%nat at 1 by lia.
    rewrite ubytes_app. by rewrite Z2Nat.id by lia. }
  assert (length (drop (Z.to_nat m) bs) = length bs - Z.to_nat m)%nat as El by (by rewrite length_drop).
  rewrite u64_id by (change MAXVA with 274877906944 in *; lia).
  split; [|split; [|done]].
  - rewrite E. by rewrite take_app_length' by (by rewrite length_ubytes).
  - split; rewrite ?El; [done|by apply W'|lia|rewrite (cm_sz _ _ C); lia|lia| |].
    + intros i Hi. eapply accessible_same; [done|done|lia|]. rewrite <- Z.add_assoc. apply A. lia.
    + rewrite (ubytes_same _ _ _ _ _ _ S Hr) by lia. rewrite E at 1. by rewrite drop_app_length' by (by rewrite length_ubytes).
Qed.

(** What a range depends on. *)
Lemma readable_ext use0 p r va bs k k' : readable use0 p r va bs k ->
  k_mem k' = k_mem k -> k_freelist k' = k_freelist k -> k_swap_mask k' = k_swap_mask k -> k_frames k' = k_frames k ->
  k_clock_p k' = k_clock_p k -> k_held k' = k_held k -> k_cur k' = k_cur k ->
  (forall q, p_pagetable (k_procs k' !!! q) = p_pagetable (k_procs k !!! q)) ->
  p_sz (k_procs k' !!! p) = p_sz (k_procs k !!! p) -> readable use0 p r va bs k'.
Proof.
  intros [[(use & slot & Wf & Htab) Hr Ul C T Sw] W P Sz Mx A B] Em Ef Es Efr Ec Eh Ecu Ept Esz.
  assert (own_swap p k') as W' by (revert W; unfold own_swap, frame_at, slot_free; by rewrite Efr, Es).
  split; try done; rewrite ?Em, ?Esz; try done. split; try done.
  - exists use, slot. split; [|done]. by apply (vm_wf_ext use slot k).
  - unfold vm_unlocked. by rewrite Eh.
  - by rewrite Ecu.
  - by rewrite Ept.
  - apply (own_can_swap p); [by rewrite Ecu|done].
Qed.
End Readable.

(** ** Copies do not disturb the file system *)
Section Mem.
Context {D : Disk} {p : nat}.

Lemma same_stats_fields x y : same_stats x y -> p_qlevel y = p_qlevel x /\ p_pid y = p_pid x.
Proof. intros ->. by destruct x. Qed.

Lemma thread_mem k k' : thread p k -> mem_only k k' -> k_held k' = k_held k -> thread p k'.
Proof.
  intros [C H Q V R] [E Ln S] Hh. split.
  - rewrite E. by kproj.
  - by rewrite Hh.
  - assert (k_pqueue k' = k_pqueue k) as Eq by (rewrite E; by kproj). unfold queues_wf. by rewrite Eq.
  - destruct V as [V1 V2]. split; [by rewrite Ln|]. intros i Hi. destruct (same_stats_fields _ _ (S i)) as [-> _]. by apply V2.
  - rewrite E. by kproj.
Qed.

Lemma mem_bufs k k' : mem_only k k' -> k_bufs k' = k_bufs k.
Proof. intros [E _ _]. rewrite E. by kproj. Qed.
Lemma mem_disk k k' : mem_only k k' -> k_disk k' = k_disk k.
Proof. intros [E _ _]. rewrite E. by kproj. Qed.
Lemma mem_log k k' : mem_only k k' -> k_log k' = k_log k.
Proof. intros [E _ _]. rewrite E. by kproj. Qed.

Lemma view_mem o ld k k' : view (p := p) o ld k -> mem_only k k' -> k_held k' = k_held k -> view (p := p) o ld k'.
Proof.
  intros [[[T R B U G O LD DK C] Lw] V2 V3] M Hh. destruct (same_stats_fields _ _ (mo_stats _ _ M p)) as [_ Ep].
  split; [split|..]; rewrite ?(mem_log _ _ M), ?(mem_disk _ _ M), ?(mem_bufs _ _ M); try done.
  split; rewrite ?(mem_disk _ _ M), ?(mem_bufs _ _ M), ?Ep; try done. by apply (thread_mem k).
Qed.

Lemma fileop_mem sb lg0 o ip x ld ds k k' :
  fileop (p := p) sb lg0 o ip x ld ds k -> mem_only k k' -> k_held k' = k_held k -> fileop (p := p) sb lg0 o ip x ld ds k'.
Proof.
  intros [V S N M F P] Mo Hh. split; try done; [by apply (view_mem _ _ k)|rewrite (mo_eq _ _ Mo); by kproj..|by rewrite (mem_log _ _ Mo)].
Qed.
End Mem.

(** ** The interface *)
Section Source.
Context {L : Layout} {LO : LayoutOk L} {D : Disk} {p : nat}.

(** [J src bs k]: the source has the bytes [bs] still to be copied.  A copy
    gives the next of them, and the work on file [ip] does not disturb the
    source. *)
Record source (ip : nat) (J : cpsrc -> list Z -> kernel -> Prop) : Prop := {
  so_copy src bs m k : J src bs k -> 0 <= m <= Z.of_nat (length bs) ->
    wp (either_copyin src m) (fun r k' => r = (0, take (Z.to_nat m) bs) /\ J (src_add src m) (drop (Z.to_nat m) bs) k' /\
      mem_only k k' /\ k_held k' = k_held k) k;
  so_still src bs x k k' : J src bs k -> still (D := D) ip x k k' -> J src bs k'
}.

(** The source of [bs]: a buffer of the kernel, or a range of the running
    process that it can read. *)
Definition supplies (use0 : Z -> usage) (src : cpsrc) (bs : list Z) (k : kernel) : Prop :=
  match src with
  | S_bytes bs' => bs' = bs
  | S_user va => exists r, readable use0 p r va bs k
  end.

(** User memory is what it was. *)
Definition supplied (use0 : Z -> usage) (k0 : kernel) (src : cpsrc) (bs : list Z) (k : kernel) : Prop :=
  supplies use0 src bs k /\ same_views use0 (k_mem k0) (k_mem k).

Lemma still_mem ip x k k' : still (D := D) ip x k k' -> k_mem k' = k_mem k.
Proof. intros [_ [E _ _ _ _]]. rewrite E. by kproj. Qed.

Lemma supplies_still ip use0 src bs x k k' : supplies use0 src bs k -> still (D := D) ip x k k' -> supplies use0 src bs k'.
Proof.
  intros H [_ [E _ T _ _]]. destruct src as [va|bs']; [|done]. destruct H as [r H]. exists r.
  assert (forall q, p_pagetable (k_procs k' !!! q) = p_pagetable (k_procs k !!! q) /\ p_sz (k_procs k' !!! q) = p_sz (k_procs k !!! q)) as Hp.
  { intros q. specialize (T q). kproj_in T. rewrite T. by destruct (k_procs k !!! q). }
  apply (readable_ext use0 p r va bs k); try (rewrite E; by kproj); [done|intros q; apply Hp|apply Hp].
Qed.

Lemma supplied_source ip use0 k0 : source ip (supplied use0 k0).
Proof.
  split.
  - intros src bs m k [H Hv] Hm. destruct src as [va|bs']; cbn [either_copyin src_add supplies] in *.
    + destruct H as [r H]. pose proof (rd_ctx _ _ _ _ _ _ H) as U. unfold curproc, getp. wp_steps.
      rewrite (uc_cur _ _ _ _ U). wp_steps. rewrite (uc_table _ _ _ _ U).
      eapply wp_mono; [apply wp_keeps; [by apply (readable_copy use0 p r va bs k m H Hm)|apply copyin_keeps]|].
      cbv beta. intros res k' ((-> & H' & C & S) & M). split; [done|]. split; [|split; [done|apply (cm_held _ _ C)]].
      split; [by exists r|]. by eapply same_views_trans.
    + subst bs'. wp_steps. split; [done|]. split; [done|]. split; [reflexivity|done].
  - intros src bs x k k' [H Hv] St. split; [by eapply supplies_still|]. by rewrite (still_mem _ _ _ _ St).
Qed.

(** A buffer of the kernel. *)
Lemma bytes_source ip : source ip (fun src bs _ => src = S_bytes bs).
Proof.
  split; [|done]. intros src bs m k -> Hm. cbn [either_copyin src_add]. wp_steps. split; [done|]. split; [done|]. split; [reflexivity|done].
Qed.
End Source.
