(* ===== verification/FsRw.v ===== *)
(** * Reading and writing files (readi, writei, iupdate of kernel/fs.c) *)

From Stdlib Require Import ZArith Lia.
From stdpp Require Import base list strings sets.
From S2P Require Import Prelude Params Mem State Evict Kalloc Vm Sched SchedSpec SchedProps.
From S2P Require Import Sleeplock Printf Bio BioSpec BioLaws Log FsInv LogSpec LogTheorems Fs FsAlloc FsFile FsBmap FsSource.

(** ** The bytes of a file *)
Definition file_slice (x : inode) (ld : Z -> list Z) (off n : Z) : list Z :=
  map (fun i => file_byte x ld (off + Z.of_nat i)) (seq 0 (Z.to_nat n)).

Lemma file_slice_length x ld off n : length (file_slice x ld off n) = Z.to_nat n.
Proof. unfold file_slice. by rewrite length_map, length_seq. Qed.

Lemma file_slice_lookup x ld off n i : (i < Z.to_nat n)%nat -> file_slice x ld off n !! i = Some (file_byte x ld (off + Z.of_nat i)).
Proof. intros Hi. unfold file_slice. rewrite list_lookup_fmap, lookup_seq_lt by done. done. Qed.

Lemma file_slice_app x ld off a b : 0 <= a -> 0 <= b ->
  file_slice x ld off a ++ file_slice x ld (off + a) b = file_slice x ld off (a + b).
Proof.
  intros Ha Hb. apply list_eq. intros i. destruct (decide (i < Z.to_nat a)%nat).
  - rewrite lookup_app_l by (by rewrite file_slice_length). rewrite !file_slice_lookup by lia. done.
  - rewrite lookup_app_r by (rewrite file_slice_length; lia). rewrite file_slice_length.
    destruct (decide (i < Z.to_nat (a + b))%nat).
    + rewrite !file_slice_lookup by lia. do 2 f_equal. lia.
    + rewrite !lookup_ge_None_2 by (rewrite file_slice_length; lia). done.
Qed.

(** Two files with the same bytes. *)
Lemma file_slice_ext x ld x' ld' off n : (forall i, off <= i < off + n -> file_byte x ld i = file_byte x' ld' i) ->
  file_slice x ld off n = file_slice x' ld' off n.
Proof. intros H. unfold file_slice. apply map_ext_in. intros i Hi%in_seq. apply H. lia. Qed.

(** The part of one block that a round of the loops works on. *)
Definition chunk (off n : Z) : Z := Z.min n (BSIZE - off mod BSIZE).

Lemma chunk_range off n : 0 < n -> 0 < chunk off n <= n /\ off mod BSIZE + chunk off n <= BSIZE.
Proof. intros Hn. unfold chunk. pose proof (Z.mod_pos_bound off BSIZE ltac:(done)). lia. Qed.

Lemma chunk_block off n i : 0 < n -> off <= i < off + chunk off n -> i / BSIZE = off / BSIZE /\ i mod BSIZE = off mod BSIZE + (i - off).
Proof.
  intros Hn Hi. destruct (chunk_range off n Hn) as [_ H2]. pose proof (Z.div_mod off BSIZE ltac:(done)) as E.
  pose proof (Z.mod_pos_bound off BSIZE ltac:(done)).
  apply (Z.div_mod_unique BSIZE); [left; by apply Z.mod_pos_bound|left; lia|].
  rewrite <- Z.div_mod by done. lia.
Qed.

(** A chunk ends at the end of the block or of the request. *)
Lemma chunk_end off n : 0 < n -> (off + chunk off n) mod BSIZE = 0 \/ (off + chunk off n) / BSIZE = off / BSIZE.
Proof. intros Hn. unfold chunk. change BSIZE with 1024. dlia. Qed.

Lemma slice_block x ld off n : 0 <= off -> 0 < n -> length (file_data x ld (off / BSIZE)) = Z.to_nat BSIZE ->
  slice (Z.to_nat (off mod BSIZE)) (Z.to_nat (chunk off n)) (file_data x ld (off / BSIZE)) = file_slice x ld off (chunk off n).
Proof.
  intros Ho Hn Hl. destruct (chunk_range off n Hn) as [H1 H2]. pose proof (Z.mod_pos_bound off BSIZE ltac:(done)).
  apply list_eq. intros i. unfold slice. destruct (decide (i < Z.to_nat (chunk off n))%nat) as [Hi|Hi].
  - rewrite lookup_take_lt, lookup_drop, file_slice_lookup by done.
    unfold file_byte. destruct (chunk_block off n (off + Z.of_nat i) Hn) as [-> ->]; [lia|].
    unfold aget. rewrite <- list_lookup_lookup_total_lt by (rewrite Hl; lia). f_equal. lia.
  - rewrite lookup_take_ge, lookup_ge_None_2; [done|rewrite file_slice_length; lia|lia].
Qed.

Section Read.
Context {L : Layout} {I : Interference} {D : Disk} {DO : DiskOk D} {p : nat}.
Local Abbreviation view := (@view D p).
Context (sb : superblock) (G : geom sb) (ip : nat) (x : inode) (ld : Z -> list Z) (F : file_wf sb x ld).

Lemma readi_loop_wp fuel off n tot k (Q : Z * list Z -> kernel -> Prop) :
  view [] ld k -> k_inodes k !! ip = Some x -> l_n (k_log k) < NBUF ->
  0 <= off -> 0 <= tot <= n -> off + (n - tot) <= i_size x -> n - tot <= Z.of_nat fuel ->
  (forall k', view [] ld k' -> quiet k k' -> k_log k' = k_log k -> Q (n, file_slice x ld off (n - tot)) k') ->
  wp (readi_loop fuel ip D_local off n tot) Q k.
Proof.
  revert off tot k Q. induction fuel as [|fuel IH]; intros off tot k Q V N Hn Ho Ht Hs Hf HQ; cbn [readi_loop].
  - rewrite (proj2 (Z.ltb_ge tot n)) by lia. wp_steps. assert (tot = n) as -> by lia. rewrite Z.sub_diag in HQ. by apply HQ.
  - destruct (Z.ltb_spec tot n) as [Hlt|Hge].
    2:{ wp_steps. assert (tot = n) as -> by lia. rewrite Z.sub_diag in HQ. by apply HQ. }
    pose proof (ff_size _ _ _ F) as Hsz. pose proof (Z.div_mod off BSIZE ltac:(done)) as Ed. pose proof (Z.mod_pos_bound off BSIZE ltac:(done)).
    assert (in_file (off / BSIZE) /\ off / BSIZE * BSIZE < i_size x) as [Hin Hbs].
    { split; [|lia]. split; [by apply Z.div_pos|]. apply Z.div_lt_upper_bound; [done|]. rewrite Z.mul_comm. lia. }
    assert (addr_of x ld (off / BSIZE) <> 0) as Ha by (apply F; [apply Hin|done]).
    wp_step. apply (bmap_lookup_wp (p := p) sb ip x ld); try done. intros k1 V1 Q1 L1.
    rewrite (proj2 (Z.eqb_neq _ 0)) by done. unfold geti. wp_steps.
    rewrite (quiet_inodes _ _ Q1), (list_lookup_total_correct _ _ _ N), (ff_dev _ _ _ F).
    destruct (ff_data _ _ _ F (addr_of x ld (off / BSIZE))) as [Hd _]; [by split; [|right; exists (off / BSIZE)]|].
    apply (open_block (p := p) [] ld); [done|by eapply data_blockno|apply not_elem_of_nil|rewrite L1; cbn; lia|].
    intros bp k2 V2 Q2 L2 Hdat. unfold getb. wp_steps. rewrite Hdat. cbn [either_copyout]. wp_steps. cbn [Z.eqb].
    wp_step. apply (close_block _ _ _ _ _ _ V2). intros k3 V3 Q3 L3. wp_steps. fold (chunk off (n - tot)).
    destruct (chunk_range off (n - tot)) as [Hc1 Hc2]; [lia|].
    assert (quiet k k3) as QQ by (by etransitivity; [|etransitivity]).
    apply IH; try done; rewrite ?(quiet_inodes _ _ QQ), ?L3, ?L2, ?L1; try done; try lia.
    intros k4 V4 Q4 L4. wp_steps. cbn [fst snd].
    replace (ld (addr_of x ld (off / BSIZE))) with (file_data x ld (off / BSIZE)) by (unfold file_data; by rewrite (proj2 (Z.eqb_neq _ 0))).
    rewrite slice_block, file_slice_app; try lia.
    + replace (chunk off (n - tot) + (n - (tot + chunk off (n - tot)))) with (n - tot) by lia.
      apply HQ; [done|by etransitivity|congruence].
    + unfold file_data. rewrite (proj2 (Z.eqb_neq _ 0)) by done. apply (view_block _ _ _ _ V).
Qed.

Lemma readi_wp off n k (Q : Z * list Z -> kernel -> Prop) :
  view [] ld k -> k_inodes k !! ip = Some x -> l_n (k_log k) < NBUF ->
  0 <= off <= i_size x -> 0 <= n -> off + n < 2 ^ 32 ->
  (forall k', view [] ld k' -> quiet k k' -> k_log k' = k_log k ->
     let r := Z.min n (i_size x - off) in Q (r, file_slice x ld off r) k') ->
  wp (readi ip D_local off n) Q k.
Proof.
  intros V N Hl Ho Hn Hw HQ. pose proof (ff_size _ _ _ F). unfold readi, geti. wp_steps. rewrite (list_lookup_total_correct _ _ _ N).
  rewrite u32_id, (proj2 (Z.ltb_ge (i_size x) off)), (proj2 (Z.ltb_ge (off + n) off)) by lia. cbn [orb].
  set (r := Z.min n (i_size x - off)) in *.
  assert ((if i_size x <? off + n then i_size x - off else n) = r) as -> by (unfold r; destruct (Z.ltb_spec (i_size x) (off + n)); lia).
  wp_steps. apply readi_loop_wp; try done; try lia. intros k' V' Q' L'. wp_steps. cbn [fst snd]. rewrite Z.sub_0_r, i32_id.
  - by apply HQ.
  - change (MAXFILE * BSIZE) with 274432 in *. lia.
Qed.
End Read.

(** ** Writing *)

(** [t] bytes of [bs] are in the file at [off], and nothing else is
    different. *)
Record wrote (sb : superblock) (x : inode) (ld : Z -> list Z) (x' : inode) (ld' : Z -> list Z) (off : Z) (bs : list Z) (t : Z) : Prop := {
  wr_meta : meta_marked sb ld';
  wr_wf : file_wf sb x' ld';
  wr_fields : x' = x <| i_addrs := i_addrs x' |>;
  wr_byte i : 0 <= i < MAXFILE * BSIZE ->
    file_byte x' ld' i = if decide (off <= i < off + t) then aget bs (i - off) else file_byte x ld i;
  wr_addr bn : in_file bn -> addr_of x ld bn <> 0 \/ (off / BSIZE <= bn /\ bn * BSIZE < off + t) -> addr_of x' ld' bn <> 0;
  wr_alloc y : is_data sb y -> allocated sb ld y = true -> allocated sb ld' y = true;
  wr_other y : is_data sb y -> allocated sb ld y = true -> ~ owned x ld y -> ld' y = ld y /\ ~ owned x' ld' y;
  wr_inodes y : y < sb_bmapstart sb -> ld' y = ld y
}.

Lemma in_file_div i : 0 <= i < MAXFILE * BSIZE -> in_file (i / BSIZE).
Proof. intros Hi. split; [apply Z.div_pos; [lia|done]|]. apply Z.div_lt_upper_bound; [done|]. rewrite Z.mul_comm. lia. Qed.

Lemma grows_wrote sb x ld x' ld' off bs : 0 <= off -> grows sb x ld x' ld' ->
  (off mod BSIZE = 0 \/ addr_of x' ld' (off / BSIZE) <> 0) -> wrote sb x ld x' ld' off bs 0.
Proof.
  intros Ho [M F E Dt A N W L O I] Hz. split; try done.
  - intros i Hi. rewrite decide_False by lia. unfold file_byte. by rewrite Dt by (by apply in_file_div).
  - intros bn Hb [Hn|[H1 H2]]; [by rewrite A|]. pose proof (Z.div_mod off BSIZE ltac:(done)) as Ed.
    pose proof (Z.mod_pos_bound off BSIZE ltac:(done)).
    assert (bn = off / BSIZE) as ->; [|destruct Hz; [lia|done]]. change BSIZE with 1024 in *. lia.
Qed.

Lemma wrote_trans sb x ld x1 ld1 x2 ld2 off bs t t' : 0 <= off -> 0 <= t -> 0 <= t' ->
  wrote sb x ld x1 ld1 off bs t -> wrote sb x1 ld1 x2 ld2 (off + t) (drop (Z.to_nat t) bs) t' ->
  wrote sb x ld x2 ld2 off bs (t + t').
Proof.
  intros Ho Ht Ht' [M1 F1 E1 B1 A1 L1 O1 I1] [M2 F2 E2 B2 A2 L2 O2 I2]. split; try done.
  - rewrite E2, E1. done.
  - intros i Hi. rewrite B2, B1 by done. destruct (decide (off + t <= i < off + t + t')).
    + rewrite decide_True by lia. unfold aget. rewrite lookup_total_drop. f_equal. lia.
    + destruct (decide (off <= i < off + t)); [by rewrite decide_True by lia|by rewrite decide_False by lia].
  - intros bn Hb [H|[H1 H2]]; apply A2; [done|left; apply A1; [done|by left]|done|].
    destruct (Z_lt_le_dec (bn * BSIZE) (off + t)); [left; apply A1; [done|by right]|]. right. split; [|lia].
    apply Z.div_le_upper_bound; [done|]. lia.
  - auto.
  - intros y Hd Ha Hn. destruct (O1 y Hd Ha Hn) as [E H]. destruct (O2 y Hd) as [E' H']; [by apply L1|done|]. by rewrite E'.
  - intros y Hy. by rewrite I2, I1.
Qed.

Lemma wrote_take sb x ld x' ld' off bs t : 0 <= t -> wrote sb x ld x' ld' off (take (Z.to_nat t) bs) t -> wrote sb x ld x' ld' off bs t.
Proof.
  intros Ht [M F E B A Al O I]. split; try done. intros i Hi. rewrite B by done. destruct (decide _); [|done].
  unfold aget. rewrite !list_lookup_total_alt, lookup_take_lt by lia. done.
Qed.

(** Replacing the data of a block of the file. *)
Section WriteOne.
Context (sb : superblock) (x : inode) (ld : Z -> list Z) (bn : Z) (d : list Z).
Context (G : geom sb) (M : meta_marked sb ld) (F : file_wf sb x ld) (Hbn : in_file bn) (Hz : addr_of x ld bn <> 0).
Let a := addr_of x ld bn.
Let ld' := fupd a d ld.

Lemma write_addr m : in_file m -> addr_of x ld' m = addr_of x ld m.
Proof.
  intros Hm. unfold addr_of, ld'. destruct (m <? NDIRECT); [done|]. destruct (Z.eqb_spec (ind x) 0) as [|Hi]; [done|].
  rewrite fupd_ne; [done|]. apply not_eq_sym. by apply F.
Qed.

Lemma write_file_data m : in_file m -> file_data x ld' m = if decide (m = bn) then d else file_data x ld m.
Proof.
  intros Hm. unfold file_data. rewrite write_addr by done. destruct (decide (m = bn)) as [->|Hne].
  - rewrite (proj2 (Z.eqb_neq _ 0)) by done. unfold ld'. by rewrite fupd_eq.
  - destruct (Z.eqb_spec (addr_of x ld m) 0) as [|Hm0]; [done|]. unfold ld'. rewrite fupd_ne; [done|].
    intros E. apply Hne. by apply (ff_inj _ _ _ F).
Qed.

Lemma write_owned y : owned x ld' y <-> owned x ld y.
Proof.
  unfold owned. split; intros [H0 [H|(m & Hm & E)]]; (split; [done|]); [by left| |by left|]; right; exists m; split; try done.
  - by rewrite <- write_addr.
  - by rewrite write_addr.
Qed.

Lemma addr_data : is_data sb a.
Proof. apply (ff_data _ _ _ F). split; [done|]. right. by exists bn. Qed.

Lemma write_allocated y : 0 <= y < sb_size sb -> allocated sb ld' y = allocated sb ld y.
Proof. intros Hy. apply allocated_ne, data_not_bitmap; [done|apply addr_data|done]. Qed.

Lemma write_one off bs : off / BSIZE = bn -> 0 <= off -> off mod BSIZE + Z.of_nat (length bs) <= BSIZE ->
  length (file_data x ld bn) = Z.to_nat BSIZE -> 
  d = splice (Z.to_nat (off mod BSIZE)) bs (file_data x ld bn) ->
  wrote sb x ld x ld' off bs (Z.of_nat (length bs)).
Proof.
  intros Eb Ho Hb Hl Ed. pose proof (Z.div_mod off BSIZE ltac:(done)) as Eo. pose proof (Z.mod_pos_bound off BSIZE ltac:(done)) as Hmod.
  assert (forall y, is_data sb y -> 0 <= y < sb_size sb) as Hd by (intros y Hy; pose proof (data_nonneg _ _ G Hy); lia).
  split.
  - intros y Hy. rewrite write_allocated; [by apply M|]. destruct G. lia.
  - destruct F as [F1 F2 F3 F4 F5 F6 F7]. split; try done.
    + intros y Hy%write_owned. destruct (F3 y Hy). rewrite write_allocated by auto. done.
    + intros m m' Hm Hm'. rewrite !write_addr by done. by apply F4.
    + intros m Hm. rewrite write_addr by done. by apply F5.
    + intros m Hm Hs. rewrite write_addr; [by apply F7|]. unfold in_file. change BSIZE with 1024 in *. lia.
  - by destruct x.
  - intros i Hi. unfold file_byte. rewrite write_file_data by (by apply in_file_div).
    pose proof (Z.div_mod i BSIZE ltac:(done)) as Ei. pose proof (Z.mod_pos_bound i BSIZE ltac:(done)).
    destruct (decide (i / BSIZE = bn)) as [E|E].
    + rewrite Ed, E. unfold aget. rewrite lookup_total_splice by lia. rewrite E, <- Eb in Ei.
      destruct (decide _), (decide _); try lia. f_equal. lia.
    + rewrite decide_False; [done|]. intros Hc. apply E. rewrite <- Eb. symmetry.
      apply (Z.div_unique_pos _ _ _ (i - BSIZE * (off / BSIZE))); lia.
  - intros m Hm [H|[H1 H2]]; rewrite write_addr by done; [done|]. assert (m = bn) as ->; [|done].
    change BSIZE with 1024 in *. lia.
  - intros y Hy Hy'. rewrite write_allocated by auto. done.
  - intros y Hy Ha Hn. rewrite write_owned. split; [|done]. unfold ld'. apply fupd_ne. intros ->. apply Hn. split; [done|]. right. by exists bn.
  - intros y Hy. unfold ld'. apply fupd_ne. destruct addr_data as [H _]. pose proof (BBLOCK_range sb 0 G ltac:(destruct G; lia)). lia.
Qed.
End WriteOne.

(** The number of blocks that [n] bytes at [off] are in. *)
Definition span (off n : Z) : Z := if n =? 0 then 0 else (off + n - 1) / BSIZE - off / BSIZE + 1.

Lemma span_nonneg off n : 0 <= n -> 0 <= span off n.
Proof.
  intros Hn. unfold span. destruct (Z.eqb_spec n 0); [lia|].
  assert (off / BSIZE <= (off + n - 1) / BSIZE) by (apply Z.div_le_mono; [done|lia]). lia.
Qed.

Lemma span_step off n : 0 <= off -> 0 < n -> span off n = 1 + span (off + chunk off n) (n - chunk off n).
Proof.
  intros Ho Hn. unfold span, chunk. change BSIZE with 1024 in *.
  destruct (Z.eqb_spec n 0); [lia|]. destruct (Z.eqb_spec (n - Z.min n (1024 - off mod 1024)) 0); dlia.
Qed.

Section Write.
Context {L : Layout} {I : Interference} {D : Disk} {DO : DiskOk D} {p : nat}.
Local Abbreviation view := (@view D p).
Context (sb : superblock) (G : geom sb) (Hone : sb_size sb <= BPB) (lg0 : loginfo) (W0 : log_wf lg0).
Local Abbreviation fileop := (fileop (p := p) sb lg0).

(** The source of the bytes; [left_over] is what it has at the end. *)
Context (ip : nat) (J : cpsrc -> list Z -> kernel -> Prop) (SJ : source (D := D) ip J).
Definition left_over (k : kernel) : Prop := exists src bs, J src bs k.

(** One round: [bs] goes to the open block. *)
Lemma fileop_write {A} x ld ds k bp bn off bs r (m : KM A) Q :
  fileop [(bp, r)] ip x ld (r :: ds) k -> addr_of x ld bn = r -> r <> 0 -> in_file bn -> room (3 + Z.of_nat (length ds)) lg0 ->
  off / BSIZE = bn -> 0 <= off -> off mod BSIZE + Z.of_nat (length bs) <= BSIZE -> Forall byte_ok bs ->
  (forall ld' k', fileop [] ip x ld' (r :: ds) k' -> quiet k k' -> wrote sb x ld x ld' off bs (Z.of_nat (length bs)) -> wp m Q k') ->
  wp (do! updb bp (set b_data (splice (Z.to_nat (off mod BSIZE)) bs)); do! log_write bp; do! brelse bp; m) Q k.
Proof.
  intros H Ea Hr Hbn Hrm Eb Ho Hlen Hbs HQ. pose proof H as [V S N M F P]. pose proof (Z.mod_pos_bound off BSIZE ltac:(done)).
  assert (room 0 (k_log k)) as R by (eapply fileop_room; [exact W0|exact H|]; cbn [length]; eapply room_le; [|exact Hrm]; lia).
  assert (file_data x ld bn = ld r) as Ed by (unfold file_data; rewrite Ea; by rewrite (proj2 (Z.eqb_neq r 0))).
  apply (write_block_then (p := p) [(bp, r)] ld k bp r); [done|by left| |done|].
  { apply splice_block_ok; [by eapply view_block|done|lia]. }
  intros k1 V1 Q1 L1. wp_step. apply (close_block _ _ _ _ _ _ V1). intros k2 V2 Q2 L2.
  assert (quiet k k2) as QQ by (by etransitivity).
  assert (wrote sb x ld x (fupd r (splice (Z.to_nat (off mod BSIZE)) bs (ld r)) ld) off bs (Z.of_nat (length bs))) as Hw.
  { rewrite <- Ea. apply (write_one sb x ld bn); try done; rewrite ?Ea, ?Ed; try done. apply (view_block _ _ _ _ V). }
  eapply HQ; [|done|exact Hw]. split; try apply Hw; [done|by rewrite (quiet_sb _ _ QQ)|by rewrite (quiet_inodes _ _ QQ)|].
  rewrite L2, L1. apply spent_add; [done|by eapply view_log|destruct R; change LOGBLOCKS with NBUF; lia|set_solver].
Qed.

Lemma writei_done x ld ds k src off n tot bs (Q : Z * Z -> kernel -> Prop) :
  fileop [] ip x ld ds k -> J src bs k -> 0 <= off -> 0 <= tot <= n -> n <= tot -> (off mod BSIZE = 0 \/ addr_of x ld (off / BSIZE) <> 0) ->
  (forall t x' ld' k' ds', fileop [] ip x' ld' (ds' ++ ds) k' -> left_over k' -> wrote sb x ld x' ld' off bs t ->
     Z.of_nat (length ds') <= span off (n - tot) -> 0 <= t <= n - tot -> (t = n - tot \/ full sb ld') -> Q (tot + t, off + t) k') ->
  Q (tot, off) k.
Proof.
  intros H HJ Ho Ht Hn Hal HQ. pose proof H as [V S N M F P]. replace tot with (tot + 0) by lia. replace off with (off + 0) by lia.
  apply (HQ 0 x ld k []); try done; [by exists src, bs|by apply grows_wrote; [|apply grows_refl|]| |lia|lia].
  apply span_nonneg. lia.
Qed.

Lemma writei_loop_wp fuel x ld ds k src off n tot bs (Q : Z * Z -> kernel -> Prop) :
  fileop [] ip x ld ds k -> J src bs k -> room (2 + Z.of_nat (length ds) + span off (n - tot)) lg0 ->
  0 <= off -> 0 <= tot <= n -> off + (n - tot) <= MAXFILE * BSIZE -> Z.of_nat (length bs) = n - tot -> Forall byte_ok bs ->
  (off mod BSIZE = 0 \/ addr_of x ld (off / BSIZE) <> 0) -> n - tot <= Z.of_nat fuel ->
  (forall t x' ld' k' ds', fileop [] ip x' ld' (ds' ++ ds) k' -> left_over k' -> wrote sb x ld x' ld' off bs t ->
     Z.of_nat (length ds') <= span off (n - tot) -> 0 <= t <= n - tot -> (t = n - tot \/ full sb ld') -> Q (tot + t, off + t) k') ->
  wp (writei_loop fuel ip src off n tot) Q k.
Proof.
  revert x ld ds k src off tot bs Q. induction fuel as [|fuel IH]; intros x ld ds k src off tot bs Q H HJ Hr Ho Ht Hmax Hl Hbs Hal Hf HQ; cbn [writei_loop].
  - rewrite (proj2 (Z.ltb_ge tot n)) by lia. wp_steps. apply (writei_done x ld ds k src off n tot bs); try done; lia.
  - destruct (Z.ltb_spec tot n) as [Hlt|Hge]; [|wp_steps; apply (writei_done x ld ds k src off n tot bs); try done; lia].
    pose proof H as [V S N M F P]. rewrite span_step in Hr by lia. pose proof (span_nonneg (off + chunk off (n - tot)) (n - tot - chunk off (n - tot))) as Hsp.
    destruct (chunk_range off (n - tot)) as [Hc1 Hc2]; [lia|]. set (m := chunk off (n - tot)) in *.
    assert (in_file (off / BSIZE)) as Hin by (apply in_file_div; lia).
    wp_step. apply (bmap_wp (p := p) sb G Hone lg0 W0 ip x ld ds k (off / BSIZE)); [done|done|eapply room_le; [|exact Hr]; lia|].
    intros r x1 ld1 k1 [H1 St1 Hg1 A1 F1]. assert (off mod BSIZE = 0 \/ addr_of x1 ld1 (off / BSIZE) <> 0) as Hal1.
    { destruct Hal as [|Hal]; [by left|right]. by rewrite (gr_addr _ _ _ _ _ Hg1). }
    pose proof (grows_wrote sb x ld x1 ld1 off bs Ho Hg1 Hal1) as Hw1.
    pose proof (so_still _ _ SJ _ _ _ _ _ HJ St1) as HJ1.
    destruct (Z.eqb_spec r 0) as [Hz|Hz].
    + wp_steps. replace tot with (tot + 0) by lia. replace off with (off + 0) at 1 by lia.
      apply (HQ 0 x1 ld1 k1 [r]); try done; [by exists src, bs|cbn [length]; rewrite span_step by lia; fold m; lia|lia|right; by apply F1].
    + wp_step. apply (fileop_geti _ _ _ _ _ _ _ _ _ H1). pose proof H1 as [V1 S1 N1 M1 Fw1 P1].
      rewrite (ff_dev _ _ _ Fw1). wp_step.
      assert (room 0 (k_log k1)) as R1 by (eapply fileop_room; [exact W0|exact H1|]; cbn [length]; eapply room_le; [|exact Hr]; lia).
      destruct (ff_data _ _ _ Fw1 r) as [Hd _]; [by split; [|right; exists (off / BSIZE)]|].
      apply (open_block (p := p) [] ld1); [done|by eapply data_blockno|apply not_elem_of_nil|destruct R1; cbn; lia|].
      intros bp k2 V2 Q2 L2 _. fold (chunk off (n - tot)). fold m. wp_step.
      pose proof (fileop_quiet _ _ _ _ _ _ _ _ _ H1 Q2 L2 _ V2) as H2.
      eapply wp_mono; [apply (so_copy _ _ SJ src bs m k2); [eapply so_still; [exact SJ|exact HJ1|by apply quiet_still]|lia]|].
      cbv beta. intros res k2' (-> & HJ2 & Mo & Hh). apply (fileop_mem _ _ _ _ _ _ _ _ _ H2) in Mo as H2'; [|done]. clear H2.
      rename k2' into kc, H2' into H2. cbn [fst snd]. change (0 =? -1) with false. cbv iota.
      assert (length (take (Z.to_nat m) bs) = Z.to_nat m) as Hlt2 by (rewrite length_take; lia).
      apply (fileop_write x1 ld1 ds kc bp (off / BSIZE) off (take (Z.to_nat m) bs) r); try done; [eapply room_le; [|exact Hr]; lia|lia|by apply Forall_take|].
      rewrite Hlt2, Z2Nat.id by lia. intros ld3 k3 H3 Q3 Hw3.
      apply wrote_take in Hw3; [|lia].
      assert (wrote sb x ld x1 ld3 off bs m) as Hw.
      { apply (wrote_trans sb x ld x1 ld1 x1 ld3 off bs 0 m); [done|lia|lia|done|]. by rewrite Z.add_0_r, drop_0. }
      apply (IH x1 ld3 (r :: ds) k3 (src_add src m) _ _ (drop (Z.to_nat m) bs)); try done; try lia.
      { eapply so_still; [exact SJ|exact HJ2|]. apply quiet_still; [apply H2|exact Q3]. }
      { cbn [length]. replace (n - (tot + m)) with (n - tot - m) by lia. eapply room_le; [|exact Hr]. lia. }
      { rewrite length_drop. lia. }
      { by apply Forall_drop. }
      { destruct (chunk_end off (n - tot)) as [|E]; [lia|by left|right]. fold m in E. rewrite E.
        apply (wr_addr _ _ _ _ _ _ _ _ Hw); [done|]. right. pose proof (Z.div_mod off BSIZE ltac:(done)). pose proof (Z.mod_pos_bound off BSIZE ltac:(done)). lia. }
      intros t x4 ld4 k4 ds4 H4 St4 Hw4 Hn4 Ht4 Hf4. replace (tot + m + t) with (tot + (m + t)) by lia. replace (off + m + t) with (off + (m + t)) by lia.
      replace (n - (tot + m)) with (n - tot - m) in * by lia.
      apply (HQ (m + t) x4 ld4 k4 (ds4 ++ [r])).
      * by rewrite <- app_assoc.
      * exact St4.
      * apply (wrote_trans sb x ld x1 ld3); try done; lia.
      * rewrite length_app, span_step by lia. fold m. cbn [length]. lia.
      * lia.
      * destruct Hf4; [left; lia|by right].
Qed.
End Write.
