(* ===== verification/FsInode.v ===== *)
(** * Inodes on the disk (iupdate and ilock of kernel/fs.c)

    [put_dinode] and [get_dinode] are inverse to each other, and an inode's 64
    bytes are its own; so what [iupdate] stores [ilock] reads back. *)

From Stdlib Require Import ZArith Lia.
From stdpp Require Import base list strings sets.
From S2P Require Import Prelude Params Mem State Evict Kalloc Vm Sched SchedSpec SchedProps.
From S2P Require Import Sleeplock Printf Bio BioSpec BioLaws Log FsInv LogSpec LogTheorems Fs FsAlloc FsFile FsBmap FsSource FsRw.

Definition short_ok (v : Z) : Prop := - 2 ^ 15 <= v < 2 ^ 15.
Definition word_ok (v : Z) : Prop := 0 <= v < 2 ^ 32.

(** The fields fit their types. *)
Record dinode_ok (x : inode) : Prop := {
  dk_type : short_ok (i_type x);
  dk_major : short_ok (i_major x);
  dk_minor : short_ok (i_minor x);
  dk_nlink : short_ok (i_nlink x);
  dk_size : word_ok (i_size x);
  dk_len : length (i_addrs x) = 13%nat;
  dk_addrs : Forall word_ok (i_addrs x)
}.

(** ** The encoding *)
Lemma mjoin_cons {A} (l : list A) ls : mjoin (l :: ls) = l ++ mjoin ls.
Proof. done. Qed.

Lemma length_words vs : length (mjoin (map (le_bytes 4) vs)) = (4 * length vs)%nat.
Proof. induction vs as [|v vs IH]; [done|]. cbn [map]. rewrite mjoin_cons, length_app, IH, length_le_bytes. cbn [length]. lia. Qed.

Lemma words_ok vs : Forall byte_ok (mjoin (map (le_bytes 4) vs)).
Proof. induction vs as [|v vs IH]; [by constructor|]. cbn [map]. rewrite mjoin_cons. apply Forall_app. split; [apply le_bytes_ok|done]. Qed.

Lemma slice_words vs j : (j < length vs)%nat -> slice (4 * j) 4 (mjoin (map (le_bytes 4) vs)) = le_bytes 4 (vs !!! j).
Proof.
  revert j. induction vs as [|v vs IH]; intros j Hj; cbn [length] in Hj; [lia|]. cbn [map]. rewrite mjoin_cons. destruct j as [|j].
  - unfold slice. rewrite Nat.mul_0_r, drop_0. by apply take_app_length'.
  - unfold slice. rewrite drop_app_ge by (rewrite length_le_bytes; lia). rewrite length_le_bytes.
    replace (4 * S j - 4)%nat with (4 * j)%nat by lia. apply IH. lia.
Qed.

Lemma slice_slice o n o' n' (d : list Z) : (o' + n' <= n)%nat -> slice o' n' (slice o n d) = slice (o + o') n' d.
Proof. intros H. unfold slice. rewrite skipn_firstn_comm, firstn_firstn, drop_drop. rewrite Nat.min_l by lia. done. Qed.

Lemma i16_mod v : short_ok v -> i16 (v mod 256 ^ Z.of_nat 2) = v.
Proof. unfold short_ok, i16. change (256 ^ Z.of_nat 2) with 65536. intros H. dlia. Qed.

Lemma splice_splice o a b d : (o + length a + length b <= length d)%nat ->
  splice (o + length a) b (splice o a d) = splice o (a ++ b) d.
Proof.
  intros H. unfold splice. rewrite (take_app_ge (take o d)), (drop_app_ge (take o d)) by (rewrite length_take; lia).
  rewrite length_take, Nat.min_l by lia. rewrite take_app_length' by lia. rewrite drop_app_ge, drop_drop, length_app by lia.
  rewrite <- !app_assoc. do 4 f_equal. lia.
Qed.

Lemma slice_splice_in o e d i n : (o + length e <= length d)%nat -> (i + n <= length e)%nat -> slice (o + i) n (splice o e d) = slice i n e.
Proof.
  intros H Hi. rewrite <- (slice_splice_eq o e d H) at 2. by rewrite slice_slice.
Qed.

(** The 64 bytes of an inode. *)
Definition enc_dinode (x : inode) : list Z :=
  le_bytes 2 (i_type x) ++ le_bytes 2 (i_major x) ++ le_bytes 2 (i_minor x) ++ le_bytes 2 (i_nlink x) ++
  le_bytes 4 (i_size x) ++ mjoin (map (le_bytes 4) (i_addrs x)).

Lemma enc_dinode_length x : length (i_addrs x) = 13%nat -> length (enc_dinode x) = 64%nat.
Proof. intros H. unfold enc_dinode. rewrite !length_app, !length_le_bytes, length_words, H. done. Qed.

Lemma enc_dinode_ok x : Forall byte_ok (enc_dinode x).
Proof. unfold enc_dinode. rewrite !Forall_app. repeat split; try apply le_bytes_ok. apply words_ok. Qed.

(** The six stores are one of the whole. *)
Lemma put_dinode_splice x o d : length (i_addrs x) = 13%nat -> (o + 64 <= length d)%nat -> put_dinode x o d = splice o (enc_dinode x) d.
Proof.
  intros Hx Ho. unfold put_dinode, putw, enc_dinode. pose proof (length_words (i_addrs x)) as Hw. rewrite Hx in Hw.
  change (o + 2)%nat with (o + length (le_bytes 2 (i_type x)))%nat. rewrite splice_splice by (rewrite !length_le_bytes; lia).
  change (o + 4)%nat with (o + length (le_bytes 2 (i_type x) ++ le_bytes 2 (i_major x)))%nat.
  rewrite splice_splice by (rewrite ?length_app, !length_le_bytes; lia).
  change (o + 6)%nat with (o + length ((le_bytes 2 (i_type x) ++ le_bytes 2 (i_major x)) ++ le_bytes 2 (i_minor x)))%nat.
  rewrite splice_splice by (rewrite ?length_app, !length_le_bytes; lia).
  change (o + 8)%nat with (o + length (((le_bytes 2 (i_type x) ++ le_bytes 2 (i_major x)) ++ le_bytes 2 (i_minor x)) ++ le_bytes 2 (i_nlink x)))%nat.
  rewrite splice_splice by (rewrite ?length_app, !length_le_bytes; lia).
  change (o + 12)%nat with (o + length ((((le_bytes 2 (i_type x) ++ le_bytes 2 (i_major x)) ++ le_bytes 2 (i_minor x)) ++ le_bytes 2 (i_nlink x)) ++ le_bytes 4 (i_size x)))%nat.
  rewrite splice_splice by (rewrite ?length_app, !length_le_bytes; lia). by rewrite <- !app_assoc.
Qed.

Lemma get_put_dinode x o d y : dinode_ok x -> (o + 64 <= length d)%nat ->
  get_dinode o (put_dinode x o d) y =
  y <| i_type := i_type x |> <| i_major := i_major x |> <| i_minor := i_minor x |> <| i_nlink := i_nlink x |>
    <| i_size := i_size x |> <| i_addrs := i_addrs x |>.
Proof.
  intros [H1 H2 H3 H4 H5 H6 H7] Ho. rewrite put_dinode_splice by done. pose proof (enc_dinode_length x H6) as Hl.
  assert (forall i n, (i + n <= 64)%nat -> getw n (o + i) (splice o (enc_dinode x) d) = le_val (slice i n (enc_dinode x))) as Hg.
  { intros i n Hi. unfold getw. by rewrite slice_splice_in by lia. }
  unfold get_dinode, dip_type, dip_nlink. pose proof (Hg 0 2 ltac:(lia))%nat as H0. rewrite Nat.add_0_r in H0. rewrite H0, !Hg by lia.
  assert (dip_addrs o (splice o (enc_dinode x) d) = i_addrs x) as ->.
  { unfold dip_addrs. apply list_eq. intros j. destruct (decide (j < 13)%nat) as [Hj|Hj].
    - rewrite list_lookup_fmap, lookup_seq_lt by done. cbn [fmap option_fmap option_map Nat.add].
      rewrite <- Nat.add_assoc, Hg by lia.
      change (slice (12 + 4 * j) 4 (enc_dinode x)) with (slice (4 * j) 4 (mjoin (map (le_bytes 4) (i_addrs x)))).
      rewrite slice_words, le_val_bytes by lia. rewrite (list_lookup_lookup_total_lt (i_addrs x) j) by lia. f_equal.
      apply Z.mod_small. rewrite Forall_forall in H7. apply H7. apply list_elem_of_lookup_total_2. lia.
    - rewrite !lookup_ge_None_2; [done|lia|rewrite length_map, length_seq; lia]. }
  change (slice 0 2 (enc_dinode x)) with (le_bytes 2 (i_type x)). change (slice 2 2 (enc_dinode x)) with (le_bytes 2 (i_major x)).
  change (slice 4 2 (enc_dinode x)) with (le_bytes 2 (i_minor x)). change (slice 6 2 (enc_dinode x)) with (le_bytes 2 (i_nlink x)).
  change (slice 8 4 (enc_dinode x)) with (le_bytes 4 (i_size x)).
  rewrite !le_val_bytes, !i16_mod by done. rewrite Z.mod_small by exact H5. done.
Qed.

(** Another inode of the block is untouched. *)
Lemma put_dinode_other x o d o' : length (i_addrs x) = 13%nat -> (o + 64 <= length d)%nat -> (o' + 64 <= o \/ o + 64 <= o')%nat ->
  slice o' 64 (put_dinode x o d) = slice o' 64 d.
Proof.
  intros H Ho Hd. rewrite put_dinode_splice by done. apply slice_splice_ne; rewrite enc_dinode_length by done; lia.
Qed.

Lemma put_dinode_block_ok x o d : length (i_addrs x) = 13%nat -> (o + 64 <= Z.to_nat BSIZE)%nat -> block_ok d -> block_ok (put_dinode x o d).
Proof.
  intros H Ho Hd. rewrite put_dinode_splice by (rewrite ?(proj1 Hd); done).
  apply splice_block_ok; [done|apply enc_dinode_ok|by rewrite enc_dinode_length].
Qed.

(** ** The inode blocks *)
Lemma dip_off_fits inum : (dip_off inum + 64 <= Z.to_nat BSIZE)%nat.
Proof. unfold dip_off, DINODE. pose proof (Z.mod_pos_bound inum IPB ltac:(done)) as H. change IPB with 16 in *. change (Z.to_nat BSIZE) with 1024%nat. lia. Qed.

Lemma dip_off_inj sb i j : IBLOCK i sb = IBLOCK j sb -> i <> j -> (dip_off i + 64 <= dip_off j \/ dip_off j + 64 <= dip_off i)%nat.
Proof. unfold IBLOCK, dip_off, DINODE. change IPB with 16. intros H Hn. dlia. Qed.

Lemma IBLOCK_range sb i : geom sb -> 0 <= i < sb_ninodes sb -> 0 < IBLOCK i sb < sb_bmapstart sb.
Proof.
  intros [G1 G2 G3 G4 G5] Hi. unfold IBLOCK. assert (0 <= i / IPB) by (apply Z.div_pos; [lia|done]).
  assert (i / IPB <= sb_ninodes sb / IPB) by (apply Z.div_le_mono; [done|lia]). lia.
Qed.

(** A disk that differs in the inode blocks has the same files. *)
Section InodeBlocks.
Context (sb : superblock) (ld ld' : Z -> list Z) (G : geom sb).
Hypothesis (E : forall y, sb_bmapstart sb <= y -> ld' y = ld y).

Lemma inodes_allocated y : 0 <= y < sb_size sb -> allocated sb ld' y = allocated sb ld y.
Proof. intros Hy. unfold allocated. rewrite E; [done|]. by apply BBLOCK_range. Qed.

Lemma inodes_meta : meta_marked sb ld -> meta_marked sb ld'.
Proof. intros M y Hy. rewrite inodes_allocated; [by apply M|]. destruct G. lia. Qed.

Lemma inodes_data y : is_data sb y -> ld' y = ld y.
Proof. intros [H _]. apply E. pose proof (BBLOCK_range sb 0 G ltac:(destruct G; lia)). lia. Qed.

Context (x : inode) (F : file_wf sb x ld).

Lemma inodes_addr bn : addr_of x ld' bn = addr_of x ld bn.
Proof.
  unfold addr_of. destruct (_ <? _); [done|]. destruct (Z.eqb_spec (ind x) 0) as [|Hi]; [done|].
  rewrite inodes_data; [done|]. apply (ff_data _ _ _ F). by apply ind_owned.
Qed.

Lemma inodes_owned y : owned x ld' y <-> owned x ld y.
Proof. unfold owned. by setoid_rewrite inodes_addr. Qed.

Lemma inodes_byte i : 0 <= i < MAXFILE * BSIZE -> file_byte x ld' i = file_byte x ld i.
Proof.
  intros Hi. unfold file_byte, file_data. rewrite inodes_addr. destruct (Z.eqb_spec (addr_of x ld (i / BSIZE)) 0); [done|].
  rewrite inodes_data; [done|]. apply (ff_data _ _ _ F). split; [done|]. right. exists (i / BSIZE). split; [by apply in_file_div|done].
Qed.

Lemma inodes_wf : file_wf sb x ld'.
Proof.
  destruct F as [F1 F2 F3 F4 F5 F6 F7]. split; try done.
  - intros y Hy%inodes_owned. destruct (F3 y Hy) as [Hd Ha]. split; [done|]. rewrite inodes_allocated; [done|].
    pose proof (data_nonneg _ _ G Hd). lia.
  - intros bn bn'. rewrite !inodes_addr. apply F4.
  - intros bn. rewrite inodes_addr. apply F5.
  - intros bn. rewrite inodes_addr. apply F7.
Qed.
End InodeBlocks.

(** The block with inode [x] stored in it. *)
Definition store_inode (sb : superblock) (x : inode) (ld : Z -> list Z) : Z -> list Z :=
  fupd (IBLOCK (i_inum x) sb) (put_dinode x (dip_off (i_inum x)) (ld (IBLOCK (i_inum x) sb))) ld.

(** The copy on the disk is that in memory. *)
Definition synced (sb : superblock) (x : inode) (ld : Z -> list Z) : Prop :=
  get_dinode (dip_off (i_inum x)) (ld (IBLOCK (i_inum x) sb)) x = x.

Lemma store_inode_ge sb x ld y : geom sb -> 0 <= i_inum x < sb_ninodes sb -> sb_bmapstart sb <= y -> store_inode sb x ld y = ld y.
Proof. intros G Hi Hy. pose proof (IBLOCK_range _ _ G Hi). unfold store_inode. apply fupd_ne. lia. Qed.

Lemma store_inode_synced sb x ld : dinode_ok x -> block_ok (ld (IBLOCK (i_inum x) sb)) -> synced sb x (store_inode sb x ld).
Proof.
  intros Hx [Hl _]. unfold synced, store_inode. rewrite fupd_eq, get_put_dinode; [by destruct x|done|].
  rewrite Hl. apply dip_off_fits.
Qed.

Lemma store_inode_other sb x ld j : dinode_ok x -> block_ok (ld (IBLOCK (i_inum x) sb)) -> j <> i_inum x ->
  slice (dip_off j) 64 (store_inode sb x ld (IBLOCK j sb)) = slice (dip_off j) 64 (ld (IBLOCK j sb)).
Proof.
  intros Hx [Hl _] Hj. unfold store_inode. destruct (decide (IBLOCK j sb = IBLOCK (i_inum x) sb)) as [E|E]; [|by rewrite fupd_ne].
  rewrite E, fupd_eq. apply put_dinode_other; [apply Hx|rewrite Hl; apply dip_off_fits|].
  by apply (dip_off_inj sb).
Qed.

Section Update.
Context {L : Layout} {I : Interference} {D : Disk} {DO : DiskOk D} {p : nat}.
Local Abbreviation view := (@view D p).
Context (sb : superblock) (G : geom sb) (lg0 : loginfo) (W0 : log_wf lg0).
Local Abbreviation fileop := (fileop (p := p) sb lg0).

Lemma iupdate_wp ip x ld ds k Q :
  fileop [] ip x ld ds k -> 0 <= i_inum x < sb_ninodes sb -> room (2 + Z.of_nat (length ds)) lg0 ->
  (forall k', fileop [] ip x (store_inode sb x ld) (IBLOCK (i_inum x) sb :: ds) k' -> quiet k k' -> Q tt k') -> wp (iupdate ip) Q k.
Proof.
  intros H Hi Hr HQ. pose proof H as [V S N M F P]. pose proof (IBLOCK_range _ _ G Hi) as Hib.
  pose proof (fileop_room _ _ W0 _ _ _ _ _ _ H Hr) as R.
  assert (forall y, sb_bmapstart sb <= y -> store_inode sb x ld y = ld y) as E by (intros y; by apply store_inode_ge).
  unfold iupdate. wp_steps. rewrite S. apply (fileop_geti _ _ _ _ _ _ _ _ _ H). rewrite (ff_dev _ _ _ F). wp_step.
  apply (open_block (p := p) [] ld); [done| |apply not_elem_of_nil|destruct R; cbn; lia|].
  { pose proof (gm_data _ G). pose proof (BBLOCK_range sb 0 G ltac:(destruct G; lia)). destruct G. unfold blockno_ok. lia. }
  intros bp k1 V1 Q1 L1 _. pose proof (fileop_quiet _ _ _ _ _ _ _ _ _ H Q1 L1 _ V1) as H1.
  wp_step. apply (fileop_geti _ _ _ _ _ _ _ _ _ H1). rewrite <- L1 in R.
  apply (write_block_then (p := p) [(bp, IBLOCK (i_inum x) sb)] ld k1 bp (IBLOCK (i_inum x) sb)); [done|by left| |done|].
  { apply put_dinode_block_ok; [apply F|apply dip_off_fits|by eapply view_block]. }
  intros k2 V2 Q2 L2. apply (close_block _ _ _ _ _ _ V2). intros k3 V3 Q3 L3.
  assert (quiet k k3) as QQ by (by etransitivity; [|etransitivity]).
  apply HQ; [|done]. split; [done|by rewrite (quiet_sb _ _ QQ)|by rewrite (quiet_inodes _ _ QQ)|by eapply inodes_meta|by eapply inodes_wf|].
  rewrite L3, L2, L1. apply spent_add; [eapply spent_mono; [exact P|set_solver]|by eapply view_log|rewrite <- L1; destruct R; change LOGBLOCKS with NBUF; lia|set_solver].
Qed.
End Update.

(** ** The whole of writei *)

(** [t] bytes of [bs] were written at [off]: the file is [x'] on [ld']. *)
Record written (sb : superblock) (x : inode) (ld : Z -> list Z) (x' : inode) (ld' : Z -> list Z) (off : Z) (bs : list Z) (t : Z) : Prop := {
  wn_meta : meta_marked sb ld';
  wn_wf : file_wf sb x' ld';
  wn_fields : x' = x <| i_addrs := i_addrs x' |> <| i_size := Z.max (i_size x) (off + t) |>;
  wn_byte i : 0 <= i < MAXFILE * BSIZE ->
    file_byte x' ld' i = if decide (off <= i < off + t) then aget bs (i - off) else file_byte x ld i;
  wn_synced : synced sb x' ld';
  wn_alloc y : is_data sb y -> allocated sb ld y = true -> allocated sb ld' y = true;
  wn_other y : is_data sb y -> allocated sb ld y = true -> ~ owned x ld y -> ld' y = ld y /\ ~ owned x' ld' y;
  wn_inodes j : j <> i_inum x -> 0 <= j < sb_ninodes sb ->
    slice (dip_off j) 64 (ld' (IBLOCK j sb)) = slice (dip_off j) 64 (ld (IBLOCK j sb))
}.

(** The size plays no part in the block map. *)
Lemma size_addr x s ld bn : addr_of (x <| i_size := s |>) ld bn = addr_of x ld bn.
Proof. done. Qed.

Lemma size_wf sb x ld s : file_wf sb x ld -> 0 <= s <= MAXFILE * BSIZE ->
  (forall bn, 0 <= bn -> bn * BSIZE < s -> addr_of x ld bn <> 0) -> file_wf sb (x <| i_size := s |>) ld.
Proof. intros [F1 F2 F3 F4 F5 F6 F7] Hs Hf. split; try done. Qed.

(** The addresses of a file fit their words. *)
Lemma file_addrs_ok sb x ld : geom sb -> file_wf sb x ld -> Forall word_ok (i_addrs x).
Proof.
  intros G F. apply Forall_lookup. intros j a Hj. pose proof (lookup_lt_Some _ _ _ Hj) as Hl. rewrite (ff_len _ _ _ F) in Hl.
  apply list_lookup_total_correct in Hj. destruct (decide (a = 0)) as [->|Ha]; [done|].
  assert (owned x ld a) as Ho.
  { split; [done|]. destruct (decide (j = 12%nat)) as [->|Hj12]; [left; by rewrite <- Hj|]. right. exists (Z.of_nat j).
    split; [split; fslia|]. unfold addr_of. rewrite (proj2 (Z.ltb_lt _ NDIRECT)) by fslia. unfold aget. by rewrite Nat2Z.id. }
  destruct (ff_data _ _ _ F a Ho) as [Hd _]. pose proof (data_nonneg _ _ G Hd). destruct G. unfold word_ok. lia.
Qed.

Lemma file_dinode_ok sb x x' ld' : geom sb -> file_wf sb x' ld' -> dinode_ok x ->
  x' = x <| i_addrs := i_addrs x' |> <| i_size := i_size x' |> -> dinode_ok x'.
Proof.
  intros G F [H1 H2 H3 H4 H5 H6 H7] E. split; try (rewrite E; done); [|apply F|by eapply file_addrs_ok].
  destruct (ff_size _ _ _ F). unfold word_ok. change (MAXFILE * BSIZE) with 274432 in *. lia.
Qed.

Lemma wrote_wf sb x ld x' ld' off bs t : wrote sb x ld x' ld' off bs t -> file_wf sb x ld -> 0 <= off <= i_size x -> 0 <= t ->
  off + t <= MAXFILE * BSIZE -> file_wf sb (x' <| i_size := Z.max (i_size x) (off + t) |>) ld'.
Proof.
  intros [M F E B A Al O I] F0 Ho Ht Hm. pose proof (ff_size _ _ _ F0) as Hs. apply size_wf; [done|lia|].
  intros bn Hb Hlt. apply A; [unfold in_file; change BSIZE with 1024 in *; lia|].
  destruct (Z_lt_le_dec (bn * BSIZE) (i_size x)); [left; by apply F0|]. right. split; [|lia].
  apply Z.div_le_upper_bound; [done|]. lia.
Qed.

Lemma wrote_written sb x ld x' ld' off bs t : geom sb -> wrote sb x ld x' ld' off bs t -> file_wf sb x ld -> dinode_ok x ->
  0 <= i_inum x < sb_ninodes sb -> (forall y, block_ok (ld' y)) -> 0 <= off <= i_size x -> 0 <= t -> off + t <= MAXFILE * BSIZE ->
  let x2 := x' <| i_size := Z.max (i_size x) (off + t) |> in
  written sb x ld x2 (store_inode sb x2 ld') off bs t.
Proof.
  intros G Hw F0 Hx Hi Hok Ho Ht Hm x2. pose proof (wrote_wf _ _ _ _ _ _ _ _ Hw F0 Ho Ht Hm) as F2. fold x2 in F2.
  destruct Hw as [M F E B A Al O I].
  assert (i_inum x2 = i_inum x) as Ei by (unfold x2; rewrite E; done).
  assert (dinode_ok x2) as Hx2 by (eapply file_dinode_ok; [done|exact F2|exact Hx|]; unfold x2; rewrite E; done).
  assert (forall y, sb_bmapstart sb <= y -> store_inode sb x2 ld' y = ld' y) as Eq by (intros y; apply store_inode_ge; [done|by rewrite Ei]).
  split.
  - by eapply inodes_meta.
  - by eapply inodes_wf.
  - unfold x2. rewrite E. done.
  - intros i Hib. rewrite (inodes_byte sb ld' _ G Eq x2 F2) by done. exact (B i Hib).
  - by apply store_inode_synced.
  - intros y Hd Hy. rewrite (inodes_allocated sb ld' _ G Eq); [by apply Al|]. pose proof (data_nonneg _ _ G Hd). lia.
  - intros y Hd Hy Hn. rewrite (inodes_owned sb ld' _ G Eq x2 F2), (inodes_data sb ld' _ G Eq) by done. by apply O.
  - intros j Hj Hjr. rewrite store_inode_other by (done || by rewrite Ei). rewrite I; [done|]. by apply IBLOCK_range.
Qed.

Section Writei.
Context {L : Layout} {I : Interference} {D : Disk} {DO : DiskOk D} {p : nat}.
Local Abbreviation view := (@view D p).
Context (sb : superblock) (G : geom sb) (Hone : sb_size sb <= BPB).
Local Abbreviation fileop := (fileop (p := p) sb).

(** [if(off > ip->size) ip->size = off] *)
Lemma grow_size_wp ip x ld k s : view [] ld k -> k_inodes k !! ip = Some x ->
  wp (when (i_size x <? s) (updi ip (set i_size (fun _ => s)))) (fun _ k' =>
    still ip (x <| i_size := Z.max (i_size x) s |>) k k' /\ k_log k' = k_log k /\ view [] ld k') k.
Proof.
  intros V N. destruct (Z.ltb_spec (i_size x) s) as [Hlt|Hge]; cbn [when].
  - unfold updi. wp_steps. rewrite Z.max_r by lia. split; [by apply (still_updi ip x (set i_size (fun _ => s)))|].
    split; [by kproj|by apply view_set_inodes].
  - wp_steps. rewrite Z.max_l by lia. replace (x <| i_size := i_size x |>) with x by (by destruct x).
    split; [by apply quiet_still|done].
Qed.

Lemma writei_src_wp ip J (SJ : source (D := D) ip J) x ld k src off bs Q (n := Z.of_nat (length bs)) :
  fileop (k_log k) [] ip x ld [] k -> J src bs k -> dinode_ok x -> 0 <= i_inum x < sb_ninodes sb -> Forall byte_ok bs ->
  0 <= off <= i_size x -> off + n <= MAXFILE * BSIZE -> room (2 + span off n) (k_log k) ->
  (forall t x' ld' k' ws, fileop (k_log k) [] ip x' ld' ws k' -> left_over J k' -> written sb x ld x' ld' off bs t ->
     Z.of_nat (length ws) <= 1 + span off n -> 0 <= t <= n -> (t = n \/ full sb ld') -> Q t k') ->
  wp (writei ip src off n) Q k.
Proof.
  intros H HJ Hx Hi Hbs Ho Hm Hr HQ. pose proof H as [V S N M F P]. pose proof (view_log _ _ _ V) as W0. pose proof (ff_size _ _ _ F) as Hs.
  unfold writei. wp_step. apply (fileop_geti _ _ _ _ _ _ _ _ _ H). change (MAXFILE * BSIZE) with 274432 in *.
  rewrite u32_id, (proj2 (Z.ltb_ge (i_size x) off)), (proj2 (Z.ltb_ge (off + n) off)), (proj2 (Z.ltb_ge 274432 (off + n))) by lia. cbn [orb].
  wp_step. apply (writei_loop_wp (p := p) sb G Hone (k_log k) W0 ip J SJ _ x ld [] k src off n 0 bs); try done; try lia.
  { cbn [length]. by rewrite Z.sub_0_r, Z.add_0_r. }
  { change (MAXFILE * BSIZE) with 274432. lia. }
  { destruct (decide (off mod BSIZE = 0)); [by left|right]. apply F; [apply Z.div_pos; [lia|done]|].
    pose proof (Z.div_mod off BSIZE ltac:(done)). pose proof (Z.mod_pos_bound off BSIZE ltac:(done)). lia. }
  rewrite Z.sub_0_r. intros t x1 ld1 k1 ws H1 St1 Hw1 Hn1 Ht1 Hf1. rewrite Z.add_0_l, app_nil_r in *.
  pose proof H1 as [V1 S1 N1 M1 F1 P1]. wp_step. apply (fileop_geti _ _ _ _ _ _ _ _ _ H1). cbn [fst snd].
  assert (i_size x1 = i_size x) as Es by (rewrite (wr_fields _ _ _ _ _ _ _ _ Hw1); done).
  set (x2 := x1 <| i_size := Z.max (i_size x) (off + t) |>).
  assert (i_inum x2 = i_inum x) as Ei by (unfold x2; rewrite (wr_fields _ _ _ _ _ _ _ _ Hw1); done).
  wp_step. eapply wp_mono; [apply (grow_size_wp ip x1 ld1 k1 (off + t) V1 N1)|]. rewrite Es. fold x2. cbv beta. intros _ k2 (St2 & L2 & V2).
  assert (fileop (k_log k) [] ip x2 ld1 ws k2) as H2.
  { split; try done; [by rewrite (still_sb _ _ _ _ St2)|by eapply still_lookup|eapply wrote_wf; try done; change (MAXFILE * BSIZE) with 274432; lia|by rewrite L2]. }
  wp_step. apply (iupdate_wp (p := p) sb G (k_log k) W0 ip x2 ld1 ws k2); [done|by rewrite Ei|eapply room_le; [|exact Hr]; lia|].
  intros k3 H3 Q3. wp_steps. rewrite i32_id by lia.
  assert (left_over J k3) as St3.
  { destruct St1 as (s1 & b1 & J1). exists s1, b1. eapply so_still; [exact SJ|eapply so_still; [exact SJ|exact J1|exact St2]|].
    apply quiet_still; [by eapply still_lookup|done]. }
  eapply HQ; [exact H3|exact St3|apply wrote_written; try done; [intros y; by eapply view_block|lia|change (MAXFILE * BSIZE) with 274432; lia]|cbn [length]; lia|done|].
  destruct Hf1 as [->|Hf]; [by left|right]. intros c Hc. rewrite (inodes_allocated sb ld1 _ G); [by apply Hf| |done].
  intros y. apply store_inode_ge; [done|by rewrite Ei].
Qed.

(** From a buffer of the kernel. *)
Lemma writei_wp ip x ld k off bs Q (n := Z.of_nat (length bs)) :
  fileop (k_log k) [] ip x ld [] k -> dinode_ok x -> 0 <= i_inum x < sb_ninodes sb -> Forall byte_ok bs ->
  0 <= off <= i_size x -> off + n <= MAXFILE * BSIZE -> room (2 + span off n) (k_log k) ->
  (forall t x' ld' k' ws, fileop (k_log k) [] ip x' ld' ws k' -> written sb x ld x' ld' off bs t ->
     Z.of_nat (length ws) <= 1 + span off n -> 0 <= t <= n -> (t = n \/ full sb ld') -> Q t k') ->
  wp (writei ip (S_bytes bs) off n) Q k.
Proof.
  intros H Hx Hi Hbs Ho Hm Hr HQ. apply (writei_src_wp ip _ (bytes_source ip) x ld k (S_bytes bs) off bs); try done.
  intros t x' ld' k' ws H' _. by apply HQ.
Qed.
End Writei.
