(* ===== verification/FsProps.v ===== *)
(** * Properties of files, with instances

    The theorems of this file are about a file as a sequence of bytes: what a
    routine of kernel/fs.c does to the bytes of the file, to those of other
    files and to the log.  The state of the file system they share comes
    first. *)

From Stdlib Require Import ZArith Lia.
From stdpp Require Import base list strings sets.
From S2P Require Import Prelude Params Mem State Evict Kalloc Vm VmInv VmFault UserMem Demo Sched SchedSpec SchedProps Sleeplock Printf Bio.
From S2P Require Import BioSpec BioLaws Log Fs File FsInv LogSpec LogTheorems FsDemo FsAlloc FsFile.
From S2P Require Import FsBmap FsSource FsRw FsInode.

(** File [ip] is [x] on the disk [ld], which the thread [p] works on in a
    transaction. *)
Record fs_file `{D : Disk} (p : nat) (sb : superblock) (ip : nat) (x : inode) (ld : Z -> list Z) (k : kernel) : Prop := {
  fi_geom : geom sb;
  fi_one : sb_size sb <= BPB;
  fi_view : view (p := p) [] ld k;
  fi_sb : k_sb k = sb;
  fi_inode : k_inodes k !! ip = Some x;
  fi_meta : meta_marked sb ld;
  fi_wf : file_wf sb x ld;
  fi_ok : dinode_ok x;
  fi_inum : 0 <= i_inum x < sb_ninodes sb
}.

Section FsFile.
Context {I : Interference} {D : Disk} {DO : DiskOk D}.

Lemma fs_file_op p sb ip x ld k : fs_file p sb ip x ld k -> fileop (p := p) sb (k_log k) [] ip x ld [] k.
Proof. intros [G O V S N M F K U]. split; try done. apply spent_refl. Qed.

Lemma fs_file_log p sb ip x ld k : fs_file p sb ip x ld k -> log_wf (k_log k).
Proof. intros H. by eapply view_log, fi_view. Qed.

Lemma written_file p sb ip x ld x' ld' ws k k' off bs t : fs_file p sb ip x ld k -> fileop (p := p) sb (k_log k) [] ip x' ld' ws k' ->
  written sb x ld x' ld' off bs t -> fs_file p sb ip x' ld' k'.
Proof.
  intros [G O V S N M F K U] [V' S' N' M' F' P'] Hw. split; try done.
  - apply (file_dinode_ok sb x x' ld' G F' K). rewrite (wn_fields _ _ _ _ _ _ _ _ Hw). done.
  - by rewrite (wn_fields _ _ _ _ _ _ _ _ Hw).
Qed.

Lemma fs_file_quiet p sb ip x ld k k' : fs_file p sb ip x ld k -> view (p := p) [] ld k' -> quiet k k' -> fs_file p sb ip x ld k'.
Proof. intros [G O V S N M F K U] V' Q'. split; try done; [by rewrite (quiet_sb _ _ Q')|by rewrite (quiet_inodes _ _ Q')]. Qed.

End FsFile.

(** ** The instance *)
Definition demo_sb : superblock := mksuperblock FSMAGIC 200 154 200 30 2 32 45.

(** The bitmap: blocks 0 to 45 are the system's. *)
Definition demo_bitmap : list Z := replicate 5 255 ++ [63] ++ replicate (Z.to_nat BSIZE - 6) 0.
Definition demo_disk (y : Z) : list Z := if y =? 45 then demo_bitmap else zero_block.

Definition demo_inode : inode :=
  mkinode ROOTDEV 1 1 (mksleeplock 1 0) 1 T_FILE 0 0 1 0 (replicate 13 0).

Definition fsk0 : kernel :=
  demo <| k_disk := demo_disk |> <| k_log := mkloginfo 2 1 0 1 0 (replicate 30 0) |>
    <| k_sb := demo_sb |> <| k_inodes := demo_inode :: replicate 49 inode0 |>.

Lemma demo_disk_ok y : block_ok (demo_disk y).
Proof.
  unfold demo_disk. destruct (y =? 45); [|apply zero_block_ok]. split; [done|].
  unfold demo_bitmap. rewrite !Forall_app. repeat split; try apply Forall_replicate; try done. by constructor.
Qed.

Definition fsk : kernel := final binit fsk0.

Lemma fsk0_thread : thread 0 fsk0.
Proof. destruct fdemo0_thread as [T1 T2 T3 T4 T5]. split; try done. Qed.

Definition fsk_spec (k : kernel) : Prop :=
  view (p := 0%nat) [] demo_disk k /\ k_sb k = demo_sb /\ k_inodes k = k_inodes fsk0 /\ k_log k = k_log fsk0 /\
  k = fsk0 <| k_bufs := k_bufs k |>.

Lemma fsk_view : fsk_spec fsk.
Proof.
  unfold fsk. apply (wp_final binit fsk_spec). eapply wp_mono; [apply (binit_fs_wf fsk0 fsk0_thread)|].
  - split; [done|]. exact (proj2 fdemo0_bufs).
  - apply demo_disk_ok.
  - cbv beta. intros _ k' [Hk Hw]. change (k_disk fsk0) with demo_disk in Hw.
    assert (k_log k' = k_log fsk0) as Hl by (rewrite Hk; by kproj).
    assert (k_disk k' = demo_disk) as Hd by (rewrite Hk; by kproj).
    split; [|split; [rewrite Hk; by kproj|split; [rewrite Hk; by kproj|by split]]].
    split; [split| |].
    + rewrite Hl. exact Hw.
    + rewrite Hl. split; cbn; try done; constructor.
    + intros b x Hb%elem_of_nil. done.
    + intros x. right. by rewrite Hd.
Qed.

Lemma demo_geom : geom demo_sb.
Proof. split; cbn; try lia; done. Qed.

Lemma demo_meta : meta_marked demo_sb demo_disk.
Proof.
  intros y Hy. change (data_start demo_sb) with 46 in Hy.
  assert (forallb (allocated demo_sb demo_disk) (seqZ 0 46) = true) as H by (vm_compute; reflexivity).
  rewrite forallb_forall in H. apply H, list_elem_of_In, elem_of_seqZ. lia.
Qed.

Lemma demo_addr bn : addr_of demo_inode demo_disk bn = 0.
Proof.
  unfold addr_of. destruct (Z.ltb_spec bn NDIRECT); [|done]. unfold aget. change (i_addrs demo_inode) with (replicate 13 0).
  rewrite list_lookup_total_alt, lookup_replicate_2 by fslia. done.
Qed.

Lemma demo_file_wf : file_wf demo_sb demo_inode demo_disk.
Proof.
  split; try done.
  - intros y [Hy [->|(bn & _ & E)]]; [done|]. by rewrite demo_addr in E.
  - intros bn bn' _ _. by rewrite demo_addr.
  - intros bn H0. cbn. change BSIZE with 1024. lia.
Qed.

Lemma demo_dinode_ok : dinode_ok demo_inode.
Proof. split; try done. apply Forall_replicate. done. Qed.

Lemma fsk_file : fs_file 0 demo_sb 0 demo_inode demo_disk fsk /\ k_log fsk = k_log fsk0.
Proof.
  destruct fsk_view as (V & S & N & Lg & _). generalize dependent fsk. intros k V S N Lg. split; [|done].
  split; [apply demo_geom|done|exact V|exact S|by rewrite N|apply demo_meta|apply demo_file_wf|apply demo_dinode_ok|done].
Qed.

(** Three bytes of the process, the last one in a page that is swapped out. *)
Definition demo_text : list Z := ubytes demo_mem (pg 0) 4094 3.

Lemma fsk_supplies : supplies (p := 0%nat) demo_use (S_user 4094) demo_text fsk /\ Forall byte_ok demo_text.
Proof.
  split; [|vm_compute; repeat constructor; discriminate]. exists (pg 0).
  assert (readable demo_use 0 (pg 0) 4094 demo_text demo) as R.
  { split; [apply demo_uctx| |done|done|done| |reflexivity].
    - split; [by exists (frame_index (pg 3))|by exists 1].
    - intros i Hi. destruct (demo_accessible (4094 + i)) as (fl & b & H1 & H2 & _); [change (length demo_text) with 3%nat in Hi; addr|]. by exists fl, b. }
  destruct fsk_view as (_ & _ & _ & _ & ->). by apply (readable_ext demo_use 0 (pg 0) 4094 demo_text demo).
Qed.

#[global] Opaque fsk.

(** ** Properties of files, with instances

    The theorems of this file are about a file as a sequence of bytes: what a
    routine of kernel/fs.c does to the bytes of the file, to those of other
    files and to the log. *)

Section FsProps.
Context {L : Layout} {LO : LayoutOk L} {I : Interference} {D : Disk} {DO : DiskOk D}.

(** The files [x] and [y] share no block. *)
Definition apart (x y : inode) (ld : Z -> list Z) : Prop := forall z, owned x ld z -> ~ owned y ld z.

(** A write to one file is none to another. *)
Section Frame.
Context (sb : superblock) (x y x' : inode) (ld ld' : Z -> list Z) (off : Z) (bs : list Z) (t : Z).
Context (G : geom sb) (Hw : written sb x ld x' ld' off bs t) (F : file_wf sb y ld) (Ha : apart x y ld).

Lemma frame_data z : owned y ld z -> ld' z = ld z /\ ~ owned x' ld' z.
Proof. intros Hz. destruct (ff_data _ _ _ F z Hz). apply Hw; try done. intros Hx. by apply (Ha z). Qed.

Lemma frame_addr bn : addr_of y ld' bn = addr_of y ld bn.
Proof.
  unfold addr_of. destruct (_ <? _); [done|]. destruct (Z.eqb_spec (ind y) 0) as [|Hi]; [done|].
  by rewrite (proj1 (frame_data _ (ind_owned y ld Hi))).
Qed.

Lemma frame_owned z : owned y ld' z <-> owned y ld z.
Proof. unfold owned. by setoid_rewrite frame_addr. Qed.

Lemma frame_byte i : 0 <= i < MAXFILE * BSIZE -> file_byte y ld' i = file_byte y ld i.
Proof.
  intros Hi. unfold file_byte, file_data. rewrite frame_addr. destruct (Z.eqb_spec (addr_of y ld (i / BSIZE)) 0); [done|].
  destruct (frame_data (addr_of y ld (i / BSIZE))) as [-> _]; [|done]. split; [done|]. right. exists (i / BSIZE). split; [by apply in_file_div|done].
Qed.

Lemma frame_wf : file_wf sb y ld'.
Proof.
  destruct F as [F1 F2 F3 F4 F5 F6 F7]. split; try done.
  - intros z Hz%frame_owned. destruct (F3 z Hz). split; [done|]. by apply (wn_alloc _ _ _ _ _ _ _ _ Hw).
  - intros bn bn'. rewrite !frame_addr. apply F4.
  - intros bn. rewrite frame_addr. apply F5.
  - intros bn. rewrite frame_addr. apply F7.
Qed.

Lemma frame_apart : apart x' y ld'.
Proof. intros z Hx Hy%frame_owned. by destruct (frame_data z Hy). Qed.
End Frame.

(** [writei] from any source. *)
Lemma write_file_wp use0 p sb ip x ld k src off bs (n := Z.of_nat (length bs)) Q :
  fs_file p sb ip x ld k -> supplies (p := p) use0 src bs k -> Forall byte_ok bs ->
  0 <= off <= i_size x -> off + n <= MAXFILE * BSIZE -> room (2 + span off n) (k_log k) ->
  (forall t x' ld' k' ws, fs_file p sb ip x' ld' k' -> fileop (p := p) sb (k_log k) [] ip x' ld' ws k' ->
     same_views use0 (k_mem k) (k_mem k') -> written sb x ld x' ld' off bs t ->
     Z.of_nat (length ws) <= 1 + span off n -> 0 <= t <= n -> (t = n \/ full sb ld') -> Q t k') ->
  wp (writei ip src off n) Q k.
Proof.
  intros H Hsrc Hbs Ho Hm Hr HQ. pose proof H as [G O V S N M F K U].
  apply (writei_src_wp (p := p) sb G O ip _ (supplied_source (p := p) ip use0 k) x ld k src off bs); try done; [by apply fs_file_op|].
  intros t x' ld' k' ws Ho' (src' & bs' & _ & Hv) Hw Hn Ht Hf. eapply HQ; try done. by eapply written_file.
Qed.

(** ** Theorems *)

(** C15. [writei] is an assignment to a range of the file's bytes.  The source
    is a buffer of the kernel, or a range of user memory that the process can
    read, in RAM or swapped out: [writei] writes [r] bytes of it at [off], all
    of them unless the disk has become full; every byte of the file is then the
    source's in that range and the old one elsewhere, the size is the maximum
    of the old size and the end of the range, the file is still well formed,
    the inode on the disk agrees with the one in memory, and no process sees
    its memory change. *)
Theorem writei_spec use0 p sb ip x ld k src off bs (n := Z.of_nat (length bs)) :
  fs_file p sb ip x ld k -> supplies (p := p) use0 src bs k -> Forall byte_ok bs ->
  0 <= off <= i_size x -> off + n <= MAXFILE * BSIZE -> room (2 + span off n) (k_log k) ->
  wp (writei ip src off n) (fun r k' => exists x' ld',
    fs_file p sb ip x' ld' k' /\ 0 <= r <= n /\ (r = n \/ full sb ld') /\
    i_size x' = Z.max (i_size x) (off + r) /\ synced sb x' ld' /\ same_views use0 (k_mem k) (k_mem k') /\
    forall i, 0 <= i < MAXFILE * BSIZE ->
      file_byte x' ld' i = if decide (off <= i < off + r) then aget bs (i - off) else file_byte x ld i) k.
Proof.
  intros H Hsrc Hbs Ho Hm Hr. apply (write_file_wp use0 p sb ip x ld k src off bs); try done.
  intros t x' ld' k' ws H' Ho' Hv Hw Hn Ht Hf. exists x', ld'. split; [done|]. split; [done|]. split; [done|].
  split; [by rewrite (wn_fields _ _ _ _ _ _ _ _ Hw)|]. split; [apply Hw|]. split; [done|]. apply Hw.
Qed.

(** C16. A write to one file, from a buffer of the kernel or from readable user
    memory, leaves every other file alone: a file that has another inode number and no block in common with the one written keeps its
    bytes, its blocks, and its inode on the disk, and has no block in common
    with the file after the write either. *)
Theorem writei_frame use0 p sb ip x ld k src off bs y (n := Z.of_nat (length bs)) :
  fs_file p sb ip x ld k -> supplies (p := p) use0 src bs k -> Forall byte_ok bs ->
  0 <= off <= i_size x -> off + n <= MAXFILE * BSIZE -> room (2 + span off n) (k_log k) ->
  file_wf sb y ld -> apart x y ld -> i_inum y <> i_inum x -> 0 <= i_inum y < sb_ninodes sb ->
  wp (writei ip src off n) (fun _ k' => exists x' ld',
    fs_file p sb ip x' ld' k' /\ file_wf sb y ld' /\ apart x' y ld' /\
    slice (dip_off (i_inum y)) 64 (ld' (IBLOCK (i_inum y) sb)) = slice (dip_off (i_inum y)) 64 (ld (IBLOCK (i_inum y) sb)) /\
    forall i, 0 <= i < MAXFILE * BSIZE -> file_byte y ld' i = file_byte y ld i) k.
Proof.
  intros H Hsrc Hbs Ho Hm Hr Fy Hy Hne Hin. pose proof (fi_geom _ _ _ _ _ _ H) as G.
  apply (write_file_wp use0 p sb ip x ld k src off bs); try done.
  intros t x' ld' k' ws H' Ho' Hv Hw Hn Ht Hf. exists x', ld'. split; [done|].
  split; [by eapply frame_wf|]. split; [by eapply frame_apart|]. split; [by apply Hw|]. intros i Hi. by eapply frame_byte.
Qed.

(** [readi] returns the bytes of the file from [off] on, as many as were
    asked for or as there are up to the size, and changes neither the disk nor
    the log. *)
Theorem readi_spec p sb ip x ld k off n :
  fs_file p sb ip x ld k -> l_n (k_log k) < NBUF -> 0 <= off <= i_size x -> 0 <= n -> off + n < 2 ^ 32 ->
  wp (readi ip D_local off n) (fun r k' => fs_file p sb ip x ld k' /\ k_log k' = k_log k /\
    r = (Z.min n (i_size x - off), file_slice x ld off (Z.min n (i_size x - off)))) k.
Proof.
  intros H Hl Ho Hn Hw. pose proof H as [G O V S N M F K U]. apply (readi_wp (p := p) sb G ip x ld F off n); try done.
  intros k' V' Q' L' r. split; [by eapply fs_file_quiet|done].
Qed.

(** What was written is read back: a read of the range a write has
    covered returns the bytes written. *)
Theorem write_read p sb ip x ld k off bs (n := Z.of_nat (length bs)) :
  fs_file p sb ip x ld k -> Forall byte_ok bs -> 0 <= off <= i_size x -> off + n <= MAXFILE * BSIZE ->
  room (3 + span off n) (k_log k) ->
  wp (let! r := writei ip (S_bytes bs) off n in
      let! q := readi ip D_local off r in
      ret (r, q)) (fun a k' => exists x' ld', fs_file p sb ip x' ld' k' /\
        (a.1 = n \/ full sb ld') /\ a.2 = (a.1, take (Z.to_nat a.1) bs)) k.
Proof.
  intros H Hbs Ho Hm Hr. pose proof H as [G O V S N M F K U]. wp_step.
  apply (writei_wp (p := p) sb G O ip x ld k off bs); try done; [by apply fs_file_op|eapply room_le; [|exact Hr]; fold n; lia|].
  intros t x' ld' k' ws Ho' Hw Hn Ht Hf. pose proof (written_file _ _ _ _ _ _ _ _ _ _ _ _ _ H Ho' Hw) as H'.
  assert (i_size x' = Z.max (i_size x) (off + t)) as Es by (by rewrite (wn_fields _ _ _ _ _ _ _ _ Hw)).
  assert (room 0 (k_log k')) as R.
  { apply (fileop_room sb _ (fs_file_log _ _ _ _ _ _ H) _ _ _ _ _ _ Ho'). eapply room_le; [|exact Hr]. fold n in Hn. lia. }
  pose proof H' as [_ _ V' S' N' M' F' K' U']. change (MAXFILE * BSIZE) with 274432 in *.
  wp_step. apply (readi_wp (p := p) sb G ip x' ld' F' off t); try done; [destruct R; lia|lia|lia|lia|].
  intros k2 V2 Q2 L2. rewrite Es, Z.min_l by lia. wp_steps. exists x', ld'. split; [|split; [done|]].
  - by eapply fs_file_quiet.
  - cbn [fst snd]. f_equal. apply list_eq. intros i. destruct (decide (i < Z.to_nat t)%nat) as [Hi|Hi].
    + rewrite file_slice_lookup, lookup_take_lt by done. change 274432 with (MAXFILE * BSIZE) in *.
      rewrite (wn_byte _ _ _ _ _ _ _ _ Hw) by lia. rewrite decide_True by lia. unfold aget.
      rewrite <- list_lookup_lookup_total_lt by lia. f_equal. lia.
    + rewrite !lookup_ge_None_2; [done|rewrite length_take; lia|rewrite file_slice_length; lia].
Qed.

(** C17. A write of the size [filewrite] makes in one transaction, from readable
    user memory or from a buffer of the kernel, fits in the log space
    [begin_op] has reserved: with room for MAXOPBLOCKS blocks at the
    start, the write does not run out of log or of buffers, and it logs at most
    seven blocks (four of data, the indirect block, the bitmap and the
    inode). *)
Theorem writei_log_blocks use0 p sb ip x ld k src off bs (n := Z.of_nat (length bs)) :
  fs_file p sb ip x ld k -> supplies (p := p) use0 src bs k -> Forall byte_ok bs -> 0 <= off <= i_size x -> off + n <= MAXFILE * BSIZE ->
  n <= max_write -> l_n (k_log k) + MAXOPBLOCKS <= LOGBLOCKS -> 1 <= l_outstanding (k_log k) ->
  wp (writei ip src off n) (fun _ k' => l_n (k_log k') <= l_n (k_log k) + 7 /\ l_outstanding (k_log k') = l_outstanding (k_log k)) k.
Proof.
  intros H Hsrc Hbs Ho Hm Hn Hr Hout. assert (span off n <= 4) as Hs.
  { unfold span. change BSIZE with 1024. change max_write with 3072 in Hn. destruct (n =? 0); [lia|]. dlia. }
  change LOGBLOCKS with 30 in Hr. change MAXOPBLOCKS with 10 in Hr.
  apply (write_file_wp use0 p sb ip x ld k src off bs); try done; [split; [change NBUF with 30; fold n; lia|done]|].
  intros t x' ld' k' ws H' Ho' Hv Hw Hws Ht Hf. pose proof Ho' as [V' _ _ _ _ P']. pose proof (touch_length sb x').
  pose proof (spent_n _ _ _ P' (fs_file_log _ _ _ _ _ _ H) (view_log _ _ _ V')) as Hb. rewrite length_app in Hb. fold n in Hws.
  split; [lia|]. apply P'.
Qed.

(** [bmap] gives every block of a file a place on the disk without
    changing the file: the result is the disk block of file block [bn], 0 only
    if the disk is full; a block the file had stays where it was, a new one is
    zero-filled, and the contents of the file are what they were. *)
Theorem bmap_spec p sb ip x ld k bn :
  fs_file p sb ip x ld k -> in_file bn -> room 3 (k_log k) ->
  wp (bmap ip bn) (fun r k' => exists x' ld', fs_file p sb ip x' ld' k' /\ addr_of x' ld' bn = r /\
    (r = 0 -> full sb ld') /\ (addr_of x ld bn <> 0 -> r = addr_of x ld bn) /\
    (addr_of x ld bn = 0 -> r <> 0 -> is_data sb r /\ allocated sb ld r = false /\ ld' r = zeros) /\
    i_size x' = i_size x /\ forall i, 0 <= i < MAXFILE * BSIZE -> file_byte x' ld' i = file_byte x ld i) k.
Proof.
  intros H Hbn Hr. pose proof H as [G O V S N M F K U].
  apply (bmap_wp (p := p) sb G O (k_log k) (fs_file_log _ _ _ _ _ _ H) ip x ld []); [by apply fs_file_op|done|done|].
  intros r x' ld' k' [Ho' St Hg Ha Hf]. pose proof Ho' as [V' S' N' M' F' P']. exists x', ld'.
  pose proof (gr_fields _ _ _ _ _ Hg) as E. split; [|split; [done|split; [done|split; [|split; [|split]]]]].
  - split; try done; [|by rewrite E]. apply (file_dinode_ok sb x x' ld' G F' K). rewrite E. by destruct x.
  - intros Hz. rewrite <- Ha. by apply (gr_addr _ _ _ _ _ Hg).
  - intros Hz Hr0. assert (owned x' ld' r) as Ho by (split; [done|right; by exists bn]).
    destruct (ff_data _ _ _ F' r Ho) as [Hd _]. split; [done|]. split.
    + destruct (gr_new _ _ _ _ _ Hg r Ho) as [[_ [E1|(bn' & Hbn' & E1)]]|]; [exfalso..|done].
      * apply (ff_ind _ _ _ F' bn Hbn); rewrite (gr_ind _ _ _ _ _ Hg); congruence.
      * assert (bn = bn') as ->; [|congruence]. apply (ff_inj _ _ _ F'); [done|done|congruence|].
        rewrite (gr_addr _ _ _ _ _ Hg bn') by congruence. congruence.
    + pose proof (gr_data _ _ _ _ _ Hg bn Hbn) as Hdat. unfold file_data in Hdat. rewrite Ha, Hz in Hdat.
      by rewrite (proj2 (Z.eqb_neq r 0)) in Hdat.
  - by rewrite E.
  - intros i Hi. unfold file_byte. rewrite (gr_data _ _ _ _ _ Hg); [done|]. by apply in_file_div.
Qed.

(** [balloc] takes the first free block: it marks it in use, fills it
    with zeros and changes no other block and no other mark; it returns 0 if
    every block is in use, and then nothing changes. *)
Theorem balloc_spec p sb ld k :
  view (p := p) [] ld k -> k_sb k = sb -> geom sb -> meta_marked sb ld -> room 1 (k_log k) ->
  wp (balloc ROOTDEV) (fun b k' => exists ld', view (p := p) [] ld' k' /\ meta_marked sb ld' /\
    ((full sb ld /\ b = 0 /\ ld' = ld) \/
     (first_free sb ld b /\ is_data sb b /\ ld' b = zeros /\
      (forall y, 0 <= y < sb_size sb -> allocated sb ld' y = bool_decide (b = y) || allocated sb ld y) /\
      (forall y, y <> b -> y <> BBLOCK b sb -> ld' y = ld y)))) k.
Proof.
  intros V S G M Hr. apply (balloc_wp (p := p) sb [] ld k); try done; [by intros y Hy%elem_of_nil|cbn; lia|eapply room_le; [|exact Hr]; lia|..].
  - intros b Hb. by apply (room_adds 0 [_]).
  - intros b k' Hf V' Q' L'. exists (alloc_ld sb b ld). assert (forall y, block_ok (ld y)) as Hl by (intros y; by eapply view_block).
    split; [done|]. split; [by apply alloc_ld_meta|]. right. split; [done|]. split; [by eapply first_free_data|]. split; [apply alloc_ld_eq|].
    split; [intros y; by apply alloc_ld_allocated|]. intros y H1 H2. unfold alloc_ld. by rewrite !fupd_ne.
  - intros k' Hf V' Q' L'. exists ld. split; [done|]. split; [done|]. by left.
Qed.
End FsProps.

(** ** Instances *)
Definition three : list Z := [1; 2; 3].

Lemma three_ok : Forall byte_ok three.
Proof. repeat constructor; done. Qed.

Lemma fsk_room m : m < 27 -> room m (k_log fsk).
Proof. intros H. destruct fsk_file as [_ ->]. split; [|done]. change (l_n (k_log fsk0)) with 0. change NBUF with 30. lia. Qed.

Lemma writei_spec_witness :
  wp (writei 0 (S_user 4094) 0 3) (fun r k' => 0 <= r <= 3 /\ exists x' ld', fs_file 0 demo_sb 0 x' ld' k' /\ i_size x' = r) fsk.
Proof.
  destruct fsk_supplies as [Hs Hb].
  eapply wp_mono; [apply (writei_spec demo_use 0 demo_sb 0 demo_inode demo_disk fsk (S_user 4094) 0 demo_text (proj1 fsk_file) Hs Hb)|].
  - cbn. lia.
  - cbn. change (MAXFILE * BSIZE) with 274432. lia.
  - apply fsk_room. done.
  - cbv beta. intros r k' (x' & ld' & H & Hr & _ & Hz & _). split; [exact Hr|]. exists x', ld'. split; [exact H|].
    rewrite Hz. change (i_size demo_inode) with 0. lia.
Defined.

(** Another empty file. *)
Definition demo_inode2 : inode := demo_inode <| i_inum := 2 |>.

Lemma writei_frame_witness : wp (writei 0 (S_bytes three) 0 3) (fun _ k' => exists x' ld', fs_file 0 demo_sb 0 x' ld' k' /\ file_wf demo_sb demo_inode2 ld') fsk.
Proof.
  eapply wp_mono; [apply (writei_frame demo_use 0 demo_sb 0 demo_inode demo_disk fsk (S_bytes three) 0 three demo_inode2 (proj1 fsk_file) eq_refl three_ok)|].
  - cbn. lia.
  - cbn. change (MAXFILE * BSIZE) with 274432. lia.
  - apply fsk_room. done.
  - destruct demo_file_wf as [F1 F2 F3 F4 F5 F6 F7]. exact (Build_file_wf demo_sb demo_inode2 demo_disk F1 F2 F3 F4 F5 F6 F7).
  - intros z [Hz [->|(bn & _ & E)]]; [done|]. by rewrite demo_addr in E.
  - done.
  - cbn. lia.
  - cbv beta. intros r k' (x' & ld' & H & F & _). exists x', ld'. split; assumption.
Defined.

Lemma readi_spec_witness : wp (readi 0 D_local 0 3) (fun r k' => k_log k' = k_log fsk /\ r.1 = 0) fsk.
Proof.
  eapply wp_mono; [apply (readi_spec 0 demo_sb 0 demo_inode demo_disk fsk 0 3 (proj1 fsk_file))|].
  - destruct fsk_file as [_ ->]. done.
  - cbn. lia.
  - lia.
  - lia.
  - cbv beta. intros r k' (_ & Hl & ->). split; [exact Hl|done].
Defined.

Lemma write_read_witness : wp (let! r := writei 0 (S_bytes three) 0 3 in let! q := readi 0 D_local 0 r in ret (r, q))
  (fun a _ => a.2 = (a.1, take (Z.to_nat a.1) three)) fsk.
Proof.
  eapply wp_mono; [apply (write_read 0 demo_sb 0 demo_inode demo_disk fsk 0 three (proj1 fsk_file) three_ok)|].
  - cbn. lia.
  - cbn. change (MAXFILE * BSIZE) with 274432. lia.
  - apply fsk_room. done.
  - cbv beta. intros a k' (x' & ld' & _ & _ & H). exact H.
Defined.

Lemma writei_log_blocks_witness : wp (writei 0 (S_user 4094) 0 3) (fun _ k' => l_n (k_log k') <= 7) fsk.
Proof.
  destruct fsk_supplies as [Hs Hb].
  eapply wp_mono; [apply (writei_log_blocks demo_use 0 demo_sb 0 demo_inode demo_disk fsk (S_user 4094) 0 demo_text (proj1 fsk_file) Hs Hb)|].
  - cbn. lia.
  - cbn. change (MAXFILE * BSIZE) with 274432. lia.
  - done.
  - destruct fsk_file as [_ ->]. done.
  - destruct fsk_file as [_ ->]. done.
  - cbv beta. intros r k' [H _]. destruct fsk_file as [_ E]. rewrite E in H. exact H.
Defined.

Lemma bmap_spec_witness : wp (bmap 0 20) (fun r k' => exists x' ld', fs_file 0 demo_sb 0 x' ld' k' /\ addr_of x' ld' 20 = r) fsk.
Proof.
  eapply wp_mono; [apply (bmap_spec 0 demo_sb 0 demo_inode demo_disk fsk 20 (proj1 fsk_file))|].
  - done.
  - apply fsk_room. done.
  - cbv beta. intros r k' (x' & ld' & H & E & _). exists x', ld'. split; assumption.
Defined.

Lemma balloc_spec_witness : wp (balloc ROOTDEV) (fun b _ => b = 46) fsk.
Proof.
  destruct fsk_file as [H _]. eapply wp_mono; [apply (balloc_spec 0 demo_sb demo_disk fsk (fi_view _ _ _ _ _ _ H) (fi_sb _ _ _ _ _ _ H) demo_geom demo_meta)|].
  - apply fsk_room. done.
  - assert (allocated demo_sb demo_disk 46 = false) as E by (vm_compute; reflexivity).
    cbv beta. intros b k' (ld' & _ & _ & [(Hf & _)|((Hb & Hb2 & Hb3) & Hd & _)]).
    + rewrite Hf in E; [discriminate|]. cbn. lia.
    + destruct Hd as [Hd _]. change (data_start demo_sb) with 46 in Hd. destruct (Z.eq_dec b 46) as [|Hn]; [assumption|].
      rewrite Hb3 in E; [discriminate|]. lia.
Defined.
