(* ===== verification/FsDirProps.v ===== *)
(** * Properties of directories and of the inode table, with instances

    A directory as a map from names to inode numbers, and what dirlookup and
    dirlink do to it. *)

From Stdlib Require Import ZArith Lia.
From stdpp Require Import base list strings sets.
From S2P Require Import Prelude Params Mem State Evict Kalloc Vm Demo Sched SchedSpec SchedProps Sleeplock Printf Bio.
From S2P Require Import BioSpec BioLaws Log Fs FsInv LogSpec LogTheorems FsDemo FsAlloc FsFile FsBmap.
From S2P Require Import FsRw FsInode FsProps.

(** ** Names *)

(** The string in the first [n] bytes of a buffer. *)
Fixpoint cname (n : nat) (s : list Z) : list Z :=
  match n, s with
  | S n', c :: s' => if c =? 0 then [] else c :: cname n' s'
  | _, _ => []
  end.

(** [strncmp] is 0 exactly on equal strings. *)
Lemma strncmp_eq n s t : strncmp_bytes n s t = 0 <-> cname n s = cname n t.
Proof.
  revert s t. induction n as [|n IH]; intros s t; [done|]. cbn [strncmp_bytes].
  destruct s as [|c s], t as [|d t]; cbn [hd tl cname].
  - done.
  - cbn. destruct (Z.eqb_spec d 0); split; try done; lia.
  - destruct (Z.eqb_spec c 0) as [->|Hc]; cbn [negb andb]; [done|]. split; [lia|done].
  - destruct (Z.eqb_spec c 0) as [->|Hc]; cbn [negb andb].
    + destruct (Z.eqb_spec d 0); split; try done; lia.
    + destruct (Z.eqb_spec c d) as [->|Hcd].
      * rewrite (proj2 (Z.eqb_neq d 0)) by done. rewrite IH. split; [by intros ->|]. by intros [= ->].
      * split; [lia|]. destruct (d =? 0); [done|]. by intros [= -> _].
Qed.

(** [strncpy] stores the string, and its length is the buffer's. *)
Lemma cname_strncpy n t : cname n (strncpy_bytes n t) = cname n t.
Proof.
  revert t. induction n as [|n IH]; intros t; [done|]. cbn [strncpy_bytes]. destruct t as [|c t]; cbn [hd tl]; [done|].
  destruct (Z.eqb_spec c 0) as [->|Hc]; [done|]. cbn [cname]. rewrite (proj2 (Z.eqb_neq c 0)) by done. by rewrite IH.
Qed.

Lemma length_strncpy n t : length (strncpy_bytes n t) = n.
Proof.
  revert t. induction n as [|n IH]; intros t; [done|]. cbn [strncpy_bytes]. destruct (hd 0 t =? 0); [by rewrite length_replicate|].
  cbn [length]. by rewrite IH.
Qed.

Lemma strncpy_ok n t : Forall byte_ok t -> Forall byte_ok (strncpy_bytes n t).
Proof.
  revert t. induction n as [|n IH]; intros t Ht; [by constructor|]. cbn [strncpy_bytes]. destruct (Z.eqb_spec (hd 0 t) 0); [by apply Forall_replicate|].
  destruct Ht as [|c t Hc Ht]; [done|]. constructor; [done|]. by apply IH.
Qed.

(** ** Entries *)
Definition dname (s : list Z) : list Z := cname (Z.to_nat DIRSIZ) s.

Definition de_at (x : inode) (ld : Z -> list Z) (j : Z) : list Z := file_slice x ld (DIRENT * j) DIRENT.

Definition entries (x : inode) (ld : Z -> list Z) : list (list Z) :=
  map (fun j => de_at x ld (Z.of_nat j)) (seq 0 (Z.to_nat (i_size x / DIRENT))).

(** Entry [e] is in use for the name [s]. *)
Definition matches (s e : list Z) : Prop := de_inum e <> 0 /\ dname (de_name e) = dname s.
#[export] Instance matches_dec s e : Decision (matches s e).
Proof. unfold matches. apply _. Defined.

(** The inode number of a name. *)
Definition dir_map (x : inode) (ld : Z -> list Z) (s : list Z) : option Z :=
  (fun ie => de_inum ie.2) <$> list_find (matches s) (entries x ld).

(** The test of [dirlookup]. *)
Lemma matches_test s e : (de_inum e =? 0) = false -> (namecmp s (de_name e) =? 0) = bool_decide (matches s e).
Proof.
  intros H%Z.eqb_neq. unfold namecmp, matches. case_bool_decide as Hm.
  - apply Z.eqb_eq, strncmp_eq. by destruct Hm as [_ Hm].
  - apply Z.eqb_neq. intros E%strncmp_eq. apply Hm. split; [done|by symmetry].
Qed.

Lemma mkdirent_length inum s : length (mkdirent inum s) = 16%nat.
Proof. unfold mkdirent. by rewrite length_app, length_le_bytes, length_strncpy. Qed.

Lemma mkdirent_ok inum s : Forall byte_ok s -> Forall byte_ok (mkdirent inum s).
Proof. intros H. unfold mkdirent. apply Forall_app. split; [apply le_bytes_ok|by apply strncpy_ok]. Qed.

Lemma mkdirent_inum inum s : 0 <= inum < 65536 -> de_inum (mkdirent inum s) = inum.
Proof.
  intros H. unfold de_inum, getw, mkdirent, slice. rewrite drop_0, take_app_length' by (by rewrite length_le_bytes).
  rewrite le_val_bytes. by apply Z.mod_small.
Qed.

Lemma mkdirent_name inum s : dname (de_name (mkdirent inum s)) = dname s.
Proof.
  unfold de_name, mkdirent, slice, dname. rewrite drop_app_length' by (by rewrite length_le_bytes).
  rewrite take_ge by (rewrite length_strncpy; done). apply cname_strncpy.
Qed.

(** ** The inode table *)
Definition cached (dev inum : Z) (y : inode) : Prop := 0 < i_ref y /\ i_dev y = dev /\ i_inum y = inum.
#[export] Instance cached_dec dev inum y : Decision (cached dev inum y).
Proof. unfold cached. apply _. Defined.

(** [iget] returns slot [i] and leaves the table [l']. *)
Inductive got (dev inum : Z) (l : list inode) : nat -> list inode -> Prop :=
| got_hit i y : l !! i = Some y -> cached dev inum y -> got dev inum l i (<[i := y <| i_ref ::= fun r => r + 1 |>]> l)
| got_new i y : (forall j z, l !! j = Some z -> ~ cached dev inum z) -> l !! i = Some y -> i_ref y = 0 ->
    got dev inum l i (<[i := y <| i_dev := dev |> <| i_inum := inum |> <| i_ref := 1 |> <| i_valid := 0 |>]> l).

(** There is a slot for the inode. *)
Definition can_get (dev inum : Z) (l : list inode) : Prop :=
  Exists (fun y => cached dev inum y \/ i_ref y = 0) l.

Lemma iget_scan_spec dev inum l i e :
  match iget_scan dev inum l i e with
  | (Some j, _) => exists y, l !! (j - i)%nat = Some y /\ (i <= j)%nat /\ cached dev inum y
  | (None, r) => (forall j z, l !! j = Some z -> ~ cached dev inum z) /\
      match r with
      | Some j => e = Some j \/ exists y, l !! (j - i)%nat = Some y /\ (i <= j)%nat /\ i_ref y = 0
      | None => e = None /\ forall j z, l !! j = Some z -> i_ref z <> 0
      end
  end.
Proof.
  revert i e. induction l as [|y l IH]; intros i e; cbn [iget_scan].
  { split; [done|]. destruct e; [by left|done]. }
  destruct ((0 <? i_ref y) && (i_dev y =? dev) && (i_inum y =? inum)) eqn:E.
  - apply andb_prop in E as [[H1 H2]%andb_prop H3]. apply Z.ltb_lt in H1. apply Z.eqb_eq in H2, H3.
    exists y. rewrite Nat.sub_diag. done.
  - assert (~ cached dev inum y) as Hn.
    { intros (H1 & H2 & H3). rewrite (proj2 (Z.ltb_lt _ _)), (proj2 (Z.eqb_eq _ _)), (proj2 (Z.eqb_eq _ _)) in E by done. done. }
    assert (forall j (P : inode -> Prop), (exists z, l !! (j - S i)%nat = Some z /\ (S i <= j)%nat /\ P z) ->
      exists z, (y :: l) !! (j - i)%nat = Some z /\ (i <= j)%nat /\ P z) as Hs.
    { intros j P (z & Hz & Hj & HP). exists z. replace (j - i)%nat with (S (j - S i)) by lia. split; [done|]. split; [lia|done]. }
    set (e' := match e with None => if i_ref y =? 0 then Some i else None | Some e => Some e end).
    specialize (IH (S i) e'). destruct (iget_scan dev inum l (S i) e') as [[j|] r]; [by apply Hs|].
    destruct IH as [IH1 IH2]. split; [intros [|j] z Hz; [by injection Hz as <-|by eapply IH1]|].
    destruct r as [j|].
    + destruct IH2 as [E2|H2]; [|right; by apply Hs]. unfold e' in E2. destruct e as [e0|]; [by left|].
      destruct (Z.eqb_spec (i_ref y) 0); [|done]. injection E2 as <-. right. exists y. rewrite Nat.sub_diag. done.
    + destruct IH2 as [E2 H2]. unfold e' in E2. destruct e; [done|]. split; [done|]. destruct (Z.eqb_spec (i_ref y) 0); [done|].
      intros [|j] z Hz; [by injection Hz as <-|by eapply H2].
Qed.

Section Iget.
Context {L : Layout} {I : Interference} {D : Disk}.

Lemma iget_wp dev inum k : k_held k = [] -> can_get dev inum (k_inodes k) ->
  wp (iget dev inum) (fun i k' => exists l', got dev inum (k_inodes k) i l' /\ k' = k <| k_inodes := l' |>) k.
Proof.
  intros Hh Hc. unfold iget. wp_run. kproj. pose proof (iget_scan_spec dev inum (k_inodes k) 0 None) as Hs.
  destruct (iget_scan dev inum (k_inodes k) 0 None) as [[i|] [e|]].
  1,2: destruct Hs as (y & Hy & _ & Hcy); rewrite Nat.sub_0_r in Hy; unfold updi; wp_run;
    eexists; split; [by apply got_hit|]; kext; [by apply alter_insert|rewrite Hh; by apply unlocked_top, not_elem_of_nil].
  - destruct Hs as [Hno [|(y & Hy & _ & Hz)]]; [done|]. rewrite Nat.sub_0_r in Hy. unfold updi. wp_run.
    eexists. split; [by apply got_new|]. kext; [|rewrite Hh; by apply unlocked_top, not_elem_of_nil].
    rewrite !list_alter_alter_eq. by rewrite (alter_insert _ _ _ _ Hy).
  - exfalso. destruct Hs as [Hno [_ Hr]]. apply Exists_exists in Hc as (y & [j Hj]%list_elem_of_lookup & [Hc|Hc]); [by eapply Hno|by eapply Hr].
Qed.
End Iget.

(** ** Reading a directory *)
Lemma entries_lookup x ld i : (i < Z.to_nat (i_size x / DIRENT))%nat -> entries x ld !! i = Some (de_at x ld (Z.of_nat i)).
Proof. intros Hi. unfold entries. rewrite list_lookup_fmap, lookup_seq_lt by done. done. Qed.

Lemma entries_length x ld : length (entries x ld) = Z.to_nat (i_size x / DIRENT).
Proof. unfold entries. by rewrite length_map, length_seq. Qed.

(** [x] is a directory: a whole number of entries. *)
Definition is_dir (x : inode) : Prop := i_type x = T_DIR /\ i_size x mod DIRENT = 0.

Lemma dirents_entries x : 0 <= i_size x -> i_size x mod DIRENT = 0 -> dirents (i_size x) = Z.to_nat (i_size x / DIRENT).
Proof. intros H0 H. unfold dirents, DIRENT in *. f_equal. dlia. Qed.

Section Dir.
Context {L : Layout} {I : Interference} {D : Disk} {DO : DiskOk D} {p : nat}.
Local Abbreviation view := (@view D p).
Context (sb : superblock) (G : geom sb) (dp : nat) (x : inode) (ld : Z -> list Z) (F : file_wf sb x ld) (Hd : is_dir x).

Lemma read_entry j k (Q : Z * list Z -> kernel -> Prop) :
  view [] ld k -> k_inodes k !! dp = Some x -> l_n (k_log k) < NBUF -> 0 <= j < Z.of_nat (dirents (i_size x)) ->
  (forall k', view [] ld k' -> quiet k k' -> k_log k' = k_log k -> Q (DIRENT, de_at x ld j) k') ->
  wp (readi dp D_local (DIRENT * j) DIRENT) Q k.
Proof.
  intros V N Hn Hj HQ. destruct (ff_size _ _ _ F) as [Hs1 Hs2]. destruct Hd as [_ Hm]. rewrite dirents_entries in Hj by done.
  assert (DIRENT * j + DIRENT <= i_size x) as He by (unfold DIRENT in *; dlia).
  change (MAXFILE * BSIZE) with 274432 in *. apply (readi_wp (p := p) sb G dp x ld F); try done; try (unfold DIRENT in *; lia).
  intros k' V' Q' L'. cbv zeta. rewrite Z.min_l by lia. by apply HQ.
Qed.

(** [dirlookup] finds the first entry in use with the name. *)
Lemma dirlookup_wp s k Q :
  view [] ld k -> k_inodes k !! dp = Some x -> l_n (k_log k) < NBUF ->
  (forall j e, list_find (matches s) (entries x ld) = Some (j, e) -> can_get ROOTDEV (de_inum e) (k_inodes k)) ->
  (forall k', list_find (matches s) (entries x ld) = None -> view [] ld k' -> quiet k k' -> k_log k' = k_log k -> Q None k') ->
  (forall j e k1 ip l', list_find (matches s) (entries x ld) = Some (j, e) -> view [] ld k1 -> quiet k k1 -> k_log k1 = k_log k ->
     got ROOTDEV (de_inum e) (k_inodes k) ip l' -> Q (Some (ip, DIRENT * Z.of_nat j)) (k1 <| k_inodes := l' |>)) ->
  wp (dirlookup dp s) Q k.
Proof.
  intros V N Hn Hg HN HS. unfold dirlookup, geti. wp_steps. rewrite (list_lookup_total_correct _ _ _ N).
  pose proof Hd as [Ht Hm]. destruct (ff_size _ _ _ F) as [Hs1 Hs2].
  rewrite Ht, Z.eqb_refl. cbn [negb].
  eapply wp_mono; [apply (wp_for_until _ _ _
    (fun j k' => view [] ld k' /\ quiet k k' /\ k_log k' = k_log k /\ forall i, 0 <= i < j -> ~ matches s (de_at x ld i))
    (fun r k' => Q (Some r) k'))|].
  - split; [done|]. split; [done|]. split; [done|]. lia.
  - intros j k1 Hj (V1 & Q1 & L1 & Hno). wp_step.
    apply (read_entry j); [done|by rewrite (quiet_inodes _ _ Q1)|by rewrite L1|lia|]. intros k2 V2 Q2 L2. cbn [fst snd Z.eqb negb].
    change (DIRENT =? DIRENT) with true. cbn [negb].
    assert (quiet k k2) as QQ by (by etransitivity). assert (k_log k2 = k_log k) as LL by congruence.
    assert (~ matches s (de_at x ld j) -> view [] ld k2 /\ quiet k k2 /\ k_log k2 = k_log k /\ forall i, 0 <= i < j + 1 -> ~ matches s (de_at x ld i)) as Hnext.
    { intros Hn1. split; [done|]. split; [done|]. split; [done|]. intros i Hi. destruct (decide (i = j)) as [->|]; [done|]. apply Hno. lia. }
    destruct (de_inum (de_at x ld j) =? 0) eqn:Ez.
    { wp_steps. apply Hnext. intros [Hnz _]. by apply Z.eqb_eq in Ez. }
    rewrite (matches_test _ _ Ez). case_bool_decide as Hmt; [|wp_steps; by apply Hnext].
    assert (list_find (matches s) (entries x ld) = Some (Z.to_nat j, de_at x ld j)) as Hf.
    { rewrite dirents_entries in Hj by done. apply list_find_Some. rewrite entries_lookup by lia. rewrite Z2Nat.id by lia. split; [done|]. split; [done|].
      intros i y Hi Hlt. rewrite entries_lookup in Hi by lia. injection Hi as <-. apply Hno. lia. }
    wp_steps. rewrite (ff_dev _ _ _ F). eapply wp_mono; [apply iget_wp; [by eapply view_held|rewrite (quiet_inodes _ _ QQ); by eapply Hg]|].
    cbv beta. rewrite (quiet_inodes _ _ QQ). intros ip k3 (l' & Hgot & ->). wp_steps. rewrite <- (Z2Nat.id j) at 1 by lia. by eapply HS.
  - intros [r|] k'; [done|]. cbv beta. intros (V' & Q' & L' & Hno). apply HN; [|done|done|done].
    apply list_find_None. apply Forall_lookup. intros i e Hi. pose proof (lookup_lt_Some _ _ _ Hi) as Hl. rewrite entries_length in Hl.
    rewrite entries_lookup in Hi by done. injection Hi as <-. apply Hno. rewrite dirents_entries by done. lia.
Qed.
End Dir.

(** ** Adding an entry *)
Definition find_inum (s : list Z) (l : list (list Z)) : option Z := (fun ie => de_inum ie.2) <$> list_find (matches s) l.

Lemma find_inum_cons s e l : find_inum s (e :: l) = if decide (matches s e) then Some (de_inum e) else find_inum s l.
Proof.
  unfold find_inum. cbn [list_find]. destruct (decide (matches s e)); [done|]. by destruct (list_find (matches s) l) as [[j y]|].
Qed.

Lemma find_inum_app s l1 l2 : find_inum s (l1 ++ l2) = match find_inum s l1 with Some n => Some n | None => find_inum s l2 end.
Proof. induction l1 as [|e l1 IH]; [done|]. cbn [app]. rewrite !find_inum_cons, IH. by destruct (decide _). Qed.

Lemma matches_dname s s' e : dname s = dname s' -> matches s e -> matches s' e.
Proof. intros E [H1 H2]. split; [done|]. by rewrite <- E. Qed.

Lemma find_inum_dname s s' l : dname s = dname s' -> find_inum s l = find_inum s' l.
Proof.
  intros E. induction l as [|e l IH]; [done|]. rewrite !find_inum_cons, IH.
  destruct (decide (matches s e)) as [H|H], (decide (matches s' e)) as [H'|H']; try done; exfalso; eauto using matches_dname.
Qed.

(** [e] takes the place of an entry that is not in use, or comes last. *)
Definition put_entry (j : nat) (e : list Z) (l : list (list Z)) : list (list Z) := take j l ++ e :: drop (S j) l.

Lemma find_inum_put s s' j inum l : find_inum s l = None -> 0 < inum < 65536 ->
  (forall e0, l !! j = Some e0 -> de_inum e0 = 0) ->
  find_inum s' (put_entry j (mkdirent inum s) l) = if decide (dname s' = dname s) then Some inum else find_inum s' l.
Proof.
  intros Hno Hi Hfree. unfold put_entry. rewrite find_inum_app, find_inum_cons.
  assert (matches s (mkdirent inum s)) as Hm by (split; [rewrite mkdirent_inum; lia|apply mkdirent_name]).
  assert (find_inum s' l = match find_inum s' (take j l) with Some n => Some n | None => find_inum s' (drop (S j) l) end) as El.
  { rewrite <- (take_drop j l) at 1. rewrite find_inum_app. destruct (find_inum s' (take j l)); [done|].
    destruct (l !! j) as [e0|] eqn:E0.
    - rewrite (drop_S _ _ _ E0), find_inum_cons, decide_False; [done|]. intros [Hz _]. by apply Hz, Hfree.
    - apply lookup_ge_None in E0. rewrite !drop_ge by lia. done. }
  destruct (decide (dname s' = dname s)) as [E|E].
  - assert (find_inum s' (take j l) = None) as ->.
    { rewrite !(find_inum_dname s' s) in * by done. rewrite Hno in El. by destruct (find_inum s (take j l)). }
    rewrite decide_True by (by apply (matches_dname s s')). f_equal. apply mkdirent_inum. lia.
  - rewrite (decide_False (P := matches s' _)); [done|]. intros [_ H2]. rewrite mkdirent_name in H2. by apply E.
Qed.

(** What a write of one entry does to the entries. *)
Lemma entry_byte x ld j i : (i < 16)%nat -> de_at x ld j !! i = Some (file_byte x ld (DIRENT * j + Z.of_nat i)).
Proof. intros Hi. apply file_slice_lookup. exact Hi. Qed.

Lemma de_at_ext x ld x' ld' j j' : (forall i, 0 <= i < 16 -> file_byte x ld (DIRENT * j + i) = file_byte x' ld' (DIRENT * j' + i)) -> de_at x ld j = de_at x' ld' j'.
Proof. intros H. unfold de_at, file_slice. apply map_ext_in. intros i Hi%in_seq. apply H. unfold DIRENT in Hi. lia. Qed.

Lemma written_entries sb x ld x' ld' j e : written sb x ld x' ld' (DIRENT * Z.of_nat j) e 16 -> length e = 16%nat ->
  0 <= i_size x <= MAXFILE * BSIZE -> i_size x mod DIRENT = 0 -> DIRENT * Z.of_nat j <= i_size x -> DIRENT * Z.of_nat j + 16 <= MAXFILE * BSIZE ->
  entries x' ld' = put_entry j e (entries x ld).
Proof.
  intros Hw He Hs Hm Hj Hmax. assert (i_size x' = Z.max (i_size x) (DIRENT * Z.of_nat j + 16)) as Es by (by rewrite (wn_fields _ _ _ _ _ _ _ _ Hw)).
  assert (forall i, (DIRENT * Z.of_nat i + 16 <= MAXFILE * BSIZE) ->
    de_at x' ld' (Z.of_nat i) = if decide (i = j) then e else de_at x ld (Z.of_nat i)) as Hat.
  { intros i Hi. destruct (decide (i = j)) as [->|Hne].
    - apply list_eq. intros b. destruct (decide (b < 16)%nat) as [Hb|Hb].
      + rewrite entry_byte, (wn_byte _ _ _ _ _ _ _ _ Hw), decide_True by (unfold DIRENT in *; lia). unfold aget.
        rewrite <- list_lookup_lookup_total_lt by lia. f_equal. lia.
      + rewrite !lookup_ge_None_2; [done|lia|unfold de_at; rewrite file_slice_length; unfold DIRENT; lia].
    - apply de_at_ext. intros b Hb. rewrite (wn_byte _ _ _ _ _ _ _ _ Hw), decide_False by (unfold DIRENT in *; lia). done. }
  change (MAXFILE * BSIZE) with 274432 in *. unfold DIRENT in *.
  set (q := Z.to_nat (i_size x / 16)). assert (i_size x = 16 * Z.of_nat q) as Eq by (unfold q; dlia).
  assert (Z.to_nat (i_size x' / DIRENT) = Nat.max q (S j)) as El.
  { rewrite Es, Eq. replace (Z.max (16 * Z.of_nat q) (16 * Z.of_nat j + 16)) with (Z.of_nat (Nat.max q (S j)) * 16) by lia.
    unfold DIRENT. rewrite Z.div_mul by lia. apply Nat2Z.id. }
  assert (length (entries x ld) = q) as Hq by apply entries_length.
  apply list_eq. intros i. unfold put_entry. destruct (decide (i < Nat.max q (S j))%nat) as [Hi|Hi].
  - rewrite entries_lookup, Hat by lia. destruct (decide (i = j)) as [->|Hne].
    + rewrite lookup_app_r, length_take, Hq, Nat.min_l by (rewrite ?length_take; lia). by rewrite Nat.sub_diag.
    + destruct (decide (i < j)%nat).
      * rewrite lookup_app_l, lookup_take_lt by (rewrite ?length_take; lia). by rewrite entries_lookup by (fold DIRENT in q; lia).
      * rewrite lookup_app_r, length_take, Hq, Nat.min_l by (rewrite ?length_take; lia).
        rewrite lookup_cons_ne_0, lookup_drop by lia. replace (S j + pred (i - j))%nat with i by lia. by rewrite entries_lookup by (fold DIRENT in q; lia).
  - rewrite !lookup_ge_None_2; [done|rewrite length_app, length_take, length_cons, length_drop; lia|rewrite entries_length; lia].
Qed.

(** The place of a new entry: the first that is not in use, or the end. *)
Definition free_slot (l : list (list Z)) : nat :=
  match list_find (fun e => de_inum e = 0) l with Some (j, _) => j | None => length l end.

Lemma free_slot_spec l j : (j <= length l)%nat -> (forall e, l !! j = Some e -> de_inum e = 0) ->
  (forall i e, (i < j)%nat -> l !! i = Some e -> de_inum e <> 0) -> free_slot l = j.
Proof.
  intros Hj Hz Hn. unfold free_slot. destruct (list_find _ l) as [[i e]|] eqn:E.
  - apply list_find_Some in E as (Hi & He & Hf). destruct (Nat.lt_total i j) as [Hlt|[Heq|Hgt]]; [by destruct (Hn i e Hlt Hi)|done|].
    pose proof (lookup_lt_Some _ _ _ Hi). destruct (lookup_lt_is_Some_2 l j) as [e' He']; [lia|]. by destruct (Hf j e' He' Hgt), (Hz e' He').
  - apply list_find_None in E. destruct (decide (j = length l)) as [|Hne]; [done|].
    destruct (lookup_lt_is_Some_2 l j) as [e' He']; [lia|]. rewrite Forall_lookup in E. by destruct (E j e' He'), (Hz e' He').
Qed.

(** Giving back a reference that is not the last one of an inode in memory. *)
Section Iput.
Context {L : Layout} {I : Interference} {D : Disk}.

Lemma iput_drop ip y k : k_held k = [] -> k_inodes k !! ip = Some y -> (i_ref y <> 1 \/ i_valid y = 0) ->
  iput ip k = Ret tt (k <| k_inodes ::= alter (set i_ref (fun r => r - 1)) ip |>).
Proof.
  intros Hh Hy Hr. apply wp_eq. unfold iput, geti, updi. wp_run. kproj. rewrite (list_lookup_total_correct _ _ _ Hy).
  assert ((i_ref y =? 1) && negb (i_valid y =? 0) && (i_nlink y =? 0) = false) as ->.
  { destruct Hr as [Hr| ->]; [by rewrite (proj2 (Z.eqb_neq _ _) Hr)|]. by rewrite andb_false_r. }
  cbn [when]. wp_run. split; [done|]. kext. rewrite Hh. by apply unlocked_top, not_elem_of_nil.
Qed.

(** [iget], then [iput]: the inodes in use are as they were. *)
Definition kept (l l' : list inode) : Prop := forall j z, l !! j = Some z -> 0 < i_ref z -> l' !! j = Some z.

Lemma iput_got dev inum ip l k : k_held k = [] -> got dev inum l ip (k_inodes k) ->
  exists l', iput ip k = Ret tt (k <| k_inodes := l' |>) /\ kept l l'.
Proof.
  intros Hh Hg. exists (alter (set i_ref (fun r => r - 1)) ip (k_inodes k)).
  assert (forall y, k_inodes k !! ip = Some y -> (i_ref y <> 1 \/ i_valid y = 0) ->
    iput ip k = Ret tt (k <| k_inodes := alter (set i_ref (fun r => r - 1)) ip (k_inodes k) |>)) as Hput.
  { intros y Hy Hr. rewrite (iput_drop _ _ _ Hh Hy Hr). f_equal. }
  destruct Hg as [i y Hi (Hr & _)|i y _ Hi Hz]; pose proof (lookup_lt_Some _ _ _ Hi) as Hl.
  - split; [eapply Hput; [by apply list_lookup_insert_eq|left; cbn; lia]|]. intros j z Hj _. destruct (decide (i = j)) as [<-|Hne].
    + rewrite list_lookup_alter_eq, list_lookup_insert_eq by done. rewrite Hi in Hj. injection Hj as <-. cbn. f_equal.
      destruct y. cbn. unfold set, set_i_ref. cbn. f_equal. lia.
    + by rewrite list_lookup_alter_ne, list_lookup_insert_ne.
  - split; [eapply Hput; [by apply list_lookup_insert_eq|by right]|]. intros j z Hj Hp. destruct (decide (i = j)) as [<-|Hne].
    + rewrite Hi in Hj. injection Hj as <-. lia.
    + by rewrite list_lookup_alter_ne, list_lookup_insert_ne.
Qed.
End Iput.

Section Link.
Context {L : Layout} {I : Interference} {D : Disk} {DO : DiskOk D} {p : nat}.
Local Abbreviation view := (@view D p).

(** The search for the place. *)
Lemma free_entry_wp sb dp x ld k (Q : option Z -> kernel -> Prop) :
  fs_file p sb dp x ld k -> is_dir x -> l_n (k_log k) < NBUF ->
  (forall r k' (j := free_slot (entries x ld)), view [] ld k' -> quiet k k' -> k_log k' = k_log k ->
     match r with Some off => off | None => DIRENT * Z.of_nat (dirents (i_size x)) end = DIRENT * Z.of_nat j ->
     DIRENT * Z.of_nat j <= i_size x -> (forall e0, entries x ld !! j = Some e0 -> de_inum e0 = 0) -> Q r k') ->
  wp (for_until (dirents (i_size x)) 0 (fun j =>
        let off := DIRENT * j in
        let! r := readi dp D_local off DIRENT in
        if negb (r.1 =? DIRENT) then panic "dirlink read"
        else if de_inum r.2 =? 0 then ret (Some off) else ret None)) Q k.
Proof.
  intros H Hd Hn HQ. pose proof H as [G O V S N M F K U]. destruct (ff_size _ _ _ F) as [Hs1 Hs2]. pose proof Hd as [Ht Hm].
  assert (forall i, (i < dirents (i_size x))%nat -> DIRENT * Z.of_nat i + DIRENT <= i_size x) as Hin.
  { intros i Hi. rewrite dirents_entries in Hi by done. unfold DIRENT in *. dlia. }
  assert (length (entries x ld) = dirents (i_size x)) as Hlen by (by rewrite entries_length, dirents_entries).
  eapply wp_mono; [apply (wp_for_until _ _ _
    (fun j k' => view [] ld k' /\ quiet k k' /\ k_log k' = k_log k /\ forall i, 0 <= i < j -> de_inum (de_at x ld i) <> 0)
    (fun off k' => exists j, (j < dirents (i_size x))%nat /\ off = DIRENT * Z.of_nat j /\ view [] ld k' /\ quiet k k' /\ k_log k' = k_log k /\
       de_inum (de_at x ld (Z.of_nat j)) = 0 /\ forall i, 0 <= i < Z.of_nat j -> de_inum (de_at x ld i) <> 0))|].
  - split; [done|]. split; [done|]. split; [done|]. lia.
  - intros j k1 Hj (V1 & Q1 & L1 & Hu1). cbv zeta. wp_step.
    apply (read_entry (p := p) sb G dp x ld F Hd j); [done|by rewrite (quiet_inodes _ _ Q1)|by rewrite L1|lia|]. intros k2 V2 Q2 L2. cbn [fst snd].
    change (DIRENT =? DIRENT) with true. cbn [negb]. assert (quiet k k2) as QQ by (by etransitivity).
    destruct (Z.eqb_spec (de_inum (de_at x ld j)) 0); wp_steps.
    + exists (Z.to_nat j). rewrite Z2Nat.id by lia. split; [lia|]. split; [done|]. split; [done|]. split; [done|]. split; [congruence|done].
    + split; [done|]. split; [done|]. split; [congruence|]. intros i Hi. destruct (decide (i = j)) as [->|]; [done|]. apply Hu1. lia.
  - intros [off|] k'; cbv beta.
    + intros (j & Hj & -> & V' & Q' & L' & Hz & Hu). rewrite <- Hlen in Hj.
      assert (forall e0, entries x ld !! j = Some e0 -> de_inum e0 = 0) as Hz'.
      { intros e0 He. rewrite entries_lookup in He by (by rewrite <- entries_length with (ld := ld)). by injection He as <-. }
      assert (free_slot (entries x ld) = j) as Ej.
      { apply free_slot_spec; [lia|done|]. intros i e Hi He. rewrite entries_lookup in He by (rewrite <- entries_length with (ld := ld); lia).
        injection He as <-. apply Hu. lia. }
      apply HQ; rewrite ?Ej; try done. rewrite Hlen in Hj. specialize (Hin j Hj). unfold DIRENT in *. lia.
    + intros (V' & Q' & L' & Hu).
      assert (free_slot (entries x ld) = dirents (i_size x)) as Ej.
      { apply free_slot_spec; [lia|intros e He; apply lookup_lt_Some in He; lia|]. intros i e Hi He.
        rewrite entries_lookup in He by (rewrite <- entries_length with (ld := ld); lia). injection He as <-. apply Hu. lia. }
      apply HQ; rewrite ?Ej; try done.
      * rewrite dirents_entries by done. unfold DIRENT in *. dlia.
      * intros e0 He. apply lookup_lt_Some in He. lia.
Qed.

Lemma dirlink_wp sb dp x ld k s inum Q :
  fs_file p sb dp x ld k -> is_dir x -> Forall byte_ok s -> 0 < inum < 65536 -> i_size x + DIRENT <= MAXFILE * BSIZE ->
  room 3 (k_log k) -> dir_map x ld s = None ->
  (forall x' ld' k', fs_file p sb dp x' ld' k' -> is_dir x' -> l_n (k_log k') <= l_n (k_log k) + 4 ->
     entries x' ld' = put_entry (free_slot (entries x ld)) (mkdirent inum s) (entries x ld) ->
     (forall s', dir_map x' ld' s' = if decide (dname s' = dname s) then Some inum else dir_map x ld s') -> Q 0 k') ->
  (forall x' ld' k', fs_file p sb dp x' ld' k' -> full sb ld' -> Q (-1) k') ->
  wp (dirlink dp s inum) Q k.
Proof.
  intros H Hd Hs Hi Hmax Hr Hno HS HN. pose proof H as [G O V S N M F K U]. destruct (ff_size _ _ _ F) as [Hs1 Hs2]. pose proof Hd as [Ht Hm].
  assert (list_find (matches s) (entries x ld) = None) as Hf by (unfold dir_map in Hno; by destruct (list_find _ _)).
  unfold dirlink. wp_step. apply (dirlookup_wp (p := p) sb G dp x ld F Hd); try done; [destruct Hr; lia|by rewrite Hf|..|by rewrite Hf].
  intros k1 _ V1 Q1 L1. pose proof (fs_file_quiet _ _ _ _ _ _ _ H V1 Q1) as H1. unfold geti. wp_steps.
  rewrite (list_lookup_total_correct _ _ _ (fi_inode _ _ _ _ _ _ H1)).
  apply (free_entry_wp sb dp x ld k1 _ H1 Hd); [rewrite L1; destruct Hr; lia|].
  intros r k2. cbv zeta. set (j := free_slot (entries x ld)). intros V2 Q2 L2 Eoff Hoff Hfree. pose proof (fs_file_quiet _ _ _ _ _ _ _ H1 V2 Q2) as H2. rewrite Eoff.
  assert (DIRENT = Z.of_nat (length (mkdirent inum s))) as EL by (by rewrite mkdirent_length).
  wp_step. rewrite EL at 2. assert (span (DIRENT * Z.of_nat j) (Z.of_nat (length (mkdirent inum s))) = 1) as Esp.
  { rewrite <- EL. unfold span, DIRENT. change BSIZE with 1024. cbn [Z.eqb]. dlia. }
  apply (writei_wp (p := p) sb G O dp x ld k2); try done.
  - by apply fs_file_op.
  - by apply mkdirent_ok.
  - unfold DIRENT in *. lia.
  - rewrite <- EL. lia.
  - rewrite Esp, L2, L1. exact Hr.
  - rewrite Esp, <- EL. intros t x' ld' k' ws Ho' Hw Hws Ht' Hf'. pose proof (written_file _ _ _ _ _ _ _ _ _ _ _ _ _ H2 Ho' Hw) as H'.
    destruct (Z.eqb_spec t DIRENT) as [->|Hne]; cbn [negb]; wp_steps; [|eapply HN; [done|]; by destruct Hf'].
    assert (is_dir x') as Hd' by (destruct Hd; rewrite (wn_fields _ _ _ _ _ _ _ _ Hw); split; [done|]; cbn; unfold DIRENT in *; dlia).
    pose proof Ho' as [V' _ _ _ _ P']. pose proof (touch_length sb x').
    pose proof (spent_n _ _ _ P' (fs_file_log _ _ _ _ _ _ H2) (view_log _ _ _ V')) as Hb. rewrite length_app in Hb.
    assert (entries x' ld' = put_entry j (mkdirent inum s) (entries x ld)) as Ee.
    { apply (written_entries _ _ _ _ _ _ _ Hw); try done; [by rewrite mkdirent_length|unfold DIRENT in *; lia]. }
    eapply HS; [done|done|rewrite <- L1, <- L2; lia|exact Ee|]. intros s'. unfold dir_map.
    fold (find_inum s' (entries x' ld')) (find_inum s' (entries x ld)). rewrite Ee. by apply find_inum_put.
Qed.

(** A name that the directory has is refused. *)
Lemma dirlink_exists_wp sb dp x ld k s inum n Q :
  fs_file p sb dp x ld k -> is_dir x -> 0 < i_ref x -> l_n (k_log k) < NBUF ->
  dir_map x ld s = Some n -> can_get ROOTDEV n (k_inodes k) ->
  (forall k', fs_file p sb dp x ld k' -> k_log k' = k_log k -> kept (k_inodes k) (k_inodes k') -> Q (-1) k') ->
  wp (dirlink dp s inum) Q k.
Proof.
  intros H Hd Hx Hn Hs Hg HQ. pose proof H as [G O V S N M F K U]. unfold dir_map in Hs.
  destruct (list_find (matches s) (entries x ld)) as [[j e]|] eqn:Ef; [|done]. injection Hs as <-.
  unfold dirlink. wp_step. apply (dirlookup_wp (p := p) sb G dp x ld F Hd); try done; [intros j' e' E; rewrite Ef in E; by injection E as _ <-|by rewrite Ef|].
  intros j' e' k1 ip l' E V1 Q1 L1 Hgot. rewrite Ef in E. injection E as <- <-. set (k2 := k1 <| k_inodes := l' |>). wp_steps.
  destruct (iput_got ROOTDEV (de_inum e) ip (k_inodes k) k2) as (l2 & Ep & Hk); [by eapply (view_held _ _ k1)|done|].
  eapply wp_Ret; [exact Ep|]. cbv beta. wp_steps. replace (k2 <| k_inodes := l2 |>) with (k1 <| k_inodes := l2 |>) by (unfold k2; kext).
  apply HQ; [|by kproj|by kproj].
  split; try done; [by apply view_set_inodes|kproj; by rewrite (quiet_sb _ _ Q1)|kproj; by apply Hk].
Qed.
End Link.

(** ** Properties of directories and of the inode table, with instances *)

(** At most one slot in use for an inode. *)
Definition itable_uniq (l : list inode) : Prop :=
  forall i j y z, l !! i = Some y -> l !! j = Some z -> 0 < i_ref y -> 0 < i_ref z ->
    i_dev y = i_dev z -> i_inum y = i_inum z -> i = j.

Lemma got_slot dev inum l i l' : got dev inum l i l' -> exists y, l' !! i = Some y /\ cached dev inum y.
Proof.
  intros [j y Hj (H1 & H2 & H3)|j y Hno Hj Hz]; (eexists; split; [apply list_lookup_insert_eq; by eapply lookup_lt_Some|]).
  - split; [cbn; lia|done].
  - done.
Qed.

Section DirProps.
Context {L : Layout} {I : Interference} {D : Disk} {DO : DiskOk D}.

(** C18. [dirlookup] looks the name up in the directory as a map: it finds
    nothing exactly if no entry in use has the name, and otherwise returns the
    in-memory inode, with a reference, of the number the map gives; the disk
    is not changed. *)
Theorem dirlookup_spec p sb dp x ld k s :
  fs_file p sb dp x ld k -> is_dir x -> l_n (k_log k) < NBUF ->
  (forall n, dir_map x ld s = Some n -> can_get ROOTDEV n (k_inodes k)) ->
  wp (dirlookup dp s) (fun r k' => view (p := p) [] ld k' /\
    match r, dir_map x ld s with
    | None, None => k_inodes k' = k_inodes k
    | Some (ip, off), Some n => exists y, k_inodes k' !! ip = Some y /\ cached ROOTDEV n y
    | _, _ => False
    end) k.
Proof.
  intros H Hd Hn Hg. pose proof H as [G O V S N M F K U]. unfold dir_map in *.
  apply (dirlookup_wp (p := p) sb G dp x ld F Hd); try done.
  - intros j e Hf. apply Hg. by rewrite Hf.
  - intros k' Hf V' Q' L'. rewrite Hf. split; [done|]. apply (quiet_inodes _ _ Q').
  - intros j e k1 ip l' Hf V1 Q1 L1 Hgot. rewrite Hf. split; [by apply view_set_inodes|]. kproj. by eapply got_slot.
Qed.

(** C19. [dirlink] adds one name to the directory as a map.  If the directory
    has the name already, it returns -1: the directory, the disk, the log and
    every inode in use are as they were.  Otherwise it fails only if the disk
    is full; when it returns 0, the entry for the name and the inode number is
    in the first slot that was not in use, or after the last one, the other
    entries are where they were, and so the new map gives the inode number for
    the name and what the old one gave for every other name. *)
Theorem dirlink_spec p sb dp x ld k s inum :
  fs_file p sb dp x ld k -> is_dir x -> 0 < i_ref x -> Forall byte_ok s -> 0 < inum < 65536 ->
  i_size x + DIRENT <= MAXFILE * BSIZE -> room 3 (k_log k) ->
  (forall n, dir_map x ld s = Some n -> can_get ROOTDEV n (k_inodes k)) ->
  wp (dirlink dp s inum) (fun r k' => exists x' ld', fs_file p sb dp x' ld' k' /\
    match dir_map x ld s with
    | Some _ => r = -1 /\ x' = x /\ ld' = ld /\ k_log k' = k_log k /\ kept (k_inodes k) (k_inodes k')
    | None =>
        (r = -1 /\ full sb ld') \/
        (r = 0 /\ is_dir x' /\
         entries x' ld' = put_entry (free_slot (entries x ld)) (mkdirent inum s) (entries x ld) /\
         forall s', dir_map x' ld' s' = if decide (dname s' = dname s) then Some inum else dir_map x ld s')
    end) k.
Proof.
  intros H Hd Hx Hs Hi Hm Hr Hg. destruct (dir_map x ld s) as [n|] eqn:En.
  - apply (dirlink_exists_wp (p := p) sb dp x ld k s inum n); try done; [destruct Hr; lia|by apply Hg|].
    intros k' H' L' Hk. by exists x, ld.
  - apply (dirlink_wp (p := p) sb dp x ld); try done.
    + intros x' ld' k' H' Hd' _ He Hmap. exists x', ld'. split; [done|]. by right.
    + intros x' ld' k' H' Hf. exists x', ld'. split; [done|]. by left.
Qed.

(** The inode table holds at most one copy of an inode: [iget] keeps it
    so, and returns a slot that holds the inode asked for, with a reference of
    the caller's. *)
Theorem iget_unique dev inum k : k_held k = [] -> itable_uniq (k_inodes k) -> can_get dev inum (k_inodes k) ->
  wp (iget dev inum) (fun i k' => itable_uniq (k_inodes k') /\
    (exists y, k_inodes k' !! i = Some y /\ cached dev inum y) /\
    forall j, j <> i -> k_inodes k' !! j = k_inodes k !! j) k.
Proof.
  intros Hh Hu Hc. eapply wp_mono; [by apply iget_wp|]. cbv beta. intros i k' (l' & Hg & ->). kproj.
  split; [|split; [by eapply got_slot|]].
  - intros a b y z Ha Hb Hy Hz Hd Hn. destruct Hg as [i w Hi Hw|i w Hno Hi Hw].
    + assert (forall c v, <[i := w <| i_ref ::= fun r => r + 1 |>]> (k_inodes k) !! c = Some v -> 0 < i_ref v ->
        exists u, k_inodes k !! c = Some u /\ 0 < i_ref u /\ i_dev u = i_dev v /\ i_inum u = i_inum v) as Hold.
      { intros c v Hcv Hv. destruct (decide (c = i)) as [->|Hne]; [|rewrite list_lookup_insert_ne in Hcv by done; by exists v].
        rewrite list_lookup_insert_eq in Hcv by (by eapply lookup_lt_Some). injection Hcv as <-. exists w. destruct Hw as (Hw & _). done. }
      destruct (Hold _ _ Ha Hy) as (u & Hu1 & Hu2 & Hu3 & Hu4). destruct (Hold _ _ Hb Hz) as (v & Hv1 & Hv2 & Hv3 & Hv4).
      eapply Hu; try done; congruence.
    + destruct (decide (a = i)) as [->|Hai], (decide (b = i)) as [->|Hbi]; [done|..].
      * rewrite list_lookup_insert_eq in Ha by (by eapply lookup_lt_Some). rewrite list_lookup_insert_ne in Hb by done. injection Ha as <-.
        exfalso. apply (Hno _ _ Hb). done.
      * rewrite list_lookup_insert_eq in Hb by (by eapply lookup_lt_Some). rewrite list_lookup_insert_ne in Ha by done. injection Hb as <-.
        exfalso. apply (Hno _ _ Ha). done.
      * rewrite list_lookup_insert_ne in Ha, Hb by done. by eapply Hu.
  - intros j Hj. destruct Hg; by rewrite list_lookup_insert_ne.
Qed.
End DirProps.

(** ** Instances *)
Definition fskd : kernel := fsk <| k_inodes ::= alter (set i_type (fun _ => T_DIR)) 0%nat |>.
Definition demo_dir : inode := demo_inode <| i_type := T_DIR |>.

Lemma fskd_file : fs_file 0 demo_sb 0 demo_dir demo_disk fskd.
Proof.
  destruct fsk_file as [[G O V S N M F K U] _]. unfold fskd. generalize dependent fsk. intros k V S N.
  split; [exact G|exact O|by apply view_set_inodes|by kproj| |exact M| | |done].
  - kproj. by rewrite list_lookup_alter_eq, N.
  - destruct F as [F1 F2 F3 F4 F5 F6 F7]. exact (Build_file_wf demo_sb demo_dir demo_disk F1 F2 F3 F4 F5 F6 F7).
  - destruct K as [K1 K2 K3 K4 K5 K6 K7]. by apply (Build_dinode_ok demo_dir).
Qed.

Lemma fskd_log : k_log fskd = k_log fsk0.
Proof. unfold fskd. kproj. apply fsk_file. Qed.

Lemma fskd_inodes : k_inodes fskd = demo_dir :: replicate 49 inode0.
Proof. unfold fskd. kproj. destruct fsk_view as (_ & _ & -> & _). reflexivity. Qed.

#[global] Opaque fskd.

Definition demo_name : list Z := [97; 98].

Lemma dirlookup_spec_witness : wp (dirlookup 0 demo_name) (fun r k' => r = None) fskd.
Proof.
  eapply wp_mono; [apply (dirlookup_spec 0 demo_sb 0 demo_dir demo_disk fskd demo_name fskd_file)|].
  - done.
  - by rewrite fskd_log.
  - intros n Hn. discriminate Hn.
  - cbv beta. intros [[ip off]|] k' [_ H]; [destruct H|reflexivity].
Defined.

Lemma dirlink_spec_witness : wp (dirlink 0 demo_name 7) (fun r k' => exists x' ld', fs_file 0 demo_sb 0 x' ld' k' /\
  (r = 0 -> dir_map x' ld' demo_name = Some 7 /\ dir_map x' ld' [98] = None)) fskd.
Proof.
  eapply wp_mono; [apply (dirlink_spec 0 demo_sb 0 demo_dir demo_disk fskd demo_name 7 fskd_file)|].
  - done.
  - reflexivity.
  - repeat constructor; done.
  - lia.
  - done.
  - rewrite fskd_log. done.
  - intros n Hn. discriminate Hn.
  - cbv beta. intros r k' (x' & ld' & H & [[-> _]|(-> & _ & _ & Hm)]); exists x', ld'; (split; [exact H|]); intros E; [discriminate E|].
    split; rewrite Hm; reflexivity.
Defined.

Lemma iget_unique_witness : wp (iget ROOTDEV 5) (fun i k' => itable_uniq (k_inodes k')) fskd.
Proof.
  pose proof fskd_inodes as E.
  eapply wp_mono; [apply (iget_unique ROOTDEV 5 fskd)|].
  - exact (view_held _ _ _ (fi_view _ _ _ _ _ _ fskd_file)).
  - rewrite E. intros i j y z Hi Hj Hy Hz _ _.
    assert (forall c v, (demo_dir :: replicate 49 inode0) !! c = Some v -> 0 < i_ref v -> c = 0%nat) as H0.
    { intros [|c] v Hc Hv; [reflexivity|]. change (replicate 49 inode0 !! c = Some v) in Hc. apply lookup_replicate in Hc as [-> _]. done. }
    rewrite (H0 _ _ Hi Hy), (H0 _ _ Hj Hz). reflexivity.
  - rewrite E. apply Exists_cons_tl, Exists_cons_hd. right. reflexivity.
  - cbv beta. intros i k' [H _]. exact H.
Defined.
