(* ===== verification/FsTrunc.v ===== *)
(** * Discarding a file (itrunc of kernel/fs.c)

    [itrunc] gives every block of the file back to the bitmap, and no other. *)

From Stdlib Require Import ZArith Lia.
From stdpp Require Import base list strings sets.
From S2P Require Import Prelude Params Mem State Evict Kalloc Vm Sched SchedSpec SchedProps.
From S2P Require Import Sleeplock Printf Bio BioSpec BioLaws Log FsInv LogSpec LogTheorems Fs.
From S2P Require Import FsDemo FsAlloc FsFile FsBmap FsRw FsInode FsProps.

(** [ld'] is [ld] with the blocks of [P] marked free. *)
Record freed (sb : superblock) (P : Z -> Prop) (ld ld' : Z -> list Z) : Prop := {
  fr_alloc y : 0 <= y < sb_size sb -> allocated sb ld' y = true <-> allocated sb ld y = true /\ ~ P y;
  fr_other y : y <> sb_bmapstart sb -> ld' y = ld y
}.

Lemma freed_none sb ld P : (forall y, 0 <= y < sb_size sb -> ~ P y) -> freed sb P ld ld.
Proof. intros H. split; [|done]. intros y Hy. split; [intros Ha; split; [done|by apply H]|by intros [? _]]. Qed.

Lemma freed_ext sb (P P' : Z -> Prop) ld ld' : (forall y, 0 <= y < sb_size sb -> P y <-> P' y) -> freed sb P ld ld' -> freed sb P' ld ld'.
Proof. intros E [H1 H2]. split; [|done]. intros y Hy. by rewrite H1, E. Qed.

(** One more block is freed. *)
Lemma freed_add sb P ld ld' b : geom sb -> sb_size sb <= BPB -> 0 <= b < sb_size sb -> (forall y, block_ok (ld' y)) ->
  freed sb P ld ld' -> freed sb (fun y => P y \/ y = b) ld (free_ld sb b ld').
Proof.
  intros G O Hb Hl [H1 H2]. assert (BBLOCK b sb = sb_bmapstart sb) as Eb by (by apply one_bitmap). split.
  - intros y Hy. unfold free_ld. rewrite clear_bit_allocated by apply Hl.
    destruct (decide (b = y)) as [->|Hne]; [rewrite bool_decide_eq_true_2 by done|rewrite bool_decide_eq_false_2 by done]; cbn [negb andb].
    + split; [done|]. intros [_ H]. exfalso. apply H. by right.
    + rewrite H1 by done. split; intros [Ha Hn]; (split; [done|]); [intros [H|H]; [done|congruence]|]. intros H. apply Hn. by left.
  - intros y Hy. unfold free_ld. rewrite Eb, fupd_ne by done. by apply H2.
Qed.

Lemma freed_meta sb P ld ld' : geom sb -> (forall y, P y -> is_data sb y) -> freed sb P ld ld' -> meta_marked sb ld -> meta_marked sb ld'.
Proof.
  intros G HP [H1 _] M y Hy. destruct G. apply H1; [lia|]. split; [by apply M|]. intros H. destruct (HP y H). lia.
Qed.

(** The blocks of the file with a number below [n], and the indirect block if
    [i] says so. *)
Definition blocks_below (x : inode) (ld : Z -> list Z) (n : Z) (i : bool) (y : Z) : Prop :=
  y <> 0 /\ ((exists bn, 0 <= bn < n /\ addr_of x ld bn = y) \/ (i = true /\ y = ind x)).

Lemma blocks_below_S x ld n y : 0 <= n -> addr_of x ld n <> 0 ->
  blocks_below x ld (n + 1) false y <-> blocks_below x ld n false y \/ y = addr_of x ld n.
Proof.
  intros Hn Hz. unfold blocks_below. split.
  - intros [H0 [(bn & Hb & E)|[? _]]]; [|done]. destruct (decide (bn = n)) as [->|]; [by right|]. left. split; [done|]. left. exists bn. split; [lia|done].
  - intros [[H0 [(bn & Hb & E)|[? _]]] | ->]; [|done|].
    + split; [done|]. left. exists bn. split; [lia|done].
    + split; [done|]. left. exists n. split; [lia|done].
Qed.

Lemma blocks_below_skip x ld n y : 0 <= n -> addr_of x ld n = 0 -> blocks_below x ld (n + 1) false y <-> blocks_below x ld n false y.
Proof.
  intros Hn Hz. unfold blocks_below. split; intros [H0 [(bn & Hb & E)|[? _]]]; try done; (split; [done|]); left; exists bn; (split; [|done]); [|lia].
  destruct (decide (bn = n)) as [->|]; [congruence|lia].
Qed.

Lemma blocks_all x ld y : owned x ld y <-> blocks_below x ld MAXFILE true y.
Proof.
  unfold owned, blocks_below, in_file. split; intros [H0 [H|H]]; (split; [done|]); [by right|by left|by right|left; apply H].
Qed.

Lemma clear_S (i : nat) (l : list Z) : (i < length l)%nat -> <[i := 0]> (replicate i 0 ++ drop i l) = replicate (S i) 0 ++ drop (S i) l.
Proof.
  intros Hi. destruct (lookup_lt_is_Some_2 _ _ Hi) as [a Ha]. rewrite (drop_S _ _ _ Ha).
  rewrite insert_app_r_alt by (rewrite length_replicate; lia). rewrite length_replicate, Nat.sub_diag. cbn [insert list_insert].
  by rewrite replicate_S_end, <- app_assoc.
Qed.

Section Trunc.
Context {L : Layout} {I : Interference} {D : Disk} {DO : DiskOk D} {p : nat}.
Local Abbreviation view := (@view D p).
Context (sb : superblock) (G : geom sb) (O : sb_size sb <= BPB) (x : inode) (ld : Z -> list Z).
Context (M : meta_marked sb ld) (F : file_wf sb x ld) (lg0 : loginfo) (W0 : log_wf lg0).
Context (Hr : room 2 lg0).

(** The state while blocks are freed: those of [P] are. *)
Record freeing (o : list (nat * Z)) (ip : nat) (x1 : inode) (P : Z -> Prop) (k0 k : kernel) : Prop := {
  fg_view : exists ld1, view o ld1 k /\ freed sb P ld ld1;
  fg_sb : k_sb k = sb;
  fg_still : still ip x1 k0 k;
  fg_inode : k_inodes k !! ip = Some x1;
  fg_spent : spent lg0 [sb_bmapstart sb] (k_log k)
}.

Lemma freeing_ext o ip x1 P P' k0 k : (forall y, 0 <= y < sb_size sb -> P y <-> P' y) -> freeing o ip x1 P k0 k -> freeing o ip x1 P' k0 k.
Proof. intros E [(ld1 & V & Hf) H2 H3 H4 H5]. split; try done. exists ld1. split; [done|]. by eapply freed_ext. Qed.

Lemma freeing_room o ip x1 P k0 k : freeing o ip x1 P k0 k -> room 0 (k_log k).
Proof.
  intros [(ld1 & V & _) _ _ _ Hs]. apply (spent_room _ _ _ Hs W0 (view_log _ _ _ V)). eapply room_le; [|exact Hr]. cbn. lia.
Qed.

Lemma bfree_freeing o ip x1 P k0 k b Q : freeing o ip x1 P k0 k -> is_data sb b -> allocated sb ld b = true -> ~ P b ->
  (forall y, y ∈ o.*2 -> is_data sb y) -> (length o <= 2)%nat ->
  (forall k', freeing o ip x1 (fun y => P y \/ y = b) k0 k' -> Q tt k') -> wp (bfree ROOTDEV b) Q k.
Proof.
  intros H Hd Ha Hn Ho Hl HQ. pose proof (freeing_room _ _ _ _ _ _ H) as R. destruct H as [(ld1 & V & Hf) H2 H3 H4 H5].
  pose proof (data_nonneg _ _ G Hd) as Hb. assert (BBLOCK b sb = sb_bmapstart sb) as Eb by (apply one_bitmap; [done|lia]).
  apply (bfree_wp (p := p) sb o ld1 k b); try done; [lia|apply Hf; [lia|done]| |].
  { intros Hin%Ho. rewrite Eb in Hin. destruct Hin as [Hin _]. unfold data_start in Hin.
    assert (0 <= sb_size sb / BPB) by (apply Z.div_pos; [destruct G; lia|done]). lia. }
  intros k' V' Q' L'. apply HQ. split.
  - exists (free_ld sb b ld1). split; [done|]. apply freed_add; try done; [lia|]. intros y. by eapply view_block.
  - by rewrite (quiet_sb _ _ Q').
  - eapply still_trans; [exact H3|]. by apply quiet_still.
  - by rewrite (quiet_inodes _ _ Q').
  - rewrite L', Eb. apply spent_add; [done|by eapply view_log|destruct R; change LOGBLOCKS with NBUF; lia|set_solver].
Qed.

Lemma owned_addr bn : in_file bn -> addr_of x ld bn <> 0 -> is_data sb (addr_of x ld bn) /\ allocated sb ld (addr_of x ld bn) = true.
Proof. intros Hb Hz. apply (ff_data _ _ _ F). split; [done|]. right. by exists bn. Qed.

Lemma not_below n : in_file n -> addr_of x ld n <> 0 -> ~ blocks_below x ld n false (addr_of x ld n).
Proof.
  intros Hn Hz [_ [(bn & Hb & E)|[? _]]]; [|done]. unfold in_file in *. assert (bn = n) as ->; [|lia].
  apply (ff_inj _ _ _ F); try done; [unfold in_file; lia|congruence].
Qed.

(** [x] with the first [i] addresses cleared. *)
Definition zeroed (i : nat) : inode := x <| i_addrs := replicate i 0 ++ drop i (i_addrs x) |>.

Lemma zeroed_0 : zeroed 0 = x.
Proof. unfold zeroed. rewrite drop_0. clear. by destruct x. Qed.

Lemma zeroed_S i : (i < 13)%nat -> (zeroed i) <| i_addrs ::= aset (Z.of_nat i) 0 |> = zeroed (S i).
Proof.
  intros Hi. pose proof (ff_len _ _ _ F) as Hl.
  change ((zeroed i) <| i_addrs ::= aset (Z.of_nat i) 0 |>) with (x <| i_addrs := aset (Z.of_nat i) 0 (replicate i 0 ++ drop i (i_addrs x)) |>).
  unfold aset, zeroed. by rewrite Nat2Z.id, clear_S by lia.
Qed.

Lemma zeroed_aget i j : (i <= j < 13)%nat -> aget (i_addrs (zeroed i)) (Z.of_nat j) = aget (i_addrs x) (Z.of_nat j).
Proof.
  intros Hi. pose proof (ff_len _ _ _ F) as Hl. unfold aget. rewrite Nat2Z.id, !list_lookup_total_alt.
  change (i_addrs (zeroed i)) with (replicate i 0 ++ drop i (i_addrs x)).
  rewrite lookup_app_r, lookup_drop, length_replicate by (rewrite length_replicate; lia). do 2 f_equal. lia.
Qed.

Lemma zeroed_skip i : (i < 13)%nat -> aget (i_addrs x) (Z.of_nat i) = 0 -> zeroed i = zeroed (S i).
Proof.
  intros Hi Hz. rewrite <- zeroed_S by done. pose proof (ff_len _ _ _ F) as Hl.
  change ((zeroed i) <| i_addrs ::= aset (Z.of_nat i) 0 |>) with (x <| i_addrs := aset (Z.of_nat i) 0 (replicate i 0 ++ drop i (i_addrs x)) |>).
  unfold zeroed. assert (aset (Z.of_nat i) 0 (replicate i 0 ++ drop i (i_addrs x)) = replicate i 0 ++ drop i (i_addrs x)) as ->; [|done].
  unfold aset, aget in *. rewrite Nat2Z.id in *. apply list_insert_id.
  rewrite lookup_app_r, lookup_drop, length_replicate, Nat.sub_diag, Nat.add_0_r by (rewrite length_replicate; lia).
  rewrite <- Hz. apply list_lookup_lookup_total_lt. lia.
Qed.

(** [ip->addrs[i] = 0] *)
Lemma clear_addr ip i P k0 k : freeing [] ip (zeroed i) P k0 k -> (i < 13)%nat ->
  freeing [] ip (zeroed (S i)) P k0 (k <| k_inodes ::= alter (set i_addrs (aset (Z.of_nat i) 0)) ip |>).
Proof.
  intros [(ld1 & V & Hf) H2 H3 H4 H5] Hi. rewrite <- zeroed_S by done.
  pose proof (still_updi ip _ (set i_addrs (aset (Z.of_nat i) 0)) k H4) as St. split; try (by kproj).
  - exists ld1. split; [by apply view_set_inodes|done].
  - by eapply still_trans.
  - by eapply still_lookup.
Qed.

(** The loop over the direct blocks. *)
Lemma trunc_direct_wp ip k0 k : freeing [] ip x (fun _ => False) k0 k ->
  wp (for_range (Z.to_nat NDIRECT) 0 (fun i =>
        let! x := geti ip in
        when (negb (aget (i_addrs x) i =? 0))
          (do! bfree (i_dev x) (aget (i_addrs x) i);
           updi ip (set i_addrs (aset i 0)))))
     (fun _ => freeing [] ip (zeroed 12) (blocks_below x ld NDIRECT false) k0) k.
Proof.
  intros H. eapply wp_mono; [apply (wp_for_range _ _ _ (fun i k' => freeing [] ip (zeroed (Z.to_nat i)) (blocks_below x ld i false) k0 k'))|].
  - change (Z.to_nat 0) with 0%nat. rewrite zeroed_0. eapply freeing_ext; [|exact H].
    intros y _. split; [done|]. intros [_ [(bn & Hb & _)|[? _]]]; [lia|done].
  - intros i k1 Hi H1. change (0 + Z.of_nat (Z.to_nat NDIRECT)) with 12 in Hi. unfold geti. wp_steps.
    rewrite (list_lookup_total_correct _ _ _ (fg_inode _ _ _ _ _ _ H1)).
    replace (Z.to_nat (i + 1)) with (S (Z.to_nat i)) by lia.
    assert (aget (i_addrs (zeroed (Z.to_nat i))) i = addr_of x ld i) as Ea.
    { rewrite <- (Z2Nat.id i) at 2 by lia. rewrite zeroed_aget by lia. rewrite Z2Nat.id by lia. unfold addr_of. by rewrite (proj2 (Z.ltb_lt i NDIRECT)) by fslia. }
    assert (addr_of x ld i = aget (i_addrs x) (Z.of_nat (Z.to_nat i))) as Ea2.
    { rewrite Z2Nat.id by lia. unfold addr_of. by rewrite (proj2 (Z.ltb_lt i NDIRECT)) by fslia. }
    rewrite Ea. destruct (Z.eqb_spec (addr_of x ld i) 0) as [Hz|Hz]; cbn [negb when].
    + wp_steps. rewrite <- zeroed_skip by (lia || congruence). eapply freeing_ext; [|exact H1]. intros y _. symmetry. apply blocks_below_skip; [lia|done].
    + assert (in_file i) as Hin by (unfold in_file; fslia). destruct (owned_addr i Hin Hz) as [Hd Ha]. wp_steps.
      change (i_dev (zeroed (Z.to_nat i))) with (i_dev x). rewrite (ff_dev _ _ _ F).
      eapply bfree_freeing; [exact H1|done|done|by apply not_below|by intros y Hy%elem_of_nil|cbn; lia|].
      intros k2 H2. unfold updi. wp_steps.
      apply (freeing_ext _ _ _ _ (blocks_below x ld (i + 1) false)) in H2.
      { pose proof (clear_addr ip (Z.to_nat i) _ k0 k2 H2 ltac:(lia)) as H3. by rewrite Z2Nat.id in H3 by lia. } intros y _. symmetry. apply blocks_below_S; [lia|done].
  - cbv beta. intros [] k'. done.
Qed.

Lemma freeing_quiet o o' ip x1 P k0 k k' ld1 : freeing o ip x1 P k0 k -> freed sb P ld ld1 -> view o' ld1 k' -> quiet k k' -> k_log k' = k_log k ->
  freeing o' ip x1 P k0 k'.
Proof.
  intros [_ H2 H3 H4 H5] Hf V' Q' L'. split; [by exists ld1|by rewrite (quiet_sb _ _ Q')| |by rewrite (quiet_inodes _ _ Q')|by rewrite L'].
  eapply still_trans; [exact H3|]. by apply quiet_still.
Qed.

(** The indirect block as it was. *)
Lemma freed_ind P ld1 : ind x <> 0 -> freed sb P ld ld1 -> ld1 (ind x) = ld (ind x).
Proof.
  intros Hi [_ H]. apply H. destruct (ff_data _ _ _ F _ (ind_owned x ld Hi)) as [[Hd _] _].
  pose proof (BBLOCK_range sb 0 G ltac:(destruct G; lia)) as Hb. rewrite one_bitmap in Hb by (done || (destruct G; lia)). lia.
Qed.

(** The loop over the entries of the indirect block. *)
Lemma trunc_entries_wp ip k0 k bp : ind x <> 0 -> freeing [(bp, ind x)] ip (zeroed 12) (blocks_below x ld NDIRECT false) k0 k ->
  wp (for_range (Z.to_nat NINDIRECT) 0 (fun j =>
        let! a := get_indirect bp j in
        when (negb (a =? 0)) (bfree ROOTDEV a)))
     (fun _ => freeing [(bp, ind x)] ip (zeroed 12) (blocks_below x ld MAXFILE false) k0) k.
Proof.
  intros Hi H. destruct (ff_data _ _ _ F _ (ind_owned x ld Hi)) as [Hid _].
  eapply wp_mono; [apply (wp_for_range _ _ _ (fun j k' => freeing [(bp, ind x)] ip (zeroed 12) (blocks_below x ld (NDIRECT + j) false) k0 k'))|].
  - exact H.
  - intros j k1 Hj H1. change (0 + Z.of_nat (Z.to_nat NINDIRECT)) with 256 in Hj. unfold get_indirect, getb. wp_steps.
    destruct (fg_view _ _ _ _ _ _ H1) as (ld1 & V1 & Hf1). destruct (view_open_ld _ _ _ bp (ind x) V1 ltac:(by left)) as [Hdat _].
    rewrite Hdat, (freed_ind _ _ Hi Hf1).
    assert (getw 4 (4 * Z.to_nat j) (ld (ind x)) = addr_of x ld (NDIRECT + j)) as ->.
    { unfold addr_of. rewrite (proj2 (Z.ltb_ge (NDIRECT + j) NDIRECT)) by lia. rewrite (proj2 (Z.eqb_neq (ind x) 0)) by done. do 3 f_equal. lia. }
    rewrite Z.add_assoc. destruct (Z.eqb_spec (addr_of x ld (NDIRECT + j)) 0) as [Hz|Hz]; cbn [negb when].
    + wp_steps. eapply freeing_ext; [|exact H1]. intros y _. symmetry. apply blocks_below_skip; [fslia|done].
    + assert (in_file (NDIRECT + j)) as Hin by (unfold in_file; fslia). destruct (owned_addr _ Hin Hz) as [Hd Ha].
      eapply bfree_freeing; [exact H1|done|done|by apply not_below|by intros y ->%list_elem_of_singleton|cbn; lia|].
      intros k2 H2. eapply freeing_ext; [|exact H2]. intros y _. symmetry. apply blocks_below_S; [fslia|done].
  - cbv beta. intros [] k'. done.
Qed.

Lemma trunc_indirect_wp ip k0 k : freeing [] ip (zeroed 12) (blocks_below x ld NDIRECT false) k0 k ->
  wp (when (negb (aget (i_addrs (zeroed 12)) NDIRECT =? 0))
        (let! bp := bread (i_dev (zeroed 12)) (aget (i_addrs (zeroed 12)) NDIRECT) in
         do! for_range (Z.to_nat NINDIRECT) 0 (fun j =>
           let! a := get_indirect bp j in
           when (negb (a =? 0)) (bfree (i_dev (zeroed 12)) a));
         do! brelse bp;
         let! x := geti ip in
         do! bfree (i_dev x) (aget (i_addrs x) NDIRECT);
         updi ip (set i_addrs (aset NDIRECT 0))))
     (fun _ => freeing [] ip (zeroed 13) (owned x ld) k0) k.
Proof.
  intros H. unfold geti.
  assert (aget (i_addrs (zeroed 12)) NDIRECT = ind x) as Ei by (apply (zeroed_aget 12 12); lia). rewrite Ei.
  destruct (Z.eqb_spec (ind x) 0) as [Hz|Hz]; cbn [negb when].
  - wp_steps. rewrite <- zeroed_skip by (done || lia). eapply freeing_ext; [|exact H]. intros y _. rewrite blocks_all. unfold blocks_below.
    split; (intros [H0 Hy]; split; [done|]).
    + destruct Hy as [(bn & Hb & E)|[? _]]; [|done]. left. exists bn. split; [fslia|done].
    + destruct Hy as [(bn & Hb & E)|[_ E]]; [|congruence]. left. exists bn. split; [|done]. split; [lia|].
      destruct (Z_lt_le_dec bn NDIRECT); [done|]. unfold addr_of in E. rewrite (proj2 (Z.ltb_ge bn NDIRECT)), Hz in E by lia. by rewrite <- E in H0.
  - destruct (ff_data _ _ _ F _ (ind_owned x ld Hz)) as [Hid Hia]. destruct (fg_view _ _ _ _ _ _ H) as (ld1 & V & Hf).
    change (i_dev (zeroed 12)) with (i_dev x). rewrite (ff_dev _ _ _ F). wp_step. pose proof (freeing_room _ _ _ _ _ _ H) as R.
    apply (open_block (p := p) [] ld1); [done|by eapply data_blockno|apply not_elem_of_nil|destruct R; cbn; lia|].
    intros bp k1 V1 Q1 L1 _. pose proof (freeing_quiet _ _ _ _ _ _ _ _ _ H Hf V1 Q1 L1) as H1.
    wp_step. eapply wp_mono; [by apply trunc_entries_wp|]. cbv beta. intros _ k2 H2. destruct (fg_view _ _ _ _ _ _ H2) as (ld2 & V2 & Hf2).
    wp_step. apply (close_block _ _ _ _ _ _ V2). intros k3 V3 Q3 L3. pose proof (freeing_quiet _ _ _ _ _ _ _ _ _ H2 Hf2 V3 Q3 L3) as H3.
    wp_step. wp_step. rewrite (list_lookup_total_correct _ _ _ (fg_inode _ _ _ _ _ _ H3)), Ei. change (i_dev (zeroed 12)) with (i_dev x). rewrite (ff_dev _ _ _ F).
    wp_step. eapply bfree_freeing; [exact H3|done|done| |by intros y Hy%elem_of_nil|cbn; lia|].
    { intros [_ [(bn & Hb & E)|[? _]]]; [|done]. by apply (ff_ind _ _ _ F bn Hb). }
    intros k4 H4. unfold updi. wp_steps. apply (clear_addr ip 12); [|lia]. eapply freeing_ext; [|exact H4].
    intros y _. rewrite blocks_all. unfold blocks_below. split.
    + intros [[H0 [Hy|[? _]]]| ->]; [split; [done|by left]|done|split; [done|by right]].
    + intros [H0 [Hy|[_ ->]]]; [left; split; [done|by left]|by right].
Qed.

(** An empty inode. *)
Lemma emptied_addr s ld1 bn : addr_of ((zeroed 13) <| i_size := s |>) ld1 bn = 0.
Proof.
  pose proof (ff_len _ _ _ F) as Hl. unfold addr_of, ind, aget.
  change (i_addrs ((zeroed 13) <| i_size := s |>)) with (replicate 13 0 ++ drop 13 (i_addrs x)).
  destruct (Z.ltb_spec bn NDIRECT); [|done]. rewrite list_lookup_total_alt, lookup_app_l, lookup_replicate_2 by (rewrite ?length_replicate; fslia). done.
Qed.

Lemma emptied_wf ld1 : file_wf sb ((zeroed 13) <| i_size := 0 |>) ld1.
Proof.
  pose proof (ff_len _ _ _ F) as Hl. split; try done.
  - apply F.
  - change (i_addrs ((zeroed 13) <| i_size := 0 |>)) with (replicate 13 0 ++ drop 13 (i_addrs x)). rewrite length_app, length_replicate, length_drop. lia.
  - intros y [Hy [->|(bn & _ & E)]]; [done|]. by rewrite emptied_addr in E.
  - intros bn bn' _ _. by rewrite emptied_addr.
  - intros bn H0 Hs. cbn in Hs. change BSIZE with 1024 in Hs. lia.
Qed.
End Trunc.

Section Itrunc.
Context {L : Layout} {I : Interference} {D : Disk} {DO : DiskOk D}.

(** C20. [itrunc] empties a file: its size is 0 and it has no blocks, in
    memory and on the disk; of the data blocks, exactly those the file had are
    free that were not before; the data blocks are not written, and the other
    inodes on the disk stay as they are. *)
Theorem itrunc_spec p sb ip x ld k : fs_file p sb ip x ld k -> room 2 (k_log k) ->
  wp (itrunc ip) (fun _ k' => exists x' ld', fs_file p sb ip x' ld' k' /\ synced sb x' ld' /\
    i_size x' = 0 /\ (forall bn, addr_of x' ld' bn = 0) /\
    (forall y, is_data sb y -> (allocated sb ld' y = true <-> allocated sb ld y = true /\ ~ owned x ld y) /\ ld' y = ld y) /\
    (forall j, j <> i_inum x -> 0 <= j < sb_ninodes sb ->
       slice (dip_off j) 64 (ld' (IBLOCK j sb)) = slice (dip_off j) 64 (ld (IBLOCK j sb)))) k.
Proof.
  intros H Hr. pose proof H as [G O V S N M F K U]. pose proof (view_log _ _ _ V) as W0.
  assert (freeing (p := p) sb ld (k_log k) [] ip x (fun _ => False) k k) as H0.
  { split; try done; [exists ld; split; [done|apply freed_none; intros y _ Hy; exact Hy]|by apply quiet_still|apply spent_refl]. }
  unfold itrunc. wp_step. eapply wp_mono; [by apply (trunc_direct_wp (p := p) sb G O x ld M F (k_log k) W0 Hr)|].
  cbv beta. intros _ k1 H1. unfold geti. wp_step. wp_step. rewrite (list_lookup_total_correct _ _ _ (fg_inode _ _ _ _ _ _ _ _ _ H1)).
  wp_step. eapply wp_mono; [by apply (trunc_indirect_wp (p := p) sb G O x ld M F (k_log k) W0 Hr)|].
  cbv beta. intros _ k2 H2. destruct H2 as [(ld2 & V2 & Hf2) S2 St2 N2 P2]. set (x2 := (zeroed x 13) <| i_size := 0 |>).
  assert (forall y, owned x ld y -> is_data sb y) as Hown by (intros y Hy; by apply F).
  wp_step. unfold updi at 1. wp_step.
  match goal with |- wp _ _ ?y => set (k3 := y) end.
  assert (still ip x2 k2 k3) as St3 by (by apply (still_updi ip (zeroed x 13) (set i_size (fun _ => 0)))).
  assert (fileop (p := p) sb (k_log k) [] ip x2 ld2 [] k3) as H3.
  { split; [by apply view_set_inodes|by rewrite (still_sb _ _ _ _ St3)|by eapply still_lookup| |by eapply emptied_wf|].
    - by eapply freed_meta.
    - eapply spent_mono; [exact P2|]. unfold touch. set_solver. }
  eapply (iupdate_wp (p := p) sb G (k_log k) W0 ip x2 ld2 [] k3 _ H3); [exact U|exact Hr|].
  intros k4 H4 Q4. exists x2, (store_inode sb x2 ld2).
  pose proof H4 as [V4 S4 N4 M4 F4 P4].
  assert (forall y, sb_bmapstart sb <= y -> store_inode sb x2 ld2 y = ld2 y) as Eq by (intros y; by apply store_inode_ge).
  assert (dinode_ok x2) as K2 by (by apply (file_dinode_ok sb x x2 _ G F4 K)).
  assert (block_ok (ld2 (IBLOCK (i_inum x2) sb))) as Hb2 by (by eapply view_block).
  split; [by split|]. split; [by apply store_inode_synced|]. split; [done|]. split; [intros bn; by eapply emptied_addr|]. split.
  - intros y Hy. pose proof (data_nonneg _ _ G Hy). rewrite (inodes_allocated sb ld2 _ G Eq), (inodes_data sb ld2 _ G Eq) by (done || lia).
    split; [apply Hf2; lia|]. apply Hf2. pose proof (BBLOCK_range sb 0 G ltac:(destruct G; lia)) as Hb. destruct Hy.
    rewrite one_bitmap in Hb by (done || (destruct G; lia)). lia.
  - intros j Hj Hjr. rewrite store_inode_other by done. pose proof (IBLOCK_range sb j G Hjr).
    destruct Hf2 as [_ Hf2]. rewrite Hf2 by lia. done.
Qed.

End Itrunc.

(** ** Instance *)
Lemma itrunc_spec_witness : wp (itrunc 0) (fun _ k' => exists x' ld', fs_file 0 demo_sb 0 x' ld' k' /\ i_size x' = 0) fsk.
Proof.
  eapply wp_mono; [apply (itrunc_spec 0 demo_sb 0 demo_inode demo_disk fsk (proj1 fsk_file))|].
  - destruct fsk_file as [_ ->]. done.
  - cbv beta. intros _ k' (x' & ld' & H & _ & Hs & _). exists x', ld'. split; assumption.
Defined.
