(* ===== verification/Mkfs.v ===== *)
(** * Building the disk image (mkfs/mkfs.c)

    The state is the image file, sector by sector, with its length, and the
    two counters.  [Panic] is a failed assert or a call of die.  A structure
    is modelled by its bytes in the image; [xshort] and [xint] are the bytes
    they store.  The files given on the command line are their names and what
    read delivers of each, [None] if it cannot be opened. *)

From Stdlib Require Import ZArith Lia.
From stdpp Require Import base list strings sets.
From S2P Require Import Prelude Params Mem State Evict Kalloc Vm Sched Sleeplock Printf Bio Log Fs.

Definition NINODES : Z := 200.
Definition nbitmap : Z := FSSIZE / BPB + 1.
Definition ninodeblocks : Z := NINODES / IPB + 1.
Definition nlog : Z := LOGBLOCKS + 1.
Definition nmeta : Z := 2 + nlog + ninodeblocks + nbitmap.
Definition nblocks : Z := FSSIZE - nmeta.

Record image := mkimage {
  im_data : Z -> list Z;
  im_len : Z;
  im_freeinode : Z;
  im_freeblock : Z
}.

Abbreviation MK := (K image).

Definition check (b : bool) (msg : string) : MK unit := if b then ret tt else panic msg.

(** ** Byte order *)
Definition xshort (x : Z) : list Z := [u8 x; u8 (Z.shiftr x 8)].
Definition xint (x : Z) : list Z := [u8 x; u8 (Z.shiftr x 8); u8 (Z.shiftr x 16); u8 (Z.shiftr x 24)].

(** The super block. *)
Definition mk_sb : superblock :=
  mksuperblock FSMAGIC FSSIZE nblocks NINODES nlog 2 (2 + nlog) (2 + nlog + ninodeblocks).
Definition sb_bytes (sb : superblock) : list Z :=
  xint (sb_magic sb) ++ xint (sb_size sb) ++ xint (sb_nblocks sb) ++ xint (sb_ninodes sb) ++ xint (sb_nlog sb) ++
  xint (sb_logstart sb) ++ xint (sb_inodestart sb) ++ xint (sb_bmapstart sb).

(** ** Sectors *)
Definition zeroes : list Z := replicate (Z.to_nat BSIZE) 0.

(** [lseek(fsfd, sec * BSIZE, 0)]: the product is unsigned and 32 bits wide; the
    sector of the image file it is the start of. *)
Definition seek (sec : Z) : Z := u32 (sec * BSIZE) / BSIZE.

(** write past the end of the image file leaves a gap that reads as zeroes. *)
Definition wsect (sec : Z) (buf : list Z) : MK unit :=
  let pos := seek sec in
  modify (fun s =>
    let data := if im_len s <? pos then fun y => if (im_len s <=? y) && (y <? pos) then zeroes else im_data s y
                else im_data s in
    mkimage (fupd pos buf data) (Z.max (im_len s) (pos + 1)) (im_freeinode s) (im_freeblock s)).

(** read at the end of the image file returns less than a sector. *)
Definition rsect (sec : Z) : MK (list Z) :=
  let pos := seek sec in
  let! s := gets (fun s => s) in
  if pos <? im_len s then ret (im_data s pos) else panic "read".

(** ** Inodes *)
Definition winode (inum : Z) (ip : inode) : MK unit :=
  let bn := IBLOCK inum mk_sb in
  let! buf := rsect bn in
  wsect bn (put_dinode ip (dip_off inum) buf).

(** The fields that are not on the disk name the inode. *)
Definition rinode (inum : Z) : MK inode :=
  let bn := IBLOCK inum mk_sb in
  let! buf := rsect bn in
  ret (get_dinode (dip_off inum) buf (inode0 <| i_dev := ROOTDEV |> <| i_inum := inum |>)).

Definition new_block : MK Z :=
  let! s := gets (fun s => s) in
  do! modify (fun s => mkimage (im_data s) (im_len s) (im_freeinode s) (u32 (im_freeblock s + 1)));
  ret (im_freeblock s).

Definition ialloc (type : Z) : MK Z :=
  let! s := gets (fun s => s) in
  do! modify (fun s => mkimage (im_data s) (im_len s) (u32 (im_freeinode s + 1)) (im_freeblock s));
  let inum := im_freeinode s in
  do! winode inum (inode0 <| i_dev := ROOTDEV |> <| i_inum := inum |> <| i_type := type |> <| i_nlink := 1 |>
                     <| i_size := 0 |> <| i_addrs := replicate 13 0 |>);
  ret inum.

(** ** The bitmap *)
Definition bitmap (used : Z) : list Z :=
  fold_left (fun buf i => aupd (i / 8) (fun y => Z.lor y (Z.shiftl 1 (i mod 8))) buf) (seqZ 0 used) zeroes.

Definition balloc (used : Z) : MK unit :=
  do! check (used <? BPB) "used < BPB";
  wsect (sb_bmapstart mk_sb) (bitmap used).

(** ** Appending to a file *)

(** The block of file block [fbn], made if there is none. *)
Definition fblock (din : inode) (fbn : Z) : MK (inode * Z) :=
  if fbn <? NDIRECT then
    let! din := if aget (i_addrs din) fbn =? 0
                then let! b := new_block in ret (din <| i_addrs ::= aset fbn b |>)
                else ret din in
    ret (din, aget (i_addrs din) fbn)
  else
    let! din := if aget (i_addrs din) NDIRECT =? 0
                then let! b := new_block in ret (din <| i_addrs ::= aset NDIRECT b |>)
                else ret din in
    let ib := aget (i_addrs din) NDIRECT in
    let j := (4 * Z.to_nat (fbn - NDIRECT))%nat in
    let! indirect := rsect ib in
    let! indirect := if getw 4 j indirect =? 0
                     then let! b := new_block in
                          let indirect := putw 4 j b indirect in
                          do! wsect ib indirect;
                          ret indirect
                     else ret indirect in
    ret (din, getw 4 j indirect).

Fixpoint iappend_loop (fuel : nat) (din : inode) (off : Z) (p : list Z) : MK (inode * Z) :=
  match fuel with
  | O => ret (din, off)
  | S fuel' =>
      let n := Z.of_nat (length p) in
      if 0 <? n then
        let fbn := off / BSIZE in
        do! check (fbn <? MAXFILE) "fbn < MAXFILE";
        let! r := fblock din fbn in
        let din := r.1 in
        let x := r.2 in
        let n1 := Z.min n ((fbn + 1) * BSIZE - off) in
        let! buf := rsect x in
        do! wsect x (splice (Z.to_nat (off - fbn * BSIZE)) (take (Z.to_nat n1) p) buf);
        iappend_loop fuel' din (u32 (off + n1)) (drop (Z.to_nat n1) p)
      else ret (din, off)
  end.

(** Every round takes a byte at least. *)
Definition iappend (inum : Z) (p : list Z) : MK unit :=
  let! din := rinode inum in
  let off := i_size din in
  let! r := iappend_loop (S (length p)) din off p in
  winode inum (r.1 <| i_size := r.2 |>).

(** ** main *)

(** [bzero(&de)], [de.inum = ...], [strcpy(de.name, name)]. *)
Definition dot_entry (inum : Z) (name : list Z) : list Z :=
  xshort inum ++ splice 0 (name ++ [0]) (replicate (Z.to_nat DIRSIZ) 0).

(** The name in the image: without user/, without the underscore. *)
Definition strip_dir (name : list Z) : list Z :=
  if strncmp_bytes 5 name (cstr "user/") =? 0 then drop 5 name else name.
Definition strip_underscore (name : list Z) : list Z :=
  match name with
  | c :: s => if c =? 95 then s else name
  | [] => []
  end.

(** [while((cc = read(fd, buf, sizeof(buf))) > 0) iappend(inum, buf, cc)] *)
Fixpoint append_all (inum : Z) (chunks : list (list Z)) : MK unit :=
  match chunks with
  | [] => ret tt
  | c :: chunks' => if bool_decide (c = []) then ret tt else do! iappend inum c; append_all inum chunks'
  end.

Definition add_file (rootino : Z) (f : list Z * option (list (list Z))) : MK unit :=
  let shortname := strip_dir f.1 in
  do! check (negb (existsb (Z.eqb SLASH) shortname)) "index(shortname, '/') == 0";
  match f.2 with
  | None => panic "open"
  | Some chunks =>
      let shortname := strip_underscore shortname in
      do! check (Z.of_nat (length shortname) <=? DIRSIZ) "strlen(shortname) <= DIRSIZ";
      let! inum := ialloc T_FILE in
      do! iappend rootino (xshort inum ++ strncpy_bytes (Z.to_nat DIRSIZ) shortname);
      append_all inum chunks
  end.

Fixpoint add_files (rootino : Z) (fs : list (list Z * option (list (list Z)))) : MK unit :=
  match fs with
  | [] => ret tt
  | f :: fs' => do! add_file rootino f; add_files rootino fs'
  end.

Definition mkfs (fs : list (list Z * option (list (list Z)))) : MK unit :=
  do! for_range (Z.to_nat FSSIZE) 0 (fun i => wsect i zeroes);
  do! wsect 1 (splice 0 (sb_bytes mk_sb) zeroes);
  let! rootino := ialloc T_DIR in
  do! check (rootino =? ROOTINO) "rootino == ROOTINO";
  do! iappend rootino (dot_entry rootino [46]);
  do! iappend rootino (dot_entry rootino [46; 46]);
  do! add_files rootino fs;
  let! din := rinode rootino in
  let off := (i_size din / BSIZE + 1) * BSIZE in
  do! winode rootino (din <| i_size := u32 off |>);
  let! s := gets (fun s => s) in
  balloc (im_freeblock s).

(** The image file just created. *)
Definition image0 : image := mkimage (fun _ => []) 0 1 nmeta.
