(* ===== verification/MkfsSpec.v ===== *)
(** * What the steps of mkfs do

    The image of mkfs/mkfs.c as a list of files: each routine keeps the
    invariant [inv] and adds to the list.  The block trees of files on the
    image come first. *)

From Stdlib Require Import ZArith Lia.
From stdpp Require Import base list strings sets.
From S2P Require Import Prelude Params Mem State Evict Kalloc Vm Sched SchedSpec SchedProps Sleeplock Printf Bio BioSpec.
From S2P Require Import BioLaws Log Fs FsInv LogSpec LogTheorems FsAlloc FsFile FsBmap FsRw FsInode Mkfs.

(** The first [nb] blocks of the file are there, between [lo] and [hi]. *)
Record mtree (lo hi : Z) (x : inode) (ld : Z -> list Z) (nb : Z) : Prop := {
  mt_len : length (i_addrs x) = 13%nat;
  mt_nb : 0 <= nb <= MAXFILE;
  mt_lo : 0 < lo <= hi;
  mt_in bn : 0 <= bn < nb -> lo <= addr_of x ld bn < hi;
  mt_out bn : nb <= bn < MAXFILE -> addr_of x ld bn = 0;
  mt_ind : ind x = 0 \/ lo <= ind x < hi;
  mt_big : NDIRECT < nb -> ind x <> 0;
  mt_inj bn bn' : 0 <= bn < nb -> 0 <= bn' < nb -> addr_of x ld bn = addr_of x ld bn' -> bn = bn';
  mt_ne bn : ind x <> 0 -> 0 <= bn < nb -> addr_of x ld bn <> ind x
}.

Lemma mtree_mono lo hi hi' x ld nb : hi <= hi' -> mtree lo hi x ld nb -> mtree lo hi' x ld nb.
Proof.
  intros Hh [H1 H2 H3 H4 H5 H6 H7 H8 H9]. split; try done; [lia| |lia]. intros bn Hb. specialize (H4 bn Hb). lia.
Qed.

Lemma mtree_owned lo hi x ld nb y : mtree lo hi x ld nb -> owned x ld y -> lo <= y < hi.
Proof.
  intros [H1 H2 H3 H4 H5 H6 H7 H8 H9] [Hy [->|(bn & Hb & <-)]]; [lia|]. unfold in_file in Hb. destruct (Z_lt_le_dec bn nb); [apply H4; lia|].
  destruct Hy. apply H5. lia.
Qed.

(** The map depends on the indirect block only. *)
Lemma addr_of_ext x ld ld' bn : (ind x <> 0 -> ld' (ind x) = ld (ind x)) -> addr_of x ld' bn = addr_of x ld bn.
Proof.
  intros H. unfold addr_of. destruct (bn <? NDIRECT); [done|]. destruct (Z.eqb_spec (ind x) 0) as [|Hi]; [done|]. by rewrite H.
Qed.

Lemma mtree_ext lo hi x ld ld' nb : (ind x <> 0 -> ld' (ind x) = ld (ind x)) -> mtree lo hi x ld nb -> mtree lo hi x ld' nb.
Proof.
  intros E [H1 H2 H3 H4 H5 H6 H7 H8 H9]. split; try done.
  - intros bn Hb. rewrite (addr_of_ext _ ld) by done. by apply H4.
  - intros bn Hb. rewrite (addr_of_ext _ ld) by done. by apply H5.
  - intros bn bn' Hb Hb'. rewrite !(addr_of_ext _ ld ld') by done. by apply H8.
  - intros bn Hi Hb. rewrite (addr_of_ext _ ld) by done. by apply H9.
Qed.

Lemma owned_ext x ld ld' y : (ind x <> 0 -> ld' (ind x) = ld (ind x)) -> owned x ld' y <-> owned x ld y.
Proof. intros E. unfold owned. by setoid_rewrite (addr_of_ext x ld ld' _ E). Qed.

(** Of the inode only the addresses matter. *)
Lemma addr_of_addrs x x' ld bn : i_addrs x' = i_addrs x -> addr_of x' ld bn = addr_of x ld bn.
Proof. intros E. unfold addr_of, ind. by rewrite E. Qed.

Lemma mtree_addrs lo hi x x' ld nb : i_addrs x' = i_addrs x -> mtree lo hi x ld nb -> mtree lo hi x' ld nb.
Proof.
  intros E [H1 H2 H3 H4 H5 H6 H7 H8 H9]. assert (ind x' = ind x) as Ei by (unfold ind; by rewrite E).
  split; rewrite ?Ei, ?E; try done.
  - intros bn Hb. rewrite (addr_of_addrs x) by done. by apply H4.
  - intros bn Hb. rewrite (addr_of_addrs x) by done. by apply H5.
  - intros bn bn' Hb Hb'. rewrite !(addr_of_addrs x x') by done. by apply H8.
  - intros bn Hi Hb. rewrite (addr_of_addrs x) by done. by apply H9.
Qed.

Lemma mtree_empty x ld lo hi : i_addrs x = replicate 13 0 -> 0 < lo <= hi -> mtree lo hi x ld 0.
Proof.
  intros E Hlo. assert (ind x = 0) as Hi by (unfold ind; rewrite E; done).
  assert (forall bn, 0 <= bn < MAXFILE -> addr_of x ld bn = 0) as Ha.
  { intros bn Hb. unfold addr_of. destruct (Z.ltb_spec bn NDIRECT); [|by rewrite Hi]. rewrite E. unfold aget.
    apply lookup_total_replicate_2. change NDIRECT with 12 in *. lia. }
  split; try done; try lia. by rewrite E.
Qed.

(** ** Adding a block *)
Lemma getw_zeros n o : getw n o zeros = 0.
Proof.
  unfold getw, slice, zeros. rewrite drop_replicate, take_replicate. apply le_val_zeros.
Qed.

(** The new address of a file block: the other addresses stay. *)
Record tree_add (x : inode) (ld : Z -> list Z) (nb b : Z) (x' : inode) (ld' : Z -> list Z) : Prop := {
  ta_new : addr_of x' ld' nb = b;
  ta_old bn : 0 <= bn -> bn <> nb -> bn < MAXFILE -> addr_of x' ld' bn = addr_of x ld bn;
  ta_ind : ind x' = ind x;
  ta_len : length (i_addrs x') = 13%nat
}.

Lemma mtree_add lo hi x ld nb x' ld' : mtree lo hi x ld nb -> nb < MAXFILE -> (NDIRECT <= nb -> ind x <> 0) ->
  tree_add x ld nb hi x' ld' -> mtree lo (hi + 1) x' ld' (nb + 1).
Proof.
  intros [H1 H2 H3 H4 H5 H6 H7 H8 H9] Hnb Hi [T1 T2 T3 T4].
  assert (forall bn, 0 <= bn < nb + 1 -> addr_of x' ld' bn = if decide (bn = nb) then hi else addr_of x ld bn) as Ha.
  { intros bn Hb. case_decide as E; [by subst|]. apply T2; [lia|done|lia]. }
  split; try done; try lia.
  - intros bn Hb. rewrite Ha by done. case_decide; [lia|]. specialize (H4 bn ltac:(lia)). lia.
  - intros bn Hb. rewrite T2 by lia. apply H5. lia.
  - intros bn bn' Hb Hb'. rewrite !Ha by done. case_decide as E1; case_decide as E2; try lia; intros E.
    + specialize (H4 bn' ltac:(lia)). lia.
    + specialize (H4 bn ltac:(lia)). lia.
    + apply H8; [lia|lia|done].
  - intros bn Hi' Hb. rewrite Ha, T3 by done. case_decide; [lia|]. rewrite T3 in Hi'. apply H9; [done|lia].
Qed.

Lemma add_direct x ld nb b : length (i_addrs x) = 13%nat -> 0 <= nb < NDIRECT -> tree_add x ld nb b (x <| i_addrs ::= aset nb b |>) ld.
Proof.
  intros Hl Hnb. change NDIRECT with 12 in *.
  assert (forall bn, 0 <= bn <= 12 -> aget (aset nb b (i_addrs x)) bn = if decide (nb = bn) then b else aget (i_addrs x) bn) as Ha.
  { intros bn Hb. apply aget_aset; lia. }
  assert (ind (x <| i_addrs ::= aset nb b |>) = ind x) as Hi.
  { unfold ind. change (i_addrs (x <| i_addrs ::= aset nb b |>)) with (aset nb b (i_addrs x)). rewrite Ha by (change NDIRECT with 12; lia).
    rewrite decide_False by (change NDIRECT with 12; lia). done. }
  split; try done.
  - unfold addr_of. destruct (Z.ltb_spec nb NDIRECT); [|change NDIRECT with 12 in *; lia].
    change (i_addrs (x <| i_addrs ::= aset nb b |>)) with (aset nb b (i_addrs x)). rewrite Ha, decide_True by (done || lia). done.
  - intros bn H0 Hn _. unfold addr_of. rewrite Hi. destruct (Z.ltb_spec bn NDIRECT); [|done]. change NDIRECT with 12 in *.
    change (i_addrs (x <| i_addrs ::= aset nb b |>)) with (aset nb b (i_addrs x)). rewrite Ha, decide_False by (done || lia). done.
  - change (i_addrs (x <| i_addrs ::= aset nb b |>)) with (aset nb b (i_addrs x)). unfold aset. by rewrite length_insert.
Qed.

Lemma add_indirect x ld nb b : length (i_addrs x) = 13%nat -> NDIRECT <= nb < MAXFILE -> ind x <> 0 -> block_ok (ld (ind x)) -> 0 <= b < 2 ^ 32 ->
  tree_add x ld nb b x (fupd (ind x) (putw 4 (4 * Z.to_nat (nb - NDIRECT)) b (ld (ind x))) ld).
Proof.
  intros Hl Hnb Hi [Hb _] Hr. change MAXFILE with 268 in *. change NDIRECT with 12 in *. change (Z.to_nat BSIZE) with 1024%nat in Hb.
  split; try done.
  - unfold addr_of. change NDIRECT with 12. destruct (Z.ltb_spec nb 12); [lia|]. destruct (Z.eqb_spec (ind x) 0); [done|].
    rewrite fupd_eq, getw_putw_eq by lia. apply Z.mod_small. exact Hr.
  - intros bn H0 Hn Hm. change MAXFILE with 268 in Hm. unfold addr_of. change NDIRECT with 12. destruct (Z.ltb_spec bn 12); [done|].
    destruct (Z.eqb_spec (ind x) 0); [done|]. rewrite fupd_eq. apply getw_putw_ne; lia.
Qed.

(** The indirect block itself, which has no addresses yet. *)
Lemma add_ind lo hi x ld nb : mtree lo hi x ld nb -> ind x = 0 -> ld hi = zeros -> mtree lo (hi + 1) (x <| i_addrs ::= aset NDIRECT hi |>) ld nb /\
  ind (x <| i_addrs ::= aset NDIRECT hi |>) = hi /\ forall bn, 0 <= bn -> addr_of (x <| i_addrs ::= aset NDIRECT hi |>) ld bn = addr_of x ld bn.
Proof.
  intros [H1 H2 H3 H4 H5 H6 H7 H8 H9] Hi Hz. set (x' := x <| i_addrs ::= aset NDIRECT hi |>).
  assert (forall bn, 0 <= bn <= 12 -> aget (i_addrs x') bn = if decide (12 = bn) then hi else aget (i_addrs x) bn) as Ha.
  { intros bn Hb. unfold x'. change (i_addrs (x <| i_addrs ::= aset NDIRECT hi |>)) with (aset 12 hi (i_addrs x)). apply aget_aset; lia. }
  assert (ind x' = hi) as Ei by (unfold ind; change NDIRECT with 12; rewrite Ha, decide_True by (done || lia); done).
  assert (forall bn, 0 <= bn -> addr_of x' ld bn = addr_of x ld bn) as Haddr.
  { intros bn Hb. unfold addr_of. rewrite Ei, Hi, Hz. change NDIRECT with 12. destruct (Z.ltb_spec bn 12).
    - rewrite Ha, decide_False by lia. done.
    - cbn [Z.eqb]. destruct (Z.eqb_spec hi 0); [done|]. apply getw_zeros. }
  split; [|done]. split; try done; try lia.
  - unfold x'. change (i_addrs (x <| i_addrs ::= aset NDIRECT hi |>)) with (aset NDIRECT hi (i_addrs x)). unfold aset. by rewrite length_insert.
  - intros bn Hb. rewrite Haddr by lia. specialize (H4 bn Hb). lia.
  - intros bn Hb. rewrite Haddr by lia. by apply H5.
  - intros bn bn' Hb Hb'. rewrite !Haddr by lia. by apply H8.
  - intros bn _ Hb. rewrite Haddr, Ei by lia. specialize (H4 bn Hb). lia.
Qed.

(** ** Contents *)
Definition nbk (n : Z) : Z := (n + BSIZE - 1) / BSIZE.

(** The blocks a file of [n] bytes takes, its indirect block included. *)
Definition cost (n : Z) : Z := nbk n + (if NDIRECT <? nbk n then 1 else 0).

(** The blocks hold [c] and then zeros. *)
Definition mdata (x : inode) (ld : Z -> list Z) (c : list Z) (nb : Z) : Prop :=
  forall i, 0 <= i < nb * BSIZE -> file_byte x ld i = nth (Z.to_nat i) c 0.

Record mcont (lo hi : Z) (x : inode) (ld : Z -> list Z) (c : list Z) : Prop := {
  mc_tree : mtree lo hi x ld (nbk (Z.of_nat (length c)));
  mc_max : Z.of_nat (length c) <= MAXFILE * BSIZE;
  mc_noind : nbk (Z.of_nat (length c)) <= NDIRECT -> ind x = 0;
  mc_bytes : mdata x ld c (nbk (Z.of_nat (length c)))
}.

(** A file does not see what happens outside its blocks. *)
Lemma mdata_ext lo hi x ld ld' c nb : mtree lo hi x ld nb -> (forall y, owned x ld y -> ld' y = ld y) -> mdata x ld c nb -> mdata x ld' c nb.
Proof.
  intros T E H i Hi. rewrite <- (H i Hi). unfold file_byte, file_data.
  assert (ind x <> 0 -> ld' (ind x) = ld (ind x)) as Ei by (intros Hn; apply E; split; [done|by left]).
  rewrite (addr_of_ext x ld ld' _ Ei). destruct (Z.eqb_spec (addr_of x ld (i / BSIZE)) 0); [done|].
  rewrite E; [done|]. split; [done|]. right. exists (i / BSIZE). split; [|done].
  pose proof (mt_nb _ _ _ _ _ T). unfold in_file. change BSIZE with 1024 in *. dlia.
Qed.

Lemma mcont_ext lo hi hi' x ld ld' c : mcont lo hi x ld c -> hi <= hi' -> (forall y, owned x ld y -> ld' y = ld y) -> mcont lo hi' x ld' c.
Proof.
  intros [T M N B] Hh E. assert (ind x <> 0 -> ld' (ind x) = ld (ind x)) as Ei by (intros Hn; apply E; split; [done|by left]).
  split; try done; [|by eapply mdata_ext]. eapply mtree_ext; [exact Ei|]. by eapply mtree_mono.
Qed.

Lemma mcont_addrs lo hi x x' ld c : i_addrs x' = i_addrs x -> mcont lo hi x ld c -> mcont lo hi x' ld c.
Proof.
  intros E [T M N B]. assert (ind x' = ind x) as Ei by (unfold ind; by rewrite E). split; try done; [by eapply mtree_addrs|by rewrite Ei|].
  intros i Hi. rewrite <- (B i Hi). unfold file_byte, file_data. by rewrite (addr_of_addrs x).
Qed.

Lemma lookup_total_nth (l : list Z) i : (i < length l)%nat -> l !!! i = nth i l 0.
Proof. intros H. rewrite list_lookup_total_alt, nth_lookup. by destruct (lookup_lt_is_Some_2 l i H) as [v ->]. Qed.

Lemma write_bytes lo hi x ld nb fbn o piece : mtree lo hi x ld nb -> 0 <= fbn < nb -> 0 <= o -> o + Z.of_nat (length piece) <= BSIZE ->
  let a := addr_of x ld fbn in block_ok (ld a) ->
  let ld' := fupd a (splice (Z.to_nat o) piece (ld a)) ld in
  mtree lo hi x ld' nb /\ (forall bn, addr_of x ld' bn = addr_of x ld bn) /\
  forall i, 0 <= i < nb * BSIZE -> file_byte x ld' i =
    if decide (fbn * BSIZE + o <= i < fbn * BSIZE + o + Z.of_nat (length piece)) then nth (Z.to_nat (i - (fbn * BSIZE + o))) piece 0 else file_byte x ld i.
Proof.
  intros T Hf Ho Hp a [Hl _] ld'. pose proof (mt_in _ _ _ _ _ T fbn Hf) as Ha. pose proof (mt_lo _ _ _ _ _ T) as Hlo.
  assert (ind x <> 0 -> ld' (ind x) = ld (ind x)) as Ei.
  { intros Hi. unfold ld'. apply fupd_ne. intros E. by apply (mt_ne _ _ _ _ _ T fbn Hi Hf). }
  assert (forall bn, addr_of x ld' bn = addr_of x ld bn) as Ea by (intros bn; by apply addr_of_ext).
  split; [by eapply mtree_ext|]. split; [done|]. intros i Hi. unfold file_byte, file_data. rewrite Ea.
  change (Z.to_nat BSIZE) with 1024%nat in Hl. change BSIZE with 1024 in *.
  assert (0 <= i / 1024 < nb /\ i = i / 1024 * 1024 + i mod 1024 /\ 0 <= i mod 1024 < 1024) as (Hb & Em & Hm) by dlia.
  pose proof (mt_in _ _ _ _ _ T _ Hb) as Hai. destruct (Z.eqb_spec (addr_of x ld (i / 1024)) 0); [lia|].
  destruct (decide (i / 1024 = fbn)) as [E|E].
  - unfold ld'. rewrite E. fold a. rewrite fupd_eq. unfold aget. rewrite lookup_total_splice by lia.
    destruct (decide (fbn * 1024 + o <= i < fbn * 1024 + o + Z.of_nat (length piece))).
    + rewrite decide_True by lia. rewrite lookup_total_nth by lia. f_equal. lia.
    + rewrite decide_False by lia. done.
  - unfold ld'. rewrite fupd_ne by (intros E'; apply E; by apply (mt_inj _ _ _ _ _ T)). rewrite decide_False by nia. done.
Qed.

Lemma nbk_range n : 0 <= n -> n <= nbk n * BSIZE < n + BSIZE.
Proof. intros H. unfold nbk. change BSIZE with 1024. dlia. Qed.

Lemma block_pos n : 0 <= n -> 0 <= n / BSIZE /\ n / BSIZE * BSIZE <= n < (n / BSIZE + 1) * BSIZE.
Proof. intros H. change BSIZE with 1024. dlia. Qed.

(** Bytes appended in the last block, which is there. *)
Lemma append_piece lo hi x ld c piece : let n := Z.of_nat (length c) in let fbn := n / BSIZE in
  mtree lo hi x ld (fbn + 1) -> mdata x ld c (fbn + 1) -> (fbn + 1 <= NDIRECT -> ind x = 0) -> block_ok (ld (addr_of x ld fbn)) ->
  (0 < length piece)%nat -> n + Z.of_nat (length piece) <= (fbn + 1) * BSIZE ->
  let a := addr_of x ld fbn in
  mcont lo hi x (fupd a (splice (Z.to_nat (n - fbn * BSIZE)) piece (ld a)) ld) (c ++ piece).
Proof.
  intros n fbn T B N Hb Hp Hfit a. pose proof (mt_nb _ _ _ _ _ T) as Hnb. change MAXFILE with 268 in Hnb.
  pose proof (block_pos n ltac:(lia)) as [Hf0 Hn]. fold fbn in Hf0, Hn.
  assert (nbk (Z.of_nat (length (c ++ piece))) = fbn + 1) as E.
  { rewrite length_app. pose proof (nbk_range (Z.of_nat (length c + length piece)) ltac:(lia)). fold n in Hfit. unfold n in *. change BSIZE with 1024 in *. lia. }
  destruct (write_bytes lo hi x ld (fbn + 1) fbn (n - fbn * BSIZE) piece T ltac:(lia) ltac:(lia) ltac:(lia) Hb) as (T' & Ea & Hbytes).
  split; rewrite ?E; try done.
  - rewrite length_app. change MAXFILE with 268. change BSIZE with 1024 in *. unfold n in *. lia.
  - intros i Hi. specialize (Hbytes i Hi). unfold a. rewrite Hbytes. clear Hbytes. replace (fbn * BSIZE + (n - fbn * BSIZE)) with n by lia.
    case_decide as Hd.
    + rewrite app_nth2 by (unfold n in *; lia). f_equal. unfold n in *. lia.
    + rewrite (B i Hi). destruct (Z_lt_le_dec i n); [by rewrite app_nth1 by (unfold n in *; lia)|].
      rewrite !nth_overflow; [done|rewrite length_app|]; unfold n in *; lia.
Qed.

(** The cost of appending up to the end of the last block. *)
Lemma nbk_block n : 0 <= n -> nbk n = n / BSIZE \/ nbk n = n / BSIZE + 1.
Proof. intros H. unfold nbk. change BSIZE with 1024. dlia. Qed.

Lemma cost_mono n m : 0 <= n <= m -> cost n <= cost m.
Proof.
  intros H. unfold cost. assert (nbk n <= nbk m) by (unfold nbk; change BSIZE with 1024; dlia).
  destruct (Z.ltb_spec NDIRECT (nbk n)), (Z.ltb_spec NDIRECT (nbk m)); lia.
Qed.

(** ** What the steps of mkfs do

    The image of mkfs/mkfs.c as a list of files: each routine keeps the
    invariant [inv] and adds to the list. *)

(** Arithmetic with the sizes of the image. *)
Ltac mklia :=
  change nmeta with 47 in *; change FSSIZE with 2000 in *; change BSIZE with 1024 in *; change NDIRECT with 12 in *;
  change MAXFILE with 268 in *; lia.

(** ** Sectors and counters *)
Definition set_sect (sec : Z) (d : list Z) (s : image) : image :=
  mkimage (fupd sec d (im_data s)) (Z.max (im_len s) (sec + 1)) (im_freeinode s) (im_freeblock s).
Definition bump_block (s : image) : image := mkimage (im_data s) (im_len s) (im_freeinode s) (im_freeblock s + 1).

Record img_ok (s : image) : Prop := {
  io_len : im_len s = FSSIZE;
  io_blocks y : 0 <= y < FSSIZE -> block_ok (im_data s y);
  io_free : nmeta <= im_freeblock s <= FSSIZE;
  io_zero y : im_freeblock s <= y < FSSIZE -> im_data s y = zeros
}.

Lemma seek_id sec : 0 <= sec <= FSSIZE -> seek sec = sec.
Proof. intros H. unfold seek. rewrite u32_id by mklia. apply Z.div_mul. done. Qed.

Lemma rsect_wp sec s Q : img_ok s -> 0 <= sec < FSSIZE -> Q (im_data s sec) s -> wp (rsect sec) Q s.
Proof. intros I H HQ. unfold rsect. rewrite seek_id by lia. wp_steps. rewrite (io_len _ I). destruct (Z.ltb_spec sec FSSIZE); [by wp_steps|lia]. Qed.

Lemma wsect_wp sec d s Q : 0 <= sec < FSSIZE -> sec <= im_len s -> Q tt (set_sect sec d s) -> wp (wsect sec d) Q s.
Proof.
  intros H Hl HQ. unfold wsect. rewrite seek_id by lia. wp_steps. by rewrite (proj2 (Z.ltb_ge _ _)) by lia.
Qed.

Lemma wsect_ok sec d s Q : img_ok s -> 0 <= sec < FSSIZE -> Q tt (set_sect sec d s) -> wp (wsect sec d) Q s.
Proof. intros I H. apply wsect_wp; [done|]. rewrite (io_len _ I). lia. Qed.

Lemma new_block_wp s Q : img_ok s -> Q (im_freeblock s) (bump_block s) -> wp new_block Q s.
Proof.
  intros I HQ. unfold new_block. wp_steps. rewrite u32_id; [done|]. pose proof (io_free _ I). mklia.
Qed.

Lemma check_wp b msg s Q : b = true -> Q tt s -> wp (check b msg) Q s.
Proof. intros -> HQ. unfold check. by wp_steps. Qed.

Lemma img_ok_bump s : img_ok s -> im_freeblock s < FSSIZE -> img_ok (bump_block s).
Proof. intros [H1 H2 H3 H4] Hf. split; cbn; try done; [lia|]. intros y Hy. apply H4. lia. Qed.

Lemma img_ok_set s sec d : img_ok s -> 0 <= sec < im_freeblock s -> block_ok d -> img_ok (set_sect sec d s).
Proof.
  intros [H1 H2 H3 H4] Hs Hd. split; cbn; try done.
  - lia.
  - intros y Hy. destruct (decide (y = sec)) as [->|Hn]; [by rewrite fupd_eq|]. rewrite fupd_ne by done. auto.
  - intros y Hy. rewrite fupd_ne by lia. auto.
Qed.

(** ** The block of a file block *)
Definition costb (nb : Z) : Z := nb + (if NDIRECT <? nb then 1 else 0).

Record fblock_post (s : image) (x : inode) (nb fbn : Z) (x' : inode) (s' : image) : Prop := {
  fp_img : img_ok s';
  fp_fb : im_freeblock s' = im_freeblock s + costb (fbn + 1) - costb nb;
  fp_fi : im_freeinode s' = im_freeinode s;
  fp_tree : mtree nmeta (im_freeblock s') x' (im_data s') (fbn + 1);
  fp_noind : fbn + 1 <= NDIRECT -> ind x' = 0;
  fp_fields : x' = x <| i_addrs := i_addrs x' |>;
  fp_data y : y <> ind x' -> im_data s' y = im_data s y;
  fp_ind : ind x' = ind x \/ im_freeblock s <= ind x' < im_freeblock s';
  fp_addr bn : 0 <= bn < nb -> addr_of x' (im_data s') bn = addr_of x (im_data s) bn;
  fp_new : nb = fbn -> im_data s' (addr_of x' (im_data s') fbn) = zeros /\
    im_freeblock s <= addr_of x' (im_data s') fbn < im_freeblock s'
}.

Lemma block_zeros : block_ok zeros.
Proof. apply zeros_ok. Qed.

(** The entry of the indirect block. *)
Lemma indirect_entry_wp s x nb fbn Q :
  img_ok s -> mtree nmeta (im_freeblock s) x (im_data s) nb -> ind x <> 0 -> fbn <= nb <= fbn + 1 -> NDIRECT <= fbn < MAXFILE ->
  im_freeblock s + (fbn + 1 - nb) <= FSSIZE ->
  (forall s', img_ok s' -> im_freeblock s' = im_freeblock s + (fbn + 1 - nb) -> im_freeinode s' = im_freeinode s ->
     mtree nmeta (im_freeblock s') x (im_data s') (fbn + 1) -> (forall y, y <> ind x -> im_data s' y = im_data s y) ->
     (forall bn, 0 <= bn < nb -> addr_of x (im_data s') bn = addr_of x (im_data s) bn) ->
     (nb = fbn -> addr_of x (im_data s') fbn = im_freeblock s) -> Q (x, addr_of x (im_data s') fbn) s') ->
  wp (let ib := aget (i_addrs x) NDIRECT in
      let j := (4 * Z.to_nat (fbn - NDIRECT))%nat in
      let! indirect := rsect ib in
      let! indirect := if getw 4 j indirect =? 0
                       then let! b := new_block in
                            let indirect := putw 4 j b indirect in
                            do! wsect ib indirect;
                            ret indirect
                       else ret indirect in
      ret (x, getw 4 j indirect)) Q s.
Proof.
  intros I T Hi Hnb Hf Hroom HQ. cbv zeta. fold (ind x). pose proof (mt_ind _ _ _ _ _ T) as [|Hr]; [done|].
  pose proof (io_free _ I) as Hfr. pose proof (mt_nb _ _ _ _ _ T) as Hmb. pose proof (mt_len _ _ _ _ _ T) as Hlen.
  assert (block_ok (im_data s (ind x))) as Hbo by (apply (io_blocks _ I); mklia).
  assert (forall ld, addr_of x ld fbn = getw 4 (4 * Z.to_nat (fbn - NDIRECT)) (ld (ind x))) as Ea.
  { intros ld. unfold addr_of. destruct (Z.ltb_spec fbn NDIRECT); [lia|]. by destruct (Z.eqb_spec (ind x) 0). }
  wp_step. apply rsect_wp; [done|mklia|]. rewrite <- (Ea (im_data s)). wp_step. destruct (decide (nb = fbn)) as [E|E].
  - subst fbn. rewrite (mt_out _ _ _ _ _ T) by lia. change (0 =? 0) with true. cbv iota. wp_step. apply new_block_wp; [done|].
    wp_step. apply wsect_wp; [mklia|cbn; rewrite (io_len _ I); mklia|]. wp_steps. set (b := im_freeblock s) in *. set (d := putw 4 _ b _).
    set (ld' := fupd (ind x) d (im_data s)).
    assert (tree_add x (im_data s) nb b x ld') as A by (apply add_indirect; [done|done|done|done|mklia]).
    assert (getw 4 (4 * Z.to_nat (nb - NDIRECT)) d = addr_of x ld' nb) as -> by (rewrite Ea; unfold ld'; by rewrite fupd_eq).
    apply (HQ (set_sect (ind x) d (bump_block s))).
    + apply img_ok_set; [apply img_ok_bump; [done|lia]|cbn; mklia|]. destruct Hbo as [Hb1 Hb2].
      split; [unfold d; rewrite length_putw; [done|]; rewrite Hb1; change (Z.to_nat BSIZE) with 1024%nat; mklia|by apply putw_bytes_ok].
    + cbn. lia.
    + done.
    + cbn. apply (mtree_add _ _ _ _ _ _ _ T); [lia|done|exact A].
    + intros y Hy. cbn. by apply fupd_ne.
    + intros bn Hb. apply (ta_old _ _ _ _ _ _ A); lia.
    + intros _. apply (ta_new _ _ _ _ _ _ A).
  - pose proof (mt_in _ _ _ _ _ T fbn ltac:(mklia)) as Hin. destruct (Z.eqb_spec (addr_of x (im_data s) fbn) 0) as [|_]; [mklia|].
    wp_steps. rewrite <- (Ea (im_data s)). assert (nb = fbn + 1) as -> by lia. apply HQ; try done; lia.
Qed.

Lemma fblock_wp s x nb fbn Q : img_ok s -> mtree nmeta (im_freeblock s) x (im_data s) nb -> (nb <= NDIRECT -> ind x = 0) ->
  fbn <= nb <= fbn + 1 -> 0 <= fbn < MAXFILE -> im_freeblock s + costb (fbn + 1) - costb nb <= FSSIZE ->
  (forall x' s', fblock_post s x nb fbn x' s' -> Q (x', addr_of x' (im_data s') fbn) s') -> wp (fblock x fbn) Q s.
Proof.
  intros I T N Hnb Hf Hroom HQ. unfold fblock. pose proof (io_free _ I) as Hfr. pose proof (mt_len _ _ _ _ _ T) as Hlen.
  destruct (Z.ltb_spec fbn NDIRECT) as [Hd|Hd].
  - assert (forall x ld, addr_of x ld fbn = aget (i_addrs x) fbn) as Ea by (intros; unfold addr_of; by destruct (Z.ltb_spec fbn NDIRECT); [|lia]).
    assert (ind x = 0) as Hi.
    { apply N. unfold costb in Hroom. mklia. }
    assert (costb (fbn + 1) = fbn + 1 /\ costb nb = nb) as [E1 E2].
    { unfold costb. destruct (Z.ltb_spec NDIRECT (fbn + 1)), (Z.ltb_spec NDIRECT nb); lia. }
    rewrite <- (Ea x (im_data s)). destruct (decide (nb = fbn)) as [E|E].
    + subst fbn. rewrite (mt_out _ _ _ _ _ T) by lia. change (0 =? 0) with true. cbv iota. wp_step. wp_step. apply new_block_wp; [done|].
      wp_steps. set (b := im_freeblock s) in *. pose proof (add_direct x (im_data s) nb b Hlen ltac:(lia)) as A.
      rewrite <- (Ea _ (im_data (bump_block s))). apply HQ. assert (ind (x <| i_addrs ::= aset nb b |>) = 0) as Hi' by (rewrite (ta_ind _ _ _ _ _ _ A); done).
      split; try done.
      * apply img_ok_bump; [done|lia].
      * cbn. lia.
      * cbn. apply (mtree_add _ _ _ _ _ _ _ T); [lia|lia|exact A].
      * left. apply (ta_ind _ _ _ _ _ _ A).
      * intros bn Hb. apply (ta_old _ _ _ _ _ _ A); mklia.
      * intros _. change (im_data (bump_block s)) with (im_data s). rewrite (ta_new _ _ _ _ _ _ A). split; [apply (io_zero _ I); lia|cbn; lia].
    + pose proof (mt_in _ _ _ _ _ T fbn ltac:(mklia)) as Hin. destruct (Z.eqb_spec (addr_of x (im_data s) fbn) 0) as [|_]; [mklia|].
      wp_steps. rewrite <- (Ea _ (im_data s)). apply HQ. assert (nb = fbn + 1) as -> by lia. split; try done; [lia|by destruct x|by left].
  - fold (ind x). destruct (Z.eqb_spec (ind x) 0) as [Hi|Hi].
    + assert (nb = NDIRECT /\ fbn = NDIRECT) as [-> ->].
      { assert (nb <= NDIRECT); [|lia]. destruct (Z_lt_le_dec NDIRECT nb); [|done]. by destruct (mt_big _ _ _ _ _ T). }
      change (costb (NDIRECT + 1)) with 14 in Hroom. change (costb NDIRECT) with 12 in Hroom. wp_step. wp_step. apply new_block_wp; [done|]. wp_step.
      set (b := im_freeblock s) in *. assert (im_data s b = zeros) as Ez by (apply (io_zero _ I); lia).
      destruct (add_ind _ _ _ _ _ T Hi Ez) as (T' & Ei & Ea). set (x' := x <| i_addrs ::= aset NDIRECT b |>) in *.
      apply (indirect_entry_wp (bump_block s) x' NDIRECT NDIRECT); try done; [apply img_ok_bump; [done|lia]|rewrite Ei; mklia|cbn; lia|].
      intros s' I' F' FI T2 D2 A2 N2. cbn in F'. rewrite Ei in D2. apply HQ. split; try done.
      * rewrite F'. change (costb (NDIRECT + 1)) with 14. change (costb NDIRECT) with 12. lia.
      * intros y Hy. rewrite Ei in Hy. rewrite D2 by done. done.
      * right. rewrite Ei. lia.
      * intros bn Hb. rewrite A2 by done. apply Ea. lia.
      * intros _. rewrite N2 by done. cbn. rewrite D2 by lia. split; [apply (io_zero _ I); lia|lia].
    + wp_step. wp_step. assert (NDIRECT < nb) as Hbig by (destruct (Z_lt_le_dec NDIRECT nb); [done|]; by destruct Hi; apply N).
      assert (costb (fbn + 1) = fbn + 2 /\ costb nb = nb + 1) as [E1 E2].
      { unfold costb. destruct (Z.ltb_spec NDIRECT (fbn + 1)), (Z.ltb_spec NDIRECT nb); lia. }
      apply (indirect_entry_wp s x nb fbn); try done; [lia|lia|]. intros s' I' F' FI T2 D2 A2 N2. apply HQ. split; try done.
      * lia.
      * lia.
      * by destruct x.
      * by left.
      * intros E. rewrite N2 by done. rewrite D2; [split; [apply (io_zero _ I)|]|]; [lia|lia|].
        intros E'. pose proof (mt_ind _ _ _ _ _ T) as [|H]; [done|lia].
Qed.

(** ** Appending *)
Lemma fblock_mdata s x c x' s' : let n := Z.of_nat (length c) in
  mcont nmeta (im_freeblock s) x (im_data s) c -> fblock_post s x (nbk n) (n / BSIZE) x' s' -> mdata x' (im_data s') c (n / BSIZE + 1).
Proof.
  intros n [T M N B] [P1 P2 P3 T' P5 P6 D' P8 A' New'] i Hi. unfold file_byte, file_data. pose proof (nbk_block n ltac:(lia)) as Hnb.
  assert (0 <= i / BSIZE < n / BSIZE + 1 /\ i / BSIZE * BSIZE <= i) as [Hb Hib] by (change BSIZE with 1024 in *; dlia).
  pose proof (mt_in _ _ _ _ _ T' _ Hb) as Hin. destruct (Z.eqb_spec (addr_of x' (im_data s') (i / BSIZE)) 0) as [|_]; [mklia|].
  destruct (Z_lt_le_dec (i / BSIZE) (nbk n)) as [Hold|Hnew].
  - assert (im_data s' (addr_of x' (im_data s') (i / BSIZE)) = im_data s (addr_of x' (im_data s') (i / BSIZE))) as ->.
    { apply D'. intros E. destruct (decide (ind x' = 0)) as [E0|E0]; [mklia|]. by apply (mt_ne _ _ _ _ _ T' (i / BSIZE) E0). }
    rewrite A' in * by lia. assert (0 <= i < nbk n * BSIZE) as Hi' by (change BSIZE with 1024 in *; dlia). specialize (B i Hi').
    unfold file_byte, file_data in B. by destruct (Z.eqb_spec (addr_of x (im_data s) (i / BSIZE)) 0) as [|_]; [mklia|].
  - assert (nbk n = n / BSIZE) as E by lia. assert (i / BSIZE = n / BSIZE) as -> by lia. rewrite (proj1 (New' E)).
    rewrite nth_overflow; [unfold aget; apply lookup_total_replicate_2; change BSIZE with 1024 in *; dlia|].
    pose proof (nbk_range n ltac:(lia)). rewrite E in *. change BSIZE with 1024 in *. dlia.
Qed.

(** [p] was appended to the file [x] with the contents [c]. *)
Record app_post (s : image) (x : inode) (c p : list Z) (x' : inode) (s' : image) : Prop := {
  ap_img : img_ok s';
  ap_fb : im_freeblock s' = im_freeblock s + cost (Z.of_nat (length (c ++ p))) - cost (Z.of_nat (length c));
  ap_fi : im_freeinode s' = im_freeinode s;
  ap_cont : mcont nmeta (im_freeblock s') x' (im_data s') (c ++ p);
  ap_fields : x' = x <| i_addrs := i_addrs x' |>;
  ap_frame y : 0 < y < im_freeblock s -> ~ owned x (im_data s) y -> im_data s' y = im_data s y;
  ap_owned y : owned x' (im_data s') y -> owned x (im_data s) y \/ im_freeblock s <= y
}.

(** One round of the loop. *)
Lemma append_round s x c piece x' s' : let n := Z.of_nat (length c) in let fbn := n / BSIZE in
  mcont nmeta (im_freeblock s) x (im_data s) c -> fblock_post s x (nbk n) fbn x' s' -> Forall byte_ok piece ->
  (0 < length piece)%nat -> n + Z.of_nat (length piece) <= (fbn + 1) * BSIZE ->
  let a := addr_of x' (im_data s') fbn in
  0 <= a < FSSIZE /\ app_post s x c piece x' (set_sect a (splice (Z.to_nat (n - fbn * BSIZE)) piece (im_data s' a)) s').
Proof.
  intros n fbn C P Hok Hp Hfit a. pose proof (fblock_mdata s x c x' s' C P) as B'. pose proof (nbk_block n ltac:(lia)) as Hnb.
  destruct P as [I' Fb' Fi' T' N' X' D' Ind' A' New']. pose proof (io_free _ I') as Hfr. destruct C as [T M N B].
  pose proof (block_pos n ltac:(lia)) as [Hf0 Hn]. fold fbn in Hf0, Hn.
  pose proof (mt_in _ _ _ _ _ T' fbn ltac:(lia)) as Ha. fold a in Ha. split; [mklia|].
  assert (block_ok (im_data s' a)) as Hbo by (apply (io_blocks _ I'); mklia).
  destruct (write_bytes _ _ _ _ (fbn + 1) fbn (n - fbn * BSIZE) piece T' ltac:(lia) ltac:(lia) ltac:(lia) Hbo) as (_ & Ea & _).
  assert (nbk (Z.of_nat (length (c ++ piece))) = fbn + 1) as Enb.
  { rewrite length_app. pose proof (nbk_range (Z.of_nat (length c + length piece)) ltac:(lia)). unfold n in *. mklia. }
  split; try done.
  - apply img_ok_set; [done|mklia|]. apply splice_block_ok; [done|done|]. change (Z.to_nat BSIZE) with 1024%nat. mklia.
  - cbn [im_freeblock set_sect]. rewrite Fb'. unfold cost. rewrite Enb. done.
  - by apply append_piece.
  - intros y Hy Ho. cbn [im_data set_sect]. rewrite fupd_ne.
    + apply D'. intros ->. destruct Ind' as [E|E]; [|lia]. apply Ho. rewrite E in *. split; [lia|by left].
    + intros ->. destruct Hnb as [E|E].
      * destruct (New' E) as [_ Hge]. fold a in Hge. lia.
      * apply Ho. split; [lia|]. right. exists fbn. pose proof (mt_nb _ _ _ _ _ T'). split; [unfold in_file; lia|]. symmetry. apply A'. rewrite E. fold fbn. lia.
  - intros y [Hy0 [->|(bn & Hb & <-)]].
    + destruct Ind' as [E|E]; [left; rewrite E in *; split; [done|by left]|by right; lia].
    + cbn [im_data set_sect] in Hy0 |- *. unfold a in Hy0 |- *. rewrite Ea in Hy0 |- *. unfold in_file in Hb.
      destruct (Z_lt_le_dec bn (nbk n)) as [H1|H1].
      * left. rewrite A' in * by lia. split; [done|]. right. by exists bn.
      * destruct (Z_lt_le_dec bn (fbn + 1)) as [H2|H2]; [|by rewrite (mt_out _ _ _ _ _ T') in Hy0 by lia].
        right. assert (bn = fbn) as -> by lia. apply New'. lia.
Qed.

Lemma app_post_trans s x c p x1 s1 q x2 s2 : app_post s x c p x1 s1 -> app_post s1 x1 (c ++ p) q x2 s2 -> app_post s x c (p ++ q) x2 s2.
Proof.
  intros [I1 B1 F1 C1 X1 D1 O1] [I2 B2 F2 C2 X2 D2 O2]. pose proof (cost_mono (Z.of_nat (length c)) (Z.of_nat (length (c ++ p)))) as Hc.
  rewrite length_app in Hc. rewrite <- app_assoc in *. split; try done.
  - rewrite B2, B1, !length_app. lia.
  - by rewrite F2.
  - rewrite X2, X1. by destruct x.
  - intros y Hy Ho. rewrite D2; [by apply D1| |].
    + rewrite B1, length_app. lia.
    + intros Ho'. destruct (O1 y Ho'); [done|lia].
  - intros y Hy. destruct (O2 y Hy) as [H|H]; [by apply O1|right]. rewrite B1, length_app in H. lia.
Qed.

Lemma app_post_refl s x c : img_ok s -> mcont nmeta (im_freeblock s) x (im_data s) c -> app_post s x c [] x s.
Proof. intros I C. split; try done; rewrite ?app_nil_r; try done; [lia|by destruct x|by left]. Qed.

Lemma iappend_loop_wp fuel s x c p Q : img_ok s -> mcont nmeta (im_freeblock s) x (im_data s) c -> Forall byte_ok p -> (length p < fuel)%nat ->
  Z.of_nat (length (c ++ p)) <= MAXFILE * BSIZE ->
  im_freeblock s + cost (Z.of_nat (length (c ++ p))) - cost (Z.of_nat (length c)) <= FSSIZE ->
  (forall x' s', app_post s x c p x' s' -> Q (x', Z.of_nat (length (c ++ p))) s') ->
  wp (iappend_loop fuel x (Z.of_nat (length c)) p) Q s.
Proof.
  revert s x c p Q. induction fuel as [|fuel IH]; intros s x c p Q I C Hok Hf Hmax Hroom HQ; [lia|]. cbn [iappend_loop]. cbv zeta.
  destruct (Z.ltb_spec 0 (Z.of_nat (length p))) as [Hp|Hp].
  - rewrite length_app, Nat2Z.inj_add in Hmax, Hroom. set (n := Z.of_nat (length c)) in *. set (fbn := n / BSIZE).
    pose proof (block_pos n ltac:(lia)) as [Hf0 Hn]. fold fbn in Hf0, Hn.
    assert (fbn < MAXFILE) as Hfm by mklia. wp_step. apply check_wp; [by apply Z.ltb_lt|]. wp_step.
    set (n1 := Z.min (Z.of_nat (length p)) ((fbn + 1) * BSIZE - n)) in *.
    set (piece := take (Z.to_nat n1) p). assert (Z.of_nat (length piece) = n1) as Epl by (unfold piece; rewrite length_take; lia).
    assert (p = piece ++ drop (Z.to_nat n1) p) as Ep by (unfold piece; by rewrite take_drop).
    assert (0 < n1) as Hn1 by lia. assert (cost (n + n1) <= cost (n + Z.of_nat (length p))) as Hc1 by (apply cost_mono; lia).
    assert (nbk (n + n1) = fbn + 1) as Enb by (pose proof (nbk_range (n + n1) ltac:(lia)); mklia).
    pose proof (nbk_block n ltac:(lia)) as Hnb. fold fbn in Hnb.
    apply (fblock_wp s x (nbk n) fbn); [done|apply C|apply C|lia|lia| |].
    { change (costb (nbk n)) with (cost n). replace (costb (fbn + 1)) with (cost (n + n1)) by (unfold cost; by rewrite Enb). lia. }
    intros x1 s1 P1. cbn [fst snd]. destruct (append_round s x c piece x1 s1) as [Ha AP]; [done|done|by apply Forall_take|lia|fold n; fold fbn; lia|].
    fold n in Ha, AP. fold fbn in Ha, AP. wp_step. apply rsect_wp; [apply (fp_img _ _ _ _ _ _ P1)|done|]. wp_step.
    apply wsect_ok; [apply (fp_img _ _ _ _ _ _ P1)|done|].
    set (s2 := set_sect _ _ s1) in *. assert (u32 (n + n1) = Z.of_nat (length (c ++ piece))) as ->.
    { rewrite length_app, u32_id; [unfold n in *; lia|]. mklia. }
    pose proof (ap_fb _ _ _ _ _ _ AP) as Hfb. rewrite length_app, Nat2Z.inj_add, Epl in Hfb. fold n in Hfb.
    assert (length (drop (Z.to_nat n1) p) = length p - Z.to_nat n1)%nat as Ed by (by rewrite length_drop).
    apply IH; [apply AP|apply AP|by apply Forall_drop|lia| | |].
    + rewrite !length_app, Ed. unfold n in *. lia.
    + rewrite Hfb, !length_app, Ed. replace (Z.of_nat (length c + length piece + (length p - Z.to_nat n1))) with (n + Z.of_nat (length p)) by (unfold n in *; lia).
      replace (Z.of_nat (length c + length piece)) with (n + n1) by (unfold n in *; lia). lia.
    + intros x3 s3 AP2. rewrite <- app_assoc, <- Ep. apply HQ. rewrite Ep. by eapply app_post_trans.
  - destruct p; [|cbn in Hp; lia]. wp_steps. specialize (HQ x s (app_post_refl s x c I C)). by rewrite app_nil_r in HQ.
Qed.
