(* ===== verification/MkfsInv.v ===== *)
(** * The files of the image

    The invariant of the image while mkfs runs, in terms of the list of its
    files: the type and the contents of inode 1, 2 and so on; and the
    routines that work on inodes. *)

From Stdlib Require Import ZArith Lia.
From stdpp Require Import base list strings sets.
From S2P Require Import Prelude Params Mem State Evict Kalloc Vm Sched SchedSpec SchedProps.
From S2P Require Import Sleeplock Printf Bio BioSpec BioLaws Log FsInv LogSpec LogTheorems Fs FsAlloc FsFile FsBmap FsRw FsInode.
From S2P Require Import Mkfs MkfsSpec.

(** ** Inodes in the image *)
Definition base (inum : Z) : inode := inode0 <| i_dev := ROOTDEV |> <| i_inum := inum |>.
Definition dino (ld : Z -> list Z) (inum : Z) : inode := get_dinode (dip_off inum) (ld (IBLOCK inum mk_sb)) (base inum).

Lemma getw_slice o d n i : (i + n <= 64)%nat -> getw n (o + i) d = getw n i (slice o 64 d).
Proof. intros H. unfold getw. by rewrite slice_slice. Qed.

Lemma get_dinode_ext o d d' y : slice o 64 d = slice o 64 d' -> get_dinode o d y = get_dinode o d' y.
Proof.
  intros E. assert (forall n i, (i + n <= 64)%nat -> getw n (o + i) d = getw n (o + i) d') as Hg.
  { intros n i Hi. by rewrite !getw_slice, E. }
  unfold get_dinode, dip_type, dip_nlink. pose proof (Hg 2 0 ltac:(lia))%nat as H0. rewrite Nat.add_0_r in H0. rewrite H0, !Hg by lia.
  assert (dip_addrs o d = dip_addrs o d') as ->; [|done]. unfold dip_addrs. apply map_ext_in. intros j Hj%in_seq.
  rewrite <- Nat.add_assoc. apply Hg. lia.
Qed.

(** The inode has nothing but what is on the disk. *)
Definition bare (inum : Z) (x : inode) : Prop :=
  i_dev x = ROOTDEV /\ i_inum x = inum /\ i_ref x = 0 /\ i_lock x = sleeplock0 /\ i_valid x = 0.

Lemma dino_bare ld inum : bare inum (dino ld inum).
Proof. done. Qed.

Lemma bare_inum inum x : bare inum x -> i_inum x = inum.
Proof. by intros (_ & H & _). Qed.

Lemma bare_upd inum x a n : bare inum x -> bare inum (x <| i_addrs := a |> <| i_size := n |>).
Proof. done. Qed.

Lemma bare_fields inum x : bare inum x ->
  (base inum) <| i_type := i_type x |> <| i_major := i_major x |> <| i_minor := i_minor x |> <| i_nlink := i_nlink x |>
    <| i_size := i_size x |> <| i_addrs := i_addrs x |> = x.
Proof. intros (H1 & H2 & H3 & H4 & H5). destruct x. cbn in *. by subst. Qed.

Lemma dino_store ld inum x : bare inum x -> dinode_ok x -> block_ok (ld (IBLOCK inum mk_sb)) -> dino (store_inode mk_sb x ld) inum = x.
Proof.
  intros B D [Hl _]. unfold dino, store_inode. rewrite (bare_inum _ _ B), fupd_eq, get_put_dinode; [by apply bare_fields|done|].
  rewrite Hl. apply dip_off_fits.
Qed.

Lemma dino_other ld inum j x : bare inum x -> dinode_ok x -> block_ok (ld (IBLOCK inum mk_sb)) -> j <> inum -> dino (store_inode mk_sb x ld) j = dino ld j.
Proof.
  intros B D Hb Hj. unfold dino. apply get_dinode_ext. rewrite <- (bare_inum _ _ B) in Hb, Hj. by apply store_inode_other.
Qed.

Lemma mtree_addrs_ok lo hi x ld nb : mtree lo hi x ld nb -> hi <= 2 ^ 32 -> Forall word_ok (i_addrs x).
Proof.
  intros [H1 H2 H3 H4 H5 H6 H7 H8 H9] Hh. apply Forall_forall. intros v Hv. apply list_elem_of_lookup in Hv as [j Hj].
  pose proof (lookup_lt_Some _ _ _ Hj) as Hlt. rewrite H1 in Hlt.
  assert (v = aget (i_addrs x) (Z.of_nat j)) as -> by (unfold aget; rewrite Nat2Z.id; symmetry; by apply list_lookup_total_correct).
  unfold word_ok. destruct (decide (j = 12%nat)) as [->|Hn]; [change (aget (i_addrs x) (Z.of_nat 12)) with (ind x); lia|].
  assert (addr_of x ld (Z.of_nat j) = aget (i_addrs x) (Z.of_nat j)) as <-.
  { unfold addr_of. destruct (Z.ltb_spec (Z.of_nat j) NDIRECT); [done|mklia]. }
  destruct (Z_lt_le_dec (Z.of_nat j) nb); [specialize (H4 (Z.of_nat j)); lia|rewrite H5 by mklia; lia].
Qed.

(** ** The invariant *)
Abbreviation files := (list (Z * list Z)).

Definition total (fs : files) : Z := fold_right (fun f a => cost (Z.of_nat (length f.2)) + a) 0 fs.

Record good_file (s : image) (inum t : Z) (c : list Z) : Prop := {
  gd_cont : mcont nmeta (im_freeblock s) (dino (im_data s) inum) (im_data s) c;
  gd_size : i_size (dino (im_data s) inum) = Z.of_nat (length c);
  gd_type : i_type (dino (im_data s) inum) = t;
  gd_nlink : i_nlink (dino (im_data s) inum) = 1;
  gd_ok : dinode_ok (dino (im_data s) inum)
}.

Definition inum_of (i : nat) : Z := 1 + Z.of_nat i.
Definition owns (s : image) (i : nat) (y : Z) : Prop := owned (dino (im_data s) (inum_of i)) (im_data s) y.

Record inv (s : image) (fs : files) : Prop := {
  iv_img : img_ok s;
  iv_next : im_freeinode s = 1 + Z.of_nat (length fs);
  iv_few : 1 + Z.of_nat (length fs) <= NINODES;
  iv_fb : im_freeblock s = nmeta + total fs;
  iv_sb : im_data s 1 = splice 0 (sb_bytes mk_sb) zeroes;
  iv_log y : 2 <= y < sb_inodestart mk_sb -> im_data s y = zeros;
  iv_map : im_data s (sb_bmapstart mk_sb) = zeros;
  iv_files i t c : fs !! i = Some (t, c) -> good_file s (inum_of i) t c;
  iv_disj i j y : (i < length fs)%nat -> (j < length fs)%nat -> i <> j -> owns s i y -> ~ owns s j y
}.

Lemma IBLOCK_lt inum : 0 <= inum < NINODES -> sb_inodestart mk_sb <= IBLOCK inum mk_sb < sb_bmapstart mk_sb.
Proof. unfold IBLOCK. change NINODES with 200. change (sb_inodestart mk_sb) with 33. change (sb_bmapstart mk_sb) with 46. change IPB with 16. intros H. dlia. Qed.

Lemma inv_bounds s fs i : inv s fs -> (i < length fs)%nat -> 0 <= inum_of i < NINODES.
Proof. intros V Hi. pose proof (iv_few _ _ V). unfold inum_of. lia. Qed.

Lemma owns_range s fs i y : inv s fs -> (i < length fs)%nat -> owns s i y -> nmeta <= y < im_freeblock s.
Proof.
  intros V Hi Ho. destruct (lookup_lt_is_Some_2 fs i Hi) as [[t c] Hf].
  eapply mtree_owned; [|exact Ho]. apply (gd_cont _ _ _ _ (iv_files _ _ V _ _ _ Hf)).
Qed.

(** A file whose inode and blocks are as they were. *)
Lemma good_file_frame s s' i t c : good_file s (inum_of i) t c -> im_freeblock s <= im_freeblock s' -> dino (im_data s') (inum_of i) = dino (im_data s) (inum_of i) ->
  (forall y, owns s i y -> im_data s' y = im_data s y) -> good_file s' (inum_of i) t c /\ forall y, owns s' i y <-> owns s i y.
Proof.
  intros [C S T N O] Hfb E H. split.
  - split; rewrite E; [by eapply mcont_ext|exact S|exact T|exact N|exact O].
  - intros y. unfold owns. rewrite E. apply owned_ext. intros Hi. apply H. split; [done|by left].
Qed.

(** ** Reading and writing inodes *)
Lemma rinode_wp s inum Q : img_ok s -> 0 <= inum < NINODES -> Q (dino (im_data s) inum) s -> wp (rinode inum) Q s.
Proof.
  intros I Hi HQ. unfold rinode. wp_step. apply rsect_wp; [done| |by wp_steps].
  pose proof (IBLOCK_lt _ Hi). change (sb_bmapstart mk_sb) with 46 in *. change (sb_inodestart mk_sb) with 33 in *. mklia.
Qed.

Lemma winode_wp s inum x Q : img_ok s -> 0 <= inum < NINODES -> bare inum x -> dinode_ok x ->
  (forall s', img_ok s' -> im_data s' = store_inode mk_sb x (im_data s) -> im_freeinode s' = im_freeinode s -> im_freeblock s' = im_freeblock s -> Q tt s') ->
  wp (winode inum x) Q s.
Proof.
  intros I Hi B D HQ. pose proof (IBLOCK_lt _ Hi) as Hib. change (sb_inodestart mk_sb) with 33 in Hib. change (sb_bmapstart mk_sb) with 46 in Hib.
  pose proof (io_free _ I) as Hfr. unfold winode. wp_step. apply rsect_wp; [done|mklia|]. apply wsect_ok; [done|mklia|]. apply HQ; try done.
  - apply img_ok_set; [done|mklia|]. apply put_dinode_block_ok; [apply D|apply dip_off_fits|]. apply (io_blocks _ I). mklia.
  - unfold store_inode. by rewrite (bare_inum _ _ B).
Qed.

(** The blocks below the data are those of the system. *)
Definition meta_kept (ld ld' : Z -> list Z) : Prop :=
  ld' 1 = ld 1 /\ (forall y, 2 <= y < sb_inodestart mk_sb -> ld' y = ld y) /\ ld' (sb_bmapstart mk_sb) = ld (sb_bmapstart mk_sb).

Lemma store_meta x ld inum : bare inum x -> 0 <= inum < NINODES -> meta_kept ld (store_inode mk_sb x ld).
Proof.
  intros B Hi. unfold meta_kept. pose proof (IBLOCK_lt _ Hi) as H. change (sb_inodestart mk_sb) with 33 in *. change (sb_bmapstart mk_sb) with 46 in *.
  unfold store_inode. rewrite (bare_inum _ _ B). split; [|split]; [apply fupd_ne; lia| |apply fupd_ne; lia]. intros y Hy. change (sb_inodestart mk_sb) with 33 in Hy.
  apply fupd_ne. lia.
Qed.

Lemma total_cons f fs : total (f :: fs) = cost (Z.of_nat (length f.2)) + total fs.
Proof. done. Qed.

Lemma total_app fs fs' : total (fs ++ fs') = total fs + total fs'.
Proof. induction fs as [|f fs IH]; [done|]. cbn [app]. rewrite !total_cons, IH. lia. Qed.

Lemma total_insert fs i t c c' : fs !! i = Some (t, c) ->
  total (<[i := (t, c')]> fs) = total fs + cost (Z.of_nat (length c')) - cost (Z.of_nat (length c)).
Proof.
  revert i. induction fs as [|f fs IH]; intros [|i] H; [done|done|injection H as ->|].
  - change (<[0%nat := (t, c')]> ((t, c) :: fs)) with ((t, c') :: fs). rewrite !total_cons. cbn [snd]. lia.
  - change (<[S i := (t, c')]> (f :: fs)) with (f :: <[i := (t, c')]> fs). rewrite !total_cons, (IH i H). lia.
Qed.

(** ** iappend *)

(** The contents of file [i] became [c'], in [s1] but for the inode. *)
Lemma store_wp s fs i t c c' x1 s1 Q : inv s fs -> fs !! i = Some (t, c) -> img_ok s1 -> im_freeinode s1 = im_freeinode s ->
  im_freeblock s1 = nmeta + total (<[i := (t, c')]> fs) -> im_freeblock s <= im_freeblock s1 ->
  let x := dino (im_data s) (inum_of i) in
  mcont nmeta (im_freeblock s1) x1 (im_data s1) c' -> x1 = x <| i_addrs := i_addrs x1 |> ->
  (forall y, 0 < y < im_freeblock s -> ~ owned x (im_data s) y -> im_data s1 y = im_data s y) ->
  (forall y, owned x1 (im_data s1) y -> owned x (im_data s) y \/ im_freeblock s <= y) ->
  (forall s', inv s' (<[i := (t, c')]> fs) -> Q tt s') ->
  wp (winode (inum_of i) (x1 <| i_size := Z.of_nat (length c') |>)) Q s1.
Proof.
  intros V Hf I1 F1 B1 Hmono x C1 X1 D1 O1 HQ. pose proof (lookup_lt_Some _ _ _ Hf) as Hlt. pose proof (inv_bounds _ _ _ V Hlt) as Hin.
  pose proof (iv_files _ _ V _ _ _ Hf) as G. pose proof (iv_img _ _ V) as I. pose proof (io_free _ I) as Hfr. pose proof (io_free _ I1) as Hfr1.
  set (x2 := x1 <| i_size := Z.of_nat (length c') |>).
  pose proof (IBLOCK_lt _ Hin) as Hib. change (sb_inodestart mk_sb) with 33 in Hib. change (sb_bmapstart mk_sb) with 46 in Hib.
  assert (bare (inum_of i) x2) as B2 by (unfold x2; rewrite X1; apply bare_upd, dino_bare).
  assert (dinode_ok x2) as K2.
  { destruct (gd_ok _ _ _ _ G) as [K1 K2 K3 K4 K5 K6 K7]. pose proof (mc_max _ _ _ _ _ C1). unfold x2. split; try (rewrite X1; done).
    - unfold word_ok. cbn. mklia.
    - apply (mt_len _ _ _ _ _ (mc_tree _ _ _ _ _ C1)).
    - apply (mtree_addrs_ok _ _ _ _ _ (mc_tree _ _ _ _ _ C1)). mklia. }
  apply winode_wp; [done|done|done|done|]. intros s2 I2 E2 F2 Fb2. apply HQ. clear HQ.
  assert (block_ok (im_data s1 (IBLOCK (inum_of i) mk_sb))) as Hbo by (apply (io_blocks _ I1); mklia).
  assert (forall y, nmeta <= y -> im_data s2 y = im_data s1 y) as Ed.
  { intros y Hy. rewrite E2. unfold store_inode. rewrite (bare_inum _ _ B2). apply fupd_ne. mklia. }
  assert (forall y, 0 < y < nmeta -> im_data s1 y = im_data s y) as Em.
  { intros y Hy. apply D1; [mklia|]. intros Ho. pose proof (owns_range _ _ _ _ V Hlt Ho). lia. }
  assert (dino (im_data s2) (inum_of i) = x2) as Ei by (rewrite E2; by apply dino_store).
  assert (forall y, owns s2 i y <-> owned x1 (im_data s1) y) as Hown.
  { intros y. unfold owns. rewrite Ei. change (owned x2 (im_data s2) y) with (owned x1 (im_data s2) y). apply owned_ext.
    intros Hi. apply Ed. destruct (mt_ind _ _ _ _ _ (mc_tree _ _ _ _ _ C1)); [done|lia]. }
  assert (forall j t' d, j <> i -> fs !! j = Some (t', d) -> good_file s2 (inum_of j) t' d /\ forall y, owns s2 j y <-> owns s j y) as Hother.
  { intros j t' d Hj Hfj. pose proof (lookup_lt_Some _ _ _ Hfj) as Hltj. apply good_file_frame; [by apply (iv_files _ _ V)|lia| |].
    - rewrite E2, (dino_other _ (inum_of i)); [|done|done|done|unfold inum_of; lia]. unfold dino. rewrite Em; [done|].
      pose proof (IBLOCK_lt _ (inv_bounds _ _ _ V Hltj)) as Hj'. change (sb_inodestart mk_sb) with 33 in Hj'. change (sb_bmapstart mk_sb) with 46 in Hj'. mklia.
    - intros y Hy. pose proof (owns_range _ _ _ _ V Hltj Hy). rewrite Ed by lia. apply D1; [mklia|]. by apply (iv_disj _ _ V j i). }
  pose proof (store_meta x2 (im_data s1) _ B2 Hin) as (M1 & M2 & M3).
  split.
  - done.
  - rewrite F2, F1, length_insert. apply V.
  - rewrite length_insert. apply V.
  - by rewrite Fb2.
  - rewrite E2, M1, Em by mklia. apply (iv_sb _ _ V).
  - intros y Hy. rewrite E2, M2, Em by (done || (change (sb_inodestart mk_sb) with 33 in Hy; mklia)). by apply (iv_log _ _ V).
  - rewrite E2, M3, Em by (change (sb_bmapstart mk_sb) with 46; mklia). apply (iv_map _ _ V).
  - intros j t' d Hj. destruct (decide (j = i)) as [->|Hn].
    + rewrite list_lookup_insert_eq in Hj by done. injection Hj as <- <-. split; rewrite Ei.
      * apply (mcont_addrs _ _ x1); [done|]. eapply mcont_ext; [exact C1|lia|]. intros y Hy. apply Ed. by apply (mtree_owned _ _ _ _ _ _ (mc_tree _ _ _ _ _ C1)).
      * done.
      * unfold x2. rewrite X1. apply (gd_type _ _ _ _ G).
      * unfold x2. rewrite X1. apply (gd_nlink _ _ _ _ G).
      * done.
    + rewrite list_lookup_insert_ne in Hj by done. by apply Hother.
  - intros j j' y Hlj Hlj' Hne. rewrite length_insert in Hlj, Hlj'.
    destruct (lookup_lt_is_Some_2 fs j Hlj) as [[tj cj] Hfj]. destruct (lookup_lt_is_Some_2 fs j' Hlj') as [[tj' cj'] Hfj'].
    destruct (decide (j = i)) as [->|Hn]; [|destruct (decide (j' = i)) as [->|Hn']].
    + rewrite Hown, (proj2 (Hother j' _ _ ltac:(done) Hfj')). intros Ho Ho'. pose proof (owns_range _ _ _ _ V Hlj' Ho').
      destruct (O1 y Ho) as [Hy|Hy]; [|lia]. by apply (iv_disj _ _ V i j' y).
    + rewrite Hown, (proj2 (Hother j _ _ ltac:(done) Hfj)). intros Ho' Ho. pose proof (owns_range _ _ _ _ V Hlj Ho').
      destruct (O1 y Ho) as [Hy|Hy]; [|lia]. by apply (iv_disj _ _ V j i y).
    + rewrite (proj2 (Hother j _ _ ltac:(done) Hfj)), (proj2 (Hother j' _ _ ltac:(done) Hfj')). by apply (iv_disj _ _ V).
Qed.

Lemma iappend_wp s fs i t c p Q : inv s fs -> fs !! i = Some (t, c) -> Forall byte_ok p -> Z.of_nat (length (c ++ p)) <= MAXFILE * BSIZE ->
  nmeta + total (<[i := (t, c ++ p)]> fs) <= FSSIZE -> (forall s', inv s' (<[i := (t, c ++ p)]> fs) -> Q tt s') -> wp (iappend (inum_of i) p) Q s.
Proof.
  intros V Hf Hok Hmax Hroom HQ. pose proof (inv_bounds _ _ _ V (lookup_lt_Some _ _ _ Hf)) as Hin.
  pose proof (iv_files _ _ V _ _ _ Hf) as G. pose proof (iv_img _ _ V) as I. pose proof (total_insert fs i t c (c ++ p) Hf) as Et.
  pose proof (cost_mono (Z.of_nat (length c)) (Z.of_nat (length (c ++ p))) ltac:(rewrite length_app; lia)) as Hcost.
  unfold iappend. wp_step. apply rinode_wp; [done|done|]. set (x := dino (im_data s) (inum_of i)) in *. cbv zeta. wp_step.
  assert (i_size x = Z.of_nat (length c)) as -> by apply (gd_size _ _ _ _ G). pose proof (iv_fb _ _ V) as Hfb.
  apply (iappend_loop_wp _ s x c p); [done|apply G|done|lia|done|lia|]. intros x1 s1 [I1 B1 F1 C1 X1 D1 O1]. cbn [fst snd].
  apply (store_wp s fs i t c (c ++ p)); try done; lia.
Qed.

(** ** The size of a directory *)
Lemma nth_replicate_0 n k : nth n (replicate k 0) 0 = 0.
Proof. revert n. induction k as [|k IH]; intros [|n]; cbn; auto. Qed.

Lemma mcont_pad lo hi x ld c k : mcont lo hi x ld c -> nbk (Z.of_nat (length (c ++ replicate k 0))) = nbk (Z.of_nat (length c)) ->
  Z.of_nat (length (c ++ replicate k 0)) <= MAXFILE * BSIZE -> mcont lo hi x ld (c ++ replicate k 0).
Proof.
  intros [T M N B] E Hm. split; rewrite ?E; try done. intros i Hi. rewrite (B i Hi).
  destruct (Nat.lt_ge_cases (Z.to_nat i) (length c)); [by rewrite app_nth1|]. rewrite app_nth2, nth_overflow by done. symmetry. apply nth_replicate_0.
Qed.

(** The size is set to a larger one that ends in the same block. *)
Lemma resize_wp s fs i t c k Q : inv s fs -> fs !! i = Some (t, c) -> nbk (Z.of_nat (length (c ++ replicate k 0))) = nbk (Z.of_nat (length c)) ->
  Z.of_nat (length (c ++ replicate k 0)) <= MAXFILE * BSIZE -> (forall s', inv s' (<[i := (t, c ++ replicate k 0)]> fs) -> Q tt s') ->
  wp (winode (inum_of i) ((dino (im_data s) (inum_of i)) <| i_size := Z.of_nat (length (c ++ replicate k 0)) |>)) Q s.
Proof.
  intros V Hf E Hm HQ. pose proof (iv_files _ _ V _ _ _ Hf) as G. apply (store_wp s fs i t c); try done.
  - apply V.
  - rewrite (total_insert fs i t c), (iv_fb _ _ V) by done. unfold cost. rewrite E. lia.
  - apply mcont_pad; [apply G|done|done].
  - by left.
Qed.

(** ** ialloc *)
Lemma mcont_empty lo hi x ld : i_addrs x = replicate 13 0 -> 0 < lo <= hi -> mcont lo hi x ld [].
Proof.
  intros E Hlo. split; [by apply mtree_empty|done|intros _; unfold ind; by rewrite E|]. intros i Hi. change (nbk (Z.of_nat (length (@nil Z)))) with 0 in Hi. lia.
Qed.

Lemma not_owned_empty x ld y : i_addrs x = replicate 13 0 -> ~ owned x ld y.
Proof. intros E Ho. pose proof (mtree_owned 1 1 x ld 0 y (mtree_empty x ld 1 1 E ltac:(lia)) Ho). lia. Qed.

Lemma ialloc_wp s fs type Q : inv s fs -> 2 + Z.of_nat (length fs) <= NINODES -> short_ok type ->
  (forall s', inv s' (fs ++ [(type, [])]) -> Q (inum_of (length fs)) s') -> wp (ialloc type) Q s.
Proof.
  intros V Hfew Ht HQ. pose proof (iv_img _ _ V) as I. unfold ialloc. wp_steps. cbv zeta. rewrite (iv_next _ _ V).
  change (1 + Z.of_nat (length fs)) with (inum_of (length fs)). set (inum := inum_of (length fs)). set (x := _ <| i_addrs := _ |>).
  set (s1 := mkimage _ _ _ _). assert (img_ok s1) as I1 by (destruct I; by split).
  assert (0 <= inum < NINODES) as Hin by (unfold inum, inum_of; lia).
  pose proof (IBLOCK_lt _ Hin) as Hib. change (sb_inodestart mk_sb) with 33 in Hib. change (sb_bmapstart mk_sb) with 46 in Hib.
  assert (bare inum x) as B by done. assert (i_addrs x = replicate 13 0) as Ex by done.
  assert (dinode_ok x) as K by (split; try done; rewrite Ex; apply Forall_replicate; done).
  apply winode_wp; [done|done|done|done|]. intros s2 I2 E2 F2 Fb2. wp_steps. apply HQ. clear HQ.
  change (im_data s1) with (im_data s) in E2. assert (im_freeblock s2 = im_freeblock s) as Fb by (by rewrite Fb2).
  assert (block_ok (im_data s (IBLOCK inum mk_sb))) as Hbo by (apply (io_blocks _ I); mklia).
  assert (dino (im_data s2) inum = x) as Ei by (rewrite E2; by apply dino_store).
  assert (forall y, nmeta <= y -> im_data s2 y = im_data s y) as Ed.
  { intros y Hy. rewrite E2. unfold store_inode. rewrite (bare_inum _ _ B). apply fupd_ne. mklia. }
  assert (forall j t c, fs !! j = Some (t, c) -> good_file s2 (inum_of j) t c /\ forall y, owns s2 j y <-> owns s j y) as Hother.
  { intros j t c Hj. pose proof (lookup_lt_Some _ _ _ Hj) as Hlt. apply good_file_frame; [by apply (iv_files _ _ V)|lia| |].
    - rewrite E2. apply (dino_other _ inum); [done|done|done|unfold inum, inum_of; lia].
    - intros y Hy. pose proof (owns_range _ _ _ _ V Hlt Hy). apply Ed. lia. }
  assert (forall y, ~ owns s2 (length fs) y) as Hnew by (intros y; unfold owns; fold inum; rewrite Ei; by apply not_owned_empty).
  pose proof (store_meta x (im_data s) _ B Hin) as (M1 & M2 & M3). pose proof (io_free _ I2) as Hfr.
  split.
  - done.
  - rewrite F2, length_app. cbn [im_freeinode s1 length]. rewrite u32_id; [unfold inum, inum_of; lia|]. unfold inum, inum_of. change NINODES with 200 in *. lia.
  - rewrite length_app. cbn [length]. lia.
  - rewrite Fb, total_app, total_cons. change (total []) with 0. change (cost (Z.of_nat (length (type, [] : list Z).2))) with 0. rewrite (iv_fb _ _ V). lia.
  - rewrite E2, M1. apply (iv_sb _ _ V).
  - intros y Hy. rewrite E2, M2 by done. by apply (iv_log _ _ V).
  - rewrite E2, M3. apply (iv_map _ _ V).
  - intros i t c Hi. apply lookup_app_Some in Hi as [Hi|[Hge Hi]]; [by apply Hother|]. apply list_lookup_singleton_Some in Hi as [Hi E]. injection E as <- <-.
    assert (i = length fs) as -> by lia. fold inum. split; rewrite ?Ei; try done. apply mcont_empty; [done|mklia].
  - intros i j y Hi Hj Hne. rewrite length_app in Hi, Hj. cbn [length] in Hi, Hj.
    destruct (decide (i = length fs)) as [->|Hni]; [intros Ho; by destruct (Hnew y)|].
    destruct (decide (j = length fs)) as [->|Hnj]; [intros _; apply Hnew|].
    destruct (lookup_lt_is_Some_2 fs i ltac:(lia)) as [[ti ci] Hfi]. destruct (lookup_lt_is_Some_2 fs j ltac:(lia)) as [[tj cj] Hfj].
    rewrite (proj2 (Hother i _ _ Hfi)), (proj2 (Hother j _ _ Hfj)). apply (iv_disj _ _ V); [lia|lia|done].
Qed.
