(* ===== verification/MkfsProps.v ===== *)
(** * The main program of mkfs

    The list of files that each part of main of mkfs/mkfs.c leaves in the
    image. *)

From Stdlib Require Import ZArith Lia.
From stdpp Require Import base list strings sets.
From S2P Require Import Prelude Params Mem State Evict Kalloc Vm Sched SchedSpec SchedProps Sleeplock Printf Bio BioSpec.
From S2P Require Import BioLaws Log Fs FsInv LogSpec LogTheorems FsAlloc FsFile FsBmap FsRw FsInode.
From S2P Require Import FsProps FsDirProps Mkfs MkfsSpec MkfsInv.

(** ** The empty image *)
Lemma xshort_le x : xshort x = le_bytes 2 x.
Proof. unfold xshort. cbn [le_bytes]. unfold u8. rewrite Z.shiftr_div_pow2 by lia. done. Qed.

Lemma xint_le x : xint x = le_bytes 4 x.
Proof. unfold xint. cbn [le_bytes]. unfold u8. rewrite !Z.shiftr_div_pow2 by lia. rewrite !Z.div_div by lia. done. Qed.

Lemma sb_block_ok : block_ok (splice 0 (sb_bytes mk_sb) zeroes).
Proof. apply splice_block_ok; [apply zeros_ok| |change (0 + 32 <= 1024)%nat; lia]. unfold sb_bytes. rewrite !xint_le, !Forall_app. auto 20 using le_bytes_ok. Qed.

Lemma zero_loop_wp Q : (forall s, im_len s = FSSIZE -> (forall y, 0 <= y < FSSIZE -> im_data s y = zeros) -> im_freeinode s = 1 ->
    im_freeblock s = nmeta -> Q tt s) ->
  wp (for_range (Z.to_nat FSSIZE) 0 (fun i => wsect i zeroes)) Q image0.
Proof.
  intros HQ. eapply wp_mono; [apply (wp_for_range _ _ _ (fun i s => im_len s = i /\ (forall y, 0 <= y < i -> im_data s y = zeros) /\
    im_freeinode s = 1 /\ im_freeblock s = nmeta))|].
  - split; [done|]. split; [lia|done].
  - intros i s Hi (H1 & H2 & H3 & H4). apply wsect_wp; [change FSSIZE with 2000 in *; lia|lia|]. split; [cbn; lia|]. split; [|done]. intros y Hy. cbn.
    destruct (decide (y = i)) as [->|Hn]; [by rewrite fupd_eq|]. rewrite fupd_ne by done. apply H2. lia.
  - cbv beta. intros [] s (H1 & H2 & H3 & H4). apply HQ; [rewrite H1; done| |done|done]. intros y Hy. apply H2. change FSSIZE with 2000 in *. lia.
Qed.

Lemma inv_start s : im_len s = FSSIZE -> (forall y, 0 <= y < FSSIZE -> im_data s y = zeros) -> im_freeinode s = 1 -> im_freeblock s = nmeta ->
  inv (set_sect 1 (splice 0 (sb_bytes mk_sb) zeroes) s) [].
Proof.
  intros H1 H2 H3 H4. split; cbn [im_freeinode im_freeblock im_data set_sect]; try done.
  - split; cbn [im_len im_data im_freeblock set_sect].
    + change FSSIZE with 2000 in *. lia.
    + intros y Hy. destruct (decide (y = 1)) as [->|Hn]; [rewrite fupd_eq; apply sb_block_ok|]. rewrite fupd_ne, H2 by done. apply zeros_ok.
    + rewrite H4. mklia.
    + intros y Hy. rewrite H4 in Hy. rewrite fupd_ne by mklia. apply H2. mklia.
  - intros y Hy. change (sb_inodestart mk_sb) with 33 in Hy. rewrite fupd_ne by lia. apply H2. mklia.
  - rewrite fupd_ne by done. apply H2. done.
  - intros i j y Hi. cbn in Hi. lia.
Qed.

(** ** Names and contents *)
Abbreviation source := (list Z * option (list (list Z)))%type.

Definition fname (f : source) : list Z := strip_underscore (strip_dir f.1).
Definition fdata (f : source) : list Z := concat (default [] f.2).

(** What mkfs asks of a file: it can be opened, its name has no slash after
    user/ and at most DIRSIZ characters, and it is not too long.  Reads return
    bytes until the end of the file. *)
Record source_ok (f : source) : Prop := {
  sk_open : exists chunks, f.2 = Some chunks /\ Forall (fun c => c <> [] /\ Forall byte_ok c) chunks;
  sk_slash : SLASH ∉ strip_dir f.1;
  sk_len : Z.of_nat (length (fname f)) <= DIRSIZ;
  sk_bytes : Forall byte_ok (fname f);
  sk_max : Z.of_nat (length (fdata f)) <= MAXFILE * BSIZE
}.

(** The entries of the root directory. *)
Definition root_entries (names : list (list Z)) : list (list Z) :=
  mkdirent 1 [46] :: mkdirent 1 [46; 46] :: imap (fun i n => mkdirent (2 + Z.of_nat i) n) names.
Definition root_bytes (names : list (list Z)) : list Z := concat (root_entries names).

(** The files of the image. *)
Definition image_files (l : list source) : files :=
  (T_DIR, root_bytes (map fname l)) :: map (fun f => (T_FILE, fdata f)) l.

Lemma root_entries_snoc names n : root_entries (names ++ [n]) = root_entries names ++ [mkdirent (2 + Z.of_nat (length names)) n].
Proof. unfold root_entries. rewrite imap_app. cbn. by rewrite Nat.add_0_r. Qed.

Lemma root_bytes_snoc names n : root_bytes (names ++ [n]) = root_bytes names ++ mkdirent (2 + Z.of_nat (length names)) n.
Proof. unfold root_bytes. rewrite root_entries_snoc, concat_app. cbn [concat]. by rewrite app_nil_r. Qed.

Lemma root_entries_length names : length (root_entries names) = (2 + length names)%nat.
Proof. unfold root_entries. cbn. by rewrite length_imap. Qed.

Lemma root_entries_16 names : Forall (fun e => length e = 16%nat) (root_entries names).
Proof.
  unfold root_entries. repeat constructor; try apply mkdirent_length. apply Forall_forall. intros e He.
  apply elem_of_lookup_imap_1 in He as (i & n & -> & _). apply mkdirent_length.
Qed.

Lemma root_bytes_length names : length (root_bytes names) = (16 * (2 + length names))%nat.
Proof.
  rewrite <- root_entries_length. unfold root_bytes. pose proof (root_entries_16 names) as H.
  induction H as [|e l He _ IH]; [done|]. cbn [concat length]. rewrite length_app, IH, He. lia.
Qed.

Lemma image_files_length l : length (image_files l) = S (length l).
Proof. unfold image_files. cbn. by rewrite length_map. Qed.

(** The room the files take grows with the list. *)
Lemma total_prefix l l' : total (image_files l) <= total (image_files (l ++ l')).
Proof.
  unfold image_files. rewrite !total_cons, !map_app, total_app. cbn [snd].
  assert (forall l, 0 <= total (map (fun f => (T_FILE, fdata f)) l)) as Hp.
  { intros k. induction k as [|f k IH]; [done|]. cbn [map]. rewrite total_cons. cbn [snd]. pose proof (cost_mono 0 (Z.of_nat (length (fdata f))) ltac:(lia)).
    change (cost 0) with 0 in *. lia. }
  specialize (Hp l'). pose proof (cost_mono (Z.of_nat (length (root_bytes (map fname l)))) (Z.of_nat (length (root_bytes (map fname l ++ map fname l'))))) as Hc.
  rewrite !root_bytes_length, length_app in Hc. rewrite !root_bytes_length, length_app. lia.
Qed.

(** ** Adding files *)
Lemma append_all_wp chunks s fs i t c Q : inv s fs -> fs !! i = Some (t, c) -> Forall (fun a => a <> [] /\ Forall byte_ok a) chunks ->
  Z.of_nat (length (c ++ concat chunks)) <= MAXFILE * BSIZE -> nmeta + total (<[i := (t, c ++ concat chunks)]> fs) <= FSSIZE ->
  (forall s', inv s' (<[i := (t, c ++ concat chunks)]> fs) -> Q tt s') -> wp (append_all (inum_of i) chunks) Q s.
Proof.
  revert s fs c. induction chunks as [|a chunks IH]; intros s fs c V Hf Hok Hm Hroom HQ; cbn [append_all concat] in *.
  - wp_step. apply HQ. by rewrite app_nil_r, list_insert_id.
  - apply Forall_cons in Hok as [[Hne Ha] Hok]. rewrite bool_decide_eq_false_2 by done. rewrite app_assoc in Hm, Hroom, HQ. wp_step.
    pose proof (total_insert fs i t c (c ++ a) Hf) as E1. pose proof (total_insert fs i t c ((c ++ a) ++ concat chunks) Hf) as E2.
    assert (length (c ++ a) <= length ((c ++ a) ++ concat chunks))%nat as Hl by (rewrite (length_app (c ++ a)); lia).
    pose proof (cost_mono (Z.of_nat (length (c ++ a))) (Z.of_nat (length ((c ++ a) ++ concat chunks))) ltac:(lia)) as Hc.
    pose proof (lookup_lt_Some _ _ _ Hf) as Hlt. apply (iappend_wp s fs i t c a); [done|done|done|lia|lia|]. intros s1 V1.
    apply (IH s1 (<[i := (t, c ++ a)]> fs) (c ++ a)); [done|by apply list_lookup_insert_eq|done|done|by rewrite list_insert_insert_eq|].
    intros s2. rewrite list_insert_insert_eq. apply HQ.
Qed.

Lemma dirent_bytes inum n : xshort inum ++ strncpy_bytes (Z.to_nat DIRSIZ) n = mkdirent inum n.
Proof. unfold mkdirent. by rewrite xshort_le. Qed.

Lemma image_files_snoc l f : image_files (l ++ [f]) =
  <[S (length l) := (T_FILE, fdata f)]> (<[0%nat := (T_DIR, root_bytes (map fname l) ++ mkdirent (inum_of (S (length l))) (fname f))]> (image_files l ++ [(T_FILE, [])])).
Proof.
  unfold image_files. rewrite !map_app. cbn [map]. rewrite root_bytes_snoc, length_map. set (m := map (fun f => (T_FILE, fdata f)) l).
  replace (2 + Z.of_nat (length l)) with (inum_of (S (length l))) by (unfold inum_of; lia). set (r := _ ++ mkdirent _ _).
  change (<[0%nat := (T_DIR, r)]> (((T_DIR, root_bytes (map fname l)) :: m) ++ [(T_FILE, [])])) with ((T_DIR, r) :: m ++ [(T_FILE, [])]).
  change (<[S (length l) := (T_FILE, fdata f)]> ((T_DIR, r) :: m ++ [(T_FILE, [])])) with ((T_DIR, r) :: <[length l := (T_FILE, fdata f)]> (m ++ [(T_FILE, [])])).
  f_equal. assert (length l = length m + 0)%nat as -> by (unfold m; rewrite length_map; lia). by rewrite insert_app_r.
Qed.

Lemma add_file_wp s l f Q : inv s (image_files l) -> source_ok f -> Z.of_nat (length l) + 3 <= NINODES -> nmeta + total (image_files (l ++ [f])) <= FSSIZE ->
  (forall s', inv s' (image_files (l ++ [f])) -> Q tt s') -> wp (add_file ROOTINO f) Q s.
Proof.
  intros V [(chunks & Ef & Hok) Hs Hl Hb Hm] Hn Hroom HQ. unfold add_file. cbv zeta. rewrite Ef. fold (fname f).
  assert (fdata f = concat chunks) as Ed by (unfold fdata; by rewrite Ef).
  wp_step. apply check_wp.
  { apply negb_true_iff. destruct (existsb (Z.eqb SLASH) (strip_dir f.1)) eqn:E; [|done]. apply existsb_exists in E as (c & Hc & Ec%Z.eqb_eq).
    subst c. by apply list_elem_of_In in Hc. }
  wp_step. apply check_wp; [by apply Z.leb_le|]. wp_step.
  apply (ialloc_wp s (image_files l)); [done|rewrite image_files_length; lia|done|]. intros s1 V1. rewrite image_files_length, dirent_bytes.
  set (fs1 := image_files l ++ [(T_FILE, [])]) in *. set (i := S (length l)) in *. set (r := root_bytes (map fname l)). set (e := mkdirent (inum_of i) (fname f)).
  assert (fs1 !! 0%nat = Some (T_DIR, r)) as H0 by done. rewrite image_files_snoc in Hroom, HQ. fold i r e fs1 in Hroom, HQ.
  assert (fs1 !! i = Some (T_FILE, [])) as Hi by (unfold fs1, i; rewrite lookup_app_r, image_files_length by (rewrite image_files_length; lia); by rewrite Nat.sub_diag).
  assert ((<[0%nat := (T_DIR, r ++ e)]> fs1) !! i = Some (T_FILE, [])) as Hi' by (by rewrite list_lookup_insert_ne by (unfold i; lia)).
  rewrite (total_insert _ i T_FILE []) in Hroom by done.
  pose proof (cost_mono 0 (Z.of_nat (length (fdata f))) ltac:(lia)) as Hc. change (Z.of_nat (length (@nil Z))) with 0 in Hroom.
  wp_step. change ROOTINO with (inum_of 0). apply (iappend_wp s1 fs1 0 T_DIR r e); [done|done|by apply mkdirent_ok| |lia|].
  { rewrite length_app. unfold r, e. rewrite root_bytes_length, mkdirent_length, length_map. change NINODES with 200 in Hn. mklia. }
  intros s2 V2. apply (append_all_wp chunks s2 (<[0%nat := (T_DIR, r ++ e)]> fs1) i T_FILE []); [done|done|done| | |].
  - cbn [app]. by rewrite <- Ed.
  - rewrite (total_insert _ i T_FILE []) by done. cbn [app]. rewrite <- Ed. change (Z.of_nat (length (@nil Z))) with 0. lia.
  - cbn [app]. rewrite <- Ed. apply HQ.
Qed.

Lemma add_files_wp fl s l Q : inv s (image_files l) -> Forall source_ok fl -> Z.of_nat (length (l ++ fl)) + 2 <= NINODES ->
  nmeta + total (image_files (l ++ fl)) <= FSSIZE -> (forall s', inv s' (image_files (l ++ fl)) -> Q tt s') -> wp (add_files ROOTINO fl) Q s.
Proof.
  revert s l. induction fl as [|f fl IH]; intros s l V Hok Hn Hroom HQ; cbn [add_files].
  - wp_step. apply HQ. by rewrite app_nil_r.
  - apply Forall_cons in Hok as [Hf Hok]. replace (l ++ f :: fl) with ((l ++ [f]) ++ fl) in * by (by rewrite <- app_assoc).
    pose proof (total_prefix (l ++ [f]) fl) as Hp. wp_step. apply (add_file_wp s l f); [done|done| |lia|].
    { rewrite !length_app in Hn. cbn in Hn. lia. }
    intros s1 V1. by apply (IH s1 (l ++ [f])).
Qed.

(** ** The whole program, up to the bitmap *)
Lemma dot_entries : dot_entry 1 [46] = mkdirent 1 [46] /\ dot_entry 1 [46; 46] = mkdirent 1 [46; 46].
Proof. split; vm_compute; reflexivity. Qed.

(** What is left of main. *)
Definition finish : MK unit :=
  let! din := rinode ROOTINO in
  do! winode ROOTINO (din <| i_size := u32 ((i_size din / BSIZE + 1) * BSIZE) |>);
  let! s := gets (fun s => s) in
  balloc (im_freeblock s).

Lemma mkfs_files_wp fl Q : Forall source_ok fl -> Z.of_nat (length fl) + 2 <= NINODES -> nmeta + total (image_files fl) <= FSSIZE ->
  (forall s, inv s (image_files fl) -> wp finish Q s) -> wp (mkfs fl) Q image0.
Proof.
  intros Hok Hn Hroom HQ. unfold mkfs. wp_step. apply zero_loop_wp. intros s H1 H2 H3 H4. wp_step.
  apply wsect_wp; [done|rewrite H1; done|].
  pose proof (inv_start s H1 H2 H3 H4) as V0. wp_step. apply (ialloc_wp _ [] T_DIR); [done|change NINODES with 200; cbn; lia|done|]. intros s1 V1.
  change (inum_of (length (@nil (Z * list Z)))) with (inum_of 0). wp_step. apply check_wp; [done|]. change (dot_entry (inum_of 0)) with (dot_entry 1).
  destruct dot_entries as [-> ->]. pose proof (total_prefix [] fl) as Hp. cbn [app] in Hp. unfold image_files in Hp at 1. rewrite total_cons in Hp. change (total (map _ [])) with 0 in Hp.
  cbn [snd map] in Hp. rewrite root_bytes_length in Hp. change (16 * (2 + length (@nil (list Z))))%nat with 32%nat in Hp. change (cost (Z.of_nat 32)) with 1 in Hp.
  wp_step. apply (iappend_wp s1 ([] ++ [(T_DIR, [])]) 0 T_DIR []); [done|done|by apply mkdirent_ok; repeat constructor|..].
  { cbn [app]. rewrite mkdirent_length. done. }
  { rewrite (total_insert _ 0 T_DIR []) by done. cbn [app]. rewrite mkdirent_length. change (cost (Z.of_nat 16)) with 1. change (total [(T_DIR, [])]) with 0.
    change (cost (Z.of_nat (length (@nil Z)))) with 0. lia. }
  intros s2 V2. change (<[0%nat := (T_DIR, [] ++ mkdirent 1 [46])]> ([] ++ [(T_DIR, [])])) with [(T_DIR, mkdirent 1 [46])] in V2. wp_step.
  apply (iappend_wp s2 [(T_DIR, mkdirent 1 [46])] 0 T_DIR (mkdirent 1 [46])); [done|done|by apply mkdirent_ok; repeat constructor|..].
  { rewrite length_app, !mkdirent_length. done. }
  { rewrite (total_insert _ 0 T_DIR (mkdirent 1 [46])) by done. rewrite total_cons, length_app, !mkdirent_length. cbn [snd]. rewrite mkdirent_length.
    change (total []) with 0. change (cost (Z.of_nat (16 + 16))) with 1. change (cost (Z.of_nat 16)) with 1. lia. }
  intros s3 V3. change (<[0%nat := (T_DIR, mkdirent 1 [46] ++ mkdirent 1 [46; 46])]> [(T_DIR, mkdirent 1 [46])]) with (image_files []) in V3.
  wp_step. apply (add_files_wp fl s3 []); [done|done|done|done|]. intros s4 V4. cbn [app] in V4. apply (HQ s4 V4).
Qed.

(** ** The image mkfs builds is a file system

    What mkfs/mkfs.c writes is what kernel/fs.c expects: the super block, an
    empty log, the bitmap, and files and a root directory in the sense of the
    theorems on the kernel's routines. *)

(** ** The bitmap *)
Lemma bitmap_S k : 0 <= k < BPB -> bitmap (k + 1) = set_bit k (bitmap k).
Proof.
  intros Hk. unfold bitmap. rewrite seqZ_app, fold_left_app by lia. change (seqZ (0 + k) 1) with [0 + k]. cbn [fold_left Z.add].
  unfold set_bit, bit_byte, bit_mask. rewrite !(Z.mod_small k BPB) by done. done.
Qed.

Lemma bitmap_ok k : 0 <= k <= BPB -> block_ok (bitmap k).
Proof.
  intros [Hk Hm]. revert Hm. pattern k. apply natlike_ind; [intros _; apply zeros_ok| |done]. intros j Hj IH Hm. unfold Z.succ. rewrite bitmap_S by lia.
  apply set_bit_ok, IH. lia.
Qed.

Lemma bitmap_allocated sb ld k c : 0 <= k <= BPB -> 0 <= c < BPB ->
  allocated sb (fupd (sb_bmapstart sb) (bitmap k) ld) c = (c <? k).
Proof.
  intros [Hk Hm] Hc. revert Hm. assert (forall c, 0 <= c < BPB -> BBLOCK c sb = sb_bmapstart sb) as Hbb.
  { intros a Ha. unfold BBLOCK. by rewrite Z.div_small. }
  pattern k. apply natlike_ind; [| |done].
  - intros _. unfold allocated. rewrite Hbb, fupd_eq, has_mask by done. change (bitmap 0) with zeros. destruct (Z.ltb_spec c 0); [lia|].
    pose proof (bit_byte_range c). unfold aget, zeros. rewrite lookup_total_replicate_2 by lia. apply Z.bits_0.
  - intros j Hj IH Hm. unfold Z.succ in *. rewrite bitmap_S by lia.
    pose proof (set_bit_allocated sb (fupd (sb_bmapstart sb) (bitmap j) ld) j c) as H. rewrite Hbb, fupd_eq in H by lia.
    specialize (H (proj1 (bitmap_ok j ltac:(lia)))). rewrite IH in H by lia.
    assert (forall d, allocated sb (fupd (sb_bmapstart sb) d (fupd (sb_bmapstart sb) (bitmap j) ld)) c = allocated sb (fupd (sb_bmapstart sb) d ld) c) as E.
    { intros d. unfold allocated. by rewrite Hbb, !fupd_eq. }
    rewrite E in H. rewrite H. destruct (Z.ltb_spec c j), (Z.ltb_spec c (j + 1)); case_bool_decide; try done; lia.
Qed.

(** ** Files *)
Lemma mk_geom : geom mk_sb.
Proof. split; vm_compute; try done; split; done. Qed.

Lemma mcont_file_wf hi x ld c : mcont nmeta hi x ld c -> hi <= FSSIZE -> i_dev x = ROOTDEV -> i_size x = Z.of_nat (length c) ->
  (forall y, 0 <= y < hi -> allocated mk_sb ld y = true) -> file_wf mk_sb x ld.
Proof.
  intros [T M N B] Hh Hd Hs Ha. pose proof T as [H1 H2 H3 H4 H5 H6 H7 H8 H9].
  assert (forall bn, in_file bn -> addr_of x ld bn <> 0 -> 0 <= bn < nbk (Z.of_nat (length c))) as Hlt.
  { intros bn Hb Hn. unfold in_file in Hb. destruct (Z_lt_le_dec bn (nbk (Z.of_nat (length c)))); [lia|]. destruct Hn. apply H5. lia. }
  split; try done.
  - intros y Ho. pose proof (mtree_owned _ _ _ _ _ _ T Ho). split; [|apply Ha; mklia]. unfold is_data. change (data_start mk_sb) with 47.
    change (sb_size mk_sb) with 2000. mklia.
  - intros bn bn' Hb Hb' Hn E. apply H8; [by apply Hlt|apply Hlt; [done|by rewrite <- E]|done].
  - intros bn Hb Hi. destruct (decide (addr_of x ld bn = 0)) as [->|Hn]; [done|]. apply H9; [done|by apply Hlt].
  - rewrite Hs. lia.
  - intros bn Hb Hlt'. pose proof (nbk_range (Z.of_nat (length c)) ltac:(lia)). pose proof (H4 bn). mklia.
Qed.

(** ** The root directory *)

(** The names in the root directory, with their inode numbers. *)
Definition root_names (names : list (list Z)) : list (list Z * Z) :=
  ([46], 1) :: ([46; 46], 1) :: imap (fun i n => (n, 2 + Z.of_nat i)) names.

(** The first entry with the name. *)
Definition root_lookup (names : list (list Z)) (s : list Z) : option Z :=
  (fun ie => ie.2.2) <$> list_find (fun e => dname e.1 = dname s) (root_names names).

Lemma root_entries_names names : root_entries names = (fun e => mkdirent e.2 e.1) <$> root_names names.
Proof. unfold root_entries, root_names. cbn. by rewrite fmap_imap. Qed.

Lemma concat_slice (es : list (list Z)) n j : Forall (fun e => length e = n) es -> (j < length es)%nat -> take n (drop (n * j) (concat es)) = es !!! j.
Proof.
  intros H. revert j. induction H as [|e es He _ IH]; intros j Hj; cbn in Hj; [lia|]. cbn [concat]. destruct j as [|j].
  - rewrite Nat.mul_0_r, drop_0. by apply take_app_length'.
  - rewrite drop_app_ge, He by lia. replace (n * S j - n)%nat with (n * j)%nat by lia. apply IH. lia.
Qed.

(** The entries of a directory that holds [es]. *)
Lemma entries_eq x ld es : Forall (fun e => length e = 16%nat) es -> i_size x = DIRENT * Z.of_nat (length es) ->
  (forall i, 0 <= i < i_size x -> file_byte x ld i = nth (Z.to_nat i) (concat es) 0) -> entries x ld = es.
Proof.
  intros Hes Hs Hb. unfold entries. rewrite Hs in *. unfold DIRENT in *. rewrite Z.mul_comm, Z.div_mul, Nat2Z.id by lia.
  assert (length (concat es) = 16 * length es)%nat as Hl.
  { clear -Hes. induction Hes as [|e es He _ IH]; [done|]. cbn. rewrite length_app, IH, He. lia. }
  apply list_eq. intros j. destruct (decide (j < length es)%nat) as [Hj|Hj].
  - rewrite list_lookup_fmap, lookup_seq_lt by done. cbn [fmap option_fmap option_map Nat.add]. rewrite (list_lookup_lookup_total_lt es j) by done. f_equal.
    rewrite <- (concat_slice es 16 j Hes Hj). unfold de_at, DIRENT. apply list_eq. intros i. destruct (decide (i < 16)%nat) as [Hi|Hi].
    + rewrite file_slice_lookup by (change (Z.to_nat 16) with 16%nat; done). rewrite lookup_take_lt, lookup_drop by done.
      rewrite Hb by lia. assert (Z.to_nat (16 * Z.of_nat j + Z.of_nat i) = 16 * j + i)%nat as -> by lia.
      rewrite (list_lookup_lookup_total_lt (concat es)) by lia. f_equal. symmetry. apply lookup_total_nth. lia.
    + rewrite !lookup_ge_None_2; [done|rewrite length_take; lia|rewrite file_slice_length; change (Z.to_nat 16) with 16%nat; lia].
  - rewrite !lookup_ge_None_2; [done|lia|rewrite length_map, length_seq; lia].
Qed.

Lemma find_entries s l : Forall (fun e => 0 < e.2 < 65536) l ->
  (fun ie => de_inum ie.2) <$> list_find (matches s) ((fun e => mkdirent e.2 e.1) <$> l) =
  (fun ie => ie.2.2) <$> list_find (fun e => dname e.1 = dname s) l.
Proof.
  induction 1 as [|e l He _ IH]; [done|]. cbn [fmap list_fmap list_find].
  assert (matches s (mkdirent e.2 e.1) <-> dname e.1 = dname s) as Hm by (unfold matches; rewrite mkdirent_name, mkdirent_inum by lia; naive_solver lia).
  destruct (decide (matches s (mkdirent e.2 e.1))) as [H1|H1], (decide (dname e.1 = dname s)) as [H2|H2]; try tauto.
  - cbn. f_equal. apply mkdirent_inum. lia.
  - change (list_fmap _ _ _ l) with ((fun e : list Z * Z => mkdirent e.2 e.1) <$> l). revert IH.
    destruct (list_find (matches s) _) as [[]|], (list_find _ l) as [[]|]; done.
Qed.

Lemma root_dir_map x ld names k : entries x ld = root_entries names ++ replicate k (replicate 16 0) -> Z.of_nat (length names) + 2 <= NINODES ->
  forall s, dir_map x ld s = root_lookup names s.
Proof.
  intros E Hn s. unfold dir_map. rewrite E. unfold root_lookup.
  assert (list_find (matches s) (root_entries names ++ replicate k (replicate 16 0)) = list_find (matches s) (root_entries names)) as ->.
  { destruct (list_find (matches s) (root_entries names)) as [[i e]|] eqn:Ef; [by apply list_find_app_l|].
    rewrite list_find_app_r by done. assert (list_find (matches s) (replicate k (replicate 16 0)) = None) as ->; [|done].
    apply list_find_None. apply Forall_replicate. intros [H _]. by apply H. }
  rewrite root_entries_names. apply find_entries. unfold root_names. change NINODES with 200 in Hn. repeat constructor; cbn; try lia.
  apply Forall_forall. intros e He. apply elem_of_lookup_imap_1 in He as (i & n & -> & Hi). apply lookup_lt_Some in Hi. cbn. lia.
Qed.

(** ** The image *)

(** [x] is a file with the contents [c]. *)
Record file_holds (x : inode) (ld : Z -> list Z) (t : Z) (c : list Z) : Prop := {
  fh_wf : file_wf mk_sb x ld;
  fh_ok : dinode_ok x;
  fh_type : i_type x = t;
  fh_nlink : i_nlink x = 1;
  fh_size : i_size x = Z.of_nat (length c);
  fh_byte j : 0 <= j < Z.of_nat (length c) -> file_byte x ld j = nth (Z.to_nat j) c 0
}.

Record fs_image (ld : Z -> list Z) (l : list source) : Prop := {
  gi_sb : get_superblock (ld 1) = mk_sb;
  gi_log y : 2 <= y < 2 + nlog -> ld y = zeros;
  gi_free y : 0 <= y < FSSIZE -> allocated mk_sb ld y = (y <? nmeta + total (image_files l));
  gi_file i f : l !! i = Some f -> file_holds (dino ld (2 + Z.of_nat i)) ld T_FILE (fdata f);
  gi_root : file_wf mk_sb (dino ld ROOTINO) ld /\ dinode_ok (dino ld ROOTINO) /\ is_dir (dino ld ROOTINO);
  gi_names s : dir_map (dino ld ROOTINO) ld s = root_lookup (map fname l) s;
  gi_disj i j y : 1 <= i < 2 + Z.of_nat (length l) -> 1 <= j < 2 + Z.of_nat (length l) -> i <> j ->
    owned (dino ld i) ld y -> ~ owned (dino ld j) ld y
}.

(** The invariant with the bitmap written. *)
Section Final.
Context (s : image) (fs : files) (V : inv s fs).
Local Abbreviation ld := (fupd (sb_bmapstart mk_sb) (bitmap (im_freeblock s)) (im_data s)).

Lemma final_used : 0 <= im_freeblock s <= BPB.
Proof. pose proof (io_free _ (iv_img _ _ V)). change BPB with 8192. mklia. Qed.

Lemma final_allocated y : 0 <= y < FSSIZE -> allocated mk_sb ld y = (y <? nmeta + total fs).
Proof. intros Hy. rewrite bitmap_allocated; [by rewrite (iv_fb _ _ V)|apply final_used|change BPB with 8192; mklia]. Qed.

Lemma final_dino i : (i < length fs)%nat -> dino ld (inum_of i) = dino (im_data s) (inum_of i).
Proof.
  intros Hi. pose proof (IBLOCK_lt _ (inv_bounds _ _ _ V Hi)). unfold dino. rewrite fupd_ne; [done|lia].
Qed.

Lemma final_data i y : (i < length fs)%nat -> owns s i y -> ld y = im_data s y.
Proof. intros Hi Ho. pose proof (owns_range _ _ _ _ V Hi Ho). apply fupd_ne. change (sb_bmapstart mk_sb) with 46. mklia. Qed.

Lemma final_owned i y : (i < length fs)%nat -> owned (dino ld (inum_of i)) ld y <-> owns s i y.
Proof. intros Hi. rewrite final_dino by done. apply owned_ext. intros Hn. apply (final_data i); [done|]. split; [done|by left]. Qed.

Lemma final_holds i t c : fs !! i = Some (t, c) -> file_holds (dino ld (inum_of i)) ld t c.
Proof.
  intros Hf. pose proof (lookup_lt_Some _ _ _ Hf) as Hi. destruct (iv_files _ _ V _ _ _ Hf) as [C S T N O]. rewrite final_dino by done.
  pose proof (io_free _ (iv_img _ _ V)) as Hfr. assert (mcont nmeta (im_freeblock s) (dino (im_data s) (inum_of i)) ld c) as C'.
  { eapply mcont_ext; [exact C|lia|]. intros y. by apply (final_data i). }
  split; try done.
  - apply (mcont_file_wf (im_freeblock s) _ _ c); [done|lia|done|done|]. intros y Hy. rewrite final_allocated, <- (iv_fb _ _ V) by lia. apply Z.ltb_lt. lia.
  - intros j Hj. apply (mc_bytes _ _ _ _ _ C'). pose proof (nbk_range (Z.of_nat (length c)) ltac:(lia)). lia.
Qed.
End Final.

(** The names of the padded root directory. *)
Lemma padded_names x ld names k : file_holds x ld T_DIR (root_bytes names ++ replicate (16 * k) 0) -> Z.of_nat (length names) + 2 <= NINODES ->
  is_dir x /\ forall s, dir_map x ld s = root_lookup names s.
Proof.
  intros [W O T N S B] Hn. assert (length (root_bytes names ++ replicate (16 * k) 0) = (16 * (2 + length names + k))%nat) as El.
  { rewrite length_app, length_replicate, root_bytes_length. lia. }
  assert (concat (root_entries names ++ replicate k (replicate 16 0)) = root_bytes names ++ replicate (16 * k) 0) as Ec.
  { rewrite concat_app. f_equal. clear. induction k as [|k IH]; [done|].
    change (concat (replicate (S k) (replicate 16 0))) with (replicate 16 0 ++ concat (replicate k (replicate 16 0))). rewrite IH, <- replicate_add. f_equal. lia. }
  split.
  - split; [done|]. rewrite S, El. change DIRENT with 16. replace (Z.of_nat (16 * (2 + length names + k))) with (Z.of_nat (2 + length names + k) * 16) by lia. by apply Z.mod_mul.
  - apply (root_dir_map x ld names k); [|done]. apply entries_eq.
    + apply Forall_app. split; [apply root_entries_16|by apply Forall_replicate].
    + rewrite S, El, length_app, root_entries_length, length_replicate. change DIRENT with 16. lia.
    + intros i Hi. rewrite Ec. apply B. by rewrite <- S.
Qed.

(** The bytes from the end of the directory to that of its block. *)
Lemma root_pad n : (2 + n) mod 64 <> 0 -> 0 <= n < 200 -> exists k : nat, let size := 16 * (2 + n) in
  (size / BSIZE + 1) * BSIZE = size + Z.of_nat (16 * k) /\ nbk (size + Z.of_nat (16 * k)) = nbk size /\ size + Z.of_nat (16 * k) <= 4096.
Proof.
  intros Hm Hn. exists (Z.to_nat (64 - (2 + n) mod 64)). cbv zeta. unfold nbk. change BSIZE with 1024.
  pose proof (Z.mod_pos_bound (2 + n) 64 ltac:(lia)). pose proof (Z.div_mod (2 + n) 64 ltac:(lia)). set (q := (2 + n) / 64) in *. set (r := (2 + n) mod 64) in *.
  assert (16 * (2 + n) / 1024 = q) as E1 by (symmetry; apply (Z.div_unique_pos _ _ _ (16 * r)); lia).
  assert (Z.of_nat (16 * Z.to_nat (64 - r)) = 16 * (64 - r)) as E2 by lia. rewrite E1, E2. split; [lia|]. split; [|lia].
  transitivity (q + 1); [symmetry; apply (Z.div_unique_pos _ _ _ 1023)|apply (Z.div_unique_pos _ _ _ (16 * r - 1))]; lia.
Qed.

Lemma sb_roundtrip : get_superblock (splice 0 (sb_bytes mk_sb) zeroes) = mk_sb.
Proof. vm_compute. reflexivity. Qed.

Lemma finish_wp s l Q : inv s (image_files l) -> Z.of_nat (length l) + 2 <= NINODES -> (2 + Z.of_nat (length l)) mod 64 <> 0 ->
  (forall s', im_len s' = FSSIZE -> fs_image (im_data s') l -> Q tt s') -> wp finish Q s.
Proof.
  intros V Hn Hm HQ. set (r := root_bytes (map fname l)). assert (image_files l !! 0%nat = Some (T_DIR, r)) as Hr by done.
  destruct (root_pad (Z.of_nat (length l)) Hm ltac:(change NINODES with 200 in Hn; lia)) as (k & E1 & E2 & E3). cbv zeta in E1, E2, E3.
  assert (Z.of_nat (length r) = 16 * (2 + Z.of_nat (length l))) as El by (unfold r; rewrite root_bytes_length, length_map; lia).
  assert (Z.of_nat (length (r ++ replicate (16 * k) 0)) = 16 * (2 + Z.of_nat (length l)) + Z.of_nat (16 * k)) as Ep
    by (rewrite length_app, length_replicate; lia).
  unfold finish. change ROOTINO with (inum_of 0). wp_step. apply rinode_wp; [apply V|done|]. wp_step.
  rewrite (gd_size _ _ _ _ (iv_files _ _ V _ _ _ Hr)), El, E1, u32_id, <- Ep by lia.
  apply (resize_wp s (image_files l) 0 T_DIR r (16 * k)); [done|done|by rewrite Ep, El|rewrite Ep; mklia|]. intros s1 V1. wp_step. wp_step.
  set (fs := <[0%nat := (T_DIR, r ++ replicate (16 * k) 0)]> (image_files l)) in *. pose proof (final_used _ _ V1) as Hu. pose proof (io_free _ (iv_img _ _ V1)) as Hfr.
  assert (total fs = total (image_files l)) as Et by (unfold fs; rewrite (total_insert _ 0 T_DIR r) by done; unfold cost; rewrite Ep, El, E2; lia).
  assert (length fs = S (length l)) as Efl by (unfold fs; by rewrite length_insert, image_files_length).
  unfold balloc. wp_step. apply check_wp; [apply Z.ltb_lt; change BPB with 8192; mklia|]. apply wsect_ok; [apply V1|done|]. apply HQ.
  { cbn [im_len set_sect]. rewrite (io_len _ (iv_img _ _ V1)). done. }
  cbn [im_data set_sect]. set (ld := fupd _ _ _).
  destruct (padded_names (dino ld ROOTINO) ld (map fname l) k) as [Hd Hnames]; [by apply (final_holds s1 fs V1 0)|by rewrite length_map|].
  destruct (final_holds s1 fs V1 0 T_DIR _ eq_refl) as [W O _ _ _ _]. split; try done.
  - unfold ld. rewrite fupd_ne, (iv_sb _ _ V1) by done. apply sb_roundtrip.
  - intros y Hy. unfold ld. rewrite fupd_ne by (change nlog with 31 in Hy; change (sb_bmapstart mk_sb) with 46; lia). by apply (iv_log _ _ V1).
  - intros y Hy. rewrite <- Et. by apply (final_allocated s1 fs V1).
  - intros i f Hf. replace (2 + Z.of_nat i) with (inum_of (S i)) by (unfold inum_of; lia). apply (final_holds s1 fs V1). unfold fs.
    rewrite list_lookup_insert_ne by done. unfold image_files.
    change (((fun f => (T_FILE, fdata f)) <$> l) !! i = Some (T_FILE, fdata f)). by rewrite list_lookup_fmap, Hf.
  - intros i j y Hi Hj Hne. replace i with (inum_of (Z.to_nat (i - 1))) by (unfold inum_of; lia). replace j with (inum_of (Z.to_nat (j - 1))) by (unfold inum_of; lia).
    unfold ld. rewrite !(final_owned s1 fs V1) by lia. apply (iv_disj _ _ V1); lia.
Qed.

(** C36. The image that mkfs writes is a file system as the kernel expects it.
    If every file given to it can be read, has a good name and at most MAXFILE
    blocks, and all of them fit, and if the 2 + n entries of the root directory
    for n files do not fill its last block exactly (64 entries are a block;
    that case is [mkfs_full_root]), mkfs succeeds, and on the image: the super
    block is that of the layout and the log is empty; the bitmap marks exactly
    the blocks in use; the inodes from 2 on are well-formed files that hold
    the bytes of the files given; inode 1 is a directory whose map takes the
    name of each file to its inode; and no block belongs to two files. *)
Theorem mkfs_image l : Forall source_ok l -> Z.of_nat (length l) + 2 <= NINODES -> (2 + Z.of_nat (length l)) mod 64 <> 0 ->
  nmeta + total (image_files l) <= FSSIZE ->
  exists s, mkfs l image0 = Ret tt s /\ im_len s = FSSIZE /\ geom mk_sb /\ fs_image (im_data s) l.
Proof.
  intros Hok Hn Hm Hroom. assert (wp (mkfs l) (fun _ s => im_len s = FSSIZE /\ fs_image (im_data s) l) image0) as Hw.
  { apply mkfs_files_wp; [done|done|done|]. intros s V. apply (finish_wp s l); [done|done|done|]. done. }
  destruct (proj1 (wp_inv _ _ _) Hw) as ([] & s & E & H1 & H2). exists s. split; [exact E|]. split; [exact H1|]. split; [exact mk_geom|exact H2].
Qed.

(** Two files, [user/_sh] in two reads and [README] in one. *)
Definition demo_sources : list source :=
  [(cstr "user/_sh", Some [[127; 69; 76; 70]; [2; 1]]); (cstr "README", Some [[120; 118; 54]])].

Lemma mkfs_image_witness : exists s, mkfs demo_sources image0 = Ret tt s /\
  dir_map (dino (im_data s) ROOTINO) (im_data s) (cstr "sh") = Some 2 /\ file_holds (dino (im_data s) 3) (im_data s) T_FILE [120; 118; 54].
Proof.
  destruct (mkfs_image demo_sources) as (s & E & _ & _ & [_ _ _ Hf _ Hnames _]).
  - repeat constructor; cbn; try lia; try (eexists; split; [reflexivity|]; repeat constructor; cbn; try done; lia);
      try (intros H; repeat (apply elem_of_cons in H as [H|H]; [done|]); by apply not_elem_of_nil in H); try done.
  - vm_compute. done.
  - vm_compute. done.
  - vm_compute. done.
  - exists s. split; [exact E|]. split; [rewrite Hnames; vm_compute; reflexivity|]. apply (Hf 1%nat _ eq_refl).
Defined.

(** ** A root directory that fills its blocks *)
Lemma finish_full_wp s l b Q : inv s (image_files l) -> Z.of_nat (length l) + 2 <= NINODES -> 2 + Z.of_nat (length l) = 64 * b ->
  (forall s', let x := dino (im_data s') ROOTINO in i_size x = (b + 1) * BSIZE -> addr_of x (im_data s') b = 0 -> Q tt s') -> wp finish Q s.
Proof.
  intros V Hn Hb HQ. set (r := root_bytes (map fname l)). assert (image_files l !! 0%nat = Some (T_DIR, r)) as Hr by done.
  assert (Z.of_nat (length r) = b * BSIZE) as El by (unfold r; rewrite root_bytes_length, length_map; change BSIZE with 1024; lia).
  pose proof (iv_files _ _ V _ _ _ Hr) as [C S T N O]. pose proof (iv_img _ _ V) as I. pose proof (io_free _ I) as Hfr. change NINODES with 200 in Hn.
  assert (0 < b < 4) as Hbr by lia. assert (nbk (Z.of_nat (length r)) = b) as En by (rewrite El; pose proof (nbk_range (b * BSIZE) ltac:(mklia)); mklia).
  unfold finish. change ROOTINO with (inum_of 0) in *. wp_step. apply rinode_wp; [done|done|]. set (x := dino (im_data s) (inum_of 0)) in *.
  wp_step. rewrite S, El, Z.div_mul, u32_id by (done || mklia). set (x' := x <| i_size := (b + 1) * BSIZE |>).
  assert (bare (inum_of 0) x') as B by done. assert (dinode_ok x') as K.
  { destruct O as [K1 K2 K3 K4 K5 K6 K7]. split; try done. unfold word_ok. cbn. mklia. }
  apply winode_wp; [done|done|done|done|]. intros s1 I1 E1 F1 Fb1. wp_step. wp_step. unfold balloc. wp_step.
  apply check_wp; [apply Z.ltb_lt; change BPB with 8192; mklia|]. apply wsect_ok; [done|done|]. cbv zeta in HQ.
  assert (block_ok (im_data s (IBLOCK (inum_of 0) mk_sb))) as Hbo by (apply (io_blocks _ I); done).
  assert (dino (im_data (set_sect (sb_bmapstart mk_sb) (bitmap (im_freeblock s1)) s1)) (inum_of 0) = x') as Ed.
  { transitivity (dino (im_data s1) (inum_of 0)); [|rewrite E1; by apply dino_store]. unfold dino. cbn [im_data set_sect]. by rewrite fupd_ne by done. }
  apply HQ; rewrite Ed; [done|]. unfold addr_of. change (i_addrs x') with (i_addrs x). change (ind x') with (ind x).
  pose proof (mt_out _ _ _ _ _ (mc_tree _ _ _ _ _ C) b ltac:(rewrite En; mklia)) as Ho. unfold addr_of in Ho. destruct (Z.ltb_spec b NDIRECT); [done|mklia].
Qed.

(** C37. When the entries of the root directory fill its last block exactly (as
    with 62 files), mkfs still rounds the size of the directory up to the next
    block: the image says that the directory has a block which it has not, and
    is not well-formed. *)
Theorem mkfs_full_root l b : Forall source_ok l -> Z.of_nat (length l) + 2 <= NINODES -> 2 + Z.of_nat (length l) = 64 * b ->
  nmeta + total (image_files l) <= FSSIZE ->
  exists s, mkfs l image0 = Ret tt s /\ let x := dino (im_data s) ROOTINO in
    b * BSIZE < i_size x /\ addr_of x (im_data s) b = 0 /\ ~ file_wf mk_sb x (im_data s).
Proof.
  intros Hok Hn Hb Hroom.
  assert (wp (mkfs l) (fun _ s => let x := dino (im_data s) ROOTINO in i_size x = (b + 1) * BSIZE /\ addr_of x (im_data s) b = 0) image0) as Hw.
  { apply mkfs_files_wp; [done|done|done|]. intros s V. apply (finish_full_wp s l b); [done|done|done|]. done. }
  destruct (proj1 (wp_inv _ _ _) Hw) as ([] & s & E & H1 & H2). exists s. split; [exact E|]. cbv zeta in *. rewrite H1.
  assert (b * BSIZE < (b + 1) * BSIZE) as Hlt by mklia. split; [exact Hlt|]. split; [exact H2|].
  intros W. apply (ff_full _ _ _ W b); [lia|by rewrite H1|exact H2].
Qed.

Lemma mkfs_full_root_witness : let l := replicate 62 (cstr "a", Some [[1]]) in
  exists s, mkfs l image0 = Ret tt s /\ ~ file_wf mk_sb (dino (im_data s) ROOTINO) (im_data s).
Proof.
  intros l. destruct (mkfs_full_root l 1) as (s & E & _ & _ & H).
  - apply Forall_replicate. repeat constructor; cbn; try lia; try done.
    + eexists; split; [reflexivity|]; repeat constructor; cbn; try done; lia.
    + intros H. apply elem_of_cons in H as [H|H]; [done|]. by apply not_elem_of_nil in H.
  - vm_compute. done.
  - reflexivity.
  - vm_compute. done.
  - exists s. split; [exact E|exact H].
Defined.
