(* ===== verification/Path.v ===== *)
(** * Path names (skipelem and namex of kernel/fs.c)

    [skipelem] takes the elements off a path one at a time; a reference
    function splits the path at once. *)

From Stdlib Require Import ZArith Lia.
From stdpp Require Import base list strings sets.
From S2P Require Import Prelude Params Mem State Evict Kalloc Vm Sched Sleeplock Printf Bio Log Fs.
From S2P Require Import Demo FsDemo FsAlloc FsFile FsBmap FsRw FsInode FsProps FsDirProps.

(** The fields of a path between its slashes; [cur] is the field being read. *)
Fixpoint fields (cur : list Z) (path : list Z) : list (list Z) :=
  match path with
  | [] => [cur]
  | c :: path' => if c =? SLASH then cur :: fields [] path' else fields (cur ++ [c]) path'
  end.

(** The elements of a path: its fields that are not empty. *)
Definition path_elems (path : list Z) : list (list Z) := filter (fun e => e <> []) (fields [] path).

(** A path is a string, so it has no NUL. *)
Definition is_path (path : list Z) : Prop := Forall (fun c => 0 < c < 256) path.

Lemma fields_app cur path s : Forall (fun c => c <> SLASH) s -> fields cur (s ++ path) = fields (cur ++ s) path.
Proof.
  revert cur. induction s as [|c s IH]; intros cur Hs; [by rewrite app_nil_r|]. inversion_clear Hs as [|? ? Hc Hs'].
  cbn [app fields]. rewrite (proj2 (Z.eqb_neq c SLASH)) by done. rewrite IH by done. by rewrite <- app_assoc.
Qed.

Lemma skip_slashes_elems path : path_elems (skip_slashes path) = path_elems path.
Proof.
  induction path as [|c path IH]; [done|]. cbn [skip_slashes]. destruct (Z.eqb_spec c SLASH) as [->|Hc]; [|done].
  rewrite IH. unfold path_elems at 2. cbn [fields]. rewrite Z.eqb_refl, filter_cons_False by (intros H; by apply H). done.
Qed.

Lemma skip_slashes_hd path : skip_slashes path <> [] -> hd 0 (skip_slashes path) <> SLASH.
Proof.
  induction path as [|c path IH]; [done|]. cbn [skip_slashes]. destruct (Z.eqb_spec c SLASH) as [->|Hc]; [done|done].
Qed.

Lemma skip_slashes_length path : (length (skip_slashes path) <= length path)%nat.
Proof. induction path as [|c path IH]; [done|]. cbn [skip_slashes length]. destruct (c =? SLASH); cbn [length]; lia. Qed.

Lemma skip_slashes_path path : is_path path -> is_path (skip_slashes path).
Proof. induction 1 as [|c path Hc Hp IH]; [by constructor|]. cbn [skip_slashes]. destruct (c =? SLASH); [done|by constructor]. Qed.

Lemma take_elem_spec path : is_path path ->
  path = (take_elem path).1 ++ (take_elem path).2 /\ Forall (fun c => c <> SLASH) (take_elem path).1 /\
  ((take_elem path).2 = [] \/ exists r, (take_elem path).2 = SLASH :: r).
Proof.
  induction 1 as [|c path Hc Hp (IH1 & IH2 & IH3)]; [by repeat split; [|left]|]. cbn [take_elem].
  rewrite (proj2 (Z.eqb_neq c 0)), orb_false_r by lia. destruct (Z.eqb_spec c SLASH) as [->|Hs]; cbn [fst snd].
  - split; [done|]. split; [by constructor|]. right. by exists path.
  - split; [cbn [app]; by rewrite <- IH1|]. split; [by constructor|done].
Qed.

(** The bytes an element leaves in the name buffer. *)
Lemma name_buffer s name : length name = Z.to_nat DIRSIZ -> Forall (fun c => 0 < c) s ->
  dname (if DIRSIZ <=? Z.of_nat (length s) then splice 0 (take (Z.to_nat DIRSIZ) s) name else splice 0 (s ++ [0]) name) = take (Z.to_nat DIRSIZ) s.
Proof.
  intros Hl Hs. assert (forall n t u, Forall (fun c => 0 < c) t -> (length t <= n)%nat -> cname n (t ++ 0 :: u) = t) as Hc.
  { induction n as [|n IH]; intros t u Ht Hn; [destruct t; [done|cbn [length] in Hn; lia]|]. destruct Ht as [|c t Hc Ht]; [done|]. cbn [app cname length] in *.
    rewrite (proj2 (Z.eqb_neq c 0)) by lia. f_equal. apply IH; [done|lia]. }
  assert (forall n t, Forall (fun c => 0 < c) t -> length t = n -> cname n t = t) as Hf.
  { induction n as [|n IH]; intros t Ht Hn; [by destruct t|]. destruct Ht as [|c t Hc' Ht]; [done|]. cbn [cname].
    rewrite (proj2 (Z.eqb_neq c 0)) by lia. f_equal. apply IH; [done|]. cbn in Hn. lia. }
  unfold dname. change DIRSIZ with 14 in *. change (Z.to_nat 14) with 14%nat in *. destruct (Z.leb_spec 14 (Z.of_nat (length s))).
  - unfold splice. rewrite length_take, Nat.min_l, drop_ge, app_nil_r by lia. cbn [take app]. apply Hf; [by apply Forall_take|rewrite length_take; lia].
  - unfold splice. cbn [take app]. rewrite <- app_assoc. rewrite (take_ge s) by lia. apply Hc; [done|lia].
Qed.

Lemma skipelem_split path name : is_path path -> length name = Z.to_nat DIRSIZ ->
  match skipelem path name, path_elems path with
  | None, [] => True
  | Some (rest, name'), e :: es =>
      dname name' = take (Z.to_nat DIRSIZ) e /\ path_elems rest = es /\ is_path rest /\ (length rest < length path)%nat /\
      length name' = Z.to_nat DIRSIZ
  | _, _ => False
  end.
Proof.
  intros Hp Hn. unfold skipelem. rewrite <- (skip_slashes_elems path). pose proof (skip_slashes_path _ Hp) as Hp'.
  pose proof (skip_slashes_hd path) as Hh. pose proof (skip_slashes_length path) as Hl.
  destruct (skip_slashes path) as [|c q] eqn:Eq; [done|]. cbn [hd]. specialize (Hh ltac:(done)). cbn [hd] in Hh.
  assert (0 < c < 256) as Hc by (by inversion Hp'). rewrite (proj2 (Z.eqb_neq c 0)) by lia.
  destruct (take_elem_spec (c :: q) Hp') as (E & Hns & Hr). destruct (take_elem (c :: q)) as [s r] eqn:Et. cbn [fst snd] in *.
  assert (s <> []) as Hs0.
  { intros ->. cbn [app] in E. destruct Hr as [->|[r' ->]]; [done|]. injection E as -> _. done. }
  assert (Forall (fun c => 0 < c < 256) s /\ is_path r) as [Hsp Hrp] by (rewrite E in Hp'; by apply Forall_app in Hp').
  assert (path_elems (c :: q) = s :: path_elems (skip_slashes r)) as ->.
  { rewrite E, skip_slashes_elems. unfold path_elems. rewrite fields_app by done. cbn [app]. destruct Hr as [->|[r' ->]].
    - cbn [fields]. rewrite filter_cons_True, filter_cons_False by (done || (intros H; by apply H)). done.
    - cbn [fields]. rewrite Z.eqb_refl, filter_cons_True by done. done. }
  assert (length (c :: q) = length s + length r)%nat as El by (by rewrite E, length_app).
  assert (0 < length s)%nat by (destruct s; [done|cbn; lia]). pose proof (skip_slashes_length r).
  split; [apply name_buffer; [done|]; eapply Forall_impl; [exact Hsp|]; cbn; lia|]. split; [done|]. split; [by apply skip_slashes_path|]. split; [lia|].
  destruct (Z.leb_spec DIRSIZ (Z.of_nat (length s))).
  - rewrite length_splice; [done|]. rewrite length_take. lia.
  - rewrite length_splice; [done|]. rewrite length_app. cbn. change DIRSIZ with 14 in *. lia.
Qed.

(** C21. [skipelem] splits a path as the reference does: it returns null
    exactly if the path has no elements, and otherwise the first element, cut
    to DIRSIZ bytes, in [name] and a path with the other elements, which is
    shorter, so that the loop of [namex] ends. *)
Theorem skipelem_spec path name : is_path path -> length name = Z.to_nat DIRSIZ ->
  match skipelem path name, path_elems path with
  | None, [] => True
  | Some (rest, name'), e :: es =>
      dname name' = take (Z.to_nat DIRSIZ) e /\ path_elems rest = es /\ is_path rest /\ (length rest < length path)%nat /\
      length name' = Z.to_nat DIRSIZ
  | _, _ => False
  end.
Proof. apply skipelem_split. Qed.

(** "/usr//bin" is "usr" and "bin". *)
Definition demo_path : list Z := [47; 117; 115; 114; 47; 47; 98; 105; 110].

Lemma skipelem_spec_witness :
  skipelem demo_path (replicate 14 0) = Some ([98; 105; 110], [117; 115; 114] ++ replicate 11 0) /\ path_elems [98; 105; 110] = [[98; 105; 110]].
Proof.
  pose proof (skipelem_spec demo_path (replicate 14 0)) as H.
  split; [reflexivity|]. apply H; [repeat constructor; lia|reflexivity].
Defined.

Section Namex.
Context {L : Layout} {I : Interference} {D : Disk}.

Lemma bind_ext {A B} (m : KM A) (f g : A -> KM B) k : (forall a k', f a k' = g a k') -> bind m f k = bind m g k.
Proof. intros H. unfold bind. by destruct (m k). Qed.

(** The rounds of the loop of [namex] that the model allows are enough: each
    round takes a byte or more off the path. *)
Lemma namex_loop_fuel n m ip path np name k : is_path path -> length name = Z.to_nat DIRSIZ ->
  (length path <= n)%nat -> (length path <= m)%nat -> namex_loop n ip path np name k = namex_loop m ip path np name k.
Proof.
  revert m ip path name k. induction n as [|n IH]; intros m ip path name k Hp Hl Hn Hm.
  { destruct path; [|cbn in Hn; lia]. by destruct m. }
  pose proof (skipelem_split path name Hp Hl) as Hs. destruct m as [|m]; cbn [namex_loop].
  { destruct path; [done|cbn in Hm; lia]. }
  destruct (skipelem path name) as [[rest name']|]; [|done]. destruct (path_elems path) as [|e es]; [done|].
  destruct Hs as (_ & _ & Hr & Hlt & Hl').
  apply bind_ext. intros _ k1. apply bind_ext. intros x k2. destruct (negb _); [done|]. destruct (np && _); [done|].
  apply bind_ext. intros [[next off]|] k3; [|done]. apply bind_ext. intros _ k4. apply IH; [done|done|lia|lia].
Qed.

End Namex.
