(* ===== verification/VirtioProps.v ===== *)
(** * The disk driver implements the disk of the buffer cache

    The device is a parameter: [DeviceOk] is what the virtio specification says
    of a device that is notified of one new chain of descriptors in the
    available ring.  While a thread waits for its request, the device serves it
    and raises its interrupt, unless one is pending that the driver has not
    acknowledged; the driver's interrupt handler runs when it is raised. *)

From Stdlib Require Import ZArith Lia.
From stdpp Require Import base list strings sets.
From S2P Require Import Prelude Params Mem State Evict Kalloc Vm Sched SchedSpec SchedProps Sleeplock Bio BioSpec BioLaws.
From S2P Require Import Sleeplock Virtio FsInv.

(** ** The device *)
Class Device := device : kernel -> kernel.

(** The device is notified of queue 0 and one chain is new in its available
    ring: the head is [i0], and the three descriptors ask for a transfer of
    buffer [b] at [sector]. *)
Record posted (v : vdisk) (i0 i1 i2 : Z) (b : nat) (write : bool) (sector : Z) : Prop := {
  po_notify : v_notify v = Some 0;
  po_new : v_avail_idx v = u16 (v_used_didx v + 1);
  po_head : aget (v_avail v) (v_used_didx v mod NUM) = i0;
  po_desc0 : aget (v_desc v) i0 = mkvdesc (DMA_op i0) 16 VRING_DESC_F_NEXT i1;
  po_desc1 : aget (v_desc v) i1 =
    mkvdesc (DMA_data b) BSIZE (Z.lor (if write then 0 else VRING_DESC_F_WRITE) VRING_DESC_F_NEXT) i2;
  po_desc2 : aget (v_desc v) i2 = mkvdesc (DMA_status i0) 1 VRING_DESC_F_WRITE 0;
  po_op : aget (v_ops v) i0 = (if write then VIRTIO_BLK_T_OUT else VIRTIO_BLK_T_IN, sector)
}.

(** The transfer; a block is two sectors. *)
Definition transfer (write : bool) (b : nat) (bno : Z) (k : kernel) : kernel :=
  if write then
    k <| k_disk ::= fupd bno (b_data (k_bufs k !!! b)) |>
      <| k_dwrites ::= fun t => t ++ [(bno, b_data (k_bufs k !!! b))] |>
  else k <| k_bufs ::= alter (set b_data (fun _ => k_disk k bno)) b |>.

(** The notification is consumed, success is reported in the status byte, the
    head goes to the used ring, and bit 0 of INTERRUPT_STATUS (used buffer
    notification) is set. *)
Definition device_done (i0 : Z) (v : vdisk) : vdisk :=
  v <| v_info_status ::= aset i0 0 |> <| v_used ::= aset (v_used_didx v mod NUM) i0 |>
    <| v_used_didx ::= fun i => u16 (i + 1) |> <| v_notify := None |> <| v_isr ::= fun s => Z.lor s 1 |>.

Class DeviceOk (Dv : Device) : Prop :=
  device_serves k i0 i1 i2 b write bno :
    posted (k_vdisk k) i0 i1 i2 b write (2 * bno) ->
    device k = (transfer write b bno k) <| k_vdisk ::= device_done i0 |>.

(** The device raises its interrupt when INTERRUPT_STATUS becomes nonzero: not
    while an earlier interrupt is not acknowledged. *)
Definition raised (v v' : vdisk) : bool := (v_isr v =? 0) && negb (v_isr v' =? 0).

(** What happens while a thread is switched out: the device works, and if it
    raises its interrupt, a CPU that runs no process handles it. *)
Definition device_and_intr {Dv : Device} : Interference := fun k =>
  if raised (k_vdisk k) (k_vdisk (device k)) then
    match virtio_disk_intr ((device k) <| k_cur := None |> <| k_held := [] |>) with
    | Ret _ k' => k'
    | _ => k
    end
  else device k.

(** ** Changes of the scheduler's data only *)
Record moved (k k' : kernel) : Prop := {
  mv_eq : k' = k <| k_procs := k_procs k' |> <| k_pqueue := k_pqueue k' |>;
  mv_len : length (k_procs k') = length (k_procs k);
  mv_task i : same_task (k_procs k !!! i) (k_procs k' !!! i);
  mv_queues : queues_wf k -> queues_wf k'
}.

#[export] Instance moved_preorder : PreOrder moved.
Proof.
  split.
  - intros k. split; [kext|done|intros i; unfold same_task; by destruct (k_procs k !!! i)|done].
  - intros k1 k2 k3 [E1 L1 T1 Q1] [E2 L2 T2 Q2].
    split; [rewrite E2, E1; kext|congruence| |tauto]. intros i. unfold same_task in *.
    rewrite (T2 i), (T1 i). by destruct (k_procs k1 !!! i).
Qed.

Lemma moved_set_vdisk f k k' : moved k k' -> moved (k <| k_vdisk ::= f |>) (k' <| k_vdisk ::= f |>).
Proof. intros [E L T Q]. split; [rewrite E; kext|exact L|exact T|exact Q]. Qed.
Lemma moved_set_held f k k' : moved k k' -> moved (k <| k_held ::= f |>) (k' <| k_held ::= f |>).
Proof. intros [E L T Q]. split; [rewrite E; kext|exact L|exact T|exact Q]. Qed.
Lemma moved_set_cur f k k' : moved k k' -> moved (k <| k_cur ::= f |>) (k' <| k_cur ::= f |>).
Proof. intros [E L T Q]. split; [rewrite E; kext|exact L|exact T|exact Q]. Qed.
Lemma moved_set_wakeups f k k' : moved k k' -> moved (k <| k_wakeups ::= f |>) (k' <| k_wakeups ::= f |>).
Proof. intros [E L T Q]. split; [rewrite E; kext|exact L|exact T|exact Q]. Qed.

Lemma same_task_refl x : same_task x x.
Proof. by destruct x. Qed.

(** A change of the scheduling fields of one process. *)
Lemma moved_proc f p k : (forall x, same_task x (f x)) -> moved k (k <| k_procs ::= alter f p |>).
Proof.
  intros Hf. split; [kext|kproj; apply length_alter| |done].
  intros i. kproj. rewrite !list_lookup_total_alt. destruct (decide (p = i)) as [->|Hne].
  - rewrite list_lookup_alter_eq. destruct (k_procs k !! i); cbn; [apply Hf|apply same_task_refl].
  - rewrite list_lookup_alter_ne by done. apply same_task_refl.
Qed.

Lemma moved_levels k k' : moved k k' -> levels_ok k -> levels_ok k'.
Proof.
  intros [_ L T _] [H1 H2]. split; [by rewrite L|]. intros i Hi. rewrite (T i).
  specialize (H2 i Hi). by destruct (k_procs k !!! i).
Qed.

Lemma wakeup_moved ch k : queues_wf k -> levels_ok k -> wakeup_unlocked k ->
  wp (wakeup ch) (fun _ k' => moved k k') k.
Proof.
  intros Hq Hl Hu. eapply wp_mono; [by apply wakeup_wp|]. intros _ k' [F Ln P W _].
  split; [rewrite F; kext|done| |done].
  intros i. rewrite P. unfold same_task. destruct (decide _); [destruct (woken k ch i)|]; by destruct (k_procs k !!! i).
Qed.

(** ** Posting a request *)

(** The driver's data once the request of buffer [b] is posted, from [v]. *)
Definition post (write : bool) (b : nat) (sector : Z) (v : vdisk) : vdisk :=
  v <| v_free := [0;0;0;1;1;1;1;1] |>
    <| v_ops ::= aset 0 (if write then VIRTIO_BLK_T_OUT else VIRTIO_BLK_T_IN, sector) |>
    <| v_desc := [mkvdesc (DMA_op 0) 16 VRING_DESC_F_NEXT 1;
                  mkvdesc (DMA_data b) BSIZE (Z.lor (if write then 0 else VRING_DESC_F_WRITE) VRING_DESC_F_NEXT) 2;
                  mkvdesc (DMA_status 0) 1 VRING_DESC_F_WRITE 0; vdesc0; vdesc0; vdesc0; vdesc0; vdesc0] |>
    <| v_info_status ::= aset 0 0xff |>
    <| v_info_b := [Some b; None; None; None; None; None; None; None] |>
    <| v_avail ::= aset (v_avail_idx v mod NUM) 0 |> <| v_avail_idx ::= fun i => u16 (i + 1) |>
    <| v_notify := Some 0 |>.

Lemma post_posted write b bno v : driver_idle v -> posted (post write b (2 * bno) v) 0 1 2 b write (2 * bno).
Proof.
  intros [D F B A U S O U1 U2 R Nt Is]. unfold post. split; cbn; [done|by rewrite U2| |done..|].
  - rewrite U2. assert (0 <= v_avail_idx v mod NUM < NUM) by (apply Z.mod_pos_bound; done).
    rewrite aget_aset, decide_True; [done|done|rewrite A; done|lia].
  - by rewrite aget_aset by (rewrite ?O; done).
Qed.

Lemma alloc3_idle {I : Interference} k : v_free (k_vdisk k) = replicate 8 1 ->
  alloc3_desc k = Ret (Some [0;1;2]) (k <| k_vdisk ::= set v_free (fun _ => [0;0;0;1;1;1;1;1]) |>).
Proof. intros H. destruct k as []. destruct k_vdisk as []. cbn in H. subst. reflexivity. Qed.

(** ** The interrupt *)

(** The device has completed the request with head 0, of buffer [b]. *)
Record completed (v : vdisk) (b : nat) : Prop := {
  cp_idx : 0 <= v_used_idx v < 65536;
  cp_didx : v_used_didx v = u16 (v_used_idx v + 1);
  cp_head : aget (v_used v) (v_used_idx v mod NUM) = 0;
  cp_status : aget (v_info_status v) 0 = 0;
  cp_buf : aget (v_info_b v) 0 = Some b
}.

Definition seen (v : vdisk) : vdisk :=
  v <| v_isr ::= fun s => Z.land s (Z.lnot (Z.land s 0x3)) |> <| v_used_idx ::= fun i => u16 (i + 1) |>.

(** What the handler does to a completed request. *)
Definition intr_effect (b : nat) (k : kernel) : kernel :=
  k <| k_bufs ::= alter (set b_disk (fun _ => 0)) b |> <| k_vdisk ::= seen |>.

Lemma unlocked_free k : k_held k = [L_vdisk] -> wakeup_unlocked k.
Proof. intros H. split; intros ?; rewrite H; [intros _|]; intros [?|?]%elem_of_cons; set_solver. Qed.

Lemma u16_succ_sub u : 0 <= u < 65536 -> Z.to_nat (u16 (u16 (u + 1) - u)) = 1%nat.
Proof. intros H. unfold u16. destruct (decide (u = 65535)) as [->|Hne]; [done|]. rewrite (Z.mod_small (u + 1)) by lia. by replace (u + 1 - u) with 1 by lia. Qed.

Lemma u16_succ_ne u : 0 <= u < 65536 -> (u =? u16 (u + 1)) = false.
Proof. intros H. apply Z.eqb_neq. unfold u16. destruct (decide (u = 65535)) as [->|Hne]; [done|]. rewrite Z.mod_small by lia. lia. Qed.

Lemma intr_wp {I : Interference} k b :
  k_held k = [] -> queues_wf k -> levels_ok k -> completed (k_vdisk k) b ->
  wp virtio_disk_intr (fun _ k' => moved (intr_effect b k) k') k.
Proof.
  intros Hh Hq Hl [R Dx Hd St Bf]. unfold virtio_disk_intr, interrupt_ack, getv, updv. wp_run. kproj. cbn [v_used_didx v_used_idx set set_v_isr].
  rewrite Dx, u16_succ_sub by done. cbn [disk_intr_loop]. unfold getv. wp_steps. kproj. cbn [v_used_didx v_used_idx v_used v_info_status v_info_b set set_v_isr].
  rewrite Dx, u16_succ_ne, Hd, St, Bf by done. cbn [negb Z.eqb deref]. unfold updb, updv. wp_steps.
  eapply wp_mono; [apply wakeup_moved; [done|done|apply unlocked_free; kproj; by rewrite Hh]|].
  cbv beta. intros _ k1 M. wp_steps.
  assert (k_vdisk k1 = (k_vdisk k) <| v_isr ::= fun s => Z.land s (Z.lnot (Z.land (v_isr (k_vdisk k)) 0x3)) |>)
    as Hv by (rewrite (mv_eq _ _ M); by kproj).
  assert (k_held k1 = [L_vdisk]) as Hk1 by (rewrite (mv_eq _ _ M); kproj; by rewrite Hh).
  kproj. rewrite Hv. unfold seen. cbn. rewrite Dx, Z.eqb_refl. wp_run.
  apply (moved_set_vdisk (set v_used_idx (fun i => u16 (i + 1)))) in M. apply (moved_set_held (unlocked L_vdisk)) in M.
  eassert (intr_effect b k = _) as ->; [|exact M]. unfold intr_effect. kext. rewrite Hh. cbn.
  by rewrite unlocked_top by set_solver.
Qed.

(** ** Waiting for the request *)
Section Wait.
Context {Dv : Device} {DvO : DeviceOk Dv}.
#[local] Existing Instance device_and_intr.

(** The request of buffer [b] for block [bno] is posted and under way. *)
Record under_way (p : nat) (write : bool) (b : nat) (bno : Z) (k : kernel) : Prop := {
  uw_cur : k_cur k = Some p;
  uw_held : k_held k = [L_vdisk];
  uw_wakeups : k_wakeups k = None;
  uw_queues : queues_wf k;
  uw_levels : levels_ok k;
  uw_posted : posted (k_vdisk k) 0 1 2 b write (2 * bno);
  uw_idx : v_used_didx (k_vdisk k) = v_used_idx (k_vdisk k);
  uw_range : 0 <= v_used_idx (k_vdisk k) < 65536;
  uw_used : length (v_used (k_vdisk k)) = 8%nat;
  uw_status : length (v_info_status (k_vdisk k)) = 8%nat;
  uw_isr : v_isr (k_vdisk k) = 0;
  uw_buf : aget (v_info_b (k_vdisk k)) 0 = Some b
}.

(** The request after the device and the interrupt handler. *)
Definition served (write : bool) (b : nat) (bno : Z) (k : kernel) : kernel :=
  intr_effect b ((transfer write b bno k) <| k_vdisk ::= device_done 0 |>).

Lemma done_completed p write b bno k : under_way p write b bno k -> completed (device_done 0 (k_vdisk k)) b.
Proof.
  intros [_ _ _ _ _ _ Ix R U S Is Bf]. unfold device_done. split; cbn; [done|by rewrite Ix| | |done].
  - rewrite Ix. assert (0 <= v_used_idx (k_vdisk k) mod NUM < NUM) by (apply Z.mod_pos_bound; done).
    rewrite aget_aset, decide_True; [done|done|rewrite U; done|lia].
  - by rewrite aget_aset by (rewrite ?S; done).
Qed.

(** The interference between the two halves of [swtch]. *)
Lemma interf_served p write b bno k f g :
  under_way p write b bno k -> (forall x, same_task x (f x)) ->
  moved ((served write b bno k) <| k_cur := None |> <| k_held := [] |>)
        (interf ((k <| k_held ::= g |>) <| k_procs ::= alter f p |>)).
Proof.
  intros U Hf. set (k3 := _ <| k_procs ::= _ |>). unfold interf, device_and_intr.
  rewrite (device_serves k3 0 1 2 b write bno) by apply (uw_posted _ _ _ _ _ U).
  replace (raised _ _) with true by (unfold raised, k3; destruct write; cbn; by rewrite (uw_isr _ _ _ _ _ U)).
  match goal with |- context [virtio_disk_intr ?x] => set (k4 := x) end.
  assert (k4 = (((transfer write b bno k) <| k_vdisk ::= device_done 0 |>) <| k_cur := None |> <| k_held := [] |>)
                 <| k_procs ::= alter f p |>) as E4.
  { unfold k4, k3. by destruct write; kext. }
  assert (moved (((transfer write b bno k) <| k_vdisk ::= device_done 0 |>) <| k_cur := None |> <| k_held := [] |>) k4)
    as M by (rewrite E4; by apply moved_proc).
  assert (wp virtio_disk_intr (fun _ k' => moved (intr_effect b k4) k') k4) as W.
  { apply intr_wp; [done| | |].
    - apply M. destruct U as [_ _ _ Q _ _ _ _ _ _ _ _]. by destruct write.
    - eapply moved_levels; [exact M|]. destruct U as [_ _ _ _ V _ _ _ _ _ _ _]. by destruct write.
    - unfold k4, k3. replace (k_vdisk _) with (device_done 0 (k_vdisk k)) by (by destruct write).
      by eapply done_completed. }
  apply wp_inv in W as (u & k' & -> & M'). etransitivity; [|exact M'].
  rewrite E4. eassert (intr_effect b _ = _) as ->; [|apply moved_proc, Hf].
  unfold served, intr_effect. destruct write; kext.
Qed.

Lemma sched_eq p k : k_cur k = Some p -> k_held k = [L_proc p] -> p_state (k_procs k !!! p) <> RUNNING ->
  sched k = swtch p k.
Proof.
  intros C H S. unfold sched, curproc, bind, myproc, gets. rewrite C. cbn. rewrite H.
  do 2 (rewrite bool_decide_eq_true_2 by first [done|set_solver]; cbn). unfold state_eqb.
  rewrite bool_decide_eq_false_2 by done. unfold intr_get, gets. by rewrite H.
Qed.

Lemma asleep_state p ch (l : list proc) :
  p_state (alter (set p_state (fun _ => SLEEPING)) p (alter (set p_chan (fun _ => ch)) p l) !!! p) <> RUNNING.
Proof.
  rewrite list_lookup_total_alt, !list_lookup_alter_eq. by destruct (l !! p).
Qed.

Lemma sleep_served p write b bno k : under_way p write b bno k ->
  wp (sleep (CH_buf b) L_vdisk) (fun _ k' => moved (served write b bno k) k') k.
Proof.
  intros U. pose proof U as [C H W Q V _ _ _ _ _ _ _]. unfold sleep, curproc. wp_steps. rewrite C. wp_steps.
  wp_run. match goal with |- wp sched _ ?x => set (k3 := x) end.
  assert (k_held k3 = [L_proc p]) as H3.
  { unfold k3. kproj. rewrite H. unfold unlocked. rewrite filter_cons_True by done. by rewrite filter_cons_False by naive_solver. }
  set (f x := (x <| p_chan := CH_buf b |>) <| p_state := SLEEPING |>).
  set (g h := unlocked L_vdisk (L_proc p :: h)).
  assert (k3 = (k <| k_held ::= g |>) <| k_procs ::= alter f p |>) as E3.
  { unfold k3, f, g. kext. by rewrite list_alter_alter_eq. }
  pose proof (interf_served p write b bno k f g U ltac:(by intros [])) as M. rewrite <- E3 in M.
  unfold wp at 1. rewrite (sched_eq p k3); [|done|done|unfold k3; kproj; apply asleep_state].
  unfold swtch. replace (k_wakeups k3) with (@None nat) by (unfold k3; kproj; done). cbv zeta.
  wp_run. cbn [fmap option_fmap option_map]. generalize dependent (interf k3). intros k4 M.
  apply (moved_set_cur (fun _ => Some p)) in M. apply (moved_set_held (fun _ => [L_vdisk])) in M.
  apply (moved_set_wakeups (fun _ => None)) in M.
  etransitivity; [|etransitivity; [exact M|]].
  - match goal with |- moved ?x ?y => replace y with x; [reflexivity|] end.
    unfold served, intr_effect. destruct write; kext; done.
  - match goal with |- moved ?x ?y =>
      replace y with (x <| k_procs ::= alter (fun q => ((q <| p_state := RUNNING |>)
         <| p_tsched ::= fun t => i32 (t + 1) |>) <| p_chan := CH_none |>) p |>) end.
    + apply moved_proc. by intros [].
    + kext; [by rewrite list_alter_alter_eq|by rewrite unlocked_top by set_solver].
Qed.

(** ** Freeing the descriptors *)
Definition freed_desc (i : Z) (v : vdisk) : vdisk := (v <| v_desc ::= aupd i (fun _ => vdesc0) |>) <| v_free ::= aset i 1 |>.

Lemma free_desc_wp i k : k_held k = [L_vdisk] -> queues_wf k -> levels_ok k -> i < NUM -> aget (v_free (k_vdisk k)) i = 0 ->
  wp (free_desc i) (fun _ k' => moved (k <| k_vdisk ::= freed_desc i |>) k') k.
Proof.
  intros H Q V Hi Hf. unfold free_desc. rewrite (proj2 (Z.leb_gt _ _) Hi). unfold getv, updd, updv. wp_steps.
  rewrite Hf. cbn [negb Z.eqb]. wp_steps.
  eapply wp_mono; [apply wakeup_moved; [done|done|by apply unlocked_free]|]. cbv beta. intros _ k' M.
  etransitivity; [|exact M]. match goal with |- moved ?x ?y => replace y with x; [reflexivity|] end. kext.
Qed.

(** The three descriptors of a request. *)
Record chained (v : vdisk) : Prop := {
  ch_flags0 : d_flags (aget (v_desc v) 0) = VRING_DESC_F_NEXT;
  ch_next0 : d_next (aget (v_desc v) 0) = 1;
  ch_flags1 : has (d_flags (aget (v_desc v) 1)) VRING_DESC_F_NEXT = true;
  ch_next1 : d_next (aget (v_desc v) 1) = 2;
  ch_flags2 : d_flags (aget (v_desc v) 2) = VRING_DESC_F_WRITE;
  ch_rest : drop 3 (v_desc v) = replicate 5 vdesc0;
  ch_len : length (v_desc v) = 8%nat;
  ch_free : v_free v = [0;0;0;1;1;1;1;1]
}.

Definition all_free (v : vdisk) : vdisk := (v <| v_desc := replicate 8 vdesc0 |>) <| v_free := replicate 8 1 |>.

Lemma freed_all v : chained v -> freed_desc 2 (freed_desc 1 (freed_desc 0 v)) = all_free v.
Proof.
  intros [_ _ _ _ _ R Ln F]. unfold freed_desc, all_free. destruct v as [d]. cbn in *.
  do 3 (destruct d as [|? d]; [done|]). cbn in R. rewrite drop_0 in R. subst. reflexivity.
Qed.

Lemma moved_vdisk k k' : moved k k' -> k_vdisk k' = k_vdisk k.
Proof. intros M. rewrite (mv_eq _ _ M). by kproj. Qed.
Lemma moved_held k k' : moved k k' -> k_held k' = k_held k.
Proof. intros M. rewrite (mv_eq _ _ M). by kproj. Qed.

(** A driver between two of its steps. *)
Record working (k : kernel) : Prop := {
  wk_held' : k_held k = [L_vdisk];
  wk_queues' : queues_wf k;
  wk_levels' : levels_ok k
}.

Lemma working_moved k k' : working k -> moved k k' -> working k'.
Proof. intros [H Q V] M. split; [by rewrite (moved_held _ _ M)|by apply M|by apply (moved_levels _ _ M)]. Qed.

Lemma working_vdisk f k : working k -> working (k <| k_vdisk ::= f |>).
Proof. intros [H Q V]. split; [exact H|exact Q|exact V]. Qed.

Lemma served_working p write b bno k : under_way p write b bno k -> working (served write b bno k).
Proof.
  intros [_ H _ Q V _ _ _ _ _ _ _]. unfold served, intr_effect. destruct write; split;
    [exact H|exact Q|exact V|exact H|exact Q|exact V].
Qed.

(** A step of the walk along the chain. *)
Lemma chain_step n i k Q : working k -> i < NUM -> aget (v_free (k_vdisk k)) i = 0 ->
  (forall k1, working k1 -> moved (k <| k_vdisk ::= freed_desc i |>) k1 ->
     wp (if has (d_flags (aget (v_desc (k_vdisk k)) i)) VRING_DESC_F_NEXT
         then free_chain_loop n (d_next (aget (v_desc (k_vdisk k)) i)) else ret tt) Q k1) ->
  wp (free_chain_loop (S n) i) Q k.
Proof.
  intros [H Qu V] Hi Hf Hn. cbn [free_chain_loop]. unfold getv. wp_steps.
  eapply wp_mono; [by apply free_desc_wp|]. cbv beta. intros _ k1 M. apply Hn; [|done].
  apply (working_moved (k <| k_vdisk ::= freed_desc i |>)); [|done]. by split.
Qed.

Lemma free_chain_wp k : working k -> chained (k_vdisk k) ->
  wp (free_chain 0) (fun _ k' => moved (k <| k_vdisk ::= all_free |>) k') k.
Proof.
  intros W Ch. pose proof Ch as [F0 N0 F1 N1 F2 R Ln F]. unfold free_chain. change (S (Z.to_nat NUM)) with 9%nat.
  apply chain_step; [done|done|by rewrite F|]. intros k1 W1 M1. rewrite F0, N0. cbn [has].
  pose proof (moved_vdisk _ _ M1) as V1. kproj_in V1.
  apply chain_step; [done|done|rewrite V1; cbn; by rewrite F|]. intros k2 W2 M2. rewrite V1. cbn [freed_desc v_desc set set_v_desc set_v_free].
  rewrite aget_aupd, decide_False, F1, N1 by (rewrite ?Ln; done).
  pose proof (moved_vdisk _ _ M2) as V2. kproj_in V2. rewrite V1 in V2.
  apply chain_step; [done|done|rewrite V2; cbn; by rewrite F|]. intros k3 W3 M3. rewrite V2. cbn [freed_desc v_desc set set_v_desc set_v_free].
  rewrite !aget_aupd, !decide_False, F2 by (rewrite ?length_aupd, ?Ln; done). change (has VRING_DESC_F_WRITE VRING_DESC_F_NEXT) with false.
  cbv iota. wp_steps. etransitivity; [|exact M3]. apply (moved_set_vdisk (freed_desc 2)) in M2.
  etransitivity; [|exact M2]. apply (moved_set_vdisk (freed_desc 1)), (moved_set_vdisk (freed_desc 2)) in M1.
  etransitivity; [|exact M1]. match goal with |- moved ?x ?y => replace y with x; [reflexivity|] end.
  kext. by rewrite freed_all.
Qed.

(** ** The whole transfer *)

(** The driver's data after a request that found them in state [v]. *)
Definition finished (write : bool) (b : nat) (sector : Z) (v : vdisk) : vdisk :=
  all_free ((seen (device_done 0 (post write b sector v))) <| v_info_b ::= aset 0 None |>).

Lemma finished_idle write b sector v : driver_idle v -> driver_idle (finished write b sector v).
Proof.
  intros [D F B A U S O U1 U2 R Nt Is]. unfold finished, all_free, seen, device_done, post.
  split; cbn; rewrite ?length_aset, ?U1, ?U2, ?Is; try done. unfold u16. dlia.
Qed.

Lemma post_chained write b sector v f : chained ((seen (device_done 0 (post write b sector v))) <| v_info_b ::= f |>).
Proof. split; try done. by destruct write. Qed.

(** The buffer and the disk after the transfer. *)
Definition transferred (write : bool) (b : nat) (k : kernel) : kernel :=
  let bno := b_blockno (k_bufs k !!! b) in
  (transfer write b bno k) <| k_bufs ::= alter (set b_disk (fun _ => 0)) b |>
    <| k_vdisk ::= finished write b (2 * bno) |>.

(** The state once the request is posted. *)
Definition requested (write : bool) (b : nat) (k : kernel) : kernel :=
  ((k <| k_held := [L_vdisk] |>) <| k_bufs ::= alter (set b_disk (fun _ => 1)) b |>)
    <| k_vdisk ::= post write b (2 * b_blockno (k_bufs k !!! b)) |>.

Lemma requested_under_way p write b k : thread (D := virtio_disk) p k ->
  under_way p write b (b_blockno (k_bufs k !!! b)) (requested write b k).
Proof.
  intros [C H Q V [Di W]]. pose proof Di as [D F B A U S O U1 U2 R Nt Is]. unfold requested.
  split; try done; kproj; try (cbn; rewrite ?length_aset; done).
  - by apply post_posted.
  - cbn. congruence.
  - cbn. by rewrite U1.
Qed.

Lemma served_transferred p write b k : thread (D := virtio_disk) p k ->
  ((served write b (b_blockno (k_bufs k !!! b)) (requested write b k))
     <| k_vdisk ::= fun v => all_free (v <| v_info_b ::= aset 0 None |>) |>) <| k_held := [] |> = transferred write b k.
Proof.
  intros [C H Q V [Di W]]. unfold served, intr_effect, transferred, requested, transfer, finished.
  destruct write; kext; try done; rewrite ?(proj_alter b_data) by done; try done;
    rewrite ?list_alter_alter_eq; (apply list_alter_ext; [|done]); intros x _; by destruct x.
Qed.

Lemma sector_eq bno : blockno_ok bno -> u32 (bno * (BSIZE / 512)) = 2 * bno.
Proof. intros H. change (BSIZE / 512) with 2. unfold u32. unfold blockno_ok in H. rewrite Z.mod_small; lia. Qed.

Lemma sleep_while_once {I : Interference} c ch lk k Q : k_wakeups k = None -> c k = true ->
  wp (sleep ch lk) (fun _ k' => c k' = false /\ Q tt k') k -> wp (sleep_while c ch lk) Q k.
Proof.
  intros W C H. unfold sleep_while. unfold wp. rewrite W. change SPIN with (S 999).
  set (n := 999%nat). cbn [sleep_rounds]. rewrite C. apply wp_inv in H as ([] & k1 & E & C1 & HQ).
  rewrite (bind_Ret _ _ _ _ _ E). destruct n; cbn [sleep_rounds]; by rewrite C1.
Qed.

Lemma disk_rw_wp p write b k :
  thread (D := virtio_disk) p k -> (b < length (k_bufs k))%nat -> blockno_ok (b_blockno (k_bufs k !!! b)) ->
  wp (disk_rw b write) (fun _ k' => moved (transferred write b k) k') k.
Proof.
  intros T Hb Hn. pose proof T as [C H Q V [Di W]]. unfold disk_rw, getb. wp_steps. rewrite (sector_eq _ Hn).
  wp_run. unfold rounds. kproj. rewrite W. change SPIN with (S 999). set (m := 999%nat). cbn [alloc3_wait].
  wp_steps. eapply wp_Ret; [by apply alloc3_idle, Di|]. wp_steps. cbn [aget].
  unfold format_descs, queue_notify, updd, updv, updb. wp_steps.
  match goal with |- wp (sleep_while _ _ _) _ ?x => replace x with (requested write b k) end.
  2: { unfold requested. kext; [|by rewrite H]. unfold post. pose proof Di as [D F B _ _ _ _ _ _ _ _ _].
       clear -D F B. destruct (k_vdisk k) as []. cbn in *. by subst. }
  assert (U : under_way p write b (b_blockno (k_bufs k !!! b)) (requested write b k)) by (by apply requested_under_way).
  apply sleep_while_once; [done| |].
  { unfold requested. kproj. by rewrite hit_total. }
  eapply wp_mono; [by apply (sleep_served p write)|]. cbv beta. intros _ k1 M. split.
  { rewrite (mv_eq _ _ M). kproj. unfold served, intr_effect. kproj.
    by destruct write; cbn [transfer]; unfold requested; kproj; rewrite hit_total by (by rewrite ?length_alter). }
  wp_steps. apply (moved_set_vdisk (set v_info_b (aset 0 None))) in M. change (aget [0; 1; 2] 0) with 0.
  set (k2 := k1 <| k_vdisk ::= _ |>) in *. wp_steps.
  assert (working k2) as W2.
  { eapply working_moved; [|exact M]. apply working_vdisk. by eapply served_working. }
  eapply wp_mono; [apply free_chain_wp; [done|]|].
  { rewrite (moved_vdisk _ _ M). unfold served, intr_effect. kproj.
    replace (k_vdisk (transfer _ _ _ _)) with (post write b (2 * b_blockno (k_bufs k !!! b)) (k_vdisk k)) by (by destruct write).
    apply post_chained. }
  cbv beta. intros _ k3 M3. pose proof (working_moved _ _ (working_vdisk all_free _ W2) M3) as [H3 _ _].
  apply wp_release; [rewrite H3; set_solver|].
  apply (moved_set_vdisk all_free) in M. pose proof (transitivity M M3) as M4.
  apply (moved_set_held (unlocked L_vdisk)) in M4. etransitivity; [|exact M4].
  match goal with |- moved ?x ?y => replace y with x; [reflexivity|] end.
  rewrite <- (served_transferred p) by done. kext.
  rewrite (wk_held' _ (served_working _ _ _ _ _ U)). by rewrite unlocked_top by set_solver.
Qed.

Lemma moved_resched k k' v : moved (k <| k_vdisk := v |>) k' ->
  (disk_ready (Disk := virtio_disk) (k_vdisk k) (k_wakeups k) -> driver_idle v) ->
  resched (D := virtio_disk) k k'.
Proof.
  intros M Hv. pose proof M as [E Ln T Q]. split; [rewrite E; kext|exact Ln|exact T|exact Q|].
  intros R. pose proof (moved_vdisk _ _ M) as Hv'. kproj_in Hv'. rewrite Hv'. split; [by apply Hv|].
  rewrite E. kproj. apply R.
Qed.

#[export] Instance virtio_disk_ok : DiskOk virtio_disk.
Proof.
  split; intros p k b T Hb Ln Hn; (eapply wp_mono; [apply (disk_rw_wp p); [exact T|lia|exact Hn]|]);
    cbv beta; intros _ k' M.
  - apply moved_resched with (v := finished false b (2 * b_blockno (k_bufs k !!! b)) (k_vdisk k));
      [|intros _; apply finished_idle, T].
    match type of M with moved ?x _ => match goal with |- moved ?y _ => replace y with x; [exact M|] end end.
    unfold transferred, transfer. kext. rewrite list_alter_alter_eq. apply list_alter_ext; [|done].
    intros x Hx. unfold filled. rewrite (list_lookup_total_correct _ _ _ Hx). by destruct x.
  - apply moved_resched with (v := finished true b (2 * b_blockno (k_bufs k !!! b)) (k_vdisk k));
      [|intros _; apply finished_idle, T].
    match type of M with moved ?x _ => match goal with |- moved ?y _ => replace y with x; [exact M|] end end.
    unfold transferred, transfer. kext.
Qed.
End Wait.

(** ** The driver's theorem, and a device it applies to *)

(** C14. The virtio driver implements the disk interface on which the buffer
    cache and the log are verified.  With a device that serves the chain in the
    available ring once it is notified and that interrupts again only after its
    last interrupt was acknowledged, and with the driver's own interrupt handler
    running while the thread sleeps: a read fills the buffer with the block, a
    write puts the buffer's data in the block, each returns without a panic
    and without waiting for ever, nothing else changes but scheduling data,
    and every descriptor is free again and the interrupt acknowledged. *)
Theorem driver_implements_disk (Dv : Device) (DvO : DeviceOk Dv) : DiskOk (@virtio_disk device_and_intr).
Proof. exact virtio_disk_ok. Qed.

(** A device that, when it is notified, follows the chain whose head is next in
    the available ring. *)
Definition chain_device : Device := fun k =>
  let v := k_vdisk k in
  let i0 := aget (v_avail v) (v_used_didx v mod NUM) in
  let d0 := aget (v_desc v) i0 in
  let d1 := aget (v_desc v) (d_next d0) in
  let d2 := aget (v_desc v) (d_next d1) in
  match v_notify v, d_addr d0, d_addr d1, d_addr d2 with
  | Some _, DMA_op j, DMA_data b, DMA_status s =>
      (transfer ((aget (v_ops v) j).1 =? VIRTIO_BLK_T_OUT) b ((aget (v_ops v) j).2 / 2) k)
        <| k_vdisk ::= fun v => ((v <| v_info_status ::= aset s 0 |>)
                                  <| v_used ::= aset (v_used_didx v mod NUM) i0 |>)
                                  <| v_used_didx ::= fun i => u16 (i + 1) |>
                                  <| v_notify := None |> <| v_isr ::= fun s => Z.lor s 1 |> |>
  | _, _, _, _ => k
  end.

Lemma chain_device_ok : DeviceOk chain_device.
Proof.
  intros k i0 i1 i2 b write bno [Nt N Hd D0 D1 D2 Op]. unfold device, chain_device.
  rewrite Nt, Hd, D0. cbn [d_addr d_next]. rewrite D1. cbn [d_addr d_next]. rewrite D2, Op. cbn [d_addr fst snd].
  replace (2 * bno / 2) with bno by (rewrite Z.mul_comm, Z.div_mul; lia). by destruct write.
Qed.

Lemma driver_implements_disk_witness : DiskOk (@virtio_disk (@device_and_intr chain_device)).
Proof. apply driver_implements_disk. exact chain_device_ok. Defined.
