(* ===== verification/TrapProps.v ===== *)
(** * No lock is held when the kernel returns to user space

    First, that every operation gives back the spin locks it takes; then what
    this means for traps from user space: [usertrap] returns with no lock held,
    and a user access that vmfault refuses panics. *)

From Stdlib Require Import ZArith Lia.
From stdpp Require Import base list strings sets.
From S2P Require Import Prelude Params Mem State Evict Kalloc Vm Demo Sched Sleeplock Printf Bio Log Fs.
From S2P Require Import VmInv VmFaultSpec Pipe Console File ProcLife Virtio Exec Syscall Trap FsDemo.

Definition hl {A} (h : list lock) (m : KM A) (post : A -> list lock) : Prop :=
  forall k a k', NoDup h -> k_held k = h -> m k = Ret a k' -> k_held k' = post a /\ NoDup (post a).

(** A routine that leaves the locks as it found them. *)
Abbreviation bal h m := (hl h%list m (fun _ => h%list)).

Lemma hl_ret {A} h (a : A) : bal h (ret a).
Proof. intros k b k' Hd Hk [= <- <-]. done. Qed.

(** The same, for a postcondition that depends on the result. *)
Lemma hl_ret_eq {A} h (a : A) P : P a = h -> hl h (ret a) P.
Proof. intros HP k b k' Hd Hk [= <- <-]. by rewrite HP. Qed.

Lemma hl_bind {A B} h (m : KM A) (f : A -> KM B) P Q :
  hl h m P -> (forall a, hl (P a) (f a) Q) -> hl h (bind m f) Q.
Proof.
  intros Hm Hf k b k' Hd Hk He. apply bind_inv in He as (a & k1 & H1 & H2).
  destruct (Hm k a k1 Hd Hk H1) as [Hk1 Hd1]. by eapply Hf.
Qed.

Lemma hl_gets {A} h (f : kernel -> A) : bal h (gets f).
Proof. intros k b k' Hd Hk [= <- <-]. done. Qed.

Lemma hl_panic {A} h msg (P : A -> list lock) : hl h (panic msg) P.
Proof. intros k b k' Hd Hk [=]. Qed.

Lemma hl_asleep {A} h (P : A -> list lock) : hl h Asleep P.
Proof. intros k b k' Hd Hk [=]. Qed.

Lemma hl_post {A} h (m : KM A) P Q : hl h m P -> (forall a, P a = Q a) -> hl h m Q.
Proof. intros Hm HPQ k a k' Hd Hk He. rewrite <- HPQ. by eapply Hm. Qed.

Lemma hl_for_until {A} n lo h (body : Z -> KM (option A)) (P : A -> list lock) :
  (forall i, hl h (body i) (fun r => match r with Some a => P a | None => h end)) ->
  hl h (for_until n lo body) (fun r => match r with Some a => P a | None => h end).
Proof.
  intros Hb. revert lo. induction n as [|n IH]; intros lo.
  - intros k a k' Hd Hk [= <- <-]. done.
  - rewrite for_until_S. eapply hl_bind; [apply Hb|]. intros [a|]; [|apply IH].
    intros k b k' Hd Hk [= <- <-]. done.
Qed.

Lemma hl_for_fold {A} n lo h (a : A) body :
  (forall i a, bal h (body i a)) -> bal h (for_fold n lo a body).
Proof.
  intros Hb. revert lo a. induction n as [|n IH]; intros lo a; [apply hl_ret|].
  rewrite for_fold_S. eapply hl_bind; [apply Hb|]. intros b. apply IH.
Qed.

Lemma hl_modify h f : (forall k, k_held (f k) = k_held k) -> bal h (modify f).
Proof. intros Hf k b k' Hd Hk [= <- <-]. by rewrite Hf. Qed.

(** A lock that is not held stays so. *)
Lemma hl_initlock h l : l ∉ h -> bal h (initlock l).
Proof. intros Hl k b k' Hd Hk [= <- <-]. cbn. rewrite Hk, unlocked_absent by done. done. Qed.

Lemma hl_for_range n lo h body : (forall i, bal h (body i)) -> bal h (for_range n lo body).
Proof.
  intros Hb. revert lo. induction n as [|n IH]; intros lo; [apply hl_ret|].
  rewrite for_range_S. eapply hl_bind; [apply Hb|]. intros b. apply IH.
Qed.

(** The body of a loop whose exits leave the locks as they are. *)
Lemma hl_for_until_bal {A} n lo h (body : Z -> KM (option A)) :
  (forall i, bal h (body i)) -> bal h (for_until n lo body).
Proof.
  intros Hb. eapply hl_post; [apply (hl_for_until _ _ _ _ (fun _ => h))|by intros [?|]].
  intros i. eapply hl_post; [apply Hb|by intros [?|]].
Qed.

Lemma hl_acquire h l : hl h (acquire l) (fun _ => l :: h).
Proof.
  intros k a k' Hd Hk. unfold acquire. case_bool_decide as Hl; [done|]. intros [= <- <-].
  cbn. rewrite Hk in Hl |- *. split; [done|]. by constructor.
Qed.

Lemma unlocked_NoDup l h : NoDup h -> NoDup (unlocked l h).
Proof. intros. unfold unlocked. by apply NoDup_filter. Qed.

Lemma hl_release h l : hl h (release l) (fun _ => unlocked l h).
Proof.
  intros k a k' Hd Hk. unfold release. case_bool_decide as Hl; [|done]. intros [= <- <-].
  cbn. rewrite Hk. split; [done|]. by apply unlocked_NoDup.
Qed.

Lemma hl_release_top h l : hl (l :: h) (release l) (fun _ => h).
Proof.
  intros k a k' Hd Hk He. destruct (hl_release _ _ _ _ _ Hd Hk He) as [H1 H2].
  inversion Hd; subst. rewrite unlocked_top in H1, H2 by done. done.
Qed.

(** What the checks of [acquire] and [release] tell about the rest. *)
Lemma acquire_then {B} h l (f : unit -> KM B) Q :
  (NoDup h -> l ∉ h -> hl (l :: h) (f tt) Q) -> hl h (bind (acquire l) f) Q.
Proof.
  intros Hf k b k' Hd Hk He. destruct (decide (l ∈ h)) as [Hl|Hl].
  - unfold bind, acquire in He. rewrite bool_decide_eq_true_2 in He by (by rewrite Hk). done.
  - revert He. eapply (hl_bind h (acquire l) f (fun _ => l :: h)); [apply hl_acquire|intros []; by apply Hf|done..].
Qed.

Lemma release_then {B} h l (f : unit -> KM B) Q :
  (l ∈ h -> hl (unlocked l h) (f tt) Q) -> hl h (bind (release l) f) Q.
Proof.
  intros Hf k b k' Hd Hk He. destruct (decide (l ∈ h)) as [Hl|Hl].
  - revert He. eapply (hl_bind h (release l) f (fun _ => unlocked l h)); [apply hl_release|intros []; by apply Hf|done..].
  - unfold bind, release in He. rewrite bool_decide_eq_false_2 in He by (by rewrite Hk). done.
Qed.

(** Releasing the lock below the top. *)
Lemma hl_release_second h l l' : hl (l' :: l :: h) (release l) (fun _ => l' :: h).
Proof.
  intros k a k' Hd Hk He. destruct (hl_release _ _ _ _ _ Hd Hk He) as [H1 H2].
  apply NoDup_cons in Hd as [Hn Hd]. apply NoDup_cons in Hd as [Hn2 Hd].
  assert (unlocked l (l' :: l :: h) = l' :: h) as Hu.
  { unfold unlocked. rewrite filter_cons_True by set_solver. f_equal. by apply unlocked_top. }
  by rewrite Hu in H1, H2.
Qed.

(** ** Automation *)
Create HintDb locks discriminated.

Ltac lock_core :=
  cbv beta;
  lazymatch goal with
  | |- hl _ (ret _) _ => first [apply hl_ret | apply hl_ret_eq; reflexivity]
  | |- hl _ (panic _) _ => apply hl_panic
  | |- hl _ Asleep _ => apply hl_asleep
  | |- hl _ (gets _) _ => apply hl_gets
  | |- hl _ (modify _) _ => apply hl_modify; intros ?; reflexivity
  | |- hl _ (acquire _) _ => apply hl_acquire
  | |- hl (?l :: _) (release ?l) _ => apply hl_release_top
  | |- hl (_ :: ?l :: _) (release ?l) _ => apply hl_release_second
  | |- hl _ (bind _ _) _ => eapply hl_bind; [|intros ?]
  | |- hl _ (for_range _ _ _) _ => apply hl_for_range; intros ?
  | |- hl _ (for_until _ _ _) _ => apply hl_for_until_bal; intros ?
  | |- hl _ (for_fold _ _ _ _) _ => apply hl_for_fold; intros ? ?
  | |- hl _ (when _ _) _ => unfold when
  | |- hl _ (if ?b then _ else _) _ => destruct b
  | |- hl _ (match (if ?b then _ else _) with _ => _ end) _ => destruct b
  | |- hl _ (match ?x with _ => _ end) _ => destruct x
  | |- hl _ (let _ := _ in _) _ => cbv zeta
  | |- hl _ (getp _) _ => apply hl_gets
  | |- hl _ (updp _ _) _ => unfold updp
  | |- hl _ (load64 _) _ => apply hl_gets
  | |- hl _ (store64 _ _) _ => unfold store64
  | |- hl _ (kmemset _ _ _) _ => unfold kmemset
  | |- hl _ (kmemmove _ _ _) _ => unfold kmemmove
  | |- hl _ (kload _ _) _ => apply hl_gets
  | |- hl _ (kstore _ _) _ => unfold kstore
  | |- hl _ myproc _ => apply hl_gets
  | |- _ => solve [eauto 2 with locks nocore]
  end.
Ltac lock_auto := intros; repeat lock_core.

(** ** Every routine releases the locks it takes

    For each routine of the kernel, the locks held when it returns, on every
    path.  Most leave them as they were; [allocproc] returns with the lock of
    the new slot. *)

(** ** Memory *)

Lemma alloc_swap_index_hl h : bal h alloc_swap_index.
Proof.
  unfold alloc_swap_index. lock_core; [lock_core|].
  eapply hl_bind; [apply (hl_for_until _ _ _ _ (fun _ => h))|].
  - lock_auto.
  - intros [i|]; lock_auto.
Qed.
#[export] Hint Resolve alloc_swap_index_hl : locks.

Lemma free_swap_index_hl h i : bal h (free_swap_index i).
Proof. unfold free_swap_index. lock_auto. Qed.
#[export] Hint Resolve free_swap_index_hl : locks.

Lemma walk_loop_hl h m alloc va level pt : (forall h, bal h m) -> bal h (walk_loop m alloc va level pt).
Proof. intros Hm. revert pt. induction level as [|n IH]; intros pt; cbn [walk_loop]; lock_auto. Qed.

Lemma evict_scan_step_hl h i acc : bal h (evict_scan_step i acc).
Proof. unfold evict_scan_step, clock_advance. lock_auto. Qed.
#[export] Hint Resolve evict_scan_step_hl : locks.

Lemma evict_passes_hl h n pass te : bal h (evict_passes n pass te).
Proof. revert pass te. induction n as [|n IH]; intros; cbn [evict_passes]; lock_auto. Qed.
#[export] Hint Resolve evict_passes_hl : locks.

Lemma walk0_hl h pt va : bal h (walk0 pt va).
Proof. unfold walk0, walk_with. lock_auto. apply walk_loop_hl. lock_auto. Qed.
#[export] Hint Resolve walk0_hl : locks.

Lemma evict_page_hl h : bal h evict_page.
Proof. unfold evict_page, sfence_vma. lock_auto. Qed.
#[export] Hint Resolve evict_page_hl : locks.

Section Locks.
Context {L : Layout} {I : Interference} {T : Text}.

Lemma kfree_hl h pa : bal h (kfree pa).
Proof. unfold kfree. lock_auto. Qed.
#[local] Hint Resolve kfree_hl : locks.

Lemma kalloc_hl h : bal h kalloc.
Proof. unfold kalloc. lock_auto. Qed.
#[local] Hint Resolve kalloc_hl : locks.

Lemma walk_hl h pt va alloc : bal h (walk pt va alloc).
Proof. unfold walk, walk_with. lock_auto. apply walk_loop_hl, kalloc_hl. Qed.
#[local] Hint Resolve walk_hl : locks.

Lemma walkaddr_hl h pt va : bal h (walkaddr pt va).
Proof. unfold walkaddr. lock_auto. Qed.
#[local] Hint Resolve walkaddr_hl : locks.

Lemma mappages_hl h pt va sz pa perm : bal h (mappages pt va sz pa perm).
Proof.
  unfold mappages. lock_auto. generalize (Z.to_nat (sz / PGSIZE)) as n, (u64 (va + sz - PGSIZE)) as last.
  intros n last. revert va pa. induction n as [|n IH]; intros; cbn [mappages_loop]; lock_auto.
Qed.
#[local] Hint Resolve mappages_hl : locks.

Lemma uvmcreate_hl h : bal h uvmcreate.
Proof. unfold uvmcreate. lock_auto. Qed.
#[local] Hint Resolve uvmcreate_hl : locks.

Lemma uvmunmap_hl h pt va n f : bal h (uvmunmap pt va n f).
Proof. unfold uvmunmap, uvmunmap_page. lock_auto. Qed.
#[local] Hint Resolve uvmunmap_hl : locks.

Lemma uvmdealloc_hl h pt a b : bal h (uvmdealloc pt a b).
Proof. unfold uvmdealloc. lock_auto. Qed.
#[local] Hint Resolve uvmdealloc_hl : locks.

Lemma register_frame_hl h mem p va : bal h (register_frame mem p va).
Proof. unfold register_frame. lock_auto. Qed.
#[local] Hint Resolve register_frame_hl : locks.

Lemma curproc_hl h : bal h curproc.
Proof. unfold curproc. lock_auto. Qed.
#[local] Hint Resolve curproc_hl : locks.

Lemma kalloc_or_evict_hl h : bal h kalloc_or_evict.
Proof. unfold kalloc_or_evict. lock_auto. Qed.
#[local] Hint Resolve kalloc_or_evict_hl : locks.

Lemma uvmalloc_hl h pt a b x : bal h (uvmalloc pt a b x).
Proof. unfold uvmalloc. lock_auto. Qed.
#[local] Hint Resolve uvmalloc_hl : locks.

Lemma freewalk_hl h level pt : bal h (freewalk level pt).
Proof. revert pt. induction level as [|n IH]; intros; cbn [freewalk]; lock_auto. Qed.
#[local] Hint Resolve freewalk_hl : locks.

Lemma uvmfree_hl h pt sz : bal h (uvmfree pt sz).
Proof. unfold uvmfree. lock_auto. Qed.
#[local] Hint Resolve uvmfree_hl : locks.

Lemma uvmcopy_hl h old new sz np : bal h (uvmcopy old new sz np).
Proof. unfold uvmcopy, uvmcopy_page, uvmcopy_map. lock_auto. Qed.
#[local] Hint Resolve uvmcopy_hl : locks.

Lemma uvmclear_hl h pt va : bal h (uvmclear pt va).
Proof. unfold uvmclear. lock_auto. Qed.
#[local] Hint Resolve uvmclear_hl : locks.

Lemma vmfault_hl h pt va : bal h (vmfault pt va).
Proof. unfold vmfault, vmfault_swapin, vmfault_lazy, ismapped, sfence_vma. lock_auto. Qed.
#[local] Hint Resolve vmfault_hl : locks.

Lemma fault_in_hl h pt va : bal h (fault_in pt va).
Proof. unfold fault_in. lock_auto. Qed.
#[local] Hint Resolve fault_in_hl : locks.

Lemma copyout_hl h pt va bs n : bal h (copyout pt va bs n).
Proof.
  unfold copyout, load_pte. generalize (Z.to_nat n) as fuel. intros fuel. revert va bs n.
  induction fuel as [|fuel IH]; intros; cbn [copyout_loop]; unfold load_pte; lock_auto.
Qed.
Lemma copyin_hl h pt va n : bal h (copyin pt va n).
Proof.
  unfold copyin. generalize (Z.to_nat n) as fuel. intros fuel. revert va n.
  induction fuel as [|fuel IH]; intros; cbn [copyin_loop]; lock_auto.
Qed.
Lemma copyinstr_hl h pt va n : bal h (copyinstr pt va n).
Proof.
  unfold copyinstr. generalize (Z.to_nat n) as fuel. intros fuel. revert va n.
  induction fuel as [|fuel IH]; intros; cbn [copyinstr_loop]; lock_auto.
Qed.
#[local] Hint Resolve copyout_hl copyin_hl copyinstr_hl : locks.

Lemma either_copyout_hl h dst bs n : bal h (either_copyout dst bs n).
Proof. unfold either_copyout. lock_auto. Qed.
Lemma either_copyin_hl h src n : bal h (either_copyin src n).
Proof. unfold either_copyin. lock_auto. Qed.
#[local] Hint Resolve either_copyout_hl either_copyin_hl : locks.

(** ** Scheduling *)

Lemma push_proc_hl h p : bal h (push_proc p).
Proof. unfold push_proc, getq, updq. lock_auto. Qed.
#[local] Hint Resolve push_proc_hl : locks.

(** The scheduler runs with the process's lock and nothing else; so it is
    when the process runs again. *)
Lemma sched_held k u k' : sched k = Ret u k' -> exists p, k_held k = [L_proc p] /\ k_held k' = [L_proc p].
Proof.
  unfold sched. intros He. apply bind_inv in He as (p & k1 & H1 & He).
  assert (k1 = k) as ->.
  { unfold curproc in H1. apply bind_inv in H1 as (o & k2 & [= <- <-] & H1).
    destruct (k_cur k); [by injection H1|done]. }
  apply bind_inv in He as (hd & k1 & [= <- <-] & He).
  case_bool_decide as Hin; cbn [negb] in He; [|done].
  case_bool_decide as Hlen; cbn [negb] in He; [|done].
  apply bind_inv in He as (pr & k1 & [= <- <-] & He). destruct (state_eqb _ _); [done|].
  apply bind_inv in He as (ie & k1 & [= <- <-] & He). destruct (_ && _); [done|].
  exists p. split.
  - destruct (k_held k) as [|x [|]]; try done. f_equal. set_solver.
  - unfold swtch in He. destruct (k_wakeups k) as [[|n]|]; [done|injection He as _ <-; done..].
Qed.

Lemma sched_then {B} h (f : unit -> KM B) Q :
  (forall p, h = [L_proc p] -> hl h (f tt) Q) -> hl h (bind sched f) Q.
Proof.
  intros Hf k b k' Hd Hk He. apply bind_inv in He as ([] & k1 & H1 & H2).
  apply sched_held in H1 as (p & Hk0 & Hk1). rewrite Hk in Hk0. subst h.
  apply (Hf p Hk0 k1 b k'); [done|congruence|done].
Qed.

Lemma yield_hl h : bal h yield.
Proof.
  unfold yield. lock_core; [lock_core|]. lock_core; [lock_core|]. lock_core; [lock_auto|].
  apply sched_then. intros p Hp. lock_auto.
Qed.
#[local] Hint Resolve yield_hl : locks.

(** [sleep] needs the lock it is given, and no other. *)
Lemma sleep_hl h ch lk : bal h (sleep ch lk).
Proof.
  unfold sleep. lock_core; [lock_core|]. apply acquire_then. intros Hd Hn. apply release_then. intros Hin.
  do 2 (lock_core; [lock_auto|]). apply sched_then. intros q Hq. lock_core; [lock_auto|].
  apply release_then. intros Hp. cbv beta in *. rewrite Hq in *.
  apply (hl_post _ _ (fun _ => lk :: unlocked (L_proc a) [L_proc q])); [apply hl_acquire|]. intros _.
  assert (a = q) as -> by set_solver. rewrite unlocked_top by set_solver.
  assert (lk <> L_proc q) as Hne.
  { intros ->. assert (L_proc q ∈ unlocked (L_proc q) (L_proc q :: h)) as Hu by (rewrite Hq; set_solver).
    by apply elem_of_unlocked in Hu as [_ Hu]. }
  assert (forall x, x ∈ h -> x = lk) as Hall.
  { intros x Hx. destruct (decide (x = lk)) as [|Hxl]; [done|].
    assert (x ∈ unlocked lk (L_proc q :: h)) as Hu by (apply elem_of_unlocked; set_solver).
    rewrite Hq in Hu. set_solver. }
  destruct h as [|x [|y h]]; [set_solver| |].
  - f_equal. symmetry. apply Hall. set_solver.
  - apply NoDup_cons in Hd as [Hx _]. destruct Hx. rewrite (Hall x), (Hall y) by set_solver. set_solver.
Qed.
#[local] Hint Resolve sleep_hl : locks.

Lemma sched_hl h : bal h sched.
Proof.
  intros k u k' Hd Hk He. apply sched_held in He as (p & H1 & H2). split; [congruence|]. congruence.
Qed.
#[local] Hint Resolve sched_hl : locks.

Lemma wakeup_hl h ch : bal h (wakeup ch).
Proof. unfold wakeup, for_procs. lock_auto. Qed.
Lemma killed_hl h p : bal h (killed p).
Proof. unfold killed. lock_auto. Qed.
Lemma setkilled_hl h p : bal h (setkilled p).
Proof. unfold setkilled. lock_auto. Qed.
Lemma kkill_hl h pid : bal h (kkill pid).
Proof. unfold kkill, for_procs_until. lock_auto. Qed.
Lemma event_tick_hl h p : bal h (event_tick p).
Proof. unfold event_tick, getq. lock_auto. Qed.
Lemma allocpid_hl h : bal h allocpid.
Proof. unfold allocpid. lock_auto. Qed.
#[local] Hint Resolve wakeup_hl killed_hl setkilled_hl kkill_hl event_tick_hl allocpid_hl : locks.

(** ** Waiting *)
Lemma sleep_rounds_hl n h c ch lk : bal h (sleep_rounds n c ch lk).
Proof.
  induction n as [|n IH]; intros k a k' Hd Hk He; cbn [sleep_rounds] in He; destruct (c k).
  - done.
  - by injection He as _ <-.
  - revert He. assert (bal h (bind (sleep ch lk) (fun _ => sleep_rounds n c ch lk))) as Hb by lock_auto.
    by apply Hb.
  - by injection He as _ <-.
Qed.
Lemma sleep_while_hl h c ch lk : bal h (sleep_while c ch lk).
Proof. intros k a k' Hd Hk He. by eapply sleep_rounds_hl. Qed.
#[local] Hint Resolve sleep_while_hl : locks.

Lemma wait_rounds_hl n h c ch lk : bal h (wait_rounds n c ch lk).
Proof.
  induction n as [|n IH]; intros k a k' Hd Hk He; cbn [wait_rounds] in He; destruct (c k).
  - done.
  - by injection He as _ <-.
  - revert He.
    match goal with |- ?m k = _ -> _ => assert (bal h m) as Hb by lock_auto end.
    by apply Hb.
  - by injection He as _ <-.
Qed.
Lemma wait_unless_killed_hl h c ch lk : bal h (wait_unless_killed c ch lk).
Proof. intros k a k' Hd Hk He. by eapply wait_rounds_hl. Qed.
Lemma mypid_hl h : bal h mypid.
Proof. unfold mypid. lock_auto. Qed.
Lemma deref_hl h p : bal h (deref p).
Proof. unfold deref. lock_auto. Qed.
#[local] Hint Resolve wait_unless_killed_hl mypid_hl deref_hl : locks.

(** A sleep lock whose fields are not the spin locks of the CPU. *)
Definition apart (lk : sleepref) : Prop := forall f k, k_held (sr_upd lk f k) = k_held k.
Lemma buflock_apart b : apart (buflock b). Proof. done. Qed.
Lemma inodelock_apart i : apart (inodelock i). Proof. done. Qed.
#[local] Hint Resolve buflock_apart inodelock_apart : locks.

Lemma modify_apart h lk f : apart lk -> bal h (modify (sr_upd lk f)).
Proof. intros Ha. apply hl_modify. intros k. apply Ha. Qed.

Ltac sleep_auto := intros; repeat first [apply modify_apart; solve [eauto with locks nocore] | lock_core].

Lemma acquiresleep_hl h lk : apart lk -> bal h (acquiresleep lk).
Proof. intros Ha. unfold acquiresleep. sleep_auto. Qed.
Lemma releasesleep_hl h lk : apart lk -> bal h (releasesleep lk).
Proof. intros Ha. unfold releasesleep. sleep_auto. Qed.
Lemma holdingsleep_hl h lk : bal h (holdingsleep lk).
Proof. unfold holdingsleep. lock_auto. Qed.
#[local] Hint Resolve acquiresleep_hl releasesleep_hl holdingsleep_hl : locks.

(** ** Printing *)
Lemma consputc_hl h c : bal h (consputc c).
Proof. unfold consputc, uartputc_sync. lock_auto. Qed.
#[local] Hint Resolve consputc_hl : locks.
Lemma consputs_hl h cs : bal h (consputs cs).
Proof. induction cs; cbn [consputs]; lock_auto. Qed.
#[local] Hint Resolve consputs_hl : locks.
Lemma printint_hl h x b s : bal h (printint x b s).
Proof. unfold printint. lock_auto. Qed.
Lemma printptr_hl h x : bal h (printptr x).
Proof. unfold printptr. lock_auto. Qed.
#[local] Hint Resolve printint_hl printptr_hl : locks.
Lemma conversion_hl h c0 c1 c2 ap m u e : conversion c0 c1 c2 ap = Some (m, u, e) -> bal h m.
Proof.
  unfold conversion. intros H.
  repeat match type of H with (if ?b then _ else _) = _ => destruct b end;
    try discriminate H; injection H as <- _ _; lock_auto.
Qed.
Lemma printf_hl h fmt ap : bal h (printf fmt ap).
Proof.
  unfold printf. enough (forall n h fmt ap, bal h (printf_loop n fmt ap)) by lock_auto.
  clear. induction n as [|n IH]; intros h fmt ap; cbn [printf_loop]; [lock_auto|].
  destruct fmt as [|c fmt]; [lock_auto|]. destruct (negb _); [lock_auto|]. cbv zeta.
  destruct (conversion _ _ _ _) as [[[m u] e]|] eqn:E; [|lock_auto].
  eapply hl_bind; [by eapply conversion_hl|]. lock_auto.
Qed.
#[local] Hint Resolve printf_hl : locks.

(** ** The disk driver *)
Lemma getb_hl h b : bal h (getb b).
Proof. apply hl_gets. Qed.
Lemma updb_hl h b f : bal h (updb b f).
Proof. unfold updb. lock_auto. Qed.
Lemma getv_hl h : bal h getv.
Proof. apply hl_gets. Qed.
Lemma updv_hl h f : bal h (updv f).
Proof. unfold updv. lock_auto. Qed.
Lemma updd_hl h i f : bal h (updd i f).
Proof. unfold updd. apply updv_hl. Qed.
#[local] Hint Resolve getb_hl updb_hl getv_hl updv_hl updd_hl : locks.

Lemma free_desc_hl h i : bal h (free_desc i).
Proof. unfold free_desc. lock_auto. Qed.
Lemma alloc_desc_hl h : bal h alloc_desc.
Proof. unfold alloc_desc. lock_auto. Qed.
#[local] Hint Resolve free_desc_hl alloc_desc_hl : locks.
Lemma free_chain_hl h i : bal h (free_chain i).
Proof.
  unfold free_chain. generalize (S (Z.to_nat NUM)) as n. intros n. revert i.
  induction n as [|n IH]; intros; cbn [free_chain_loop]; lock_auto.
Qed.
Lemma alloc3_desc_hl h : bal h alloc3_desc.
Proof. unfold alloc3_desc. cbn [alloc3_loop]. lock_auto. Qed.
#[local] Hint Resolve free_chain_hl alloc3_desc_hl : locks.
Lemma alloc3_wait_hl n h : bal h (alloc3_wait n).
Proof. induction n as [|n IH]; cbn [alloc3_wait]; lock_auto. Qed.
#[local] Hint Resolve alloc3_wait_hl : locks.
Lemma disk_rw_hl h b w : bal h (disk_rw b w).
Proof. unfold disk_rw, format_descs. lock_auto. Qed.
Lemma disk_intr_loop_hl n h : bal h (disk_intr_loop n).
Proof. induction n as [|n IH]; cbn [disk_intr_loop]; lock_auto. Qed.
#[local] Hint Resolve disk_intr_loop_hl : locks.
Lemma virtio_disk_intr_hl h : bal h virtio_disk_intr.
Proof. unfold virtio_disk_intr. lock_auto. Qed.
#[local] Hint Resolve virtio_disk_intr_hl : locks.

(** ** Buffers and the log, over a disk that keeps the locks *)
Context {D : Disk} (HD : forall h b w, bal h (virtio_disk_rw b w)).
#[local] Hint Resolve HD : locks.

Lemma bscan_hl h n step test b : bal h (bscan n step test b).
Proof. revert b. induction n as [|n IH]; intros; cbn [bscan]; lock_auto. Qed.
#[local] Hint Resolve bscan_hl : locks.
Lemma bread_hl h dev x : bal h (bread dev x).
Proof. unfold bread, bget. lock_auto. Qed.
Lemma bwrite_hl h b : bal h (bwrite b).
Proof. unfold bwrite. lock_auto. Qed.
Lemma brelse_hl h b : bal h (brelse b).
Proof. unfold brelse, link_front. lock_auto. Qed.
Lemma bpin_hl h b : bal h (bpin b).
Proof. unfold bpin. lock_auto. Qed.
Lemma bunpin_hl h b : bal h (bunpin b).
Proof. unfold bunpin. lock_auto. Qed.
#[local] Hint Resolve bread_hl bwrite_hl brelse_hl bpin_hl bunpin_hl : locks.

Lemma getl_hl h : bal h getl.
Proof. apply hl_gets. Qed.
Lemma updl_hl h f : bal h (updl f).
Proof. unfold updl. lock_auto. Qed.
#[local] Hint Resolve getl_hl updl_hl : locks.
Lemma install_trans_hl h r : bal h (install_trans r).
Proof. unfold install_trans. lock_auto. Qed.
Lemma read_head_hl h : bal h read_head.
Proof. unfold read_head. lock_auto. Qed.
Lemma write_head_hl h : bal h write_head.
Proof. unfold write_head. lock_auto. Qed.
Lemma write_log_hl h : bal h write_log.
Proof. unfold write_log. lock_auto. Qed.
#[local] Hint Resolve install_trans_hl read_head_hl write_head_hl write_log_hl : locks.
Lemma initlog_hl h dev sb : L_log ∉ h -> bal h (initlog dev sb).
Proof. intros Hl. pose proof (hl_initlock h L_log Hl). unfold initlog, recover_from_log. lock_auto; assumption. Qed.
Lemma begin_op_hl h : bal h begin_op.
Proof. unfold begin_op. lock_auto. Qed.
Lemma end_op_hl h : bal h end_op.
Proof. unfold end_op, end_op_leave, end_op_done, commit. lock_auto. Qed.
Lemma log_write_hl h b : bal h (log_write b).
Proof. unfold log_write. lock_auto. Qed.
#[local] Hint Resolve initlog_hl begin_op_hl end_op_hl log_write_hl : locks.

(** ** Files *)
Lemma geti_hl h i : bal h (geti i).
Proof. apply hl_gets. Qed.
Lemma updi_hl h i f : bal h (updi i f).
Proof. unfold updi. lock_auto. Qed.
#[local] Hint Resolve geti_hl updi_hl : locks.
Lemma bzero_hl h dev b : bal h (bzero dev b).
Proof. unfold bzero. lock_auto. Qed.
#[local] Hint Resolve bzero_hl : locks.
Lemma balloc_hl h dev : bal h (balloc dev).
Proof. unfold balloc, balloc_scan. lock_auto. Qed.
Lemma bfree_hl h dev b : bal h (bfree dev b).
Proof. unfold bfree. lock_auto. Qed.
Lemma iget_hl h dev inum : bal h (iget dev inum).
Proof. unfold iget. lock_auto. Qed.
Lemma iupdate_hl h ip : bal h (iupdate ip).
Proof. unfold iupdate. lock_auto. Qed.
Lemma idup_hl h ip : bal h (idup ip).
Proof. unfold idup. lock_auto. Qed.
Lemma ilock_hl h ip : bal h (ilock ip).
Proof. unfold ilock. lock_auto. Qed.
Lemma iunlock_hl h ip : bal h (iunlock ip).
Proof. unfold iunlock. lock_auto. Qed.
#[local] Hint Resolve balloc_hl bfree_hl iget_hl iupdate_hl idup_hl ilock_hl iunlock_hl : locks.
Lemma ialloc_hl h dev t : bal h (ialloc dev t).
Proof. unfold ialloc. lock_auto. Qed.
Lemma get_indirect_hl h bp bn : bal h (get_indirect bp bn).
Proof. unfold get_indirect. lock_auto. Qed.
#[local] Hint Resolve ialloc_hl get_indirect_hl : locks.
Lemma bmap_hl h ip bn : bal h (bmap ip bn).
Proof. unfold bmap. lock_auto. Qed.
Lemma itrunc_hl h ip : bal h (itrunc ip).
Proof. unfold itrunc. lock_auto. Qed.
#[local] Hint Resolve bmap_hl itrunc_hl : locks.
Lemma iput_hl h ip : bal h (iput ip).
Proof.
  unfold iput. lock_core; [lock_core|]. lock_core; [lock_auto|].
  eapply (hl_bind _ _ _ (fun _ => L_itable :: h)); [|lock_auto]. unfold when. destruct (_ && _); [|lock_auto].
  lock_auto.
Qed.
#[local] Hint Resolve iput_hl : locks.
Lemma iunlockput_hl h ip : bal h (iunlockput ip).
Proof. unfold iunlockput. lock_auto. Qed.
#[local] Hint Resolve iunlockput_hl : locks.
Lemma fsinit_hl h dev : L_log ∉ h -> bal h (fsinit dev).
Proof. intros Hl. pose proof (initlog_hl h) as Hi. unfold fsinit, readsb, ireclaim. lock_auto. Qed.
Lemma stati_hl h ip : bal h (stati ip).
Proof. unfold stati. lock_auto. Qed.
#[local] Hint Resolve fsinit_hl stati_hl : locks.
Lemma readi_hl h ip dst off n : bal h (readi ip dst off n).
Proof.
  unfold readi. enough (forall fuel h dst off n tot, bal h (readi_loop fuel ip dst off n tot)) by lock_auto.
  clear -HD. induction fuel as [|fuel IH]; intros; cbn [readi_loop]; lock_auto.
Qed.
Lemma writei_hl h ip src off n : bal h (writei ip src off n).
Proof.
  unfold writei. enough (forall fuel h src off n tot, bal h (writei_loop fuel ip src off n tot)) by lock_auto.
  clear -HD. induction fuel as [|fuel IH]; intros; cbn [writei_loop]; lock_auto.
Qed.
#[local] Hint Resolve readi_hl writei_hl : locks.
Lemma dirlookup_hl h dp name : bal h (dirlookup dp name).
Proof. unfold dirlookup. lock_auto. Qed.
#[local] Hint Resolve dirlookup_hl : locks.
Lemma dirlink_hl h dp name inum : bal h (dirlink dp name inum).
Proof. unfold dirlink. lock_auto. Qed.
Lemma namex_hl h path par name : bal h (namex path par name).
Proof.
  unfold namex. enough (forall fuel h ip path name, bal h (namex_loop fuel ip path par name)) by lock_auto.
  clear -HD. induction fuel as [|fuel IH]; intros; cbn [namex_loop]; lock_auto.
Qed.
#[local] Hint Resolve dirlink_hl namex_hl : locks.
Lemma namei_hl h path : bal h (namei path).
Proof. unfold namei. lock_auto. Qed.
Lemma nameiparent_hl h path name : bal h (nameiparent path name).
Proof. unfold nameiparent. lock_auto. Qed.
#[local] Hint Resolve namei_hl nameiparent_hl : locks.

(** ** Pipes, the console and open files *)
Lemma getpi_hl h pi : bal h (getpi pi).
Proof. apply hl_gets. Qed.
Lemma updpi_hl h pi f : bal h (updpi pi f).
Proof. unfold updpi. lock_auto. Qed.
#[local] Hint Resolve getpi_hl updpi_hl : locks.
Lemma pipeclose_hl h pi w : bal h (pipeclose pi w).
Proof. unfold pipeclose. lock_auto. Qed.
Lemma pipewrite_loop_hl n h pr pi addr m i : bal h (pipewrite_loop n pr pi addr m i).
Proof. revert i. induction n as [|n IH]; intros; cbn [pipewrite_loop]; lock_auto. Qed.
Lemma piperead_loop_hl n h pr pi addr i : bal h (piperead_loop n pr pi addr i).
Proof. revert i. induction n as [|n IH]; intros; cbn [piperead_loop]; lock_auto. Qed.
#[local] Hint Resolve pipeclose_hl pipewrite_loop_hl piperead_loop_hl : locks.
Lemma pipewrite_hl h pi addr n : bal h (pipewrite pi addr n).
Proof. unfold pipewrite. lock_auto. Qed.
Lemma piperead_hl h pi addr n : bal h (piperead pi addr n).
Proof. unfold piperead. lock_auto. Qed.
#[local] Hint Resolve pipewrite_hl piperead_hl : locks.

Lemma procdump_hl h : bal h procdump.
Proof. unfold procdump, for_procs. lock_auto. Qed.
Lemma updc_hl h f : bal h (updc f).
Proof. unfold updc. lock_auto. Qed.
#[local] Hint Resolve procdump_hl updc_hl : locks.
Lemma kill_line_hl n h : bal h (kill_line n).
Proof. induction n as [|n IH]; cbn [kill_line]; lock_auto. Qed.
#[local] Hint Resolve kill_line_hl : locks.
Lemma consoleintr_hl h c : bal h (consoleintr c).
Proof. unfold consoleintr. lock_auto. Qed.
Lemma consoleread_loop_hl fuel h dst n target : bal h (consoleread_loop fuel dst n target).
Proof. revert dst n. induction fuel as [|fuel IH]; intros; cbn [consoleread_loop]; lock_auto. Qed.
#[local] Hint Resolve consoleintr_hl consoleread_loop_hl : locks.
Lemma consoleread_hl h dst n : bal h (consoleread dst n).
Proof. unfold consoleread. lock_auto. Qed.
Lemma uartwrite_loop_hl h buf : bal h (uartwrite_loop buf).
Proof. induction buf as [|c buf IH]; cbn [uartwrite_loop]; lock_auto. Qed.
#[local] Hint Resolve consoleread_hl uartwrite_loop_hl : locks.
Lemma uartwrite_hl h buf n : bal h (uartwrite buf n).
Proof. unfold uartwrite. lock_auto. Qed.
#[local] Hint Resolve uartwrite_hl : locks.
Lemma consolewrite_loop_hl fuel h src n i : bal h (consolewrite_loop fuel src n i).
Proof. revert i. induction fuel as [|fuel IH]; intros; cbn [consolewrite_loop]; lock_auto. Qed.
#[local] Hint Resolve consolewrite_loop_hl : locks.
Lemma consolewrite_hl h src n : bal h (consolewrite src n).
Proof. unfold consolewrite. lock_auto. Qed.
Lemma uartgetc_hl h : bal h uartgetc.
Proof. intros k a k' Hd Hk. unfold uartgetc. destruct (k_in k); by intros [= _ <-]. Qed.
#[local] Hint Resolve consolewrite_hl uartgetc_hl : locks.
Lemma uart_drain_hl n h : bal h (uart_drain n).
Proof. induction n as [|n IH]; cbn [uart_drain]; lock_auto. Qed.
#[local] Hint Resolve uart_drain_hl : locks.
Lemma uartintr_hl h tx : bal h (uartintr tx).
Proof. unfold uartintr. lock_auto. Qed.
#[local] Hint Resolve uartintr_hl : locks.

Lemma getf_hl h f : bal h (getf f).
Proof. apply hl_gets. Qed.
Lemma updf_hl h f g : bal h (updf f g).
Proof. unfold updf. lock_auto. Qed.
#[local] Hint Resolve getf_hl updf_hl : locks.
Lemma filealloc_hl h : bal h filealloc.
Proof. unfold filealloc. lock_auto. Qed.
Lemma filedup_hl h f : bal h (filedup f).
Proof. unfold filedup. lock_auto. Qed.
Lemma fileclose_hl h f : bal h (fileclose f).
Proof. unfold fileclose. lock_auto. Qed.
Lemma filestat_hl h pad f addr : bal h (filestat pad f addr).
Proof. unfold filestat. lock_auto. Qed.
Lemma fileread_hl h f addr n : bal h (fileread f addr n).
Proof. unfold fileread, devsw_read. lock_auto. Qed.
Lemma filewrite_loop_hl fuel h f addr n i : bal h (filewrite_loop fuel f addr n i).
Proof. revert i. induction fuel as [|fuel IH]; intros; cbn [filewrite_loop]; lock_auto. Qed.
#[local] Hint Resolve filealloc_hl filedup_hl fileclose_hl filestat_hl fileread_hl filewrite_loop_hl : locks.
Lemma filewrite_hl h f addr n : bal h (filewrite f addr n).
Proof. unfold filewrite, devsw_write. lock_auto. Qed.
(** A system call starts with no pipe locked, so that a new pipe's lock is
    free. *)
Definition nopipe (h : list lock) : Prop := forall pi, L_pipe pi ∉ h.

Lemma initlock_pipe_hl h pi : nopipe h -> bal h (initlock (L_pipe pi)).
Proof. intros Hn. apply hl_initlock, Hn. Qed.
#[local] Hint Resolve initlock_pipe_hl : locks.

Lemma pipealloc_hl h : nopipe h -> bal h pipealloc.
Proof. intros Hn. unfold pipealloc, pipealloc_bad. lock_auto. Qed.
#[local] Hint Resolve filewrite_hl pipealloc_hl : locks.

(** ** Processes *)
Lemma proc_pagetable_hl h p : bal h (proc_pagetable p).
Proof. unfold proc_pagetable. lock_auto. Qed.
Lemma proc_freepagetable_hl h pt sz : bal h (proc_freepagetable pt sz).
Proof. unfold proc_freepagetable. lock_auto. Qed.
#[local] Hint Resolve proc_pagetable_hl proc_freepagetable_hl : locks.
Lemma freeproc_hl h p : bal h (freeproc p).
Proof. unfold freeproc. lock_auto. Qed.
#[local] Hint Resolve freeproc_hl : locks.

(** The lock of the slot is held exactly when there is one. *)
Definition slot_locked (h : list lock) (r : option nat) : list lock :=
  match r with Some p => L_proc p :: h | None => h end.

Lemma allocproc_found_hl h p : hl (L_proc p :: h) (allocproc_found p) (slot_locked h).
Proof. unfold allocproc_found. lock_auto. Qed.

Lemma allocproc_hl h : hl h allocproc (slot_locked h).
Proof.
  unfold allocproc, for_procs_until. eapply hl_bind.
  - apply (hl_for_until _ _ _ _ (fun p => L_proc p :: h)). lock_auto.
  - intros [p|]; [apply allocproc_found_hl|lock_auto].
Qed.

Lemma growproc_hl h n : bal h (growproc n).
Proof. unfold growproc. lock_auto. Qed.
#[local] Hint Resolve growproc_hl : locks.

Lemma kfork_hl h : bal h kfork.
Proof.
  unfold kfork, kfork_swapcopy, kfork_files. lock_core; [lock_auto|].
  eapply hl_bind; [apply allocproc_hl|]. intros [np|]; cbn [slot_locked]; lock_auto.
Qed.

Lemma reparent_hl h p : bal h (reparent p).
Proof. unfold reparent, for_procs. lock_auto. Qed.
#[local] Hint Resolve kfork_hl reparent_hl : locks.

Lemma kexit_hl h s (P : unit -> list lock) : hl h (kexit s) P.
Proof. unfold kexit. lock_auto. Qed.

Lemma kwait_child_hl h p pp addr :
  hl (L_proc pp :: L_wait :: h) (kwait_child p pp addr)
     (fun r => match r with Some _ => h | None => L_wait :: h end).
Proof. unfold kwait_child. lock_auto. Qed.

Lemma kwait_scan_hl n h p pp addr kids :
  hl (L_wait :: h) (kwait_scan n p pp addr kids)
     (fun r => match r with inl _ => h | inr _ => L_wait :: h end).
Proof.
  revert pp kids. induction n as [|n IH]; intros pp kids; cbn [kwait_scan]; [lock_auto|].
  lock_core; [lock_auto|]. destruct (bool_decide _); [|apply IH].
  lock_core; [lock_core|]. eapply hl_bind; [apply kwait_child_hl|]. intros [v|]; [lock_auto|apply IH].
Qed.

Lemma kwait_hl h addr : bal h (kwait addr).
Proof.
  unfold kwait. enough (forall n p, hl (L_wait :: h) (kwait_loop n p addr) (fun _ => h)) by lock_auto.
  induction n as [|n IH]; intros p; cbn [kwait_loop]; (eapply hl_bind; [apply kwait_scan_hl|]);
    intros [v|kids]; lock_auto.
Qed.
#[local] Hint Resolve kwait_hl : locks.

Lemma copy_info_hl h r p : bal h (copy_info r p).
Proof. unfold copy_info. lock_auto. Qed.
#[local] Hint Resolve copy_info_hl : locks.
Lemma kgetppid_hl h : bal h kgetppid.
Proof. unfold kgetppid. lock_auto. Qed.
Lemma kgetnumchild_hl h addr : bal h (kgetnumchild addr).
Proof. unfold kgetnumchild. lock_auto. Qed.
Lemma kgetchildsyscount_hl h pid : bal h (kgetchildsyscount pid).
Proof. unfold kgetchildsyscount, for_procs_until. lock_auto. Qed.
Lemma kgetmlfqinfo_hl h pid p : bal h (kgetmlfqinfo pid p).
Proof. unfold kgetmlfqinfo, for_procs_until. lock_auto. Qed.
Lemma kgetvmstats_hl h pid p : bal h (kgetvmstats pid p).
Proof. unfold kgetvmstats, for_procs_until. lock_auto. Qed.
#[local] Hint Resolve kgetppid_hl kgetnumchild_hl kgetchildsyscount_hl kgetmlfqinfo_hl kgetvmstats_hl : locks.

(** ** exec *)
Lemma loadseg_hl h pt va ip off sz : bal h (loadseg pt va ip off sz).
Proof. unfold loadseg. lock_auto. Qed.
#[local] Hint Resolve loadseg_hl : locks.
Lemma load_segments_hl n h pt ip off sz : bal h (load_segments n pt ip off sz).
Proof. revert off sz. induction n as [|n IH]; intros; cbn [load_segments]; lock_auto. Qed.
Lemma kexec_bad_hl h pt sz ip : bal h (kexec_bad pt sz ip).
Proof. unfold kexec_bad. lock_auto. Qed.
Lemma push_args_hl h pt base argv sp us : bal h (push_args pt base argv sp us).
Proof. revert sp us. induction argv as [|s argv IH]; intros; cbn [push_args]; lock_auto. Qed.
#[local] Hint Resolve load_segments_hl kexec_bad_hl push_args_hl : locks.
Lemma kexec_stack_hl h path argv pt sz e : bal h (kexec_stack path argv pt sz e).
Proof. unfold kexec_stack, kexec_commit. lock_auto. Qed.
#[local] Hint Resolve kexec_stack_hl : locks.
Lemma kexec_hl h path argv : bal h (kexec path argv).
Proof. unfold kexec. lock_auto. Qed.
#[local] Hint Resolve kexec_hl : locks.

(** ** System calls *)
Lemma fetchaddr_hl h a : bal h (fetchaddr a).
Proof. unfold fetchaddr. lock_auto. Qed.
Lemma fetchstr_hl h a n : bal h (fetchstr a n).
Proof. unfold fetchstr. lock_auto. Qed.
Lemma argraw_hl h n : bal h (argraw n).
Proof. unfold argraw. lock_auto. Qed.
#[local] Hint Resolve fetchaddr_hl fetchstr_hl argraw_hl : locks.
Lemma argint_hl h n : bal h (argint n).
Proof. unfold argint. lock_auto. Qed.
Lemma argaddr_hl h n : bal h (argaddr n).
Proof. unfold argaddr. lock_auto. Qed.
#[local] Hint Resolve argint_hl argaddr_hl : locks.
Lemma argstr_hl h n m : bal h (argstr n m).
Proof. unfold argstr. lock_auto. Qed.
Lemma argfd_hl h n : bal h (argfd n).
Proof. unfold argfd. lock_auto. Qed.
Lemma fdalloc_hl h f : bal h (fdalloc f).
Proof. unfold fdalloc. lock_auto. Qed.
Lemma clear_fd_hl h p fd : bal h (clear_fd p fd).
Proof. unfold clear_fd. lock_auto. Qed.
#[local] Hint Resolve argstr_hl argfd_hl fdalloc_hl clear_fd_hl : locks.
Lemma add_link_hl h ip d : bal h (add_link ip d).
Proof. unfold add_link. lock_auto. Qed.
Lemma isdirempty_hl h dp : bal h (isdirempty dp).
Proof. unfold isdirempty. lock_auto. Qed.
Lemma create_fail_hl h dp ip : bal h (create_fail dp ip).
Proof. unfold create_fail. lock_auto. Qed.
Lemma fail_put_hl h ip : bal h (fail_put ip).
Proof. unfold fail_put. lock_auto. Qed.
#[local] Hint Resolve add_link_hl isdirempty_hl create_fail_hl fail_put_hl : locks.
Lemma create_hl h path t major minor : bal h (create path t major minor).
Proof. unfold create, create_new. lock_auto. Qed.
Lemma sys_open_at_hl h ip omode : bal h (sys_open_at ip omode).
Proof. unfold sys_open_at. lock_auto. Qed.
Lemma create_done_hl h r : bal h (create_done r).
Proof. unfold create_done. lock_auto. Qed.
Lemma free_argv_hl h l : bal h (free_argv l).
Proof. induction l as [|a l IH]; cbn [free_argv]; lock_auto. Qed.
Lemma fetch_argv_hl n h u i : bal h (fetch_argv n u i).
Proof. revert i. induction n as [|n IH]; intros; cbn [fetch_argv]; lock_auto. Qed.
#[local] Hint Resolve create_hl sys_open_at_hl create_done_hl free_argv_hl fetch_argv_hl : locks.

Lemma sys_unlink_hl h : bal h sys_unlink.
Proof. unfold sys_unlink, sys_unlink_entry, sys_unlink_bad. lock_auto. Qed.
Lemma sys_link_hl h : bal h sys_link.
Proof. unfold sys_link, sys_link_at, sys_link_bad. lock_auto. Qed.
Lemma sys_open_hl h : bal h sys_open.
Proof. unfold sys_open. lock_auto. Qed.
Lemma sys_pipe_hl h : nopipe h -> bal h sys_pipe.
Proof. intros Hn. unfold sys_pipe. lock_auto. Qed.
Lemma sys_exec_hl h : bal h sys_exec.
Proof. unfold sys_exec. lock_auto. Qed.
Lemma sys_exit_hl h : bal h sys_exit.
Proof. unfold sys_exit. lock_core; [lock_auto|]. eapply hl_bind; [apply (kexit_hl _ _ (fun _ => h))|lock_auto]. Qed.
#[local] Hint Resolve sys_unlink_hl sys_link_hl sys_open_hl sys_pipe_hl sys_exec_hl sys_exit_hl : locks.

(** Every entry of the table of system calls. *)
Lemma syscalls_hl h pad num f : nopipe h -> syscalls pad num = Some f -> bal h f.
Proof.
  intros Hn. unfold syscalls. intros H.
  repeat match type of H with match ?x with _ => _ end = _ => destruct x end;
    try discriminate H; injection H as <-;
    first [solve [eauto 2 with locks nocore]
          |unfold sys_wait, sys_read, sys_kill, sys_fstat, sys_chdir, sys_dup, sys_getpid, sys_sbrk, sys_pause,
             sys_uptime, sys_write, sys_mknod, sys_mkdir, sys_close, sys_hello, sys_getppid, sys_getnumchild,
             sys_getsyscount, sys_getchildsyscount, sys_getpid2, sys_getpinfo, sys_getlevel, sys_getmlfqinfo,
             sys_getvmstats, sys_fork; lock_auto].
Qed.

Lemma syscall_hl h pad : nopipe h -> bal h (syscall pad).
Proof.
  intros Hn. unfold syscall. do 3 (lock_core; [lock_auto|]). cbv zeta.
  destruct (syscalls _ _) as [f|] eqn:E; [|lock_auto].
  lock_core; [lock_auto|]. eapply hl_bind; [by eapply syscalls_hl|]. lock_auto.
Qed.
#[local] Hint Resolve syscall_hl : locks.

(** ** Traps *)
Lemma updr_hl h f : bal h (updr f).
Proof. unfold updr. lock_auto. Qed.
Lemma getr_hl h : bal h getr.
Proof. apply hl_gets. Qed.
#[local] Hint Resolve updr_hl getr_hl : locks.
Lemma w_sstatus_hl h x : bal h (w_sstatus x).
Proof. unfold w_sstatus. lock_auto. Qed.
Lemma w_stvec_hl h x : bal h (w_stvec x).
Proof. unfold w_stvec. lock_auto. Qed.
Lemma w_sepc_hl h x : bal h (w_sepc x).
Proof. unfold w_sepc. lock_auto. Qed.
Lemma w_stimecmp_hl h x : bal h (w_stimecmp x).
Proof. unfold w_stimecmp. lock_auto. Qed.
#[local] Hint Resolve w_sstatus_hl w_stvec_hl w_sepc_hl w_stimecmp_hl : locks.
Lemma intr_on_hl h : bal h intr_on.
Proof. unfold intr_on. lock_auto. Qed.
Lemma intr_off_hl h : bal h intr_off.
Proof. unfold intr_off. lock_auto. Qed.
#[local] Hint Resolve intr_on_hl intr_off_hl : locks.
Lemma devintr_hl h dev : bal h (devintr dev).
Proof. unfold devintr, clockintr, plic_claim, plic_complete, cpuid, mmio_write. lock_auto. Qed.
Lemma prepare_return_hl h : bal h prepare_return.
Proof. unfold prepare_return. lock_auto. Qed.
Lemma kexit_if_hl h b s : bal h (when b (kexit s)).
Proof. unfold when. destruct b; [apply kexit_hl|apply hl_ret]. Qed.
#[local] Hint Resolve devintr_hl prepare_return_hl kexit_if_hl : locks.

Lemma kerneltrap_hl h dev : bal h (kerneltrap dev).
Proof. unfold kerneltrap. lock_auto. Qed.

Ltac trap_auto :=
  intros; repeat first [match goal with |- hl _ (when _ (kexit _)) _ => apply kexit_if_hl end | lock_core].

Lemma usertrap_hl h pad dev : nopipe h -> bal h (usertrap pad dev).
Proof. intros Hn. unfold usertrap, usertrap_cause. trap_auto. Qed.

End Locks.

(** ** Properties of the trap handlers and of the system-call dispatcher

    The lock discipline of the kernel's entry points, and an error path. *)

(** The locks held when a routine returns, if it returns. *)
Definition returns_with {A} (h : list lock) (r : outcome kernel A) : Prop :=
  match r with
  | Ret _ k' => k_held k' = h
  | _ => True
  end.

Definition is_ret {A} (r : outcome kernel A) : bool := match r with Ret _ _ => true | _ => false end.

Lemma hl_returns {A} h (m : KM A) k : NoDup h -> k_held k = h -> bal h m -> returns_with h (m k).
Proof. intros Hd Hk Hm. unfold returns_with. destruct (m k) eqn:E; [|done..]. by apply (Hm k a w Hd Hk E). Qed.

Section LockProps.
Context {L : Layout} {I : Interference} {T : Text}.

(** C12. A trap from user space gives every spin lock back.  Whatever system
    call, device interrupt, page fault or clock tick [usertrap] handles, with
    whatever arguments and on whatever path (errors included), if it returns
    to user space then no spin lock is held.  The disk is the virtio driver of
    the kernel; what other threads do while this one sleeps is arbitrary. *)
Theorem usertrap_unlocked pad dev k :
  k_held k = [] -> returns_with [] (@usertrap L I virtio_disk T pad dev k).
Proof.
  intros Hk. apply hl_returns; [constructor|done|]. apply usertrap_hl; [intros; apply disk_rw_hl|]. intros pi. set_solver.
Qed.

(** An interrupt handled in kernel mode leaves the spin locks of the CPU as
    it found them: the code it interrupted still holds exactly the locks it
    held. *)
Theorem kerneltrap_keeps_locks dev k :
  NoDup (k_held k) -> returns_with (k_held k) (kerneltrap dev k).
Proof. intros Hd. apply hl_returns; [done|done|]. apply kerneltrap_hl. Qed.
End LockProps.

(** A process that traps with the number of [sys_uptime] in [a7]. *)
Definition text0 : Text := {|
  forkret_addr := KERNBASE; usertrap_addr := KERNBASE; kernelvec_addr := KERNBASE;
  uservec_addr := KERNBASE; userret_addr := KERNBASE |}.

Definition trap_demo : kernel :=
  demo <| k_procs ::= alter (set p_trapframe (fun _ => pg 8)) 0%nat |>
       <| k_mem ::= fun m => st64 m (pg 8 + TF_a 7) 14 |>
       <| k_csr := mkcsrs 8 4096 0 0 0 0 0 |>.

Lemma usertrap_unlocked_witness :
  is_ret (@usertrap _ still virtio_disk text0 [] (mkdevices 0 false 0) trap_demo) = true /\
  returns_with [] (@usertrap _ still virtio_disk text0 [] (mkdevices 0 false 0) trap_demo).
Proof. split; [vm_compute; reflexivity|]. apply (@usertrap_unlocked _ still text0). vm_compute. reflexivity. Defined.

(** A clock interrupt while the kernel holds [wait_lock]. *)
Definition ktrap_demo : kernel :=
  demo <| k_csr := mkcsrs 0x8000000000000005 4096 256 0 0 0 0 |> <| k_held := [L_wait] |>.

Lemma kerneltrap_keeps_locks_witness :
  is_ret (@kerneltrap still (mkdevices 0 false 0) ktrap_demo) = true /\
  returns_with [L_wait] (@kerneltrap still (mkdevices 0 false 0) ktrap_demo).
Proof.
  split; [vm_compute; reflexivity|].
  change [L_wait] with (k_held ktrap_demo). apply (@kerneltrap_keeps_locks still).
  change (k_held ktrap_demo) with [L_wait]. apply NoDup_singleton.
Defined.

(** ** Faults and the dispatcher *)

(** The exception codes of a page fault: instruction, load and store. *)
Definition page_fault (scause : Z) : Prop := scause = 12 \/ scause = 13 \/ scause = 15.

Section TrapProps.
Context {L : Layout} {I : Interference} {D : Disk} {T : Text}.

(** A fault at or above the process's size is refused. *)
Lemma vmfault_above p k pt va :
  k_cur k = Some p -> p_sz (k_procs k !!! p) <= va ->
  vmfault pt va k = Ret 0 (k <| k_procs ::= alter (set p_page_faults inc32) p |>).
Proof.
  intros Hc Hva. apply wp_eq. unfold vmfault, curproc. wp_steps. rewrite Hc. wp_steps. kproj.
  rewrite (proj_alter p_sz) by done. rewrite (proj2 (Z.leb_le _ _) Hva). by wp_steps.
Qed.

(** A fault on a page that is mapped and not swapped out is refused too. *)
Lemma vmfault_mapped p k pt va (e := pte_of (k_mem k) pt va) :
  k_cur k = Some p -> va < p_sz (k_procs k !!! p) -> 0 <= va < MAXVA -> has e PTE_V = true -> has e PTE_S = false ->
  vmfault pt va k = Ret 0 (k <| k_procs ::= alter (set p_page_faults inc32) p |>).
Proof.
  intros Hc Hsz Hva HV HS. apply wp_eq. unfold vmfault, curproc. wp_steps. rewrite Hc. wp_steps. kproj.
  rewrite (proj_alter p_sz) by done. rewrite (proj2 (Z.leb_gt _ _) Hsz).
  set (k1 := k <| k_procs ::= _ |>). set (va0 := PGROUNDDOWN va).
  assert (Hal : 0 <= va0 < MAXVA /\ va0 / PGSIZE = va / PGSIZE) by (unfold va0; rewrite PGROUNDDOWN_spec; unfold PGSIZE; dlia).
  assert (He : pte_of (k_mem k1) pt va0 = e) by (unfold e, pte_of; by rewrite (pte_addr_vpn _ _ _ _ (proj2 Hal))).
  destruct (pte_of_present (k_mem k1) pt va0 0 ltac:(lia)) as [Hne Ed]; [by rewrite He|]. rewrite He in Ed.
  wp_steps. eapply wp_Ret; [apply walk_present; [lia|done]|]. cbv beta. rewrite (proj2 (Z.eqb_neq _ _) Hne). wp_steps.
  rewrite <- Ed, HS. unfold vmfault_lazy, ismapped. wp_steps. eapply wp_Ret; [apply walk_noalloc; lia|].
  cbv beta. rewrite (proj2 (Z.eqb_neq _ _) Hne). wp_steps. rewrite <- Ed, HV. cbn [negb Z.eqb]. by wp_steps.
Qed.

(** The faults of the running process [p] that vmfault refuses: at or above the
    size of the process, or on a page that is mapped and was not swapped out,
    which faults because of its permissions.  The memory is that with the
    program counter saved in the trap frame. *)
Definition refused (p : nat) (k : kernel) (x := k_procs k !!! p) (va := r_stval (k_csr k)) : Prop :=
  let e := pte_of (st64 (k_mem k) (p_trapframe x + TF_epc) (r_sepc (k_csr k))) (p_pagetable x) va in
  p_sz x <= va \/ (0 <= va < MAXVA /\ has e PTE_V = true /\ has e PTE_S = false).

(** C13. A user program that touches an address it may not stops the machine.
    On a page fault, load, store or instruction, at or above the size of the
    process, or on a mapped page whose permissions forbid the access (a store
    to program text, any access to the guard page below the stack), [usertrap]
    panics instead of killing the process. *)
Theorem usertrap_bad_address_panics p pad dev k :
  k_cur k = Some p -> has (r_sstatus (k_csr k)) SSTATUS_SPP = false ->
  page_fault (r_scause (k_csr k)) -> refused p k ->
  usertrap pad dev k = Panic "mem alloc failed".
Proof.
  intros Hc Hs Hf Hva. unfold usertrap. unfold bind at 1, getr, gets at 1. rewrite Hs.
  set (k1 := (k <| k_csr ::= set r_stvec (fun _ => kernelvec_addr) |>)
               <| k_mem ::= fun m => st64 m (p_trapframe (k_procs k !!! p) + TF_epc) (r_sepc (k_csr k)) |>).
  assert (usertrap_cause pad dev p k1 = Panic "mem alloc failed") as Hp.
  { unfold usertrap_cause, getr. rewrite (bind_Ret _ _ _ (k_csr k1) k1) by done.
    rewrite (bind_Ret _ _ _ (k_procs k !!! p) k1) by done.
    change (r_scause (k_csr k1)) with (r_scause (k_csr k)).
    assert (devintr dev k1 = Ret 0 k1) as Hd.
    { unfold devintr. rewrite (bind_Ret _ _ _ (k_csr k1) k1) by done.
      change (r_scause (k_csr k1)) with (r_scause (k_csr k)). by destruct Hf as [-> | [-> | ->]]. }
    assert (forall (m1 m2 : KM Z) w, (if r_scause (k_csr k) =? 8 then m1 else m2) w = m2 w) as Hif.
    { by destruct Hf as [-> | [-> | ->]]. }
    rewrite Hif, (bind_Ret _ _ _ _ _ Hd). cbn [negb Z.eqb].
    replace ((r_scause (k_csr k) =? 15) || (r_scause (k_csr k) =? 13) || (r_scause (k_csr k) =? 12)) with true
      by (by destruct Hf as [-> | [-> | ->]]).
    rewrite (bind_Ret _ _ _ (k_procs k !!! p) k1) by done.
    assert (exists k2, vmfault (p_pagetable (k_procs k !!! p)) (r_stval (k_csr k1)) k1 = Ret 0 k2) as [k2 Hv].
    { destruct (Z.le_gt_cases (p_sz (k_procs k !!! p)) (r_stval (k_csr k))) as [Hle|Hgt].
      - eexists. exact (vmfault_above p k1 _ (r_stval (k_csr k1)) Hc Hle).
      - destruct Hva as [Hva|(Hm & HV & HS)]; [lia|].
        eexists. by apply (vmfault_mapped p k1 _ (r_stval (k_csr k1)) Hc Hgt Hm HV HS). }
    by rewrite (bind_Ret _ _ _ _ _ Hv). }
  rewrite (bind_Ret _ _ _ tt (k <| k_csr ::= set r_stvec (fun _ => kernelvec_addr) |>)) by done.
  rewrite (bind_Ret curproc _ _ p (k <| k_csr ::= set r_stvec (fun _ => kernelvec_addr) |>))
    by (unfold curproc, bind, myproc, gets; kproj; by rewrite Hc).
  rewrite (bind_Ret _ _ _ (k_procs k !!! p) (k <| k_csr ::= set r_stvec (fun _ => kernelvec_addr) |>)) by done.
  rewrite (bind_Ret _ _ _ tt k1) by done. by rewrite (bind_Panic _ _ _ _ Hp).
Qed.
End TrapProps.

(** A load from address 2^32 by a process of four pages, and an instruction
    fetch from its page 0, which has data. *)
Definition fault_demo : kernel := demo <| k_csr := mkcsrs 13 4096 0 4294967296 0 0 0 |>.
Definition fetch_demo : kernel := demo <| k_csr := mkcsrs 12 4096 0 16 0 0 0 |>.

Definition text1 : Text := {|
  forkret_addr := KERNBASE; usertrap_addr := KERNBASE; kernelvec_addr := KERNBASE;
  uservec_addr := KERNBASE; userret_addr := KERNBASE |}.

Lemma usertrap_bad_address_panics_witness :
  @usertrap _ still virtio_disk text1 [] (mkdevices 0 false 0) fault_demo = Panic "mem alloc failed" /\
  @usertrap _ still virtio_disk text1 [] (mkdevices 0 false 0) fetch_demo = Panic "mem alloc failed".
Proof.
  split; (apply (@usertrap_bad_address_panics _ still virtio_disk text1 0%nat); [done|done| |]).
  - right. left. reflexivity.
  - left. vm_compute. discriminate.
  - left. reflexivity.
  - right. split; [vm_compute; split; [discriminate|reflexivity]|]. split; vm_compute; reflexivity.
Defined.
