(* ===== verification/Uprog.v ===== *)
(** * User programs

    A user program is an interaction tree: its events are the system calls of
    user/user.h, and loads and stores at addresses it has computed.  Variables
    and buffers of a program are values of the model; where a program passes a
    raw address to a system call, the event carries the address.  The files
    that model programs of user/ are written in this language; what a system
    call answers is left open. *)

From Stdlib Require Import ZArith Lia.
From stdpp Require Import base list strings.
From ITree Require Import ITree.
From S2P Require Import Prelude Params Printf Ulib.

(** ** System calls *)

(** A pointer argument: to a buffer of the program with these bytes (for a
    string, those before its NUL), or an address. *)
Inductive src : Type :=
| Own (bs : list Z)
| At (a : Z).

(** struct stat. *)
Record ustat := mkustat { st_dev : Z; st_ino : Z; st_type : Z; st_nlink : Z; st_size : Z }.

(** The answer to a call that stores through a pointer to a variable or buffer
    of the program is the returned value with what was stored. *)
Inductive sysE : Type -> Type :=
| Fork : sysE Z
| Exit (status : Z) : sysE Empty_set
| Wait : sysE (Z * Z)
| Pipe : sysE (Z * (Z * Z))
| PipeAt (a : Z) : sysE Z
| Read (fd n : Z) : sysE (Z * list Z)
| ReadAt (fd a n : Z) : sysE Z
| Write (fd : Z) (buf : src) (n : Z) : sysE Z
| Close (fd : Z) : sysE Z
| Kill (pid : Z) : sysE Z
| Exec (path : src) (argv : list src) : sysE Z
| Open (path : src) (omode : Z) : sysE Z
| Mknod (path : src) (major minor : Z) : sysE Z
| Unlink (path : src) : sysE Z
| Fstat (fd : Z) : sysE (Z * ustat)
| Link (old new : src) : sysE Z
| Mkdir (path : src) : sysE Z
| Chdir (path : src) : sysE Z
| Dup (fd : Z) : sysE Z
| Getpid : sysE Z
| Sbrk (n : Z) (lazy : bool) : sysE Z
| Pause (n : Z) : sysE Z
| Hello : sysE Z
| Getppid : sysE Z
| Getnumchild : sysE Z
| Getsyscount : sysE Z
| Getchildsyscount (pid : Z) : sysE Z
| Getpid2 : sysE Z
| Load (a : Z) (n : nat) : sysE Z
| Store (a : Z) (n : nat) (v : Z) : sysE unit.

Definition proc : Type -> Type := itree sysE.

Declare Scope proc_scope.
Delimit Scope proc_scope with proc.
Open Scope proc_scope.
Notation "'let*' x := m 'in' k" := (ITree.bind m (fun x => k)) (at level 10, x name, m at level 100, k at level 200) : proc_scope.
Notation "'let*' ' p := m 'in' k" := (ITree.bind m (fun p => k)) (at level 10, p strict pattern, m at level 100, k at level 200) : proc_scope.
Notation "'ret*' x" := (go (RetF x)) (at level 10, x at level 9) : proc_scope.
Notation "'do*' m ; k" := (ITree.bind m (fun _ => k)) (at level 10, m at level 100, k at level 200) : proc_scope.

(** ** The calls, as user/user.h declares them *)
Definition fork : proc Z := ITree.trigger Fork.
Definition exit {A} (status : Z) : proc A := let* v := ITree.trigger (Exit status) in match v : Empty_set with end.
(** [wait(&st)]: the pid, and [st], which keeps its value if there is no child. *)
Definition wait (st : Z) : proc (Z * Z) :=
  let* r := ITree.trigger Wait in ret* (r.1, if r.1 <? 0 then st else r.2).
Definition wait0 : proc Z := let* r := ITree.trigger Wait in ret* r.1.
Definition pipe : proc (Z * (Z * Z)) := ITree.trigger Pipe.
Definition read (fd n : Z) : proc (Z * list Z) := ITree.trigger (Read fd n).
Definition write (fd : Z) (buf : list Z) (n : Z) : proc Z := ITree.trigger (Write fd (Own buf) n).
Definition close (fd : Z) : proc Z := ITree.trigger (Close fd).
Definition kill (pid : Z) : proc Z := ITree.trigger (Kill pid).
Definition exec (path : list Z) (argv : list (list Z)) : proc Z := ITree.trigger (Exec (Own path) (map Own argv)).
Definition open (path : list Z) (omode : Z) : proc Z := ITree.trigger (Open (Own path) omode).
Definition mknod (path : list Z) (major minor : Z) : proc Z := ITree.trigger (Mknod (Own path) major minor).
Definition unlink (path : list Z) : proc Z := ITree.trigger (Unlink (Own path)).
Definition fstat (fd : Z) : proc (Z * ustat) := ITree.trigger (Fstat fd).
Definition link (old new : list Z) : proc Z := ITree.trigger (Link (Own old) (Own new)).
Definition mkdir (path : list Z) : proc Z := ITree.trigger (Mkdir (Own path)).
Definition chdir (path : list Z) : proc Z := ITree.trigger (Chdir (Own path)).
Definition dup (fd : Z) : proc Z := ITree.trigger (Dup fd).
Definition getpid : proc Z := ITree.trigger Getpid.
Definition pause (n : Z) : proc Z := ITree.trigger (Pause n).
Definition hello : proc Z := ITree.trigger Hello.
Definition getppid : proc Z := ITree.trigger Getppid.
Definition getnumchild : proc Z := ITree.trigger Getnumchild.
Definition getsyscount : proc Z := ITree.trigger Getsyscount.
Definition getchildsyscount (pid : Z) : proc Z := ITree.trigger (Getchildsyscount pid).
Definition getpid2 : proc Z := ITree.trigger Getpid2.

(** ** user/ulib.c *)

(** The first code of every program: main and exit. *)
Definition start (main : proc Z) : proc Empty_set := let* r := main in exit r.

(** [stat]: the result, and what it holds if it is not negative. *)
Definition stat (n : list Z) : proc (Z * ustat) :=
  let* fd := open n O_RDONLY in
  if fd <? 0 then ret* (-1, mkustat 0 0 0 0 0)
  else
    let* r := fstat fd in
    do* close fd;
    ret* r.

Definition sbrk (n : Z) : proc Z := ITree.trigger (Sbrk (i32 n) false).
Definition sbrklazy (n : Z) : proc Z := ITree.trigger (Sbrk (i32 n) true).
Definition SBRK_ERROR : Z := 18446744073709551615.

(** ** user/printf.c *)

(** A literal of C, with backslash n for a newline and backslash t for a tab. *)
Fixpoint unescape (s : list Z) : list Z :=
  match s with
  | c :: s' =>
      match s' with
      | d :: s'' =>
          if (c =? 92) && (d =? 110) then 10 :: unescape s''
          else if (c =? 92) && (d =? 116) then 9 :: unescape s''
          else c :: unescape s'
      | [] => [c]
      end
  | [] => []
  end.
Definition text (s : string) : list Z := unescape (cstr s).

Definition putc (fd c : Z) : proc unit := do* write fd [c] 1; ret* tt.
Fixpoint puts (fd : Z) (bs : list Z) : proc unit :=
  match bs with
  | [] => ret* tt
  | c :: bs' => do* putc fd c; puts fd bs'
  end.
Definition fprintf (fd : Z) (fmt : string) (ap : list parg) : proc unit := puts fd (vprintf (text fmt) ap).
Definition printf (fmt : string) (ap : list parg) : proc unit := fprintf 1 fmt ap.

(** A string printed from an address, byte by byte up to its NUL. *)
Definition puts_at (fd a : Z) : proc unit :=
  ITree.iter (fun a =>
    let* c := ITree.trigger (Load a 1) in
    if c =? 0 then ret* (inr tt) else do* putc fd c; ret* (inl (a + 1))) a.

(** Arguments of printf. *)
Definition pstr (s : list Z) : parg := PStr (Some s).

(** [printf(...); exit(1);] *)
Definition die {A} (fmt : string) (ap : list parg) : proc A := do* printf fmt ap; exit 1.

(** ** Loops *)

(** [for(i = lo; i < lo + n; i++)]. *)
Fixpoint for_ (n : nat) (i : Z) (body : Z -> proc unit) : proc unit :=
  match n with
  | O => ret* tt
  | S n' => do* body i; for_ n' (i + 1) body
  end.

(** The same with variables [s] that the body changes. *)
Fixpoint for_acc {S} (n : nat) (i : Z) (s : S) (body : Z -> S -> proc S) : proc S :=
  match n with
  | O => ret* s
  | Datatypes.S n' => let* s' := body i s in for_acc n' (i + 1) s' body
  end.

(** The same with break: the index at which it happened, or the bound. *)
Fixpoint for_break (n : nat) (i : Z) (body : Z -> proc bool) : proc Z :=
  match n with
  | O => ret* i
  | S n' => let* b := body i in if b then ret* i else for_break n' (i + 1) body
  end.

(** [while(1)] with no way out but exit. *)
Definition forever {A} (body : proc unit) : proc A := ITree.iter (fun _ : unit => do* body; ret* (inl tt)) tt.

(** [while(...)] on variables [s]: the body ends the loop with [inr]. *)
Definition loop {S R} (s : S) (body : S -> proc (S + R)) : proc R := ITree.iter body s.

(** [if(b){ printf(...); exit(1); }] *)
Definition fail_if (b : bool) (fmt : string) (ap : list parg) : proc unit := if b then die fmt ap else ret* tt.

(** A call whose result is not looked at. *)
Definition ignore {A} (m : proc A) : proc unit := do* m; ret* tt.
