(* ===== verification/Programs.v ===== *)
(** * Small user programs

    init, ls, ln, rm, mkdir, kill, zombie, hello, forphan, dorphan, stressfs,
    logstress, forktest, p1_test, p2_test and p3_test of user/, and echo and cat
    as processes, in the language of [Uprog]. *)

From Stdlib Require Import ZArith Lia.
From stdpp Require Import base list strings.
From ITree Require Import ITree.
From S2P Require Import Prelude Params Printf Ulib Uprog.

(** ** user/init.c *)
Definition init_wait (pid : Z) : proc unit :=
  loop tt (fun _ =>
    let* wpid := wait0 in
    if wpid =? pid then ret* (inr tt)
    else if wpid <? 0 then die "init: wait returned an error\n" []
    else ret* (inl tt)).

Definition init_main : proc Z :=
  let* fd := open (text "console") O_RDWR in
  do* (if fd <? 0 then
         do* mknod (text "console") CONSOLE 0;
         do* open (text "console") O_RDWR; ret* tt
       else ret* tt);
  do* dup 0;
  do* dup 0;
  forever
    (do* printf "init: starting sh\n" [];
     let* pid := fork in
     if pid <? 0 then die "init: fork failed\n" []
     else if pid =? 0 then
       do* exec (text "sh") [text "sh"];
       die "init: exec sh failed\n" []
     else init_wait pid).

(** ** user/ls.c *)

(** The bytes after the last slash. *)
Fixpoint after_slash (path : list Z) : list Z :=
  match path with
  | [] => []
  | c :: path' => if existsb (Z.eqb 47) path then after_slash path' else path
  end.
Definition fmtname (path : list Z) : list Z :=
  let p := after_slash path in
  if DIRSIZ <=? Z.of_nat (length p) then p else p ++ replicate (Z.to_nat DIRSIZ - length p) 32.

(** A line of the listing. *)
Definition ls_line (path : list Z) (st : ustat) : proc unit :=
  printf "%s %d %d %d\n" [pstr (fmtname path); PInt (st_type st); PInt (st_ino st); PInt (i32 (st_size st))].

Definition ls (path : list Z) : proc unit :=
  let* fd := open path O_RDONLY in
  if fd <? 0 then fprintf 2 "ls: cannot open %s\n" [pstr path]
  else
    let* '(r, st) := fstat fd in
    if r <? 0 then
      do* fprintf 2 "ls: cannot stat %s\n" [pstr path];
      do* close fd; ret* tt
    else
      do* (if (st_type st =? T_DEVICE) || (st_type st =? T_FILE) then ls_line path st
           else if st_type st =? T_DIR then
             if 512 <? Z.of_nat (length path) + 1 + DIRSIZ + 1 then printf "ls: path too long\n" []
             else
               loop tt (fun _ =>
                 let* '(n, de) := read fd 16 in
                 if negb (n =? 16) then ret* (inr tt)
                 else if le_val (take 2 de) =? 0 then ret* (inl tt)
                 else
                   let buf := path ++ text "/" ++ until_nul (drop 2 de) in
                   let* '(r, st) := stat buf in
                   do* (if r <? 0 then printf "ls: cannot stat %s\n" [pstr buf] else ls_line buf st);
                   ret* (inl tt))
           else ret* tt);
      do* close fd; ret* tt.

(** argv[1], argv[2], ... *)
Fixpoint each {A} (args : list A) (body : A -> proc unit) : proc unit :=
  match args with
  | [] => ret* tt
  | a :: args' => do* body a; each args' body
  end.

Definition ls_main (argv : list (list Z)) : proc Z :=
  match tail argv with
  | [] => do* ls (text "."); exit 0
  | args => do* each args ls; exit 0
  end.

(** atoi of a string. *)
Definition atoi_str (a : list Z) : Z := default 0 (atoi (S (length a)) (aget (a ++ [0])) 0).

(** ** user/kill.c, user/ln.c, user/mkdir.c and user/rm.c *)
Definition kill_main (argv : list (list Z)) : proc Z :=
  match tail argv with
  | [] => do* fprintf 2 "usage: kill pid...\n" []; exit 1
  | args => do* each args (fun a => do* kill (atoi_str a); ret* tt); exit 0
  end.

Definition ln_main (argv : list (list Z)) : proc Z :=
  match argv with
  | [_; old; new] =>
      let* r := link old new in
      do* (if r <? 0 then fprintf 2 "link %s %s: failed\n" [pstr old; pstr new] else ret* tt);
      exit 0
  | _ => do* fprintf 2 "Usage: ln old new\n" []; exit 1
  end.

(** The loop of mkdir and rm over their arguments, which ends at the first
    failure. *)
Fixpoint until_fails (args : list (list Z)) (op : list Z -> proc Z) (msg : string) : proc unit :=
  match args with
  | [] => ret* tt
  | a :: args' =>
      let* r := op a in
      if r <? 0 then fprintf 2 msg [pstr a] else until_fails args' op msg
  end.

Definition mkdir_main (argv : list (list Z)) : proc Z :=
  match tail argv with
  | [] => do* fprintf 2 "Usage: mkdir files...\n" []; exit 1
  | args => do* until_fails args mkdir "mkdir: %s failed to create\n"; exit 0
  end.

Definition rm_main (argv : list (list Z)) : proc Z :=
  match tail argv with
  | [] => do* fprintf 2 "Usage: rm files...\n" []; exit 1
  | args => do* until_fails args unlink "rm: %s failed to delete\n"; exit 0
  end.

(** ** user/zombie.c, user/hello.c, user/forphan.c and user/dorphan.c *)
Definition zombie_main : proc Z :=
  let* pid := fork in
  do* (if 0 <? pid then do* pause 5; ret* tt else ret* tt);
  exit 0.

Definition hello_main (argv : list (list Z)) : proc Z :=
  if 1 <? Z.of_nat (length argv) then
    do* fprintf 2 "Usage: [no inputs required] prints hello by calling a syscall\n" []; exit 1
  else
    do* hello;
    exit 0.

Definition forphan_main (argv : list (list Z)) : proc Z :=
  let s := pstr (hd [] argv) in
  let ff := text "file0" in
  let* fd := open ff (Z.lor O_CREATE O_WRONLY) in
  if fd <? 0 then die "%s: open failed\n" [s]
  else
    let* '(r, st) := fstat fd in
    if r <? 0 then do* fprintf 2 "%s: cannot stat %s\n" [s; pstr (text "ff")]; exit 1
    else
      let* r := unlink ff in
      if r <? 0 then die "%s: unlink failed\n" [s]
      else
        let* r := open ff O_RDONLY in
        if negb (r =? -1) then die "%s: open successed\n" [s]
        else
          do* printf "wait for kill and reclaim %d\n" [PInt (st_ino st)];
          forever (do* pause 1000; ret* tt).

Definition dorphan_main (argv : list (list Z)) : proc Z :=
  let s := pstr (hd [] argv) in
  let* r := mkdir (text "dd") in
  if negb (r =? 0) then die "%s: mkdir dd failed\n" [s]
  else
    let* r := chdir (text "dd") in
    if negb (r =? 0) then die "%s: chdir dd failed\n" [s]
    else
      let* r := unlink (text "../dd") in
      if r <? 0 then die "%s: unlink failed\n" [s]
      else
        do* printf "wait for kill and reclaim\n" [];
        forever (do* pause 1000; ret* tt).

(** ** user/stressfs.c and user/logstress.c *)
Definition stressfs_main : proc Z :=
  let data := replicate 512 97 in
  do* printf "stressfs starting\n" [];
  let* i := for_break 4 0 (fun _ => let* pid := fork in ret* (0 <? pid)) in
  do* printf "write %d\n" [PInt i];
  let path := text "stressfs" ++ [48 + i] in
  let* fd := open path (Z.lor O_CREATE O_RDWR) in
  do* for_ 20 0 (fun _ => do* write fd data 512; ret* tt);
  do* close fd;
  do* printf "read\n" [];
  let* fd := open path O_RDONLY in
  do* for_ 20 0 (fun _ => do* read fd 512; ret* tt);
  do* close fd;
  do* wait0;
  exit 0.

(** The child of logstress that writes the file [name], the [i]-th argument.
    The loop over the writes reuses [i].  The array has 500 bytes and memset
    fills 2000, which are what is written. *)
Definition logstress_child (argv0 name : list Z) (i : Z) : proc unit :=
  let* fd := open name (Z.lor O_CREATE O_RDWR) in
  if fd <? 0 then die "%s: create %s failed\n" [pstr argv0; pstr name]
  else
    let buf := replicate 2000 (u8 (48 + i)) in
    do* for_ 250 0 (fun _ =>
      let* n := write fd buf 2000 in
      if negb (n =? 2000) then die "write failed %d\n" [PInt n] else ret* tt);
    exit 0.

Definition logstress_main (argv : list (list Z)) : proc Z :=
  let argc := Z.of_nat (length argv) in
  let argv0 := hd [] argv in
  do* for_ (Z.to_nat (argc - 1)) 1 (fun i =>
    let* pid := fork in
    if pid <? 0 then die "%s: fork failed\n" [pstr argv0]
    else if pid =? 0 then logstress_child argv0 (aget argv i) i
    else ret* tt);
  do* for_acc (Z.to_nat (argc - 1)) 1 0 (fun _ xstatus =>
    let* '(_, xstatus) := wait xstatus in
    if negb (xstatus =? 0) then exit xstatus else ret* xstatus);
  ret* 0.

(** ** user/forktest.c *)
Definition print (s : string) : proc unit := do* write 1 (text s) (Z.of_nat (length (text s))); ret* tt.

(** Fork until it fails, at most [N] times; the children exit. *)
Definition fork_all (N : nat) : proc Z :=
  for_break N 0 (fun _ =>
    let* pid := fork in
    if pid <? 0 then ret* true
    else if pid =? 0 then exit 0
    else ret* false).

Definition forktest_forktest : proc unit :=
  do* print "fork test\n";
  let* n := fork_all 1000 in
  do* (if n =? 1000 then do* print "fork claimed to work N times!\n"; exit 1 else ret* tt);
  do* for_ (Z.to_nat n) 0 (fun _ =>
    let* w := wait0 in
    if w <? 0 then do* print "wait stopped early\n"; exit 1 else ret* tt);
  let* w := wait0 in
  do* (if negb (w =? -1) then do* print "wait got too many\n"; exit 1 else ret* tt);
  print "fork test OK\n".

Definition forktest_main : proc Z := do* forktest_forktest; exit 0.

(** ** user/echo.c and user/cat.c as processes *)
Fixpoint echo_args (args : list (list Z)) : proc unit :=
  match args with
  | [] => ret* tt
  | a :: args' =>
      do* write 1 a (Z.of_nat (length a));
      do* write 1 (text (match args' with [] => "\n" | _ => " " end)) 1;
      echo_args args'
  end.
Definition echo_main (argv : list (list Z)) : proc Z := do* echo_args (tail argv); exit 0.

Definition cat_fd (fd : Z) : proc unit :=
  loop tt (fun _ =>
    let* '(n, buf) := read fd 512 in
    if 0 <? n then
      let* w := write 1 buf n in
      if negb (w =? n) then do* fprintf 2 "cat: write error\n" []; exit 1 else ret* (inl tt)
    else if n <? 0 then do* fprintf 2 "cat: read error\n" []; exit 1
    else ret* (inr tt)).
Definition cat_proc (argv : list (list Z)) : proc Z :=
  match tail argv with
  | [] => do* cat_fd 0; exit 0
  | args =>
      do* each args (fun a =>
        let* fd := open a O_RDONLY in
        if fd <? 0 then do* fprintf 2 "cat: cannot open %s\n" [pstr a]; exit 1
        else do* cat_fd fd; do* close fd; ret* tt);
      exit 0
  end.

(** ** user/p1_test.c

    The loops that only count are left out: they make no calls.  The array
    [args] has no elements, so that exec reads what follows it: [args] are the
    strings it finds there. *)
Definition p1_children : proc unit :=
  let* me := getpid in
  let* n := getnumchild in
  printf "[PID:%d]\tnum of children: %d\n" [PInt me; PInt n].
Definition p1_main (args : list (list Z)) : proc Z :=
  let* n := getsyscount in
  do* printf "Total syscalls invoked : %d\n" [PInt n];
  let* rc := fork in
  let* syscallcount :=
    if rc =? 0 then
      let* me := getpid in
      let* parent := getppid in
      do* printf "cpid : %d\nppid : %d\n" [PInt me; PInt parent];
      let* r := exec (text "hello") args in
      do* (if r <? 0 then do* fprintf 2 "hello failed\n" []; exit 1 else ret* tt);
      ret* (-2)
    else
      let* count := getchildsyscount rc in
      do* wait0;
      do* p1_children;
      let* c1 := fork in
      do* (if c1 =? 0 then exit 0
           else
             let* c2 := fork in
             do* (if c2 =? 0 then exit 0 else do* p1_children; ignore wait0);
             ignore wait0);
      do* p1_children;
      ret* count in
  do* loop tt (fun _ =>
    let* PID := getppid in
    if PID =? -1 then do* printf "Parent id now INIT\n" []; ret* (inr tt)
    else
      do* printf "Parent PID: %d\n, killing  it ...\n" [PInt PID];
      do* kill PID;
      ret* (inl tt));
  let* n := getsyscount in
  do* printf "Total syscalls invoked : %d\n" [PInt n];
  do* printf "Syscall invoked by child0 : %d\n" [PInt syscallcount];
  let* a := getpid in
  let* b := getpid2 in
  do* (if a =? b then printf "Success! getpid2 working\n" [] else printf "Getpid2 failed\n" []);
  ret* 0.

(** ** user/p2_test.c and user/p3_test.c

    The two calls that report on the scheduler and on the pages of a process
    are arguments. *)
Record mlfqinfo_u := mkmlfqinfo { mi_level : Z; mi_ticks : list Z; mi_times_scheduled : Z; mi_total_syscalls : Z }.
Record vmstats_u := mkvmstats { vs_faults : Z; vs_evicted : Z; vs_in : Z; vs_out : Z; vs_resident : Z }.

Section Reports.
Context (getmlfqinfo : Z -> proc (Z * mlfqinfo_u)) (getvmstats : Z -> proc (Z * vmstats_u)).

Definition print_stats (pid : Z) : proc unit :=
  let* '(r, info) := getmlfqinfo pid in
  if r =? 0 then
    do* printf "\n--- PID:%d STATS ---\n" [PInt pid];
    do* printf "Priority Level: %d\n" [PInt (mi_level info)];
    do* printf "Times Scheduled: %d\n" [PInt (mi_times_scheduled info)];
    printf "Ticks at Levels: [%d, %d, %d, %d]\n" (map (fun i => PInt (aget (mi_ticks info) i)) [0; 1; 2; 3])
  else printf "Could not get info for PID %d\n" [PInt pid].

Definition p2_main : proc Z :=
  let* pid := fork in
  do* (if pid =? 0 then
         do* for_ (N.to_nat 100000) 0 (fun _ => ignore getsyscount);
         let* me := getpid in
         do* print_stats me;
         exit 0
       else ret* tt);
  do* for_ 5 0 (fun _ => ignore fork);
  let* my_pid := getpid in
  do* (if 4 <? my_pid then do* print_stats my_pid; exit 0 else ret* tt);
  do* for_ 32 0 (fun _ => ignore wait0);
  do* printf "\n[FINAL PARENT STATS]" [];
  let* me := getpid in
  do* print_stats me;
  exit 0.

Definition print_vmstats (pid : Z) (label : string) : proc unit :=
  let* '(r, info) := getvmstats pid in
  if r <? 0 then ret* tt
  else
    do* printf "\n--- %s (PID: %d) ---\n" [pstr (text label); PInt pid];
    printf "  Res: %d | Faults: %d | Evicted: %d | Out: %d | In: %d\n"
      [PInt (vs_resident info); PInt (vs_faults info); PInt (vs_evicted info); PInt (vs_out info); PInt (vs_in info)].

Definition TEST_PAGES : nat := 2048.

(** The first and the last byte of page [i] are written, and checked; [m] is
    the factor of the pattern. *)
Definition p3_write (buffer m : Z) : proc unit :=
  for_ TEST_PAGES 0 (fun i =>
    do* ITree.trigger (Store (buffer + i * PGSIZE) 1 (u8 (i * m mod 256)));
    ITree.trigger (Store (buffer + i * PGSIZE + PGSIZE - 1) 1 (u8 (255 - i * m mod 256)))).
Definition p3_verify (buffer m pid : Z) (pass : string) : proc unit :=
  for_ TEST_PAGES 0 (fun i =>
    let expected_head := u8 (i * m mod 256) in
    let expected_tail := u8 (255 - i * m mod 256) in
    let* head := ITree.trigger (Load (buffer + i * PGSIZE) 1) in
    let* bad :=
      if negb (head =? expected_head) then ret* true
      else let* tail := ITree.trigger (Load (buffer + i * PGSIZE + PGSIZE - 1) 1) in ret* (negb (tail =? expected_tail)) in
    if bad : bool then
      do* printf "CRITICAL ERROR PID %d: Data corruption at page %d during %s read!\n" [PInt pid; PInt i; pstr (text pass)];
      let* head := ITree.trigger (Load (buffer + i * PGSIZE) 1) in
      let* tail := ITree.trigger (Load (buffer + i * PGSIZE + PGSIZE - 1) 1) in
      die "Expected [%d, %d], Got [%d, %d]\n" [PInt expected_head; PInt expected_tail; PInt head; PInt tail]
    else ret* tt).

Definition p3_main : proc Z :=
  let* child_pid := fork in
  let* pid := getpid in
  let* buffer := sbrklazy (Z.of_nat TEST_PAGES * PGSIZE) in
  do* fail_if (buffer =? SBRK_ERROR) "PID %d: sbrk failed\n" [PInt pid];
  let* me := getpid in
  do* (if me =? child_pid then ignore (pause 2) else for_ (N.to_nat 1000000) 0 (fun _ => ignore getpid));
  do* printf "PID %d: Step 1 - Writing initial patterns to %d pages...\n" [PInt pid; PInt (Z.of_nat TEST_PAGES)];
  do* p3_write buffer 1;
  do* print_vmstats pid "AFTER FIRST WRITE (Should see Evictions if RAM/Swap is tight)";
  do* p3_verify buffer 1 pid "first";
  do* printf "PID %d: Step 2 - Modifying data to test re-swap integrity...\n" [PInt pid];
  do* p3_write buffer 2;
  do* print_vmstats pid "AFTER SECOND WRITE";
  do* p3_verify buffer 2 pid "second";
  do* print_vmstats pid "FINAL STATE";
  do* printf "\nSUCCESS PID %d: All %d pages verified. Read/Write Integrity maintained.\n" [PInt pid; PInt (Z.of_nat TEST_PAGES)];
  do* (if 0 <? child_pid then ignore wait0 else ret* tt);
  exit 0.
End Reports.
