(* ===== verification/UtBasic.v ===== *)
(** * usertests, first part (user/usertests.c)

    Bad pointers in system calls, truncation, simple files, exec, pipes, and
    the process tests up to mem.  [s] is the name of the test. *)

From Stdlib Require Import ZArith Lia.
From stdpp Require Import base list strings.
From ITree Require Import ITree.
From S2P Require Import Prelude Params Printf Ulib Uprog.

(** char buf[BUFSZ]. *)
Definition BUFSZ : Z := (MAXOPBLOCKS + 2) * BSIZE.

(** for over the elements of an array. *)
Fixpoint over {A} (l : list A) (body : A -> proc unit) : proc unit :=
  match l with
  | [] => ret* tt
  | a :: l' => do* body a; over l' body
  end.

Definition write_at (fd a n : Z) : proc Z := ITree.trigger (Write fd (At a) n).
Definition read_at (fd a n : Z) : proc Z := ITree.trigger (ReadAt fd a n).

(** The flags of open, combined. *)
Definition CW : Z := Z.lor O_CREATE O_WRONLY.
Definition CRW : Z := Z.lor O_CREATE O_RDWR.
Definition CWT : Z := Z.lor CW O_TRUNC.

Definition bad_addrs : list Z := [0x80000000; 0x3fffffe000; 0x3ffffff000; 0x4000000000; 0xffffffffffffffff].

Definition copyin (s : list Z) : proc unit :=
  over bad_addrs (fun addr =>
    let* fd := open (text "copyin1") CW in
    do* fail_if (fd <? 0) "open(copyin1) failed\n" [];
    let* n := write_at fd addr 8192 in
    do* fail_if (0 <=? n) "write(fd, %p, 8192) returned %d, not -1\n" [PInt addr; PInt n];
    do* close fd;
    do* unlink (text "copyin1");
    let* n := write_at 1 addr 8192 in
    do* fail_if (0 <? n) "write(1, %p, 8192) returned %d, not -1 or 0\n" [PInt addr; PInt n];
    let* '(r, (fds0, fds1)) := pipe in
    do* fail_if (r <? 0) "pipe() failed\n" [];
    let* n := write_at fds1 addr 8192 in
    do* fail_if (0 <? n) "write(pipe, %p, 8192) returned %d, not -1 or 0\n" [PInt addr; PInt n];
    do* close fds0;
    ignore (close fds1)).

Definition copyout (s : list Z) : proc unit :=
  over (0 :: bad_addrs) (fun addr =>
    let* fd := open (text "README") 0 in
    do* fail_if (fd <? 0) "open(README) failed\n" [];
    let* n := read_at fd addr 8192 in
    do* fail_if (0 <? n) "read(fd, %p, 8192) returned %d, not -1 or 0\n" [PInt addr; PInt n];
    do* close fd;
    let* '(r, (fds0, fds1)) := pipe in
    do* fail_if (r <? 0) "pipe() failed\n" [];
    let* n := write fds1 (text "x") 1 in
    do* fail_if (negb (n =? 1)) "pipe write failed\n" [];
    let* n := read_at fds0 addr 8192 in
    do* fail_if (0 <? n) "read(pipe, %p, 8192) returned %d, not -1 or 0\n" [PInt addr; PInt n];
    do* close fds0;
    ignore (close fds1)).

Definition copyinstr1 (s : list Z) : proc unit :=
  over bad_addrs (fun addr =>
    let* fd := ITree.trigger (Open (At addr) CW) in
    fail_if (0 <=? fd) "open(%p) returned %d, not -1\n" [PInt addr; PInt fd]).

Definition copyinstr2 (s : list Z) : proc unit :=
  let b := replicate (Z.to_nat MAXPATH) 120 in
  let* ret := unlink b in
  do* fail_if (negb (ret =? -1)) "unlink(%s) returned %d, not -1\n" [pstr b; PInt ret];
  let* fd := open b CW in
  do* fail_if (negb (fd =? -1)) "open(%s) returned %d, not -1\n" [pstr b; PInt fd];
  let* ret := link b b in
  do* fail_if (negb (ret =? -1)) "link(%s, %s) returned %d, not -1\n" [pstr b; pstr b; PInt ret];
  let* ret := exec b [text "xx"] in
  do* fail_if (negb (ret =? -1)) "exec(%s) returned %d, not -1\n" [pstr b; PInt fd];
  let* pid := fork in
  do* fail_if (pid <? 0) "fork failed\n" [];
  do* (if pid =? 0 then
         let big := replicate (Z.to_nat PGSIZE) 120 in
         let* ret := exec (text "echo") [big; big; big] in
         do* fail_if (negb (ret =? -1)) "exec(echo, BIG) returned %d, not -1\n" [PInt fd];
         exit 747
       else ret* tt);
  let* '(_, st) := wait 0 in
  fail_if (negb (st =? 747)) "exec(echo, BIG) succeeded, should have failed\n" [].

Definition copyinstr3 (s : list Z) : proc unit :=
  do* sbrk 8192;
  let* top := sbrk 0 in
  do* (if negb (top mod PGSIZE =? 0) then ignore (sbrk (PGSIZE - top mod PGSIZE)) else ret* tt);
  let* top := sbrk 0 in
  do* fail_if (negb (top mod PGSIZE =? 0)) "oops\n" [];
  let b := top - 1 in
  do* ITree.trigger (Store b 1 120);
  let* ret := ITree.trigger (Unlink (At b)) in
  do* (if negb (ret =? -1) then
         do* printf "unlink(" []; do* puts_at 1 b; die ") returned %d, not -1\n" [PInt ret]
       else ret* tt);
  let* fd := ITree.trigger (Open (At b) CW) in
  do* (if negb (fd =? -1) then
         do* printf "open(" []; do* puts_at 1 b; die ") returned %d, not -1\n" [PInt fd]
       else ret* tt);
  let* ret := ITree.trigger (Link (At b) (At b)) in
  do* (if negb (ret =? -1) then
         do* printf "link(" []; do* puts_at 1 b; do* printf ", " []; do* puts_at 1 b;
         die ") returned %d, not -1\n" [PInt ret]
       else ret* tt);
  let* ret := ITree.trigger (Exec (At b) [Own (text "xx")]) in
  if negb (ret =? -1) then
    do* printf "exec(" []; do* puts_at 1 b; die ") returned %d, not -1\n" [PInt fd]
  else ret* tt.

Definition rwsbrk (s : list Z) : proc unit :=
  let* a := sbrk 8192 in
  do* fail_if (a =? SBRK_ERROR) "sbrk(rwsbrk) failed\n" [];
  let* r := sbrk (-8192) in
  do* fail_if (r =? SBRK_ERROR) "sbrk(rwsbrk) shrink failed\n" [];
  let* fd := open (text "rwsbrk") CW in
  do* fail_if (fd <? 0) "open(rwsbrk) failed\n" [];
  let* n := write_at fd (a + PGSIZE) 1024 in
  do* fail_if (0 <=? n) "write(fd, %p, 1024) returned %d, not -1\n" [PInt (a + PGSIZE); PInt n];
  do* close fd;
  do* unlink (text "rwsbrk");
  let* fd := open (text "README") O_RDONLY in
  do* fail_if (fd <? 0) "open(README) failed\n" [];
  let* n := read_at fd (a + PGSIZE) 10 in
  do* fail_if (0 <=? n) "read(fd, %p, 10) returned %d, not -1\n" [PInt (a + PGSIZE); PInt n];
  do* close fd;
  exit 0.

Definition truncate1 (s : list Z) : proc unit :=
  let f := text "truncfile" in
  do* unlink f;
  let* fd1 := open f CWT in
  do* write fd1 (text "abcd") 4;
  do* close fd1;
  let* fd2 := open f O_RDONLY in
  let* '(n, _) := read fd2 32 in
  do* fail_if (negb (n =? 4)) "%s: read %d bytes, wanted 4\n" [pstr s; PInt n];
  let* fd1 := open f (Z.lor O_WRONLY O_TRUNC) in
  let* fd3 := open f O_RDONLY in
  let* '(n, _) := read fd3 32 in
  do* (if negb (n =? 0) then
         do* printf "aaa fd3=%d\n" [PInt fd3];
         die "%s: read %d bytes, wanted 0\n" [pstr s; PInt n]
       else ret* tt);
  let* '(n, _) := read fd2 32 in
  do* (if negb (n =? 0) then
         do* printf "bbb fd2=%d\n" [PInt fd2];
         die "%s: read %d bytes, wanted 0\n" [pstr s; PInt n]
       else ret* tt);
  do* write fd1 (text "abcdef") 6;
  let* '(n, _) := read fd3 32 in
  do* fail_if (negb (n =? 6)) "%s: read %d bytes, wanted 6\n" [pstr s; PInt n];
  let* '(n, _) := read fd2 32 in
  do* fail_if (negb (n =? 2)) "%s: read %d bytes, wanted 2\n" [pstr s; PInt n];
  do* unlink f;
  do* close fd1;
  do* close fd2;
  ignore (close fd3).

Definition truncate2 (s : list Z) : proc unit :=
  let f := text "truncfile" in
  do* unlink f;
  let* fd1 := open f CWT in
  do* write fd1 (text "abcd") 4;
  let* fd2 := open f (Z.lor O_TRUNC O_WRONLY) in
  let* n := write fd1 (text "x") 1 in
  do* fail_if (negb (n =? -1)) "%s: write returned %d, expected -1\n" [pstr s; PInt n];
  do* unlink f;
  do* close fd1;
  ignore (close fd2).

Definition truncate3 (s : list Z) : proc unit :=
  let f := text "truncfile" in
  let* fd := open f CWT in
  do* close fd;
  let* pid := fork in
  do* fail_if (pid <? 0) "%s: fork failed\n" [pstr s];
  do* (if pid =? 0 then
         do* for_ 100 0 (fun _ =>
           let* fd := open f O_WRONLY in
           do* fail_if (fd <? 0) "%s: open failed\n" [pstr s];
           let* n := write fd (text "1234567890") 10 in
           do* fail_if (negb (n =? 10)) "%s: write got %d, expected 10\n" [pstr s; PInt n];
           do* close fd;
           let* fd := open f O_RDONLY in
           do* read fd 32;
           ignore (close fd));
         exit 0
       else ret* tt);
  do* for_ 150 0 (fun _ =>
    let* fd := open f CWT in
    do* fail_if (fd <? 0) "%s: open failed\n" [pstr s];
    let* n := write fd (text "xxx") 3 in
    do* fail_if (negb (n =? 3)) "%s: write got %d, expected 3\n" [pstr s; PInt n];
    ignore (close fd));
  let* '(_, xstatus) := wait 0 in
  do* unlink f;
  exit xstatus.

Definition iputtest (s : list Z) : proc unit :=
  let* r := mkdir (text "iputdir") in
  do* fail_if (r <? 0) "%s: mkdir failed\n" [pstr s];
  let* r := chdir (text "iputdir") in
  do* fail_if (r <? 0) "%s: chdir iputdir failed\n" [pstr s];
  let* r := unlink (text "../iputdir") in
  do* fail_if (r <? 0) "%s: unlink ../iputdir failed\n" [pstr s];
  let* r := chdir (text "/") in
  fail_if (r <? 0) "%s: chdir / failed\n" [pstr s].

Definition exitiputtest (s : list Z) : proc unit :=
  let* pid := fork in
  do* fail_if (pid <? 0) "%s: fork failed\n" [pstr s];
  do* (if pid =? 0 then
         let* r := mkdir (text "iputdir") in
         do* fail_if (r <? 0) "%s: mkdir failed\n" [pstr s];
         let* r := chdir (text "iputdir") in
         do* fail_if (r <? 0) "%s: child chdir failed\n" [pstr s];
         let* r := unlink (text "../iputdir") in
         do* fail_if (r <? 0) "%s: unlink ../iputdir failed\n" [pstr s];
         exit 0
       else ret* tt);
  let* '(_, xstatus) := wait 0 in
  exit xstatus.

Definition openiputtest (s : list Z) : proc unit :=
  let* r := mkdir (text "oidir") in
  do* fail_if (r <? 0) "%s: mkdir oidir failed\n" [pstr s];
  let* pid := fork in
  do* fail_if (pid <? 0) "%s: fork failed\n" [pstr s];
  do* (if pid =? 0 then
         let* fd := open (text "oidir") O_RDWR in
         do* fail_if (0 <=? fd) "%s: open directory for write succeeded\n" [pstr s];
         exit 0
       else ret* tt);
  do* pause 1;
  let* r := unlink (text "oidir") in
  do* fail_if (negb (r =? 0)) "%s: unlink failed\n" [pstr s];
  let* '(_, xstatus) := wait 0 in
  exit xstatus.

Definition opentest (s : list Z) : proc unit :=
  let* fd := open (text "echo") 0 in
  do* fail_if (fd <? 0) "%s: open echo failed!\n" [pstr s];
  do* close fd;
  let* fd := open (text "doesnotexist") 0 in
  fail_if (0 <=? fd) "%s: open doesnotexist succeeded!\n" [pstr s].

Definition writetest (s : list Z) : proc unit :=
  let* fd := open (text "small") CRW in
  do* fail_if (fd <? 0) "%s: error: creat small failed!\n" [pstr s];
  do* for_ 100 0 (fun i =>
    let* r := write fd (text "aaaaaaaaaa") 10 in
    do* fail_if (negb (r =? 10)) "%s: error: write aa %d new file failed\n" [pstr s; PInt i];
    let* r := write fd (text "bbbbbbbbbb") 10 in
    fail_if (negb (r =? 10)) "%s: error: write bb %d new file failed\n" [pstr s; PInt i]);
  do* close fd;
  let* fd := open (text "small") O_RDONLY in
  do* fail_if (fd <? 0) "%s: error: open small failed!\n" [pstr s];
  let* '(i, _) := read fd 2000 in
  do* fail_if (negb (i =? 2000)) "%s: read failed\n" [pstr s];
  do* close fd;
  let* r := unlink (text "small") in
  fail_if (r <? 0) "%s: unlink small failed\n" [pstr s].

(** The first int of a buffer. *)
Definition int_at (buf : list Z) : Z := i32 (le_val (take 4 buf)).

Definition writebig (s : list Z) : proc unit :=
  let* fd := open (text "big") CRW in
  do* fail_if (fd <? 0) "%s: error: creat big failed!\n" [pstr s];
  do* for_ (Z.to_nat MAXFILE) 0 (fun i =>
    let buf := le_bytes 4 i ++ replicate (Z.to_nat BSIZE - 4) 0 in
    let* r := write fd buf BSIZE in
    fail_if (negb (r =? BSIZE)) "%s: error: write big file failed i=%d\n" [pstr s; PInt i]);
  do* close fd;
  let* fd := open (text "big") O_RDONLY in
  do* fail_if (fd <? 0) "%s: error: open big failed!\n" [pstr s];
  do* loop 0 (fun n =>
    let* '(i, buf) := read fd BSIZE in
    if i =? 0 then
      do* fail_if (negb (n =? MAXFILE)) "%s: read only %d blocks from big" [pstr s; PInt n];
      ret* (inr tt)
    else
      do* fail_if (negb (i =? BSIZE)) "%s: read failed %d\n" [pstr s; PInt i];
      do* fail_if (negb (int_at buf =? n)) "%s: read content of block %d is %d\n" [pstr s; PInt n; PInt (int_at buf)];
      ret* (inl (n + 1)));
  do* close fd;
  let* r := unlink (text "big") in
  fail_if (r <? 0) "%s: unlink big failed\n" [pstr s].

Definition createtest (s : list Z) : proc unit :=
  let name i := text "a" ++ [48 + i] in
  do* for_ 52 0 (fun i => let* fd := open (name i) CRW in ignore (close fd));
  for_ 52 0 (fun i => ignore (unlink (name i))).

Definition dirtest (s : list Z) : proc unit :=
  let* r := mkdir (text "dir0") in
  do* fail_if (r <? 0) "%s: mkdir failed\n" [pstr s];
  let* r := chdir (text "dir0") in
  do* fail_if (r <? 0) "%s: chdir dir0 failed\n" [pstr s];
  let* r := chdir (text "..") in
  do* fail_if (r <? 0) "%s: chdir .. failed\n" [pstr s];
  let* r := unlink (text "dir0") in
  fail_if (r <? 0) "%s: unlink dir0 failed\n" [pstr s].

Definition exectest (s : list Z) : proc unit :=
  let f := text "echo-ok" in
  do* unlink f;
  let* pid := fork in
  do* fail_if (pid <? 0) "%s: fork failed\n" [pstr s];
  do* (if pid =? 0 then
         do* close 1;
         let* fd := open f CW in
         do* fail_if (fd <? 0) "%s: create failed\n" [pstr s];
         do* fail_if (negb (fd =? 1)) "%s: wrong fd\n" [pstr s];
         let* r := exec (text "echo") [text "echo"; text "OK"] in
         fail_if (r <? 0) "%s: exec echo failed\n" [pstr s]
       else ret* tt);
  let* '(w, xstatus) := wait 0 in
  do* (if negb (w =? pid) then printf "%s: wait failed!\n" [pstr s] else ret* tt);
  do* (if negb (xstatus =? 0) then exit xstatus else ret* tt);
  let* fd := open f O_RDONLY in
  do* fail_if (fd <? 0) "%s: open failed\n" [pstr s];
  let* '(r, buf) := read fd 2 in
  do* fail_if (negb (r =? 2)) "%s: read failed\n" [pstr s];
  do* unlink f;
  if bool_decide (buf = text "OK") then exit 0 else die "%s: wrong output\n" [pstr s].

(** The bytes seq, seq + 1, ... *)
Definition seq_bytes (seq n : Z) : list Z := map u8 (seqZ seq n).

Definition pipe1 (s : list Z) : proc unit :=
  let* '(r, (fds0, fds1)) := pipe in
  do* fail_if (negb (r =? 0)) "%s: pipe() failed\n" [pstr s];
  let* pid := fork in
  if pid =? 0 then
    do* close fds0;
    do* for_ 5 0 (fun n =>
      let* w := write fds1 (seq_bytes (n * 1033) 1033) 1033 in
      fail_if (negb (w =? 1033)) "%s: pipe1 oops 1\n" [pstr s]);
    exit 0
  else if 0 <? pid then
    do* close fds1;
    let* total := loop (0, 0, 1) (fun '(seq, total, cc) =>
      let* '(n, buf) := read fds0 cc in
      if 0 <? n then
        if bool_decide (buf = seq_bytes seq n) then
          let cc := if BUFSZ <? cc * 2 then BUFSZ else cc * 2 in
          ret* (inl (seq + n, total + n, cc))
        else ret* (inr None)
      else ret* (inr (Some total))) in
    match total with
    | None => printf "%s: pipe1 oops 2\n" [pstr s]
    | Some total =>
        do* fail_if (negb (total =? 5 * 1033)) "%s: pipe1 oops 3 total %d\n" [pstr s; PInt total];
        do* close fds0;
        let* '(_, xstatus) := wait 0 in
        exit xstatus
    end
  else die "%s: fork() failed\n" [pstr s].

Definition killstatus (s : list Z) : proc unit :=
  do* for_acc 100 0 0 (fun _ xst =>
    let* pid1 := fork in
    do* fail_if (pid1 <? 0) "%s: fork failed\n" [pstr s];
    if pid1 =? 0 then forever (ignore getpid)
    else
      do* pause 1;
      do* kill pid1;
      let* '(_, xst) := wait xst in
      do* fail_if (negb (xst =? -1)) "%s: status should be -1\n" [pstr s];
      ret* xst);
  exit 0.

Definition preempt (s : list Z) : proc unit :=
  let* pid1 := fork in
  do* fail_if (pid1 <? 0) "%s: fork failed" [pstr s];
  if pid1 =? 0 then ITree.spin
  else
    let* pid2 := fork in
    do* fail_if (pid2 <? 0) "%s: fork failed\n" [pstr s];
    if pid2 =? 0 then ITree.spin
    else
      let* '(_, (pfds0, pfds1)) := pipe in
      let* pid3 := fork in
      do* fail_if (pid3 <? 0) "%s: fork failed\n" [pstr s];
      if pid3 =? 0 then
        do* close pfds0;
        let* w := write pfds1 (text "x") 1 in
        do* (if negb (w =? 1) then printf "%s: preempt write error" [pstr s] else ret* tt);
        do* close pfds1;
        ITree.spin
      else
        do* close pfds1;
        let* '(r, _) := read pfds0 BUFSZ in
        if negb (r =? 1) then printf "%s: preempt read error" [pstr s]
        else
          do* close pfds0;
          do* printf "kill... " [];
          do* kill pid1;
          do* kill pid2;
          do* kill pid3;
          do* printf "wait... " [];
          do* wait0;
          do* wait0;
          ignore wait0.

Definition exitwait (s : list Z) : proc unit :=
  for_ 100 0 (fun i =>
    let* pid := fork in
    do* fail_if (pid <? 0) "%s: fork failed\n" [pstr s];
    if negb (pid =? 0) then
      let* '(w, xstate) := wait 0 in
      do* fail_if (negb (w =? pid)) "%s: wait wrong pid\n" [pstr s];
      fail_if (negb (i =? xstate)) "%s: wait wrong exit status\n" [pstr s]
    else exit i).

Definition reparent (s : list Z) : proc unit :=
  let* master_pid := getpid in
  do* for_ 200 0 (fun _ =>
    let* pid := fork in
    do* fail_if (pid <? 0) "%s: fork failed\n" [pstr s];
    if negb (pid =? 0) then
      let* w := wait0 in
      fail_if (negb (w =? pid)) "%s: wait wrong pid\n" [pstr s]
    else
      let* pid2 := fork in
      do* (if pid2 <? 0 then do* kill master_pid; exit 1 else ret* tt);
      exit 0);
  exit 0.

Definition twochildren (s : list Z) : proc unit :=
  for_ 1000 0 (fun _ =>
    let* pid1 := fork in
    do* fail_if (pid1 <? 0) "%s: fork failed\n" [pstr s];
    if pid1 =? 0 then exit 0
    else
      let* pid2 := fork in
      do* fail_if (pid2 <? 0) "%s: fork failed\n" [pstr s];
      if pid2 =? 0 then exit 0
      else
        do* wait0;
        ignore wait0).

Definition forkfork (s : list Z) : proc unit :=
  do* for_ 2 0 (fun _ =>
    let* pid := fork in
    do* fail_if (pid <? 0) "%s: fork failed" [pstr s];
    if pid =? 0 then
      do* for_ 200 0 (fun _ =>
        let* pid1 := fork in
        do* (if pid1 <? 0 then exit 1 else ret* tt);
        if pid1 =? 0 then exit 0 else ignore wait0);
      exit 0
    else ret* tt);
  do* for_acc 2 0 0 (fun _ xstatus =>
    let* '(_, xstatus) := wait xstatus in
    do* fail_if (negb (xstatus =? 0)) "%s: fork in child failed" [pstr s];
    ret* xstatus);
  ret* tt.

Definition forkforkfork (s : list Z) : proc unit :=
  let f := text "stopforking" in
  do* unlink f;
  let* pid := fork in
  do* fail_if (pid <? 0) "%s: fork failed" [pstr s];
  do* (if pid =? 0 then
         forever
           (let* fd := open f 0 in
            do* (if 0 <=? fd then exit 0 else ret* tt);
            let* r := fork in
            if r <? 0 then let* fd := open f CRW in ignore (close fd) else ret* tt)
       else ret* tt);
  do* pause 20;
  let* fd := open f CRW in
  do* close fd;
  do* wait0;
  ignore (pause 10).

Definition reparent2 (s : list Z) : proc unit :=
  do* for_ 800 0 (fun _ =>
    let* pid1 := fork in
    do* fail_if (pid1 <? 0) "fork failed\n" [];
    do* (if pid1 =? 0 then do* fork; do* fork; exit 0 else ret* tt);
    ignore wait0);
  exit 0.

(** The allocator of user/umalloc.c is an argument. *)
Definition mem (malloc : Z -> proc Z) (free : Z -> proc unit) (s : list Z) : proc unit :=
  let* pid := fork in
  if pid =? 0 then
    let* m1 := loop 0 (fun m1 =>
      let* m2 := malloc 10001 in
      if negb (m2 =? 0) then do* ITree.trigger (Store m2 8 m1); ret* (inl m2)
      else ret* (inr m1)) in
    do* loop m1 (fun m1 =>
      if negb (m1 =? 0) then
        let* m2 := ITree.trigger (Load m1 8) in
        do* free m1;
        ret* (inl m2)
      else ret* (inr tt));
    let* m1 := malloc (1024 * 20) in
    do* fail_if (m1 =? 0) "%s: couldn't allocate mem?!!\n" [pstr s];
    do* free m1;
    exit 0
  else
    let* '(_, xstatus) := wait 0 in
    if xstatus =? -1 then exit 0 else exit xstatus.
