(* ===== verification/UtFiles.v ===== *)
(** * usertests, second part (user/usertests.c)

    Tests of files and directories, from sharedfd to forktest. *)

From Stdlib Require Import ZArith Lia.
From stdpp Require Import base list strings.
From ITree Require Import ITree.
From S2P Require Import Prelude Params Printf Ulib Uprog Programs UtBasic.

Definition count (c : Z) (buf : list Z) : Z := Z.of_nat (length (filter (fun x => x = c) buf)).

(** The loop that counts looks at all ten bytes of the buffer after every
    read; a read that is shorter leaves the bytes of the one before. *)
Definition sharedfd (s : list Z) : proc unit :=
  let f := text "sharedfd" in
  do* unlink f;
  let* fd := open f CRW in
  do* fail_if (fd <? 0) "%s: cannot open sharedfd for writing" [pstr s];
  let* pid := fork in
  let buf := replicate 10 (if pid =? 0 then 99 else 112) in
  do* for_ 1000 0 (fun _ =>
    let* w := write fd buf 10 in
    fail_if (negb (w =? 10)) "%s: write sharedfd failed\n" [pstr s]);
  do* (if pid =? 0 then exit 0
       else
         let* '(_, xstatus) := wait 0 in
         if negb (xstatus =? 0) then exit xstatus else ret* tt);
  do* close fd;
  let* fd := open f 0 in
  do* fail_if (fd <? 0) "%s: cannot open sharedfd for reading\n" [pstr s];
  let* '(nc, np) := loop (0, 0, buf) (fun '(nc, np, buf) =>
    let* '(n, bs) := read fd 10 in
    if 0 <? n then
      let buf := bs ++ drop (length bs) buf in
      ret* (inl (nc + count 99 buf, np + count 112 buf, buf))
    else ret* (inr (nc, np))) in
  do* close fd;
  do* unlink f;
  if (nc =? 10000) && (np =? 10000) then exit 0 else die "%s: nc/np test fails\n" [pstr s].

Definition fourfiles (s : list Z) : proc unit :=
  let name i := text "f" ++ [48 + i] in
  do* for_ 4 0 (fun pi =>
    do* unlink (name pi);
    let* pid := fork in
    do* fail_if (pid <? 0) "%s: fork failed\n" [pstr s];
    if pid =? 0 then
      let* fd := open (name pi) CRW in
      do* fail_if (fd <? 0) "%s: create failed\n" [pstr s];
      let buf := replicate 500 (48 + pi) in
      do* for_ 12 0 (fun _ =>
        let* n := write fd buf 500 in
        fail_if (negb (n =? 500)) "write failed %d\n" [PInt n]);
      exit 0
    else ret* tt);
  do* for_acc 4 0 0 (fun _ xstatus =>
    let* '(_, xstatus) := wait xstatus in
    if negb (xstatus =? 0) then exit xstatus else ret* xstatus);
  for_ 4 0 (fun i =>
    let* fd := open (name i) 0 in
    let* total := loop 0 (fun total =>
      let* '(n, buf) := read fd BUFSZ in
      if 0 <? n then
        do* fail_if (negb (forallb (Z.eqb (48 + i)) buf)) "%s: wrong char\n" [pstr s];
        ret* (inl (total + n))
      else ret* (inr total)) in
    do* close fd;
    do* fail_if (negb (total =? 12 * 500)) "wrong length %d\n" [PInt total];
    ignore (unlink (name i))).

Definition createdelete (s : list Z) : proc unit :=
  let name pi i := [112 + pi; 48 + i] in
  do* for_ 4 0 (fun pi =>
    let* pid := fork in
    do* fail_if (pid <? 0) "%s: fork failed\n" [pstr s];
    if pid =? 0 then
      do* for_ 20 0 (fun i =>
        let* fd := open (name pi i) CRW in
        do* fail_if (fd <? 0) "%s: create failed\n" [pstr s];
        do* close fd;
        if (0 <? i) && (i mod 2 =? 0) then
          let* r := unlink (name pi (i / 2)) in
          fail_if (r <? 0) "%s: unlink failed\n" [pstr s]
        else ret* tt);
      exit 0
    else ret* tt);
  do* for_acc 4 0 0 (fun _ xstatus =>
    let* '(_, xstatus) := wait xstatus in
    if negb (xstatus =? 0) then exit 1 else ret* xstatus);
  do* for_ 20 0 (fun i =>
    for_ 4 0 (fun pi =>
      let* fd := open (name pi i) 0 in
      do* (if ((i =? 0) || (10 <=? i)) && (fd <? 0) then die "%s: oops createdelete %s didn't exist\n" [pstr s; pstr (name pi i)]
           else fail_if ((1 <=? i) && (i <? 10) && (0 <=? fd)) "%s: oops createdelete %s did exist\n" [pstr s; pstr (name pi i)]);
      if 0 <=? fd then ignore (close fd) else ret* tt));
  for_ 20 0 (fun i => for_ 4 0 (fun pi => ignore (unlink (name pi i)))).

Definition unlinkread (s : list Z) : proc unit :=
  let f := text "unlinkread" in
  let* fd := open f CRW in
  do* fail_if (fd <? 0) "%s: create unlinkread failed\n" [pstr s];
  do* write fd (text "hello") 5;
  do* close fd;
  let* fd := open f O_RDWR in
  do* fail_if (fd <? 0) "%s: open unlinkread failed\n" [pstr s];
  let* r := unlink f in
  do* fail_if (negb (r =? 0)) "%s: unlink unlinkread failed\n" [pstr s];
  let* fd1 := open f CRW in
  do* write fd1 (text "yyy") 3;
  do* close fd1;
  let* '(r, bs) := read fd BUFSZ in
  let buf := bs ++ replicate (10 - length bs) 0 in
  do* fail_if (negb (r =? 5)) "%s: unlinkread read failed" [pstr s];
  do* fail_if (negb (aget buf 0 =? 104)) "%s: unlinkread wrong data\n" [pstr s];
  let* w := write fd buf 10 in
  do* fail_if (negb (w =? 10)) "%s: unlinkread write failed\n" [pstr s];
  do* close fd;
  ignore (unlink f).

Definition linktest (s : list Z) : proc unit :=
  let lf1 := text "lf1" in
  let lf2 := text "lf2" in
  do* unlink lf1;
  do* unlink lf2;
  let* fd := open lf1 CRW in
  do* fail_if (fd <? 0) "%s: create lf1 failed\n" [pstr s];
  let* w := write fd (text "hello") 5 in
  do* fail_if (negb (w =? 5)) "%s: write lf1 failed\n" [pstr s];
  do* close fd;
  let* r := link lf1 lf2 in
  do* fail_if (r <? 0) "%s: link lf1 lf2 failed\n" [pstr s];
  do* unlink lf1;
  let* r := open lf1 0 in
  do* fail_if (0 <=? r) "%s: unlinked lf1 but it is still there!\n" [pstr s];
  let* fd := open lf2 0 in
  do* fail_if (fd <? 0) "%s: open lf2 failed\n" [pstr s];
  let* '(r, _) := read fd BUFSZ in
  do* fail_if (negb (r =? 5)) "%s: read lf2 failed\n" [pstr s];
  do* close fd;
  let* r := link lf2 lf2 in
  do* fail_if (0 <=? r) "%s: link lf2 lf2 succeeded! oops\n" [pstr s];
  do* unlink lf2;
  let* r := link lf2 lf1 in
  do* fail_if (0 <=? r) "%s: link non-existent succeeded! oops\n" [pstr s];
  let* r := link (text ".") lf1 in
  fail_if (0 <=? r) "%s: link . lf1 succeeded! oops\n" [pstr s].

(** The entry of a directory: an inode number and a name. *)
Definition de_inum (de : list Z) : Z := le_val (take 2 de).
Definition de_name (de : list Z) : list Z := drop 2 de.

Definition concreate (s : list Z) : proc unit :=
  let file i := text "C" ++ [48 + i] in
  do* for_ 40 0 (fun i =>
    do* unlink (file i);
    let* pid := fork in
    do* (if negb (pid =? 0) && (i mod 3 =? 1) then ignore (link (text "C0") (file i))
         else if (pid =? 0) && (i mod 5 =? 1) then ignore (link (text "C0") (file i))
         else
           let* fd := open (file i) CRW in
           do* fail_if (fd <? 0) "concreate create %s failed\n" [pstr (file i)];
           ignore (close fd));
    if pid =? 0 then exit 0
    else
      let* '(_, xstatus) := wait 0 in
      if negb (xstatus =? 0) then exit 1 else ret* tt);
  let* fd := open (text ".") 0 in
  let* n := loop (replicate 40 0, 0) (fun '(fa, n) =>
    let* '(r, de) := read fd 16 in
    if 0 <? r then
      if de_inum de =? 0 then ret* (inl (fa, n))
      else if (aget (de_name de) 0 =? 67) && (aget (de_name de) 2 =? 0) then
        let i := aget (de_name de) 1 - 48 in
        do* fail_if ((i <? 0) || (40 <=? i)) "%s: concreate weird file %s\n" [pstr s; pstr (until_nul (de_name de))];
        do* fail_if (negb (aget fa i =? 0)) "%s: concreate duplicate file %s\n" [pstr s; pstr (until_nul (de_name de))];
        ret* (inl (aset i 1 fa, n + 1))
      else ret* (inl (fa, n))
    else ret* (inr n)) in
  do* close fd;
  do* fail_if (negb (n =? 40)) "%s: concreate not enough files in directory listing\n" [pstr s];
  for_ 40 0 (fun i =>
    let* pid := fork in
    do* fail_if (pid <? 0) "%s: fork failed\n" [pstr s];
    do* (if ((i mod 3 =? 0) && (pid =? 0)) || ((i mod 3 =? 1) && negb (pid =? 0)) then
           for_ 6 0 (fun _ => let* fd := open (file i) 0 in ignore (close fd))
         else for_ 6 0 (fun _ => ignore (unlink (file i))));
    if pid =? 0 then exit 0 else ignore wait0).

Definition linkunlink (s : list Z) : proc unit :=
  do* unlink (text "x");
  let* pid := fork in
  do* fail_if (pid <? 0) "%s: fork failed\n" [pstr s];
  do* for_acc 100 0 (if pid =? 0 then 97 else 1) (fun _ x =>
    let x := u32 (x * 1103515245 + 12345) in
    do* (if x mod 3 =? 0 then let* fd := open (text "x") CRW in ignore (close fd)
         else if x mod 3 =? 1 then ignore (link (text "cat") (text "x"))
         else ignore (unlink (text "x")));
    ret* x);
  if negb (pid =? 0) then ignore wait0 else exit 0.

(** Calls of subdir that must fail, or succeed: the call, and the message. *)
Definition must (good : Z -> bool) (call : proc Z) (fmt : string) (s : list Z) : proc unit :=
  let* r := call in fail_if (negb (good r)) fmt [pstr s].
Definition is0 (r : Z) : bool := r =? 0.
Definition not0 (r : Z) : bool := negb (r =? 0).
Definition neg (r : Z) : bool := r <? 0.
Definition nonneg (r : Z) : bool := 0 <=? r.

Definition subdir (s : list Z) : proc unit :=
  do* unlink (text "ff");
  do* must is0 (mkdir (text "dd")) "%s: mkdir dd failed\n" s;
  let* fd := open (text "dd/ff") CRW in
  do* fail_if (fd <? 0) "%s: create dd/ff failed\n" [pstr s];
  do* write fd (text "ff") 2;
  do* close fd;
  do* must neg (unlink (text "dd")) "%s: unlink dd (non-empty dir) succeeded!\n" s;
  do* must is0 (mkdir (text "/dd/dd")) "%s: subdir mkdir dd/dd failed\n" s;
  let* fd := open (text "dd/dd/ff") CRW in
  do* fail_if (fd <? 0) "%s: create dd/dd/ff failed\n" [pstr s];
  do* write fd (text "FF") 2;
  do* close fd;
  let* fd := open (text "dd/dd/../ff") 0 in
  do* fail_if (fd <? 0) "%s: open dd/dd/../ff failed\n" [pstr s];
  let* '(cc, buf) := read fd BUFSZ in
  do* fail_if (negb (cc =? 2) || negb (hd 0 buf =? 102)) "%s: dd/dd/../ff wrong content\n" [pstr s];
  do* close fd;
  do* must is0 (link (text "dd/dd/ff") (text "dd/dd/ffff")) "%s: link dd/dd/ff dd/dd/ffff failed\n" s;
  do* must is0 (unlink (text "dd/dd/ff")) "%s: unlink dd/dd/ff failed\n" s;
  do* must neg (open (text "dd/dd/ff") O_RDONLY) "%s: open (unlinked) dd/dd/ff succeeded\n" s;
  do* must is0 (chdir (text "dd")) "%s: chdir dd failed\n" s;
  do* must is0 (chdir (text "dd/../../dd")) "%s: chdir dd/../../dd failed\n" s;
  do* must is0 (chdir (text "dd/../../../dd")) "%s: chdir dd/../../../dd failed\n" s;
  do* must is0 (chdir (text "./..")) "%s: chdir ./.. failed\n" s;
  let* fd := open (text "dd/dd/ffff") 0 in
  do* fail_if (fd <? 0) "%s: open dd/dd/ffff failed\n" [pstr s];
  let* '(r, _) := read fd BUFSZ in
  do* fail_if (negb (r =? 2)) "%s: read dd/dd/ffff wrong len\n" [pstr s];
  do* close fd;
  do* must neg (open (text "dd/dd/ff") O_RDONLY) "%s: open (unlinked) dd/dd/ff succeeded!\n" s;
  do* must neg (open (text "dd/ff/ff") CRW) "%s: create dd/ff/ff succeeded!\n" s;
  do* must neg (open (text "dd/xx/ff") CRW) "%s: create dd/xx/ff succeeded!\n" s;
  do* must neg (open (text "dd") O_CREATE) "%s: create dd succeeded!\n" s;
  do* must neg (open (text "dd") O_RDWR) "%s: open dd rdwr succeeded!\n" s;
  do* must neg (open (text "dd") O_WRONLY) "%s: open dd wronly succeeded!\n" s;
  do* must not0 (link (text "dd/ff/ff") (text "dd/dd/xx")) "%s: link dd/ff/ff dd/dd/xx succeeded!\n" s;
  do* must not0 (link (text "dd/xx/ff") (text "dd/dd/xx")) "%s: link dd/xx/ff dd/dd/xx succeeded!\n" s;
  do* must not0 (link (text "dd/ff") (text "dd/dd/ffff")) "%s: link dd/ff dd/dd/ffff succeeded!\n" s;
  do* must not0 (mkdir (text "dd/ff/ff")) "%s: mkdir dd/ff/ff succeeded!\n" s;
  do* must not0 (mkdir (text "dd/xx/ff")) "%s: mkdir dd/xx/ff succeeded!\n" s;
  do* must not0 (mkdir (text "dd/dd/ffff")) "%s: mkdir dd/dd/ffff succeeded!\n" s;
  do* must not0 (unlink (text "dd/xx/ff")) "%s: unlink dd/xx/ff succeeded!\n" s;
  do* must not0 (unlink (text "dd/ff/ff")) "%s: unlink dd/ff/ff succeeded!\n" s;
  do* must not0 (chdir (text "dd/ff")) "%s: chdir dd/ff succeeded!\n" s;
  do* must not0 (chdir (text "dd/xx")) "%s: chdir dd/xx succeeded!\n" s;
  do* must is0 (unlink (text "dd/dd/ffff")) "%s: unlink dd/dd/ff failed\n" s;
  do* must is0 (unlink (text "dd/ff")) "%s: unlink dd/ff failed\n" s;
  do* must not0 (unlink (text "dd")) "%s: unlink non-empty dd succeeded!\n" s;
  do* must nonneg (unlink (text "dd/dd")) "%s: unlink dd/dd failed\n" s;
  must nonneg (unlink (text "dd")) "%s: unlink dd failed\n" s.

(** for(sz = 499; sz < BUFSZ; sz += 471). *)
Definition bigwrite (s : list Z) : proc unit :=
  let f := text "bigwrite" in
  do* unlink f;
  loop 499 (fun sz =>
    if sz <? (MAXOPBLOCKS + 2) * BSIZE then
      let* fd := open f CRW in
      do* fail_if (fd <? 0) "%s: cannot create bigwrite\n" [pstr s];
      do* for_ 2 0 (fun _ =>
        let* cc := write fd (replicate (Z.to_nat sz) 0) sz in
        fail_if (negb (cc =? sz)) "%s: write(%d) ret %d\n" [pstr s; PInt sz; PInt cc]);
      do* close fd;
      do* unlink f;
      ret* (inl (sz + 471))
    else ret* (inr tt)).

Definition bigfile (s : list Z) : proc unit :=
  let f := text "bigfile.dat" in
  do* unlink f;
  let* fd := open f CRW in
  do* fail_if (fd <? 0) "%s: cannot create bigfile" [pstr s];
  do* for_ 20 0 (fun i =>
    let* w := write fd (replicate 600 (u8 i)) 600 in
    fail_if (negb (w =? 600)) "%s: write bigfile failed\n" [pstr s]);
  do* close fd;
  let* fd := open f 0 in
  do* fail_if (fd <? 0) "%s: cannot open bigfile\n" [pstr s];
  let* total := loop (0, 0) (fun '(i, total) =>
    let* '(cc, buf) := read fd 300 in
    do* fail_if (cc <? 0) "%s: read bigfile failed\n" [pstr s];
    if cc =? 0 then ret* (inr total)
    else
      do* fail_if (negb (cc =? 300)) "%s: short read bigfile\n" [pstr s];
      do* fail_if (negb (aget buf 0 =? i / 2) || negb (aget buf 299 =? i / 2)) "%s: read bigfile wrong data\n" [pstr s];
      ret* (inl (i + 1, total + cc))) in
  do* close fd;
  do* fail_if (negb (total =? 20 * 600)) "%s: read bigfile wrong total\n" [pstr s];
  ignore (unlink f).

Definition fourteen (s : list Z) : proc unit :=
  do* must is0 (mkdir (text "12345678901234")) "%s: mkdir 12345678901234 failed\n" s;
  do* must is0 (mkdir (text "12345678901234/123456789012345")) "%s: mkdir 12345678901234/123456789012345 failed\n" s;
  let* fd := open (text "123456789012345/123456789012345/123456789012345") O_CREATE in
  do* fail_if (fd <? 0) "%s: create 123456789012345/123456789012345/123456789012345 failed\n" [pstr s];
  do* close fd;
  let* fd := open (text "12345678901234/12345678901234/12345678901234") 0 in
  do* fail_if (fd <? 0) "%s: open 12345678901234/12345678901234/12345678901234 failed\n" [pstr s];
  do* close fd;
  do* must not0 (mkdir (text "12345678901234/12345678901234")) "%s: mkdir 12345678901234/12345678901234 succeeded!\n" s;
  do* must not0 (mkdir (text "123456789012345/12345678901234")) "%s: mkdir 12345678901234/123456789012345 succeeded!\n" s;
  do* unlink (text "123456789012345/12345678901234");
  do* unlink (text "12345678901234/12345678901234");
  do* unlink (text "12345678901234/12345678901234/12345678901234");
  do* unlink (text "123456789012345/123456789012345/123456789012345");
  do* unlink (text "12345678901234/123456789012345");
  ignore (unlink (text "12345678901234")).

Definition rmdot (s : list Z) : proc unit :=
  do* must is0 (mkdir (text "dots")) "%s: mkdir dots failed\n" s;
  do* must is0 (chdir (text "dots")) "%s: chdir dots failed\n" s;
  do* must not0 (unlink (text ".")) "%s: rm . worked!\n" s;
  do* must not0 (unlink (text "..")) "%s: rm .. worked!\n" s;
  do* must is0 (chdir (text "/")) "%s: chdir / failed\n" s;
  do* must not0 (unlink (text "dots/.")) "%s: unlink dots/. worked!\n" s;
  do* must not0 (unlink (text "dots/..")) "%s: unlink dots/.. worked!\n" s;
  must is0 (unlink (text "dots")) "%s: unlink dots failed!\n" s.

Definition dirfile (s : list Z) : proc unit :=
  let* fd := open (text "dirfile") O_CREATE in
  do* fail_if (fd <? 0) "%s: create dirfile failed\n" [pstr s];
  do* close fd;
  do* must not0 (chdir (text "dirfile")) "%s: chdir dirfile succeeded!\n" s;
  do* must neg (open (text "dirfile/xx") 0) "%s: create dirfile/xx succeeded!\n" s;
  do* must neg (open (text "dirfile/xx") O_CREATE) "%s: create dirfile/xx succeeded!\n" s;
  do* must not0 (mkdir (text "dirfile/xx")) "%s: mkdir dirfile/xx succeeded!\n" s;
  do* must not0 (unlink (text "dirfile/xx")) "%s: unlink dirfile/xx succeeded!\n" s;
  do* must not0 (link (text "README") (text "dirfile/xx")) "%s: link to dirfile/xx succeeded!\n" s;
  do* must is0 (unlink (text "dirfile")) "%s: unlink dirfile failed!\n" s;
  do* must neg (open (text ".") O_RDWR) "%s: open . for writing succeeded!\n" s;
  let* fd := open (text ".") 0 in
  let* w := write fd (text "x") 1 in
  do* fail_if (0 <? w) "%s: write . succeeded!\n" [pstr s];
  ignore (close fd).

Definition iref (s : list Z) : proc unit :=
  do* for_ (Z.to_nat (NINODE + 1)) 0 (fun _ =>
    do* must is0 (mkdir (text "irefd")) "%s: mkdir irefd failed\n" s;
    do* must is0 (chdir (text "irefd")) "%s: chdir irefd failed\n" s;
    do* mkdir [];
    do* link (text "README") [];
    let* fd := open [] O_CREATE in
    do* (if 0 <=? fd then ignore (close fd) else ret* tt);
    let* fd := open (text "xx") O_CREATE in
    do* (if 0 <=? fd then ignore (close fd) else ret* tt);
    ignore (unlink (text "xx")));
  do* for_ (Z.to_nat (NINODE + 1)) 0 (fun _ =>
    do* chdir (text "..");
    ignore (unlink (text "irefd")));
  ignore (chdir (text "/")).

Definition forktest (s : list Z) : proc unit :=
  let* n := fork_all 1000 in
  do* fail_if (n =? 0) "%s: no fork at all!\n" [pstr s];
  do* fail_if (n =? 1000) "%s: fork claimed to work 1000 times!\n" [pstr s];
  do* for_ (Z.to_nat n) 0 (fun _ =>
    let* w := wait0 in
    fail_if (w <? 0) "%s: wait stopped early\n" [pstr s]);
  let* w := wait0 in
  fail_if (negb (w =? -1)) "%s: wait got too many\n" [pstr s].
