(* ===== verification/UtMem.v ===== *)
(** * usertests, third part (user/usertests.c)

    Tests of memory and of limits, the slow tests, and the drivers that run
    them.  Addresses that the compiler and the stack fix (the array uninit of
    bsstest, the stack pointer) are arguments. *)

From Stdlib Require Import ZArith Lia.
From stdpp Require Import base list strings.
From ITree Require Import ITree.
From S2P Require Import Prelude Params Printf Ulib Uprog Programs UtBasic UtFiles.

Definition load (a : Z) : proc Z := ITree.trigger (Load a 1).
Definition store (a v : Z) : proc unit := ITree.trigger (Store a 1 v).

(** for(a = lo; a < hi; a += step). *)
Definition for_step (lo hi step : Z) (body : Z -> proc unit) : proc unit :=
  loop lo (fun a => if a <? hi then do* body a; ret* (inl (a + step)) else ret* (inr tt)).

(** The child of sbrkbasic that asks for too much. *)
Definition sbrkbasic_child : proc unit :=
  let TOOMUCH := 1024 * 1024 * 1024 in
  let* a := sbrk TOOMUCH in
  do* (if a =? SBRK_ERROR then exit 0 else ret* tt);
  do* for_step a (a + TOOMUCH) PGSIZE (fun b => store b 99);
  exit 1.

Definition sbrkbasic (s : list Z) : proc unit :=
  let* pid := fork in
  do* fail_if (pid <? 0) "fork failed in sbrkbasic\n" [];
  do* (if pid =? 0 then sbrkbasic_child else ret* tt);
  let* '(_, xstatus) := wait 0 in
  do* fail_if (xstatus =? 1) "%s: too much memory allocated!\n" [pstr s];
  let* a := sbrk 0 in
  let* a := for_acc 5000 0 a (fun i a =>
    let* b := sbrk 1 in
    do* fail_if (negb (b =? a)) "%s: sbrk test failed %d %p %p\n" [pstr s; PInt i; PInt a; PInt b];
    do* store b 1;
    ret* (b + 1)) in
  let* pid := fork in
  do* fail_if (pid <? 0) "%s: sbrk test fork failed\n" [pstr s];
  do* sbrk 1;
  let* c := sbrk 1 in
  do* fail_if (negb (c =? a + 1)) "%s: sbrk test failed post-fork\n" [pstr s];
  if pid =? 0 then exit 0
  else
    let* '(_, xstatus) := wait xstatus in
    exit xstatus.

Definition sbrkmuch (s : list Z) : proc unit :=
  let BIG := 100 * 1024 * 1024 in
  let* oldbrk := sbrk 0 in
  let* a := sbrk 0 in
  let* p := sbrk (BIG - a) in
  do* fail_if (negb (p =? a)) "%s: sbrk test failed to grow big address space; enough phys mem?\n" [pstr s];
  let lastaddr := BIG - 1 in
  do* store lastaddr 99;
  let* a := sbrk 0 in
  let* c := sbrk (- PGSIZE) in
  do* fail_if (c =? SBRK_ERROR) "%s: sbrk could not deallocate\n" [pstr s];
  let* c := sbrk 0 in
  do* fail_if (negb (c =? a - PGSIZE)) "%s: sbrk deallocation produced wrong address, a %p c %p\n" [pstr s; PInt a; PInt c];
  let* a := sbrk 0 in
  let* c := sbrk PGSIZE in
  let bad := "%s: sbrk re-allocation failed, a %p c %p\n"%string in
  do* (if negb (c =? a) then die bad [pstr s; PInt a; PInt c]
       else
         let* c' := sbrk 0 in
         fail_if (negb (c' =? a + PGSIZE)) bad [pstr s; PInt a; PInt c]);
  let* v := load lastaddr in
  do* fail_if (v =? 99) "%s: sbrk de-allocation didn't really deallocate\n" [pstr s];
  let* a := sbrk 0 in
  let* top := sbrk 0 in
  let* c := sbrk (- (top - oldbrk)) in
  fail_if (negb (c =? a)) "%s: sbrk downsize failed, a %p c %p\n" [pstr s; PInt a; PInt c].

Definition kernmem (s : list Z) : proc unit :=
  for_step KERNBASE (KERNBASE + 2000000) 50000 (fun a =>
    let* pid := fork in
    do* fail_if (pid <? 0) "%s: fork failed\n" [pstr s];
    do* (if pid =? 0 then
           let* v := load a in
           die "%s: oops could read %p = %x\n" [pstr s; PInt a; PInt v]
         else ret* tt);
    let* '(_, xstatus) := wait 0 in
    if negb (xstatus =? -1) then exit 1 else ret* tt).

(** for( ; a != 0; a <<= 1), from MAXVA on 64 bits. *)
Definition MAXVAplus (s : list Z) : proc unit :=
  loop MAXVA (fun a =>
    if a =? 0 then ret* (inr tt)
    else
      let* pid := fork in
      do* fail_if (pid <? 0) "%s: fork failed\n" [pstr s];
      do* (if pid =? 0 then
             do* store a 99;
             die "%s: oops wrote %p\n" [pstr s; PInt a]
           else ret* tt);
      let* '(_, xstatus) := wait 0 in
      do* (if negb (xstatus =? -1) then exit 1 else ret* tt);
      ret* (inl (u64 (Z.shiftl a 1)))).

(** One of the ten children of sbrkfail. *)
Definition sbrkfail_child (fds1 : Z) : proc unit :=
  let BIG := 100 * 1024 * 1024 in
  let* cur := sbrk 0 in
  let* r := sbrk (BIG - cur) in
  do* write fds1 (text (if r =? SBRK_ERROR then "0" else "1")) 1;
  forever (ignore (pause 1000)).

(** The variables of the loop are [failed], [scratch] and the pids so far. *)
Definition sbrkfail (s : list Z) : proc unit :=
  let BIG := 100 * 1024 * 1024 in
  let* '(r, (fds0, fds1)) := pipe in
  do* fail_if (negb (r =? 0)) "%s: pipe() failed\n" [pstr s];
  let* '(failed, _, pids) := for_acc 10 0 (false, 0, []) (fun _ '(failed, scratch, pids) =>
    let* pid := fork in
    do* (if pid =? 0 then sbrkfail_child fds1 else ret* tt);
    if negb (pid =? -1) then
      let* '(_, bs) := read fds0 1 in
      let scratch := hd scratch bs in
      ret* (failed || (scratch =? 48), scratch, pids ++ [pid])
    else ret* (failed, scratch, pids ++ [pid])) in
  do* (if failed then ret* tt else printf "%s: no allocation failed; allocate more?\n" [pstr s]);
  let* c := sbrk PGSIZE in
  do* over pids (fun pid => if pid =? -1 then ret* tt else do* kill pid; ignore wait0);
  do* fail_if (c =? SBRK_ERROR) "%s: failed sbrk leaked memory\n" [pstr s];
  let* pid := fork in
  do* fail_if (pid <? 0) "%s: fork failed\n" [pstr s];
  do* (if pid =? 0 then
         let* a := sbrk (10 * BIG) in
         do* (if a =? SBRK_ERROR then exit 0 else ret* tt);
         die "%s: allocate a lot of memory succeeded %d\n" [pstr s; PInt (10 * BIG)]
       else ret* tt);
  let* '(_, xstatus) := wait 0 in
  if negb (xstatus =? 0) then exit 1 else ret* tt.

Definition sbrkarg (s : list Z) : proc unit :=
  let* a := sbrk PGSIZE in
  let* fd := open (text "sbrk") CW in
  do* unlink (text "sbrk");
  do* fail_if (fd <? 0) "%s: open sbrk failed\n" [pstr s];
  let* n := write_at fd a PGSIZE in
  do* fail_if (n <? 0) "%s: write sbrk failed\n" [pstr s];
  do* close fd;
  let* a := sbrk PGSIZE in
  let* r := ITree.trigger (PipeAt a) in
  fail_if (negb (r =? 0)) "%s: pipe() failed\n" [pstr s].

(** for(p = 0; p <= (uint)hi; p += PGSIZE). *)
Definition validatetest (s : list Z) : proc unit :=
  for_step 0 (1100 * 1024 + 1) PGSIZE (fun p =>
    let* r := ITree.trigger (Link (Own (text "nosuchfile")) (At p)) in
    fail_if (negb (r =? -1)) "%s: link should not succeed\n" [pstr s]).

Definition bsstest (uninit : Z) (s : list Z) : proc unit :=
  for_ 10000 0 (fun i =>
    let* c := load (uninit + i) in
    fail_if (negb (c =? 0)) "%s: bss test failed\n" [pstr s]).

Definition bigargtest (s : list Z) : proc unit :=
  let f := text "bigarg-ok" in
  do* unlink f;
  let* pid := fork in
  if pid =? 0 then
    do* exec (text "echo") (replicate (Z.to_nat (MAXARG - 1)) (replicate 399 32));
    let* fd := open f O_CREATE in
    do* close fd;
    exit 0
  else
    do* fail_if (pid <? 0) "%s: bigargtest: fork failed\n" [pstr s];
    let* '(_, xstatus) := wait 0 in
    do* (if negb (xstatus =? 0) then exit xstatus else ret* tt);
    let* fd := open f 0 in
    do* fail_if (fd <? 0) "%s: bigarg test failed!\n" [pstr s];
    ignore (close fd).

(** The name of the file [n] of fsfull. *)
Definition fsfull_name (n : Z) : list Z :=
  text "f" ++ [48 + n / 1000; 48 + n mod 1000 / 100; 48 + n mod 100 / 10; 48 + n mod 10].

Definition fsfull : proc unit :=
  do* printf "fsfull test\n" [];
  let* nfiles := loop 0 (fun nfiles =>
    let name := fsfull_name nfiles in
    do* printf "writing %s\n" [pstr name];
    let* fd := open name CRW in
    if fd <? 0 then do* printf "open %s failed\n" [pstr name]; ret* (inr nfiles)
    else
      let* total := loop 0 (fun total =>
        let* cc := write fd (replicate (Z.to_nat BSIZE) 0) BSIZE in
        if cc <? BSIZE then ret* (inr total) else ret* (inl (total + cc))) in
      do* printf "wrote %d bytes\n" [PInt total];
      do* close fd;
      if total =? 0 then ret* (inr nfiles) else ret* (inl (nfiles + 1))) in
  do* loop nfiles (fun nfiles =>
    if 0 <=? nfiles then do* unlink (fsfull_name nfiles); ret* (inl (nfiles - 1)) else ret* (inr tt));
  printf "fsfull test finished\n" [].

Definition argptest (s : list Z) : proc unit :=
  let* fd := open (text "init") O_RDONLY in
  do* fail_if (fd <? 0) "%s: open failed\n" [pstr s];
  let* top := sbrk 0 in
  do* read_at fd (top - 1) (-1);
  ignore (close fd).

(** [sp] is the stack pointer. *)
Definition stacktest (sp : Z) (s : list Z) : proc unit :=
  let* pid := fork in
  if pid =? 0 then
    let sp := sp - USERSTACK * PGSIZE in
    let* v := load sp in
    die "%s: stacktest: read below stack %d\n" [pstr s; PInt v]
  else
    do* fail_if (pid <? 0) "%s: fork failed\n" [pstr s];
    let* '(_, xstatus) := wait 0 in
    if xstatus =? -1 then exit 0 else exit xstatus.

Definition nowrite (s : list Z) : proc unit :=
  do* over (0 :: bad_addrs) (fun addr =>
    let* pid := fork in
    do* (if pid =? 0 then
           do* ITree.trigger (Store addr 4 10);
           do* printf "%s: write to %p did not fail!\n" [pstr s; PInt addr];
           exit 0
         else fail_if (pid <? 0) "%s: fork failed\n" [pstr s]);
    let* '(_, xstatus) := wait 0 in
    if xstatus =? 0 then exit 1 else ret* tt);
  exit 0.

Definition big : Z := 0xeaeb0b5b00002f5e.
Definition pgbug (s : list Z) : proc unit :=
  do* ITree.trigger (Exec (At big) []);
  do* ITree.trigger (PipeAt big);
  exit 0.

(** A child that runs [body] and exits, and the wait for it. *)
Definition in_child (body : proc unit) : proc unit :=
  let* pid := fork in
  do* fail_if (pid <? 0) "fork failed\n" [];
  do* (if pid =? 0 then do* body; exit 0 else ret* tt);
  ignore wait0.

(** After the first child has given back all its memory its next instruction
    faults, which the load stands for. *)
Definition sbrkbugs (s : list Z) : proc unit :=
  do* in_child (let* sz := sbrk 0 in do* sbrk (- sz); ignore (load 0));
  do* in_child (let* sz := sbrk 0 in ignore (sbrk (- (sz - 3500))));
  do* in_child (let* sz := sbrk 0 in do* sbrk (10 * PGSIZE + 2048 - sz); ignore (sbrk (-10)));
  exit 0.

Definition sbrklast (s : list Z) : proc unit :=
  let* top := sbrk 0 in
  do* (if negb (top mod PGSIZE =? 0) then ignore (sbrk (PGSIZE - top mod PGSIZE)) else ret* tt);
  do* sbrk PGSIZE;
  do* sbrk 10;
  do* sbrk (-20);
  let* top := sbrk 0 in
  let p := top - 64 in
  do* store p 120;
  do* store (p + 1) 0;
  let* fd := ITree.trigger (Open (At p) CRW) in
  do* write_at fd p 1;
  do* close fd;
  let* fd := ITree.trigger (Open (At p) O_RDWR) in
  do* store p 0;
  do* read_at fd p 1;
  let* c := load p in
  if negb (c =? 120) then exit 1 else ret* tt.

Definition sbrk8000 (s : list Z) : proc unit :=
  do* sbrk 0x80000004;
  let* top := sbrk 0 in
  let* v := load (top - 1) in
  store (top - 1) (u8 (v + 1)).

Definition badarg (s : list Z) : proc unit :=
  do* for_ 50000 0 (fun _ => ignore (ITree.trigger (Exec (Own (text "echo")) [At 0xffffffff])));
  exit 0.

Definition REGION_SZ : Z := 1024 * 1024 * 1024.
Definition store64 (a v : Z) : proc unit := ITree.trigger (Store a 8 v).
Definition load64 (a : Z) : proc Z := ITree.trigger (Load a 8).

Definition lazy_alloc (s : list Z) : proc unit :=
  let* prev_end := sbrklazy REGION_SZ in
  do* fail_if (prev_end =? SBRK_ERROR) "sbrklazy() failed\n" [];
  let new_end := prev_end + REGION_SZ in
  do* for_step (prev_end + PGSIZE) new_end (64 * PGSIZE) (fun i => store64 i i);
  do* for_step (prev_end + PGSIZE) new_end (64 * PGSIZE) (fun i =>
    let* v := load64 i in
    fail_if (negb (v =? i)) "failed to read value from memory\n" []);
  exit 0.

Definition lazy_unmap (s : list Z) : proc unit :=
  let* prev_end := sbrklazy REGION_SZ in
  do* fail_if (prev_end =? SBRK_ERROR) "sbrklazy() failed\n" [];
  let new_end := prev_end + REGION_SZ in
  do* for_step (prev_end + PGSIZE) new_end (PGSIZE * PGSIZE) (fun i => store64 i i);
  do* for_step (prev_end + PGSIZE) new_end (PGSIZE * PGSIZE) (fun i =>
    let* pid := fork in
    if pid <? 0 then die "error forking\n" []
    else if pid =? 0 then
      do* sbrklazy (-1 * REGION_SZ);
      do* store64 i i;
      exit 0
    else
      let* '(_, status) := wait 0 in
      fail_if (status =? 0) "memory not unmapped\n" []);
  exit 0.

Definition lazy_copy (s : list Z) : proc unit :=
  let* p := sbrk 0 in
  do* sbrklazy (4 * PGSIZE);
  do* ITree.trigger (Open (At (p + 8192)) 0);
  let* xx := sbrk 0 in
  let* ret := sbrk (- (xx + 1)) in
  do* fail_if (negb (ret =? xx)) "sbrk(sbrk(0)+1) returned %p, not old sz\n" [PInt ret];
  do* over [0x3fffffc000; 0x3fffffd000; 0x3fffffe000; 0x3ffffff000; 0x4000000000; 0x8000000000] (fun bad =>
    let* fd := open (text "README") 0 in
    do* fail_if (fd <? 0) "cannot open README\n" [];
    let* r := read_at fd bad 512 in
    do* fail_if (0 <=? r) "read succeeded\n" [];
    do* close fd;
    let* fd := open (text "junk") (Z.lor CRW O_TRUNC) in
    do* fail_if (fd <? 0) "cannot open junk\n" [];
    let* r := write_at fd bad 512 in
    do* fail_if (0 <=? r) "write succeeded\n" [];
    ignore (close fd));
  exit 0.

(** Pointers are not negative, so the tests p < 0 never hold. *)
Definition lazy_sbrk (s : list Z) : proc unit :=
  let* p := sbrk 0 in
  let* p := loop p (fun p =>
    if p <? MAXVA - Z.shiftl 1 30 then
      do* sbrklazy (Z.shiftl 1 30);
      let* p := sbrklazy 0 in
      ret* (inl p)
    else ret* (inr p)) in
  let n := i32 (TRAPFRAME - PGSIZE - p) in
  let* p1 := sbrklazy n in
  do* fail_if (negb (p1 =? p)) "sbrklazy(%d) returned %p, not expected %p\n" [PInt n; PInt p1; PInt p];
  let* p := sbrk PGSIZE in
  do* fail_if (negb (p =? TRAPFRAME - PGSIZE)) "sbrk(%d) returned %p, not expected TRAPFRAME-PGSIZE\n" [PInt PGSIZE; PInt p];
  do* store p 1;
  let* c := load (p + 1) in
  do* fail_if (negb (c =? 0)) "sbrk() returned non-zero-filled memory\n" [];
  let* p := sbrk 1 in
  do* fail_if (negb (p =? SBRK_ERROR)) "sbrk(1) returned %p, expected error\n" [PInt p];
  let* p := sbrklazy 1 in
  do* fail_if (negb (p =? SBRK_ERROR)) "sbrklazy(1) returned %p, expected error\n" [PInt p];
  exit 0.

(** ** Slow tests *)
Definition bigdir (s : list Z) : proc unit :=
  let name i := text "x" ++ [48 + i / 64; 48 + i mod 64] in
  do* unlink (text "bd");
  let* fd := open (text "bd") O_CREATE in
  do* fail_if (fd <? 0) "%s: bigdir create failed\n" [pstr s];
  do* close fd;
  do* for_ 500 0 (fun i =>
    let* r := link (text "bd") (name i) in
    fail_if (negb (r =? 0)) "%s: bigdir i=%d link(bd, %s) failed\n" [pstr s; PInt i; pstr (name i)]);
  do* unlink (text "bd");
  for_ 500 0 (fun i =>
    let* r := unlink (name i) in
    fail_if (negb (r =? 0)) "%s: bigdir unlink failed" [pstr s]).

(** The child [ci] of manywrites. *)
Definition manywrites_child (ci : Z) (s : list Z) : proc unit :=
  let name := text "b" ++ [97 + ci] in
  do* unlink name;
  do* for_ 30 0 (fun _ =>
    do* for_ (Z.to_nat (ci + 1)) 0 (fun _ =>
      let* fd := open name CRW in
      do* fail_if (fd <? 0) "%s: cannot create %s\n" [pstr s; pstr name];
      let* cc := write fd (replicate (Z.to_nat BUFSZ) 0) BUFSZ in
      do* fail_if (negb (cc =? BUFSZ)) "%s: write(%d) ret %d\n" [pstr s; PInt BUFSZ; PInt cc];
      ignore (close fd));
    ignore (unlink name));
  do* unlink name;
  exit 0.

Definition manywrites (s : list Z) : proc unit :=
  do* for_ 4 0 (fun ci =>
    let* pid := fork in
    do* fail_if (pid <? 0) "fork failed\n" [];
    if pid =? 0 then manywrites_child ci s else ret* tt);
  do* for_ 4 0 (fun _ =>
    let* '(_, st) := wait 0 in
    if negb (st =? 0) then exit st else ret* tt);
  exit 0.

Definition badwrite (s : list Z) : proc unit :=
  let f := text "junk" in
  do* unlink f;
  do* for_ 600 0 (fun _ =>
    let* fd := open f CW in
    do* fail_if (fd <? 0) "open junk failed\n" [];
    do* write_at fd 0xffffffffff 1;
    do* close fd;
    ignore (unlink f));
  let* fd := open f CW in
  do* fail_if (fd <? 0) "open junk failed\n" [];
  let* w := write fd (text "x") 1 in
  do* fail_if (negb (w =? 1)) "write failed\n" [];
  do* close fd;
  do* unlink f;
  exit 0.

Definition execout (s : list Z) : proc unit :=
  do* for_ 15 0 (fun avail =>
    let* pid := fork in
    if pid <? 0 then die "fork failed\n" []
    else if pid =? 0 then
      do* loop tt (fun _ =>
        let* a := sbrk PGSIZE in
        if a =? SBRK_ERROR then ret* (inr tt)
        else do* store (a + PGSIZE - 1) 1; ret* (inl tt));
      do* for_ (Z.to_nat avail) 0 (fun _ => ignore (sbrk (- PGSIZE)));
      do* close 1;
      do* exec (text "echo") [text "echo"; text "x"];
      exit 0
    else ignore wait0);
  exit 0.

Definition big_name (i : Z) : list Z := text "big" ++ [48 + i].
Definition zz_name (i : Z) : list Z := text "zz" ++ [48 + i / 32; 48 + i mod 32].

(** '0' + i < 0177 holds for i below 79.  Closing the descriptor of a file
    whose write failed is done twice. *)
Definition diskfull (s : list Z) : proc unit :=
  do* unlink (text "diskfulldir");
  do* for_break 79 0 (fun fi =>
    do* unlink (big_name fi);
    let* fd := open (big_name fi) (Z.lor CRW O_TRUNC) in
    if fd <? 0 then
      do* printf "%s: could not create file %s\n" [pstr s; pstr (big_name fi)];
      ret* true
    else
      let* n := for_break (Z.to_nat MAXFILE) 0 (fun _ =>
        let* w := write fd (replicate (Z.to_nat BSIZE) 0) BSIZE in
        if negb (w =? BSIZE) then do* close fd; ret* true else ret* false) in
      do* close fd;
      ret* (n <? MAXFILE));
  do* for_break 128 0 (fun i =>
    do* unlink (zz_name i);
    let* fd := open (zz_name i) (Z.lor CRW O_TRUNC) in
    if fd <? 0 then ret* true else do* close fd; ret* false);
  let* r := mkdir (text "diskfulldir") in
  do* (if r =? 0 then printf "%s: mkdir(diskfulldir) unexpectedly succeeded!\n" [pstr s] else ret* tt);
  do* unlink (text "diskfulldir");
  do* for_ 128 0 (fun i => ignore (unlink (zz_name i)));
  for_ 79 0 (fun i => ignore (unlink (big_name i))).

Definition outofinodes (s : list Z) : proc unit :=
  do* for_break 1024 0 (fun i =>
    do* unlink (zz_name i);
    let* fd := open (zz_name i) (Z.lor CRW O_TRUNC) in
    if fd <? 0 then ret* true else do* close fd; ret* false);
  for_ 1024 0 (fun i => ignore (unlink (zz_name i))).

(** ** The drivers *)
Definition utest : Type := (list Z -> proc unit) * string.

Section Drivers.
Context (malloc : Z -> proc Z) (free : Z -> proc unit) (uninit sp : Z).

Definition quicktests : list utest :=
  [ (copyin, "copyin"); (copyout, "copyout"); (copyinstr1, "copyinstr1"); (copyinstr2, "copyinstr2");
    (copyinstr3, "copyinstr3"); (rwsbrk, "rwsbrk"); (truncate1, "truncate1"); (truncate2, "truncate2");
    (truncate3, "truncate3"); (openiputtest, "openiput"); (exitiputtest, "exitiput"); (iputtest, "iput");
    (opentest, "opentest"); (writetest, "writetest"); (writebig, "writebig"); (createtest, "createtest");
    (dirtest, "dirtest"); (exectest, "exectest"); (pipe1, "pipe1"); (killstatus, "killstatus"); (preempt, "preempt");
    (exitwait, "exitwait"); (reparent, "reparent"); (twochildren, "twochildren"); (forkfork, "forkfork");
    (forkforkfork, "forkforkfork"); (reparent2, "reparent2"); (mem malloc free, "mem"); (sharedfd, "sharedfd");
    (fourfiles, "fourfiles"); (createdelete, "createdelete"); (unlinkread, "unlinkread"); (linktest, "linktest");
    (concreate, "concreate"); (linkunlink, "linkunlink"); (subdir, "subdir"); (bigwrite, "bigwrite");
    (bigfile, "bigfile"); (fourteen, "fourteen"); (rmdot, "rmdot"); (dirfile, "dirfile"); (iref, "iref");
    (forktest, "forktest"); (sbrkbasic, "sbrkbasic"); (sbrkmuch, "sbrkmuch"); (kernmem, "kernmem");
    (MAXVAplus, "MAXVAplus"); (sbrkfail, "sbrkfail"); (sbrkarg, "sbrkarg"); (validatetest, "validatetest");
    (bsstest uninit, "bsstest"); (bigargtest, "bigargtest"); (argptest, "argptest"); (stacktest sp, "stacktest");
    (nowrite, "nowrite"); (pgbug, "pgbug"); (sbrkbugs, "sbrkbugs"); (sbrklast, "sbrklast"); (sbrk8000, "sbrk8000");
    (badarg, "badarg"); (lazy_alloc, "lazy_alloc"); (lazy_unmap, "lazy_unmap"); (lazy_copy, "lazy_copy");
    (lazy_sbrk, "lazy_sbrk") ].

Definition slowtests : list utest :=
  [ (bigdir, "bigdir"); (manywrites, "manywrites"); (badwrite, "badwrite"); (execout, "execout");
    (diskfull, "diskfull"); (outofinodes, "outofinodes") ].

(** Run a test in a process of its own: 1 if it exits with 0. *)
Definition run (t : utest) : proc bool :=
  let s := text t.2 in
  do* printf "test %s: " [pstr s];
  let* pid := fork in
  if pid <? 0 then die "runtest: fork error\n" []
  else if pid =? 0 then do* t.1 s; exit 0
  else
    let* '(_, xstatus) := wait 0 in
    do* printf (if negb (xstatus =? 0) then "FAILED\n" else "OK\n") [];
    ret* (xstatus =? 0).

Fixpoint runtests (tests : list utest) (justone : option (list Z)) (continuous ntests : Z) : proc Z :=
  match tests with
  | [] => ret* ntests
  | t :: tests' =>
      if match justone with None => true | Some name => bool_decide (text t.2 = name) end then
        let* ok := run t in
        if negb ok && negb (continuous =? 2) then
          do* printf "SOME TESTS FAILED\n" [];
          ret* (-1)
        else runtests tests' justone continuous (ntests + 1)
      else runtests tests' justone continuous ntests
  end.

Definition countfree : proc Z :=
  let* sz0 := sbrk 0 in
  let* n := loop 0 (fun n =>
    let* a := sbrk PGSIZE in
    if a =? SBRK_ERROR then ret* (inr n) else ret* (inl (n + 1))) in
  let* sz := sbrk 0 in
  do* sbrk (- (sz - sz0));
  ret* n.

(** One round of drivetests: [inr] is its result, [inl] that it goes on. *)
Definition drive_round (quick : bool) (continuous : Z) (justone : option (list Z)) : proc (unit + Z) :=
  do* printf "usertests starting\n" [];
  let* free0 := countfree in
  let* n := runtests quicktests justone continuous 0 in
  if (n <? 0) && negb (continuous =? 2) then ret* (inr 1)
  else
    let ntests := if n <? 0 then 0 else n in
    let* n := if quick then ret* 0
              else
                do* (if bool_decide (justone = None) then printf "usertests slow tests starting\n" [] else ret* tt);
                runtests slowtests justone continuous 0 in
    if (n <? 0) && negb (continuous =? 2) then ret* (inr 1)
    else
      let ntests := if n <? 0 then ntests else ntests + n in
      let* free1 := countfree in
      do* (if free1 <? free0 then printf "FAILED -- lost some free pages %d (out of %d)\n" [PInt free1; PInt free0] else ret* tt);
      if (free1 <? free0) && negb (continuous =? 2) then ret* (inr 1)
      else if bool_decide (justone <> None) && (ntests =? 0) then
        do* printf "NO TESTS EXECUTED\n" [];
        ret* (inr 1)
      else if continuous =? 0 then ret* (inr 0) else ret* (inl tt).

Definition drivetests (quick : bool) (continuous : Z) (justone : option (list Z)) : proc Z :=
  loop tt (fun _ => drive_round quick continuous justone).

Definition usertests_main (argv : list (list Z)) : proc Z :=
  let go quick continuous justone :=
    let* r := drivetests quick continuous justone in
    do* (if negb (r =? 0) then exit 1 else ret* tt);
    do* printf "ALL TESTS PASSED\n" [];
    exit 0 in
  match tail argv with
  | [] => go false 0 None
  | [a] =>
      if bool_decide (a = text "-q") then go true 0 None
      else if bool_decide (a = text "-c") then go false 1 None
      else if bool_decide (a = text "-C") then go false 2 None
      else if negb (hd 0 a =? 45) then go false 0 (Some a)
      else die "Usage: usertests [-c] [-C] [-q] [testname]\n" []
  | _ => die "Usage: usertests [-c] [-C] [-q] [testname]\n" []
  end.
End Drivers.
