(* ===== verification/Grind.v ===== *)
(** * user/grind.c

    The random system calls of grind: its generator, which is the
    multiplicative generator of Park and Miller, one round of the calls, and
    the processes that make them. *)

From Stdlib Require Import ZArith Lia.
From stdpp Require Import base list strings.
From ITree Require Import ITree.
From S2P Require Import Prelude Params Printf Ulib Uprog.

#[local] Open Scope Z_scope.

(** ** The generator *)

(** The result, and the new value of [*ctx]. *)
Definition do_rand (ctx : Z) : Z * Z :=
  let x := ctx mod 0x7ffffffe + 1 in
  let hi := Z.quot x 127773 in
  let lo := Z.rem x 127773 in
  let x := 16807 * lo - 2836 * hi in
  let x := if x <? 0 then x + 0x7fffffff else x in
  let x := x - 1 in
  (i32 x, u64 x).

Lemma park_miller x : 0 < x < 0x7fffffff -> 0 < (16807 * x) mod 0x7fffffff.
Proof.
  intros Hx. pose proof (Z.mod_pos_bound (16807 * x) 0x7fffffff ltac:(lia)) as Hb.
  enough ((16807 * x) mod 0x7fffffff <> 0) by lia. intros H0. apply Z.mod_divide in H0; [|lia].
  apply Z.gauss in H0; [|reflexivity]. apply Z.divide_pos_le in H0; lia.
Qed.

(** Schrage's method: a product modulo [m = a * q + r] without a wide product. *)
Lemma schrage a q r x : 0 < q -> 0 <= r < q -> 0 < a -> 0 <= x < a * q + r ->
  let y := a * (x mod q) - r * (x / q) in
  - (a * q + r) < y < a * q + r /\ y mod (a * q + r) = (a * x) mod (a * q + r).
Proof.
  intros Hq Hr Ha Hx y. pose proof (Z.div_mod x q ltac:(lia)) as E. pose proof (Z.mod_pos_bound x q Hq) as Hm.
  assert (Hd : 0 <= x / q <= a) by (split; [apply Z.div_pos; lia|]; enough (x / q < a + 1) by lia; apply Z.div_lt_upper_bound; nia).
  split; [subst y; nia|]. symmetry. rewrite <- (Z_mod_plus_full y (x / q)). f_equal. subst y. nia.
Qed.

(** ** The calls *)
Definition O_NEW : Z := Z.lor O_CREATE O_RDWR.
Definition close_open (path : string) : proc unit := let* fd := open (text path) O_NEW in ignore (close fd).
Definition unlink_ (path : string) : proc unit := ignore (unlink (text path)).

(** [fork] with a child that does not come back, and the check of its result. *)
Definition grind_fork (child : proc unit) : proc Z :=
  let* pid := fork in
  if pid =? 0 then do* child; exit 0
  else if pid <? 0 then die "grind: fork failed\n" []
  else ret* pid.

(** A pipe, or the end. *)
Definition grind_pipe (fd : Z) : proc (Z * Z) :=
  let* '(r, fds) := pipe in
  if r <? 0 then do* fprintf fd "grind: pipe failed\n" []; exit 1 else ret* fds.

(** [what] 19. *)
Definition go_pipe : proc unit :=
  let* '(fds0, fds1) := grind_pipe 1 in
  do* grind_fork (
        do* fork;
        do* fork;
        let* w := write fds1 (text "x") 1 in
        do* (if negb (w =? 1) then printf "grind: pipe write failed\n" [] else ret* tt);
        let* '(r, _) := read fds0 1 in
        if negb (r =? 1) then printf "grind: pipe read failed\n" [] else ret* tt);
  do* close fds0;
  do* close fds1;
  ignore wait0.

(** [what] 21. *)
Definition go_create : proc unit :=
  do* unlink_ "c";
  let* fd1 := open (text "c") O_NEW in
  do* fail_if (fd1 <? 0) "grind: create c failed\n" [];
  let* w := write fd1 (text "x") 1 in
  do* fail_if (negb (w =? 1)) "grind: write c failed\n" [];
  let* '(r, st) := fstat fd1 in
  do* fail_if (negb (r =? 0)) "grind: fstat failed\n" [];
  do* fail_if (negb (st_size st =? 1)) "grind: fstat reports wrong size %d\n" [PInt (i32 (st_size st))];
  do* fail_if (200 <? st_ino st) "grind: fstat reports crazy i-number %d\n" [PInt (st_ino st)];
  do* close fd1;
  unlink_ "c".

Definition fdie {A} (fmt : string) (status : Z) : proc A := do* fprintf 2 fmt []; exit status.

(** A byte read into a buffer of the caller: the byte, or 0, which it held. *)
Definition read1 (fd : Z) : proc Z := let* '(_, bs) := read fd 1 in ret* (hd 0 bs).

(** [what] 22: echo hi | cat. *)
Definition go_echo (aa0 aa1 bb0 bb1 : Z) : proc unit :=
  do* close bb0;
  do* close bb1;
  do* close aa0;
  do* close 1;
  let* d := dup aa1 in
  if negb (d =? 1) then fdie "grind: dup failed\n" 1
  else
    do* close aa1;
    do* exec (text "grindir/../echo") [text "echo"; text "hi"];
    fdie "grind: echo: not found\n" 2.
Definition go_cat (aa0 aa1 bb0 bb1 : Z) : proc unit :=
  do* close aa1;
  do* close bb0;
  do* close 0;
  let* d := dup aa0 in
  if negb (d =? 0) then fdie "grind: dup failed\n" 4
  else
    do* close aa0;
    do* close 1;
    let* d := dup bb1 in
    if negb (d =? 1) then fdie "grind: dup failed\n" 5
    else
      do* close bb1;
      do* exec (text "/cat") [text "cat"];
      fdie "grind: cat: not found\n" 6.
(** The variables [st1] and [st2] are set by the waits: there are two children. *)
Definition go_pipeline : proc unit :=
  let* '(aa0, aa1) := grind_pipe 2 in
  let* '(bb0, bb1) := grind_pipe 2 in
  let* pid1 := fork in
  if pid1 =? 0 then go_echo aa0 aa1 bb0 bb1
  else if pid1 <? 0 then fdie "grind: fork failed\n" 3
  else
    let* pid2 := fork in
    if pid2 =? 0 then go_cat aa0 aa1 bb0 bb1
    else if pid2 <? 0 then fdie "grind: fork failed\n" 7
    else
      do* close aa0;
      do* close aa1;
      do* close bb1;
      let* c0 := read1 bb0 in
      let* c1 := read1 bb0 in
      let* c2 := read1 bb0 in
      do* close bb0;
      let* '(_, st1) := wait 0 in
      let* '(_, st2) := wait 0 in
      let buf := until_nul [c0; c1; c2] in
      if negb (st1 =? 0) || negb (st2 =? 0) || negb (bool_decide (buf = text "hi\n")) then
        do* puts 1 (vprintf (text "grind: exec pipeline failed %d %d " ++ 34 :: text "%s" ++ [34; 10]) [PInt st1; PInt st2; pstr buf]);
        exit 1
      else ret* tt.

(** The variables of [go]: the generator, the descriptor and the buffer. *)
Record gvars := mkgvars { rand_next : Z; g_fd : Z; g_buf : list Z }.

Definition reopen (g : gvars) (path : string) : proc gvars :=
  do* close (g_fd g);
  let* fd := open (text path) O_NEW in
  ret* (mkgvars (rand_next g) fd (g_buf g)).

(** One choice of [go]; [what] 0 does nothing. *)
Definition go_what (break0 what : Z) (g : gvars) : proc gvars :=
  let keep (m : proc unit) := do* m; ret* g in
  match what with
  | 1 => keep (close_open "grindir/../a")
  | 2 => keep (close_open "grindir/../grindir/../b")
  | 3 => keep (unlink_ "grindir/../a")
  | 4 => keep (let* r := chdir (text "grindir") in
               do* fail_if (negb (r =? 0)) "grind: chdir grindir failed\n" [];
               do* unlink_ "../b";
               ignore (chdir (text "/")))
  | 5 => reopen g "/grindir/../a"
  | 6 => reopen g "/./grindir/./../b"
  | 7 => keep (ignore (write (g_fd g) (g_buf g) 999))
  | 8 => let* '(_, bs) := read (g_fd g) 999 in ret* (mkgvars (rand_next g) (g_fd g) (bs ++ drop (length bs) (g_buf g)))
  | 9 => keep (do* mkdir (text "grindir/../a"); do* close_open "a/../a/./a"; unlink_ "a/a")
  | 10 => keep (do* mkdir (text "/../b"); do* close_open "grindir/../b/b"; unlink_ "b/b")
  | 11 => keep (do* unlink_ "b"; ignore (link (text "../grindir/./../a") (text "../b")))
  | 12 => keep (do* unlink_ "../grindir/../a"; ignore (link (text ".././b") (text "/grindir/../a")))
  | 13 => keep (do* grind_fork (ret* tt); ignore wait0)
  | 14 => keep (do* grind_fork (do* fork; do* fork; ret* tt); ignore wait0)
  | 15 => keep (ignore (sbrk 6011))
  | 16 => keep (let* b := sbrk 0 in if break0 <? b then let* b := sbrk 0 in ignore (sbrk (- (b - break0))) else ret* tt)
  | 17 => keep (let* pid := grind_fork (close_open "a") in
                let* r := chdir (text "../grindir/..") in
                do* fail_if (negb (r =? 0)) "grind: chdir failed\n" [];
                do* kill pid;
                ignore wait0)
  | 18 => keep (do* grind_fork (let* pid := getpid in ignore (kill pid)); ignore wait0)
  | 19 => keep go_pipe
  | 20 => keep (do* grind_fork (do* unlink_ "a"; do* mkdir (text "a"); do* chdir (text "a"); do* unlink_ "../a";
                                do* open (text "x") O_NEW; unlink_ "x");
                ignore wait0)
  | 21 => keep go_create
  | 22 => keep go_pipeline
  | _ => ret* g
  end.

Definition rand (g : gvars) : Z * gvars :=
  let '(x, next) := do_rand (rand_next g) in (x, mkgvars next (g_fd g) (g_buf g)).

Definition go_round (which_child break0 iters : Z) (g : gvars) : proc gvars :=
  do* (if iters mod 500 =? 0 then ignore (write 1 (text (if which_child =? 0 then "A" else "B")) 1) else ret* tt);
  let '(x, g) := rand g in
  go_what break0 (Z.rem x 23) g.

Definition go (which_child next : Z) : proc unit :=
  let* break0 := sbrk 0 in
  do* mkdir (text "grindir");
  let* r := chdir (text "grindir") in
  do* fail_if (negb (r =? 0)) "grind: chdir grindir failed\n" [];
  do* chdir (text "/");
  loop (0, mkgvars next (-1) (replicate 999 0)) (fun s =>
    let iters := u64 (s.1 + 1) in
    let* g := go_round which_child break0 iters s.2 in
    ret* (inl (iters, g))).

Definition iter {A} (next : Z) : proc A :=
  do* unlink_ "a";
  do* unlink_ "b";
  let* pid1 := fork in
  do* fail_if (pid1 <? 0) "grind: fork failed\n" [];
  do* (if pid1 =? 0 then do* go 0 (Z.lxor next 31); exit 0 else ret* tt);
  let* pid2 := fork in
  do* fail_if (pid2 <? 0) "grind: fork failed\n" [];
  do* (if pid2 =? 0 then do* go 1 (Z.lxor next 7177); exit 0 else ret* tt);
  let* '(_, st1) := wait (-1) in
  do* (if negb (st1 =? 0) then do* kill pid1; ignore (kill pid2) else ret* tt);
  let* '(_, st2) := wait (-1) in
  exit 0.

Definition grind_main : proc Z :=
  loop 1 (fun next =>
    let* pid := fork in
    do* (if pid =? 0 then iter next else ret* tt);
    do* (if 0 <? pid then ignore wait0 else ret* tt);
    do* pause 20;
    ret* (inl (u64 (next + 1)))).

(** C40. The generator of grind computes the multiplicative generator of Park
    and Miller modulo 2^31 - 1, without a product wider than the modulus, for
    every value of its state; its results are between 0 and 2^31 - 3, and are
    the next state. *)
Theorem do_rand_spec ctx :
  let z := (16807 * (ctx mod 0x7ffffffe + 1)) mod 0x7fffffff - 1 in
  do_rand ctx = (z, z) /\ 0 <= z <= 0x7ffffffd.
Proof.
  cbv zeta. set (x := ctx mod 0x7ffffffe + 1).
  assert (Hx : 0 < x < 0x7fffffff) by (pose proof (Z.mod_pos_bound ctx 0x7ffffffe ltac:(lia)); lia).
  pose proof (park_miller x Hx) as Hp. pose proof (Z.mod_pos_bound (16807 * x) 0x7fffffff ltac:(lia)) as Hb.
  destruct (schrage 16807 127773 2836 x) as [Hy E]; try lia. change (16807 * 127773 + 2836) with 0x7fffffff in Hy, E.
  set (y := 16807 * (x mod 127773) - 2836 * (x / 127773)) in *.
  unfold do_rand. fold x. rewrite Z.quot_div_nonneg, Z.rem_mod_nonneg by lia. fold y.
  assert (Ey : (if y <? 0 then y + 0x7fffffff else y) = (16807 * x) mod 0x7fffffff).
  { rewrite <- E. case_match eqn:Hs; [|symmetry; apply Z.mod_small; lia].
    apply Z.mod_unique_pos with (-1); lia. }
  rewrite Ey. split; [|lia]. f_equal; [apply i32_id|apply u64_id]; lia.
Qed.
